(* ===== verification/_CoqProject ===== *)
-Q . S2P
Prelude.v
Leb128.v
Cstr.v
Path.v
Env.v
Bytes.v
Io.v
Mapping.v
Macho.v
MachoProps.v
Segpatch.v
SegpatchProps.v
MachoParse.v
MachoParseProps.v
MachoChains.v
MachoMain.v
CoordMsg.v
ProcList.v
Process.v
PidTable.v
Coord.v
CoordProps.v
CoordReg.v
CoordWorld.v
CoordLive.v
Time.v
PidHooks.v
CoordClient.v
CkptFile.v
VmRegion.v
CkptImage.v
CkptRestore.v
CkptSpec.v
CkptWrite.v
CkptRead.v
CkptProps.v
CkptWorld.v
VmLayout.v
CkptStore.v
Compress.v
CompressProps.v
CompressWorld.v
Print.v
PrintProps.v
Log.v
FdTable.v
FdProps.v
FdRestore.v
FdWorld.v
FileHooks.v
FileWorld.v
SigHooks.v
SigProps.v
SigWorld.v
Pac.v
Context.v
Tls.v
PthreadHooks.v
Threads.v
ThreadsSafe.v
ThreadsHang.v
ThreadsRestart.v
ThreadsWorld.v
Restart.v
RestartTree.v
RestartRun.v
Rebuild.v
RestartInternal.v
Cycle.v
Launch.v
LaunchProps.v
RestartMain.v
RestartMainProps.v
ThreadList.v
ThreadListProps.v
Lib.v
LibProps.v
LibLife.v
LibRestart.v
LibWorld.v
