(* ===== verification/Prelude.v ===== *)
(** * xnd: transparent checkpoints of process trees, verified

    xnd runs a computation, a tree of processes, under a library injected into
    each of them, saves all of it to files on command, and rebuilds it from
    the files later.  This library models that program as Rocq functions and
    step relations and proves what makes it correct, and what does not work.

    ** The program

    - [xnd_launch] starts the coordinator daemon and the first process with
      [libxnd] injected; [xnd_command] sends the daemon a command.
    - The coordinator ([xnd/coordinator/xnd_coord.c]) knows every process,
      gives out process numbers and drives a checkpoint: a request to each
      process, a barrier, the manifest, a second barrier.
    - [libxnd], in each process, interposes the system's functions (process
      ids, threads, signals, files, time), keeps tables of what the kernel
      would forget, and has a checkpoint thread that stops the other threads
      with a signal, saves the tables, then the memory and its own context,
      and lets the threads go on.
    - [xnd_restart] reads the headers of all images, forks the process tree
      anew with its sessions and process groups, and has each process become
      [xnd_restart_internal], which maps the saved memory over itself and
      jumps into the saved context: the checkpoint thread goes on inside
      [ckpt_thread_work], reconnects to a coordinator, restores the tables and
      creates the threads again.

    ** How it is modelled

    A function of the source is a Definition or Fixpoint of its name in the
    monad [M] below: a state passed along, with the outcomes of a C
    computation (a return, [exit], a failed assertion, undefined behaviour, no
    return: fuel that ran out, or a call that waits for ever).  Integers are [Z] with their wrap-around written out,
    strings lists of characters, structures Records, tables and hash maps
    [gmap], pointers to shared descriptors keys of a heap.  A loop that is not
    structural takes fuel; the theorems give an amount that is enough, so that
    a result is never the consequence of a body that does not return.

    The kernel, libc, libpthread, dyld, zlib and libuuid are classes of
    operations over an abstract kernel state; what a theorem assumes of them
    is a second class, of laws that state documented behaviour ([IoTotal],
    [VmSpec], [LayoutSpec], [FlatWalk], [PacOk], ...).  For each such class a
    file [...World], or the end of the theorems' file, has a concrete instance,
    and every theorem with a hypothesis is applied to it in a witness that
    computes.  Components meet
    through such classes as well: [CoordTranslate] is what the process-id
    table needs of the coordinator's client, and [CoordClient] proves its laws;
    [CkptDir] is what the coordinator needs of [ckptfile.c], and [CkptStore]
    provides it.  [pstate] is the process state the components of the library
    share.

    Concurrency is an explicit sequence of steps: threads of a process take
    one atomic access at a time ([Threads.do]), two file hooks interleave
    ([FileWorld]), messages of processes reach the coordinator in any order
    ([Coord.coord_handle_msg] and the event loop).

    ** The files

    - [Prelude]: integers, outcomes, the monad, [returns] and [sat] (total and
      partial correctness), reachability, tactics, list lemmas.
    - [Cstr], [Path], [Env], [Io], [Bytes], [Leb128], [Time]: C strings,
      [xnd/util/path.c], [env.c], [io.c], [fd.c], the layout of structures in
      files, [common/leb128.h] and [byte_order.h], [wrappers/time_wrappers.c].
    - [CoordMsg], [ProcList], [Coord]: the protocol ([xnd_coord_api.c]), the
      linked list of processes ([proc_list.c]) as a heap refined by a list, and
      the daemon ([xnd_coord.c]).  [CoordProps]: suspension, barriers, epochs,
      failed directories; [CoordReg]: the invariant of registrations and the
      faults of exiting processes; [CoordLive]: a checkpoint of responsive
      processes ends; [CoordWorld]: a concrete network.
    - [Process]: the globals of [xnd_lib.c] and unsafe sections
      ([thread_info.h]).  [PidTable], [PidHooks]: [xnd/pid/].  [CoordClient]:
      [xnd_coord_client.c].
    - [CkptFile], [CkptStore]: [ckptfile.c], [shared_cache.c] and theorems.
      [VmRegion], [VmLayout]: [vm_region.h], [vm_checkpoint.c], the walks of
      [vm_restore.c].  [CkptImage], [CkptRestore]: [writeckpt.c], [readckpt.c],
      [vm_restore.c]; [CkptSpec] states what memory and files are, [CkptWrite]
      and [CkptRead] prove each half, [CkptProps] the round trip and its
      faults, [CkptWorld] is a small process.
    - [FdTable], [FdProps], [FdRestore], [FdWorld], [FileHooks], [FileWorld]:
      [fd_table.c] and [wrappers/file_wrappers.c].
    - [SigHooks], [SigProps], [SigWorld]: [wrappers/signal_wrappers.c],
      [platform/signal.c] and the signal state of threads.
    - [Pac], [Tls]: [pac.c], [tls.c] and the thread-local storage of
      [thread_info.c].  [PthreadHooks]: [wrappers/pthread_wrappers.c] and
      [wrappers/stdlib_wrappers.c].
    - [Threads], [ThreadsSafe], [ThreadsHang], [ThreadsRestart],
      [ThreadsWorld]: [thread_info.c], the protocol between the checkpoint
      thread and the others.
    - [Restart], [RestartTree], [RestartRun], [Rebuild]:
      [xnd_restart.h] and [xnd_restart.cpp].
    - [RestartInternal], [Cycle]: [xnd_checkpoint] and
      [xnd_restart_internal.c], end to end.
    - [Context]: [platform/ucontext/], the accessors of [pac.h],
      [thread_restore_context] and [mach_trap.c].
    - [ThreadList], [ThreadListProps]: the linked lists of thread descriptors
      of [thread_info.c], which refine the lists of [Threads].
    - [Lib], [LibProps], [LibLife], [LibRestart], [LibWorld]:
      [xnd_lib.c] and what [thread_info.c] does at start, [fork] and exit, on
      the statics of all components together.
    - [Compress], [CompressProps], [CompressWorld]: [util/compress.c].
      [Print], [PrintProps]: [xnd_print.c].  [Log]:
      [util/log.c] and the searches of [util/debug.c].
    - [Mapping]: mapped files.  [Macho], [MachoProps]: [platform/macho.c].
      [Segpatch], [SegpatchProps]: [segpatch.c].  [MachoParse],
      [MachoParseProps], [MachoChains], [MachoMain]:
      [platform/xnd_macho_parse.c], the streams it decodes and its listing.
    - [Launch], [LaunchProps]: [xnd_launch.c], [xnd_command.c],
      [platform/exe.c] and how a coordinator is started.  [RestartMain],
      [RestartMainProps]: [main] and the constructors of
      the restart program, around [Restart].

    ** What is proved

    - The checkpoint itself: [Cycle.checkpoint_restarts] (what is saved is
      what a restart goes on with), on top of the image's exact bytes
      ([CkptProps.write_ckpt_image]), the round trip of the memory
      ([CkptProps.checkpoint_roundtrip]) and the completeness and bounds of
      the survey ([VmLayout.save_regions_complete]).
    - The process tree: [Rebuild.restart_rebuilds] rebuilds every parent, and
      the sessions and groups of leaders, of their children and of roots; what
      it does not rebuild is exhibited ([Rebuild.job_group],
      [Rebuild.late_leader_session], [Rebuild.pipeline_twice]).
    - Stopping and resuming threads: [ThreadsSafe.image_written_alone] and
      [ThreadsRestart.restart_gathers] hold of every interleaving, by rule
      induction on reachability, the second with a completion from every state;
      the races left are schedules and hangs that are exhibited.
    - The state the kernel forgets survives a first restart as far as the
      library keeps it: the descriptors of files and directories and the
      standard ones, with their flags, signal dispositions, the thread-local
      slots from 20 on, pointer signatures and pthread tokens.
    - The coordinator: safety of suspension and barriers, the invariant of
      registrations, liveness of a checkpoint.
    - The hooks: those of files ([FileHooks.file_hooks_track]), threads
      ([PthreadHooks.thread_hooks_translate]), signals
      ([SigProps.ckpt_signal_protected]), process groups and libproc
      ([PidHooks.pid_hooks_balanced]); each theorem names the hooks it is about.
      The client they ask returns unless the coordinator is silent
      ([CoordClient.client_keeps_promise]).
    - From a directory of files to a process tree:
      [RestartMainProps.directory_rebuilt] composes the manifest, the headers
      and the decompression of images with [Rebuild]; the images a compressed
      checkpoint leaves are those of [CompressProps.compressed_image_restored].
    - The library as a whole: [LibLife.library_starts],
      [LibProps.forked_child_fresh] and [LibRestart.state_restored] run the
      components' operations one after the other on one state; what [Threads]
      proves of lists is true of the pointers by
      [ThreadListProps.thread_lists_refine].
    - Machine state: [Context.context_resumed] says of the assembly routine
      that it resumes the function that saved the context, on a stack whose
      return addresses authenticate.
    - The tools: the copy of an executable that [xnd_launch] runs
      ([MachoProps.arm64_copy_written], [LaunchProps.launch_starts_copy]), the
      bindings the Mach-O printer lists ([MachoMain.bind_info_listed], of the
      operations it prints rightly), and
      the image printer, which shows what the writer wrote except for regions
      that are saved whole ([PrintProps.written_image_printed],
      [PrintProps.whole_region_misread]).

    ** Bounds and fuel

    Fuel is a counter of iterations, never of time.  The walks of an address
    space of n regions nested h deep take at most (n+1)(h+1) queries; a loop
    that transfers bytes takes at most one call per byte, if no [read] waits
    for ever ([IoAnswers]; the client's theorems say what holds when one may); [create_process]
    nests at most as deep as there are targets, since a process is created by
    an older one; re-signing visits each frame once; message loops of the
    coordinator are bounded by the messages its peers still owe it.  Array
    bounds of the source are kept: a write past an array is [Ub] in the model,
    and theorems either exclude it by a hypothesis or show it happens.

    ** Not modelled

    The functions of [util/log.c] and [util/debug.c] that print values the
    system gives, the texts around the values a program prints, and messages
    of errors.  The variants of the accessors of [pac.h] for another ABI, and
    the timer macros, which the default build does not compile.  That the
    registers [getcontext] saves are those of its caller is a hypothesis of
    [Context]; elsewhere a saved context is an opaque sequence of bytes.
    Signals the daemon and the restart program get, and the scheduling of
    processes other than through the messages they send.  The test programs
    are computations to be checkpointed.

    The findings of the manifest are consequences of the model: places where
    the code does not do what it or its comments say. *)

From stdpp Require Export base tactics numbers list gmap strings.
From Stdlib Require Export ZArith Lia.
From Hammer Require Export Tactics.


(** * Machine integers

    The C integer types are represented by [Z]; every operation that can
    wrap writes the wrap-around out. *)

Definition wrapu (w z : Z) : Z := (z mod 2 ^ w)%Z.
Definition wraps (w z : Z) : Z := ((z + 2 ^ (w - 1)) mod 2 ^ w - 2 ^ (w - 1))%Z.

Abbreviation u8 := (wrapu 8).
Abbreviation u16 := (wrapu 16).
Abbreviation u32 := (wrapu 32).
Abbreviation u64 := (wrapu 64).
Abbreviation s32 := (wraps 32).
Abbreviation s64 := (wraps 64).

Definition in_u (w z : Z) : Prop := (0 <= z < 2 ^ w)%Z.
Definition in_s (w z : Z) : Prop := (- 2 ^ (w - 1) <= z < 2 ^ (w - 1))%Z.

Lemma wrapu_range w z : (0 <= w)%Z -> in_u w (wrapu w z).
Proof. intros. unfold in_u, wrapu. apply Z.mod_pos_bound. lia. Qed.

Lemma wrapu_small w z : in_u w z -> wrapu w z = z.
Proof. intros. apply Z.mod_small. exact H. Qed.

Lemma wraps_small w z : (0 < w)%Z -> in_s w z -> wraps w z = z.
Proof.
  unfold in_s, wraps. intros Hw Hz.
  assert (2 ^ w = 2 * 2 ^ (w - 1))%Z as Hp.
  { rewrite <- (Z.pow_succ_r 2 (w - 1)) by lia. f_equal. lia. }
  rewrite Z.mod_small; lia.
Qed.

Lemma wraps_range w z : (0 < w)%Z -> in_s w (wraps w z).
Proof.
  unfold in_s, wraps. intros Hw.
  assert (2 ^ w = 2 * 2 ^ (w - 1))%Z as Hp.
  { rewrite <- (Z.pow_succ_r 2 (w - 1)) by lia. f_equal. lia. }
  pose proof (Z.mod_pos_bound (z + 2 ^ (w - 1)) (2 ^ w) ltac:(lia)). lia.
Qed.

(** * Outcomes of a C computation

    [Ret] is a normal return.  [Exit] is a call of [exit] (or of
    [coord_exit]) with its status, [Abort] a failed assertion or
    [xnd_abort], [Ub] an access C leaves undefined (a null or freed
    pointer, an index out of an array), [NoFuel] a loop the fuel did not
    suffice for, or a call that does not return. *)

Inductive outcome (S A : Type) : Type :=
  | Ret (a : A) (s : S)
  | Exit (status : Z) (s : S)
  | Abort (s : S)
  | Ub
  | NoFuel.

Arguments Ret {S A}.
Arguments Exit {S A}.
Arguments Abort {S A}.
Arguments Ub {S A}.
Arguments NoFuel {S A}.

(** The state monad over outcomes, with stdpp's monadic notations. *)
Definition M (S A : Type) : Type := S -> outcome S A.

#[global] Instance M_ret S : MRet (M S) := fun A a s => Ret a s.
#[global] Instance M_bind S : MBind (M S) := fun A B k m s =>
  match m s with
  | Ret a s' => k a s'
  | Exit c s' => Exit c s'
  | Abort s' => Abort s'
  | Ub => Ub
  | NoFuel => NoFuel
  end.

#[global] Instance M_fmap S : FMap (M S) := fun A B f m => m ≫= fun a => mret (f a).

Definition get {S} : M S S := fun s => Ret s s.
Definition put {S} (s' : S) : M S unit := fun _ => Ret tt s'.
Definition modify {S} (f : S -> S) : M S unit := fun s => Ret tt (f s).
Definition gets {S A} (f : S -> A) : M S A := fun s => Ret (f s) s.
Definition exit_with {S A} (c : Z) : M S A := fun s => Exit c s.
Definition abort {S A} : M S A := fun s => Abort s.
Definition ub {S A} : M S A := fun _ => Ub.
Definition nofuel {S A} : M S A := fun _ => NoFuel.
(** [xnd_assert]: active in the default build (DEVELOPMENT=1). *)
Definition xnd_assert {S} (b : bool) : M S unit := if b then mret tt else abort.
(** Dereference of a pointer that may be null or freed. *)
Definition deref {S A} (o : option A) : M S A :=
  match o with Some a => mret a | None => ub end.

Lemma bind_ret {S A B} (m : M S A) (k : A -> M S B) s a s' :
  m s = Ret a s' -> (m ≫= k) s = k a s'.
Proof. intros H. unfold mbind, M_bind. by rewrite H. Qed.

Lemma bind_inv {S A B} (m : M S A) (k : A -> M S B) s b s' :
  (m ≫= k) s = Ret b s' -> exists a s1, m s = Ret a s1 /\ k a s1 = Ret b s'.
Proof. unfold mbind, M_bind. destruct (m s) eqn:E; naive_solver. Qed.

Lemma bind_assoc {S A B C} (m : M S A) (k : A -> M S B) (f : B -> M S C) s :
  ((m ≫= k) ≫= f) s = (m ≫= fun a => k a ≫= f) s.
Proof. unfold mbind, M_bind. by destruct (m s). Qed.

(** [returns m s Q]: [m] returns normally from [s], with [Q]. *)
Definition returns {S A} (m : M S A) (s : S) (Q : A -> S -> Prop) : Prop :=
  match m s with Ret a s' => Q a s' | _ => False end.

Lemma returns_bind {S A B} (m : M S A) (k : A -> M S B) s Q :
  returns m s (fun a s' => returns (k a) s' Q) -> returns (m ≫= k) s Q.
Proof. unfold returns, mbind, M_bind. destruct (m s); naive_solver. Qed.

Lemma returns_weaken {S A} (m : M S A) s (Q Q' : A -> S -> Prop) :
  returns m s Q -> (forall a s', Q a s' -> Q' a s') -> returns m s Q'.
Proof. unfold returns. destruct (m s); naive_solver. Qed.

Lemma returns_inv {S A} (m : M S A) s (Q : A -> S -> Prop) :
  returns m s Q -> exists a s', m s = Ret a s' /\ Q a s'.
Proof. unfold returns. destruct (m s); naive_solver. Qed.

(** One step of a program whose first command is known to return. *)
Lemma returns_step {S A B} (m : M S A) (k : A -> M S B) s a s' Q :
  m s = Ret a s' -> returns (k a) s' Q -> returns (m ≫= k) s Q.
Proof. intros H1 H2. unfold returns. by rewrite (bind_ret _ _ _ _ _ H1). Qed.

Lemma returns_ret {S A} (a : A) (s : S) (Q : A -> S -> Prop) : Q a s -> returns (mret a) s Q.
Proof. done. Qed.

Lemma returns_intro {S A} (m : M S A) s (Q : A -> S -> Prop) a s' :
  m s = Ret a s' -> Q a s' -> returns m s Q.
Proof. unfold returns. intros ->. done. Qed.

(** [sat ok m s Q]: [Q] holds if [m] returns; that it returns is claimed when
    [ok] is false. *)
Definition sat {S A} (ok : bool) (m : M S A) (s : S) (Q : A -> S -> Prop) : Prop :=
  match m s with Ret a s' => Q a s' | _ => ok = true end.

Lemma returns_sat {S A} (m : M S A) s Q : sat false m s Q <-> returns m s Q.
Proof. unfold sat, returns. by destruct (m s). Qed.

Lemma sat_returns {S A} ok (m : M S A) s Q : returns m s Q -> sat ok m s Q.
Proof. unfold sat, returns. by destruct (m s). Qed.

Lemma sat_bind {S A B} ok (m : M S A) (k : A -> M S B) s Q :
  sat ok m s (fun a s' => sat ok (k a) s' Q) -> sat ok (m ≫= k) s Q.
Proof. unfold sat, mbind, M_bind. destruct (m s); naive_solver. Qed.

Lemma sat_step {S A B} ok (m : M S A) (k : A -> M S B) s a s' Q :
  m s = Ret a s' -> sat ok (k a) s' Q -> sat ok (m ≫= k) s Q.
Proof. intros H1 H2. unfold sat. by rewrite (bind_ret _ _ _ _ _ H1). Qed.

Lemma sat_ret {S A} ok (a : A) (s : S) (Q : A -> S -> Prop) : Q a s -> sat ok (mret a) s Q.
Proof. done. Qed.

Lemma sat_weaken {S A} ok (m : M S A) s (Q Q' : A -> S -> Prop) :
  sat ok m s Q -> (forall a s', Q a s' -> Q' a s') -> sat ok m s Q'.
Proof. unfold sat. destruct (m s); naive_solver. Qed.

Lemma sat_post {S A} (m : M S A) s Q : sat true m s Q <-> forall a s', m s = Ret a s' -> Q a s'.
Proof. unfold sat. destruct (m s); naive_solver. Qed.

(** * Step relations *)

Section steps.
Context {A : Type} (R : A -> A -> Prop).

Inductive reach (a : A) : A -> Prop :=
  | reach_refl : reach a a
  | reach_snoc b c : reach a b -> R b c -> reach a c.

Lemma reach_trans a b c : reach a b -> reach b c -> reach a c.
Proof. intros Hab Hbc. induction Hbc; eauto using reach. Qed.

Lemma reach_invariant (I : A -> Prop) a b :
  I a -> (forall x y, I x -> R x y -> I y) -> reach a b -> I b.
Proof. intros Ha Hs. induction 1; eauto. Qed.
End steps.

(** * Automation *)

Create HintDb xnd.
#[export] Hint Resolve wrapu_range wraps_range : xnd.
#[export] Hint Rewrite @bind_ret using (first [done | eassumption]) : xnd.

(** Case analysis on the next [match] or [if] of the goal or a hypothesis. *)
Ltac split_match :=
  match goal with
  | |- context [match ?x with _ => _ end] => destruct x eqn:?
  | H : context [match ?x with _ => _ end] |- _ => destruct x eqn:?
  end.
Ltac mrun := unfold fmap, M_fmap, mbind, mret, M_bind, M_ret, get, gets, put, modify, exit_with,
  abort, ub, nofuel, xnd_assert, deref in *; simpl in *.

(** * Lists *)

Lemma Forall_impl' {A} (P Q : A -> Prop) l :
  Forall P l -> (forall x, x ∈ l -> P x -> Q x) -> Forall Q l.
Proof. rewrite !Forall_forall. naive_solver. Qed.

Lemma find_Some_elem {A} (f : A -> bool) l x : List.find f l = Some x -> x ∈ l /\ f x = true.
Proof. intros H. apply List.find_some in H. by rewrite list_elem_of_In. Qed.

Lemma find_None_elem {A} (f : A -> bool) l : List.find f l = None <-> forall x, x ∈ l -> f x = false.
Proof.
  split.
  - intros H x Hx. apply (List.find_none _ _ H). by apply list_elem_of_In.
  - intros H. destruct (List.find f l) eqn:E; [|done].
    apply find_Some_elem in E as [E1 E2]. rewrite (H _ E1) in E2. done.
Qed.
