(* ===== verification/Leb128.v ===== *)
(** LEB128 variable-length integers and byte swaps: [include/common/leb128.h]
    and [include/common/byte_order.h]. *)

From S2P Require Import Prelude.
Open Scope Z_scope.

(** ** Unsigned *)

(** One iteration of the do-while of [encode_uleb128] emits one byte and
    shifts the value; ten bytes suffice for 64 bits. *)
Fixpoint encode_uleb128_loop (fuel : nat) (value : Z) : option (list Z) :=
  match fuel with
  | O => None
  | S fuel =>
    let byte := Z.land value 127 in
    let value := Z.shiftr value 7 in
    let byte := if negb (value =? 0) then Z.lor byte 128 else byte in
    if negb (Z.land byte 128 =? 0)
    then rest ← encode_uleb128_loop fuel value; Some (byte :: rest)
    else Some [byte]
  end.

Definition encode_uleb128 (value : Z) : option (list Z) := encode_uleb128_loop 10 value.

(** [decode_uleb128]: the value read and the remaining bytes.  A read past
    the end of the buffer and a shift by 64 or more have no defined result:
    both give [None]. *)
Fixpoint decode_uleb128_loop (p : list Z) (result shift : Z) : option (Z * list Z) :=
  match p with
  | [] => None
  | b :: p' =>
    if 64 <=? shift then None else
    let result := Z.lor result (u64 (Z.shiftl (Z.land b 127) shift)) in
    let shift := shift + 7 in
    if negb (Z.land b 128 =? 0) then decode_uleb128_loop p' result shift
    else Some (result, p')
  end.

Definition decode_uleb128 (p : list Z) : option (Z * list Z) := decode_uleb128_loop p 0 0.

(** ** Signed *)

Fixpoint encode_sleb128_loop (fuel : nat) (value : Z) : option (list Z) :=
  match fuel with
  | O => None
  | S fuel =>
    let byte := Z.land value 127 in
    let value := Z.shiftr value 7 in
    let sign := if negb (Z.land byte 64 =? 0) then -1 else 0 in
    let byte := if negb (value =? sign) then Z.lor byte 128 else byte in
    if negb (Z.land byte 128 =? 0)
    then rest ← encode_sleb128_loop fuel value; Some (byte :: rest)
    else Some [byte]
  end.

Definition encode_sleb128 (value : Z) : option (list Z) := encode_sleb128_loop 10 value.

(** The accumulator [result] is an [s64]: a bit shifted to position 63 or
    above is kept modulo 2^64 and read back as two's complement. *)
Fixpoint decode_sleb128_loop (p : list Z) (result shift : Z) : option (Z * list Z) :=
  match p with
  | [] => None
  | b :: p' =>
    if 64 <=? shift then None else
    let result := s64 (Z.lor result (Z.shiftl (Z.land b 127) shift)) in
    let shift := shift + 7 in
    if negb (Z.land b 128 =? 0) then decode_sleb128_loop p' result shift
    else
      let result := if (shift <? 64) && negb (Z.land b 64 =? 0)
                    then s64 (Z.lor result (Z.shiftl (-1) shift)) else result in
      Some (result, p')
  end.

Definition decode_sleb128 (p : list Z) : option (Z * list Z) := decode_sleb128_loop p 0 0.

(** ** Lemmas *)

Lemma land_127 v : Z.land v 127 = v mod 128.
Proof. change 127 with (Z.ones 7). apply Z.land_ones. lia. Qed.

Lemma shiftr_7 v : Z.shiftr v 7 = v / 128.
Proof. rewrite Z.shiftr_div_pow2 by lia. done. Qed.

Lemma land_128_small b : 0 <= b < 128 -> Z.land b 128 = 0.
Proof.
  intros H. apply Z.bits_inj'. intros n Hn. rewrite Z.land_spec, Z.bits_0.
  change 128 with (2 ^ 7). rewrite Z.pow2_bits_eqb by lia.
  destruct (Z.eqb_spec 7 n); [subst|by rewrite andb_false_r].
  rewrite andb_true_r. destruct (decide (b = 0)); [subst; by rewrite Z.bits_0|].
  apply Z.bits_above_log2; [lia|]. apply Z.log2_lt_pow2; lia.
Qed.

Lemma lor_128 b : 0 <= b < 128 -> Z.lor b 128 = b + 128.
Proof.
  intros H. pose proof (land_128_small b H) as Hl.
  rewrite <- Z.lxor_lor by done. symmetry. by apply Z.add_nocarry_lxor.
Qed.

Lemma land_128_hi b : 0 <= b < 128 -> Z.land (Z.lor b 128) 128 = 128.
Proof.
  intros H. rewrite Z.land_lor_distr_l, land_128_small by done. done.
Qed.

Lemma land_127_hi b : 0 <= b < 128 -> Z.land (Z.lor b 128) 127 = b.
Proof.
  intros H. rewrite lor_128, land_127 by done. rewrite <- (Z.mul_1_l 128) at 1.
  rewrite Z.mod_add by lia. by apply Z.mod_small.
Qed.

Lemma lor_disjoint r b shift :
  0 <= shift -> 0 <= r < 2 ^ shift -> Z.lor r (Z.shiftl b shift) = r + b * 2 ^ shift.
Proof.
  intros Hs Hr. rewrite <- Z.shiftl_mul_pow2 by done.
  assert (Z.land r (Z.shiftl b shift) = 0) as Hl.
  { apply Z.bits_inj'. intros n Hn. rewrite Z.land_spec, Z.bits_0.
    destruct (decide (n < shift)).
    { rewrite Z.shiftl_spec_low by lia. apply andb_false_r. }
    destruct (decide (r = 0)); [subst; by rewrite Z.bits_0|].
    rewrite (Z.bits_above_log2 r); [done|lia|].
    apply Z.lt_le_trans with shift; [apply Z.log2_lt_pow2; lia|lia]. }
  rewrite <- Z.lxor_lor by done. symmetry. by apply Z.add_nocarry_lxor.
Qed.

Lemma pow2_split a b : 0 <= a -> 0 <= b -> 2 ^ (a + b) = 2 ^ a * 2 ^ b.
Proof. intros. by apply Z.pow_add_r. Qed.

Lemma div_mod_128 v : v = v / 128 * 128 + v mod 128 /\ 0 <= v mod 128 < 128.
Proof. split; [|apply Z.mod_pos_bound; lia]. pose proof (Z.div_mod v 128). lia. Qed.

(** The invariant of the two unsigned loops run one after the other. *)
Lemma uleb128_loops fuel v shift r rest bs :
  0 <= shift -> 0 <= v -> 0 <= r < 2 ^ shift -> r + v * 2 ^ shift < 2 ^ 64 -> shift < 64 ->
  encode_uleb128_loop fuel v = Some bs ->
  decode_uleb128_loop (bs ++ rest) r shift = Some (r + v * 2 ^ shift, rest).
Proof.
  revert v shift r bs. induction fuel as [|fuel IH]; intros v shift r bs Hs Hv Hr Ht Hs64; [done|].
  cbn [encode_uleb128_loop]. rewrite land_127, shiftr_7.
  destruct (div_mod_128 v) as [Hdiv Hm]. set (c := v mod 128) in *. set (q := v / 128) in *.
  pose proof (Z.pow_pos_nonneg 2 shift ltac:(lia) Hs) as Hp.
  assert (0 <= q) by (apply Z.div_pos; lia).
  assert (u64 (Z.shiftl c shift) = Z.shiftl c shift) as Hw.
  { apply wrapu_small. rewrite Z.shiftl_mul_pow2 by done. unfold in_u. split; nia. }
  destruct (Z.eqb_spec q 0) as [Hq|Hq]; cbn [negb].
  - rewrite land_128_small by done. cbn. intros [= <-]. cbn.
    rewrite (proj2 (Z.leb_gt _ _)) by lia. rewrite land_128_small by done. cbn.
    rewrite land_127, Z.mod_small, Hw, lor_disjoint by done. repeat f_equal. lia.
  - rewrite land_128_hi by done. cbn.
    destruct (encode_uleb128_loop fuel q) as [bs'|] eqn:E; [|done]. cbn. intros [= <-]. cbn.
    rewrite (proj2 (Z.leb_gt _ _)) by lia. rewrite land_128_hi, land_127_hi by done. cbn.
    rewrite Hw, lor_disjoint by done.
    assert (2 ^ (shift + 7) = 2 ^ shift * 128) as Hp7 by (rewrite pow2_split; lia).
    assert (r + c * 2 ^ shift + q * 2 ^ (shift + 7) = r + v * 2 ^ shift) as Hsum by (rewrite Hp7; nia).
    assert (2 ^ (shift + 7) < 2 ^ 64) as Hlt by (rewrite Hp7; nia).
    apply Z.pow_lt_mono_r_iff in Hlt; [|lia|lia].
    rewrite (IH q (shift + 7) _ bs'); [by rewrite Hsum| lia | lia | | by rewrite Hsum | done | done].
    rewrite Hp7. nia.
Qed.

Lemma encode_uleb128_loop_total fuel v :
  0 <= v < 2 ^ (7 * Z.of_nat fuel) -> is_Some (encode_uleb128_loop fuel v) \/ fuel = O.
Proof.
  revert v. induction fuel as [|fuel IH]; intros v Hv; [by right|]. left.
  cbn [encode_uleb128_loop]. rewrite land_127, shiftr_7.
  destruct (div_mod_128 v) as [Hdiv Hm].
  destruct (Z.eqb_spec (v / 128) 0) as [Hq|Hq]; cbn [negb].
  - rewrite land_128_small by done. cbn. by eexists.
  - rewrite land_128_hi by done. cbn.
    replace (7 * Z.of_nat (S fuel)) with (7 * Z.of_nat fuel + 7) in Hv by lia.
    rewrite pow2_split in Hv by lia.
    assert (0 <= v / 128 < 2 ^ (7 * Z.of_nat fuel)) as Hb.
    { split; [apply Z.div_pos; lia|]. apply Z.div_lt_upper_bound; lia. }
    destruct (IH _ Hb) as [[bs ->]| ->]; [by eexists|]. change (2 ^ (7 * Z.of_nat 0)) with 1 in Hb. lia.
Qed.

(** Encoding any [u64] with [encode_uleb128] and decoding the bytes with
    [decode_uleb128], whatever follows them in the buffer, gives the value
    back and leaves the pointer just after the encoding. *)
Theorem uleb128_roundtrip (v : Z) (rest : list Z) :
  in_u 64 v ->
  exists bs, encode_uleb128 v = Some bs /\ decode_uleb128 (bs ++ rest) = Some (v, rest).
Proof.
  intros Hv. unfold in_u in Hv.
  destruct (encode_uleb128_loop_total 10 v) as [[bs Hbs]|]; [|exists bs; split; [done|]|done].
  { split; [lia|]. apply Z.lt_le_trans with (2 ^ 64); [lia|]. by apply Z.pow_le_mono_r. }
  unfold decode_uleb128. rewrite (uleb128_loops 10 v 0 0 rest bs); try lia; try done.
  repeat f_equal. lia.
Qed.

Lemma uleb128_roundtrip_witness :
  exists bs, encode_uleb128 624485 = Some bs /\ decode_uleb128 (bs ++ [7]) = Some (624485, [7]).
Proof. apply (uleb128_roundtrip 624485 [7]). split; vm_compute; congruence. Defined.

(** Bit 6 of a byte below 128 is its sign. *)
Lemma land_64 c : 0 <= c < 128 -> (Z.land c 64 =? 0) = (c <? 64).
Proof.
  intros Hc. change 64 with (2 ^ 6) at 1.
  assert (Z.land c (2 ^ 6) = if Z.testbit c 6 then 2 ^ 6 else 0) as ->.
  { apply Z.bits_inj'. intros n Hn. rewrite Z.land_spec, Z.pow2_bits_eqb by lia.
    destruct (Z.eqb_spec 6 n) as [<-|Hne].
    - rewrite andb_true_r. destruct (Z.testbit c 6); [by rewrite Z.pow2_bits_true|by rewrite Z.bits_0].
    - rewrite andb_false_r. destruct (Z.testbit c 6); [|by rewrite Z.bits_0].
      by rewrite Z.pow2_bits_false. }
  rewrite Z.testbit_eqb by lia. change (2 ^ 6) with 64.
  pose proof (Z.div_mod c 64 ltac:(lia)). pose proof (Z.mod_pos_bound c 64 ltac:(lia)).
  destruct (Z.ltb_spec c 64).
  - rewrite (Z.div_small c 64) by lia. done.
  - replace (c / 64) with 1 by (apply Z.div_unique with (c - 64); lia). done.
Qed.

(** The last byte of a signed encoding: [value >> 7] is the sign extension of
    bit 6 exactly when the value is in [-64, 64). *)
Lemma sleb_last v :
  (v / 128 =? (if negb (Z.land (v mod 128) 64 =? 0) then -1 else 0)) =
  ((-64 <=? v) && (v <? 64)).
Proof.
  destruct (div_mod_128 v) as [Hdiv Hm]. rewrite land_64 by done.
  set (c := v mod 128) in *. set (q := v / 128) in *. clearbody c q.
  destruct (Z.ltb_spec c 64); cbn [negb]; destruct (Z.eqb_spec q (-1)), (Z.eqb_spec q 0);
    destruct (Z.leb_spec (-64) v), (Z.ltb_spec v 64); cbn; lia.
Qed.

Lemma s64_small z : - 2 ^ 63 <= z < 2 ^ 63 -> s64 z = z.
Proof. intros H. apply wraps_small; [lia|]. exact H. Qed.

Lemma s64_mod z k : s64 (z + k * 2 ^ 64) = s64 z.
Proof.
  unfold wraps. replace (z + k * 2 ^ 64 + 2 ^ (64 - 1)) with (z + 2 ^ (64 - 1) + k * 2 ^ 64) by lia.
  by rewrite Z.mod_add by lia.
Qed.

(** The final byte, sign extended. *)
Lemma sleb_final c r shift v :
  0 <= shift <= 63 -> 0 <= r < 2 ^ shift -> c = v mod 128 -> -64 <= v < 64 ->
  - 2 ^ 63 <= r + v * 2 ^ shift < 2 ^ 63 -> (57 <= shift -> shift = 63) ->
  (if (shift + 7 <? 64) && negb (Z.land c 64 =? 0)
   then s64 (Z.lor (s64 (Z.lor r (Z.shiftl c shift))) (Z.shiftl (-1) (shift + 7)))
   else s64 (Z.lor r (Z.shiftl c shift))) = r + v * 2 ^ shift.
Proof.
  intros Hs Hr Hc Hv Ht H57.
  destruct (div_mod_128 v) as [Hdiv Hm]. rewrite <- Hc in Hdiv, Hm.
  rewrite land_64, (lor_disjoint r c shift) by lia.
  pose proof (Z.pow_pos_nonneg 2 shift ltac:(lia) ltac:(lia)) as Hp.
  assert (2 ^ (shift + 7) = 2 ^ shift * 128) as Hp7 by (rewrite pow2_split; lia).
  destruct (Z.ltb_spec (shift + 7) 64) as [Hlt|Hge]; cbn [andb].
  - assert (2 ^ (shift + 7) <= 2 ^ 63) as Hle by (apply Z.pow_le_mono_r; lia).
    assert (s64 (r + c * 2 ^ shift) = r + c * 2 ^ shift) as Hs1 by (apply s64_small; nia).
    rewrite Hs1. destruct (Z.ltb_spec c 64) as [Hc64|Hc64]; cbn [negb].
    + assert (v = c) by lia. by subst v.
    + assert (v = c - 128) as -> by lia.
      rewrite lor_disjoint by nia. rewrite s64_small by nia. nia.
  - assert (shift = 63) as -> by lia.
    destruct (decide (c < 64)).
    + assert (v = c) as -> by lia. by apply s64_small.
    + replace (r + c * 2 ^ 63) with (r + v * 2 ^ 63 + 64 * 2 ^ 64) by lia.
      rewrite s64_mod. by apply s64_small.
Qed.

Lemma sleb128_loops fuel v k r rest bs :
  let shift := 7 * Z.of_nat k in
  shift <= 63 -> 0 <= r < 2 ^ shift -> - 2 ^ 63 <= r + v * 2 ^ shift < 2 ^ 63 ->
  encode_sleb128_loop fuel v = Some bs ->
  decode_sleb128_loop (bs ++ rest) r shift = Some (r + v * 2 ^ shift, rest).
Proof.
  revert v k r bs. induction fuel as [|fuel IH]; intros v k r bs shift Hs Hr Ht; [done|].
  cbn [encode_sleb128_loop]. rewrite land_127, shiftr_7, sleb_last.
  destruct (div_mod_128 v) as [Hdiv Hm].
  pose proof (Z.pow_pos_nonneg 2 shift ltac:(lia) ltac:(lia)) as Hp.
  assert (2 ^ (shift + 7) = 2 ^ shift * 128) as Hp7 by (rewrite pow2_split; lia).
  destruct ((-64 <=? v) && (v <? 64)) eqn:Hlast; cbn [negb].
  - apply andb_true_iff in Hlast as [H1%Z.leb_le H2%Z.ltb_lt].
    rewrite land_128_small by done. cbn [Z.eqb negb]. intros [= <-].
    cbn [app decode_sleb128_loop]. rewrite (proj2 (Z.leb_gt _ _)) by lia.
    rewrite land_128_small, land_127 by done. cbn [Z.eqb negb].
    rewrite (Z.mod_small (v mod 128)) by done.
    rewrite sleb_final with (v := v); [done|lia|done|done|lia|done|lia].
  - rewrite land_128_hi by done. cbn [Z.eqb negb].
    destruct (encode_sleb128_loop fuel (v / 128)) as [bs'|] eqn:E; [|done]. cbn. intros [= <-].
    cbn [app decode_sleb128_loop]. rewrite (proj2 (Z.leb_gt _ _)) by lia.
    rewrite land_128_hi, land_127_hi by done. cbn [Z.eqb negb].
    rewrite lor_disjoint by lia.
    set (c := v mod 128) in *. set (q := v / 128) in *. clearbody c q.
    assert (2 ^ shift * 64 <= 2 ^ 63) as Hb.
    { apply andb_false_iff in Hlast as [H%Z.leb_gt|H%Z.ltb_ge]; nia. }
    assert (2 ^ (shift + 6) <= 2 ^ 63) as Hb' by (rewrite pow2_split; lia).
    apply Z.pow_le_mono_r_iff in Hb'; [|lia|lia].
    assert (2 ^ (shift + 7) <= 2 ^ 63) as Hle by (apply Z.pow_le_mono_r; lia).
    rewrite s64_small by nia.
    replace (shift + 7) with (7 * Z.of_nat (S k)) in * by lia.
    assert (r + c * 2 ^ shift + q * 2 ^ (7 * Z.of_nat (S k)) = r + v * 2 ^ shift) as Hsum
      by (rewrite Hp7; nia).
    rewrite (IH q (S k) _ bs'); [by rewrite Hsum|lia|nia|lia|done].
Qed.

Lemma encode_sleb128_loop_total fuel v :
  - 2 ^ (7 * Z.of_nat fuel) <= 2 * v < 2 ^ (7 * Z.of_nat fuel) -> v <> 0 \/ fuel <> O ->
  is_Some (encode_sleb128_loop fuel v) \/ fuel = O.
Proof.
  revert v. induction fuel as [|fuel IH]; intros v Hv _; [by right|]. left.
  cbn [encode_sleb128_loop]. rewrite land_127, shiftr_7, sleb_last.
  destruct (div_mod_128 v) as [Hdiv Hm].
  destruct ((-64 <=? v) && (v <? 64)) eqn:Hlast; cbn [negb].
  - rewrite land_128_small by done. by eexists.
  - rewrite land_128_hi by done. cbn [Z.eqb negb].
    replace (7 * Z.of_nat (S fuel)) with (7 * Z.of_nat fuel + 7) in Hv by lia.
    rewrite pow2_split in Hv by lia. change (2 ^ 7) with 128 in Hv.
    set (q := v / 128) in *. set (c := v mod 128) in *. clearbody q c.
    assert (fuel <> O) as Hf.
    { intros ->. change (2 ^ (7 * Z.of_nat 0)) with 1 in Hv.
      apply andb_false_iff in Hlast as [H%Z.leb_gt|H%Z.ltb_ge]; lia. }
    destruct (IH q) as [[bs ->]|]; [|by right|by eexists|done].
    destruct fuel as [|fuel]; [done|].
    replace (7 * Z.of_nat (S fuel)) with (1 + (7 * Z.of_nat fuel + 6)) in * by lia.
    rewrite pow2_split in * by lia. change (2 ^ 1) with 2 in *. lia.
Qed.

(** Encoding any [s64] with [encode_sleb128] and decoding the bytes with
    [decode_sleb128] gives the value back, negative values and the ten-byte
    encodings of the extremes included, and stops just after the encoding. *)
Theorem sleb128_roundtrip (v : Z) (rest : list Z) :
  in_s 64 v ->
  exists bs, encode_sleb128 v = Some bs /\ decode_sleb128 (bs ++ rest) = Some (v, rest).
Proof.
  intros Hv. unfold in_s in Hv.
  destruct (encode_sleb128_loop_total 10 v) as [[bs Hbs]|]; [|by right|exists bs; split; [done|]|done].
  { assert (2 ^ 64 <= 2 ^ (7 * Z.of_nat 10)) by (by apply Z.pow_le_mono_r). lia. }
  unfold decode_sleb128. pose proof (sleb128_loops 10 v 0 0 rest bs) as H. cbv zeta in H.
  change (7 * Z.of_nat 0) with 0 in H. change (2 ^ 0) with 1 in H.
  rewrite H; [f_equal; f_equal; lia|lia|lia|lia|done].
Qed.

Lemma sleb128_roundtrip_witness :
  exists bs, encode_sleb128 (- 2 ^ 63) = Some bs /\
    decode_sleb128 (bs ++ [7]) = Some (- 2 ^ 63, [7]).
Proof. apply (sleb128_roundtrip (- 2 ^ 63) [7]). split; vm_compute; congruence. Defined.

(** ** Byte swaps *)

(** The compiler's builtins, which the header prefers where there are some. *)
Definition bswap32 (x : Z) : Z :=
  let x := u32 x in
  Z.lor (Z.lor (Z.lor (u32 (Z.shiftl (Z.land x 0x000000FF) 24)) (u32 (Z.shiftl (Z.land x 0x0000FF00) 8)))
               (Z.shiftr (Z.land x 0x00FF0000) 8))
        (Z.shiftr (Z.land x 0xFF000000) 24).

Definition bswap16 (x : Z) : Z :=
  let x := u16 x in
  Z.lor (u16 (Z.shiftl (Z.land x 0x00FF) 8)) (Z.shiftr (Z.land x 0xFF00) 8).

(** The macros of the header for a compiler without them. *)
Definition __bswap16 (x : Z) : Z :=
  let x := u16 x in Z.lor (Z.shiftl (Z.land x 0x00FF) 8) (Z.shiftr (Z.land x 0xFF00) 8).
Definition __bswap32 (x : Z) : Z :=
  let x := u32 x in
  Z.lor (Z.lor (Z.lor (u32 (Z.shiftl (Z.land x 0x000000FF) 24)) (u32 (Z.shiftl (Z.land x 0x0000FF00) 8)))
               (Z.shiftr (Z.land x 0x00FF0000) 8))
        (u32 (Z.shiftl (Z.land x 0xFF000000) 24)).
Definition __bswap64 (x : Z) : Z :=
  let x := u64 x in
  Z.lor (Z.lor (Z.lor (Z.lor (Z.lor (Z.lor (Z.lor
    (u64 (Z.shiftl (Z.land x 0x00000000000000FF) 56)) (u64 (Z.shiftl (Z.land x 0x000000000000FF00) 40)))
    (u64 (Z.shiftl (Z.land x 0x0000000000FF0000) 24))) (u64 (Z.shiftl (Z.land x 0x00000000FF000000) 8)))
    (Z.shiftr (Z.land x 0x000000FF00000000) 8)) (Z.shiftr (Z.land x 0x0000FF0000000000) 24))
    (Z.shiftr (Z.land x 0x00FF000000000000) 40)) (Z.shiftr (Z.land x 0xFF00000000000000) 56).

(** A value's byte shifted out of its width is lost. *)
Lemma shifted_out w x m k : 0 <= w -> 0 <= k -> (forall n, 0 <= n < w - k -> Z.testbit m n = false) ->
  Z.shiftl (Z.land x m) k mod 2 ^ w = 0.
Proof.
  intros Hw Hk Hm. apply Z.bits_inj'. intros n Hn. rewrite Z.bits_0. destruct (Z_lt_ge_dec n w).
  - rewrite Z.mod_pow2_bits_low by lia. rewrite Z.shiftl_spec by lia.
    destruct (Z_lt_ge_dec n k); [by rewrite Z.testbit_neg_r by lia|].
    by rewrite Z.land_spec, Hm, andb_false_r by lia.
  - by rewrite Z.mod_pow2_bits_high by lia.
Qed.
(** The macro for 32 bits shifts the highest byte the wrong way: what it
    returns lacks its lowest byte. *)
Lemma bswap32_fallback_loses x : bswap32 x = Z.lor (__bswap32 x) (Z.shiftr (Z.land (u32 x) 0xFF000000) 24).
Proof.
  unfold bswap32, __bswap32. cbv zeta.
  assert (u32 (Z.shiftl (Z.land (u32 x) 0xFF000000) 24) = 0) as ->; [|by rewrite Z.lor_0_r].
  apply (shifted_out 32); [lia..|]. intros n Hn.
  assert (n = 0 \/ n = 1 \/ n = 2 \/ n = 3 \/ n = 4 \/ n = 5 \/ n = 6 \/ n = 7) as Hc by lia.
  repeat destruct Hc as [->|Hc]; [reflexivity..|]. by subst.
Qed.
Example bswap32_fallback_ex : __bswap32 0x12345678 = 0x78563400 /\ bswap32 0x12345678 = 0x78563412.
Proof. vm_compute. done. Qed.
Example bswap64_ex : __bswap64 0x0123456789abcdef = 0xefcdab8967452301.
Proof. reflexivity. Qed.

Example encode_uleb128_ex : encode_uleb128 624485 = Some [229; 142; 38].
Proof. reflexivity. Qed.
Example encode_sleb128_ex : encode_sleb128 (-123456) = Some [192; 187; 120].
Proof. reflexivity. Qed.
Example decode_sleb128_ex : decode_sleb128 [192; 187; 120; 1] = Some (-123456, [1]).
Proof. reflexivity. Qed.
