(* ===== verification/Cstr.v ===== *)
(** The C string functions the program uses: [strlen], [strlcpy], [strlcat],
    [strchr], [strrchr], [atoi] and the decimal conversions of [snprintf].
    A string is the list of its characters before the terminating NUL. *)

From S2P Require Import Prelude.
From Stdlib Require Ascii String.
Import Stdlib.Strings.Ascii.
Open Scope Z_scope.

Abbreviation cstr := (list ascii).
Definition cs (s : string) : cstr := String.list_ascii_of_string s.

Definition strlen (s : cstr) : Z := Z.of_nat (length s).
Definition slash : ascii := "/"%char.
Definition dot : ascii := "."%char.
Definition colon : ascii := ":"%char.

(** [strlcpy(dst, src, n)] leaves the first [n - 1] characters of [src]. *)
Definition strlcpy (src : cstr) (n : Z) : cstr := take (Z.to_nat (n - 1)) src.
(** [strlcat(dst, src, n)]: never more than [n - 1] characters in total. *)
Definition strlcat (dst src : cstr) (n : Z) : cstr :=
  if n <=? strlen dst then dst else dst ++ take (Z.to_nat (n - 1 - strlen dst)) src.
(** [snprintf] into a buffer of [n] bytes. *)
Definition snprintf (n : Z) (s : cstr) : cstr := take (Z.to_nat (n - 1)) s.

(** Index of the last (first) occurrence of [c]. *)
Fixpoint strrchr (s : cstr) (c : ascii) : option nat :=
  match s with
  | [] => None
  | a :: s' => match strrchr s' c with
               | Some i => Some (S i)
               | None => if Ascii.eqb a c then Some O else None
               end
  end.
Fixpoint strchr (s : cstr) (c : ascii) : option nat :=
  match s with
  | [] => None
  | a :: s' => if Ascii.eqb a c then Some O else S <$> strchr s' c
  end.

(** ** Decimal numbers *)

Definition digit (d : Z) : ascii := ascii_of_nat (48 + Z.to_nat d).
Definition digit_val (a : ascii) : option Z :=
  let n := Z.of_nat (nat_of_ascii a) in
  if (48 <=? n) && (n <=? 57) then Some (n - 48) else None.

Fixpoint dec_loop (fuel : nat) (n : Z) (acc : cstr) : cstr :=
  match fuel with
  | O => acc
  | S fuel => let acc := digit (n mod 10) :: acc in
              if n <? 10 then acc else dec_loop fuel (n / 10) acc
  end.
(** ["%u"] and ["%llu"]: 20 digits hold every 64-bit value. *)
Definition show_u (n : Z) : cstr := dec_loop 20 n [].
(** ["%d"] *)
Definition show_d (z : Z) : cstr :=
  if z <? 0 then "-"%char :: show_u (- z) else show_u z.

Fixpoint parse_digits (s : cstr) (acc : Z) : Z :=
  match s with
  | [] => acc
  | a :: s' => match digit_val a with
               | Some d => parse_digits s' (acc * 10 + d)
               | None => acc
               end
  end.

Definition is_space (a : ascii) : bool :=
  let n := nat_of_ascii a in (n =? 32)%nat || ((9 <=? n) && (n <=? 13))%nat.
Fixpoint skip_space (s : cstr) : cstr :=
  match s with
  | a :: s' => if is_space a then skip_space s' else s
  | [] => []
  end.
(** [atoi] is [(int)strtol(s, NULL, 10)]: [strtol] clamps to [long]. *)
Definition clamp64 (z : Z) : Z := Z.max (- 2 ^ 63) (Z.min (2 ^ 63 - 1) z).
Definition atoi (s : cstr) : Z :=
  match skip_space s with
  | [] => 0
  | a :: s' => if Ascii.eqb a "-" then s32 (clamp64 (- parse_digits s' 0))
               else if Ascii.eqb a "+" then s32 (clamp64 (parse_digits s' 0))
               else s32 (clamp64 (parse_digits (a :: s') 0))
  end.

#[global] Arguments digit : simpl never.
#[global] Arguments digit_val : simpl never.
#[global] Arguments is_space : simpl never.

(** ** Lemmas *)

Lemma strlen_nonneg s : 0 <= strlen s.
Proof. unfold strlen. lia. Qed.

Lemma strlen_app s t : strlen (s ++ t) = strlen s + strlen t.
Proof. unfold strlen. rewrite length_app. lia. Qed.

Lemma strlcpy_fit s n : strlen s < n -> strlcpy s n = s.
Proof. unfold strlen, strlcpy. intros. apply take_ge. lia. Qed.

Lemma snprintf_fit s n : strlen s < n -> snprintf n s = s.
Proof. apply strlcpy_fit. Qed.

Lemma strlcat_fit s t n : strlen s + strlen t < n -> strlcat s t n = s ++ t.
Proof.
  pose proof (strlen_nonneg t). intros. unfold strlcat.
  rewrite (proj2 (Z.leb_gt _ _)) by lia. f_equal. apply take_ge. unfold strlen in *. lia.
Qed.

Lemma strrchr_spec s c i :
  strrchr s c = Some i -> s !! i = Some c /\ c ∉ drop (S i) s.
Proof.
  revert i. induction s as [|a s IH]; intros i; [done|]. simpl.
  destruct (strrchr s c) as [j|] eqn:E.
  - intros [= <-]. simpl. by apply IH.
  - destruct (Ascii.eqb_spec a c); [|done]. intros [= <-]. subst. split; [done|]. simpl.
    clear IH. induction s as [|b s IH]; [apply not_elem_of_nil|]. simpl in E.
    destruct (strrchr s c); [done|]. destruct (Ascii.eqb_spec b c); [done|].
    rewrite drop_0 in *. apply not_elem_of_cons. split; [congruence|auto].
Qed.

Lemma strrchr_None s c : strrchr s c = None <-> c ∉ s.
Proof.
  induction s as [|a s IH]; simpl; [split; [intros _; apply not_elem_of_nil|done]|].
  rewrite not_elem_of_cons. destruct (strrchr s c) as [j|].
  - split; [done|]. intros [_ H]. by apply IH in H.
  - destruct (Ascii.eqb_spec a c); naive_solver.
Qed.

Lemma strrchr_lt s c i : strrchr s c = Some i -> (i < length s)%nat.
Proof. intros [H _]%strrchr_spec. by apply lookup_lt_Some in H. Qed.

Lemma strrchr_app s t c :
  c ∉ t -> strrchr (s ++ c :: t) c = Some (length s).
Proof.
  intros Ht. induction s as [|a s IH]; simpl.
  - rewrite (proj2 (strrchr_None t c)) by done. by rewrite Ascii.eqb_refl.
  - by rewrite IH.
Qed.

Lemma digit_val_digit d : 0 <= d < 10 -> digit_val (digit d) = Some d.
Proof.
  intros H. assert (d = 0 \/ d = 1 \/ d = 2 \/ d = 3 \/ d = 4 \/ d = 5 \/ d = 6 \/ d = 7 \/ d = 8 \/ d = 9)
    as Hd by lia. by repeat destruct Hd as [->|Hd]; [..|subst].
Qed.

Lemma digit_inj d e : 0 <= d < 10 -> 0 <= e < 10 -> digit d = digit e -> d = e.
Proof. intros Hd He H. apply (f_equal digit_val) in H. rewrite !digit_val_digit in H by done. congruence. Qed.

Lemma digit_not_special d : 0 <= d < 10 -> is_space (digit d) = false /\
  Ascii.eqb (digit d) "-" = false /\ Ascii.eqb (digit d) "+" = false.
Proof.
  intros H. assert (d = 0 \/ d = 1 \/ d = 2 \/ d = 3 \/ d = 4 \/ d = 5 \/ d = 6 \/ d = 7 \/ d = 8 \/ d = 9)
    as Hd by lia. by repeat destruct Hd as [->|Hd]; [..|subst].
Qed.

(** The digits prepended by [dec_loop] read back as the number. *)
Lemma parse_dec_loop fuel n acc a :
  0 <= n < 10 ^ Z.of_nat fuel -> 0 <= a ->
  exists k, 0 <= k /\ parse_digits (dec_loop fuel n acc) a = parse_digits acc (a * 10 ^ k + n) /\
    (fuel <> O -> (length acc + 1 <= length (dec_loop fuel n acc))%nat /\ n < 10 ^ k /\
    Z.of_nat (length (dec_loop fuel n acc)) = Z.of_nat (length acc) + k).
Proof.
  revert n acc a. induction fuel as [|fuel IH]; intros n acc a Hn Ha.
  { exists 0. change (10 ^ Z.of_nat 0) with 1 in Hn. split; [done|]. split; [|done]. simpl. f_equal. lia. }
  cbn [dec_loop]. pose proof (Z.mod_pos_bound n 10 ltac:(lia)) as Hm.
  pose proof (Z.div_mod n 10 ltac:(lia)) as Hd.
  destruct (Z.ltb_spec n 10).
  - exists 1. split; [done|]. cbn [parse_digits]. rewrite digit_val_digit by done. rewrite Z.mod_small by lia.
    split; [by rewrite Z.pow_1_r|]. intros _. rewrite Z.pow_1_r. cbn [length]. lia.
  - destruct fuel as [|fuel].
    { change (10 ^ Z.of_nat 1) with 10 in Hn. lia. }
    assert (0 <= n / 10 < 10 ^ Z.of_nat (S fuel)) as Hq.
    { split; [apply Z.div_pos; lia|]. apply Z.div_lt_upper_bound; [lia|].
      replace (Z.of_nat (S (S fuel))) with (1 + Z.of_nat (S fuel)) in Hn by lia.
      rewrite Z.pow_add_r in Hn by lia. lia. }
    destruct (IH (n / 10) (digit (n mod 10) :: acc) a Hq Ha) as (k & Hk & Hp & Hl).
    destruct (Hl ltac:(done)) as (Hl1 & Hl2 & Hl3).
    exists (k + 1). split; [lia|]. rewrite Hp. cbn [parse_digits]. rewrite digit_val_digit by done.
    rewrite Z.pow_add_r, Z.pow_1_r by lia. split; [f_equal; lia|]. intros _.
    cbn [length] in Hl1, Hl3. lia.
Qed.

Lemma show_u_parse n : 0 <= n < 2 ^ 64 -> parse_digits (show_u n) 0 = n.
Proof.
  intros H. destruct (parse_dec_loop 20 n [] 0) as (k & _ & Hp & _); [|lia|].
  { assert (2 ^ 64 <= 10 ^ Z.of_nat 20) by (by vm_compute). lia. }
  unfold show_u. rewrite Hp. simpl. lia.
Qed.

Lemma show_u_length n : 0 <= n < 2 ^ 64 -> 1 <= strlen (show_u n).
Proof.
  intros H. destruct (parse_dec_loop 20 n [] 0) as (k & _ & _ & Hl); [|lia|].
  { assert (2 ^ 64 <= 10 ^ Z.of_nat 20) by (by vm_compute). lia. }
  destruct (Hl ltac:(done)) as [Hl' _]. unfold strlen, show_u. cbn [length] in Hl'. lia.
Qed.

(** A number below [10 ^ w] has at most [w] digits. *)
Lemma dec_loop_length fuel n acc w :
  0 <= n < 10 ^ Z.of_nat w -> (w <> 0)%nat -> (length (dec_loop fuel n acc) <= length acc + w)%nat.
Proof.
  revert n acc w. induction fuel as [|fuel IH]; intros n acc w Hn Hw; simpl; [lia|].
  destruct (Z.ltb_spec n 10); [simpl; lia|].
  destruct w as [|[|w]]; [lia|change (10 ^ Z.of_nat 1) with 10 in Hn; lia|].
  assert (0 <= n / 10 < 10 ^ Z.of_nat (S w)) as Hq.
  { split; [apply Z.div_pos; lia|]. apply Z.div_lt_upper_bound; [lia|].
    replace (Z.of_nat (S (S w))) with (1 + Z.of_nat (S w)) in Hn by lia.
    rewrite Z.pow_add_r in Hn by lia. lia. }
  pose proof (IH _ (digit (n mod 10) :: acc) _ Hq ltac:(done)) as H'. simpl in H'. lia.
Qed.

Lemma show_u_length_le n w :
  0 <= n < 10 ^ Z.of_nat w -> (w <> 0)%nat -> strlen (show_u n) <= Z.of_nat w.
Proof.
  intros H1 H2. pose proof (dec_loop_length 20 n [] w H1 H2) as H. cbn [length] in H. unfold strlen, show_u. lia. Qed.

Lemma show_u_inj n m : 0 <= n < 2 ^ 64 -> 0 <= m < 2 ^ 64 -> show_u n = show_u m -> n = m.
Proof. intros Hn Hm H. rewrite <- (show_u_parse n), <- (show_u_parse m) by done. by rewrite H. Qed.

Lemma dec_loop_digits fuel n acc :
  0 <= n -> Forall (fun a => is_Some (digit_val a)) acc ->
  Forall (fun a => is_Some (digit_val a)) (dec_loop fuel n acc).
Proof.
  revert n acc. induction fuel as [|fuel IH]; intros n acc Hn Hacc; simpl; [done|].
  pose proof (Z.mod_pos_bound n 10 ltac:(lia)) as Hm.
  assert (is_Some (digit_val (digit (n mod 10)))) by (rewrite digit_val_digit by done; by eexists).
  destruct (n <? 10); [by constructor|]. apply IH; [apply Z.div_pos; lia|by constructor].
Qed.

Lemma show_u_digits n : 0 <= n -> Forall (fun a => is_Some (digit_val a)) (show_u n).
Proof. intros. by apply dec_loop_digits. Qed.

Lemma digit_val_plain a : is_Some (digit_val a) ->
  is_space a = false /\ Ascii.eqb a "-" = false /\ Ascii.eqb a "+" = false.
Proof.
  unfold digit_val. intros [d H]. unfold is_space.
  destruct ((48 <=? Z.of_nat (nat_of_ascii a)) && (Z.of_nat (nat_of_ascii a) <=? 57)) eqn:E; [|done].
  apply andb_true_iff in E as [H1%Z.leb_le H2%Z.leb_le].
  split; [|split].
  - apply orb_false_iff. split; [apply Nat.eqb_neq; lia|]. apply andb_false_iff. right. apply Nat.leb_gt. lia.
  - apply Ascii.eqb_neq. intros ->. compute in H1. congruence.
  - apply Ascii.eqb_neq. intros ->. compute in H1. congruence.
Qed.

Lemma clamp64_small z : - 2 ^ 63 <= z < 2 ^ 63 -> clamp64 z = z.
Proof. unfold clamp64. lia. Qed.

Lemma atoi_show_u n : 0 <= n < 2 ^ 31 -> atoi (show_u n) = n.
Proof.
  intros H. pose proof (show_u_parse n ltac:(lia)) as Hp.
  pose proof (show_u_length n ltac:(lia)) as Hl. pose proof (show_u_digits n ltac:(lia)) as Hd.
  unfold atoi. destruct (show_u n) as [|a s]; [done|].
  apply Forall_cons in Hd as [Ha _]. destruct (digit_val_plain a Ha) as (H1 & H2 & H3).
  cbn [skip_space]. rewrite H1, H2, H3, Hp. rewrite clamp64_small by lia. apply wraps_small; [lia|].
  unfold in_s. lia.
Qed.

Lemma atoi_show_d z : in_s 32 z -> atoi (show_d z) = z.
Proof.
  unfold in_s. intros H. unfold show_d. destruct (Z.ltb_spec z 0); [|by apply atoi_show_u; lia].
  unfold atoi. cbn [skip_space]. change (is_space "-") with false. cbv beta iota.
  rewrite Ascii.eqb_refl, show_u_parse by lia. rewrite clamp64_small by lia.
  rewrite Z.opp_involutive. apply wraps_small; [lia|]. unfold in_s. lia.
Qed.

#[export] Hint Resolve strlen_nonneg : xnd.
