(* ===== verification/Path.v ===== *)
(** Path strings: [xnd/util/path.c].

    Each function writes its output buffer, the state of the monad, and
    returns 0 or -1.  [size_t] arithmetic wraps at 64 bits. *)

From S2P Require Import Prelude Cstr.
Open Scope Z_scope.

Definition PATH_MAX : Z := 1024.

Section path.
(** [access(path, F_OK) == 0] in the file system *)
Context (access : cstr -> bool).

(** [xnd_path_find]: the loop over the entries of PATH.  An entry that
    does not fit [buf] with the file name overruns the buffer. *)
Fixpoint xnd_path_find_loop (fuel : nat) (file path_env : cstr) : outcome cstr (option cstr) :=
  match fuel with
  | O => NoFuel
  | S fuel =>
    let '(next, endp) := match strchr path_env colon with
                         | Some i => (true, i)
                         | None => (false, length path_env)
                         end in
    let entry := take endp path_env in
    let buf := entry ++ slash :: file in
    if PATH_MAX <=? strlen buf then Ub else
    if access buf then Ret (Some buf) [] else
    if next then xnd_path_find_loop fuel file (drop (S endp) path_env) else Ret None []
  end.

Definition xnd_path_find (path : option cstr) (file : cstr) (outlen : Z) : M cstr Z := fun out =>
  match path with
  | None => Ret (-1) out
  | Some path_env =>
    match xnd_path_find_loop (S (length path_env)) file path_env with
    | Ret (Some buf) _ => Ret 0 (take (Z.to_nat outlen) buf)
    | Ret None _ => Ret (-1) out
    | _ => Ub
    end
  end.

(** [dst] is [None] for a null pointer. *)
Definition xnd_path_dirname (dst_null : bool) (dstlen : Z) (path : cstr) : M cstr Z := fun dst =>
  if dst_null || (dstlen =? 0) then Ret (-1) dst else
  match strrchr path slash with
  | None => Ret 0 []
  | Some delim =>
    let srclen := Z.of_nat delim in
    if dstlen <=? srclen then Ret (-1) dst else Ret 0 (strlcpy path (srclen + 1))
  end.

Definition xnd_path_basename_inplace (path : cstr) : cstr :=
  match strrchr path slash with Some i => drop (S i) path | None => path end.

Definition xnd_path_ext_inplace (path : cstr) : cstr :=
  match strrchr path dot with Some i => drop (S i) path | None => [] end.

Definition xnd_path_basename (dstlen : Z) (path : cstr) : M cstr Z := fun dst =>
  let src := xnd_path_basename_inplace path in
  let srclen := strlen src in
  if dstlen <=? srclen then Ret (-1) dst else Ret 0 (strlcpy src (srclen + 1)).

(** [dot - src] is a pointer difference converted to [size_t]. *)
Definition xnd_path_stem (outlen : Z) (path : cstr) : M cstr Z := fun out =>
  let dot := strrchr path dot in
  let src_at := match strrchr path slash with Some i => S i | None => O end in
  let src := drop src_at path in
  let len := match dot with
             | Some d => u64 (Z.of_nat d - Z.of_nat src_at)
             | None => strlen src
             end in
  if outlen <=? len then Ret (-1) out else Ret 0 (strlcpy src (len + 1)).

Definition xnd_path_ext (out_null : bool) (outlen : Z) (path : cstr) : M cstr Z := fun out =>
  if out_null || (outlen =? 0) then Ret (-1) out else
  match strrchr path dot with
  | None => Ret 0 []
  | Some d =>
    let ext := drop (S d) path in
    if outlen <=? strlen ext then Ret (-1) (strlcpy ext outlen) else Ret 0 (strlcpy ext outlen)
  end.

(** [sizeof('/')] and [sizeof('\0')] are [sizeof(int)] in C.  Reading
    [l[llen - 1]] of an empty [l] is out of bounds. *)
Definition sizeof_int : Z := 4.
Definition xnd_path_join (outlen : Z) (l r : option cstr) : M cstr Z := fun out =>
  match l, r with
  | Some l, Some r =>
    let llen := strlen l in
    let rlen := strlen r in
    match last l with
    | None => Ub
    | Some c =>
      let l_slash := Ascii.eqb c slash in
      let r_slash := match head r with Some a => Ascii.eqb a slash | None => false end in
      if l_slash && r_slash then
        let len := u64 (llen - sizeof_int + rlen + sizeof_int) in
        if outlen <? len then Ret (-1) out else
        Ret 0 (strlcat (strlcpy l llen) r len)
      else if l_slash || r_slash then
        let len := u64 (llen + rlen + sizeof_int) in
        if outlen <? len then Ret (-1) out else
        Ret 0 (strlcat (strlcpy l (llen + 1)) r len)
      else
        let len := u64 (llen + sizeof_int + rlen + sizeof_int) in
        if outlen <? len then Ret (-1) out else
        Ret 0 (strlcat (strlcat (strlcpy l (llen + 1)) [slash] len) r len)
    end
  | _, _ => Ret (-1) out
  end.
End path.

(** ** Properties *)

(** The joined path: [l] without a trailing slash, one slash, [r] without a
    leading slash. *)
Definition strip_last (l : cstr) : cstr :=
  match last l with
  | Some c => if Ascii.eqb c slash then take (length l - 1) l else l
  | None => l
  end.
Definition strip_first (r : cstr) : cstr :=
  match r with
  | a :: r' => if Ascii.eqb a slash then r' else r
  | [] => []
  end.

Lemma last_take (l : cstr) c : last l = Some c -> l = take (length l - 1) l ++ [c].
Proof.
  intros [l' ->]%last_Some. rewrite length_app. simpl.
  replace (length l' + 1 - 1)%nat with (length l' + 0)%nat by lia.
  rewrite take_app_add. simpl. by rewrite app_nil_r.
Qed.

Definition path_size (s : cstr) : Prop := strlen s < 2 ^ 32.

(** [xnd_path_join] puts exactly one slash between its arguments, whatever
    slashes they end and start with, whenever it returns 0; it returns 0 for
    every buffer with room for the two strings, a separator and eight more
    bytes, and then the whole joined path has been written. *)
Theorem path_join_correct (outlen : Z) (l r out : cstr) :
  l <> [] -> path_size l -> path_size r ->
  match xnd_path_join outlen (Some l) (Some r) out with
  | Ret code out' =>
      (code = 0 /\ out' = strip_last l ++ slash :: strip_first r /\ strlen out' < outlen)
      \/ (code = -1 /\ out' = out /\ outlen < strlen l + strlen r + 8)
  | _ => False
  end.
Proof.
  intros Hl Hsl Hsr. unfold path_size in *. unfold xnd_path_join.
  pose proof (strlen_nonneg l). pose proof (strlen_nonneg r).
  destruct (last l) as [c|] eqn:Hlast; [|by apply last_None in Hlast].
  pose proof (last_take l c Hlast) as Hlt. unfold strip_last. rewrite Hlast.
  unfold sizeof_int.
  assert (strlen l = strlen (take (length l - 1) l) + 1) as Hlen.
  { rewrite Hlt at 1. by rewrite strlen_app. }
  set (l0 := take (length l - 1) l) in *.
  destruct (Ascii.eqb_spec c slash) as [->|Hc]; destruct r as [|a r]; cbn [head strip_first andb orb].
  all: try destruct (Ascii.eqb_spec a slash) as [->|Ha]; cbn [andb orb].
  all: rewrite wrapu_small by (unfold in_u; lia).
  all: match goal with |- context [?x <? ?y] => destruct (Z.ltb_spec x y) as [Ho|Ho] end;
    [right; split; [done|]; split; [done|]; lia|left; split; [done|]].
  all: try (assert (strlcpy l (strlen l) = l0) as Hcpy
    by (unfold strlcpy, l0; f_equal; unfold strlen; lia)).
  all: rewrite ?(strlcpy_fit l (strlen l + 1)) by lia.
  all: try (rewrite (strlcat_fit l [slash]) by (unfold strlen in *; cbn [length] in *; lia)).
  all: rewrite ?Hcpy, strlcat_fit by (rewrite ?strlen_app; unfold strlen in *; cbn [length] in *; lia).
  all: split; [|rewrite ?strlen_app; unfold strlen in *; cbn [length] in *; lia].
  all: try done.
  all: try (by rewrite <- app_assoc).
  all: rewrite Hlt; by rewrite <- app_assoc.
Qed.

Lemma path_join_correct_witness :
  match xnd_path_join 64 (Some (cs "ckpts/")) (Some (cs "/epoch-0")) [] with
  | Ret code out' =>
      (code = 0 /\ out' = strip_last (cs "ckpts/") ++ slash :: strip_first (cs "/epoch-0") /\ strlen out' < 64)
      \/ (code = -1 /\ out' = [] /\ 64 < strlen (cs "ckpts/") + strlen (cs "/epoch-0") + 8)
  | _ => False
  end.
Proof. apply (path_join_correct 64 (cs "ckpts/") (cs "/epoch-0") []); [discriminate|..]; vm_compute; reflexivity. Defined.

Lemma basename_inplace_spec (path : cstr) :
  slash ∉ xnd_path_basename_inplace path /\
  exists dir, path = dir ++ xnd_path_basename_inplace path.
Proof.
  unfold xnd_path_basename_inplace. destruct (strrchr path slash) as [i|] eqn:E.
  - split; [by apply strrchr_spec in E as [_ ?]|]. exists (take (S i) path). by rewrite take_drop.
  - split; [by apply strrchr_None|]. by exists [].
Qed.

(** [xnd_path_dirname] and [xnd_path_basename] split a path at its last
    slash: when both succeed on a path with a slash, directory, slash and base
    name put together give the path back, and the base name has no slash. *)
Theorem dirname_basename_split (dlen blen : Z) (path d b d0 b0 : cstr) :
  slash ∈ path ->
  xnd_path_dirname false dlen path d0 = Ret 0 d ->
  xnd_path_basename blen path b0 = Ret 0 b ->
  path = d ++ slash :: b /\ slash ∉ b /\ strlen d < dlen /\ strlen b < blen.
Proof.
  intros Hin Hd Hb. destruct (basename_inplace_spec path) as [Hns _].
  unfold xnd_path_dirname, xnd_path_basename in *.
  destruct (strrchr path slash) as [i|] eqn:E; [|by apply strrchr_None in E].
  pose proof (strrchr_lt _ _ _ E) as Hi.
  unfold xnd_path_basename_inplace in *. rewrite E in *.
  destruct (strrchr_spec _ _ _ E) as [Hi' _].
  destruct (false || (dlen =? 0)); [done|].
  destruct (Z.leb_spec dlen (Z.of_nat i)); [done|]. injection Hd as <-.
  destruct (Z.leb_spec blen (strlen (drop (S i) path))); [done|]. injection Hb as <-.
  rewrite (strlcpy_fit (drop (S i) path)) by lia. unfold strlcpy.
  replace (Z.to_nat (Z.of_nat i + 1 - 1)) with i by lia.
  split; [|split; [done|split; [|done]]].
  - rewrite <- (take_drop i path) at 1. f_equal. by apply drop_S.
  - unfold strlen. rewrite length_take. lia.
Qed.

Lemma dirname_basename_split_witness :
  cs "/usr/bin/uname" = cs "/usr/bin" ++ slash :: cs "uname" /\ slash ∉ cs "uname" /\
  strlen (cs "/usr/bin") < 64 /\ strlen (cs "uname") < 64.
Proof.
  apply (dirname_basename_split 64 64 (cs "/usr/bin/uname") _ _ [] []);
    [|vm_compute; reflexivity|vm_compute; reflexivity].
  apply list_elem_of_In. left. reflexivity.
Defined.

(** [xnd_path_stem] rejects a path whose directory part has a dot after
    which the file name has none (the pointer difference is negative and wraps
    to a huge [size_t]), although the documented stem of such a path is its
    base name; so does every path of this shape, for every buffer size. *)
Theorem path_stem_dir_dot (outlen : Z) (d1 d2 base out : cstr) :
  dot ∉ d2 -> dot ∉ base -> slash ∉ base -> slash ∉ d2 ->
  0 <= outlen < 2 ^ 63 -> strlen d1 + strlen d2 < 2 ^ 62 ->
  xnd_path_stem outlen (d1 ++ dot :: d2 ++ slash :: base) out = Ret (-1) out.
Proof.
  intros Hd2 Hb Hsb Hsd Ho Hlen. unfold xnd_path_stem.
  assert (strrchr (d1 ++ dot :: d2 ++ slash :: base) dot = Some (length d1)) as ->.
  { apply strrchr_app. rewrite elem_of_app, elem_of_cons. intros [?|[?|?]]; [done|done|done]. }
  assert (strrchr (d1 ++ dot :: d2 ++ slash :: base) slash = Some (length (d1 ++ dot :: d2))) as ->.
  { replace (d1 ++ dot :: d2 ++ slash :: base) with ((d1 ++ dot :: d2) ++ slash :: base)
      by (by rewrite <- app_assoc). by apply strrchr_app. }
  rewrite length_app. cbn [length].
  set (a := Z.of_nat (length d1)). set (n := Z.of_nat (length d2)).
  replace (a - Z.of_nat (S (length d1 + S (length d2)))) with (- (n + 2)) by (unfold a, n; lia).
  unfold strlen in Hlen.
  assert (u64 (- (n + 2)) = 2 ^ 64 - (n + 2)) as ->.
  { unfold wrapu. symmetry. apply Z.mod_unique with (-1); unfold n; lia. }
  rewrite (proj2 (Z.leb_le _ _)) by (unfold n; lia). done.
Qed.

Lemma path_stem_dir_dot_witness :
  xnd_path_stem 1024 (cs "lib.d/hello") [] = Ret (-1) [].
Proof.
  apply (path_stem_dir_dot 1024 (cs "lib") (cs "d") (cs "hello") []);
    try (vm_compute; split; congruence); try (vm_compute; congruence);
    rewrite list_elem_of_In; vm_compute; intuition congruence.
Defined.

Example path_stem_ex : xnd_path_stem 64 (cs "/usr/lib/libhello.dylib") [] = Ret 0 (cs "libhello").
Proof. reflexivity. Qed.
Example path_ext_ex : xnd_path_ext false 64 (cs "/path/to/file.txt") [] = Ret 0 (cs "txt").
Proof. reflexivity. Qed.
