(* ===== verification/Env.v ===== *)
(** Environment variables that carry xnd's settings: [xnd/util/env.c].

    The state is the process environment and the cached checkpoint signal
    (the function-local static of [env_get_ckpt_signal]).  [setenv] and
    [unsetenv] with these constant names succeed. *)

From S2P Require Import Prelude Cstr.
Open Scope Z_scope.

Record env_state := EnvState {
  environ : gmap string cstr;
  ckpt_sig_cache : Z
}.

Definition XND_VIRTUAL_PID_ENV : string := "XND_VIRTUAL_PID".
Definition XND_REAL_PID_ENV : string := "XND_REAL_PID".
Definition XND_VIRTUAL_PPID_ENV : string := "XND_VIRTUAL_PPID".
Definition XND_REAL_PPID_ENV : string := "XND_REAL_PPID".
Definition XND_PROGRAM_ENV : string := "XND_PROGRAM".
Definition XND_CKPT_SIGNAL_ENV : string := "XND_CKPT_SIGNAL".
Definition XND_USE_ZLIB_ENV : string := "XND_USE_ZLIB".
Definition XND_CKPT_INTERVAL_ENV : string := "XND_CKPT_INTERVAL".
Definition XND_TMP_BINARY_ENV : string := "XND_TMP_BINARY".
Definition XND_UNLINK_TMP_ENV : string := "XND_UNLINK_TMP".
Definition UNLINK_TMP_AT_INIT : Z := 0.
Definition UNLINK_TMP_AT_EXIT : Z := 1.

(** macOS signal numbers *)
Definition NSIG : Z := 32.
Definition SIGKILL : Z := 9.
Definition SIGSTOP : Z := 17.
Definition XND_DEFAULT_CKPT_SIGNAL : Z := 31.

Definition getenv (var : string) : M env_state (option cstr) := gets (fun e => environ e !! var).
Definition setenv (var : string) (v : cstr) : M env_state unit :=
  modify (fun e => EnvState (<[var := v]> (environ e)) (ckpt_sig_cache e)).
Definition unsetenv (var : string) : M env_state unit :=
  modify (fun e => EnvState (delete var (environ e)) (ckpt_sig_cache e)).

Definition env_set_pid (var : string) (pid : Z) : M env_state unit :=
  setenv var (snprintf 11 (show_d pid)).

Definition env_get_pid (var : string) : M env_state Z :=
  value ← getenv var;
  match value with
  | Some v => mret (atoi v)
  | None => abort
  end.

Definition env_set_pid_info (virt_pid real_pid virt_ppid real_ppid : Z) : M env_state unit :=
  (if negb (virt_pid =? -1) then env_set_pid XND_VIRTUAL_PID_ENV virt_pid else mret tt);;
  (if negb (real_pid =? -1) then env_set_pid XND_REAL_PID_ENV real_pid else mret tt);;
  (if negb (virt_ppid =? -1) then env_set_pid XND_VIRTUAL_PPID_ENV virt_ppid else mret tt);;
  (if negb (real_ppid =? -1) then env_set_pid XND_REAL_PPID_ENV real_ppid else mret tt).

(** An output pointer is [true] when it is not null; the value stored through
    it is the corresponding component of the result. *)
Definition env_get_pid_info (virt_pid real_pid virt_ppid real_ppid : bool)
    : M env_state (option Z * option Z * option Z * option Z) :=
  a ← (if virt_pid then Some <$> env_get_pid XND_VIRTUAL_PID_ENV else mret None);
  b ← (if real_pid then Some <$> env_get_pid XND_REAL_PID_ENV else mret None);
  c ← (if virt_ppid then Some <$> env_get_pid XND_VIRTUAL_PPID_ENV else mret None);
  d ← (if real_ppid then Some <$> env_get_pid XND_REAL_PPID_ENV else mret None);
  mret (a, b, c, d).

Definition env_set_program_name (value : cstr) : M env_state unit := setenv XND_PROGRAM_ENV value.
Definition env_get_program_name : M env_state (option cstr) := getenv XND_PROGRAM_ENV.
Definition env_set_tmp_binary (value : cstr) : M env_state unit := setenv XND_TMP_BINARY_ENV value.
Definition env_get_tmp_binary : M env_state (option cstr) := getenv XND_TMP_BINARY_ENV.
Definition env_set_unlink_tmp (value : cstr) : M env_state unit := setenv XND_UNLINK_TMP_ENV value.

Definition env_unlink_tmp_at_init : M env_state bool :=
  value ← getenv XND_UNLINK_TMP_ENV;
  mret (match value with Some v => atoi v =? UNLINK_TMP_AT_INIT | None => false end).

Definition env_unlink_tmp_at_exit : M env_state bool :=
  value ← getenv XND_UNLINK_TMP_ENV;
  mret (match value with Some v => atoi v =? UNLINK_TMP_AT_EXIT | None => false end).

Definition env_set_ckpt_signal (s : cstr) : M env_state unit :=
  let sig := atoi s in
  let sig := if (sig <=? 0) || (NSIG <=? sig) || (sig =? SIGKILL) || (sig =? SIGSTOP)
             then XND_DEFAULT_CKPT_SIGNAL else sig in
  setenv XND_CKPT_SIGNAL_ENV (snprintf 11 (show_d sig)).

Definition env_get_ckpt_signal : M env_state Z :=
  cached ← gets ckpt_sig_cache;
  (if cached =? -1 then
     value ← getenv XND_CKPT_SIGNAL_ENV;
     let sig := match value with Some v => atoi v | None => XND_DEFAULT_CKPT_SIGNAL end in
     modify (fun e => EnvState (environ e) sig)
   else mret tt);;
  gets ckpt_sig_cache.

Definition DYLD_SHARED_REGION : string := "DYLD_SHARED_REGION".
Definition env_set_dyld_shared_region_private : M env_state unit :=
  setenv DYLD_SHARED_REGION (cs "private").
Definition env_unset_dyld_shared_region : M env_state unit := unsetenv DYLD_SHARED_REGION.
Definition env_get_dyld_shared_region : M env_state (option cstr) := getenv DYLD_SHARED_REGION.
Definition env_dyld_shared_region_is_private : M env_state bool :=
  value ← getenv DYLD_SHARED_REGION;
  mret (match value with Some v => bool_decide (v = cs "private") | None => false end).

Definition env_set_zlib_compression (value : cstr) : M env_state unit := setenv XND_USE_ZLIB_ENV value.
Definition env_use_zlib_compression : M env_state bool :=
  value ← getenv XND_USE_ZLIB_ENV;
  mret (match value with Some v => negb (atoi v =? 0) | None => false end).

Definition env_set_ckpt_interval (interval : cstr) : M env_state unit :=
  setenv XND_CKPT_INTERVAL_ENV interval.
Definition env_get_ckpt_interval : M env_state Z :=
  value ← getenv XND_CKPT_INTERVAL_ENV;
  mret (match value with Some v => atoi v | None => 0 end).

(** ** Properties *)

(** A process id the kernel or the coordinator hands out. *)
Definition valid_pid (p : Z) : Prop := 0 <= p < 2 ^ 31.
Definition valid_sig (s : Z) : Prop := 0 < s < NSIG /\ s <> SIGKILL /\ s <> SIGSTOP.

Lemma pid_string p : valid_pid p -> atoi (snprintf 11 (show_d p)) = p.
Proof.
  unfold valid_pid. intros H. rewrite snprintf_fit; [by apply atoi_show_d; unfold in_s; lia|].
  unfold show_d. rewrite (proj2 (Z.ltb_ge _ _)) by lia.
  assert (2 ^ 31 <= 10 ^ Z.of_nat 10) by (vm_compute; congruence).
  pose proof (show_u_length_le p 10 ltac:(lia) ltac:(done)). lia.
Qed.

(** The ids [env_set_pid_info] stores are the ids [env_get_pid_info] reads
    back: the parent of a fork finds the child's virtual pid this way.  An
    argument of -1 leaves the variable alone. *)
Theorem env_pid_info_roundtrip (vp rp vpp rpp : Z) (e : env_state) :
  valid_pid vp -> valid_pid rp -> valid_pid vpp -> valid_pid rpp ->
  exists e1, env_set_pid_info vp rp vpp rpp e = Ret tt e1 /\
    env_get_pid_info true true true true e1 = Ret (Some vp, Some rp, Some vpp, Some rpp) e1 /\
    env_set_pid_info vp (-1) (-1) (-1) e1 = Ret tt e1.
Proof.
  intros H1 H2 H3 H4.
  assert (forall p, valid_pid p -> (p =? -1) = false) as Hn
    by (intros p Hp; apply Z.eqb_neq; unfold valid_pid in Hp; lia).
  eexists. unfold env_set_pid_info, env_get_pid_info, env_get_pid, env_set_pid, setenv, getenv.
  rewrite !Hn by done. mrun. split; [reflexivity|]. split.
  - unfold XND_VIRTUAL_PID_ENV, XND_REAL_PID_ENV, XND_VIRTUAL_PPID_ENV, XND_REAL_PPID_ENV. simplify_map_eq.
    rewrite !pid_string by done. done.
  - f_equal. destruct e as [env cache]. f_equal. apply map_eq. intros i.
    unfold XND_VIRTUAL_PID_ENV, XND_REAL_PID_ENV, XND_VIRTUAL_PPID_ENV, XND_REAL_PPID_ENV.
    destruct (decide (i = "XND_VIRTUAL_PID"%string)); subst; by simplify_map_eq.
Qed.

Lemma env_pid_info_roundtrip_witness :
  let e := EnvState ∅ (-1) in
  exists e1, env_set_pid_info 7 4711 3 4242 e = Ret tt e1 /\
    env_get_pid_info true true true true e1 = Ret (Some 7, Some 4711, Some 3, Some 4242) e1 /\
    env_set_pid_info 7 (-1) (-1) (-1) e1 = Ret tt e1.
Proof. apply env_pid_info_roundtrip; split; vm_compute; congruence. Defined.

(** Whatever string [--ckpt-signal] is given, the checkpoint signal a
    process started with it reads is one a handler can be installed for, and
    it is the requested number when that number is such a signal. *)
Theorem env_ckpt_signal_valid (s : cstr) (e : env_state) :
  ckpt_sig_cache e = -1 ->
  exists e1 e2 sig, env_set_ckpt_signal s e = Ret tt e1 /\
    env_get_ckpt_signal e1 = Ret sig e2 /\ valid_sig sig /\
    (valid_sig (atoi s) -> sig = atoi s) /\
    env_get_ckpt_signal e2 = Ret sig e2.
Proof.
  intros Hc. unfold env_set_ckpt_signal, env_get_ckpt_signal, setenv, getenv.
  cbv zeta. match goal with |- context [show_d ?x] => set (sig := x) end.
  assert (valid_sig sig /\ (valid_sig (atoi s) -> sig = atoi s)) as [Hv Hs].
  { unfold sig, valid_sig, NSIG, SIGKILL, SIGSTOP, XND_DEFAULT_CKPT_SIGNAL.
    destruct (Z.leb_spec (atoi s) 0), (Z.leb_spec 32 (atoi s)), (Z.eqb_spec (atoi s) 9),
      (Z.eqb_spec (atoi s) 17); cbn; lia. }
  clearbody sig. assert (valid_pid sig) as Hp by (destruct Hv as [Hv _]; unfold NSIG, valid_pid in *; lia).
  assert ((sig =? -1) = false) as Hne by (apply Z.eqb_neq; unfold valid_pid in Hp; lia).
  eexists _, _, sig. mrun. split; [reflexivity|]. rewrite Hc. simpl. simplify_map_eq.
  rewrite pid_string by done. split; [reflexivity|]. simpl. rewrite Hne. done.
Qed.

Lemma env_ckpt_signal_valid_witness :
  exists e1 e2 sig, env_set_ckpt_signal (cs "9") (EnvState ∅ (-1)) = Ret tt e1 /\
    env_get_ckpt_signal e1 = Ret sig e2 /\ valid_sig sig /\
    (valid_sig (atoi (cs "9")) -> sig = atoi (cs "9")) /\
    env_get_ckpt_signal e2 = Ret sig e2.
Proof. apply (env_ckpt_signal_valid (cs "9") (EnvState ∅ (-1))). reflexivity. Defined.
