(* ===== verification/Bytes.v ===== *)
(** Bytes of integers in memory and in files: little-endian (arm64), and the
    consecutive fields of a C struct. *)

From S2P Require Import Prelude.
Open Scope Z_scope.

(** The [n] bytes of an integer in memory; a negative one is stored modulo
    2^(8n). *)
Fixpoint le_bytes (n : nat) (z : Z) : list Z :=
  match n with
  | O => []
  | S n => z mod 256 :: le_bytes n (z / 256)
  end.

Fixpoint le_val (l : list Z) : Z :=
  match l with
  | [] => 0
  | b :: l => b + 256 * le_val l
  end.

(** The field of [n] bytes at the front of a buffer, and what follows it. *)
Definition field_u (n : nat) (l : list Z) : Z * list Z := (le_val (take n l), drop n l).
Definition field_s (n : nat) (l : list Z) : Z * list Z :=
  (wraps (8 * Z.of_nat n) (le_val (take n l)), drop n l).

Definition is_byte (b : Z) : Prop := 0 <= b < 256.

Lemma le_bytes_length n z : length (le_bytes n z) = n.
Proof. revert z. induction n as [|n IH]; intros z; cbn; [done|by rewrite IH]. Qed.

Lemma le_bytes_bytes n z : Forall is_byte (le_bytes n z).
Proof.
  revert z. induction n as [|n IH]; intros z; cbn [le_bytes]; constructor; [|apply IH].
  apply Z.mod_pos_bound. lia.
Qed.

Lemma pow8_succ n : 2 ^ (8 * Z.of_nat (S n)) = 256 * 2 ^ (8 * Z.of_nat n).
Proof. rewrite Nat2Z.inj_succ, Z.mul_succ_r, Z.pow_add_r by lia. lia. Qed.

Lemma le_val_bytes n z : le_val (le_bytes n z) = z mod 2 ^ (8 * Z.of_nat n).
Proof.
  revert z. induction n as [|n IH]; intros z; [by rewrite Z.mod_1_r|].
  cbn [le_bytes le_val]. rewrite IH, pow8_succ.
  assert (0 < 2 ^ (8 * Z.of_nat n)) by (apply Z.pow_pos_nonneg; lia).
  symmetry. rewrite Z.rem_mul_r by lia. lia.
Qed.

Lemma le_bytes_val l : Forall is_byte l -> le_bytes (length l) (le_val l) = l.
Proof.
  induction 1 as [|b l Hb _ IH]; [done|]. cbn [length le_bytes le_val]. unfold is_byte in Hb.
  rewrite (Z.mul_comm 256), Z_mod_plus_full, Z_div_plus_full by lia.
  rewrite Z.mod_small, (Z.div_small b) by lia. by rewrite Z.add_0_l, IH.
Qed.

Lemma le_val_range l : Forall is_byte l -> 0 <= le_val l < 2 ^ (8 * Z.of_nat (length l)).
Proof.
  induction 1 as [|b l Hb _ IH]; [done|]. cbn [length le_val]. rewrite pow8_succ. unfold is_byte in Hb. lia.
Qed.

Lemma field_u_le n z l : in_u (8 * Z.of_nat n) z -> field_u n (le_bytes n z ++ l) = (z, l).
Proof.
  intros Hz. unfold field_u.
  rewrite take_app_length', drop_app_length' by (by rewrite le_bytes_length).
  by rewrite le_val_bytes, Z.mod_small.
Qed.

Lemma wraps_mod w z : 0 < w -> wraps w (z mod 2 ^ w) = wraps w z.
Proof. intros Hw. unfold wraps. by rewrite Zplus_mod_idemp_l. Qed.

Lemma field_s_le n z l : (0 < n)%nat -> in_s (8 * Z.of_nat n) z -> field_s n (le_bytes n z ++ l) = (z, l).
Proof.
  intros Hn Hz. unfold field_s.
  rewrite take_app_length', drop_app_length' by (by rewrite le_bytes_length).
  rewrite le_val_bytes, wraps_mod, wraps_small by (done || lia). done.
Qed.
