(* ===== verification/Io.v ===== *)
(** Full reads and writes: [xnd/util/io.c] and the [sys_readall] /
    [sys_writeall] loops of [xnd/syscall.h], and [xnd/util/fd.c].

    The kernel is a parameter: a class gives [write], [read], [fcntl],
    [dup2] and [close] as functions on a world, a second class the documented
    behaviour the theorems rely on.  Bytes are integers, buffers lists. *)

From S2P Require Import Prelude.
Open Scope Z_scope.

Class IoSys (W : Type) := {
  (** [write]: -1 or the number of bytes taken *)
  sys_write : Z -> list Z -> W -> Z * W;
  (** [read(fd, _, n)]: [None] for -1, or the bytes (none at end of file) *)
  sys_read : Z -> Z -> W -> option (list Z) * W;
  (** [read] waits for bytes that never come: it does not return *)
  read_waits : Z -> Z -> W -> bool;
}.

Section io.
Context {W : Type} `{IoSys W}.

(** The do-while of [writeall]: [bytes] counts what has been written.  A
    write that takes nothing is retried, so the loop has fuel. *)
Fixpoint writeall_loop (fuel : nat) (fd : Z) (buf : list Z) (bytes : Z) : M W Z := fun w =>
  match fuel with
  | O => NoFuel
  | S fuel =>
    let '(ret, w) := sys_write fd (drop (Z.to_nat bytes) buf) w in
    if ret =? -1 then Ret bytes w else
    let bytes := bytes + ret in
    if bytes <? Z.of_nat (length buf) then writeall_loop fuel fd buf bytes w else Ret bytes w
  end.

Definition writeall (fd : Z) (buf : list Z) : M W Z :=
  writeall_loop (S (length buf)) fd buf 0.

(** A call of [read]. *)
Definition read_call (fd n : Z) : M W (option (list Z)) := fun w =>
  if read_waits fd n w then NoFuel else let '(r, w) := sys_read fd n w in Ret r w.

(** [readall] returns the count; the bytes read so far are the buffer. *)
Fixpoint readall_loop (fuel : nat) (fd nbyte : Z) (buf : list Z) : M W (list Z) := fun w =>
  match fuel with
  | O => NoFuel
  | S fuel =>
    let bytes := Z.of_nat (length buf) in
    match read_call fd (nbyte - bytes) w with
    | Ret None w | Ret (Some []) w => Ret buf w
    | Ret (Some data) w =>
      let buf := buf ++ data in
      if Z.of_nat (length buf) <? nbyte then readall_loop fuel fd nbyte buf w else Ret buf w
    | Exit c w => Exit c w | Abort w => Abort w | Ub => Ub | NoFuel => NoFuel
    end
  end.

Definition readall (fd nbyte : Z) : M W (list Z) :=
  readall_loop (S (Z.to_nat nbyte)) fd nbyte [].
End io.

(** [sys_readall] and [sys_writeall] are the same loops over the raw system
    calls, which bypass the interposed ones. *)
Definition sys_readall {W : Type} `{IoSys W} : Z -> Z -> M W (list Z) := readall.
Definition sys_writeall {W : Type} `{IoSys W} : Z -> list Z -> M W Z := writeall.

(** ** Descriptors *)

Class FdSys (W : Type) := {
  (** [fcntl(fd, F_GETFL)]: 0 or an errno *)
  fd_getfl : Z -> W -> Z * W;
  fd_dup2 : Z -> Z -> W -> Z * W;
  fd_close : Z -> W -> W;
}.
Definition EBADF : Z := 9.

Section fd.
Context {W : Type} `{FdSys W}.

Definition xnd_fd_available (fd : Z) : M W bool := fun w =>
  let '(err, w) := fd_getfl fd w in Ret (err =? EBADF) w.

Definition xnd_fd_change (old desired : Z) : M W Z := fun w =>
  if negb (old =? desired) then
    let '(r, w) := fd_dup2 old desired w in
    if r =? desired then Ret desired (fd_close old w) else Abort w
  else Ret desired w.
End fd.

(** ** Specification *)

(** A descriptor open for writing whose file is [content w]: [write] fails
    and changes nothing, or appends a nonempty prefix of the buffer. *)
Class Sink (W : Type) `{IoSys W} (fd : Z) (content : W -> list Z) := {
  sink_write : forall buf w r w', sys_write fd buf w = (r, w') ->
    (r = -1 /\ content w' = content w)
    \/ (0 <= r <= Z.of_nat (length buf) /\ (buf <> [] -> 0 < r) /\
        content w' = content w ++ take (Z.to_nat r) buf);
}.

(** A descriptor open for reading with [pending w] still to be read; its reads
    do not wait. *)
Class Source (W : Type) `{IoSys W} (fd : Z) (pending : W -> list Z) := {
  source_read : forall n w r w', sys_read fd n w = (r, w') -> 0 <= n ->
    match r with
    | None => pending w' = pending w
    | Some data => pending w = data ++ pending w' /\ Z.of_nat (length data) <= n /\
                   (data = [] -> pending w = [] \/ n = 0)
    end;
  source_answers : forall n w, read_waits fd n w = false;
}.

Lemma read_call_eq {W} `{IoSys W} fd n w : read_waits fd n w = false ->
  read_call fd n w = let '(r, w) := sys_read fd n w in Ret r w.
Proof. intros E. unfold read_call. by rewrite E. Qed.

Section spec.
Context {W : Type} `{IoSys W} (fd : Z).

(** The loop writes [buf] from [bytes] on, while an invariant of the world
    holds under which a write behaves as a [Sink]'s. *)
Lemma writeall_loop_inv (I : W -> Prop) (content : W -> list Z) :
  (forall buf w r w', I w -> sys_write fd buf w = (r, w') -> I w' /\
    ((r = -1 /\ content w' = content w) \/
     (0 <= r <= Z.of_nat (length buf) /\ (buf <> [] -> 0 < r) /\
      content w' = content w ++ take (Z.to_nat r) buf))) ->
  forall fuel buf bytes w, I w ->
  0 <= bytes <= Z.of_nat (length buf) -> (length buf < fuel + Z.to_nat bytes)%nat ->
  returns (writeall_loop fuel fd buf bytes) w (fun n w' => I w' /\
    bytes <= n <= Z.of_nat (length buf) /\
    content w' = content w ++ take (Z.to_nat (n - bytes)) (drop (Z.to_nat bytes) buf)).
Proof.
  intros Hw fuel buf. induction fuel as [|fuel IH]; intros bytes w HI Hb Hf; [lia|].
  unfold returns. cbn [writeall_loop].
  destruct (sys_write fd (drop (Z.to_nat bytes) buf) w) as [r w1] eqn:E.
  destruct (Hw _ _ _ _ HI E) as [HI1 [[-> Hc]|(Hr & Hpos & Hc)]].
  { rewrite Z.eqb_refl. split; [done|]. split; [lia|]. rewrite Z.sub_diag. simpl. by rewrite app_nil_r. }
  rewrite length_drop in Hr. rewrite (proj2 (Z.eqb_neq _ _)) by lia.
  destruct (Z.ltb_spec (bytes + r) (Z.of_nat (length buf))).
  - assert (0 < r) as Hr0.
    { apply Hpos. intros Hd. apply (f_equal length) in Hd. rewrite length_drop in Hd. simpl in Hd. lia. }
    specialize (IH (bytes + r) w1 HI1 ltac:(lia) ltac:(lia)).
    apply returns_inv in IH as (n & w' & -> & HI' & Hn & Hc'). split; [done|]. split; [lia|].
    rewrite Hc', Hc, <- app_assoc. f_equal.
    replace (Z.to_nat (bytes + r)) with (Z.to_nat bytes + Z.to_nat r)%nat by lia.
    rewrite <- drop_drop.
    replace (Z.to_nat (n - bytes)) with (Z.to_nat r + Z.to_nat (n - (bytes + r)))%nat by lia.
    by rewrite take_take_drop.
  - split; [done|]. split; [lia|]. rewrite Hc. repeat f_equal. lia.
Qed.

Lemma writeall_loop_spec (content : W -> list Z) `{!Sink W fd content} fuel buf bytes w :
  0 <= bytes <= Z.of_nat (length buf) -> (length buf < fuel + Z.to_nat bytes)%nat ->
  returns (writeall_loop fuel fd buf bytes) w (fun n w' =>
    bytes <= n <= Z.of_nat (length buf) /\
    content w' = content w ++ take (Z.to_nat (n - bytes)) (drop (Z.to_nat bytes) buf)).
Proof.
  intros Hb Hf. eapply returns_weaken; [apply (writeall_loop_inv (fun _ => True) content); try done|].
  - intros b w0 r w' _ E. split; [done|]. by apply sink_write.
  - by intros n w' [_ H'].
Qed.

(** [writeall] always returns (every write that succeeds makes progress),
    and the number it returns is the length of the prefix of the buffer that
    has been appended to the file, in order; it equals the buffer's length
    exactly when everything has been written. *)
Theorem writeall_correct (content : W -> list Z) `{!Sink W fd content} (buf : list Z) (w : W) :
  returns (writeall fd buf) w (fun n w' =>
    0 <= n <= Z.of_nat (length buf) /\ content w' = content w ++ take (Z.to_nat n) buf /\
    (n = Z.of_nat (length buf) <-> content w' = content w ++ buf)).
Proof.
  eapply returns_weaken; [apply (writeall_loop_spec content); lia|].
  intros n w' [Hn Hc]. rewrite Z.sub_0_r in Hc. split; [done|]. split; [done|].
  rewrite Hc. simpl. rewrite drop_0. split; intros Hx.
  - by rewrite take_ge by lia.
  - apply app_inv_head in Hx. apply (f_equal length) in Hx. rewrite length_take in Hx. lia.
Qed.

Lemma readall_loop_spec (pending : W -> list Z) `{!Source W fd pending} fuel nbyte buf w :
  Z.of_nat (length buf) <= nbyte -> (Z.to_nat nbyte < fuel + length buf)%nat ->
  returns (readall_loop fuel fd nbyte buf) w (fun out w' =>
    exists data, out = buf ++ data /\ pending w = data ++ pending w' /\
      Z.of_nat (length out) <= nbyte).
Proof.
  revert buf w. induction fuel as [|fuel IH]; intros buf w Hb Hf; [lia|].
  unfold returns. cbn [readall_loop]. rewrite read_call_eq by apply source_answers.
  destruct (sys_read fd (nbyte - Z.of_nat (length buf)) w) as [r w1] eqn:E.
  pose proof (source_read _ _ _ _ E ltac:(lia)) as Hs.
  destruct r as [[|d data]|].
  - exists []. rewrite app_nil_r. split; [done|]. split; [by destruct Hs|lia].
  - destruct Hs as (Hp & Hl & _).
    destruct (Z.ltb_spec (Z.of_nat (length (buf ++ d :: data))) nbyte) as [Hlt|Hge].
    + rewrite length_app in Hlt. cbn [length] in *.
      specialize (IH (buf ++ d :: data) w1). rewrite length_app in IH. cbn [length] in IH.
      specialize (IH ltac:(lia) ltac:(lia)).
      apply returns_inv in IH as (n & w' & -> & data' & -> & Hp' & Hl').
      exists ((d :: data) ++ data'). rewrite Hp, Hp', <- !app_assoc.
      split; [done|]. split; [done|]. by rewrite <- !app_assoc in Hl'.
    + exists (d :: data). rewrite length_app in Hge |- *. split; [done|]. split; [done|lia].
  - exists []. rewrite app_nil_r. split; [done|]. split; [by rewrite Hs|lia].
Qed.

(** [readall] always returns; what it returns is the prefix of what was
    left to read that it consumed, never more than asked for. *)
Theorem readall_correct (pending : W -> list Z) `{!Source W fd pending} (nbyte : Z) (w : W) :
  0 <= nbyte ->
  returns (readall fd nbyte) w (fun data w' =>
    pending w = data ++ pending w' /\ Z.of_nat (length data) <= nbyte).
Proof.
  intros Hn. eapply returns_weaken; [apply (readall_loop_spec pending); simpl; lia|].
  intros out w' (data & -> & Hp & Hl). done.
Qed.
End spec.

(** ** A concrete file, for the witnesses: a write takes at most [chunk]
    bytes, and fails once [room] is used up. *)
Record file := File { f_content : list Z; f_pending : list Z; f_room : Z; f_chunk : positive }.

#[global] Instance file_sys : IoSys file := {
  sys_write _ buf f :=
    let n := Z.min (Z.of_nat (length buf)) (Z.min (Zpos (f_chunk f)) (f_room f)) in
    match buf with
    | [] => (0, f)
    | _ => if n <=? 0 then (-1, f) else
      (n, File (f_content f ++ take (Z.to_nat n) buf) (f_pending f) (f_room f - n) (f_chunk f))
    end;
  sys_read _ n f :=
    let k := Z.to_nat (Z.min n (Zpos (f_chunk f))) in
    (Some (take k (f_pending f)), File (f_content f) (drop k (f_pending f)) (f_room f) (f_chunk f));
  read_waits _ _ _ := false
}.

#[global] Instance file_sink fd : Sink file fd f_content.
Proof.
  constructor. intros buf [c p room chunk] r w'. cbn [sys_write file_sys f_room f_chunk f_content f_pending].
  destruct buf as [|b buf].
  - intros [= <- <-]. right. simpl. rewrite app_nil_r. split; [lia|]. by split.
  - set (n := Z.min (Z.of_nat (length (b :: buf))) (Z.min (Zpos chunk) room)).
    assert (n <= Z.of_nat (length (b :: buf))) as Hn by lia. clearbody n.
    destruct (Z.leb_spec n 0); intros Heq; inversion Heq; subst; [by left|right].
    split; [lia|]. split; [lia|done].
Qed.

#[global] Instance file_source fd : Source file fd f_pending.
Proof.
  constructor; [|done]. intros n [c p room chunk] r w'. cbn. intros [= <- <-] Hn. cbn.
  split; [by rewrite take_drop|]. rewrite length_take. split; [lia|].
  intros Hd. apply (f_equal length) in Hd. rewrite length_take in Hd. simpl in Hd.
  destruct p; [by left|right]. simpl in Hd. lia.
Qed.

Lemma readall_correct_witness :
  returns (readall 3 4) (File [] [1;2;3;4;5] 0 3) (fun data w' =>
    f_pending (File [] [1;2;3;4;5] 0 3) = data ++ f_pending w' /\ Z.of_nat (length data) <= 4).
Proof. apply (readall_correct 3 f_pending 4). lia. Defined.

Lemma writeall_correct_witness :
  returns (writeall 1 [1;2;3;4;5]) (File [] [] 4 3) (fun n w' =>
    0 <= n <= 5 /\ f_content w' = [] ++ take (Z.to_nat n) [1;2;3;4;5] /\
    (n = 5 <-> f_content w' = [] ++ [1;2;3;4;5])).
Proof. apply (writeall_correct 1 f_content [1;2;3;4;5] (File [] [] 4 3)). Defined.

(** The short write of the partial case is reported. *)
Example writeall_short : writeall 1 [1;2;3;4;5] (File [] [] 4 3) = Ret 4 (File [1;2;3;4] [] 0 3).
Proof. reflexivity. Qed.
