(* ===== verification/Mapping.v ===== *)
(** Files mapped into memory: the bytes of a mapping, read and written at
    offsets from its start.

    A pointer into the mapping is its offset.  An access outside the mapping
    is undefined.  Integers are little endian, as the machine's. *)

From S2P Require Import Prelude Bytes Leb128 Io.
Open Scope Z_scope.

Definition image : Type := list Z.

Definition in_image (o n : Z) (m : image) : bool := (0 <=? o) && (0 <=? n) && (o + n <=? Z.of_nat (length m)).
Definition slice (o n : Z) (m : image) : list Z := take (Z.to_nat n) (drop (Z.to_nat o) m).

Definition peek (o n : Z) : M image (list Z) := fun m => if in_image o n m then Ret (slice o n m) m else Ub.
Definition poke (o : Z) (l : list Z) : M image unit := fun m =>
  if in_image o (Z.of_nat (length l)) m
  then Ret tt (take (Z.to_nat o) m ++ l ++ drop (Z.to_nat o + length l) m) else Ub.

Definition peek8 (o : Z) : M image Z := l ← peek o 1; mret (le_val l).
Definition peek32 (o : Z) : M image Z := l ← peek o 4; mret (le_val l).
Definition peek64 (o : Z) : M image Z := l ← peek o 8; mret (le_val l).
Definition poke32 (o v : Z) : M image unit := poke o (le_bytes 4 v).
Definition poke64 (o v : Z) : M image unit := poke o (le_bytes 8 v).

(** A computation on a mapping [m] of a process whose kernel is the state. *)
Definition on_image {K A} (f : M image A) (m : image) : M K (A * image) := fun k =>
  match f m with
  | Ret a m' => Ret (a, m') k
  | Exit c _ => Exit c k
  | Abort _ => Abort k
  | Ub => Ub
  | NoFuel => NoFuel
  end.

Lemma on_image_ret {K A} (f : M image A) m a m' (k : K) : f m = Ret a m' -> on_image f m k = Ret (a, m') k.
Proof. intros H. unfold on_image. by rewrite H. Qed.

(** ** Properties *)

Lemma assert_true {S B} (b : bool) (k : unit -> M S B) (s : S) : b = true -> (xnd_assert b ≫= k) s = k tt s.
Proof. by intros ->. Qed.

Lemma in_image_at (a l b : list Z) o n : o = Z.of_nat (length a) -> n = Z.of_nat (length l) ->
  in_image o n (a ++ l ++ b) = true.
Proof. intros -> ->. unfold in_image. rewrite !length_app, !andb_true_iff, !Z.leb_le. lia. Qed.

Lemma slice_at (a l b : list Z) o n : o = Z.of_nat (length a) -> n = Z.of_nat (length l) ->
  slice o n (a ++ l ++ b) = l.
Proof. intros -> ->. unfold slice. by rewrite !Nat2Z.id, drop_app_length, take_app_length. Qed.

Lemma peek_at (a l b : list Z) o n m : m = a ++ l ++ b -> o = Z.of_nat (length a) ->
  n = Z.of_nat (length l) -> peek o n m = Ret l m.
Proof. intros -> Ho Hn. unfold peek. by rewrite in_image_at, slice_at. Qed.

Lemma poke_at (a l l' b : list Z) o m : m = a ++ l ++ b -> o = Z.of_nat (length a) ->
  length l' = length l -> poke o l' m = Ret tt (a ++ l' ++ b).
Proof.
  intros -> -> Hl. unfold poke. rewrite in_image_at by congruence. rewrite Nat2Z.id, take_app_length.
  by rewrite drop_app_add, Hl, drop_app_length.
Qed.

Lemma peek32_at a v b o m : m = a ++ le_bytes 4 v ++ b -> o = Z.of_nat (length a) -> peek32 o m = Ret (u32 v) m.
Proof.
  intros Hm Ho. unfold peek32. rewrite (bind_ret _ _ _ _ _ (peek_at a (le_bytes 4 v) b o 4 m Hm Ho eq_refl)).
  by rewrite le_val_bytes.
Qed.
Lemma peek64_at a v b o m : m = a ++ le_bytes 8 v ++ b -> o = Z.of_nat (length a) -> peek64 o m = Ret (u64 v) m.
Proof.
  intros Hm Ho. unfold peek64. rewrite (bind_ret _ _ _ _ _ (peek_at a (le_bytes 8 v) b o 8 m Hm Ho eq_refl)).
  by rewrite le_val_bytes.
Qed.
Lemma poke32_at a v v' b o m : m = a ++ le_bytes 4 v ++ b -> o = Z.of_nat (length a) ->
  poke32 o v' m = Ret tt (a ++ le_bytes 4 v' ++ b).
Proof. intros Hm Ho. by apply (poke_at a (le_bytes 4 v)). Qed.
Lemma poke64_at a v v' b o m : m = a ++ le_bytes 8 v ++ b -> o = Z.of_nat (length a) ->
  poke64 o v' m = Ret tt (a ++ le_bytes 8 v' ++ b).
Proof. intros Hm Ho. by apply (poke_at a (le_bytes 8 v)). Qed.

(** *** Byte order *)

Lemma land_field x i : 0 <= i -> Z.land x (Z.shiftl 255 i) = Z.shiftl (Z.shiftr x i mod 256) i.
Proof.
  intros Hi. change 256 with (2 ^ 8). rewrite <- Z.land_ones by lia. apply Z.bits_inj'. intros n Hn.
  rewrite Z.land_spec, !Z.shiftl_spec, Z.land_spec by lia. change (Z.ones 8) with 255.
  destruct (Z.ltb_spec n i).
  - rewrite (Z.testbit_neg_r 255), !andb_false_r by lia. done.
  - rewrite Z.shiftr_spec by lia. by rewrite Z.sub_add.
Qed.

Lemma bswap32_val a b c d : Forall is_byte [a; b; c; d] -> bswap32 (le_val [a; b; c; d]) = le_val [d; c; b; a].
Proof.
  rewrite !Forall_cons. unfold is_byte. intros (Ha & Hb & Hc & Hd & _). unfold bswap32. cbn [le_val].
  set (x := a + _). assert (x = a + 2 ^ 8 * b + 2 ^ 16 * c + 2 ^ 24 * d) as Hx by (unfold x; lia).
  clearbody x. rewrite (wrapu_small 32 x) by (unfold in_u; lia).
  change (Z.land x 255) with (Z.land x (Z.shiftl 255 0)). change (Z.land x 65280) with (Z.land x (Z.shiftl 255 8)).
  change (Z.land x 16711680) with (Z.land x (Z.shiftl 255 16)).
  change (Z.land x 4278190080) with (Z.land x (Z.shiftl 255 24)).
  rewrite !land_field by lia. rewrite !Z.shiftl_mul_pow2, !Z.shiftr_div_pow2 by lia.
  assert (x / 2 ^ 0 mod 256 = a) as ->.
  { rewrite Hx, Z.pow_0_r, Z.div_1_r. symmetry. apply (Z.mod_unique_pos _ _ (b + 2 ^ 8 * c + 2 ^ 16 * d)); lia. }
  assert (x / 2 ^ 8 mod 256 = b) as ->.
  { rewrite <- (Z.div_unique_pos x (2 ^ 8) (b + 2 ^ 8 * c + 2 ^ 16 * d) a) by lia.
    symmetry. apply (Z.mod_unique_pos _ _ (c + 2 ^ 8 * d)); lia. }
  assert (x / 2 ^ 16 mod 256 = c) as ->.
  { rewrite <- (Z.div_unique_pos x (2 ^ 16) (c + 2 ^ 8 * d) (a + 2 ^ 8 * b)) by lia.
    symmetry. apply (Z.mod_unique_pos _ _ d); lia. }
  assert (x / 2 ^ 24 mod 256 = d) as ->.
  { rewrite <- (Z.div_unique_pos x (2 ^ 24) d (a + 2 ^ 8 * b + 2 ^ 16 * c)) by lia. by apply Z.mod_small. }
  rewrite !(wrapu_small 32) by (unfold in_u; lia).
  replace (c * 2 ^ 16 / 2 ^ 8) with (c * 2 ^ 8) by (apply (Z.div_unique_pos _ _ _ 0); lia).
  replace (d * 2 ^ 24 / 2 ^ 24) with d by (apply (Z.div_unique_pos _ _ _ 0); lia).
  replace (b * 2 ^ 8 * 2 ^ 8) with (b * 2 ^ 16) by lia. replace (a * 2 ^ 0 * 2 ^ 24) with (a * 2 ^ 24) by lia.
  rewrite (Z.lor_comm _ d), (Z.lor_comm _ (c * 2 ^ 8)), (Z.lor_comm _ (b * 2 ^ 16)), !Z.lor_assoc.
  assert (forall r v s, 0 <= s -> 0 <= r < 2 ^ s -> Z.lor r (v * 2 ^ s) = r + v * 2 ^ s) as Hl.
  { intros r v s Hs Hr. rewrite <- (Z.shiftl_mul_pow2 v s), lor_disjoint by done. by rewrite Z.shiftl_mul_pow2. }
  rewrite (Hl d), (Hl (d + _)), (Hl (d + _ + _)) by lia. lia.
Qed.

Lemma le_bytes_4 v : exists a b c d, le_bytes 4 v = [a; b; c; d] /\ Forall is_byte [a; b; c; d].
Proof.
  pose proof (le_bytes_length 4 v) as Hl. pose proof (le_bytes_bytes 4 v) as Hb.
  destruct (le_bytes 4 v) as [|a [|b [|c [|d [|e l]]]]]; try discriminate Hl. eauto 6.
Qed.

(** A 32-bit integer in either byte order, and what the code reads back. *)
Definition order_bytes (swapped : bool) (v : Z) : list Z :=
  if swapped then rev (le_bytes 4 v) else le_bytes 4 v.
Definition order_val (swapped : bool) (v : Z) : Z := if swapped then bswap32 v else v.

Lemma order_bytes_length sw v : length (order_bytes sw v) = 4%nat.
Proof. destruct sw; cbn [order_bytes]; by rewrite ?length_rev, le_bytes_length. Qed.

Lemma order_val_bytes sw v : order_val sw (le_val (order_bytes sw v)) = u32 v.
Proof.
  destruct sw; cbn [order_val order_bytes]; [|by rewrite le_val_bytes].
  destruct (le_bytes_4 v) as (a & b & c & d & E & Hb).
  change (u32 v) with (v mod 2 ^ (8 * Z.of_nat 4)).
  rewrite <- (le_val_bytes 4 v), E. cbn [rev app]. apply bswap32_val.
  rewrite !Forall_cons in Hb |- *. tauto.
Qed.

(** What a plain read of the bytes gives. *)
Definition stored (swapped : bool) (v : Z) : Z := le_val (order_bytes swapped v).
Lemma order_val_stored sw v : order_val sw (stored sw v) = u32 v.
Proof. apply order_val_bytes. Qed.

Lemma peek32_order sw v a b o m : m = a ++ order_bytes sw v ++ b -> o = Z.of_nat (length a) ->
  peek32 o m = Ret (stored sw v) m.
Proof.
  intros Hm Ho. unfold peek32.
  by rewrite (bind_ret _ _ _ _ _ (peek_at a _ b o 4 m Hm Ho ltac:(by rewrite order_bytes_length))).
Qed.

(** A sequence of 32-bit fields *)
Definition words (swapped : bool) (ws : list Z) : list Z := concat (order_bytes swapped <$> ws).

Lemma words_length sw ws : length (words sw ws) = (4 * length ws)%nat.
Proof.
  unfold words. induction ws as [|w ws IH]; [done|]. cbn. rewrite length_app, order_bytes_length, IH. lia.
Qed.
Lemma words_app sw ws vs : words sw (ws ++ vs) = words sw ws ++ words sw vs.
Proof. unfold words. by rewrite fmap_app, concat_app. Qed.

Lemma words_middle sw ws i v : ws !! i = Some v ->
  words sw ws = words sw (take i ws) ++ order_bytes sw v ++ words sw (drop (S i) ws).
Proof.
  intros Hi. rewrite <- (take_drop_middle ws i v Hi) at 1. rewrite words_app. unfold words at 2. by cbn.
Qed.

Lemma words_take_length sw ws i (v : Z) : ws !! i = Some v -> length (words sw (take i ws)) = (4 * i)%nat.
Proof. intros Hi. apply lookup_lt_Some in Hi. rewrite words_length, length_take. lia. Qed.

(** Field [i] of fields that start at the end of [pre]. *)
Lemma peek32_field pre sw ws i v post m o : m = pre ++ words sw ws ++ post -> ws !! i = Some v ->
  o = Z.of_nat (length pre) + 4 * Z.of_nat i -> peek32 o m = Ret (stored sw v) m.
Proof.
  intros Hm Hi Ho. rewrite (words_middle sw ws i v Hi), <- !app_assoc in Hm.
  rewrite (app_assoc pre) in Hm.
  apply (peek32_order sw v _ _ _ _ Hm). rewrite length_app, (words_take_length sw ws i v Hi). lia.
Qed.
Lemma peek32_word pre ws post i v m o : m = pre ++ words false ws ++ post -> ws !! i = Some v ->
  o = Z.of_nat (length pre) + 4 * Z.of_nat i -> peek32 o m = Ret (u32 v) m.
Proof.
  intros Hm Hi Ho. rewrite (peek32_field pre false ws i v post m o Hm Hi Ho). by rewrite <- order_val_stored with (sw := false).
Qed.
Lemma poke32_word pre ws post i v v' m o : m = pre ++ words false ws ++ post -> ws !! i = Some v ->
  o = Z.of_nat (length pre) + 4 * Z.of_nat i -> poke32 o v' m = Ret tt (pre ++ words false (<[i := v']> ws) ++ post).
Proof.
  intros Hm Hi Ho. pose proof (lookup_lt_Some _ _ _ Hi) as Hl.
  rewrite (words_middle false ws i v Hi), <- !app_assoc, (app_assoc pre) in Hm.
  rewrite (poke32_at _ v v' _ o m Hm) by (rewrite length_app, (words_take_length false ws i v Hi); lia).
  rewrite (words_middle false (<[i := v']> ws) i v') by (by apply list_lookup_insert_eq).
  rewrite take_insert_ge, drop_insert_lt by lia. by rewrite <- !app_assoc.
Qed.
