(* ===== verification/Macho.v ===== *)
(** Mach-O executables: [xnd/platform/macho.c] and [macho.h].

    A mapped executable is a list of bytes ([Mapping]); a pointer to a header
    or a load command is its offset.  [binary_arm64e_to_arm64] runs on a
    kernel with files. *)

From S2P Require Import Prelude Bytes Leb128 Cstr Io Mapping.
Open Scope Z_scope.

(** [mach-o/loader.h], [mach-o/fat.h], [mach/machine.h] *)
Definition MH_MAGIC : Z := 0xfeedface.
Definition MH_CIGAM : Z := 0xcefaedfe.
Definition MH_MAGIC_64 : Z := 0xfeedfacf.
Definition MH_CIGAM_64 : Z := 0xcffaedfe.
Definition FAT_MAGIC : Z := 0xcafebabe.
Definition FAT_CIGAM : Z := 0xbebafeca.
Definition FAT_MAGIC_64 : Z := 0xcafebabf.
Definition FAT_CIGAM_64 : Z := 0xbfbafeca.
Definition CPU_TYPE_ARM64 : Z := 0x0100000c.
Definition CPU_SUBTYPE_ARM64_ALL : Z := 0.
Definition CPU_SUBTYPE_ARM64E : Z := 2.
Definition LC_SEGMENT : Z := 0x1.
Definition LC_SEGMENT_64 : Z := 0x19.
Definition LC_DYLD_INFO : Z := 0x22.
Definition LC_DYLD_INFO_ONLY : Z := 0x80000022.
Definition sizeof_fat_header : Z := 8.
Definition sizeof_fat_arch : Z := 20.
Definition sizeof_mach_header : Z := 28.
Definition sizeof_mach_header_64 : Z := 32.

(** The macros of [macho.h] *)
Definition HEADER_IS_FAT (magic : Z) : bool :=
  (magic =? FAT_MAGIC) || (magic =? FAT_CIGAM) || (magic =? FAT_MAGIC_64) || (magic =? FAT_CIGAM_64).
Definition HEADER_IS_MACHO (magic : Z) : bool :=
  (magic =? MH_MAGIC) || (magic =? MH_CIGAM) || (magic =? MH_MAGIC_64) || (magic =? MH_CIGAM_64).
Definition HEADER_IS_64BIT (magic : Z) : bool :=
  (magic =? FAT_MAGIC_64) || (magic =? FAT_CIGAM_64) || (magic =? MH_MAGIC_64) || (magic =? MH_CIGAM_64).
Definition NEEDS_BSWAP (magic : Z) : bool :=
  (magic =? MH_CIGAM) || (magic =? MH_CIGAM_64) || (magic =? FAT_CIGAM) || (magic =? FAT_CIGAM_64).
Definition CPU_SUBTYPE_IS_ARM64E (subtype : Z) : bool := Z.land (u32 subtype) 0x00ffffff =? CPU_SUBTYPE_ARM64E.

(** Fields at their offsets: [magic], [nfat_arch]; [cputype], [cpusubtype],
    [offset] of a [fat_arch]; [cputype], [cpusubtype], [ncmds], [sizeofcmds]
    of a mach header; [cmd] and [cmdsize] of a load command. *)
Definition fh_magic (fh : Z) : M image Z := peek32 fh.
Definition fh_nfat_arch (fh : Z) : M image Z := peek32 (fh + 4).
Definition fa_cputype (fa : Z) : M image Z := peek32 fa.
Definition fa_cpusubtype (fa : Z) : M image Z := peek32 (fa + 4).
Definition fa_offset (fa : Z) : M image Z := peek32 (fa + 8).
Definition mh_magic (mh : Z) : M image Z := peek32 mh.
Definition mh_cputype (mh : Z) : M image Z := peek32 (mh + 4).
Definition mh_cpusubtype (mh : Z) : M image Z := peek32 (mh + 8).
Definition mh_filetype (mh : Z) : M image Z := peek32 (mh + 12).
Definition mh_ncmds (mh : Z) : M image Z := peek32 (mh + 16).
Definition mh_sizeofcmds (mh : Z) : M image Z := peek32 (mh + 20).
Definition lc_cmd (lc : Z) : M image Z := peek32 lc.
Definition lc_cmdsize (lc : Z) : M image Z := peek32 (lc + 4).

(** ** Which executables are arm64e *)

(** The loop over [n] more architectures, the next at [fa]. *)
Fixpoint fat_is_arm64e_loop (n : nat) (bswap : bool) (fa : Z) : M image bool :=
  match n with
  | O => mret false
  | S n =>
    cputype ← fa_cputype fa;
    subtype ← fa_cpusubtype fa;
    let cputype := s32 (order_val bswap cputype) in
    let subtype := s32 (order_val bswap subtype) in
    if negb (cputype =? CPU_TYPE_ARM64) then fat_is_arm64e_loop n bswap (fa + sizeof_fat_arch)
    else if CPU_SUBTYPE_IS_ARM64E subtype then mret true
    else fat_is_arm64e_loop n bswap (fa + sizeof_fat_arch)
  end.

Definition fat_is_arm64e (fh : Z) : M image bool :=
  magic ← fh_magic fh;
  xnd_assert (negb (HEADER_IS_64BIT magic));;
  let bswap := NEEDS_BSWAP magic in
  nfat_arch ← fh_nfat_arch fh;
  fat_is_arm64e_loop (Z.to_nat (order_val bswap nfat_arch)) bswap (fh + sizeof_fat_header).

Definition macho_is_arm64e (mh : Z) : M image bool :=
  magic ← mh_magic mh;
  xnd_assert (HEADER_IS_64BIT magic);;
  cputype ← mh_cputype mh;
  if negb (s32 cputype =? CPU_TYPE_ARM64) then mret false else
  subtype ← mh_cpusubtype mh;
  mret (CPU_SUBTYPE_IS_ARM64E subtype).

Definition binary_is_arm64e (hdr : Z) : M image bool :=
  magic ← peek32 hdr;
  if HEADER_IS_MACHO magic then macho_is_arm64e hdr
  else if HEADER_IS_FAT magic then fat_is_arm64e hdr
  else mret false.

(** ** Changing the subtype *)

Definition macho_arm64e_to_arm64 (mh : Z) : M image Z :=
  magic ← mh_magic mh;
  xnd_assert (HEADER_IS_64BIT magic);;
  xnd_assert (negb (NEEDS_BSWAP magic));;
  cputype ← mh_cputype mh;
  xnd_assert (s32 cputype =? CPU_TYPE_ARM64);;
  poke32 (mh + 8) CPU_SUBTYPE_ARM64_ALL;;
  mret mh.

(** The loop leaves the pointer at the first architecture with the cpu type,
    or after the last one; whether it found one is the second component. *)
Fixpoint find_arch_loop (n : nat) (bswap : bool) (arch fa : Z) : M image (Z * bool) :=
  match n with
  | O => mret (fa, false)
  | S n =>
    cputype ← fa_cputype fa;
    if s32 (order_val bswap cputype) =? arch then mret (fa, true)
    else find_arch_loop n bswap arch (fa + sizeof_fat_arch)
  end.

Definition fat_arm64e_to_arm64 (fh : Z) : M image Z :=
  magic ← fh_magic fh;
  xnd_assert (negb (HEADER_IS_64BIT magic));;
  let bswap := NEEDS_BSWAP magic in
  nfat_arch ← fh_nfat_arch fh;
  '(fa, _) ← find_arch_loop (Z.to_nat (order_val bswap nfat_arch)) bswap CPU_TYPE_ARM64
               (fh + sizeof_fat_header);
  offset ← fa_offset fa;
  let mh := fh + order_val bswap offset in
  magic ← mh_magic mh;
  xnd_assert (HEADER_IS_MACHO magic);;
  macho_arm64e_to_arm64 mh.

Definition macho_thin_from_fat (fh arch : Z) : M image (option Z) :=
  magic ← fh_magic fh;
  let bswap := NEEDS_BSWAP magic in
  nfat_arch ← fh_nfat_arch fh;
  '(fa, found) ← find_arch_loop (Z.to_nat (order_val bswap nfat_arch)) bswap arch (fh + sizeof_fat_header);
  if negb found then mret None else
  offset ← fa_offset fa;
  mret (Some (fh + order_val bswap offset)).

(** ** Load commands *)

Definition lc_start (magic mh : Z) : Z :=
  mh + (if HEADER_IS_64BIT magic then sizeof_mach_header_64 else sizeof_mach_header).

(** [n] more commands, the next at [offset]: 32 bits wide. *)
Fixpoint find_load_command_loop (n : nat) (start offset cmd : Z) : M image (option Z) :=
  match n with
  | O => mret None
  | S n =>
    let lc := start + offset in
    c ← lc_cmd lc;
    if c =? cmd then mret (Some lc) else
    cmdsize ← lc_cmdsize lc;
    find_load_command_loop n start (u32 (offset + cmdsize)) cmd
  end.

Definition macho_find_load_command (mh cmd : Z) : M image (option Z) :=
  magic ← mh_magic mh;
  let bswap := NEEDS_BSWAP magic in
  ncmds ← mh_ncmds mh;
  find_load_command_loop (Z.to_nat (order_val bswap ncmds)) (lc_start magic mh) 0 cmd.

(** The loop is bounded by the size of the commands: a command of size 0 is
    visited forever, and the fuel counts visits. *)
Fixpoint find_segment_loop (fuel : nat) (mh start offset idx seg_index : Z) : M image (option Z) :=
  match fuel with
  | O => nofuel
  | S fuel =>
    sizeofcmds ← mh_sizeofcmds mh;
    if offset <? sizeofcmds then
      let lc := start + offset in
      cmdsize ← lc_cmdsize lc;
      c ← lc_cmd lc;
      if (c =? LC_SEGMENT) || (c =? LC_SEGMENT_64) then
        if idx =? seg_index then mret (Some lc)
        else find_segment_loop fuel mh start (u64 (offset + cmdsize)) (u32 (idx + 1)) seg_index
      else find_segment_loop fuel mh start (u64 (offset + cmdsize)) idx seg_index
    else mret None
  end.

Definition macho_find_segment (fuel : nat) (mh seg_index : Z) : M image (option Z) :=
  magic ← mh_magic mh;
  find_segment_loop fuel mh (lc_start magic mh) 0 0 seg_index.

(** ** The temporary copy *)

Definition ARM64E_TO_ARM64_SUCCESS : Z := 0.
Definition ARM64E_TO_ARM64_FAILURE : Z := -1.
Definition ARM64E_TO_ARM64_NOT_ARM64E : Z := -2.

Class MachoSys (K : Type) := {
  (** [open(path, O_RDONLY)], [lseek(fd, 0, SEEK_END)] *)
  mo_open : cstr -> K -> Z * K;
  mo_size : Z -> K -> Z * K;
  (** [mmap] of [size] bytes, private: [None] is [MAP_FAILED] *)
  mo_mmap : Z -> Z -> K -> option image * K;
  (** [open(tmp, O_WRONLY | O_CREAT | O_TRUNC, 0755)] *)
  mo_open_tmp : cstr -> K -> Z * K;
  mo_close : Z -> K -> K;
  mo_munmap : Z -> K -> K;
  (** [access(path, F_OK) == 0], [unlink] *)
  mo_access : cstr -> K -> bool * K;
  mo_unlink : cstr -> K -> bool * K;
}.

Section convert.
Context {K : Type} `{IoSys K, MachoSys K}.

Definition sys {A} (f : K -> A * K) : M K A := fun k => let '(a, k) := f k in Ret a k.

(** The label [out] with the locals it reads; [mapped] is [addr] not being
    NULL or [MAP_FAILED], with the size. *)
Definition convert_out (tmp : cstr) (srcfd dstfd : Z) (mapped : option Z) (ret : Z) : M K Z :=
  (if negb (srcfd =? -1) then modify (mo_close srcfd) else mret tt);;
  (if negb (dstfd =? -1) then modify (mo_close dstfd) else mret tt);;
  (match mapped with Some size => modify (mo_munmap size) | None => mret tt end);;
  (if negb (ret =? ARM64E_TO_ARM64_SUCCESS) then
     there ← sys (mo_access tmp);
     if (there : bool) then sys (mo_unlink tmp);; mret tt else mret tt
   else mret tt);;
  mret ret.

(** From the header [mh] on, into [dstfd]: the lines after the header has
    been changed. *)
Definition write_copy (tmp : cstr) (srcfd dstfd size mh : Z) (m : image) : M K Z :=
  let nbyte := u64 (size - mh) in
  '(info, m) ← on_image (macho_find_load_command mh LC_DYLD_INFO) m;
  '(only, m) ← (if bool_decide (is_Some info) then mret (info, m)
                else on_image (macho_find_load_command mh LC_DYLD_INFO_ONLY) m);
  if bool_decide (is_Some only) then convert_out tmp srcfd dstfd (Some size) ARM64E_TO_ARM64_FAILURE else
  '(bytes, _) ← on_image (peek mh nbyte) m;
  n ← writeall dstfd bytes;
  convert_out tmp srcfd dstfd (Some size)
    (if n =? nbyte then ARM64E_TO_ARM64_SUCCESS else ARM64E_TO_ARM64_FAILURE).

Definition binary_arm64e_to_arm64 (path tmp : cstr) : M K Z :=
  srcfd ← sys (mo_open path);
  if srcfd <? 0 then convert_out tmp srcfd (-1) None ARM64E_TO_ARM64_FAILURE else
  off ← sys (mo_size srcfd);
  if off <? 0 then convert_out tmp srcfd (-1) None ARM64E_TO_ARM64_FAILURE else
  let size := off in
  addr ← sys (mo_mmap srcfd size);
  match addr with
  | None => convert_out tmp srcfd (-1) None ARM64E_TO_ARM64_FAILURE
  | Some m =>
    '(arm64e, m) ← on_image (binary_is_arm64e 0) m;
    if negb arm64e then convert_out tmp srcfd (-1) (Some size) ARM64E_TO_ARM64_NOT_ARM64E else
    dstfd ← sys (mo_open_tmp tmp);
    if dstfd <? 0 then convert_out tmp srcfd dstfd (Some size) ARM64E_TO_ARM64_FAILURE else
    '(magic, m) ← on_image (peek32 0) m;
    if HEADER_IS_MACHO magic then
      '(mh, m) ← on_image (macho_arm64e_to_arm64 0) m;
      write_copy tmp srcfd dstfd size mh m
    else if HEADER_IS_FAT magic then
      '(mh, m) ← on_image (fat_arm64e_to_arm64 0) m;
      write_copy tmp srcfd dstfd size mh m
    else convert_out tmp srcfd dstfd (Some size) ARM64E_TO_ARM64_FAILURE
  end.
End convert.

(** ** Executables as data *)

Record lcmd := LCmd { c_cmd : Z; c_body : list Z }.
Definition lc_size (c : lcmd) : Z := 8 + Z.of_nat (length (c_body c)).
Definition lc_bytes (c : lcmd) : list Z := words false [c_cmd c; lc_size c] ++ c_body c.
Definition lcs_bytes (cs : list lcmd) : list Z := concat (lc_bytes <$> cs).
Definition lcs_size (cs : list lcmd) : Z := Z.of_nat (length (lcs_bytes cs)).
Definition lcs_ok (cs : list lcmd) : Prop := Forall (fun c => in_u 32 (c_cmd c)) cs /\ lcs_size cs < 2 ^ 32.

Record exe := Exe {
  e_cputype : Z; e_cpusubtype : Z; e_filetype : Z; e_flags : Z;
  e_cmds : list lcmd;
  (** what follows the load commands *)
  e_rest : list Z
}.
Definition header (e : exe) : list Z :=
  [MH_MAGIC_64; e_cputype e; e_cpusubtype e; e_filetype e;
   Z.of_nat (length (e_cmds e)); lcs_size (e_cmds e); e_flags e; 0].
Definition exe_bytes (e : exe) : list Z := words false (header e) ++ lcs_bytes (e_cmds e) ++ e_rest e.
Definition as_arm64 (e : exe) : exe :=
  Exe (e_cputype e) CPU_SUBTYPE_ARM64_ALL (e_filetype e) (e_flags e) (e_cmds e) (e_rest e).

(** The load commands with their addresses, the first at [at_]. *)
Fixpoint placed (at_ : Z) (cs : list lcmd) : list (Z * lcmd) :=
  match cs with
  | [] => []
  | c :: cs => (at_, c) :: placed (at_ + lc_size c) cs
  end.

Definition is_segment (c : lcmd) : bool := (c_cmd c =? LC_SEGMENT) || (c_cmd c =? LC_SEGMENT_64).

Lemma lc_bytes_length c : Z.of_nat (length (lc_bytes c)) = lc_size c.
Proof. unfold lc_bytes, lc_size. rewrite length_app, words_length. simpl. lia. Qed.

Lemma lcs_size_cons c cs : lcs_size (c :: cs) = lc_size c + lcs_size cs.
Proof.
  unfold lcs_size. change (lcs_bytes (c :: cs)) with (lc_bytes c ++ lcs_bytes cs).
  by rewrite length_app, Nat2Z.inj_add, lc_bytes_length.
Qed.

Lemma lcs_size_app cs ds : lcs_size (cs ++ ds) = lcs_size cs + lcs_size ds.
Proof. unfold lcs_size, lcs_bytes. rewrite fmap_app, concat_app, length_app. lia. Qed.

Lemma lc_size_pos c : 8 <= lc_size c.
Proof. unfold lc_size. lia. Qed.

Lemma lcs_size_count cs : 8 * Z.of_nat (length cs) <= lcs_size cs.
Proof.
  induction cs as [|c cs IH]; [done|]. rewrite lcs_size_cons. pose proof (lc_size_pos c). cbn [length]. lia.
Qed.

(** Reading the command at the front of what follows [pre]. *)
Lemma command_fields pre c cs post m o : m = pre ++ lcs_bytes (c :: cs) ++ post -> o = Z.of_nat (length pre) ->
  lcs_ok (c :: cs) -> lc_cmd o m = Ret (c_cmd c) m /\ lc_cmdsize o m = Ret (lc_size c) m.
Proof.
  intros Hm Ho [[Hc _]%Forall_cons Hl]. rewrite lcs_size_cons in Hl. pose proof (lcs_size_count cs).
  pose proof (lc_size_pos c). change (lcs_bytes (c :: cs)) with (lc_bytes c ++ lcs_bytes cs) in Hm. unfold lc_bytes in Hm. rewrite <- !app_assoc in Hm.
  split.
  - unfold lc_cmd. rewrite (peek32_word _ _ _ 0 _ _ _ Hm eq_refl) by (cbn; lia). by rewrite wrapu_small.
  - unfold lc_cmdsize. rewrite (peek32_word _ _ _ 1 _ _ _ Hm eq_refl) by (cbn; lia).
    by rewrite wrapu_small by (unfold in_u; lia).
Qed.

Lemma lcs_cons_split pre c cs post :
  pre ++ lcs_bytes (c :: cs) ++ post = (pre ++ lc_bytes c) ++ lcs_bytes cs ++ post.
Proof. unfold lcs_bytes. cbn. by rewrite <- !app_assoc. Qed.

Lemma lcs_ok_cons c cs : lcs_ok (c :: cs) -> lcs_ok cs.
Proof.
  intros [[_ H]%Forall_cons Hl]. split; [done|]. rewrite lcs_size_cons in Hl. pose proof (lc_size_pos c). lia.
Qed.

Lemma find_load_command_loop_eq cmd start cs : forall pre post m offset,
  m = pre ++ lcs_bytes cs ++ post -> start + offset = Z.of_nat (length pre) -> lcs_ok cs ->
  0 <= offset -> offset + lcs_size cs < 2 ^ 32 ->
  find_load_command_loop (length cs) start offset cmd m
    = Ret (fst <$> head (filter (fun x => c_cmd x.2 = cmd) (placed (start + offset) cs))) m.
Proof.
  induction cs as [|c cs IH]; intros pre post m offset Hm Ho Hok H0 Hb; [done|].
  cbn [find_load_command_loop length placed].
  destruct (command_fields pre c cs post m _ Hm Ho Hok) as [Hc Hs].
  rewrite (bind_ret _ _ _ _ _ Hc). rewrite filter_cons. cbn [snd].
  destruct (Z.eqb_spec (c_cmd c) cmd) as [->|Hn]; [by rewrite decide_True|].
  rewrite decide_False by done. rewrite (bind_ret _ _ _ _ _ Hs).
  rewrite lcs_size_cons in Hb. pose proof (lcs_size_count cs). pose proof (lc_size_pos c).
  rewrite wrapu_small by (unfold in_u; lia). rewrite <- Z.add_assoc.
  apply (IH (pre ++ lc_bytes c) post); [by rewrite Hm, lcs_cons_split| |by eapply lcs_ok_cons|lia|lia].
  rewrite length_app, Nat2Z.inj_add, lc_bytes_length. lia.
Qed.

(** Reading the header of an executable that starts at the end of [pre]. *)
Section fields.
Context (pre post : list Z) (e : exe) (m : image) (mh : Z).
Context (Hm : m = pre ++ exe_bytes e ++ post) (Hmh : mh = Z.of_nat (length pre)).

Lemma header_field i v o : header e !! i = Some v -> o = mh + 4 * Z.of_nat i -> peek32 o m = Ret (u32 v) m.
Proof using Hm Hmh.
  intros Hi ->. subst mh. eapply (peek32_word pre (header e)); [|done|done].
  rewrite Hm. unfold exe_bytes. by rewrite <- app_assoc.
Qed.

Lemma magic_eq : mh_magic mh m = Ret MH_MAGIC_64 m.
Proof using Hm Hmh. unfold mh_magic. rewrite (header_field 0 MH_MAGIC_64) by (done || lia). done. Qed.

Lemma commands_split : m = (pre ++ words false (header e)) ++ lcs_bytes (e_cmds e) ++ e_rest e ++ post.
Proof using Hm. rewrite Hm. unfold exe_bytes. by rewrite <- !app_assoc. Qed.

Lemma commands_at : mh + 32 = Z.of_nat (length (pre ++ words false (header e))).
Proof using Hmh. rewrite length_app, words_length. cbn [header length]. lia. Qed.

Lemma find_load_command_eq cmd : lcs_ok (e_cmds e) ->
  macho_find_load_command mh cmd m
    = Ret (fst <$> head (filter (fun x => c_cmd x.2 = cmd) (placed (mh + 32) (e_cmds e)))) m.
Proof using Hm Hmh.
  intros Hok. unfold macho_find_load_command. rewrite (bind_ret _ _ _ _ _ magic_eq).
  change (NEEDS_BSWAP MH_MAGIC_64) with false. change (lc_start MH_MAGIC_64 mh) with (mh + 32).
  unfold mh_ncmds. erewrite bind_ret by (eapply (header_field 4); [done|lia]). cbn [order_val].
  pose proof (lcs_size_count (e_cmds e)). destruct Hok as [Hc Hl].
  rewrite wrapu_small by (unfold in_u; lia). rewrite Nat2Z.id.
  rewrite (find_load_command_loop_eq cmd _ _ _ _ _ 0 commands_split) by
    (rewrite ?Z.add_0_r; first [apply commands_at | by split | lia]). by rewrite Z.add_0_r.
Qed.

Lemma find_segment_loop_eq seg_index cs : forall fuel done_ idx offset,
  e_cmds e = done_ ++ cs -> offset = lcs_size done_ -> lcs_ok (e_cmds e) -> (length cs < fuel)%nat ->
  0 <= idx <= seg_index -> idx + Z.of_nat (length cs) < 2 ^ 32 ->
  find_segment_loop fuel mh (mh + 32) offset idx seg_index m
    = Ret ((fst <$> filter (fun x => is_segment x.2 = true) (placed (mh + 32 + offset) cs)) !! Z.to_nat (seg_index - idx)) m.
Proof using Hm Hmh.
  induction cs as [|c cs IH]; intros [|fuel] done_ idx offset He Ho Hok Hf Hi Hb; cbn [length] in *; try lia;
    pose proof (proj2 Hok) as Hl; pose proof (lcs_size_count done_) as Hd;
    rewrite He, lcs_size_app in Hl; cbn [find_segment_loop placed];
    unfold mh_sizeofcmds; (erewrite bind_ret by (eapply (header_field 5); [done|lia]));
    rewrite He, lcs_size_app.
  - rewrite wrapu_small by (unfold in_u; change (lcs_size []) with 0 in *; lia).
    rewrite (proj2 (Z.ltb_ge _ _)) by (change (lcs_size []) with 0; lia). done.
  - pose proof (lc_size_pos c). pose proof (lcs_size_count cs).
    rewrite lcs_size_cons in Hl |- *. rewrite wrapu_small by (unfold in_u; lia).
    rewrite (proj2 (Z.ltb_lt _ _)) by lia.
    assert (m = (pre ++ words false (header e) ++ lcs_bytes done_) ++ lcs_bytes (c :: cs) ++ e_rest e ++ post) as Hm'.
    { rewrite commands_split, He. unfold lcs_bytes at 1. rewrite fmap_app, concat_app. by rewrite <- !app_assoc. }
    destruct (command_fields _ c cs _ m (mh + 32 + offset) Hm') as [Hc Hs].
    { rewrite !length_app, words_length. cbn [header length]. subst offset mh. unfold lcs_size. lia. }
    { destruct Hok as [Hc Hk]. rewrite He in Hc. apply Forall_app in Hc as [_ Hc]. split; [done|].
      rewrite lcs_size_cons. lia. }
    rewrite (bind_ret _ _ _ _ _ Hs), (bind_ret _ _ _ _ _ Hc).
    rewrite (wrapu_small 64) by (unfold in_u; lia).
    assert (e_cmds e = (done_ ++ [c]) ++ cs) as He' by (by rewrite He, <- app_assoc).
    assert (offset + lc_size c = lcs_size (done_ ++ [c])) as Ho'.
    { rewrite lcs_size_app, lcs_size_cons. change (lcs_size []) with 0. lia. }
    rewrite filter_cons. cbn [snd]. fold (is_segment c). rewrite <- (Z.add_assoc _ offset).
    destruct (is_segment c) eqn:Es.
    + rewrite decide_True by done. destruct (Z.eqb_spec idx seg_index) as [->|Hne].
      * by rewrite Z.sub_diag.
      * rewrite wrapu_small by (unfold in_u; lia).
        rewrite (IH fuel (done_ ++ [c])) by (done || lia).
        replace (Z.to_nat (seg_index - idx)) with (S (Z.to_nat (seg_index - (idx + 1)))) by lia. done.
    + rewrite decide_False by congruence. by rewrite (IH fuel (done_ ++ [c])) by (done || lia).
Qed.

Lemma find_segment_eq fuel seg_index : lcs_ok (e_cmds e) -> (length (e_cmds e) < fuel)%nat -> 0 <= seg_index ->
  macho_find_segment fuel mh seg_index m
    = Ret ((fst <$> filter (fun x => is_segment x.2 = true) (placed (mh + 32) (e_cmds e))) !! Z.to_nat seg_index) m.
Proof using Hm Hmh.
  intros Hok Hf Hi. unfold macho_find_segment. rewrite (bind_ret _ _ _ _ _ magic_eq).
  change (lc_start MH_MAGIC_64 mh) with (mh + 32).
  pose proof (lcs_size_count (e_cmds e)). pose proof (proj2 Hok).
  rewrite (find_segment_loop_eq seg_index (e_cmds e) fuel []) by (done || lia).
  by rewrite Z.add_0_r, Z.sub_0_r.
Qed.

(** *** The subtype *)

Lemma cputype_eq : in_u 32 (e_cputype e) -> mh_cputype mh m = Ret (e_cputype e) m.
Proof using Hm Hmh.
  intros Hc. unfold mh_cputype. rewrite (header_field 1 (e_cputype e)) by (done || lia). by rewrite wrapu_small.
Qed.

Lemma is_arm64e_eq : e_cputype e = CPU_TYPE_ARM64 ->
  macho_is_arm64e mh m = Ret (CPU_SUBTYPE_IS_ARM64E (e_cpusubtype e)) m.
Proof using Hm Hmh.
  intros Hc. unfold macho_is_arm64e. rewrite (bind_ret _ _ _ _ _ magic_eq).
  rewrite assert_true by done. rewrite (bind_ret _ _ _ _ _ (cputype_eq ltac:(by rewrite Hc))).
  rewrite Hc. cbn [negb]. change (negb (s32 CPU_TYPE_ARM64 =? CPU_TYPE_ARM64)) with false. cbv iota.
  unfold mh_cpusubtype. erewrite bind_ret by (eapply (header_field 2); [done|lia]).
  unfold CPU_SUBTYPE_IS_ARM64E, wrapu. by rewrite Z.mod_mod.
Qed.

Lemma to_arm64_eq : e_cputype e = CPU_TYPE_ARM64 ->
  macho_arm64e_to_arm64 mh m = Ret mh (pre ++ exe_bytes (as_arm64 e) ++ post).
Proof using Hm Hmh.
  intros Hc. unfold macho_arm64e_to_arm64. rewrite (bind_ret _ _ _ _ _ magic_eq).
  rewrite !assert_true by done. rewrite (bind_ret _ _ _ _ _ (cputype_eq ltac:(by rewrite Hc))).
  rewrite Hc, assert_true by done.
  erewrite bind_ret; [reflexivity|].
  rewrite (poke32_word pre (header e) ((lcs_bytes (e_cmds e) ++ e_rest e) ++ post) 2 (e_cpusubtype e)).
  - unfold exe_bytes. by rewrite <- !app_assoc.
  - rewrite Hm. unfold exe_bytes. by rewrite <- !app_assoc.
  - done.
  - lia.
Qed.
End fields.

(** ** Fat files *)

Record arch := Arch { a_cputype : Z; a_cpusubtype : Z; a_offset : Z; a_size : Z; a_align : Z }.
Definition arch_words (a : arch) : list Z := [a_cputype a; a_cpusubtype a; a_offset a; a_size a; a_align a].
Definition arch_ok (a : arch) : Prop := in_u 32 (a_cputype a) /\ in_u 32 (a_cpusubtype a) /\ in_u 32 (a_offset a).
Definition archs_words (l : list arch) : list Z := concat (arch_words <$> l).
(** Written in the order of the other kind of machine: all fat files are. *)
Definition fat_bytes (l : list arch) : list Z := words true ([FAT_MAGIC; Z.of_nat (length l)] ++ archs_words l).
Definition arch_is_arm64e (a : arch) : bool :=
  (a_cputype a =? CPU_TYPE_ARM64) && CPU_SUBTYPE_IS_ARM64E (a_cpusubtype a).
#[global] Instance arch_type_dec t : forall a, Decision (a_cputype a = t).
Proof. intros a. apply _. Defined.

Lemma u32_s32 x : u32 (s32 x) = u32 x.
Proof.
  unfold wrapu, wraps. rewrite Zminus_mod_idemp_l. f_equal. change (2 ^ (32 - 1)) with (2 ^ 31). lia.
Qed.
Lemma s32_eqb x c : in_u 32 x -> 0 <= c < 2 ^ 31 -> (s32 x =? c) = (x =? c).
Proof.
  intros Hx Hc. destruct (Z.eqb_spec x c) as [->|Hn].
  - rewrite wraps_small by (unfold in_s; lia). apply Z.eqb_refl.
  - apply Z.eqb_neq. intros E. apply Hn. rewrite <- (wrapu_small 32 x Hx), <- u32_s32, E.
    by apply wrapu_small; unfold in_u; lia.
Qed.

(** Field [i] of the architecture at the front of what follows [pre]. *)
Lemma arch_field pre a l post m i v o : m = pre ++ words true (archs_words (a :: l)) ++ post ->
  arch_words a !! i = Some v -> o = Z.of_nat (length pre) + 4 * Z.of_nat i -> peek32 o m = Ret (stored true v) m.
Proof.
  intros Hm Hi Ho. eapply (peek32_field pre true (archs_words (a :: l))); [done| |done].
  unfold archs_words. cbn [fmap list_fmap concat]. by apply lookup_app_l_Some.
Qed.

Lemma archs_split pre a l post : pre ++ words true (archs_words (a :: l)) ++ post
  = (pre ++ words true (arch_words a)) ++ words true (archs_words l) ++ post.
Proof. unfold archs_words. cbn [fmap list_fmap concat]. by rewrite words_app, <- !app_assoc. Qed.

Lemma archs_next pre a : Z.of_nat (length pre) + 20 = Z.of_nat (length (pre ++ words true (arch_words a))).
Proof. rewrite length_app, words_length. cbn [arch_words length]. lia. Qed.

Lemma fat_is_arm64e_loop_eq l : forall pre post m fa,
  m = pre ++ words true (archs_words l) ++ post -> fa = Z.of_nat (length pre) -> Forall arch_ok l ->
  fat_is_arm64e_loop (length l) true fa m = Ret (existsb arch_is_arm64e l) m.
Proof.
  induction l as [|a l IH]; intros pre post m fa Hm Ho Hok; [done|].
  apply Forall_cons in Hok as [(Ht & Hs & _) Hok]. cbn [fat_is_arm64e_loop length existsb].
  unfold fa_cputype, fa_cpusubtype.
  erewrite bind_ret by (eapply (arch_field pre a l post m 0); [done|done|lia]).
  erewrite bind_ret by (eapply (arch_field pre a l post m 1); [done|done|lia]).
  rewrite !order_val_stored, !(wrapu_small 32) by done. cbv zeta. rewrite s32_eqb by first [done | unfold CPU_TYPE_ARM64; lia].
  assert (fat_is_arm64e_loop (length l) true (fa + sizeof_fat_arch) m = Ret (existsb arch_is_arm64e l) m) as IH'.
  { apply (IH (pre ++ words true (arch_words a)) post); [by rewrite Hm, archs_split|subst; apply archs_next|done]. }
  unfold arch_is_arm64e at 1. destruct (a_cputype a =? CPU_TYPE_ARM64); cbn [negb andb orb]; [|done].
  unfold CPU_SUBTYPE_IS_ARM64E. rewrite u32_s32. by destruct (Z.land (u32 (a_cpusubtype a)) 0x00ffffff =? CPU_SUBTYPE_ARM64E).
Qed.

Lemma find_arch_loop_eq t l : forall pre post m fa,
  m = pre ++ words true (archs_words l) ++ post -> fa = Z.of_nat (length pre) -> Forall arch_ok l -> 0 <= t < 2 ^ 31 ->
  find_arch_loop (length l) true t fa m =
    Ret (match list_find (fun a => a_cputype a = t) l with
         | Some (i, _) => (fa + 20 * Z.of_nat i, true)
         | None => (fa + 20 * Z.of_nat (length l), false)
         end) m.
Proof.
  induction l as [|a l IH]; intros pre post m fa Hm Ho Hok Hr; [cbn; by rewrite Z.add_0_r|].
  apply Forall_cons in Hok as [(Ht & _) Hok]. cbn [find_arch_loop length list_find]. unfold fa_cputype.
  erewrite bind_ret by (eapply (arch_field pre a l post m 0); [done|done|lia]).
  rewrite order_val_stored, (wrapu_small 32) by done. rewrite s32_eqb by done.
  destruct (Z.eqb_spec (a_cputype a) t) as [E|E].
  { rewrite decide_True by done. by rewrite Z.add_0_r. }
  rewrite decide_False by done.
  rewrite (IH (pre ++ words true (arch_words a)) post) by
    first [by rewrite Hm, archs_split | subst; apply archs_next | done].
  unfold sizeof_fat_arch. destruct (list_find _ l) as [[i b]|]; cbn [fmap option_fmap option_map prod_map fst snd];
    match goal with |- Ret (?x, _) _ = Ret (?y, _) _ => replace x with y; [done|cbn [length]; lia] end.
Qed.

Section fat.
Context (l : list arch) (post : list Z) (m : image).
Context (Hm : m = fat_bytes l ++ post) (Hok : Forall arch_ok l) (Hn : Z.of_nat (length l) < 2 ^ 32).

Lemma fat_split : m = words true [FAT_MAGIC; Z.of_nat (length l)] ++ words true (archs_words l) ++ post.
Proof using Hm. rewrite Hm. unfold fat_bytes. by rewrite words_app, <- app_assoc. Qed.

Lemma fat_magic_eq : peek32 0 m = Ret FAT_CIGAM m.
Proof using Hm. by apply (peek32_field [] true _ 0 FAT_MAGIC _ m 0 fat_split). Qed.

Lemma fat_nfat_arch_eq : peek32 4 m = Ret (stored true (Z.of_nat (length l))) m.
Proof using Hm. by apply (peek32_field [] true _ 1 _ _ m 4 fat_split). Qed.

Lemma fat_count : Z.to_nat (order_val true (stored true (Z.of_nat (length l)))) = length l.
Proof using Hn. rewrite order_val_stored, wrapu_small by (unfold in_u; lia). apply Nat2Z.id. Qed.

Lemma fat_is_arm64e_eq : binary_is_arm64e 0 m = Ret (existsb arch_is_arm64e l) m.
Proof using Hm Hok Hn.
  unfold binary_is_arm64e. rewrite (bind_ret _ _ _ _ _ fat_magic_eq).
  change (HEADER_IS_MACHO FAT_CIGAM) with false. change (HEADER_IS_FAT FAT_CIGAM) with true. cbv iota.
  unfold fat_is_arm64e, fh_magic. rewrite (bind_ret _ _ _ _ _ fat_magic_eq). rewrite assert_true by done.
  unfold fh_nfat_arch. rewrite (bind_ret _ _ _ _ _ fat_nfat_arch_eq).
  change (NEEDS_BSWAP FAT_CIGAM) with true. cbv zeta. rewrite fat_count.
  by apply (fat_is_arm64e_loop_eq l _ post m _ fat_split).
Qed.

(** The first architecture with the cpu type, and the slice it points to. *)
Context (i : nat) (a : arch).

Lemma fat_offset_eq t : list_find (fun a => a_cputype a = t) l = Some (i, a) ->
  fa_offset (8 + 20 * Z.of_nat i) m = Ret (stored true (a_offset a)) m.
Proof using Hm.
  intros (Hi & _ & _)%list_find_Some. unfold fa_offset.
  pose proof (lookup_lt_Some _ _ _ Hi) as Hl.
  assert (l = take i l ++ a :: drop (S i) l) as Hs by (by rewrite take_drop_middle).
  eapply (arch_field (words true [FAT_MAGIC; Z.of_nat (length l)] ++ words true (archs_words (take i l))) a (drop (S i) l) post _ 2).
  - rewrite fat_split at 1. rewrite Hs at 2. unfold archs_words. rewrite fmap_app, concat_app, words_app.
    by rewrite <- !app_assoc.
  - done.
  - rewrite length_app, !words_length. unfold archs_words.
    assert (forall k : list arch, length (concat (arch_words <$> k)) = (5 * length k)%nat) as ->.
    { intros k. induction k as [|b k IH]; [done|]. cbn [fmap list_fmap concat]. rewrite length_app, IH. cbn. lia. }
    rewrite length_take. cbn [length]. lia.
Qed.

Lemma find_arm64_eq t : list_find (fun a => a_cputype a = t) l = Some (i, a) -> 0 <= t < 2 ^ 31 ->
  find_arch_loop (length l) true t (0 + sizeof_fat_header) m = Ret (8 + 20 * Z.of_nat i, true) m.
Proof using Hm Hok.
  intros Hf Ht. rewrite (find_arch_loop_eq t l _ post m _ fat_split) by done. by rewrite Hf.
Qed.

Lemma arch_offset_ok t : list_find (fun a => a_cputype a = t) l = Some (i, a) -> u32 (a_offset a) = a_offset a.
Proof using Hok.
  intros (Hi & _)%list_find_Some. apply wrapu_small. by apply (Forall_lookup_1 _ _ _ _ Hok Hi).
Qed.

Lemma thin_from_fat_eq t : list_find (fun a => a_cputype a = t) l = Some (i, a) -> 0 <= t < 2 ^ 31 ->
  macho_thin_from_fat 0 t m = Ret (Some (a_offset a)) m.
Proof using Hm Hok Hn.
  intros Hf Ht. unfold macho_thin_from_fat, fh_magic. rewrite (bind_ret _ _ _ _ _ fat_magic_eq).
  unfold fh_nfat_arch. rewrite (bind_ret _ _ _ _ _ fat_nfat_arch_eq).
  change (NEEDS_BSWAP FAT_CIGAM) with true. cbv zeta. rewrite fat_count.
  rewrite (bind_ret _ _ _ _ _ (find_arm64_eq t Hf Ht)). cbn [negb].
  rewrite (bind_ret _ _ _ _ _ (fat_offset_eq t Hf)). by rewrite order_val_stored, (arch_offset_ok t Hf).
Qed.

Lemma fat_to_arm64_eq gap e rest : list_find (fun a => a_cputype a = CPU_TYPE_ARM64) l = Some (i, a) ->
  post = gap ++ exe_bytes e ++ rest -> a_offset a = Z.of_nat (length (fat_bytes l ++ gap)) ->
  e_cputype e = CPU_TYPE_ARM64 ->
  fat_arm64e_to_arm64 0 m = Ret (a_offset a) ((fat_bytes l ++ gap) ++ exe_bytes (as_arm64 e) ++ rest).
Proof using Hm Hok Hn.
  intros Hf Hp Ha He. unfold fat_arm64e_to_arm64, fh_magic. rewrite (bind_ret _ _ _ _ _ fat_magic_eq).
  rewrite assert_true by done. unfold fh_nfat_arch. rewrite (bind_ret _ _ _ _ _ fat_nfat_arch_eq).
  change (NEEDS_BSWAP FAT_CIGAM) with true. cbv zeta. rewrite fat_count.
  rewrite (bind_ret _ _ _ _ _ (find_arm64_eq _ Hf ltac:(unfold CPU_TYPE_ARM64; lia))).
  rewrite (bind_ret _ _ _ _ _ (fat_offset_eq _ Hf)). rewrite order_val_stored, (arch_offset_ok _ Hf), Z.add_0_l.
  assert (m = (fat_bytes l ++ gap) ++ exe_bytes e ++ rest) as Hm' by (by rewrite Hm, Hp, <- app_assoc).
  rewrite (bind_ret _ _ _ _ _ (magic_eq _ _ _ _ _ Hm' Ha)). rewrite assert_true by done.
  by apply (to_arm64_eq _ _ _ _ _ Hm' Ha).
Qed.
End fat.
