(* ===== verification/MachoProps.v ===== *)
(** Finding load commands, and the temporary arm64 copy of an arm64e
    executable: theorems of [Macho]. *)

From S2P Require Import Prelude Bytes Leb128 Cstr Io Mapping Macho.
Open Scope Z_scope.

(** ** Load commands *)

(** C29. In a 64-bit executable mapped anywhere in an image,
    [macho_find_load_command] is the search for the first command of a kind in
    the list of its commands, and [macho_find_segment] indexes the list of its
    segments: each returns the address of that command, or NULL, and the
    second stops after one visit per command. *)
Theorem load_commands_found pre e post cmd fuel seg_index :
  let m := pre ++ exe_bytes e ++ post in
  let mh := Z.of_nat (length pre) in
  let lcs := placed (mh + 32) (e_cmds e) in
  lcs_ok (e_cmds e) -> (length (e_cmds e) < fuel)%nat -> 0 <= seg_index ->
  macho_find_load_command mh cmd m = Ret (fst <$> head (filter (fun x => c_cmd x.2 = cmd) lcs)) m /\
  macho_find_segment fuel mh seg_index m
    = Ret ((fst <$> filter (fun x => is_segment x.2 = true) lcs) !! Z.to_nat seg_index) m.
Proof.
  intros m mh lcs Hok Hf Hi. split.
  - by apply (find_load_command_eq pre post e).
  - by apply (find_segment_eq pre post e).
Qed.

(** ** The temporary copy *)

(** The file system as the conversion sees it: the files, and for each open
    descriptor its file and whether it was opened for writing. *)
Class MachoFs (K : Type) `{IoSys K, MachoSys K} (files : K -> gmap cstr (list Z))
    (fds : K -> gmap Z (cstr * bool)) := {
  open_law path k r k' : mo_open path k = (r, k') -> files k' = files k /\
    (r = -1 /\ fds k' = fds k \/
     0 <= r /\ fds k !! r = None /\ fds k' = <[r := (path, false)]> (fds k) /\ is_Some (files k !! path));
  size_law fd p w l k r k' : mo_size fd k = (r, k') -> fds k !! fd = Some (p, w) -> files k !! p = Some l ->
    files k' = files k /\ fds k' = fds k /\ (r = -1 \/ r = Z.of_nat (length l));
  mmap_law fd p w l k r k' : mo_mmap fd (Z.of_nat (length l)) k = (r, k') -> fds k !! fd = Some (p, w) ->
    files k !! p = Some l -> files k' = files k /\ fds k' = fds k /\
    (r = None \/ exists n, r = Some (l ++ replicate n 0));
  open_tmp_law tmp k r k' : mo_open_tmp tmp k = (r, k') ->
    r = -1 /\ files k' = files k /\ fds k' = fds k \/
    0 <= r /\ fds k !! r = None /\ fds k' = <[r := (tmp, true)]> (fds k) /\ files k' = <[tmp := []]> (files k);
  write_law fd p buf k r k' : sys_write fd buf k = (r, k') -> fds k !! fd = Some (p, true) ->
    fds k' = fds k /\
    (r = -1 /\ files k' = files k \/
     0 <= r <= Z.of_nat (length buf) /\ (buf <> [] -> 0 < r) /\
     files k' = <[p := default [] (files k !! p) ++ take (Z.to_nat r) buf]> (files k));
  close_law fd k : files (mo_close fd k) = files k /\ fds (mo_close fd k) = delete fd (fds k);
  munmap_law n k : files (mo_munmap n k) = files k /\ fds (mo_munmap n k) = fds k;
  access_law p k r k' : mo_access p k = (r, k') ->
    files k' = files k /\ fds k' = fds k /\ r = bool_decide (is_Some (files k !! p));
  unlink_law p k r k' : mo_unlink p k = (r, k') ->
    fds k' = fds k /\ files k' = if (r : bool) then delete p (files k) else files k;
}.

Section copy.
Context {K : Type} `{MachoFs K files fds}.

(** No refusal to remove [tmp]. *)
Definition removable (tmp : cstr) : Prop := forall k : K, (mo_unlink tmp k).1 = true.
Definition drop_fd (fd : Z) (m : gmap Z (cstr * bool)) : gmap Z (cstr * bool) :=
  if fd =? -1 then m else delete fd m.

(** What the conversion leaves alone. *)
Definition others_kept (tmp : cstr) (k k' : K) : Prop := forall p, p <> tmp -> files k' !! p = files k !! p.

Lemma closed_eq fd k : exists k',
  (if negb (fd =? -1) then modify (mo_close fd) else mret tt) k = Ret tt k' /\
  files k' = files k /\ fds k' = drop_fd fd (fds k).
Proof using All.
  unfold drop_fd. destruct (fd =? -1); [by exists k|]. exists (mo_close fd k). split; [done|]. apply close_law.
Qed.

Lemma convert_out_ok tmp srcfd dstfd mapped ret k :
  returns (convert_out tmp srcfd dstfd mapped ret) k (fun r k' => r = ret /\
    fds k' = drop_fd dstfd (drop_fd srcfd (fds k)) /\ others_kept tmp k k' /\
    (ret = 0 -> files k' = files k) /\ (ret <> 0 -> removable tmp -> files k' !! tmp = None)).
Proof using All.
  unfold convert_out, ARM64E_TO_ARM64_SUCCESS.
  destruct (closed_eq srcfd k) as (k1 & E1 & Hf1 & Hd1). eapply returns_step; [exact E1|].
  destruct (closed_eq dstfd k1) as (k2 & E2 & Hf2 & Hd2). eapply returns_step; [exact E2|].
  assert (exists k3, match mapped with Some size => modify (mo_munmap size) | None => mret tt end k2 = Ret tt k3 /\
    files k3 = files k2 /\ fds k3 = fds k2) as (k3 & E3 & Hf3 & Hd3).
  { destruct mapped as [n|]; [|by exists k2]. exists (mo_munmap n k2). split; [done|]. apply munmap_law. }
  eapply returns_step; [exact E3|].
  assert (fds k3 = drop_fd dstfd (drop_fd srcfd (fds k))) as Hd by congruence.
  assert (files k3 = files k) as Hf by congruence.
  destruct (Z.eqb_spec ret 0) as [->|Hr]; cbn [negb].
  { eapply returns_step; [done|]. apply returns_ret. split_and!; try done. intros p _. by rewrite Hf. }
  destruct (mo_access tmp k3) as [there k4] eqn:Ea. destruct (access_law _ _ _ _ Ea) as (Hf4 & Hd4 & Ht).
  destruct there.
  - destruct (mo_unlink tmp k4) as [gone k5] eqn:Eu. destruct (unlink_law _ _ _ _ Eu) as (Hd5 & Hf5).
    eapply (returns_step _ _ _ tt k5); [unfold sys; mrun; by rewrite Ea, Eu|]. apply returns_ret.
    split; [done|]. split; [congruence|]. split.
    { intros p Hp. rewrite Hf5, Hf4, Hf. destruct gone; [by rewrite lookup_delete_ne|done]. }
    split; [done|]. intros _ Hrm. specialize (Hrm k4). rewrite Eu in Hrm. cbn in Hrm. subst gone.
    rewrite Hf5. apply lookup_delete_eq.
  - eapply (returns_step _ _ _ tt k4); [unfold sys; mrun; by rewrite Ea|]. apply returns_ret.
    split; [done|]. split; [congruence|]. split; [intros p _; congruence|]. split; [done|]. intros _ _.
    symmetry in Ht. apply bool_decide_eq_false in Ht. rewrite Hf4. by apply eq_None_not_Some.
Qed.

(** Whole writes to the temporary file *)
Lemma tmp_written fd p buf k : fds k !! fd = Some (p, true) -> is_Some (files k !! p) ->
  returns (writeall fd buf) k (fun n k' => fds k' = fds k /\ others_kept p k k' /\
    0 <= n <= Z.of_nat (length buf) /\
    files k' !! p = Some (default [] (files k !! p) ++ take (Z.to_nat n) buf)).
Proof using All.
  intros Hfd Hp. eapply returns_weaken.
  - apply (writeall_loop_inv fd (fun k' => fds k' = fds k /\ others_kept p k k' /\ is_Some (files k' !! p))
      (fun k' => default [] (files k' !! p))); [|by split_and!|lia|lia].
    intros b w r w' (Hd & Ho & Hs) E. destruct (write_law fd p b w r w' E ltac:(by rewrite Hd)) as (Hd' & [[-> Hf]|(Hr & Hb & Hf)]).
    + rewrite Hf. split_and!; [congruence|intros q Hq; rewrite Hf; by apply Ho|done|by left].
    + split_and!; [congruence| |rewrite Hf, lookup_insert_eq; eauto|].
      * intros q Hq. rewrite Hf, lookup_insert_ne by done. by apply Ho.
      * right. split_and!; [lia..|done|]. by rewrite Hf, lookup_insert_eq.
  - cbn. intros n k' ((Hd & Ho & [l Hl]) & Hn & Hc).
    split; [done|]. split; [done|]. split; [lia|].
    rewrite Hl in Hc |- *. cbn in Hc. rewrite Hc. by rewrite Z.sub_0_r.
Qed.

(** *** The contents *)

Definition uses_dyld_info (e : exe) : Prop :=
  exists c, c ∈ e_cmds e /\ (c_cmd c = LC_DYLD_INFO \/ c_cmd c = LC_DYLD_INFO_ONLY).

Lemma placed_cmds at_ cs : (placed at_ cs).*2 = cs.
Proof. revert at_. induction cs as [|c cs IH]; intros at_; [done|]. cbn. by rewrite IH. Qed.

Lemma first_None cmd at_ cs : head (filter (fun x => c_cmd x.2 = cmd) (placed at_ cs)) = None ->
  forall c, c ∈ cs -> c_cmd c <> cmd.
Proof.
  intros Hnone c Hc E. rewrite <- (placed_cmds at_ cs) in Hc. apply list_elem_of_fmap in Hc as (x & -> & Hx).
  destruct (filter _ (placed at_ cs)) as [|y l] eqn:Ef; [|done].
  assert (x ∈ filter (fun x => c_cmd x.2 = cmd) (placed at_ cs)) as Hi by (apply list_elem_of_filter; by split).
  rewrite Ef in Hi. by apply not_elem_of_nil in Hi.
Qed.

(** The copy, once the header at the end of [pre] has been changed: [pad] is
    what the mapping has after the end of the file. *)
Lemma write_copy_ok tmp srcfd dstfd pre e pad k :
  lcs_ok (e_cmds e) -> Z.of_nat (length (pre ++ exe_bytes e)) < 2 ^ 63 ->
  fds k !! dstfd = Some (tmp, true) -> files k !! tmp = Some [] ->
  returns (write_copy tmp srcfd dstfd (Z.of_nat (length (pre ++ exe_bytes e))) (Z.of_nat (length pre))
             (pre ++ exe_bytes e ++ pad)) k (fun r k' =>
    fds k' = drop_fd dstfd (drop_fd srcfd (fds k)) /\ others_kept tmp k k' /\ (r = 0 \/ r = -1) /\
    (r = 0 -> files k' !! tmp = Some (exe_bytes e) /\ ~ uses_dyld_info e) /\
    (r <> 0 -> removable tmp -> files k' !! tmp = None)).
Proof using All.
  intros Hok Hl Hfd Ht. set (m := pre ++ exe_bytes e ++ pad). unfold write_copy. cbv zeta.
  assert (forall cmd, on_image (macho_find_load_command (Z.of_nat (length pre)) cmd) m k = Ret
    (fst <$> head (filter (fun x => c_cmd x.2 = cmd) (placed (Z.of_nat (length pre) + 32) (e_cmds e))), m) k) as Hfind.
  { intros cmd. apply on_image_ret. by apply (find_load_command_eq pre pad e). }
  eapply returns_step; [apply Hfind|]. cbv beta iota.
  match goal with |- context [head ?x] => destruct (head x) as [x1|] eqn:E1 end; cbn [fmap option_fmap option_map].
  { rewrite bool_decide_eq_true_2 by eauto. eapply returns_step; [done|]. cbv beta iota.
    rewrite bool_decide_eq_true_2 by eauto.
    eapply returns_weaken; [apply convert_out_ok|]. intros r k' (-> & Hd & Ho & _ & Hr).
    split_and!; try done; by right. }
  rewrite bool_decide_eq_false_2 by (by intros [? [=]]). eapply returns_step; [apply Hfind|]. cbv beta iota.
  match goal with |- context [head ?x] => destruct (head x) as [x2|] eqn:E2 end; cbn [fmap option_fmap option_map].
  { rewrite bool_decide_eq_true_2 by eauto.
    eapply returns_weaken; [apply convert_out_ok|]. intros r k' (-> & Hd & Ho & _ & Hr).
    split_and!; try done; by right. }
  rewrite bool_decide_eq_false_2 by (by intros [? [=]]).
  assert (Z.of_nat (length (pre ++ exe_bytes e)) - Z.of_nat (length pre) = Z.of_nat (length (exe_bytes e))) as Hn
    by (rewrite length_app; lia).
  rewrite Hn, (wrapu_small 64) by (rewrite length_app in Hl; unfold in_u; lia).
  eapply returns_step; [apply on_image_ret; by apply (peek_at pre (exe_bytes e) pad)|]. cbv beta iota.
  apply returns_bind. eapply returns_weaken; [apply (tmp_written dstfd tmp (exe_bytes e) k Hfd); by rewrite Ht|].
  intros n k1 (Hd1 & Ho1 & Hn1 & Hf1). rewrite Ht in Hf1. cbn [default from_option app] in Hf1.
  eapply returns_weaken; [apply convert_out_ok|]. intros r k2 (-> & Hd2 & Ho2 & Hz & Hr).
  split; [congruence|]. split; [intros p Hp; rewrite Ho2 by done; by apply Ho1|].
  unfold ARM64E_TO_ARM64_SUCCESS, ARM64E_TO_ARM64_FAILURE in *.
  destruct (Z.eqb_spec n (Z.of_nat (length (exe_bytes e)))) as [->|Hne].
  - split; [by left|]. split; [|done]. intros _. rewrite Hz by done. split.
    + rewrite Hf1, Nat2Z.id. by rewrite take_ge.
    + intros (c & Hc & [E|E]); by eapply first_None in E.
  - split; [by right|]. split; [done|]. done.
Qed.

(** A file that holds an arm64e executable [e] after [pre]: a thin file, or
    the first arm64 slice, at the end, of a fat file one of whose slices is
    arm64e. *)
Inductive arm64e_file : list Z -> list Z -> exe -> Prop :=
  | thin_file e : CPU_SUBTYPE_IS_ARM64E (e_cpusubtype e) = true -> arm64e_file (exe_bytes e) [] e
  | fat_file l gap i a e :
    Forall arch_ok l -> Z.of_nat (length l) < 2 ^ 32 -> existsb arch_is_arm64e l = true ->
    list_find (fun a => a_cputype a = CPU_TYPE_ARM64) l = Some (i, a) ->
    a_offset a = Z.of_nat (length (fat_bytes l ++ gap)) ->
    arm64e_file (fat_bytes l ++ gap ++ exe_bytes e) (fat_bytes l ++ gap) e.

Section image.
Context (src pre : list Z) (e : exe) (pad : list Z).
Context (Hsrc : arm64e_file src pre e) (Hcpu : e_cputype e = CPU_TYPE_ARM64).

Lemma arm64e_file_bytes : src = pre ++ exe_bytes e.
Proof using Hsrc. clear Hcpu. destruct Hsrc; [done|by rewrite <- app_assoc]. Qed.

Lemma detected : binary_is_arm64e 0 (src ++ pad) = Ret true (src ++ pad).
Proof using Hsrc Hcpu.
  destruct Hsrc as [e Hs|l gap i a e Hok Hn He Hf Ha].
  - unfold binary_is_arm64e. pose proof (magic_eq [] pad e (exe_bytes e ++ pad) 0 eq_refl eq_refl) as Hmg.
    unfold mh_magic in Hmg. rewrite (bind_ret _ _ _ _ _ Hmg). change (HEADER_IS_MACHO MH_MAGIC_64) with true. cbv iota.
    rewrite (is_arm64e_eq [] pad e (exe_bytes e ++ pad) 0 eq_refl eq_refl Hcpu). by rewrite Hs.
  - rewrite (fat_is_arm64e_eq l (gap ++ exe_bytes e ++ pad)); [by rewrite He| |done|done].
    by rewrite <- !app_assoc.
Qed.

(** The header the code finds and changes *)
Lemma patched :
  exists magic, peek32 0 (src ++ pad) = Ret magic (src ++ pad) /\
  (HEADER_IS_MACHO magic = true /\
     macho_arm64e_to_arm64 0 (src ++ pad) = Ret (Z.of_nat (length pre)) (pre ++ exe_bytes (as_arm64 e) ++ pad) \/
   HEADER_IS_MACHO magic = false /\ HEADER_IS_FAT magic = true /\
     fat_arm64e_to_arm64 0 (src ++ pad) = Ret (Z.of_nat (length pre)) (pre ++ exe_bytes (as_arm64 e) ++ pad)).
Proof using Hsrc Hcpu.
  destruct Hsrc as [e Hs|l gap i a e Hok Hn He Hf Ha].
  - exists MH_MAGIC_64. split; [apply (magic_eq [] pad e (exe_bytes e ++ pad) 0 eq_refl eq_refl)|]. left. split; [done|].
    by apply (to_arm64_eq [] pad e (exe_bytes e ++ pad) 0 eq_refl eq_refl).
  - assert ((fat_bytes l ++ gap ++ exe_bytes e) ++ pad = fat_bytes l ++ (gap ++ exe_bytes e ++ pad)) as Hm
      by (by rewrite <- !app_assoc).
    exists FAT_CIGAM. split; [by apply (fat_magic_eq l (gap ++ exe_bytes e ++ pad))|]. right. split; [done|]. split; [done|].
    rewrite <- Ha. by apply (fat_to_arm64_eq l (gap ++ exe_bytes e ++ pad) _ Hm Hok Hn i a gap e pad).
Qed.
End image.

Lemma as_arm64_length e : length (exe_bytes (as_arm64 e)) = length (exe_bytes e).
Proof. unfold exe_bytes. rewrite !length_app, !words_length. done. Qed.

(** What the conversion of [e] into [tmp] promises. *)
Definition copy_promise (tmp : cstr) (e : exe) (k : K) (r : Z) (k' : K) : Prop :=
  fds k' = fds k /\ others_kept tmp k k' /\ (r = 0 \/ r = -1) /\
  (r = 0 -> files k' !! tmp = Some (exe_bytes (as_arm64 e)) /\ ~ uses_dyld_info e) /\
  (r <> 0 -> removable tmp -> files k' !! tmp = None).

Lemma out_promise tmp e k k0 src0 dst0 mapped : others_kept tmp k k0 ->
  drop_fd dst0 (drop_fd src0 (fds k0)) = fds k ->
  returns (convert_out tmp src0 dst0 mapped ARM64E_TO_ARM64_FAILURE) k0 (copy_promise tmp e k).
Proof using All.
  intros Ho0 Hd0. eapply returns_weaken; [apply convert_out_ok|].
  intros r k' (-> & Hd & Ho & _ & Hr). split; [congruence|]. split; [intros p Hpp; rewrite Ho by done; by apply Ho0|].
  split; [by right|]. split; [done|]. intros _ Hrm. by apply Hr.
Qed.

(** With the source mapped and the temporary file open. *)
Lemma copy_ok tmp src pre e srcfd dstfd n k k4 :
  arm64e_file src pre e -> lcs_ok (e_cmds e) -> Z.of_nat (length src) < 2 ^ 63 ->
  others_kept tmp k k4 -> drop_fd dstfd (drop_fd srcfd (fds k4)) = fds k ->
  fds k4 !! dstfd = Some (tmp, true) -> files k4 !! tmp = Some [] ->
  returns (write_copy tmp srcfd dstfd (Z.of_nat (length src)) (Z.of_nat (length pre))
    (pre ++ exe_bytes (as_arm64 e) ++ replicate n 0)) k4 (copy_promise tmp e k).
Proof using All.
  intros Hsrc Hok Hl Ho4 Hd4 Hfd Hf. pose proof (arm64e_file_bytes _ _ _ Hsrc) as Hb.
  replace (length src) with (length (pre ++ exe_bytes (as_arm64 e))) by (by rewrite Hb, !length_app, as_arm64_length).
  eapply returns_weaken; [apply write_copy_ok; try done|].
  - rewrite Hb, length_app in Hl. by rewrite length_app, as_arm64_length.
  - intros r k' (Hd & Ho & Hr' & Hz & Hx). split; [by rewrite Hd|]. split; [|done].
    intros p Hpp. rewrite Ho by done. by apply Ho4.
Qed.

Lemma reopened srcfd dstfd s d (m : gmap Z (cstr * bool)) : 0 <= srcfd -> 0 <= dstfd -> m !! srcfd = None ->
  <[srcfd := s]> m !! dstfd = None -> drop_fd dstfd (drop_fd srcfd (<[dstfd := d]> (<[srcfd := s]> m))) = m.
Proof using All.
  intros H1' H2' Hs Hd. unfold drop_fd. rewrite !(proj2 (Z.eqb_neq _ _)) by lia.
  assert (dstfd <> srcfd) by (intros ->; by rewrite lookup_insert_eq in Hd).
  rewrite lookup_insert_ne in Hd by done.
  rewrite delete_insert_ne by done. rewrite (delete_insert_id m) by done. by apply delete_insert_id.
Qed.

Lemma copy_written (path tmp : cstr) src pre e (k : K) :
  arm64e_file src pre e -> e_cputype e = CPU_TYPE_ARM64 -> lcs_ok (e_cmds e) ->
  Z.of_nat (length src) < 2 ^ 63 -> files k !! path = Some src -> path <> tmp ->
  returns (binary_arm64e_to_arm64 path tmp) k (copy_promise tmp e k).
Proof.
  intros Hsrc Hcpu Hok Hl Hp Hne. unfold binary_arm64e_to_arm64.
  destruct (mo_open path k) as [srcfd k1] eqn:Eo.
  eapply (returns_step _ _ _ srcfd k1); [unfold sys; by rewrite Eo|].
  destruct (open_law _ _ _ _ Eo) as [Hf1 [[-> Hd1]|(Hs0 & Hs & Hd1 & _)]].
  { apply out_promise; [intros p _; by rewrite Hf1|done]. }
  rewrite (proj2 (Z.ltb_ge _ _)) by lia.
  assert (drop_fd (-1) (drop_fd srcfd (fds k1)) = fds k) as Hback.
  { unfold drop_fd. rewrite (proj2 (Z.eqb_neq srcfd (-1))) by lia. cbn. rewrite Hd1. by apply delete_insert_id. }
  assert (fds k1 !! srcfd = Some (path, false)) as Hl1 by (rewrite Hd1; apply lookup_insert_eq).
  destruct (mo_size srcfd k1) as [off k2] eqn:Es.
  eapply (returns_step _ _ _ off k2); [unfold sys; by rewrite Es|].
  destruct (size_law _ _ _ _ _ _ _ Es Hl1 ltac:(by rewrite Hf1)) as (Hf2 & Hd2 & [-> | ->]).
  { apply out_promise; [intros p _; congruence|by rewrite Hd2]. }
  rewrite (proj2 (Z.ltb_ge _ _)) by lia.
  destruct (mo_mmap srcfd (Z.of_nat (length src)) k2) as [addr k3] eqn:Em.
  eapply (returns_step _ _ _ addr k3); [unfold sys; by rewrite Em|].
  destruct (mmap_law _ _ _ _ _ _ _ Em ltac:(by rewrite Hd2) ltac:(by rewrite Hf2, Hf1)) as (Hf3 & Hd3 & [->|[n ->] ]).
  { apply out_promise; [intros p _; congruence|by rewrite Hd3, Hd2]. }
  eapply returns_step; [apply on_image_ret; by apply (detected src pre e)|]. cbv beta iota. cbn [negb].
  destruct (mo_open_tmp tmp k3) as [dstfd k4] eqn:Et.
  eapply (returns_step _ _ _ dstfd k4); [unfold sys; by rewrite Et|].
  destruct (open_tmp_law _ _ _ _ Et) as [(-> & Hf4 & Hd4)|(Hr0 & Hr & Hd4 & Hf4)].
  { apply out_promise; [intros p _; congruence|by rewrite Hd4, Hd3, Hd2]. }
  rewrite (proj2 (Z.ltb_ge _ _)) by lia.
  destruct (patched src pre e (replicate n 0) Hsrc Hcpu) as (magic & Eg & Hpatch).
  eapply returns_step; [apply on_image_ret; exact Eg|]. cbv beta iota.
  rewrite Hd3, Hd2, Hd1 in Hr, Hd4.
  destruct Hpatch as [[-> Ep]|(-> & -> & Ep)]; (eapply returns_step; [apply on_image_ret; exact Ep|]);
    apply (copy_ok tmp src pre e srcfd dstfd n k k4 Hsrc Hok Hl);
    solve [intros p Hpp; rewrite Hf4, lookup_insert_ne by done; congruence
      | rewrite Hd4; by apply reopened | rewrite Hd4; apply lookup_insert_eq | rewrite Hf4; apply lookup_insert_eq].
Qed.

(** C15. [binary_arm64e_to_arm64] on an arm64e executable, thin or the first
    arm64 slice of a fat file: when it returns 0 the temporary file is the
    executable from its mach header on with only the cpu subtype changed,
    and the executable does not use LC_DYLD_INFO; when it returns -1 no
    temporary file is left (if it may be removed).  It returns one of the
    two, closes what it opened and changes no other file. *)
Theorem arm64_copy_written (path tmp : cstr) src pre e (k : K) :
  arm64e_file src pre e -> e_cputype e = CPU_TYPE_ARM64 -> lcs_ok (e_cmds e) ->
  Z.of_nat (length src) < 2 ^ 63 -> files k !! path = Some src -> path <> tmp ->
  returns (binary_arm64e_to_arm64 path tmp) k (fun r k' =>
    fds k' = fds k /\ others_kept tmp k k' /\ (r = 0 \/ r = -1) /\
    (r = 0 -> files k' !! tmp = Some (exe_bytes (as_arm64 e)) /\ ~ uses_dyld_info e) /\
    (r <> 0 -> removable tmp -> files k' !! tmp = None)).
Proof. intros Hsrc Hcpu Hok Hl Hp Hne. exact (copy_written path tmp src pre e k Hsrc Hcpu Hok Hl Hp Hne). Qed.
End copy.

(** A file that is not an arm64e executable is refused with -2, no copy is
    opened, and yet the clean-up removes a file that was already at [tmp]. *)
Theorem refusal_removes_tmp {K : Type} `{MachoFs K files fds} (path tmp : cstr) e l (k : K) :
  e_cputype e = CPU_TYPE_ARM64 -> CPU_SUBTYPE_IS_ARM64E (e_cpusubtype e) = false ->
  files k !! path = Some (exe_bytes e) -> files k !! tmp = Some l -> removable tmp ->
  returns (binary_arm64e_to_arm64 path tmp) k (fun r k' =>
    (r = ARM64E_TO_ARM64_NOT_ARM64E \/ r = ARM64E_TO_ARM64_FAILURE) /\ files k' !! tmp = None /\ fds k' = fds k).
Proof.
  intros Hcpu Hsub Hp Ht Hrm. unfold binary_arm64e_to_arm64.
  assert (forall (k0 : K) src0 mapped ret, drop_fd src0 (fds k0) = fds k ->
    ret = ARM64E_TO_ARM64_NOT_ARM64E \/ ret = ARM64E_TO_ARM64_FAILURE ->
    returns (convert_out tmp src0 (-1) mapped ret) k0 (fun r k' =>
      (r = ARM64E_TO_ARM64_NOT_ARM64E \/ r = ARM64E_TO_ARM64_FAILURE) /\ files k' !! tmp = None /\ fds k' = fds k)) as Hout.
  { intros k0 src0 mapped ret Hd0 Hret. eapply returns_weaken; [apply convert_out_ok|].
    intros r k' (-> & Hd & _ & _ & Hr). split; [done|]. split; [|by rewrite Hd].
    apply Hr; [unfold ARM64E_TO_ARM64_NOT_ARM64E, ARM64E_TO_ARM64_FAILURE in Hret; lia|done]. }
  destruct (mo_open path k) as [srcfd k1] eqn:Eo.
  eapply (returns_step _ _ _ srcfd k1); [unfold sys; by rewrite Eo|].
  destruct (open_law _ _ _ _ Eo) as [Hf1 [[-> Hd1]|(Hs0 & Hs & Hd1 & _)]]; [by apply Hout; [|right]|].
  rewrite (proj2 (Z.ltb_ge _ _)) by lia.
  assert (drop_fd srcfd (fds k1) = fds k) as Hback.
  { unfold drop_fd. rewrite (proj2 (Z.eqb_neq srcfd (-1))) by lia. rewrite Hd1. by apply delete_insert_id. }
  assert (fds k1 !! srcfd = Some (path, false)) as Hl1 by (rewrite Hd1; apply lookup_insert_eq).
  destruct (mo_size srcfd k1) as [off k2] eqn:Es.
  eapply (returns_step _ _ _ off k2); [unfold sys; by rewrite Es|].
  destruct (size_law _ _ _ _ _ _ _ Es Hl1 ltac:(by rewrite Hf1)) as (Hf2 & Hd2 & [-> | ->]);
    [apply Hout; [by rewrite Hd2|by right]|].
  rewrite (proj2 (Z.ltb_ge _ _)) by lia.
  destruct (mo_mmap srcfd (Z.of_nat (length (exe_bytes e))) k2) as [addr k3] eqn:Em.
  eapply (returns_step _ _ _ addr k3); [unfold sys; by rewrite Em|].
  destruct (mmap_law _ _ _ _ _ _ _ Em ltac:(by rewrite Hd2) ltac:(by rewrite Hf2, Hf1)) as (Hf3 & Hd3 & [->|[n ->] ]);
    [apply Hout; [by rewrite Hd3, Hd2|by right]|].
  eapply returns_step; [apply on_image_ret|].
  - unfold binary_is_arm64e. pose proof (magic_eq [] (replicate n 0) e (exe_bytes e ++ replicate n 0) 0 eq_refl eq_refl) as Hmg.
    unfold mh_magic in Hmg. rewrite (bind_ret _ _ _ _ _ Hmg). change (HEADER_IS_MACHO MH_MAGIC_64) with true. cbv iota.
    rewrite (is_arm64e_eq [] (replicate n 0) e (exe_bytes e ++ replicate n 0) 0 eq_refl eq_refl Hcpu). by rewrite Hsub.
  - cbv beta iota. apply Hout; [by rewrite Hd3, Hd2|by left].
Qed.

(** ** A kernel *)

Record disk := Disk { d_files : gmap cstr (list Z); d_fds : gmap Z (cstr * bool) }.
Definition disk_open (p : cstr) (w : bool) (d : disk) : Z * disk :=
  let r := Z.of_nat (size (d_fds d)) in
  match d_fds d !! r with
  | Some _ => (-1, d)
  | None => (r, Disk (if w then <[p := []]> (d_files d) else d_files d) (<[r := (p, w)]> (d_fds d)))
  end.
Definition disk_file (fd : Z) (d : disk) : option (list Z) := '(p, _) ← d_fds d !! fd; d_files d !! p.

#[global] Instance disk_io : IoSys disk := {
  sys_write fd buf d :=
    match d_fds d !! fd with
    | Some (p, true) =>
      (Z.of_nat (length buf), Disk (<[p := default [] (d_files d !! p) ++ buf]> (d_files d)) (d_fds d))
    | _ => (-1, d)
    end;
  sys_read _ _ d := (None, d);
  read_waits _ _ _ := false
}.
#[global] Instance disk_sys : MachoSys disk := {
  mo_open p d := match d_files d !! p with Some _ => disk_open p false d | None => (-1, d) end;
  mo_size fd d := (match disk_file fd d with Some l => Z.of_nat (length l) | None => -1 end, d);
  mo_mmap fd _ d := (match disk_file fd d with Some l => Some (l ++ replicate 4 0) | None => None end, d);
  mo_open_tmp p d := disk_open p true d;
  mo_close fd d := Disk (d_files d) (delete fd (d_fds d));
  mo_munmap _ d := d;
  mo_access p d := (bool_decide (is_Some (d_files d !! p)), d);
  mo_unlink p d := (true, Disk (delete p (d_files d)) (d_fds d));
}.

#[global] Instance disk_laws : MachoFs disk d_files d_fds.
Proof.
  assert (forall fd p w l d, d_fds d !! fd = Some (p, w) -> d_files d !! p = Some l -> disk_file fd d = Some l) as Hfile.
  { intros fd p w l d Hd Hf. unfold disk_file. by rewrite Hd. }
  constructor.
  - intros p d r d'. cbn. unfold disk_open. destruct (d_files d !! p); [|naive_solver].
    destruct (d_fds d !! Z.of_nat _) eqn:E; intros [= <- <-]; [naive_solver|].
    split; [done|]. right. cbn. split_and!; [lia|done..|by eexists].
  - intros fd p w l d r d' [= <- <-] Hd Hf. rewrite (Hfile _ _ _ _ _ Hd Hf). auto.
  - intros fd p w l d r d' [= <- <-] Hd Hf. rewrite (Hfile _ _ _ _ _ Hd Hf). split_and!; [done..|].
    right. by exists 4%nat.
  - intros p d r d'. cbn. unfold disk_open. destruct (d_fds d !! Z.of_nat _) eqn:E; intros [= <- <-]; [by left|].
    right. cbn. split_and!; [lia|done..].
  - intros fd p buf d r d'. cbn. intros Hw Hd. rewrite Hd in Hw. injection Hw as <- <-. split; [done|]. right.
    cbn. split; [lia|]. rewrite Nat2Z.id, take_ge by lia. split; [|done]. destruct buf; [done|cbn; lia].
  - done.
  - done.
  - by intros p d r d' [= <- <-].
  - by intros p d r d' [= <- <-].
Qed.

(** An arm64e executable with two commands, alone and as the second slice of
    a fat file. *)
Definition small_exe : exe :=
  Exe CPU_TYPE_ARM64 0x80000002 2 1 [LCmd LC_SEGMENT_64 (replicate 8 7); LCmd 0x2a [1; 2; 3; 4]] [9; 9; 9].
Definition small_archs : list arch := [Arch 7 3 100 4 14; Arch CPU_TYPE_ARM64 2 52 67 14].
Definition small_fat : list Z := fat_bytes small_archs ++ replicate 4 0 ++ exe_bytes small_exe.
Definition small_disk : disk := Disk {[cs "/bin/a" := small_fat; cs "/bin/b" := exe_bytes small_exe]} ∅.

Lemma load_commands_found_witness :
  let m := [1; 2; 3] ++ exe_bytes small_exe ++ [5] in
  let lcs := placed (3 + 32) (e_cmds small_exe) in
  macho_find_load_command 3 0x2a m = Ret (fst <$> head (filter (fun x => c_cmd x.2 = 0x2a) lcs)) m /\
  macho_find_segment 3 3 0 m = Ret ((fst <$> filter (fun x => is_segment x.2 = true) lcs) !! Z.to_nat 0) m.
Proof.
  apply (load_commands_found [1; 2; 3] small_exe [5]).
  - split; [repeat (constructor; [split; vm_compute; congruence|]); constructor|reflexivity].
  - cbn. lia.
  - lia.
Defined.

Lemma arm64_copy_written_witness :
  returns (binary_arm64e_to_arm64 (cs "/bin/a") (cs "/tmp/a")) small_disk (fun r k' =>
    d_fds k' = d_fds small_disk /\ others_kept (files := d_files) (cs "/tmp/a") small_disk k' /\ (r = 0 \/ r = -1) /\
    (r = 0 -> d_files k' !! cs "/tmp/a" = Some (exe_bytes (as_arm64 small_exe)) /\ ~ uses_dyld_info small_exe) /\
    (r <> 0 -> removable (K := disk) (cs "/tmp/a") -> d_files k' !! cs "/tmp/a" = None)).
Proof.
  apply (arm64_copy_written (files := d_files) (fds := d_fds) (cs "/bin/a") (cs "/tmp/a") small_fat
    (fat_bytes small_archs ++ replicate 4 0) small_exe small_disk).
  - apply (fat_file small_archs (replicate 4 0) 1 (Arch CPU_TYPE_ARM64 2 52 67 14) small_exe); try reflexivity.
    repeat (constructor; [split_and!; (split; [by vm_compute|reflexivity])|]). constructor.
  - reflexivity.
  - split; [repeat (constructor; [split; vm_compute; congruence|]); constructor|reflexivity].
  - reflexivity.
  - reflexivity.
  - discriminate.
Defined.

(** The copy is made. *)
Example small_copied : exists k', binary_arm64e_to_arm64 (cs "/bin/a") (cs "/tmp/a") small_disk = Ret 0 k' /\
  d_files k' !! cs "/tmp/a" = Some (exe_bytes (as_arm64 small_exe)).
Proof. eexists. split; vm_compute; reflexivity. Qed.

Lemma refusal_removes_tmp_witness :
  let e := as_arm64 small_exe in
  let k := Disk {[cs "/bin/b" := exe_bytes e; cs "/tmp/a" := [1; 2]]} ∅ in
  returns (binary_arm64e_to_arm64 (cs "/bin/b") (cs "/tmp/a")) k (fun r k' =>
    (r = ARM64E_TO_ARM64_NOT_ARM64E \/ r = ARM64E_TO_ARM64_FAILURE) /\ d_files k' !! cs "/tmp/a" = None /\
    d_fds k' = d_fds k).
Proof.
  apply (refusal_removes_tmp (files := d_files) (fds := d_fds) (cs "/bin/b") (cs "/tmp/a") (as_arm64 small_exe) [1; 2]);
    first [reflexivity | by intros k].
Defined.
