(* ===== verification/Segpatch.v ===== *)
(** Adding a segment to an executable: [xnd/segpatch.c].

    The tool runs when xnd is built: it gives [xnd_restart_internal] a segment
    at a chosen address, and later changes its protections.  The options are
    the statics of the file, the executable is the mapped image. *)

From S2P Require Import Prelude Bytes Leb128 Cstr Io Mapping Macho.
From Stdlib Require Import Ascii.
Open Scope Z_scope.

Definition MH_EXECUTE : Z := 2.
Definition S_ZEROFILL : Z := 1.
Definition VM_PROT_READ : Z := 1.
Definition VM_PROT_WRITE : Z := 2.
Definition VM_PROT_EXECUTE : Z := 4.
Definition VM_PROT_ALL : Z := 7.
Definition sizeof_segment_command_64 : Z := 72.
Definition sizeof_section_64 : Z := 80.

Record opts := Opts {
  vmaddr : Z; vmsize : Z; initprot : Z; maxprot : Z;
  segname : option cstr; sectname : option cstr; filename : option cstr;
  verbose : bool; edit : bool; create : bool
}.
Definition initial_opts : opts := Opts 0 0 0 VM_PROT_ALL None None None false false true.

(** Writes to the statics *)
Definition set_vmaddr (a : Z) (o : opts) : opts :=
  Opts a (vmsize o) (initprot o) (maxprot o) (segname o) (sectname o) (filename o) (verbose o) (edit o) (create o).
Definition set_vmsize (n : Z) (o : opts) : opts :=
  Opts (vmaddr o) n (initprot o) (maxprot o) (segname o) (sectname o) (filename o) (verbose o) (edit o) (create o).
Definition set_prots (i m : Z) (o : opts) : opts :=
  Opts (vmaddr o) (vmsize o) i m (segname o) (sectname o) (filename o) (verbose o) (edit o) (create o).
Definition set_segname (s : cstr) (o : opts) : opts :=
  Opts (vmaddr o) (vmsize o) (initprot o) (maxprot o) (Some s) (sectname o) (filename o) (verbose o) (edit o) (create o).
Definition set_sectname (s : cstr) (o : opts) : opts :=
  Opts (vmaddr o) (vmsize o) (initprot o) (maxprot o) (segname o) (Some s) (filename o) (verbose o) (edit o) (create o).
Definition set_filename (s : cstr) (o : opts) : opts :=
  Opts (vmaddr o) (vmsize o) (initprot o) (maxprot o) (segname o) (sectname o) (Some s) (verbose o) (edit o) (create o).
Definition set_verbose (o : opts) : opts :=
  Opts (vmaddr o) (vmsize o) (initprot o) (maxprot o) (segname o) (sectname o) (filename o) true (edit o) (create o).
Definition set_mode (create_ : bool) (o : opts) : opts :=
  Opts (vmaddr o) (vmsize o) (initprot o) (maxprot o) (segname o) (sectname o) (filename o) (verbose o)
    (negb create_) create_.

(** ** Numbers and names *)

Definition base_digit (base : Z) (a : ascii) : option Z :=
  let n := Z.of_nat (nat_of_ascii a) in
  let d := if (48 <=? n) && (n <=? 57) then n - 48
           else if (97 <=? n) && (n <=? 122) then n - 87
           else if (65 <=? n) && (n <=? 90) then n - 55 else 36 in
  if d <? base then Some d else None.
Fixpoint base_digits (base : Z) (s : cstr) (acc : Z) : Z :=
  match s with
  | [] => acc
  | a :: s => match base_digit base a with Some d => base_digits base s (acc * base + d) | None => acc end
  end.
Definition is_0x (s : cstr) : bool := bool_decide (take 2 s = cs "0x").
(** [strtoull(s, NULL, base)]: the largest value on overflow, and a minus
    sign negates. *)
Definition strtoull (base : Z) (s : cstr) : Z :=
  let s := skip_space s in
  let '(neg, s) := match s with
                   | a :: s' => if Ascii.eqb a "-" then (true, s') else if Ascii.eqb a "+" then (false, s') else (false, s)
                   | [] => (false, [])
                   end in
  let s := if (base =? 16) && (is_0x s || bool_decide (take 2 s = cs "0X")) then drop 2 s else s in
  let v := base_digits base s 0 in
  if 2 ^ 64 <=? v then 2 ^ 64 - 1 else if (neg : bool) then u64 (- v) else v.

Definition number (s : cstr) : Z := if is_0x s then strtoull 16 s else strtoull 10 s.

(** The bytes of a string, and [strncpy] into 16 of them. *)
Definition str_bytes (s : cstr) : list Z := (fun a => Z.of_nat (nat_of_ascii a)) <$> s.
Definition name16 (s : cstr) : list Z := take 16 (str_bytes s ++ replicate 16 0).

(** [strncmp(a, b, n) == 0] for an array of [n] bytes and a string *)
Fixpoint strncmp_eq (a b : list Z) : bool :=
  match a, b with
  | x :: a, [] => x =? 0
  | x :: a, y :: b => (x =? y) && ((x =? 0) || strncmp_eq a b)
  | [], _ => true
  end.

Definition char_at (s : cstr) (i : nat) (c : ascii) (v : Z) : Z :=
  match s !! i with Some a => if Ascii.eqb a c then v else 0 | None => 0 end.

(** [set_seg_prot]: the new protections, or -1 *)
Definition set_seg_prot (prot : cstr) : option (Z * Z) :=
  if negb (strlen prot =? 7) || negb (bool_decide (prot !! 3%nat = Some slash)) then None else
  Some (Z.lor (Z.lor (char_at prot 0 "r" VM_PROT_READ) (char_at prot 1 "w" VM_PROT_WRITE)) (char_at prot 2 "x" VM_PROT_EXECUTE),
        Z.lor (Z.lor (char_at prot 4 "r" VM_PROT_READ) (char_at prot 5 "w" VM_PROT_WRITE)) (char_at prot 6 "x" VM_PROT_EXECUTE)).

(** ** Changing the image *)

(** [struct segment_command_64] and [struct section_64] as [segcreate]
    initialises them *)
Definition segment_bytes (o : opts) (name : cstr) : list Z :=
  words false [LC_SEGMENT_64; sizeof_segment_command_64 + sizeof_section_64] ++ name16 name ++
  le_bytes 8 (vmaddr o) ++ le_bytes 8 (vmsize o) ++ le_bytes 8 0 ++ le_bytes 8 0 ++
  le_bytes 4 (maxprot o) ++ le_bytes 4 (initprot o) ++ words false [1; 0].
Definition section_bytes (o : opts) (name sect : cstr) : list Z :=
  name16 sect ++ name16 name ++ le_bytes 8 (vmaddr o) ++ le_bytes 8 (vmsize o) ++
  words false [0; 14; 0; 0; S_ZEROFILL; 0; 0; 0].

Definition segcreate (o : opts) : M image Z :=
  magic ← mh_magic 0;
  filetype ← mh_filetype 0;
  if negb (magic =? MH_MAGIC_64) || negb (filetype =? MH_EXECUTE) then mret (-1) else
  name ← deref (segname o);
  sect ← deref (sectname o);
  sizeofcmds ← mh_sizeofcmds 0;
  let p := sizeof_mach_header_64 + sizeofcmds in
  poke p (segment_bytes o name);;
  poke (p + sizeof_segment_command_64) (section_bytes o name sect);;
  ncmds ← mh_ncmds 0;
  poke32 16 (u32 (ncmds + 1));;
  sizeofcmds ← mh_sizeofcmds 0;
  poke32 20 (u32 (sizeofcmds + (sizeof_segment_command_64 + sizeof_section_64)));;
  mret 0.

(** The search of [segedit]: fuel counts the commands visited. *)
Fixpoint segedit_loop (fuel : nat) (name : list Z) (offset : Z) : M image (option Z) :=
  match fuel with
  | O => nofuel
  | S fuel =>
    sizeofcmds ← mh_sizeofcmds 0;
    if offset <? sizeofcmds then
      let lc := sizeof_mach_header_64 + offset in
      cmdsize ← lc_cmdsize lc;
      c ← lc_cmd lc;
      if negb (c =? LC_SEGMENT_64) then segedit_loop fuel name (u64 (offset + cmdsize)) else
      found ← peek (lc + 8) 16;
      if strncmp_eq found name then mret (Some lc) else segedit_loop fuel name (u64 (offset + cmdsize))
    else mret None
  end.

Definition segedit (fuel : nat) (o : opts) : M image Z :=
  name ← deref (segname o);
  found ← segedit_loop fuel (str_bytes name) 0;
  match found with
  | None => mret (-1)
  | Some seg =>
    let sect := seg + sizeof_segment_command_64 in
    poke64 (seg + 24) (vmaddr o);;
    poke64 (seg + 32) (vmsize o);;
    poke32 (seg + 56) (maxprot o);;
    poke32 (seg + 60) (initprot o);;
    poke64 (sect + 32) (vmaddr o);;
    poke64 (sect + 40) (vmsize o);;
    mret 0
  end.

(** ** The program *)

Class SegSys (K : Type) := {
  (** [access(file, X_OK) == 0], [open(file, O_RDWR)], [fstat] ([None]: it failed) *)
  sp_access : cstr -> K -> bool * K;
  sp_open : cstr -> K -> Z * K;
  sp_fstat : Z -> K -> option Z * K;
  (** the shared mapping of the file, and the file once [msync] and [munmap]
      have been called *)
  sp_mmap : Z -> Z -> K -> option image * K;
  sp_unmap : Z -> image -> K -> K;
  sp_close : Z -> K -> K;
}.

Section main.
Context {K : Type} `{SegSys K}.

Definition is_arg (arg : cstr) (short long : string) : bool :=
  bool_decide (arg = cs short) || bool_decide (arg = cs long).

(** [strstr(arg, pat) != NULL] *)
Fixpoint strstr (arg pat : cstr) : bool :=
  bool_decide (take (length pat) arg = pat) ||
  match arg with [] => false | _ :: arg => strstr arg pat end.

(** The do-while over the arguments that are left.  An option whose operand
    is missing reads [argv] beyond its NULL: to test the operand, or, the
    counter being -1, for the next option. *)
Fixpoint parse_args (args : list cstr) (o : opts) : M K opts :=
  match args with
  | [] => mret o
  | arg :: rest =>
    if is_arg arg "-h" "--help" then exit_with 0
    else if is_arg arg "-c" "--create" then parse_args rest (set_mode true o)
    else if is_arg arg "-e" "--edit" then parse_args rest (set_mode false o)
    else if is_arg arg "-v" "--verbose" then parse_args rest (set_verbose o)
    else if bool_decide (arg = cs "--prot") then
      match rest with
      | [] => ub
      | v :: rest => match set_seg_prot v with
                     | None => exit_with (-1)
                     | Some (i, m) => parse_args rest (set_prots i m o)
                     end
      end
    else if bool_decide (arg = cs "--vmaddr") then
      match rest with [] => ub | v :: rest => parse_args rest (set_vmaddr (number v) o) end
    else if bool_decide (arg = cs "--vmsize") then
      match rest with [] => ub | v :: rest => parse_args rest (set_vmsize (number v) o) end
    else if bool_decide (arg = cs "--segname") then
      match rest with [] => ub | v :: rest => parse_args rest (set_segname v o) end
    else if bool_decide (arg = cs "--sectname") then
      match rest with [] => ub | v :: rest => parse_args rest (set_sectname v o) end
    else if strstr arg (cs "xnd_restart_internal") then
      ok ← (fun k => let '(ok, k) := sp_access arg k in Ret ok k);
      if (ok : bool) then parse_args rest (set_filename arg o) else exit_with (-1)
    else exit_with (-1)
  end.

Definition main (fuel : nat) (args : list cstr) : M K unit :=
  if bool_decide (args = []) then exit_with (-1) else
  o ← parse_args args initial_opts;
  if vmaddr o =? 0 then exit_with (-1)
  else if vmsize o =? 0 then exit_with (-1)
  else match segname o, sectname o, filename o with
  | Some _, Some _, Some file =>
    fd ← sys (sp_open file);
    if fd <? 0 then exit_with (-1) else
    st_size ← sys (sp_fstat fd);
    match st_size with
    | None => modify (sp_close fd);; exit_with (-1)
    | Some size =>
      image ← sys (sp_mmap fd size);
      match image with
      | None => modify (sp_close fd);; exit_with (-1)
      | Some m =>
        '(ret, m) ← on_image (if create o then segcreate o else segedit fuel o) m;
        if ret <? 0 then modify (sp_close fd);; modify (sp_unmap fd m);; exit_with (-1)
        else modify (sp_unmap fd m);; modify (sp_close fd);; exit_with 0
      end
    end
  | _, _, _ => exit_with (-1)
  end.
End main.
