(* ===== verification/SegpatchProps.v ===== *)
(** Creating and editing a segment: theorems of [Segpatch]. *)

From S2P Require Import Prelude Bytes Leb128 Cstr Io Mapping Macho Segpatch.
From Stdlib Require Import Ascii.
Open Scope Z_scope.

(** ** Segments with a section *)

(** A segment command by its fields; those the tool never writes are runs of
    bytes. *)
Record seg := Seg {
  s_name : list Z; s_vmaddr : Z; s_vmsize : Z; s_file : list Z; s_maxprot : Z; s_initprot : Z; s_nsects : list Z;
  s_sectnames : list Z; s_addr : Z; s_size : Z; s_tail : list Z
}.
Definition seg_ok (s : seg) : Prop :=
  length (s_name s) = 16%nat /\ length (s_file s) = 16%nat /\ length (s_nsects s) = 8%nat /\ length (s_sectnames s) = 32%nat.
Definition seg_body (s : seg) : list Z :=
  s_name s ++ le_bytes 8 (s_vmaddr s) ++ le_bytes 8 (s_vmsize s) ++ s_file s ++
  le_bytes 4 (s_maxprot s) ++ le_bytes 4 (s_initprot s) ++ s_nsects s ++
  s_sectnames s ++ le_bytes 8 (s_addr s) ++ le_bytes 8 (s_size s) ++ s_tail s.
Definition seg_cmd (s : seg) : lcmd := LCmd LC_SEGMENT_64 (seg_body s).

(** The segment [segcreate] adds, and what [segedit] makes of one. *)
Definition new_seg (o : opts) (name sect : cstr) : seg :=
  Seg (name16 name) (vmaddr o) (vmsize o) (le_bytes 8 0 ++ le_bytes 8 0) (maxprot o) (initprot o) (words false [1; 0])
      (name16 sect ++ name16 name) (vmaddr o) (vmsize o) (words false [0; 14; 0; 0; S_ZEROFILL; 0; 0; 0]).
Definition edit_seg (o : opts) (s : seg) : seg :=
  Seg (s_name s) (vmaddr o) (vmsize o) (s_file s) (maxprot o) (initprot o) (s_nsects s)
      (s_sectnames s) (vmaddr o) (vmsize o) (s_tail s).

Definition with_cmds (cs : list lcmd) (rest : list Z) (e : exe) : exe :=
  Exe (e_cputype e) (e_cpusubtype e) (e_filetype e) (e_flags e) cs rest.

(** The command [segedit] takes for the one it looks for. *)
Definition named (name : cstr) (c : lcmd) : bool :=
  (c_cmd c =? LC_SEGMENT_64) && strncmp_eq (take 16 (c_body c)) (str_bytes name).
(** Segment commands are long enough for their name. *)
Definition segs_ok (cs : list lcmd) : Prop :=
  Forall (fun c => c_cmd c = LC_SEGMENT_64 -> (16 <= length (c_body c))%nat) cs.

Lemma name16_length s : length (name16 s) = 16%nat.
Proof. unfold name16. rewrite length_take, length_app, length_replicate. lia. Qed.

Lemma new_seg_ok o name sect : seg_ok (new_seg o name sect).
Proof. unfold seg_ok. cbn [new_seg s_name s_file s_nsects s_sectnames]. by rewrite !length_app, !name16_length. Qed.

Lemma edit_seg_ok o s : seg_ok s -> seg_ok (edit_seg o s).
Proof. done. Qed.

Lemma seg_body_length s : seg_ok s -> Z.of_nat (length (seg_body s)) = 112 + Z.of_nat (length (s_tail s)).
Proof.
  intros (H1 & H2 & H3 & H4). unfold seg_body. rewrite !length_app, !le_bytes_length. lia.
Qed.

Lemma new_seg_size o name sect : lc_size (seg_cmd (new_seg o name sect)) = 152.
Proof.
  unfold lc_size. cbn [c_body seg_cmd]. rewrite seg_body_length by apply new_seg_ok. done.
Qed.

Lemma new_seg_bytes o name sect :
  lc_bytes (seg_cmd (new_seg o name sect)) = segment_bytes o name ++ section_bytes o name sect.
Proof.
  unfold lc_bytes. rewrite new_seg_size. unfold segment_bytes, section_bytes.
  cbn [seg_cmd c_cmd c_body]. unfold seg_body. cbn [new_seg s_name s_vmaddr s_vmsize s_file s_maxprot s_initprot s_nsects
    s_sectnames s_addr s_size s_tail]. by rewrite <- !app_assoc.
Qed.

Lemma segment_bytes_length o name : length (segment_bytes o name) = 72%nat.
Proof. unfold segment_bytes. rewrite !length_app, !le_bytes_length, !words_length, name16_length. done. Qed.
Lemma section_bytes_length o name sect : length (section_bytes o name sect) = 80%nat.
Proof. unfold section_bytes. rewrite !length_app, !le_bytes_length, !words_length, !name16_length. done. Qed.

Lemma name_matches name : strncmp_eq (name16 name) (str_bytes name) = true.
Proof.
  unfold name16. generalize (str_bytes name) as b, 16%nat at 1 as n. induction b as [|x b IH].
  - intros n. change ([] ++ replicate 16 0) with (replicate 16 0).
    destruct n as [|n]; [done|]. done.
  - intros [|n]; [done|]. cbn [app take strncmp_eq]. by rewrite Z.eqb_refl, IH, orb_true_r.
Qed.

(** ** Creating *)

(** The last statements of [segcreate], on the fields of the header. *)
Lemma counts_eq e post : Z.of_nat (length (e_cmds e)) + 1 < 2 ^ 32 -> lcs_size (e_cmds e) + 152 < 2 ^ 32 ->
  (ncmds ← mh_ncmds 0;
   poke32 16 (u32 (ncmds + 1));;
   sizeofcmds ← mh_sizeofcmds 0;
   poke32 20 (u32 (sizeofcmds + (72 + 80)));;
   mret 0) (words false (header e) ++ post)
  = Ret 0 (words false (<[5%nat := lcs_size (e_cmds e) + 152]> (<[4%nat := Z.of_nat (length (e_cmds e)) + 1]> (header e))) ++ post).
Proof.
  intros Hn Hl. pose proof (lcs_size_count (e_cmds e)) as Hc.
  unfold mh_ncmds. erewrite bind_ret by (eapply (peek32_word [] (header e) _ 4); done).
  rewrite (wrapu_small 32 (Z.of_nat _)) by (unfold in_u; lia). rewrite (wrapu_small 32 (_ + 1)) by (unfold in_u; lia).
  erewrite bind_ret by (eapply (poke32_word [] (header e) _ 4); done).
  unfold mh_sizeofcmds. erewrite bind_ret by (eapply (peek32_word [] (<[4%nat := _]> (header e)) _ 5); done).
  rewrite (wrapu_small 32 (lcs_size _)) by (unfold in_u; lia). rewrite (wrapu_small 32 (_ + (72 + 80))) by (unfold in_u; lia).
  by erewrite bind_ret by (eapply (poke32_word [] (<[4%nat := _]> (header e)) _ 5); done).
Qed.

Section create.
Context (o : opts) (name sect : cstr) (e : exe).
Context (Hname : segname o = Some name) (Hsect : sectname o = Some sect) (Hft : e_filetype e = MH_EXECUTE).
Context (Hok : lcs_ok (e_cmds e ++ [seg_cmd (new_seg o name sect)])) (Hroom : (152 <= length (e_rest e))%nat).

Lemma segcreate_eq : segcreate o (exe_bytes e)
  = Ret 0 (exe_bytes (with_cmds (e_cmds e ++ [seg_cmd (new_seg o name sect)]) (drop 152 (e_rest e)) e)).
Proof using All.
  pose proof (proj2 Hok) as Hl. rewrite lcs_size_app, lcs_size_cons, new_seg_size in Hl.
  change (lcs_size []) with 0 in Hl. pose proof (lcs_size_count (e_cmds e)) as Hc.
  assert (exe_bytes e = [] ++ exe_bytes e ++ []) as Hm by (cbn; by rewrite app_nil_r).
  unfold segcreate. rewrite (bind_ret _ _ _ _ _ (magic_eq [] [] e _ 0 Hm eq_refl)).
  unfold mh_filetype. erewrite bind_ret by (eapply (header_field [] [] e _ 0 Hm eq_refl 3); [done|lia]).
  rewrite Hft. change (negb (MH_MAGIC_64 =? MH_MAGIC_64) || negb (u32 MH_EXECUTE =? MH_EXECUTE)) with false. cbv iota.
  rewrite Hname, Hsect. cbn [deref]. rewrite (bind_ret _ _ _ name (exe_bytes e) eq_refl), (bind_ret _ _ _ sect (exe_bytes e) eq_refl).
  unfold mh_sizeofcmds at 1. erewrite bind_ret by (eapply (header_field [] [] e _ 0 Hm eq_refl 5); [done|lia]).
  rewrite wrapu_small by (unfold in_u; lia). unfold sizeof_mach_header_64, sizeof_segment_command_64, sizeof_section_64.
  set (W := words false (header e)). set (C := lcs_bytes (e_cmds e)).
  assert (exists r1 r2 r3, e_rest e = r1 ++ r2 ++ r3 /\ length r1 = 72%nat /\ length r2 = 80%nat /\ r3 = drop 152 (e_rest e))
    as (r1 & r2 & r3 & Hr & L1 & L2 & L3).
  { exists (take 72 (e_rest e)), (take 80 (drop 72 (e_rest e))), (drop 152 (e_rest e)).
    rewrite (length_take (e_rest e)), length_take, length_drop. split_and!; [|lia..|done].
    change 152%nat with (72 + 80)%nat. rewrite <- drop_drop, take_drop. by rewrite take_drop. }
  assert (length W = 32%nat) as LW by (unfold W; by rewrite words_length).
  assert (Z.of_nat (length C) = lcs_size (e_cmds e)) as LC by done.
  erewrite bind_ret by (apply (poke_at (W ++ C) r1 (segment_bytes o name) (r2 ++ r3));
    [unfold exe_bytes; by rewrite Hr, <- app_assoc|rewrite length_app; lia|by rewrite segment_bytes_length]).
  erewrite bind_ret by (apply (poke_at (W ++ C ++ segment_bytes o name) r2 (section_bytes o name sect) r3);
    [by rewrite <- !app_assoc|rewrite !length_app, segment_bytes_length; lia|by rewrite section_bytes_length]).
  subst W. rewrite <- !app_assoc, (counts_eq e) by lia. f_equal.
  unfold exe_bytes. cbn [with_cmds e_cmds e_rest].
  rewrite L3. unfold lcs_bytes. rewrite fmap_app, concat_app. cbn [fmap list_fmap concat]. rewrite new_seg_bytes, app_nil_r.
  rewrite <- !app_assoc. cbn [app]. f_equal. unfold header. cbn [with_cmds e_cputype e_cpusubtype e_filetype e_flags e_cmds].
  rewrite length_app, lcs_size_app, lcs_size_cons, new_seg_size. change (lcs_size []) with 0. cbn [length].
  cbn [insert list_insert]. do 2 f_equal; repeat f_equal; lia.
Qed.
End create.

(** ** Editing *)

Lemma placed_app at_ cs ds : placed at_ (cs ++ ds) = placed at_ cs ++ placed (at_ + lcs_size cs) ds.
Proof.
  revert at_. induction cs as [|c cs IH]; intros at_; cbn [app placed]; [by rewrite Z.add_0_r|].
  rewrite IH, lcs_size_cons. by rewrite Z.add_assoc.
Qed.

Lemma filter_unnamed name at_ cs : Forall (fun c => named name c = false) cs ->
  filter (fun x => named name x.2 = true) (placed at_ cs) = [].
Proof.
  intros Hc. revert at_. induction Hc as [|c cs Hc _ IH]; intros at_; [done|]. cbn [placed].
  rewrite filter_cons. cbn [snd]. rewrite decide_False by congruence. apply IH.
Qed.

Section edit_loop.
Context (e : exe) (name : cstr).
Context (Hok : lcs_ok (e_cmds e)) (Hsegs : segs_ok (e_cmds e)).

Lemma name_at pre c cs post m : m = pre ++ lcs_bytes (c :: cs) ++ post -> (16 <= length (c_body c))%nat ->
  peek (Z.of_nat (length pre) + 8) 16 m = Ret (take 16 (c_body c)) m.
Proof using.
  intros Hm Hl. change (lcs_bytes (c :: cs)) with (lc_bytes c ++ lcs_bytes cs) in Hm. unfold lc_bytes in Hm.
  rewrite <- (take_drop 16 (c_body c)) in Hm.
  eapply (peek_at (pre ++ words false [c_cmd c; lc_size c]) _ (drop 16 (c_body c) ++ lcs_bytes cs ++ post)).
  - rewrite Hm. by rewrite <- !app_assoc.
  - rewrite length_app, words_length. cbn [length]. lia.
  - rewrite length_take. lia.
Qed.

Lemma segedit_loop_eq cs : forall fuel done_ offset,
  e_cmds e = done_ ++ cs -> offset = lcs_size done_ -> (length cs < fuel)%nat ->
  segedit_loop fuel (str_bytes name) offset (exe_bytes e)
    = Ret (fst <$> head (filter (fun x => named name x.2 = true) (placed (32 + offset) cs))) (exe_bytes e).
Proof using All.
  assert (exe_bytes e = [] ++ exe_bytes e ++ []) as Hm by (cbn; by rewrite app_nil_r).
  induction cs as [|c cs IH]; intros [|fuel] done_ offset He Ho Hf; cbn [length] in *; try lia;
    pose proof (proj2 Hok) as Hl; pose proof (lcs_size_count done_) as Hd;
    rewrite He, lcs_size_app in Hl; cbn [segedit_loop placed];
    unfold mh_sizeofcmds; (erewrite bind_ret by (eapply (header_field [] [] e _ 0 Hm eq_refl 5); [done|lia]));
    rewrite He, lcs_size_app.
  - change (lcs_size []) with 0 in *. rewrite wrapu_small by (unfold in_u; lia).
    rewrite (proj2 (Z.ltb_ge _ _)) by lia. done.
  - pose proof (lc_size_pos c). pose proof (lcs_size_count cs).
    rewrite lcs_size_cons in Hl |- *. rewrite wrapu_small by (unfold in_u; lia).
    rewrite (proj2 (Z.ltb_lt _ _)) by lia.
    assert (exe_bytes e = (words false (header e) ++ lcs_bytes done_) ++ lcs_bytes (c :: cs) ++ e_rest e) as Hm'.
    { unfold exe_bytes. rewrite He. unfold lcs_bytes at 1. rewrite fmap_app, concat_app. by rewrite <- !app_assoc. }
    assert (32 + offset = Z.of_nat (length (words false (header e) ++ lcs_bytes done_))) as Ha.
    { rewrite !length_app, words_length. cbn [header length]. subst offset. unfold lcs_size. lia. }
    destruct (command_fields _ c cs _ _ (32 + offset) Hm' Ha) as [Hc Hs].
    { destruct Hok as [Hc Hk]. rewrite He in Hc. apply Forall_app in Hc as [_ Hc]. split; [done|].
      rewrite lcs_size_cons. lia. }
    unfold sizeof_mach_header_64. rewrite (bind_ret _ _ _ _ _ Hs), (bind_ret _ _ _ _ _ Hc).
    rewrite (wrapu_small 64) by (unfold in_u; lia).
    assert (segedit_loop fuel (str_bytes name) (offset + lc_size c) (exe_bytes e) =
      Ret (fst <$> head (filter (fun x => named name x.2 = true) (placed (32 + offset + lc_size c) cs))) (exe_bytes e)) as IH'.
    { rewrite <- Z.add_assoc. apply (IH fuel (done_ ++ [c])); [by rewrite He, <- app_assoc| |lia].
      rewrite lcs_size_app, lcs_size_cons. change (lcs_size []) with 0. lia. }
    assert (named name c = (c_cmd c =? LC_SEGMENT_64) && strncmp_eq (take 16 (c_body c)) (str_bytes name)) as Hnm by done.
    rewrite filter_cons. cbn [snd].
    destruct (Z.eqb_spec (c_cmd c) LC_SEGMENT_64) as [Ec|Ec]; cbn [negb andb] in *;
      [|rewrite decide_False by congruence; apply IH'].
    assert (16 <= length (c_body c))%nat as Hlen.
    { unfold segs_ok in Hsegs. rewrite He, Forall_app, Forall_cons in Hsegs. by apply Hsegs. }
    rewrite Ha at 1. rewrite (bind_ret _ _ _ _ _ (name_at _ c cs _ _ Hm' Hlen)). rewrite <- Hnm.
    destruct (named name c) eqn:En; [by rewrite decide_True|]. rewrite decide_False by congruence. apply IH'.
Qed.
End edit_loop.

(** One store, at the end of [a]. *)
Ltac next L a := erewrite bind_ret by (eapply (L a);
  [rewrite <- ?app_assoc; reflexivity | rewrite ?length_app, ?le_bytes_length; lia]); rewrite <- ?app_assoc.

(** The stores of [segedit], wherever the segment is. *)
Lemma edit_stores o s pre post : seg_ok s ->
  (let seg := Z.of_nat (length pre) in
   let sect := seg + sizeof_segment_command_64 in
   poke64 (seg + 24) (vmaddr o);;
   poke64 (seg + 32) (vmsize o);;
   poke32 (seg + 56) (maxprot o);;
   poke32 (seg + 60) (initprot o);;
   poke64 (sect + 32) (vmaddr o);;
   poke64 (sect + 40) (vmsize o);;
   mret 0) (pre ++ lc_bytes (seg_cmd s) ++ post) = Ret 0 (pre ++ lc_bytes (seg_cmd (edit_seg o s)) ++ post).
Proof.
  intros Hs. pose proof Hs as (L1 & L2 & L3 & L4).
  assert (lc_size (seg_cmd (edit_seg o s)) = lc_size (seg_cmd s)) as Hsz
    by (unfold lc_size; cbn [c_body seg_cmd]; by rewrite !seg_body_length).
  unfold lc_bytes. rewrite Hsz. cbn [seg_cmd c_cmd c_body]. unfold seg_body at 1. unfold sizeof_segment_command_64.
  set (w := words false [_; _]). assert (length w = 8%nat) as Lw by (unfold w; by rewrite words_length).
  rewrite <- !app_assoc.
  next poke64_at (pre ++ w ++ s_name s).
  next poke64_at (pre ++ w ++ s_name s ++ le_bytes 8 (vmaddr o)).
  next poke32_at (pre ++ w ++ s_name s ++ le_bytes 8 (vmaddr o) ++ le_bytes 8 (vmsize o) ++ s_file s).
  next poke32_at (pre ++ w ++ s_name s ++ le_bytes 8 (vmaddr o) ++ le_bytes 8 (vmsize o) ++ s_file s ++ le_bytes 4 (maxprot o)).
  next poke64_at (pre ++ w ++ s_name s ++ le_bytes 8 (vmaddr o) ++ le_bytes 8 (vmsize o) ++ s_file s ++
    le_bytes 4 (maxprot o) ++ le_bytes 4 (initprot o) ++ s_nsects s ++ s_sectnames s).
  next poke64_at (pre ++ w ++ s_name s ++ le_bytes 8 (vmaddr o) ++ le_bytes 8 (vmsize o) ++ s_file s ++
    le_bytes 4 (maxprot o) ++ le_bytes 4 (initprot o) ++ s_nsects s ++ s_sectnames s ++ le_bytes 8 (vmaddr o)).
  unfold mret, M_ret. f_equal. unfold seg_body. by rewrite <- !app_assoc.
Qed.

Lemma segedit_eq fuel o name e cs1 s cs2 :
  segname o = Some name -> e_cmds e = cs1 ++ seg_cmd s :: cs2 -> seg_ok s -> lcs_ok (e_cmds e) -> segs_ok (e_cmds e) ->
  Forall (fun c => named name c = false) cs1 -> named name (seg_cmd s) = true -> (length (e_cmds e) < fuel)%nat ->
  segedit fuel o (exe_bytes e) = Ret 0 (exe_bytes (with_cmds (cs1 ++ seg_cmd (edit_seg o s) :: cs2) (e_rest e) e)).
Proof.
  intros Hn He Hs Hok Hsegs Hcs1 Hnm Hf. unfold segedit. rewrite Hn. cbn [deref].
  rewrite (bind_ret _ _ _ name (exe_bytes e) eq_refl).
  rewrite (bind_ret _ _ _ _ _ (segedit_loop_eq e name Hok Hsegs (e_cmds e) fuel [] 0 eq_refl eq_refl Hf)).
  rewrite He, placed_app, filter_app, (filter_unnamed name _ cs1 Hcs1). cbn [app placed].
  rewrite filter_cons. cbn [snd]. rewrite decide_True by done. cbn [head fmap option_fmap option_map fst].
  assert (lc_size (seg_cmd (edit_seg o s)) = lc_size (seg_cmd s)) as Hsz
    by (unfold lc_size; cbn [c_body seg_cmd]; by rewrite !seg_body_length).
  assert (forall s', exe_bytes (with_cmds (cs1 ++ seg_cmd s' :: cs2) (e_rest e) e)
    = words false (header (with_cmds (cs1 ++ seg_cmd s' :: cs2) (e_rest e) e)) ++ lcs_bytes cs1 ++ lc_bytes (seg_cmd s') ++
      lcs_bytes cs2 ++ e_rest e) as Hsplit.
  { intros s'. unfold exe_bytes. cbn [with_cmds e_cmds e_rest]. unfold lcs_bytes. rewrite fmap_app, concat_app.
    cbn [fmap list_fmap concat]. by rewrite <- !app_assoc. }
  replace (exe_bytes e) with (exe_bytes (with_cmds (cs1 ++ seg_cmd s :: cs2) (e_rest e) e))
    by (rewrite <- He; by destruct e).
  rewrite !Hsplit.
  assert (header (with_cmds (cs1 ++ seg_cmd (edit_seg o s) :: cs2) (e_rest e) e) =
    header (with_cmds (cs1 ++ seg_cmd s :: cs2) (e_rest e) e)) as ->.
  { unfold header. cbn [with_cmds e_cmds e_cputype e_cpusubtype e_filetype e_flags].
    by rewrite !lcs_size_app, !lcs_size_cons, Hsz, !length_app. }
  set (W := words false _). rewrite (app_assoc W), (app_assoc W).
  replace (32 + 0 + lcs_size cs1) with (Z.of_nat (length (W ++ lcs_bytes cs1)))
    by (rewrite length_app; unfold W; rewrite words_length; cbn [header length]; unfold lcs_size; lia).
  by apply (edit_stores o s (W ++ lcs_bytes cs1) (lcs_bytes cs2 ++ e_rest e)).
Qed.

(** Creating a segment appends one command, over the first 152 bytes that
    follow the commands whatever they hold, and editing it afterwards gives
    the image that creating it with the new address, size and protections
    would have given: an executable built once can be edited for ever. *)
Theorem edit_after_create fuel o1 o2 name sect e :
  segname o1 = Some name -> sectname o1 = Some sect -> segname o2 = Some name -> sectname o2 = Some sect ->
  e_filetype e = MH_EXECUTE -> lcs_ok (e_cmds e ++ [seg_cmd (new_seg o1 name sect)]) -> segs_ok (e_cmds e) ->
  Forall (fun c => named name c = false) (e_cmds e) -> (152 <= length (e_rest e))%nat ->
  (S (length (e_cmds e)) < fuel)%nat ->
  exists m1, segcreate o1 (exe_bytes e) = Ret 0 m1 /\ segedit fuel o2 m1 = segcreate o2 (exe_bytes e) /\
    segcreate o2 (exe_bytes e)
      = Ret 0 (exe_bytes (with_cmds (e_cmds e ++ [seg_cmd (new_seg o2 name sect)]) (drop 152 (e_rest e)) e)).
Proof.
  intros Hn1 Hs1 Hn2 Hs2 Hft Hok Hsegs Hun Hroom Hf.
  assert (lcs_ok (e_cmds e ++ [seg_cmd (new_seg o2 name sect)])) as Hok2.
  { destruct Hok as [Hc Hl]. rewrite lcs_size_app, lcs_size_cons, new_seg_size in Hl.
    split; [|by rewrite lcs_size_app, lcs_size_cons, new_seg_size].
    rewrite Forall_app in Hc |- *. split; [apply Hc|]. by constructor. }
  pose proof (segcreate_eq o2 name sect e Hn2 Hs2 Hft Hok2 Hroom) as E2.
  eexists. split; [by apply segcreate_eq|]. split; [|done]. rewrite E2.
  rewrite (segedit_eq fuel o2 name _ (e_cmds e) (new_seg o1 name sect) []); try done.
  - apply new_seg_ok.
  - cbn [with_cmds e_cmds]. apply Forall_app. split; [done|]. constructor; [|done]. intros _.
    apply Nat2Z.inj_le. cbn [seg_cmd c_body]. rewrite seg_body_length by apply new_seg_ok. lia.
  - unfold named. cbn [seg_cmd c_cmd c_body]. rewrite Z.eqb_refl. cbn [andb]. unfold seg_body. cbn [new_seg s_name].
    rewrite take_app_le by (by rewrite name16_length). rewrite take_ge by (by rewrite name16_length). apply name_matches.
  - cbn [with_cmds e_cmds]. rewrite length_app. cbn [length]. lia.
Qed.

(** A load command of size 0 before the segment looked for is visited
    forever, by [segedit] and by [macho_find_segment]. *)
Lemma empty_command_hangs name m c sizeofcmds offset : 
  mh_sizeofcmds 0 m = Ret sizeofcmds m -> 0 <= offset < sizeofcmds -> sizeofcmds < 2 ^ 32 ->
  lc_cmd (32 + offset) m = Ret c m -> lc_cmdsize (32 + offset) m = Ret 0 m ->
  is_segment (LCmd c []) = false ->
  forall fuel, segedit_loop fuel name offset m = NoFuel /\
    forall idx i, find_segment_loop fuel 0 32 offset idx i m = NoFuel.
Proof.
  unfold is_segment. cbn [c_cmd]. intros Hs Ho Hr Hc Hz Hn.
  assert (u64 (offset + 0) = offset) as Hu by (rewrite Z.add_0_r; apply wrapu_small; unfold in_u; lia).
  assert ((c =? LC_SEGMENT_64) = false) as Hn' by (by apply orb_false_iff in Hn as [_ Hn]).
  induction fuel as [|fuel [IH1 IH2]]; [done|]. split; [|intros idx i].
  - cbn [segedit_loop]. rewrite (bind_ret _ _ _ _ _ Hs), (proj2 (Z.ltb_lt _ _)) by lia.
    unfold sizeof_mach_header_64. rewrite (bind_ret _ _ _ _ _ Hz), (bind_ret _ _ _ _ _ Hc).
    rewrite Hn', Hu. apply IH1.
  - cbn [find_segment_loop]. rewrite (bind_ret _ _ _ _ _ Hs), (proj2 (Z.ltb_lt _ _)) by lia.
    rewrite (bind_ret _ _ _ _ _ Hz), (bind_ret _ _ _ _ _ Hc). rewrite Hn, Hu. apply IH2.
Qed.

(** An option whose operand is missing reads beyond the arguments. *)
Lemma missing_operand {K : Type} `{SegSys K} arg o (k : K) :
  arg ∈ [cs "--prot"; cs "--vmaddr"; cs "--vmsize"; cs "--segname"; cs "--sectname"] ->
  parse_args [arg] o k = Ub.
Proof. intros Hin. repeat (apply elem_of_cons in Hin as [->|Hin]; [done|]). by apply not_elem_of_nil in Hin. Qed.

(** ** An executable *)

Definition tool_opts (addr prot : Z) : opts :=
  Opts addr 0x4000 prot VM_PROT_ALL (Some (cs "__XND")) (Some (cs "__xnd")) (Some (cs "xnd_restart_internal")) false false true.
Definition tool_exe : exe :=
  Exe CPU_TYPE_ARM64 0 MH_EXECUTE 0 [LCmd LC_SEGMENT_64 (replicate 64 1); LCmd 0x2a [1; 2; 3; 4]] (replicate 160 0).

Lemma edit_after_create_witness :
  exists m1, segcreate (tool_opts 0x100000000 0) (exe_bytes tool_exe) = Ret 0 m1 /\
    segedit 4 (tool_opts 0x200000000 3) m1 = segcreate (tool_opts 0x200000000 3) (exe_bytes tool_exe) /\
    segcreate (tool_opts 0x200000000 3) (exe_bytes tool_exe)
      = Ret 0 (exe_bytes (with_cmds (e_cmds tool_exe ++ [seg_cmd (new_seg (tool_opts 0x200000000 3) (cs "__XND") (cs "__xnd"))])
                                    (drop 152 (e_rest tool_exe)) tool_exe)).
Proof.
  apply (edit_after_create 4 (tool_opts 0x100000000 0) (tool_opts 0x200000000 3) (cs "__XND") (cs "__xnd") tool_exe);
    try reflexivity.
  - split; [repeat (constructor; [split; vm_compute; congruence|]); constructor|reflexivity].
  - repeat (constructor; [cbn; intros; first [lia | discriminate]|]). constructor.
  - repeat (constructor; [reflexivity|]). constructor.
  - cbn. lia.
  - cbn. lia.
Defined.

Example prot_parsed : set_seg_prot (cs "rw-/rwx") = Some (3, 7) /\ set_seg_prot (cs "rw-,rwx") = None.
Proof. by vm_compute. Qed.
Example numbers_parsed : number (cs "0x1F") = 31 /\ number (cs "42") = 42 /\ number (cs "-1") = 2 ^ 64 - 1.
Proof. by vm_compute. Qed.
