(* ===== verification/MachoParse.v ===== *)
(** The printer of bind opcodes and fixup chains:
    [xnd/platform/xnd_macho_parse.c].

    The executable is the mapped [image]; a pointer into it is its offset.
    What the program prints is the list [p_out] of its lines, each with the
    values it shows: the text around the values is left out, and so is the
    output of [xnd_error]. *)

From S2P Require Import Prelude Bytes Leb128 Cstr Path Io Mapping Macho.
Open Scope Z_scope.

(** [mach-o/loader.h] *)
Definition BIND_OPCODE_MASK : Z := 0xF0.
Definition BIND_IMMEDIATE_MASK : Z := 0x0F.
Definition BIND_OPCODE_DONE : Z := 0x00.
Definition BIND_OPCODE_SET_DYLIB_ORDINAL_IMM : Z := 0x10.
Definition BIND_OPCODE_SET_DYLIB_ORDINAL_ULEB : Z := 0x20.
Definition BIND_OPCODE_SET_DYLIB_SPECIAL_IMM : Z := 0x30.
Definition BIND_OPCODE_SET_SYMBOL_TRAILING_FLAGS_IMM : Z := 0x40.
Definition BIND_OPCODE_SET_TYPE_IMM : Z := 0x50.
Definition BIND_OPCODE_SET_ADDEND_SLEB : Z := 0x60.
Definition BIND_OPCODE_SET_SEGMENT_AND_OFFSET_ULEB : Z := 0x70.
Definition BIND_OPCODE_ADD_ADDR_ULEB : Z := 0x80.
Definition BIND_OPCODE_DO_BIND : Z := 0x90.
Definition BIND_OPCODE_DO_BIND_ADD_ADDR_ULEB : Z := 0xA0.
Definition BIND_OPCODE_DO_BIND_ADD_ADDR_IMM_SCALED : Z := 0xB0.
Definition BIND_OPCODE_DO_BIND_ULEB_TIMES_SKIPPING_ULEB : Z := 0xC0.
Definition BIND_OPCODE_THREADED : Z := 0xD0.
Definition BIND_SUBOPCODE_THREADED_SET_BIND_ORDINAL_TABLE_SIZE_ULEB : Z := 0.
Definition BIND_SUBOPCODE_THREADED_APPLY : Z := 1.
Definition LC_LOAD_DYLIB : Z := 0xc.
Definition LC_LOAD_WEAK_DYLIB : Z := 0x80000018.
Definition LC_REEXPORT_DYLIB : Z := 0x8000001f.
Definition sizeof_pointer : Z := 8.

Definition OPT_BIND_INFO : Z := 1.
Definition OPT_WEAK_BIND_INFO : Z := 2.
Definition OPT_LAZY_BIND_INFO : Z := 4.
Definition OPT_FIXUP_CHAINS : Z := 8.

(** ** What is printed *)

(** An argument of [%s]: a null pointer, a string of the program, or bytes of
    the image. *)
Inductive text := TNull | TStatic (s : cstr) | TBytes (l : list Z).
Inductive arg := ANum (v : Z) | AText (t : text).
Inductive fixup_kind := AuthBind | AuthRebase | Bind | Rebase.
Inductive line :=
  | LUsage
  | LTitle (which : Z)
  | LOp (offset op : Z) (args : list arg)
  | LThreaded (offset sub : Z) (args : list arg)
  | LUnknownSub (imm : Z)
  | LUnknown (byte : Z)
  | LTotals (nopcodes nsymbols size : Z)
  | LFixup (i : Z)
  | LPtr (kind : fixup_kind) (args : list arg)
  | LNoDyldInfo (path : cstr).

Definition bind_type_str (type : Z) {S} : M S text :=
  if 3 <? type then ub else mret
  (if type =? 1 then TStatic (cs "BIND_TYPE_POINTER")
   else if type =? 2 then TStatic (cs "BIND_TYPE_TEXT_ABSOLUTE32")
   else if type =? 3 then TStatic (cs "BIND_TYPE_TEXT_PCREL32") else TNull).
Definition bind_flags_str (flags : Z) {S} : M S text :=
  if 8 <? flags then ub else mret
  (if flags =? 0 then TStatic (cs "NONE")
   else if flags =? 1 then TStatic (cs "BIND_SYMBOL_FLAGS_WEAK_IMPORT")
   else if flags =? 8 then TStatic (cs "BIND_SYMBOL_FLAGS_NON_WEAK_DEFINITION") else TNull).
Definition pac_key_str (key : Z) : text := TStatic (if key =? 0 then cs "APIAKey_EL1" else []).

(** The bytes before the first NUL, and those after it. *)
Fixpoint until_nul (l : list Z) : option (list Z * list Z) :=
  match l with
  | [] => None
  | b :: l => if b =? 0 then Some ([], l) else '(s, rest) ← until_nul l; Some (b :: s, rest)
  end.
(** Bytes from a pointer on: a parser of them, and how far it gets. *)
Definition scan {A} (p : Z) (parse : list Z -> option (A * list Z)) : M image (A * Z) := fun m =>
  if (p <? 0) || (Z.of_nat (length m) <? p) then Ub else
  match parse (drop (Z.to_nat p) m) with
  | Some (a, rest) => Ret (a, Z.of_nat (length m) - Z.of_nat (length rest)) m
  | None => Ub
  end.
Definition c_string (p : Z) : M image (list Z) := '(s, _) ← scan p until_nul; mret s.
Definition uleb_at (p : Z) : M image (Z * Z) := scan p decode_uleb128.
Definition sleb_at (p : Z) : M image (Z * Z) := scan p decode_sleb128.

(** ** Names *)

(** A [char *]: a string of the program, or a pointer into the image. *)
Inductive name := NStatic (s : cstr) | NAt (p : Z).
Definition print_name (n : option name) : M image text :=
  match n with
  | None => mret TNull
  | Some (NStatic s) => mret (TStatic s)
  | Some (NAt p) => s ← c_string p; mret (TBytes s)
  end.

Definition is_dylib_cmd (c : Z) : bool := (c =? LC_LOAD_DYLIB) || (c =? LC_LOAD_WEAK_DYLIB) || (c =? LC_REEXPORT_DYLIB).
(** A command of size 0 is visited forever; every other visit moves on
    through the image, whose length bounds the fuel. *)
Fixpoint dylib_name_loop (fuel : nat) (mh start offset idx ordinal : Z) : M image (option name) :=
  match fuel with
  | O => nofuel
  | S fuel =>
    sizeofcmds ← mh_sizeofcmds mh;
    if offset <? sizeofcmds then
      let lc := start + offset in
      cmdsize ← lc_cmdsize lc;
      c ← lc_cmd lc;
      if negb (is_dylib_cmd c) then dylib_name_loop fuel mh start (u64 (offset + cmdsize)) idx ordinal
      else if idx =? ordinal then name ← peek32 (lc + 8); mret (Some (NAt (lc + name)))
      else dylib_name_loop fuel mh start (u64 (offset + cmdsize)) (idx + 1) ordinal
    else mret None
  end.
Definition macho_dylib_name (mh ordinal : Z) (special : bool) : M image (option name) :=
  if special then mret
    (if ordinal =? 0 then Some (NStatic (cs "BIND_SPECIAL_DYLIB_SELF"))
     else if ordinal =? -1 then Some (NStatic (cs "BIND_SPECIAL_DYLIB_MAIN_EXECUTABLE"))
     else if ordinal =? -2 then Some (NStatic (cs "BIND_SPECIAL_DYLIB_FLAT_LOOKUP"))
     else None)
  else
    magic ← mh_magic mh;
    m ← get;
    dylib_name_loop (S (length m)) mh (lc_start magic mh) 0 1 ordinal.

(** [segname] is at offset 8 of the command. *)
Fixpoint segment_name_loop (fuel : nat) (mh start offset idx seg_index : Z) : M image (option name) :=
  match fuel with
  | O => nofuel
  | S fuel =>
    sizeofcmds ← mh_sizeofcmds mh;
    if offset <? sizeofcmds then
      let lc := start + offset in
      cmdsize ← lc_cmdsize lc;
      c ← lc_cmd lc;
      if (c =? LC_SEGMENT) || (c =? LC_SEGMENT_64) then
        if idx =? seg_index then mret (Some (NAt (lc + 8)))
        else segment_name_loop fuel mh start (u64 (offset + cmdsize)) (u32 (idx + 1)) seg_index
      else segment_name_loop fuel mh start (u64 (offset + cmdsize)) idx seg_index
    else mret None
  end.
Definition macho_segment_name (mh seg_index : Z) : M image (option name) :=
  magic ← mh_magic mh;
  m ← get;
  segment_name_loop (S (length m)) mh (lc_start magic mh) 0 0 seg_index.

(** ** The program's state *)

Class ParseSys (K : Type) := {
  (** [calloc], [malloc], [realloc]: whether there is memory *)
  pa_alloc : K -> bool * K;
  (** [access(path, X_OK)]: 0 or the errno; [access(path, F_OK) == 0] *)
  pa_access : cstr -> K -> Z * K;
  pa_exists : cstr -> K -> bool
}.
Record parser (K : Type) := Parser { p_img : image; p_out : list line; p_k : K }.
Arguments Parser {K}.
Arguments p_img {K}.
Arguments p_out {K}.
Arguments p_k {K}.

(** [struct macho_all_info]: the header and the [dyld_info_command]. *)
Record macho_all_info := Info { i_mh : Z; i_cmd : Z }.
Definition bind_off (c : Z) : M image Z := peek32 (c + 16).
Definition bind_size (c : Z) : M image Z := peek32 (c + 20).
Definition weak_bind_off (c : Z) : M image Z := peek32 (c + 24).
Definition weak_bind_size (c : Z) : M image Z := peek32 (c + 28).
Definition lazy_bind_off (c : Z) : M image Z := peek32 (c + 32).
Definition lazy_bind_size (c : Z) : M image Z := peek32 (c + 36).

(** [struct fixup_entry]; [f_addr] is 0 in an entry of the symbol table. *)
Record fixup_entry := FEntry {
  f_addr : Z; f_symbol : option Z; f_ordinal : Z; f_addend : Z;
  f_seg : Z; f_flags : Z; f_type : Z; f_special : bool
}.
Definition zero_entry : fixup_entry := FEntry 0 None 0 0 0 0 0 false.

Section parser.
Context {K : Type} `{!MachoSys K, !ParseSys K}.
Abbreviation P := (M (parser K)).

Definition put_img (m : image) (s : parser K) : parser K := Parser m (p_out s) (p_k s).
Definition put_pk (k : K) (s : parser K) : parser K := Parser (p_img s) (p_out s) k.
Definition say (l : line) (s : parser K) : parser K := Parser (p_img s) (p_out s ++ [l]) (p_k s).
(** Reading the image, printing a line, a call of the system *)
Definition rd {A} (f : M image A) : P A := fun s =>
  match f (p_img s) with
  | Ret a m => Ret a (put_img m s)
  | Exit c m => Exit c (put_img m s)
  | Abort m => Abort (put_img m s)
  | Ub => Ub
  | NoFuel => NoFuel
  end.
Definition emit (l : line) : P unit := modify (say l).
Definition call {A} (f : K -> A * K) : P A := fun s => let '(a, k) := f (p_k s) in Ret a (put_pk k s).
Definition show (n : option name) : P text := rd (print_name n).

(** ** Printing the opcodes *)

Definition macho_print_threaded_opcode (itr imm opcode_offset : Z) : P Z :=
  if imm =? BIND_SUBOPCODE_THREADED_SET_BIND_ORDINAL_TABLE_SIZE_ULEB then
    '(count, itr) ← rd (uleb_at itr);
    emit (LThreaded opcode_offset imm [ANum count]);;
    mret itr
  else if imm =? BIND_SUBOPCODE_THREADED_APPLY then emit (LThreaded opcode_offset imm []);; mret itr
  else emit (LUnknownSub imm);; mret itr.

(** One turn of the switch: the new [itr], and 1 for a symbol.
    [BIND_OPCODE_DO_BIND_ADD_ADDR_ULEB] falls through. *)
Definition print_opcode (mh op imm itr opcode_offset : Z) : P (Z * Z) :=
  let show_line args := emit (LOp opcode_offset op args) in
  let scaled := show_line [ANum (imm * sizeof_pointer + sizeof_pointer)] in
  if op =? BIND_OPCODE_DONE then show_line [];; mret (itr, 0)
  else if op =? BIND_OPCODE_SET_DYLIB_ORDINAL_IMM then
    dylib ← rd (macho_dylib_name mh imm false);
    t ← show dylib;
    show_line [ANum imm; AText t];; mret (itr, 0)
  else if op =? BIND_OPCODE_SET_DYLIB_ORDINAL_ULEB then
    '(v, itr) ← rd (uleb_at itr);
    let ordinal := s64 v in
    dylib ← rd (macho_dylib_name mh ordinal false);
    t ← show dylib;
    show_line [ANum ordinal; AText t];; mret (itr, 0)
  else if op =? BIND_OPCODE_SET_DYLIB_SPECIAL_IMM then
    let ordinal := if negb (imm =? 0) then Z.lor imm BIND_OPCODE_MASK else imm in
    dylib ← rd (macho_dylib_name mh ordinal true);
    t ← show dylib;
    show_line [ANum ordinal; AText t];; mret (itr, 0)
  else if op =? BIND_OPCODE_SET_SYMBOL_TRAILING_FLAGS_IMM then
    '(symbol, itr) ← rd (scan itr until_nul);
    show_line [ANum imm; AText (TBytes symbol)];; mret (itr, 1)
  else if op =? BIND_OPCODE_SET_TYPE_IMM then show_line [ANum imm];; mret (itr, 0)
  else if op =? BIND_OPCODE_SET_ADDEND_SLEB then
    '(addend, itr) ← rd (sleb_at itr);
    show_line [ANum addend];; mret (itr, 0)
  else if op =? BIND_OPCODE_SET_SEGMENT_AND_OFFSET_ULEB then
    seg ← rd (macho_segment_name mh imm);
    '(seg_offset, itr) ← rd (uleb_at itr);
    t ← show seg;
    show_line [ANum imm; AText t; ANum seg_offset];; mret (itr, 0)
  else if op =? BIND_OPCODE_ADD_ADDR_ULEB then
    '(skip, itr) ← rd (uleb_at itr);
    show_line [ANum skip];; mret (itr, 0)
  else if op =? BIND_OPCODE_DO_BIND then show_line [];; mret (itr, 0)
  else if op =? BIND_OPCODE_DO_BIND_ADD_ADDR_ULEB then
    '(skip, itr) ← rd (uleb_at itr);
    show_line [ANum skip];; scaled;; mret (itr, 0)
  else if op =? BIND_OPCODE_DO_BIND_ADD_ADDR_IMM_SCALED then scaled;; mret (itr, 0)
  else if op =? BIND_OPCODE_DO_BIND_ULEB_TIMES_SKIPPING_ULEB then
    '(count, itr) ← rd (uleb_at itr);
    '(skip, itr) ← rd (uleb_at itr);
    show_line [ANum count; ANum skip];; mret (itr, 0)
  else if op =? BIND_OPCODE_THREADED then
    itr ← macho_print_threaded_opcode itr imm opcode_offset;
    mret (itr, 0)
  else emit (LUnknown (Z.lor op imm));; mret (itr, 0).

(** Every turn reads one byte at least, so the size of the stream bounds the
    turns. *)
Fixpoint print_opcodes_loop (fuel : nat) (mh op_start op_end itr nsymbols nopcodes : Z) : P (Z * Z) :=
  match fuel with
  | O => nofuel
  | S fuel =>
    if itr <? op_end then
      b ← rd (peek8 itr);
      '(itr, n) ← print_opcode mh (Z.land b BIND_OPCODE_MASK) (Z.land b BIND_IMMEDIATE_MASK) (itr + 1) (itr - op_start);
      print_opcodes_loop fuel mh op_start op_end itr (u32 (nsymbols + n)) (u32 (nopcodes + 1))
    else mret (nsymbols, nopcodes)
  end.
Definition bind_area (which cmd : Z) : M image (option (Z * Z)) :=
  if which =? OPT_BIND_INFO then o ← bind_off cmd; n ← bind_size cmd; mret (Some (o, n))
  else if which =? OPT_WEAK_BIND_INFO then o ← weak_bind_off cmd; n ← weak_bind_size cmd; mret (Some (o, n))
  else if which =? OPT_LAZY_BIND_INFO then o ← lazy_bind_off cmd; n ← lazy_bind_size cmd; mret (Some (o, n))
  else mret None.
Definition macho_print_opcodes (info : macho_all_info) (which : Z) : P Z :=
  area ← rd (bind_area which (i_cmd info));
  match area with
  | None => mret (-1)
  | Some (off, size) =>
    let op_start := i_mh info + off in
    emit (LTitle which);;
    '(nsymbols, nopcodes) ← print_opcodes_loop (S (Z.to_nat size)) (i_mh info) op_start (op_start + size) op_start 0 0;
    emit (LTotals nopcodes nsymbols size);;
    mret 0
  end.

(** ** Fixup chains *)

(** The first byte whose high half is the opcode, whatever it belongs to:
    its low half and the pointer after it. *)
Fixpoint find_threaded (fuel : nat) (itr op_end : Z) : P (option (Z * Z)) :=
  match fuel with
  | O => nofuel
  | S fuel =>
    if itr =? op_end then mret None else
    b ← rd (peek8 itr);
    if Z.land b BIND_OPCODE_MASK =? BIND_OPCODE_THREADED then mret (Some (Z.land b BIND_IMMEDIATE_MASK, itr + 1))
    else find_threaded fuel (itr + 1) op_end
  end.
Definition macho_bind_table_size (info : macho_all_info) : P Z :=
  off ← rd (bind_off (i_cmd info));
  size ← rd (bind_size (i_cmd info));
  let op_start := i_mh info + off in
  found ← find_threaded (S (Z.to_nat size)) op_start (op_start + size);
  match found with
  | None => abort
  | Some (imm, itr) =>
    if imm =? BIND_SUBOPCODE_THREADED_SET_BIND_ORDINAL_TABLE_SIZE_ULEB then
      '(size, _) ← rd (uleb_at itr);
      mret size
    else abort
  end.

(** [(value >> lo) & ((1 << n) - 1)], a bit-field of the 64-bit union *)
Definition bits (value lo n : Z) : Z := Z.land (Z.shiftr value lo) (Z.ones n).
Definition truth (b : bool) : arg := AText (TStatic (if b then cs "true" else cs "false")).
Definition symbol_text (symbol : option Z) : P text := show (NAt <$> symbol).

Definition macho_print_fixup (info : macho_all_info) (fixup : fixup_entry) : P unit :=
  value ← rd (peek64 (f_addr fixup));
  segname ← rd (macho_segment_name (i_mh info) (f_seg fixup));
  let bound kind first :=
    type ← bind_type_str (f_type fixup);
    flags ← bind_flags_str (f_flags fixup);
    dylib ← rd (macho_dylib_name (i_mh info) (f_ordinal fixup) (f_special fixup));
    d ← show dylib;
    s ← show segname;
    sym ← symbol_text (f_symbol fixup);
    emit (LPtr kind (first ++ [AText d; AText s; AText sym; AText flags; AText type; ANum (f_addend fixup)])) in
  match Z.testbit value 63, Z.testbit value 62 with
  | true, true =>
    bound AuthBind [ANum value; ANum (bits value 0 16); ANum (bits value 32 16); truth (Z.testbit value 48);
                    AText (pac_key_str (bits value 49 2)); ANum (bits value 51 11)]
  | true, false =>
    s ← show segname;
    emit (LPtr AuthRebase [ANum value; ANum (bits value 0 32); ANum (bits value 32 16); truth (Z.testbit value 48);
                           AText (pac_key_str (bits value 49 2)); ANum (bits value 51 11); AText s])
  | false, true =>
    bound Bind [ANum value; ANum (bits value 0 16); ANum (bits value 32 19); ANum (bits value 51 11)]
  | false, false =>
    s ← show segname;
    emit (LPtr Rebase [ANum value; ANum (bits value 0 43); ANum (bits value 43 8); ANum (bits value 51 11); AText s])
  end.

(** [chain] is the used part of the array of [chain_cap] entries; [None] is
    the error.  Every link moves on through the image. *)
Definition grow (chain : list fixup_entry) (chain_cap : Z) : P (option Z) :=
  if Z.of_nat (length chain) =? chain_cap then
    ok ← call pa_alloc;
    mret (if (ok : bool) then Some (chain_cap * 2) else None)
  else mret (Some chain_cap).
Definition chain_entry (addr seg_index value : Z) (ordinals : list fixup_entry) (nordinals : Z) : P (option fixup_entry) :=
  if Z.testbit value 62 then
    let ordinal := Z.land value 0xFFFF in
    if nordinals <=? ordinal then mret None else
    o ← deref (ordinals !! Z.to_nat ordinal);
    mret (Some (FEntry addr (f_symbol o) (f_ordinal o) (f_addend o) seg_index (f_flags o) (f_type o) (f_special o)))
  else mret (Some (FEntry addr None 0 0 seg_index 0 0 false)).
Fixpoint walk_loop (fuel : nat) (mh seg_index offset : Z) (ordinals : list fixup_entry) (nordinals : Z)
    (chain : list fixup_entry) (chain_cap : Z) : P (option (list fixup_entry * Z)) :=
  match fuel with
  | O => nofuel
  | S fuel =>
    cap ← grow chain chain_cap;
    match cap with
    | None => mret None
    | Some chain_cap =>
      let addr := mh + offset in
      value ← rd (peek64 addr);
      entry ← chain_entry addr seg_index value ordinals nordinals;
      match entry with
      | None => mret None
      | Some entry =>
        let next := Z.land (Z.shiftr value 51) 0x7FF in
        if next =? 0 then mret (Some (chain ++ [entry], chain_cap))
        else walk_loop fuel mh seg_index (u64 (offset + next * 8)) ordinals nordinals (chain ++ [entry]) chain_cap
      end
    end
  end.
Definition macho_walk_fixup_chain (info : macho_all_info) (seg_index seg_offset : Z) (ordinals : list fixup_entry)
    (nordinals : Z) (chain : list fixup_entry) (chain_cap : Z) : P (option (list fixup_entry * Z)) :=
  m ← gets p_img;
  seg ← rd (macho_find_segment (S (length m)) (i_mh info) seg_index);
  match seg with
  | None => mret None
  | Some seg =>
    cmd ← rd (peek32 seg);
    fileoff ← (if cmd =? LC_SEGMENT then o ← rd (peek32 (seg + 32)); mret (Some o)
               else if cmd =? LC_SEGMENT_64 then o ← rd (peek64 (seg + 40)); mret (Some o) else mret None);
    match fileoff with
    | None => mret None
    | Some offset => walk_loop (S (length m)) (i_mh info) seg_index (u64 (offset + seg_offset)) ordinals nordinals chain chain_cap
    end
  end.

(** The locals of [macho_parse_fixup_chains]; [b_table] is the array
    [ordinals] of [table_size] entries. *)
Record bstate := BState {
  b_seg : Z; b_off : Z; b_flags : Z; b_type : Z; b_addend : Z; b_ordinal : Z; b_special : bool; b_symbol : option Z;
  b_idx : Z; b_table : list fixup_entry; b_chain : list fixup_entry; b_cap : Z
}.
Definition set_seg (seg off : Z) (b : bstate) := BState seg off (b_flags b) (b_type b) (b_addend b) (b_ordinal b) (b_special b) (b_symbol b) (b_idx b) (b_table b) (b_chain b) (b_cap b).
Definition set_symbol (flags sym : Z) (b : bstate) := BState (b_seg b) (b_off b) flags (b_type b) (b_addend b) (b_ordinal b) (b_special b) (Some sym) (b_idx b) (b_table b) (b_chain b) (b_cap b).
Definition set_type (t : Z) (b : bstate) := BState (b_seg b) (b_off b) (b_flags b) t (b_addend b) (b_ordinal b) (b_special b) (b_symbol b) (b_idx b) (b_table b) (b_chain b) (b_cap b).
Definition set_addend (v : Z) (b : bstate) := BState (b_seg b) (b_off b) (b_flags b) (b_type b) v (b_ordinal b) (b_special b) (b_symbol b) (b_idx b) (b_table b) (b_chain b) (b_cap b).
Definition set_dylib (ordinal : Z) (special : bool) (b : bstate) := BState (b_seg b) (b_off b) (b_flags b) (b_type b) (b_addend b) ordinal special (b_symbol b) (b_idx b) (b_table b) (b_chain b) (b_cap b).
Definition set_table (idx : Z) (l : list fixup_entry) (b : bstate) := BState (b_seg b) (b_off b) (b_flags b) (b_type b) (b_addend b) (b_ordinal b) (b_special b) (b_symbol b) idx l (b_chain b) (b_cap b).
Definition set_chain (l : list fixup_entry) (cap : Z) (b : bstate) := BState (b_seg b) (b_off b) (b_flags b) (b_type b) (b_addend b) (b_ordinal b) (b_special b) (b_symbol b) (b_idx b) (b_table b) l cap.

(** [*entry = ...] of the next entry of the table: the other fields stay 0. *)
Definition bind_symbol (b : bstate) : fixup_entry :=
  FEntry 0 (b_symbol b) (b_ordinal b) (b_addend b) 0 (b_flags b) (b_type b) (b_special b).

(** One turn of the switch: the new [itr] and locals, or the error. *)
Definition parse_opcode (info : macho_all_info) (op imm itr : Z) (b : bstate) : P (option (Z * bstate)) :=
  let go itr b := mret (Some (itr, b)) in
  if op =? BIND_OPCODE_DONE then go itr b
  else if op =? BIND_OPCODE_DO_BIND then
    if Z.of_nat (length (b_table b)) <=? b_idx b then ub
    else go itr (set_table (b_idx b + 1) (<[Z.to_nat (b_idx b) := bind_symbol b]> (b_table b)) b)
  else if op =? BIND_OPCODE_SET_DYLIB_ORDINAL_IMM then go itr (set_dylib imm false b)
  else if op =? BIND_OPCODE_SET_DYLIB_ORDINAL_ULEB then
    '(v, itr) ← rd (uleb_at itr); go itr (set_dylib (s64 v) false b)
  else if op =? BIND_OPCODE_SET_DYLIB_SPECIAL_IMM then
    go itr (set_dylib (if imm =? 0 then imm else Z.lor imm BIND_OPCODE_MASK) true b)
  else if op =? BIND_OPCODE_SET_SYMBOL_TRAILING_FLAGS_IMM then
    '(_, end_) ← rd (scan itr until_nul); go end_ (set_symbol imm itr b)
  else if op =? BIND_OPCODE_SET_TYPE_IMM then go itr (set_type imm b)
  else if op =? BIND_OPCODE_SET_ADDEND_SLEB then
    '(v, itr) ← rd (sleb_at itr); go itr (set_addend v b)
  else if op =? BIND_OPCODE_SET_SEGMENT_AND_OFFSET_ULEB then
    '(off, itr) ← rd (uleb_at itr); go itr (set_seg imm off b)
  else if (op =? BIND_OPCODE_ADD_ADDR_ULEB) || (op =? BIND_OPCODE_DO_BIND_ADD_ADDR_ULEB) ||
          (op =? BIND_OPCODE_DO_BIND_ADD_ADDR_IMM_SCALED) || (op =? BIND_OPCODE_DO_BIND_ULEB_TIMES_SKIPPING_ULEB) then abort
  else if op =? BIND_OPCODE_THREADED then
    if negb (imm =? BIND_SUBOPCODE_THREADED_APPLY) then '(_, itr) ← rd (uleb_at itr); go itr b else
    r ← macho_walk_fixup_chain info (b_seg b) (b_off b) (b_table b) (b_idx b) (b_chain b) (b_cap b);
    match r with Some (chain, cap) => go itr (set_chain chain cap b) | None => mret None end
  else mret None.

(** The loop compares with [!=]: a stream whose last operand runs past its end
    is read on, up to the end of the image, which bounds the turns. *)
Fixpoint parse_loop (fuel : nat) (info : macho_all_info) (op_end itr : Z) (b : bstate) : P (option bstate) :=
  match fuel with
  | O => nofuel
  | S fuel =>
    if itr =? op_end then mret (Some b) else
    x ← rd (peek8 itr);
    r ← parse_opcode info (Z.land x BIND_OPCODE_MASK) (Z.land x BIND_IMMEDIATE_MASK) (itr + 1) b;
    match r with Some (itr, b) => parse_loop fuel info op_end itr b | None => mret None end
  end.
Fixpoint print_fixups (info : macho_all_info) (i : Z) (chain : list fixup_entry) : P unit :=
  match chain with
  | [] => mret tt
  | e :: chain =>
    emit (LFixup i);;
    macho_print_fixup info e;;
    print_fixups info (i + 1) chain
  end.
Definition macho_parse_fixup_chains (info : macho_all_info) : P Z :=
  table_size ← macho_bind_table_size info;
  ok ← call pa_alloc;
  if negb ok then mret (-1) else
  ok ← call pa_alloc;
  if negb ok then mret (-1) else
  off ← rd (bind_off (i_cmd info));
  size ← rd (bind_size (i_cmd info));
  let op_start := i_mh info + off in
  m ← gets p_img;
  r ← parse_loop (S (length m)) info (op_start + size) op_start
        (BState 0 0 0 0 0 0 false None 0 (replicate (Z.to_nat table_size) zero_entry) [] 256);
  match r with
  | None => mret (-1)
  | Some b => print_fixups info 0 (b_chain b);; mret 0
  end.

(** ** [main] *)

(** The label [out] *)
Definition parse_exit {A} (fd : Z) (mapped : option Z) (exc : Z) : P A :=
  (if negb (fd =? -1) then modify (fun s => put_pk (mo_close fd (p_k s)) s) else mret tt);;
  (match mapped with Some size => modify (fun s => put_pk (mo_munmap size (p_k s)) s) | None => mret tt end);;
  exit_with exc.
Fixpoint parse_options (args : list cstr) (file : option cstr) (options : Z) : P (option cstr * Z) :=
  match args with
  | [] => mret (file, options)
  | a :: args =>
    if bool_decide (a = cs "--bind") then parse_options args file (Z.lor options OPT_BIND_INFO)
    else if bool_decide (a = cs "--weak-bind") then parse_options args file (Z.lor options OPT_WEAK_BIND_INFO)
    else if bool_decide (a = cs "--lazy-bind") then parse_options args file (Z.lor options OPT_LAZY_BIND_INFO)
    else if bool_decide (a = cs "--fixup-chains") then parse_options args file (Z.lor options OPT_FIXUP_CHAINS)
    else if bool_decide (take 2 a = cs "--") then emit LUsage;; exit_with (-1)
    else parse_options args (Some a) options
  end.
Definition ENOENT : Z := 2.
(** The path of the executable: the file given, or the one found in [PATH]. *)
Definition executable (path_env : option cstr) (file : cstr) : P cstr :=
  err ← call (pa_access file);
  if negb (err =? 0) then
    if negb (err =? ENOENT) then exit_with (-1) else
    s ← get;
    match xnd_path_find (fun p => pa_exists p (p_k s)) path_env file PATH_MAX [] with
    | Ret r path => if negb (r =? 0) then exit_with (-1) else mret path
    | _ => ub
    end
  else if PATH_MAX <=? strlen file then ub else mret file.

(** [args] are those after the program's name. *)
Definition parse_main (path_env : option cstr) (args : list cstr) : P unit :=
  if bool_decide (args = []) then emit LUsage;; exit_with 0 else
  '(file, options) ← parse_options args None 0;
  match file with
  | None => emit LUsage;; exit_with (-1)
  | Some file =>
    if options =? 0 then emit LUsage;; exit_with (-1) else
    path ← executable path_env file;
    fd ← call (mo_open path);
    if fd <? 0 then exit_with (-1) else
    size ← call (mo_size fd);
    if size <? 0 then parse_exit fd None (-1) else
    addr ← call (mo_mmap fd size);
    match addr with
    | None => parse_exit fd None (-1)
    | Some m =>
      let fail := parse_exit fd (Some size) (-1) in
      modify (put_img m);;
      magic ← rd (peek32 0);
      mh ← (if HEADER_IS_FAT magic then rd (macho_thin_from_fat 0 CPU_TYPE_ARM64) else mret (Some 0));
      match mh with
      | None => fail
      | Some mh =>
        cmd ← rd (macho_find_load_command mh LC_DYLD_INFO_ONLY);
        match cmd with
        | None => emit (LNoDyldInfo path);; fail
        | Some cmd =>
          let info := Info mh cmd in
          let step opt (run : P Z) :=
            if negb (Z.land options opt =? 0) then err ← run; if negb (err =? 0) then fail else mret tt else mret tt in
          step OPT_BIND_INFO (macho_print_opcodes info OPT_BIND_INFO);;
          step OPT_WEAK_BIND_INFO (macho_print_opcodes info OPT_WEAK_BIND_INFO);;
          step OPT_LAZY_BIND_INFO (macho_print_opcodes info OPT_LAZY_BIND_INFO);;
          step OPT_FIXUP_CHAINS (macho_parse_fixup_chains info);;
          parse_exit fd (Some size) 0
        end
      end
    end
  end.
End parser.
