(* ===== verification/MachoParseProps.v ===== *)
(** Theorems of [MachoParse]: opcode streams as lists of operations, and what
    is printed of them. *)

From S2P Require Import Prelude Bytes Leb128 Cstr Path Io Mapping Macho MachoParse.
Open Scope Z_scope.

(** ** Reading *)

Lemma scan_at {A} (parse : list Z -> option (A * list Z)) (a l b : list Z) x p m :
  m = a ++ l ++ b -> p = Z.of_nat (length a) -> parse (l ++ b) = Some (x, b) ->
  scan p parse m = Ret (x, p + Z.of_nat (length l)) m.
Proof.
  intros -> -> Hp. unfold scan. rewrite !length_app, (proj2 (Z.ltb_ge _ 0)), (proj2 (Z.ltb_ge _ _)) by lia. cbn [orb].
  rewrite Nat2Z.id, drop_app_length, Hp. f_equal. f_equal. lia.
Qed.
Lemma peek8_at (a b : list Z) x p m : m = a ++ x :: b -> p = Z.of_nat (length a) -> peek8 p m = Ret x m.
Proof.
  intros Hm Hp. unfold peek8. rewrite (bind_ret _ _ _ _ _ (peek_at a [x] b p 1 m Hm Hp eq_refl)). cbn. by rewrite Z.mul_0_r, Z.add_0_r.
Qed.
Lemma until_nul_app l s rest b : until_nul l = Some (s, rest) -> until_nul (l ++ b) = Some (s, rest ++ b).
Proof.
  revert s. induction l as [|x l IH]; intros s; [done|]. cbn. destruct (x =? 0); [by intros [= <- <-]|].
  destruct (until_nul l) as [[s1 r1]|]; cbn; [|done]. intros [= <- <-]. by rewrite (IH s1).
Qed.
Lemma until_nul_text s b : Forall (fun x => x <> 0) s -> until_nul ((s ++ [0]) ++ b) = Some (s, b).
Proof.
  induction 1 as [|x s Hx _ IH]; [done|]. cbn in *. by rewrite (proj2 (Z.eqb_neq x 0)), IH.
Qed.
(** The string at the start of some bytes. *)
Definition text_of (l : list Z) : list Z := default [] (fst <$> until_nul l).
Lemma c_string_at (a l b : list Z) p m : m = a ++ l ++ b -> p = Z.of_nat (length a) -> is_Some (until_nul l) ->
  c_string p m = Ret (text_of l) m.
Proof.
  intros -> -> [[s rest] Hs]. unfold c_string, text_of, mbind, M_bind, scan.
  rewrite !length_app, (proj2 (Z.ltb_ge _ 0)), (proj2 (Z.ltb_ge _ _)) by lia. cbn [orb].
  rewrite Nat2Z.id, drop_app_length, (until_nul_app _ _ _ _ Hs), Hs. done.
Qed.

(** ** Names of libraries and segments *)

Definition is_dylib (c : lcmd) : bool := is_dylib_cmd (c_cmd c).
(** The name of a library command is at an offset from its start. *)
Definition dylib_name_off (c : lcmd) : Z := le_val (take 4 (c_body c)).
Definition dylib_name (c : lcmd) : list Z := text_of (drop (Z.to_nat (dylib_name_off c - 8)) (c_body c)).
Record names_ok (c : lcmd) : Prop := {
  nm_segment : is_segment c = true -> is_Some (until_nul (c_body c));
  nm_dylib : is_dylib c = true -> (4 <= length (c_body c))%nat /\ 8 <= dylib_name_off c <= lc_size c /\
    is_Some (until_nul (drop (Z.to_nat (dylib_name_off c - 8)) (c_body c)))
}.
Definition dylib_text (e : exe) (ordinal : Z) : text :=
  if ordinal <? 1 then TNull else
  match filter is_dylib (e_cmds e) !! Z.to_nat (ordinal - 1) with Some c => TBytes (dylib_name c) | None => TNull end.
Definition segment_text (e : exe) (seg_index : Z) : text :=
  match filter is_segment (e_cmds e) !! Z.to_nat seg_index with Some c => TBytes (text_of (c_body c)) | None => TNull end.

Lemma placed_filter (f : lcmd -> bool) at_ cs : snd <$> filter (fun x => f x.2 = true) (placed at_ cs) = filter f cs.
Proof.
  revert at_. induction cs as [|c cs IH]; intros at_; [done|]. cbn [placed]. rewrite !filter_cons. cbn [snd].
  destruct (f c) eqn:E.
  - rewrite !decide_True by (by rewrite ?E). cbn. by rewrite IH.
  - rewrite !decide_False by (by rewrite ?E). by rewrite IH.
Qed.
Lemma placed_in at_ cs a c : (a, c) ∈ placed at_ cs -> exists before after, cs = before ++ c :: after /\ a = at_ + lcs_size before.
Proof.
  revert at_. induction cs as [|x cs IH]; intros at_; cbn [placed]; [by intros ?%elem_of_nil|].
  intros [[= -> ->]|Hin]%elem_of_cons.
  - exists [], cs. split; [done|]. change (lcs_size []) with 0. lia.
  - destruct (IH _ Hin) as (before & after & -> & ->). exists (x :: before), after. split; [done|]. rewrite lcs_size_cons. lia.
Qed.
Lemma placed_at at_ before c after : (at_ + lcs_size before, c) ∈ placed at_ (before ++ c :: after).
Proof.
  revert at_. induction before as [|x before IH]; intros at_; cbn [placed app].
  - change (lcs_size []) with 0. rewrite Z.add_0_r. by left.
  - right. rewrite lcs_size_cons, Z.add_assoc. apply IH.
Qed.

Section names.
Context (pre post : list Z) (e : exe) (m : image) (mh : Z).
Context (Hm : m = pre ++ exe_bytes e ++ post) (Hmh : mh = Z.of_nat (length pre)) (Hok : lcs_ok (e_cmds e)).
Context (Hnames : Forall names_ok (e_cmds e)).

(** The body of a command of the executable. *)
Lemma body_split a c : (a, c) ∈ placed (mh + 32) (e_cmds e) ->
  exists x y, m = x ++ c_body c ++ y /\ a + 8 = Z.of_nat (length x) /\ c ∈ e_cmds e.
Proof using Hm Hmh.
  intros (before & after & Hc & ->)%placed_in.
  exists ((pre ++ words false (header e)) ++ lcs_bytes before ++ words false [c_cmd c; lc_size c]), (lcs_bytes after ++ e_rest e ++ post).
  split; [|split].
  - rewrite (commands_split pre post e m Hm), Hc. unfold lcs_bytes. rewrite fmap_app, concat_app. cbn [fmap list_fmap concat].
    unfold lc_bytes at 2. by rewrite <- !app_assoc.
  - rewrite !length_app, !words_length. cbn [header length]. unfold lcs_size. lia.
  - rewrite Hc, elem_of_app. right. by left.
Qed.

Lemma segment_name_find fuel start offset idx seg_index r m' :
  find_segment_loop fuel mh start offset idx seg_index m = Ret r m' ->
  segment_name_loop fuel mh start offset idx seg_index m = Ret ((fun lc => NAt (lc + 8)) <$> r) m'.
Proof.
  revert offset idx. induction fuel as [|fuel IH]; intros offset idx; [done|]. cbn [find_segment_loop segment_name_loop].
  unfold mbind, M_bind. unfold mh_sizeofcmds, lc_cmdsize, lc_cmd, peek32, mbind, M_bind, peek.
  destruct (in_image (mh + 20) 4 m); [|done]. cbn [mret M_ret]. unfold mret, M_ret. destruct (offset <? _); [|by intros [= <- <-]].
  destruct (in_image (start + offset + 4) 4 m); [|done]. destruct (in_image (start + offset) 4 m); [|done].
  destruct (_ || _); [|apply IH]. destruct (idx =? seg_index); [by intros [= <- <-]|apply IH].
Qed.
Lemma enough_fuel : (length (e_cmds e) < S (length m))%nat.
Proof using Hm.
  pose proof (lcs_size_count (e_cmds e)) as H. unfold lcs_size in H.
  rewrite (commands_split pre post e m Hm), !length_app. lia.
Qed.

Lemma segment_name_eq seg_index : 0 <= seg_index ->
  exists n, macho_segment_name mh seg_index m = Ret n m /\ print_name n m = Ret (segment_text e seg_index) m.
Proof using All.
  intros Hi. pose proof (find_segment_eq pre post e m mh Hm Hmh (S (length m)) seg_index Hok enough_fuel Hi) as Hf.
  unfold macho_find_segment in Hf. rewrite (bind_ret _ _ _ _ _ (magic_eq pre post e m mh Hm Hmh)) in Hf.
  apply segment_name_find in Hf. unfold macho_segment_name. rewrite (bind_ret _ _ _ _ _ (magic_eq pre post e m mh Hm Hmh)).
  rewrite (bind_ret get _ m m m eq_refl). eexists. split; [exact Hf|]. unfold segment_text.
  rewrite <- (placed_filter is_segment (mh + 32)), !list_lookup_fmap.
  destruct (filter (fun x : Z * lcmd => is_segment x.2 = true) (placed (mh + 32) (e_cmds e)) !! Z.to_nat seg_index) as [[a c]|] eqn:E; cbn [fmap option_fmap option_map fst snd]; [|done].
  apply list_elem_of_lookup_2 in E. apply list_elem_of_filter in E as [Hs Hin]. cbn [snd] in Hs.
  destruct (body_split a c Hin) as (x & y & Hx & Ha & Hc). cbn [print_name].
  rewrite Forall_forall in Hnames. by rewrite (bind_ret _ _ _ _ _ (c_string_at x (c_body c) y (a + 8) m Hx Ha (nm_segment c (Hnames c Hc) Hs))).
Qed.

Lemma dylib_field a c : (a, c) ∈ placed (mh + 32) (e_cmds e) -> (4 <= length (c_body c))%nat ->
  peek32 (a + 8) m = Ret (dylib_name_off c) m.
Proof using Hm Hmh.
  intros Hin Hl. destruct (body_split a c Hin) as (x & y & Hx & Ha & _).
  rewrite <- (take_drop 4 (c_body c)), <- app_assoc in Hx. unfold peek32.
  erewrite bind_ret; [|eapply (peek_at x (take 4 (c_body c))); [exact Hx|exact Ha|] ]; [done|].
  rewrite length_take. lia.
Qed.
Lemma dylib_name_loop_eq ordinal cs : forall fuel done_ idx offset,
  e_cmds e = done_ ++ cs -> offset = lcs_size done_ -> (length cs < fuel)%nat ->
  dylib_name_loop fuel mh (mh + 32) offset idx ordinal m
    = Ret ((fun x => NAt (x.1 + dylib_name_off x.2)) <$>
           (if ordinal <? idx then None
            else filter (fun x => is_dylib x.2 = true) (placed (mh + 32 + offset) cs) !! Z.to_nat (ordinal - idx))) m.
Proof using All.
  induction cs as [|c cs IH]; intros [|fuel] done_ idx offset He Ho Hf; cbn [length] in *; try lia;
    pose proof (proj2 Hok) as Hl; pose proof (lcs_size_count done_) as Hd;
    rewrite He, lcs_size_app in Hl; cbn [dylib_name_loop placed];
    unfold mh_sizeofcmds; (erewrite bind_ret by (eapply (header_field pre post e m mh Hm Hmh 5); [done|lia]));
    rewrite He, lcs_size_app.
  - rewrite wrapu_small by (unfold in_u; change (lcs_size []) with 0 in *; lia).
    rewrite (proj2 (Z.ltb_ge _ _)) by (change (lcs_size []) with 0; lia). by destruct (ordinal <? idx).
  - pose proof (lc_size_pos c). pose proof (lcs_size_count cs).
    rewrite lcs_size_cons in Hl |- *. rewrite wrapu_small by (unfold in_u; lia).
    rewrite (proj2 (Z.ltb_lt _ _)) by lia.
    assert (m = (pre ++ words false (header e) ++ lcs_bytes done_) ++ lcs_bytes (c :: cs) ++ e_rest e ++ post) as Hm'.
    { rewrite (commands_split pre post e m Hm), He. unfold lcs_bytes at 1. rewrite fmap_app, concat_app. by rewrite <- !app_assoc. }
    destruct (command_fields _ c cs _ m (mh + 32 + offset) Hm') as [Hc Hs].
    { rewrite !length_app, words_length. cbn [header length]. subst offset mh. unfold lcs_size. lia. }
    { destruct Hok as [Hc Hk]. rewrite He in Hc. apply Forall_app in Hc as [_ Hc]. split; [done|].
      rewrite lcs_size_cons. lia. }
    rewrite (bind_ret _ _ _ _ _ Hs), (bind_ret _ _ _ _ _ Hc).
    rewrite (wrapu_small 64) by (unfold in_u; lia).
    assert (e_cmds e = (done_ ++ [c]) ++ cs) as He' by (by rewrite He, <- app_assoc).
    assert (offset + lc_size c = lcs_size (done_ ++ [c])) as Ho'.
    { rewrite lcs_size_app, lcs_size_cons. change (lcs_size []) with 0. lia. }
    rewrite filter_cons. cbn [snd]. fold (is_dylib c). rewrite <- (Z.add_assoc _ offset (lc_size c)).
    destruct (is_dylib c) eqn:Es; cbn [negb].
    + rewrite decide_True by done. destruct (Z.eqb_spec idx ordinal) as [->|Hne].
      * rewrite (proj2 (Z.ltb_ge _ _)), Z.sub_diag by lia. cbn [fmap option_fmap option_map fst snd list_lookup lookup Z.to_nat].
        assert (names_ok c) as Hn.
        { rewrite Forall_forall in Hnames. apply Hnames. rewrite He, elem_of_app. right. by left. }
        destruct (nm_dylib c Hn Es) as (H4 & _).
        assert (peek32 (mh + 32 + offset + 8) m = Ret (dylib_name_off c) m) as Hn'.
        { apply dylib_field; [|done]. rewrite He, Ho. apply placed_at. }
        by rewrite (bind_ret _ _ _ _ _ Hn').
      * rewrite (IH fuel (done_ ++ [c])) by (done || lia).
        destruct (Z.ltb_spec ordinal idx), (Z.ltb_spec ordinal (idx + 1)); try lia; [done|].
        replace (Z.to_nat (ordinal - idx)) with (S (Z.to_nat (ordinal - (idx + 1)))) by lia. done.
    + rewrite decide_False by congruence. by rewrite (IH fuel (done_ ++ [c])) by (done || lia).
Qed.
Lemma dylib_name_eq ordinal :
  exists n, macho_dylib_name mh ordinal false m = Ret n m /\ print_name n m = Ret (dylib_text e ordinal) m.
Proof using All.
  unfold macho_dylib_name. rewrite (bind_ret _ _ _ _ _ (magic_eq pre post e m mh Hm Hmh)).
  rewrite (bind_ret get _ m m m eq_refl). change (lc_start MH_MAGIC_64 mh) with (mh + 32).
  rewrite (dylib_name_loop_eq ordinal (e_cmds e) (S (length m)) [] 1 0) by (done || apply enough_fuel).
  eexists. split; [reflexivity|]. unfold dylib_text. rewrite Z.add_0_r.
  destruct (ordinal <? 1); [done|]. rewrite <- (placed_filter is_dylib (mh + 32)), !list_lookup_fmap.
  destruct (filter (fun x : Z * lcmd => is_dylib x.2 = true) (placed (mh + 32) (e_cmds e)) !! Z.to_nat (ordinal - 1)) as [[a c]|] eqn:E;
    cbn [fmap option_fmap option_map fst snd]; [|done].
  apply list_elem_of_lookup_2 in E. apply list_elem_of_filter in E as [Hs Hin]. cbn [snd] in Hs.
  destruct (body_split a c Hin) as (x & y & Hx & Ha & Hc). rewrite Forall_forall in Hnames.
  destruct (nm_dylib c (Hnames c Hc) Hs) as (_ & [Ho1 Ho2] & Hu). cbn [print_name].
  set (d := Z.to_nat (dylib_name_off c - 8)) in *.
  rewrite <- (take_drop d (c_body c)) in Hx. rewrite <- app_assoc, app_assoc in Hx.
  erewrite bind_ret; [|eapply (c_string_at (x ++ take d (c_body c)) (drop d (c_body c)) y); [exact Hx| |exact Hu]].
  - done.
  - rewrite length_app, length_take. unfold lc_size in Ho2. lia.
Qed.
End names.

(** ** Streams of opcodes *)

Inductive bind_op :=
  | BDone | BOrdinal (ordinal : Z) | BOrdinalUleb (ordinal : Z) | BSpecial (imm : Z)
  | BSymbol (flags : Z) (symbol : list Z) | BType (type : Z) | BAddend (addend : Z)
  | BSegment (seg_index seg_offset : Z) | BAddAddr (skip : Z) | BBind | BBindAdd (skip : Z) | BBindScaled (imm : Z)
  | BBindTimes (count skip : Z) | BTableSize (size : Z) | BApply.
Definition op_code (o : bind_op) : Z :=
  match o with
  | BDone => BIND_OPCODE_DONE | BOrdinal _ => BIND_OPCODE_SET_DYLIB_ORDINAL_IMM
  | BOrdinalUleb _ => BIND_OPCODE_SET_DYLIB_ORDINAL_ULEB | BSpecial _ => BIND_OPCODE_SET_DYLIB_SPECIAL_IMM
  | BSymbol _ _ => BIND_OPCODE_SET_SYMBOL_TRAILING_FLAGS_IMM | BType _ => BIND_OPCODE_SET_TYPE_IMM
  | BAddend _ => BIND_OPCODE_SET_ADDEND_SLEB | BSegment _ _ => BIND_OPCODE_SET_SEGMENT_AND_OFFSET_ULEB
  | BAddAddr _ => BIND_OPCODE_ADD_ADDR_ULEB | BBind => BIND_OPCODE_DO_BIND
  | BBindAdd _ => BIND_OPCODE_DO_BIND_ADD_ADDR_ULEB | BBindScaled _ => BIND_OPCODE_DO_BIND_ADD_ADDR_IMM_SCALED
  | BBindTimes _ _ => BIND_OPCODE_DO_BIND_ULEB_TIMES_SKIPPING_ULEB
  | BTableSize _ | BApply => BIND_OPCODE_THREADED
  end.
Definition op_imm (o : bind_op) : Z :=
  match o with
  | BOrdinal n | BSpecial n | BSymbol n _ | BType n | BSegment n _ | BBindScaled n => n
  | BApply => BIND_SUBOPCODE_THREADED_APPLY
  | _ => 0
  end.
Definition uleb (v : Z) : list Z := default [] (encode_uleb128 v).
Definition sleb (v : Z) : list Z := default [] (encode_sleb128 v).
Definition operand (o : bind_op) : list Z :=
  match o with
  | BOrdinalUleb v => uleb (u64 v)
  | BSymbol _ s => s ++ [0]
  | BAddend v => sleb v
  | BSegment _ v | BAddAddr v | BBindAdd v | BTableSize v => uleb v
  | BBindTimes c v => uleb c ++ uleb v
  | _ => []
  end.
Definition op_bytes (o : bind_op) : list Z := (op_code o + op_imm o) :: operand o.
Definition op_ok (o : bind_op) : Prop :=
  0 <= op_imm o < 16 /\
  match o with
  | BOrdinalUleb v | BAddend v => in_s 64 v
  | BSymbol _ s => Forall (fun x => x <> 0) s
  | BSegment _ v | BAddAddr v | BBindAdd v | BTableSize v => in_u 64 v
  | BBindTimes c v => in_u 64 c /\ in_u 64 v
  | _ => True
  end.
Definition op_len (o : bind_op) : Z := Z.of_nat (length (op_bytes o)).
Definition stream (ops : list bind_op) : list Z := concat (op_bytes <$> ops).
Definition stream_len (ops : list bind_op) : Z := Z.of_nat (length (stream ops)).

Lemma op_len_pos o : 1 <= op_len o.
Proof. unfold op_len, op_bytes. cbn [length]. lia. Qed.
Lemma stream_len_cons o ops : stream_len (o :: ops) = op_len o + stream_len ops.
Proof. unfold stream_len, stream, op_len. cbn [fmap list_fmap concat]. rewrite length_app. lia. Qed.
Lemma stream_app xs ys : stream (xs ++ ys) = stream xs ++ stream ys.
Proof. unfold stream. by rewrite fmap_app, concat_app. Qed.
Lemma stream_len_app xs ys : stream_len (xs ++ ys) = stream_len xs + stream_len ys.
Proof. unfold stream_len. rewrite stream_app, length_app. lia. Qed.

(** The two halves of a byte. *)
Definition halves : bool :=
  forallb (fun h => forallb (fun i => (Z.land (16 * h + i) 240 =? 16 * h) && (Z.land (16 * h + i) 15 =? i)) (seqZ 0 16)) (seqZ 0 16).
Lemma halves_ok h i : 0 <= h < 16 -> 0 <= i < 16 -> Z.land (16 * h + i) 240 = 16 * h /\ Z.land (16 * h + i) 15 = i.
Proof.
  intros Hh Hi. assert (halves = true) as Hv by (vm_compute; reflexivity). unfold halves in Hv.
  rewrite List.forallb_forall in Hv. specialize (Hv h). rewrite List.forallb_forall in Hv.
  assert (forall x, 0 <= x < 16 -> List.In x (seqZ 0 16)) as Hin by (intros x Hx; apply list_elem_of_In, elem_of_seqZ; lia).
  specialize (Hv (Hin h Hh) i (Hin i Hi)). apply andb_true_iff in Hv as [H1 H2]. split; by apply Z.eqb_eq.
Qed.
Lemma op_halves o : op_ok o ->
  Z.land (op_code o + op_imm o) BIND_OPCODE_MASK = op_code o /\ Z.land (op_code o + op_imm o) BIND_IMMEDIATE_MASK = op_imm o.
Proof.
  intros [Hi _]. assert (exists h, 0 <= h < 16 /\ op_code o = 16 * h) as (h & Hh & ->).
  { destruct o; cbn [op_code]; eexists; (split; [|match goal with |- ?c = 16 * _ => instantiate (1 := c / 16); reflexivity end]); vm_compute; split; congruence. }
  by apply halves_ok.
Qed.
Lemma decode_uleb v rest : in_u 64 v -> decode_uleb128 (uleb v ++ rest) = Some (v, rest).
Proof. intros Hv. destruct (uleb128_roundtrip v rest Hv) as (bs & E & D). unfold uleb. by rewrite E. Qed.
Lemma decode_sleb v rest : in_s 64 v -> decode_sleb128 (sleb v ++ rest) = Some (v, rest).
Proof. intros Hv. destruct (sleb128_roundtrip v rest Hv) as (bs & E & D). unfold sleb. by rewrite E. Qed.
Lemma s64_u64 v : in_s 64 v -> s64 (u64 v) = v.
Proof.
  intros Hv. unfold wrapu, wraps. rewrite Zplus_mod_idemp_l. fold (wraps 64 v). by apply wraps_small.
Qed.

Lemma u32_add x y : u32 (u32 x + y) = u32 (x + y).
Proof. unfold wrapu. by rewrite Zplus_mod_idemp_l. Qed.
Lemma u64_range v : in_u 64 (u64 v).
Proof. apply wrapu_range. lia. Qed.

Lemma special_big imm : 0 <= imm -> 240 <= Z.lor imm BIND_OPCODE_MASK.
Proof.
  intros Hi. assert (Z.ldiff BIND_OPCODE_MASK (Z.lor imm BIND_OPCODE_MASK) = 0) as Hd.
  { apply Z.bits_inj'. intros j Hj. rewrite Z.ldiff_spec, Z.lor_spec, Z.bits_0. by destruct (Z.testbit imm j), (Z.testbit BIND_OPCODE_MASK j). }
  apply Z.ldiff_le in Hd; [unfold BIND_OPCODE_MASK in *; lia|]. apply Z.lor_nonneg. unfold BIND_OPCODE_MASK. lia.
Qed.
(** The byte of the next operation, and what follows it. *)
Lemma next_op (m : image) (a b : list Z) ops done_ o rest : m = a ++ stream ops ++ b -> ops = done_ ++ o :: rest ->
  peek8 (Z.of_nat (length a) + stream_len done_) m = Ret (op_code o + op_imm o) m /\
  m = (a ++ stream done_ ++ [op_code o + op_imm o]) ++ operand o ++ stream rest ++ b.
Proof.
  intros Hstream E. assert (m = (a ++ stream done_) ++ (op_code o + op_imm o) :: operand o ++ stream rest ++ b) as Hs.
  { rewrite Hstream, E, stream_app. change (stream (o :: rest)) with (op_bytes o ++ stream rest). unfold op_bytes.
    rewrite <- !app_assoc. done. }
  split.
  - eapply peek8_at; [exact Hs|]. rewrite length_app. unfold stream_len. lia.
  - rewrite Hs, <- !app_assoc. done.
Qed.
Lemma op_ok_at ops done_ o rest : Forall op_ok ops -> ops = done_ ++ o :: rest -> op_ok o.
Proof. intros Hops E. rewrite E in Hops. by apply Forall_app in Hops as [_ [? _]%Forall_cons]. Qed.

(** ** What is to be printed of a stream *)

(** The immediate of a special library is the low half of a negative byte. *)
Definition special_ordinal (imm : Z) : Z := if imm =? 0 then 0 else imm - 16.
Definition special_text (ordinal : Z) : text :=
  if ordinal =? 0 then TStatic (cs "BIND_SPECIAL_DYLIB_SELF")
  else if ordinal =? -1 then TStatic (cs "BIND_SPECIAL_DYLIB_MAIN_EXECUTABLE")
  else if ordinal =? -2 then TStatic (cs "BIND_SPECIAL_DYLIB_FLAT_LOOKUP") else TNull.
(** A line per operation, with its values and the names they stand for. *)
Definition op_line (e : exe) (offset : Z) (o : bind_op) : line :=
  let shown args := LOp offset (op_code o) args in
  match o with
  | BDone | BBind => shown []
  | BOrdinal n | BOrdinalUleb n => shown [ANum n; AText (dylib_text e n)]
  | BSpecial imm => shown [ANum (special_ordinal imm); AText (special_text (special_ordinal imm))]
  | BSymbol flags s => shown [ANum flags; AText (TBytes s)]
  | BType n | BAddend n | BAddAddr n => shown [ANum n]
  | BSegment i v => shown [ANum i; AText (segment_text e i); ANum v]
  | BBindAdd v => shown [ANum v]
  | BBindScaled i => shown [ANum (8 * i + 8)]
  | BBindTimes c v => shown [ANum c; ANum v]
  | BTableSize v => LThreaded offset BIND_SUBOPCODE_THREADED_SET_BIND_ORDINAL_TABLE_SIZE_ULEB [ANum v]
  | BApply => LThreaded offset BIND_SUBOPCODE_THREADED_APPLY []
  end.
Fixpoint stream_lines (e : exe) (offset : Z) (ops : list bind_op) : list line :=
  match ops with [] => [] | o :: ops => op_line e offset o :: stream_lines e (offset + op_len o) ops end.

(** ** What the code prints *)

(** Two operations are printed otherwise: the ordinal of a special library but
    the first is not sign-extended and gets no name, and a [BBindAdd] is printed
    twice, the second time as if it were a [BBindScaled] of 0. *)
Definition printed_op (e : exe) (offset : Z) (o : bind_op) : list line :=
  match o with
  | BSpecial imm =>
    if imm =? 0 then [op_line e offset o] else [LOp offset (op_code o) [ANum (Z.lor imm BIND_OPCODE_MASK); AText TNull]]
  | BBindAdd _ => [op_line e offset o; LOp offset (op_code o) [ANum 8]]
  | _ => [op_line e offset o]
  end.
Fixpoint printed_lines (e : exe) (offset : Z) (ops : list bind_op) : list line :=
  match ops with [] => [] | o :: ops => printed_op e offset o ++ printed_lines e (offset + op_len o) ops end.
(** The operations the code prints as it should. *)
Definition plain (o : bind_op) : Prop :=
  match o with BSpecial imm => imm = 0 | BBindAdd _ => False | _ => True end.
Lemma plain_lines e ops : Forall plain ops -> forall offset, printed_lines e offset ops = stream_lines e offset ops.
Proof.
  induction 1 as [|o ops Ho _ IH]; intros offset; [done|]. cbn [printed_lines stream_lines]. rewrite IH.
  destruct o; try done. cbn in Ho. by subst.
Qed.
(** Other operations are not printed so. *)
Lemma special_misprinted e offset imm : 0 < imm < 16 -> printed_op e offset (BSpecial imm) <> [op_line e offset (BSpecial imm)].
Proof.
  intros Hi. unfold printed_op. rewrite (proj2 (Z.eqb_neq imm 0)) by lia. intros [= H _].
  pose proof (special_big imm ltac:(lia)). unfold special_ordinal in H. rewrite (proj2 (Z.eqb_neq imm 0)) in H by lia. lia.
Qed.
Lemma bind_add_twice e offset v : printed_op e offset (BBindAdd v) <> [op_line e offset (BBindAdd v)].
Proof. done. Qed.
Definition is_symbol (o : bind_op) : bool := match o with BSymbol _ _ => true | _ => false end.
Definition symbols (ops : list bind_op) : Z := Z.of_nat (length (filter is_symbol ops)).

(** The immediate of the special libraries -1 and -2 is not sign-extended: no
    special library but the first has a name. *)
Lemma special_unnamed mh imm m : 0 < imm < 16 -> macho_dylib_name mh (Z.lor imm BIND_OPCODE_MASK) true m = Ret None m.
Proof.
  intros Hi. pose proof (special_big imm ltac:(lia)) as Hk. set (k := Z.lor imm BIND_OPCODE_MASK) in *.
  unfold macho_dylib_name. by rewrite !(proj2 (Z.eqb_neq k _)) by lia.
Qed.
(** The search for a library does not get past a command of size 0. *)
Lemma dylib_search_hangs fuel mh start sizeofcmds offset c idx ordinal m :
  mh_sizeofcmds mh m = Ret sizeofcmds m -> 0 <= offset < sizeofcmds -> sizeofcmds < 2 ^ 32 ->
  lc_cmdsize (start + offset) m = Ret 0 m -> lc_cmd (start + offset) m = Ret c m -> is_dylib_cmd c = false ->
  dylib_name_loop fuel mh start offset idx ordinal m = NoFuel.
Proof.
  intros Hz Ho Hs Hcs Hc Hd. induction fuel as [|fuel IH]; [done|]. cbn [dylib_name_loop].
  rewrite (bind_ret _ _ _ _ _ Hz), (proj2 (Z.ltb_lt _ _)) by lia. cbv zeta.
  rewrite (bind_ret _ _ _ _ _ Hcs), (bind_ret _ _ _ _ _ Hc), Hd. cbn [negb].
  rewrite Z.add_0_r, wrapu_small by (unfold in_u; lia). exact IH.
Qed.

(** Comparisons of constants are evaluated. *)
Ltac consts := repeat match goal with
  | |- context [Z.eqb ?a ?b] =>
    let r := eval vm_compute in (Z.eqb a b) in
    match r with true => change (Z.eqb a b) with true | false => change (Z.eqb a b) with false end
  end; cbv iota zeta.

Section printing.
Context {K : Type} `{!MachoSys K, !ParseSys K}.
Context (pre post : list Z) (e : exe) (m : image) (mh : Z).
Context (Hm : m = pre ++ exe_bytes e ++ post) (Hmh : mh = Z.of_nat (length pre)) (Hok : lcs_ok (e_cmds e)).
Context (Hnames : Forall names_ok (e_cmds e)).
Implicit Types s : parser K.

Definition says (ls : list line) s : parser K := Parser (p_img s) (p_out s ++ ls) (p_k s).
Lemma says_says a b s : says b (says a s) = says (a ++ b) s.
Proof. unfold says. cbn. by rewrite app_assoc. Qed.
Lemma says_nil s : says [] s = s.
Proof. unfold says. rewrite app_nil_r. by destruct s. Qed.
Lemma rd_ret {A} (f : M image A) a s : f (p_img s) = Ret a (p_img s) -> rd f s = Ret a s.
Proof. intros E. unfold rd. rewrite E. by destruct s. Qed.
Lemma emit_ret l s : emit l s = Ret tt (says [l] s).
Proof. done. Qed.
Lemma show_ret n t s : print_name n (p_img s) = Ret t (p_img s) -> show n s = Ret t s.
Proof. apply rd_ret. Qed.

(** An operand that starts at [itr]. *)
Lemma uleb_ret (a b : list Z) v itr s : p_img s = a ++ uleb v ++ b -> itr = Z.of_nat (length a) -> in_u 64 v ->
  rd (uleb_at itr) s = Ret (v, itr + Z.of_nat (length (uleb v))) s.
Proof. intros Hs Hi Hv. apply rd_ret. eapply scan_at; [exact Hs|exact Hi|by apply decode_uleb]. Qed.
Lemma sleb_ret (a b : list Z) v itr s : p_img s = a ++ sleb v ++ b -> itr = Z.of_nat (length a) -> in_s 64 v ->
  rd (sleb_at itr) s = Ret (v, itr + Z.of_nat (length (sleb v))) s.
Proof. intros Hs Hi Hv. apply rd_ret. eapply scan_at; [exact Hs|exact Hi|by apply decode_sleb]. Qed.
Lemma text_ret (a b : list Z) x itr s : p_img s = a ++ (x ++ [0]) ++ b -> itr = Z.of_nat (length a) -> Forall (fun x => x <> 0) x ->
  rd (scan itr until_nul) s = Ret (x, itr + Z.of_nat (length (x ++ [0]))) s.
Proof. intros Hs Hi Hv. apply rd_ret. eapply scan_at; [exact Hs|exact Hi|by apply until_nul_text]. Qed.

Lemma dylib_ret n s : p_img s = m -> exists d, rd (macho_dylib_name mh n false) s = Ret d s /\ show d s = Ret (dylib_text e n) s.
Proof using Hm Hmh Hok Hnames.
  intros Hs. destruct (dylib_name_eq pre post e m mh Hm Hmh Hok Hnames n) as (d & H1 & H2). exists d.
  split; [apply rd_ret|apply show_ret]; by rewrite Hs.
Qed.
Lemma segment_ret n s : 0 <= n -> p_img s = m ->
  exists d, rd (macho_segment_name mh n) s = Ret d s /\ show d s = Ret (segment_text e n) s.
Proof using Hm Hmh Hok Hnames.
  intros Hn Hs. destruct (segment_name_eq pre post e m mh Hm Hmh Hok Hnames n Hn) as (d & H1 & H2). exists d.
  split; [apply rd_ret|apply show_ret]; by rewrite Hs.
Qed.

(** One turn of the switch. *)
Lemma print_opcode_eq o (a b : list Z) itr offset s : op_ok o -> p_img s = m -> m = a ++ operand o ++ b -> itr = Z.of_nat (length a) ->
  print_opcode mh (op_code o) (op_imm o) itr offset s =
    Ret (itr + Z.of_nat (length (operand o)), if is_symbol o then 1 else 0) (says (printed_op e offset o) s).
Proof using Hm Hmh Hok Hnames.
  intros [Hi Ho] Hs Ha Hitr. rewrite <- Hs in Ha.
  destruct o as [|n|n|imm|f x|t|v|i v|v| |v|i|c v|v|]; cbn [op_code op_imm printed_op op_line is_symbol operand] in *; unfold print_opcode; consts;
    rewrite ?Z.add_0_r; try reflexivity.
  - destruct (dylib_ret n s Hs) as (d & H1 & H2). rewrite (bind_ret _ _ _ _ _ H1), (bind_ret _ _ _ _ _ H2). reflexivity.
  - rewrite (bind_ret _ _ _ _ _ (uleb_ret a b _ itr s Ha Hitr (u64_range n))). rewrite s64_u64 by done.
    destruct (dylib_ret n s Hs) as (d & H1 & H2). rewrite (bind_ret _ _ _ _ _ H1), (bind_ret _ _ _ _ _ H2). reflexivity.
  - destruct (Z.eqb_spec imm 0) as [->|Hn]; cbn [negb]; [reflexivity|].
    pose proof (special_big imm (proj1 Hi)) as Hk. set (k := Z.lor imm BIND_OPCODE_MASK) in *.
    unfold macho_dylib_name. rewrite !(proj2 (Z.eqb_neq k _)) by lia.
    erewrite bind_ret by (apply rd_ret; reflexivity). reflexivity.
  - rewrite (bind_ret _ _ _ _ _ (text_ret a b x itr s Ha Hitr Ho)). reflexivity.
  - rewrite (bind_ret _ _ _ _ _ (sleb_ret a b v itr s Ha Hitr Ho)). reflexivity.
  - destruct (segment_ret i s (proj1 Hi) Hs) as (d & H1 & H2). rewrite (bind_ret _ _ _ _ _ H1).
    rewrite (bind_ret _ _ _ _ _ (uleb_ret a b v itr s Ha Hitr Ho)), (bind_ret _ _ _ _ _ H2). reflexivity.
  - rewrite (bind_ret _ _ _ _ _ (uleb_ret a b v itr s Ha Hitr Ho)). reflexivity.
  - rewrite (bind_ret _ _ _ _ _ (uleb_ret a b v itr s Ha Hitr Ho)).
    rewrite (bind_ret _ _ _ _ _ (emit_ret _ s)), (bind_ret _ _ _ _ _ (emit_ret _ _)), says_says. reflexivity.
  - rewrite (bind_ret _ _ _ _ _ (emit_ret _ s)). unfold sizeof_pointer. by rewrite (Z.mul_comm i 8).
  - destruct Ho as [Hc Hv]. rewrite <- app_assoc in Ha.
    rewrite (bind_ret _ _ _ _ _ (uleb_ret a _ c itr s Ha Hitr Hc)). rewrite app_assoc in Ha.
    rewrite (bind_ret _ _ _ _ _ (uleb_ret (a ++ uleb c) b v (itr + Z.of_nat (length (uleb c))) s Ha ltac:(rewrite length_app; lia) Hv)).
    rewrite (bind_ret _ _ _ _ _ (emit_ret _ s)). rewrite length_app, Nat2Z.inj_add, Z.add_assoc. reflexivity.
  - unfold macho_print_threaded_opcode. consts. rewrite bind_assoc.
    rewrite (bind_ret _ _ _ _ _ (uleb_ret a b v itr s Ha Hitr Ho)). reflexivity.
Qed.

(** The stream's place in the image. *)
Context (a b : list Z) (ops : list bind_op).
Context (Hstream : m = a ++ stream ops ++ b) (Hops : Forall op_ok ops).
Let op_start : Z := Z.of_nat (length a).

Lemma print_loop_eq rest : forall fuel done_ n k s, ops = done_ ++ rest -> p_img s = m -> stream_len rest < Z.of_nat fuel ->
  print_opcodes_loop fuel mh op_start (op_start + stream_len ops) (op_start + stream_len done_) (u32 n) (u32 k) s =
    Ret (u32 (n + symbols rest), u32 (k + Z.of_nat (length rest))) (says (printed_lines e (stream_len done_) rest) s).
Proof using Hm Hmh Hok Hnames Hstream Hops.
  induction rest as [|o rest IH]; intros [|fuel] done_ n k s E Hs Hf; try (unfold stream_len in Hf; lia); cbn [print_opcodes_loop printed_lines].
  - rewrite E, app_nil_r, (proj2 (Z.ltb_ge _ _)) by lia. unfold symbols. cbn [filter length]. rewrite says_nil, !Z.add_0_r. done.
  - pose proof (op_len_pos o) as Hp. rewrite stream_len_cons in Hf.
    assert (op_start + stream_len done_ < op_start + stream_len ops) as Hlt.
    { rewrite E, stream_len_app, stream_len_cons. unfold stream_len at 3. lia. }
    rewrite (proj2 (Z.ltb_lt _ _) Hlt). destruct (next_op m a b ops done_ o rest Hstream E) as [Hpk Hsplit].
    pose proof (op_ok_at ops done_ o rest Hops E) as Ho. destruct (op_halves o Ho) as [Hh Hl].
    rewrite (bind_ret _ _ _ _ _ (rd_ret _ _ s ltac:(rewrite Hs; exact Hpk))), Hh, Hl.
    rewrite (bind_ret _ _ _ _ _ (print_opcode_eq o _ _ (op_start + stream_len done_ + 1) (op_start + stream_len done_ - op_start) s Ho Hs Hsplit
      ltac:(rewrite !length_app; unfold op_start, stream_len; cbn [length]; lia))).
    assert (op_start + stream_len done_ + 1 + Z.of_nat (length (operand o)) = op_start + stream_len (done_ ++ [o])) as ->.
    { rewrite stream_len_app, stream_len_cons. unfold op_len, op_bytes, stream_len. cbn [length stream fmap list_fmap concat]. lia. }
    replace (op_start + stream_len done_ - op_start) with (stream_len done_) by lia.
    assert (ops = (done_ ++ [o]) ++ rest) as E' by (by rewrite <- app_assoc).
    rewrite !u32_add.
    rewrite (IH fuel _ _ _ (says (printed_op e (stream_len done_) o) s) E' Hs) by lia.
    rewrite says_says, stream_len_app. change (stream_len [o]) with (Z.of_nat (length (op_bytes o ++ []))). rewrite app_nil_r. fold (op_len o).
    f_equal. f_equal; f_equal.
    + unfold symbols. rewrite filter_cons. destruct (is_symbol o) eqn:Ey.
      * rewrite decide_True by done. cbn [length]. lia.
      * rewrite decide_False by (intros []). lia.
    + cbn [length]. lia.
Qed.

Lemma print_opcodes_eq which cmd off s : bind_area which cmd m = Ret (Some (off, stream_len ops)) m -> op_start = mh + off -> p_img s = m ->
  macho_print_opcodes (Info mh cmd) which s =
    Ret 0 (says (LTitle which :: printed_lines e 0 ops ++ [LTotals (u32 (Z.of_nat (length ops))) (u32 (symbols ops)) (stream_len ops)]) s).
Proof using Hm Hmh Hok Hnames Hstream Hops.
  intros Hb Ho Hs. unfold macho_print_opcodes. cbn [i_cmd i_mh].
  rewrite (bind_ret _ _ _ _ _ (rd_ret _ _ s ltac:(rewrite Hs; exact Hb))). cbn iota zeta.
  rewrite (bind_ret _ _ _ _ _ (emit_ret _ s)), <- Ho.
  pose proof (print_loop_eq ops (S (Z.to_nat (stream_len ops))) [] 0 0 (says [LTitle which] s) eq_refl Hs) as Hl.
  change (stream_len []) with 0 in Hl. rewrite Z.add_0_r in Hl. change (u32 0) with 0 in Hl.
  rewrite (bind_ret _ _ _ _ _ (Hl ltac:(unfold stream_len; lia))), (bind_ret _ _ _ _ _ (emit_ret _ _)), !says_says. done.
Qed.
End printing.
