(* ===== verification/MachoChains.v ===== *)
(** Fixup chains: what [macho_parse_fixup_chains] of [MachoParse] prints of an
    executable whose bind stream is a list of operations. *)

From S2P Require Import Prelude Bytes Leb128 Cstr Path Io Mapping Macho MachoParse MachoParseProps.
Open Scope Z_scope.

(** ** What a stream means *)

(** A symbol of the table: the name as bytes. *)
Record sym := Sym { y_symbol : option (list Z); y_ordinal : Z; y_special : bool; y_addend : Z; y_flags : Z; y_type : Z }.
Definition no_sym : sym := Sym None 0 false 0 0 0.
(** A location to fix up: its address, the segment, and the symbol it is bound
    to ([no_sym] for a rebase). *)
Record location := Location { x_addr : Z; x_segment : Z; x_sym : sym }.
(** The state of the stream machine: the symbol and the location being
    described, the table, and the locations of the chains applied so far. *)
Record machine := Machine { cur : sym; seg : Z; off : Z; table : list sym; fixes : list location }.
Definition start : machine := Machine no_sym 0 0 [] [].

Definition describe (f : sym -> sym) (x : machine) : machine := Machine (f (cur x)) (seg x) (off x) (table x) (fixes x).
Definition exec_op (o : bind_op) (x : machine) : machine :=
  match o with
  | BBind => Machine (cur x) (seg x) (off x) (table x ++ [cur x]) (fixes x)
  | BOrdinal n | BOrdinalUleb n => describe (fun y => Sym (y_symbol y) n false (y_addend y) (y_flags y) (y_type y)) x
  | BSpecial imm =>
    describe (fun y => Sym (y_symbol y) (special_ordinal imm) true (y_addend y) (y_flags y) (y_type y)) x
  | BSymbol flags s => describe (fun y => Sym (Some s) (y_ordinal y) (y_special y) (y_addend y) flags (y_type y)) x
  | BType t => describe (fun y => Sym (y_symbol y) (y_ordinal y) (y_special y) (y_addend y) (y_flags y) t) x
  | BAddend v => describe (fun y => Sym (y_symbol y) (y_ordinal y) (y_special y) v (y_flags y) (y_type y)) x
  | BSegment i v => Machine (cur x) i v (table x) (fixes x)
  | _ => x
  end.
(** The operations of a stream with chains, of the special libraries the first. *)
Definition chained (o : bind_op) : Prop :=
  match o with BAddAddr _ | BBindAdd _ | BBindScaled _ | BBindTimes _ _ => False | BSpecial imm => imm = 0 | _ => True end.

(** The words of a chain: each says how far the next one is, the last one 0. *)
Definition link (w : Z) : Z := bits w 51 11.
Inductive chain_at (m : image) : Z -> list (Z * Z) -> Prop :=
  | chain_last p w : peek64 p m = Ret w m -> link w = 0 -> chain_at m p [(p, w)]
  | chain_more p w l : peek64 p m = Ret w m -> link w <> 0 -> chain_at m (p + 8 * link w) l -> chain_at m p ((p, w) :: l).
(** The location [p], whose word is [w], in a chain that can use the table
    [ys]. *)
Definition bound_at (ys : list sym) (i : Z) (pw : Z * Z) (f : location) : Prop :=
  x_addr f = pw.1 /\ x_segment f = i /\
  if Z.testbit pw.2 62 then ys !! Z.to_nat (bits pw.2 0 16) = Some (x_sym f) else x_sym f = no_sym.

(** Where a segment is in the file. *)
Definition fileoff (c : lcmd) : Z :=
  le_val (if c_cmd c =? LC_SEGMENT then take 4 (drop 24 (c_body c)) else take 8 (drop 32 (c_body c))).
Definition segment_whole (c : lcmd) : Prop := is_segment c = true -> (40 <= length (c_body c))%nat.

(** [BApply] adds the locations of the chain it starts. *)
Definition walked (m : image) (mh : Z) (e : exe) (x : machine) (fs : list location) : Prop :=
  exists c l, filter is_segment (e_cmds e) !! Z.to_nat (seg x) = Some c /\ in_u 64 (fileoff c + off x) /\
    chain_at m (mh + fileoff c + off x) l /\ Forall2 (bound_at (table x) (seg x)) l fs.
Inductive exec (m : image) (mh : Z) (e : exe) : machine -> list bind_op -> machine -> Prop :=
  | exec_nil x : exec m mh e x [] x
  | exec_apply x fs ops x' : walked m mh e x fs ->
      exec m mh e (Machine (cur x) (seg x) (off x) (table x) (fixes x ++ fs)) ops x' -> exec m mh e x (BApply :: ops) x'
  | exec_cons x o ops x' : o <> BApply -> exec m mh e (exec_op o x) ops x' -> exec m mh e x (o :: ops) x'.

(** ** What is printed of a location *)

Definition type_text (t : Z) : text :=
  if t =? 1 then TStatic (cs "BIND_TYPE_POINTER")
  else if t =? 2 then TStatic (cs "BIND_TYPE_TEXT_ABSOLUTE32")
  else if t =? 3 then TStatic (cs "BIND_TYPE_TEXT_PCREL32") else TNull.
Definition flags_text (flags : Z) : text :=
  if flags =? 0 then TStatic (cs "NONE")
  else if flags =? 1 then TStatic (cs "BIND_SYMBOL_FLAGS_WEAK_IMPORT")
  else if flags =? 8 then TStatic (cs "BIND_SYMBOL_FLAGS_NON_WEAK_DEFINITION") else TNull.
(** The tables of names have no entry for other types and flags. *)
Definition sym_ok (y : sym) : Prop := y_type y <= 3 /\ y_flags y <= 8.
Definition library_text (e : exe) (y : sym) : text :=
  if y_special y then special_text (y_ordinal y) else dylib_text e (y_ordinal y).
Definition name_text (s : option (list Z)) : text := match s with Some l => TBytes l | None => TNull end.
Definition fix_line (e : exe) (w : Z) (f : location) : line :=
  let y := x_sym f in
  let s := segment_text e (x_segment f) in
  let bound kind first := LPtr kind (first ++ [AText (library_text e y); AText s; AText (name_text (y_symbol y));
    AText (flags_text (y_flags y)); AText (type_text (y_type y)); ANum (y_addend y)]) in
  let auth := [truth (Z.testbit w 48); AText (pac_key_str (bits w 49 2)); ANum (link w)] in
  match Z.testbit w 63, Z.testbit w 62 with
  | true, true => bound AuthBind ([ANum w; ANum (bits w 0 16); ANum (bits w 32 16)] ++ auth)
  | true, false => LPtr AuthRebase ([ANum w; ANum (bits w 0 32); ANum (bits w 32 16)] ++ auth ++ [AText s])
  | false, true => bound Bind [ANum w; ANum (bits w 0 16); ANum (bits w 32 19); ANum (link w)]
  | false, false => LPtr Rebase [ANum w; ANum (bits w 0 43); ANum (bits w 43 8); ANum (link w); AText s]
  end.
Fixpoint fix_lines (e : exe) (m : image) (i : Z) (fs : list location) : list line :=
  match fs with
  | [] => []
  | f :: fs => LFixup i :: fix_line e (match peek64 (x_addr f) m with Ret w _ => w | _ => 0 end) f :: fix_lines e m (i + 1) fs
  end.

(** ** The code's tables *)

Definition rep_text (m : image) (p : option Z) (t : option (list Z)) : Prop :=
  print_name (NAt <$> p) m = Ret (name_text t) m.
(** An entry of the code's table, and of its chain. *)
Record rep_sym (m : image) (x : fixup_entry) (y : sym) : Prop := {
  rs_text : rep_text m (f_symbol x) (y_symbol y);
  rs_ordinal : f_ordinal x = y_ordinal y;
  rs_special : f_special x = y_special y;
  rs_addend : f_addend x = y_addend y;
  rs_flags : f_flags x = y_flags y;
  rs_type : f_type x = y_type y
}.
Record rep_loc (m : image) (x : fixup_entry) (f : location) : Prop := {
  rl_sym : rep_sym m x (x_sym f);
  rl_addr : f_addr x = x_addr f;
  rl_seg : f_seg x = x_segment f;
  rl_pos : 0 <= x_segment f;
  rl_word : exists w, peek64 (x_addr f) m = Ret w m
}.

Lemma peek64_in p m w m' : peek64 p m = Ret w m' -> 0 <= p /\ p + 8 <= Z.of_nat (length m).
Proof.
  unfold peek64, mbind, M_bind, peek. destruct (in_image p 8 m) eqn:E; [|done]. intros _.
  unfold in_image in E. rewrite !andb_true_iff, !Z.leb_le in E. lia.
Qed.
Lemma link_pos w : link w <> 0 -> 1 <= link w.
Proof.
  unfold link, bits. intros Hn. pose proof (Z.land_nonneg (Z.shiftr w 51) (Z.ones 11)) as [_ H].
  assert (0 <= Z.ones 11) as Ho by done. specialize (H (or_intror Ho)). lia.
Qed.
Lemma chain_length m p l : chain_at m p l -> 0 <= p /\ p + 8 * Z.of_nat (length l) <= Z.of_nat (length m).
Proof.
  induction 1 as [p w Hw _|p w l Hw Hn _ [IH1 IH2] ]; apply peek64_in in Hw; cbn [length]; [lia|]. apply link_pos in Hn. lia.
Qed.
Lemma no_sym_rep m a i : rep_sym m (FEntry a None 0 0 i 0 0 false) no_sym.
Proof. by split. Qed.

Section chains.
Context {K : Type} `{!MachoSys K, !ParseSys K}.
Context (pre post : list Z) (e : exe) (m : image) (mh : Z).
Context (Hm : m = pre ++ exe_bytes e ++ post) (Hmh : mh = Z.of_nat (length pre)) (Hok : lcs_ok (e_cmds e)).
Context (Hnames : Forall names_ok (e_cmds e)) (Hwhole : Forall segment_whole (e_cmds e)) (Hlen : Z.of_nat (length m) < 2 ^ 64).
Context (Halloc : forall k : K, (pa_alloc k).1 = true).
Implicit Types s : parser K.

Lemma alloc_ret s : exists k, call pa_alloc s = Ret true (put_pk k s).
Proof using Halloc.
  unfold call. pose proof (Halloc (p_k s)) as H. destruct (pa_alloc (p_k s)) as [b k]. cbn in H. subst b. by exists k.
Qed.
Lemma put_pk_twice k k' s : put_pk k (put_pk k' s) = put_pk k s.
Proof. done. Qed.
Lemma put_pk_id s : put_pk (p_k s) s = s.
Proof. by destruct s. Qed.
Lemma grow_ret chain cap s : exists cap' k, grow chain cap s = Ret (Some cap') (put_pk k s).
Proof using Halloc.
  unfold grow. destruct (_ =? cap).
  - destruct (alloc_ret s) as [k E]. rewrite (bind_ret _ _ _ _ _ E). by eexists _, k.
  - exists cap, (p_k s). by rewrite put_pk_id.
Qed.

(** *** A chain *)

Lemma chain_entry_eq ords ys i p w f s : Forall2 (rep_sym m) (take (length ys) ords) ys -> 0 <= i -> bound_at ys i (p, w) f ->
  peek64 p m = Ret w m ->
  exists x, chain_entry p i w ords (Z.of_nat (length ys)) s = Ret (Some x) s /\ rep_loc m x f.
Proof.
  intros Hords Hi (Ha & Hf & Hb) Hw. cbn [fst snd] in *. unfold chain_entry. destruct (Z.testbit w 62).
  - change (Z.land w 0xFFFF) with (bits w 0 16). cbv zeta.
    destruct (Forall2_lookup_r _ _ _ _ _ Hords Hb) as (o & Ho & [R1 R2 R3 R4 R5 R6]). apply lookup_take_Some in Ho as [Ho Hlt].
    assert (0 <= bits w 0 16) as Hp by (unfold bits; apply Z.land_nonneg; right; done).
    rewrite (proj2 (Z.leb_gt _ _)), Ho by lia. eexists. split; [reflexivity|].
    split; [by split|done|done|by rewrite Hf|exists w; by rewrite Ha].
  - eexists. split; [reflexivity|]. split; [|done|done|by rewrite Hf|exists w; by rewrite Ha].
    rewrite Hb. apply no_sym_rep.
Qed.
Lemma walk_loop_eq ords ys i : Forall2 (rep_sym m) (take (length ys) ords) ys -> 0 <= i ->
  forall l fs fuel offset chain cap s, chain_at m (mh + offset) l -> Forall2 (bound_at ys i) l fs -> p_img s = m ->
  0 <= offset < 2 ^ 64 -> (length l < fuel)%nat ->
  exists es cap' k, walk_loop fuel mh i offset ords (Z.of_nat (length ys)) chain cap s = Ret (Some (chain ++ es, cap')) (put_pk k s) /\
    Forall2 (rep_loc m) es fs.
Proof using Hm Hmh Hlen Halloc.
  intros Hords Hi.
  induction l as [|[p w] l IH]; intros fs [|fuel] offset chain cap s Hc Hb Hs Ho Hf; cbn [length] in Hf; try lia; [inversion Hc|].
  apply Forall2_cons_inv_l in Hb as (f & fs' & Hbf & Hbs & ->). cbn [walk_loop].
  destruct (grow_ret chain cap s) as (cap' & k & Eg). rewrite (bind_ret _ _ _ _ _ Eg).
  assert (p = mh + offset /\ peek64 (mh + offset) m = Ret w m) as [-> Hw] by (inversion Hc; by subst).
  rewrite (bind_ret _ _ _ _ _ (rd_ret _ _ (put_pk k s) ltac:(cbn; rewrite Hs; exact Hw))).
  destruct (chain_entry_eq ords ys i (mh + offset) w f (put_pk k s) Hords Hi Hbf Hw) as (x & Ex & Hx). rewrite (bind_ret _ _ _ _ _ Ex).
  change (Z.land (Z.shiftr w 51) 0x7FF) with (link w). cbv zeta.
  inversion Hc as [q v Hv Hl Eq El|q v l' Hv Hl Hnext Eq El]; subst.
  - rewrite Hl. cbn [Z.eqb]. apply Forall2_nil_inv_l in Hbs as ->. eexists [x], cap', k. split; [done|]. by constructor.
  - rewrite (proj2 (Z.eqb_neq _ _) Hl). pose proof (chain_length _ _ _ Hnext) as [_ Hn]. pose proof (link_pos w Hl).
    rewrite wrapu_small by (unfold in_u; lia). rewrite (Z.mul_comm (link w) 8).
    destruct (IH fs' fuel (offset + 8 * link w) (chain ++ [x]) cap' (put_pk k s)) as (es & cap2 & k2 & E & Hes); try done; try lia.
    { by rewrite Z.add_assoc. }
    rewrite E, put_pk_twice. exists (x :: es), cap2, k2. split; [by rewrite <- app_assoc|by constructor].
Qed.

(** *** The segment of a chain *)

Lemma placed_cmd a c : (a, c) ∈ placed (mh + 32) (e_cmds e) -> peek32 a m = Ret (c_cmd c) m.
Proof using Hm Hmh Hok.
  intros (before & after & Hc & ->)%placed_in.
  destruct (command_fields ((pre ++ words false (header e)) ++ lcs_bytes before) c after (e_rest e ++ post) m (mh + 32 + lcs_size before)) as [H _].
  - rewrite (commands_split pre post e m Hm), Hc. unfold lcs_bytes. rewrite fmap_app, concat_app. by rewrite <- !app_assoc.
  - rewrite !length_app, words_length. cbn [header length]. unfold lcs_size. lia.
  - destruct Hok as [Hc1 Hc2]. rewrite Hc in Hc1, Hc2. apply Forall_app in Hc1 as [_ Hc1]. split; [done|].
    rewrite lcs_size_app in Hc2. unfold lcs_size in *. lia.
  - exact H.
Qed.
Lemma placed_fileoff a c : (a, c) ∈ placed (mh + 32) (e_cmds e) -> is_segment c = true ->
  (if c_cmd c =? LC_SEGMENT then peek32 (a + 32) else peek64 (a + 40)) m = Ret (fileoff c) m.
Proof using Hm Hmh Hwhole.
  intros Hin Hseg. destruct (body_split pre post e m mh Hm Hmh a c Hin) as (x & y & Hx & Ha & Hc).
  pose proof Hwhole as Hwh. rewrite Forall_forall in Hwh. specialize (Hwh c Hc Hseg).
  assert (forall n k p, m = x ++ (take n (c_body c) ++ take k (drop n (c_body c)) ++ drop k (drop n (c_body c))) ++ y /\
    ((n + k <= 40)%nat -> p = a + 8 + Z.of_nat n -> peek p (Z.of_nat k) m = Ret (take k (drop n (c_body c))) m)) as Hp.
  { intros n k p. assert (m = x ++ (take n (c_body c) ++ take k (drop n (c_body c)) ++ drop k (drop n (c_body c))) ++ y) as Hs.
    { by rewrite !take_drop. }
    split; [exact Hs|]. intros Hnk ->. rewrite <- !app_assoc, app_assoc in Hs.
    eapply (peek_at (x ++ take n (c_body c))); [exact Hs| |].
    - rewrite length_app, length_take. lia.
    - rewrite length_take, length_drop. lia. }
  unfold fileoff, peek32, peek64. destruct (c_cmd c =? LC_SEGMENT).
  - destruct (Hp 24%nat 4%nat (a + 32)) as [_ E]. change 4 with (Z.of_nat 4). by rewrite (bind_ret _ _ _ _ _ (E ltac:(lia) ltac:(lia))).
  - destruct (Hp 32%nat 8%nat (a + 40)) as [_ E]. change 8 with (Z.of_nat 8) at 1. by rewrite (bind_ret _ _ _ _ _ (E ltac:(lia) ltac:(lia))).
Qed.

Lemma walk_eq x fs ords cmd chain cap s : walked m mh e x fs -> 0 <= seg x -> in_u 64 (off x) ->
  Forall2 (rep_sym m) (take (length (table x)) ords) (table x) -> p_img s = m ->
  exists es cap' k, macho_walk_fixup_chain (Info mh cmd) (seg x) (off x) ords (Z.of_nat (length (table x))) chain cap s
      = Ret (Some (chain ++ es, cap')) (put_pk k s) /\ Forall2 (rep_loc m) es fs.
Proof using All.
  intros (c & l & Hc & Hu & Hl & Hb) Hi Ho Hords Hs. unfold macho_walk_fixup_chain. cbn [i_mh].
  rewrite (bind_ret (gets p_img) _ s m s) by (by rewrite <- Hs).
  pose proof (find_segment_eq pre post e m mh Hm Hmh (S (length m)) (seg x) Hok (enough_fuel pre post e m Hm) Hi) as Hf.
  rewrite (bind_ret _ _ _ _ _ (rd_ret _ _ s ltac:(rewrite Hs; exact Hf))).
  rewrite <- (placed_filter is_segment (mh + 32)), list_lookup_fmap in Hc.
  rewrite list_lookup_fmap.
  destruct (filter (fun x => is_segment x.2 = true) (placed (mh + 32) (e_cmds e)) !! Z.to_nat (seg x)) as [[a c']|] eqn:E; [|done].
  cbn in Hc. injection Hc as ->. cbn [fmap option_fmap option_map fst].
  apply list_elem_of_lookup_2 in E. apply list_elem_of_filter in E as [Hseg Hin]. cbn [snd] in Hseg.
  rewrite (bind_ret _ _ _ _ _ (rd_ret _ _ s ltac:(rewrite Hs; exact (placed_cmd a c Hin)))).
  assert ((if c_cmd c =? LC_SEGMENT then o ← rd (peek32 (a + 32)); mret (Some o)
           else if c_cmd c =? LC_SEGMENT_64 then o ← rd (peek64 (a + 40)); mret (Some o) else mret None) s = Ret (Some (fileoff c)) s) as Eo.
  { pose proof (placed_fileoff a c Hin Hseg) as Hfo. unfold is_segment in Hseg. destruct (c_cmd c =? LC_SEGMENT).
    - by rewrite (bind_ret _ _ _ _ _ (rd_ret _ _ s ltac:(rewrite Hs; exact Hfo))).
    - cbn [orb] in Hseg. rewrite Hseg. by rewrite (bind_ret _ _ _ _ _ (rd_ret _ _ s ltac:(rewrite Hs; exact Hfo))). }
  rewrite (bind_ret _ _ _ _ _ Eo).
  pose proof (chain_length _ _ _ Hl) as [Hl1 Hl2]. rewrite wrapu_small by done.
  eapply walk_loop_eq; try done; try lia.
  by rewrite Z.add_assoc.
Qed.

(** *** The stream *)

Record rep (n : nat) (b : bstate) (x : machine) : Prop := {
  rp_cur : rep_sym m (bind_symbol b) (cur x);
  rp_seg : b_seg b = seg x /\ 0 <= seg x;
  rp_off : b_off b = off x /\ in_u 64 (off x);
  rp_idx : b_idx b = Z.of_nat (length (table x));
  rp_len : length (b_table b) = n;
  rp_table : Forall2 (rep_sym m) (take (length (table x)) (b_table b)) (table x);
  rp_chain : Forall2 (rep_loc m) (b_chain b) (fixes x)
}.
Lemma text_of_nul y b : Forall (fun x => x <> 0) y -> text_of ((y ++ [0]) ++ b) = y.
Proof. intros Hy. unfold text_of. by rewrite until_nul_text. Qed.

Lemma parse_opcode_eq n o (a1 b1 : list Z) itr b x cmd s : op_ok o -> chained o -> o <> BApply -> rep n b x ->
  (length (table (exec_op o x)) <= n)%nat -> p_img s = m -> m = a1 ++ operand o ++ b1 -> itr = Z.of_nat (length a1) ->
  exists b', parse_opcode (Info mh cmd) (op_code o) (op_imm o) itr b s = Ret (Some (itr + Z.of_nat (length (operand o)), b')) s /\
    rep n b' (exec_op o x).
Proof.
  intros [Hi Ho] Hch Hna Hrep Hn Hs Ha Hitr. pose proof Hrep as [ [R1 R2 R3 R4 R5 R6] [Rs Rs'] [Rf Rf'] Rx Rl Rt Rc].
  pose proof Ha as Ham. rewrite <- Hs in Ha.
  destruct o as [|v|v|imm|f y|t|v|i v|v| |v|i|c v|v|]; try done; cbn [op_code op_imm operand exec_op] in *; unfold parse_opcode; consts;
    rewrite ?Z.add_0_r.
  - by exists b.
  - eexists. split; [reflexivity|]. split; try done; by split.
  - rewrite (bind_ret _ _ _ _ _ (uleb_ret a1 b1 _ itr s Ha Hitr (u64_range v))), s64_u64 by done.
    eexists. split; [reflexivity|]. split; try done; by split.
  - cbn in Hch. subst imm. eexists. split; [reflexivity|]. split; try done; by split.
  - rewrite (bind_ret _ _ _ _ _ (text_ret a1 b1 y itr s Ha Hitr Ho)). eexists. split; [reflexivity|]. split; try done. split; try done.
    unfold rep_text. cbn.
    rewrite (bind_ret _ _ _ _ _ (c_string_at a1 ((y ++ [0]) ++ b1) [] itr m ltac:(by rewrite app_nil_r) Hitr ltac:(rewrite until_nul_text by done; by eexists))).
    by rewrite text_of_nul.
  - eexists. split; [reflexivity|]. split; try done; by split.
  - rewrite (bind_ret _ _ _ _ _ (sleb_ret a1 b1 _ itr s Ha Hitr Ho)). eexists. split; [reflexivity|]. split; try done; by split.
  - rewrite (bind_ret _ _ _ _ _ (uleb_ret a1 b1 _ itr s Ha Hitr Ho)). eexists. split; [reflexivity|]. split; try done; cbn [b_seg b_off seg off set_seg]; (split; [done|by first [apply Ho | apply Hi] ]).
  - cbn [table] in Hn. rewrite length_app in Hn. cbn [length] in Hn. rewrite Rx, Rl, (proj2 (Z.leb_gt _ _)) by lia.
    eexists. split; [reflexivity|]. split; try done; cbn [table b_idx b_table set_table].
    + rewrite length_app. cbn. lia.
    + by rewrite length_insert.
    + rewrite length_app, Nat2Z.id. cbn [length].
      assert (length (table x) < length (b_table b))%nat as Hlt by lia.
      rewrite Nat.add_1_r, (take_S_r _ _ (bind_symbol b)) by by apply list_lookup_insert_eq.
      rewrite take_insert_ge by lia. apply Forall2_app; [exact Rt|]. constructor; [by split|constructor].
  - cbn [orb negb]. rewrite (bind_ret _ _ _ _ _ (uleb_ret a1 b1 _ itr s Ha Hitr Ho)). by exists b.
Qed.

Lemma parse_apply_eq n x fs b itr cmd s : walked m mh e x fs -> rep n b x -> p_img s = m ->
  exists b' k, parse_opcode (Info mh cmd) (op_code BApply) (op_imm BApply) itr b s = Ret (Some (itr, b')) (put_pk k s) /\
    rep n b' (Machine (cur x) (seg x) (off x) (table x) (fixes x ++ fs)).
Proof using All.
  intros Hw Hrep Hs. pose proof Hrep as [R [Rs Rs'] [Rf Rf'] Rx Rl Rt Rc].
  destruct (walk_eq x fs (b_table b) cmd (b_chain b) (b_cap b) s Hw Rs' Rf' Rt Hs) as (es & cap' & k & E & Hes).
  unfold parse_opcode. cbn [op_code op_imm]. consts. cbn [orb negb].
  rewrite Rs, Rf, Rx, (bind_ret _ _ _ _ _ E). eexists _, k. split; [reflexivity|]. split; try done.
  by apply Forall2_app.
Qed.

Context (a b : list Z) (ops : list bind_op).
Context (Hstream : m = a ++ stream ops ++ b) (Hops : Forall op_ok ops) (Hch : Forall chained ops).

Lemma exec_grows x rest x' : exec m mh e x rest x' -> (length (table x) <= length (table x'))%nat.
Proof.
  induction 1 as [x|x fs l x' _ _ IH|x o l x' _ _ IH]; [done|exact IH|].
  destruct o; try exact IH. cbn [exec_op table] in IH. rewrite length_app in IH. lia.
Qed.
Lemma parse_loop_eq n cmd x rest x' : exec m mh e x rest x' -> (length (table x') <= n)%nat ->
  forall done_ bs s fuel, ops = done_ ++ rest -> rep n bs x -> p_img s = m -> stream_len rest < Z.of_nat fuel ->
  exists bs' k, parse_loop fuel (Info mh cmd) (Z.of_nat (length a) + stream_len ops) (Z.of_nat (length a) + stream_len done_) bs s
      = Ret (Some bs') (put_pk k s) /\ rep n bs' x'.
Proof using All.
  intros He Hn. assert (forall done_ o l (s : parser K), ops = done_ ++ o :: l -> p_img s = m ->
    Z.of_nat (length a) + stream_len done_ <> Z.of_nat (length a) + stream_len ops /\
    rd (peek8 (Z.of_nat (length a) + stream_len done_)) s = Ret (op_code o + op_imm o) s /\
    m = (a ++ stream done_ ++ [op_code o + op_imm o]) ++ operand o ++ stream l ++ b /\
    Z.of_nat (length a) + stream_len done_ + 1 = Z.of_nat (length (a ++ stream done_ ++ [op_code o + op_imm o])) /\
    Z.of_nat (length a) + stream_len done_ + 1 + Z.of_nat (length (operand o)) = Z.of_nat (length a) + stream_len (done_ ++ [o])) as Hnext.
  { intros done_ o l s E Hs. destruct (next_op m a b ops done_ o l Hstream E) as [H1 H2]. pose proof (op_len_pos o).
    split; [|split; [|split; [done|split] ] ].
    - rewrite E, stream_len_app, stream_len_cons. unfold stream_len at 3. lia.
    - apply rd_ret. by rewrite Hs.
    - rewrite !length_app. unfold stream_len. cbn [length]. lia.
    - rewrite stream_len_app, stream_len_cons. unfold op_len, op_bytes, stream_len. cbn [length stream fmap list_fmap concat]. lia. }
  induction He as [x|x fs l x' Hw He IH|x o l x' Hno He IH]; intros done_ bs s [|fuel] E Hrep Hs Hf;
    try (unfold stream_len in Hf; lia); cbn [parse_loop].
  - rewrite E, app_nil_r, Z.eqb_refl. exists bs, (p_k s). by rewrite put_pk_id.
  - destruct (Hnext done_ BApply l s E Hs) as (H1 & H2 & H3 & H4 & H5). rewrite (proj2 (Z.eqb_neq _ _) H1), (bind_ret _ _ _ _ _ H2).
    destruct (op_halves BApply (op_ok_at ops done_ BApply l Hops E)) as [-> ->].
    destruct (parse_apply_eq n x fs bs (Z.of_nat (length a) + stream_len done_ + 1) cmd s Hw Hrep Hs) as (b1 & k & Eb & Hb).
    rewrite (bind_ret _ _ _ _ _ Eb). cbn [operand length] in H5. rewrite Z.add_0_r in H5. rewrite H5.
    pose proof (op_len_pos BApply). rewrite stream_len_cons in Hf.
    destruct (IH Hn (done_ ++ [BApply]) b1 (put_pk k s) fuel) as (b2 & k2 & E2 & Hb2); [by rewrite <- app_assoc|done|done|lia|].
    rewrite E2, put_pk_twice. by exists b2, k2.
  - destruct (Hnext done_ o l s E Hs) as (H1 & H2 & H3 & H4 & H5). rewrite (proj2 (Z.eqb_neq _ _) H1), (bind_ret _ _ _ _ _ H2).
    pose proof (op_ok_at ops done_ o l Hops E) as Ho. destruct (op_halves o Ho) as [-> ->].
    assert (chained o) as Hco by (rewrite E in Hch; by apply Forall_app in Hch as [_ [? _]%Forall_cons]).
    destruct (parse_opcode_eq n o (a ++ stream done_ ++ [op_code o + op_imm o]) (stream l ++ b) (Z.of_nat (length a) + stream_len done_ + 1) bs x cmd s Ho Hco Hno Hrep) as (b1 & Eb & Hb); [|done|exact H3|exact H4|].
    { pose proof (exec_grows _ _ _ He). lia. }
    rewrite (bind_ret _ _ _ _ _ Eb), H5. pose proof (op_len_pos o). rewrite stream_len_cons in Hf.
    destruct (IH Hn (done_ ++ [o]) b1 s fuel) as (b2 & k2 & E2 & Hb2); [by rewrite <- app_assoc|done|done|lia|].
    rewrite E2. by exists b2, k2.
Qed.
(** *** The listing *)

Lemma type_ret t s : t <= 3 -> bind_type_str t s = Ret (type_text t) s.
Proof. intros Ht. unfold bind_type_str. by rewrite (proj2 (Z.ltb_ge _ _)). Qed.
Lemma flags_ret f s : f <= 8 -> bind_flags_str f s = Ret (flags_text f) s.
Proof. intros Ht. unfold bind_flags_str. by rewrite (proj2 (Z.ltb_ge _ _)). Qed.
Lemma library_ret x y s : rep_sym m x y -> p_img s = m ->
  exists d, rd (macho_dylib_name mh (f_ordinal x) (f_special x)) s = Ret d s /\ show d s = Ret (library_text e y) s.
Proof using Hm Hmh Hok Hnames.
  intros [R1 R2 R3 R4 R5 R6] Hs. rewrite R2, R3. unfold library_text. destruct (y_special y) eqn:E.
  - unfold macho_dylib_name, special_text. eexists. split; [by apply rd_ret|]. apply show_ret. by repeat case_match.
  - by apply (dylib_ret pre post e m mh).
Qed.
Lemma print_fixup_eq x f cmd s : rep_loc m x f -> sym_ok (x_sym f) -> p_img s = m ->
  exists w, peek64 (x_addr f) m = Ret w m /\ macho_print_fixup (Info mh cmd) x s = Ret tt (says [fix_line e w f] s).
Proof using Hm Hmh Hok Hnames.
  intros [Hy Ha Hg Hp [w Hw] ] [Ht Hf] Hs. exists w. split; [done|].
  pose proof Hy as [R1 R2 R3 R4 R5 R6].
  unfold macho_print_fixup. cbn [i_mh]. rewrite Ha, Hg, R4, R5, R6.
  rewrite (bind_ret _ _ _ _ _ (rd_ret _ _ s ltac:(rewrite Hs; exact Hw))).
  destruct (segment_ret pre post e m mh Hm Hmh Hok Hnames (x_segment f) s Hp Hs) as (g & G1 & G2). rewrite (bind_ret _ _ _ _ _ G1).
  destruct (library_ret x (x_sym f) s Hy Hs) as (d & D1 & D2).
  assert (forall kind first, (type ← bind_type_str (y_type (x_sym f)); flags ← bind_flags_str (y_flags (x_sym f));
      dylib ← rd (macho_dylib_name mh (f_ordinal x) (f_special x)); d ← show dylib; t ← show g; sym ← symbol_text (f_symbol x);
      emit (LPtr kind (first ++ [AText d; AText t; AText sym; AText flags; AText type; ANum (y_addend (x_sym f))]))) s =
    Ret tt (says [LPtr kind (first ++ [AText (library_text e (x_sym f)); AText (segment_text e (x_segment f)); AText (name_text (y_symbol (x_sym f)));
      AText (flags_text (y_flags (x_sym f))); AText (type_text (y_type (x_sym f))); ANum (y_addend (x_sym f))])] s)) as Hbound.
  { intros kind first. rewrite (bind_ret _ _ _ _ _ (type_ret _ s Ht)), (bind_ret _ _ _ _ _ (flags_ret _ s Hf)),
      (bind_ret _ _ _ _ _ D1), (bind_ret _ _ _ _ _ D2), (bind_ret _ _ _ _ _ G2).
    assert (symbol_text (f_symbol x) s = Ret (name_text (y_symbol (x_sym f))) s) as Et by (apply show_ret; rewrite Hs; exact R1).
    by rewrite (bind_ret _ _ _ _ _ Et). }
  unfold fix_line. destruct (Z.testbit w 63), (Z.testbit w 62).
  - apply Hbound.
  - rewrite (bind_ret _ _ _ _ _ G2). reflexivity.
  - apply Hbound.
  - rewrite (bind_ret _ _ _ _ _ G2). reflexivity.
Qed.
Lemma print_fixups_eq es fs cmd : Forall2 (rep_loc m) es fs -> Forall (fun f => sym_ok (x_sym f)) fs ->
  forall i s, p_img s = m -> print_fixups (Info mh cmd) i es s = Ret tt (says (fix_lines e m i fs) s).
Proof using Hm Hmh Hok Hnames.
  induction 1 as [|x f es fs Hx _ IH]; intros Hf i s Hs; cbn [print_fixups fix_lines]; [by rewrite says_nil|].
  apply Forall_cons in Hf as [Hf Hfs]. rewrite (bind_ret _ _ _ _ _ (emit_ret _ s)).
  destruct (print_fixup_eq x f cmd (says [LFixup i] s) Hx Hf Hs) as (w & Hw & E). rewrite (bind_ret _ _ _ _ _ E), Hw.
  rewrite (IH Hfs (i + 1) (says _ _)) by done. by rewrite !says_says.
Qed.

(** *** The whole *)

Lemma table_size_eq n rest cmd off s : ops = BTableSize n :: rest -> bind_off cmd m = Ret off m ->
  bind_size cmd m = Ret (stream_len ops) m -> Z.of_nat (length a) = mh + off -> p_img s = m ->
  macho_bind_table_size (Info mh cmd) s = Ret n s.
Proof using All.
  intros E Ho Hz Ha Hs. unfold macho_bind_table_size. cbn [i_cmd i_mh].
  rewrite (bind_ret _ _ _ _ _ (rd_ret _ _ s ltac:(rewrite Hs; exact Ho))), (bind_ret _ _ _ _ _ (rd_ret _ _ s ltac:(rewrite Hs; exact Hz))).
  cbv zeta. rewrite <- Ha. pose proof (stream_len_cons (BTableSize n) rest) as Hl. pose proof (op_len_pos (BTableSize n)).
  destruct (next_op m a b ops [] (BTableSize n) rest Hstream E) as [Hpk Hsplit].
  pose proof (op_ok_at ops [] (BTableSize n) rest Hops E) as Hn. destruct (op_halves _ Hn) as [Hh Hi]. destruct Hn as [_ Hn].
  change (stream_len []) with 0 in Hpk. rewrite Z.add_0_r in Hpk.
  cbn [find_threaded]. rewrite (proj2 (Z.eqb_neq _ _)) by (rewrite E, Hl; unfold stream_len; lia).
  rewrite bind_assoc, (bind_ret _ _ _ _ _ (rd_ret _ _ s ltac:(rewrite Hs; exact Hpk))), Hh, Hi. consts.
  rewrite (bind_ret (mret _) _ s _ s eq_refl). cbv iota beta. consts. cbn [operand] in Hsplit. rewrite <- Hs in Hsplit.
  erewrite bind_ret by (eapply uleb_ret; [exact Hsplit|rewrite !length_app; cbn; lia|exact Hn]). done.
Qed.
Lemma chains_eq n rest cmd off x s : ops = BTableSize n :: rest -> bind_off cmd m = Ret off m ->
  bind_size cmd m = Ret (stream_len ops) m -> Z.of_nat (length a) = mh + off -> p_img s = m ->
  exec m mh e start ops x -> Z.of_nat (length (table x)) <= n -> Forall (fun f => sym_ok (x_sym f)) (fixes x) ->
  exists k, macho_parse_fixup_chains (Info mh cmd) s = Ret 0 (put_pk k (says (fix_lines e m 0 (fixes x)) s)).
Proof using All.
  intros E Ho Hz Ha Hs He Hn Hf. unfold macho_parse_fixup_chains.
  rewrite (bind_ret _ _ _ _ _ (table_size_eq n rest cmd off s E Ho Hz Ha Hs)).
  destruct (alloc_ret s) as [k1 E1]. rewrite (bind_ret _ _ _ _ _ E1). cbn [negb].
  destruct (alloc_ret (put_pk k1 s)) as [k2 E2]. rewrite (bind_ret _ _ _ _ _ E2), put_pk_twice. cbn [negb i_cmd i_mh].
  rewrite (bind_ret _ _ _ _ _ (rd_ret _ _ (put_pk k2 s) ltac:(cbn; rewrite Hs; exact Ho))),
    (bind_ret _ _ _ _ _ (rd_ret _ _ (put_pk k2 s) ltac:(cbn; rewrite Hs; exact Hz))).
  cbv zeta. rewrite (bind_ret (gets p_img) _ (put_pk k2 s) m (put_pk k2 s)) by (cbn; by rewrite <- Hs).
  rewrite <- Ha. assert (0 <= n) as Hn0 by lia.
  destruct (parse_loop_eq (Z.to_nat n) cmd start ops x He ltac:(lia) []
    (BState 0 0 0 0 0 0 false None 0 (replicate (Z.to_nat n) zero_entry) [] 256) (put_pk k2 s) (S (length m))) as (bs & k3 & E3 & [R1 R2 R3 R4 R5 R6 R7]); try done.
  { split; try done. cbn. by rewrite length_replicate. }
  { rewrite Hstream, !length_app. unfold stream_len. lia. }
  change (stream_len []) with 0 in E3. rewrite Z.add_0_r in E3.
  rewrite (bind_ret _ _ _ _ _ E3), put_pk_twice.
  rewrite (bind_ret _ _ _ _ _ (print_fixups_eq _ _ cmd R7 Hf 0 (put_pk k3 s) Hs)). by exists k3.
Qed.
End chains.
