(* ===== verification/MachoMain.v ===== *)
(** The listing [main] of [MachoParse] prints of an arm64 executable, alone or
    a slice of a fat file, for the options it is given. *)

From S2P Require Import Prelude Bytes Leb128 Cstr Path Io Mapping Macho MachoProps MachoParse MachoParseProps MachoChains.
Open Scope Z_scope.

(** ** The file *)

(** [m] holds the executable [e] after [pre]: alone, or as the first arm64
    slice of a fat file. *)
Inductive arm64_file : image -> list Z -> exe -> list Z -> Prop :=
  | alone e post : arm64_file (exe_bytes e ++ post) [] e post
  | slice l gap i a e post :
    Forall arch_ok l -> Z.of_nat (length l) < 2 ^ 32 ->
    list_find (fun a => a_cputype a = CPU_TYPE_ARM64) l = Some (i, a) ->
    a_offset a = Z.of_nat (length (fat_bytes l ++ gap)) ->
    arm64_file (fat_bytes l ++ gap ++ exe_bytes e ++ post) (fat_bytes l ++ gap) e post.

(** A 32-bit field of a load command, after [cmd] and [cmdsize]. *)
Definition word (c : lcmd) (n : nat) : Z := le_val (take 4 (drop (4 * n) (c_body c))).
Definition is_dyld_info (e : exe) (mh at_ : Z) (c : lcmd) : Prop :=
  head (filter (fun x => c_cmd x.2 = LC_DYLD_INFO_ONLY) (placed (mh + 32) (e_cmds e))) = Some (at_, c) /\ (32 <= length (c_body c))%nat.
(** The stream of an option, where [dyld_info_command] says it is. *)
Definition area_field (which : Z) : nat :=
  if which =? OPT_BIND_INFO then 2%nat else if which =? OPT_WEAK_BIND_INFO then 4%nat else 6%nat.
Definition area (m : image) (mh : Z) (c : lcmd) (which : Z) (ops : list bind_op) : Prop :=
  Forall op_ok ops /\ word c (S (area_field which)) = stream_len ops /\
  exists a b, m = a ++ stream ops ++ b /\ Z.of_nat (length a) = mh + word c (area_field which).
(** The chains of an executable: its bind stream sets the size of the table,
    fills it and applies them. *)
Definition chains_of (m : image) (mh : Z) (e : exe) (c : lcmd) (fs : list location) : Prop :=
  exists n rest x, area m mh c OPT_BIND_INFO (BTableSize n :: rest) /\ Forall chained rest /\
    exec m mh e start (BTableSize n :: rest) x /\ Z.of_nat (length (table x)) <= n /\ Forall (fun f => sym_ok (x_sym f)) fs /\ fs = fixes x.

(** ** The options *)

Definition all_options : list Z := [OPT_BIND_INFO; OPT_WEAK_BIND_INFO; OPT_LAZY_BIND_INFO; OPT_FIXUP_CHAINS].
Definition option_arg (opt : Z) : cstr :=
  if opt =? OPT_BIND_INFO then cs "--bind" else if opt =? OPT_WEAK_BIND_INFO then cs "--weak-bind"
  else if opt =? OPT_LAZY_BIND_INFO then cs "--lazy-bind" else cs "--fixup-chains".
Definition mask (opts : list Z) : Z := fold_left Z.lor opts 0.

Lemma option_cases opt : opt ∈ all_options -> opt = 1 \/ opt = 2 \/ opt = 4 \/ opt = 8.
Proof. unfold all_options, OPT_BIND_INFO, OPT_WEAK_BIND_INFO, OPT_LAZY_BIND_INFO, OPT_FIXUP_CHAINS. rewrite !elem_of_cons, elem_of_nil. tauto. Qed.
Lemma mask_has_from opts opt acc : opt ∈ all_options -> Forall (fun o => o ∈ all_options) opts ->
  negb (Z.land (fold_left Z.lor opts acc) opt =? 0) = negb (Z.land acc opt =? 0) || bool_decide (opt ∈ opts).
Proof.
  intros Ho Hs. revert acc. induction Hs as [|o opts Hi _ IH]; intros acc; cbn [fold_left].
  - rewrite bool_decide_false by (by intros ?%elem_of_nil). by rewrite orb_false_r.
  - rewrite IH, Z.land_lor_distr_l.
    assert (negb (Z.lor (Z.land acc opt) (Z.land o opt) =? 0) = negb (Z.land acc opt =? 0) || negb (Z.land o opt =? 0)) as ->.
    { destruct (Z.eqb_spec (Z.land acc opt) 0) as [->|Ha], (Z.eqb_spec (Z.land o opt) 0) as [->|Hb]; cbn [negb orb]; try done;
        apply negb_true_iff, Z.eqb_neq; rewrite Z.lor_eq_0_iff; tauto. }
    rewrite <- orb_assoc. f_equal. rewrite (bool_decide_ext (opt ∈ o :: opts) (o = opt \/ opt ∈ opts)) by (rewrite elem_of_cons; naive_solver).
    rewrite bool_decide_or. f_equal. symmetry.
    destruct (option_cases opt Ho) as [-> |[-> |[-> | ->] ] ], (option_cases o Hi) as [-> |[-> |[-> | ->] ] ]; reflexivity.
Qed.
Lemma mask_has opts opt : opt ∈ all_options -> Forall (fun o => o ∈ all_options) opts ->
  negb (Z.land (mask opts) opt =? 0) = bool_decide (opt ∈ opts).
Proof. intros Ho Hs. unfold mask. by rewrite mask_has_from. Qed.
Lemma mask_nonzero opts : Forall (fun o => o ∈ all_options) opts -> opts <> [] -> mask opts <> 0.
Proof.
  intros Hs Hne E. destruct opts as [|o opts]; [done|]. pose proof (Forall_inv Hs) as Ho.
  pose proof (mask_has (o :: opts) o Ho Hs) as H. rewrite E, Z.land_0_l, bool_decide_true in H by (by left). done.
Qed.

Section listing.
Context {K : Type} `{!MachoSys K, !ParseSys K}.
Implicit Types s : parser K.

Lemma parse_options_eq opts file acc s : Forall (fun o => o ∈ all_options) opts -> take 2 file <> cs "--" -> forall f,
  parse_options (map option_arg opts ++ [file]) f acc s = Ret (Some file, fold_left Z.lor opts acc) s.
Proof.
  intros Hs Hf. revert acc. induction Hs as [|o opts Ho _ IH]; intros acc f.
  - cbn [map app parse_options fold_left].
    rewrite !bool_decide_false by first [exact Hf | by intros E; apply Hf; rewrite E]. done.
  - destruct (option_cases o Ho) as [-> |[-> |[-> | ->] ] ]; cbn [map app fold_left]; apply IH.
Qed.
Lemma call_ret {A} (f : K -> A * K) s : call f s = Ret (f (p_k s)).1 (put_pk (f (p_k s)).2 s).
Proof. unfold call. by destruct (f (p_k s)). Qed.
Lemma executable_ret path_env file s : (pa_access file (p_k s)).1 = 0 -> strlen file < PATH_MAX ->
  executable path_env file s = Ret file (put_pk (pa_access file (p_k s)).2 s).
Proof.
  intros Ha Hl. unfold executable. rewrite (bind_ret _ _ _ _ _ (call_ret _ _)), Ha.
  cbn [Z.eqb negb]. by rewrite (proj2 (Z.leb_gt _ _)).
Qed.

(** ** What is printed *)

Definition bind_lines (e : exe) (which : Z) (ops : list bind_op) : list line :=
  LTitle which :: stream_lines e 0 ops ++ [LTotals (u32 (Z.of_nat (length ops))) (u32 (symbols ops)) (stream_len ops)].
Definition chosen {A} (opts : list Z) (opt : Z) (l : list A) : list A := if bool_decide (opt ∈ opts) then l else [].
Definition listing (m : image) (e : exe) (opts : list Z) (streams : Z -> list bind_op) (fs : list location) : list line :=
  chosen opts OPT_BIND_INFO (bind_lines e OPT_BIND_INFO (streams OPT_BIND_INFO)) ++
  chosen opts OPT_WEAK_BIND_INFO (bind_lines e OPT_WEAK_BIND_INFO (streams OPT_WEAK_BIND_INFO)) ++
  chosen opts OPT_LAZY_BIND_INFO (bind_lines e OPT_LAZY_BIND_INFO (streams OPT_LAZY_BIND_INFO)) ++
  chosen opts OPT_FIXUP_CHAINS (fix_lines e m 0 fs).
(** The file is there and can be mapped. *)
Definition maps (file : cstr) (fd size : Z) (m : image) (k : K) : Prop :=
  0 <= fd /\ 0 <= size /\ (pa_access file k).1 = 0 /\
  let k := (pa_access file k).2 in (mo_open file k).1 = fd /\
  let k := (mo_open file k).2 in (mo_size fd k).1 = size /\ (mo_mmap fd size (mo_size fd k).2).1 = Some m.

Lemma chosen_step opts opt (l : list line) (run : M (parser K) Z) (fail : M (parser K) unit) s :
  opt ∈ all_options -> Forall (fun o => o ∈ all_options) opts ->
  (opt ∈ opts -> exists k, run s = Ret 0 (put_pk k (says l s))) ->
  exists k, (if negb (Z.land (mask opts) opt =? 0) then err ← run; if negb (err =? 0) then fail else mret tt else mret tt) s
    = Ret tt (put_pk k (says (chosen opts opt l) s)).
Proof.
  intros Ho Hs Hrun. rewrite mask_has by done. unfold chosen. case_bool_decide as H.
  - destruct (Hrun H) as [k E]. rewrite (bind_ret _ _ _ _ _ E). by exists k.
  - exists (p_k s). by rewrite says_nil, put_pk_id.
Qed.

Section file.
Context (m pre : image) (e : exe) (post : list Z).
Context (Hfile : arm64_file m pre e post) (Hok : lcs_ok (e_cmds e)) (Hlen : Z.of_nat (length m) < 2 ^ 64).
Context (Hnames : Forall names_ok (e_cmds e)) (Hwhole : Forall segment_whole (e_cmds e)).
Context (Halloc : forall k : K, (pa_alloc k).1 = true).
Let mh : Z := Z.of_nat (length pre).

Lemma file_bytes : m = pre ++ exe_bytes e ++ post.
Proof using All. destruct Hfile; [done|by rewrite <- app_assoc]. Qed.
Lemma header_found s : p_img s = m ->
  exists magic, rd (peek32 0) s = Ret magic s /\
    (if HEADER_IS_FAT magic then rd (macho_thin_from_fat 0 CPU_TYPE_ARM64) else mret (Some 0)) s = Ret (Some mh) s.
Proof using All.
  intros Hs. subst mh. destruct Hfile as [e post|l gap i a e post Hok' Hn Hf Ha].
  - pose proof (magic_eq [] post e (exe_bytes e ++ post) 0 eq_refl eq_refl) as Hmg. unfold mh_magic in Hmg.
    exists MH_MAGIC_64. split; [apply rd_ret; by rewrite Hs|done].
  - pose proof (fat_magic_eq l (gap ++ exe_bytes e ++ post) _ eq_refl) as Hmg.
    exists FAT_CIGAM. split; [apply rd_ret; by rewrite Hs|]. change (HEADER_IS_FAT FAT_CIGAM) with true. cbv iota.
    apply rd_ret. rewrite Hs, (thin_from_fat_eq l (gap ++ exe_bytes e ++ post) _ eq_refl Hok' Hn i a CPU_TYPE_ARM64 Hf) by done.
    by rewrite Ha.
Qed.

Context (at_ : Z) (c : lcmd) (Hdyld : is_dyld_info e mh at_ c).

Lemma dyld_found s : p_img s = m -> rd (macho_find_load_command mh LC_DYLD_INFO_ONLY) s = Ret (Some at_) s.
Proof using All.
  intros Hs. apply rd_ret. rewrite Hs, (find_load_command_eq pre post e m mh file_bytes eq_refl) by done.
  destruct Hdyld as [-> _]. done.
Qed.
Lemma word_eq n o : (n < 8)%nat -> o = at_ + 8 + 4 * Z.of_nat n -> peek32 o m = Ret (word c n) m.
Proof using All.
  intros Hn ->. destruct Hdyld as [Hh Hl]. assert ((at_, c) ∈ placed (mh + 32) (e_cmds e)) as Hin.
  { destruct (filter _ _) as [|x xs] eqn:E in Hh; [done|]. injection Hh as ->.
    assert ((at_, c) ∈ (at_, c) :: xs) as H by (by left). rewrite <- E in H. by apply list_elem_of_filter in H as [_ H]. }
  destruct (body_split pre post e m mh file_bytes eq_refl at_ c Hin) as (x & y & Hx & Ha & _).
  rewrite <- (take_drop (4 * n) (c_body c)), <- (take_drop 4 (drop (4 * n) (c_body c))) in Hx.
  rewrite <- !app_assoc, app_assoc in Hx. unfold peek32. erewrite bind_ret; [reflexivity|].
  eapply (peek_at (x ++ take (4 * n) (c_body c))); [exact Hx| |].
  - rewrite length_app, length_take. lia.
  - rewrite length_take, length_drop. lia.
Qed.
Lemma area_eq which ops : which ∈ [OPT_BIND_INFO; OPT_WEAK_BIND_INFO; OPT_LAZY_BIND_INFO] ->
  word c (S (area_field which)) = stream_len ops -> bind_area which at_ m = Ret (Some (word c (area_field which), stream_len ops)) m.
Proof using All.
  intros Hw Hz. rewrite !elem_of_cons, elem_of_nil in Hw.
  destruct Hw as [-> |[-> |[-> |[] ] ] ]; unfold bind_area, area_field in *; consts; cbn in Hz; rewrite <- Hz.
  - rewrite (bind_ret _ _ _ _ _ (word_eq 2 (at_ + 16) ltac:(lia) ltac:(lia))), (bind_ret _ _ _ _ _ (word_eq 3 (at_ + 20) ltac:(lia) ltac:(lia))). done.
  - rewrite (bind_ret _ _ _ _ _ (word_eq 4 (at_ + 24) ltac:(lia) ltac:(lia))), (bind_ret _ _ _ _ _ (word_eq 5 (at_ + 28) ltac:(lia) ltac:(lia))). done.
  - rewrite (bind_ret _ _ _ _ _ (word_eq 6 (at_ + 32) ltac:(lia) ltac:(lia))), (bind_ret _ _ _ _ _ (word_eq 7 (at_ + 36) ltac:(lia) ltac:(lia))). done.
Qed.

Lemma bind_step which ops s : which ∈ [OPT_BIND_INFO; OPT_WEAK_BIND_INFO; OPT_LAZY_BIND_INFO] -> area m mh c which ops -> Forall plain ops ->
  p_img s = m ->
  macho_print_opcodes (Info mh at_) which s = Ret 0 (says (bind_lines e which ops) s).
Proof using All.
  intros Hw (Hops & Hz & a & b & Hm & Ha) Hpl Hs. unfold bind_lines. rewrite <- plain_lines by done.
  exact (print_opcodes_eq pre post e m mh file_bytes eq_refl Hok Hnames a b ops Hm Hops which at_ _ s (area_eq which ops Hw Hz) Ha Hs).
Qed.
Lemma chains_step fs s : chains_of m mh e c fs -> p_img s = m ->
  exists k, macho_parse_fixup_chains (Info mh at_) s = Ret 0 (put_pk k (says (fix_lines e m 0 fs) s)).
Proof using All.
  intros (n & rest & x & (Hops & Hz & a & b & Hm & Ha) & Hch & He & Ht & Hf & ->) Hs.
  assert (OPT_BIND_INFO ∈ [OPT_BIND_INFO; OPT_WEAK_BIND_INFO; OPT_LAZY_BIND_INFO]) as Hw by (by left).
  pose proof (area_eq OPT_BIND_INFO _ Hw Hz) as Hb. unfold bind_area in Hb. cbn [Z.eqb OPT_BIND_INFO Pos.eqb] in Hb.
  apply bind_inv in Hb as (o & m1 & E1 & Hb). assert (m1 = m) as ->.
  { unfold bind_off, peek32, mbind, M_bind, peek in E1. destruct (in_image _ _ _); [by injection E1|done]. }
  apply bind_inv in Hb as (z & m2 & E2 & Hb). injection Hb as -> -> ->.
  eapply (chains_eq pre post e m mh file_bytes eq_refl Hok Hnames Hwhole Hlen Halloc a b _ Hm Hops); try done.
  by constructor.
Qed.
Lemma bind_chosen opts which ops fail s : which ∈ [OPT_BIND_INFO; OPT_WEAK_BIND_INFO; OPT_LAZY_BIND_INFO] ->
  Forall (fun o => o ∈ all_options) opts -> (which ∈ opts -> area m mh c which ops /\ Forall plain ops) -> p_img s = m ->
  exists k, (if negb (Z.land (mask opts) which =? 0) then
      err ← macho_print_opcodes (Info mh at_) which; if negb (err =? 0) then fail else mret tt else mret tt) s
    = Ret tt (put_pk k (says (chosen opts which (bind_lines e which ops)) s)).
Proof using All.
  intros Hw Hopts Ha Hs. apply chosen_step; [|done|].
  - change all_options with ([OPT_BIND_INFO; OPT_WEAK_BIND_INFO; OPT_LAZY_BIND_INFO] ++ [OPT_FIXUP_CHAINS]). rewrite elem_of_app. by left.
  - intros H. exists (p_k s). rewrite (bind_step which ops s Hw (proj1 (Ha H)) (proj2 (Ha H)) Hs). done.
Qed.
End file.
End listing.


(** ** An executable *)

#[global] Instance disk_parse : ParseSys disk := {
  pa_alloc d := (true, d);
  pa_access p d := (if bool_decide (is_Some (d_files d !! p)) then 0 else ENOENT, d);
  pa_exists p d := bool_decide (is_Some (d_files d !! p))
}.
(** A segment at the start of the file, a library, and a stream that fills a
    table of one symbol and applies a chain of two locations: the first is
    bound to the symbol, the second is an authenticated rebase. *)
Definition small_ops : list bind_op :=
  [BTableSize 1; BOrdinal 1; BSymbol 0 [95; 102]; BType 1; BAddend (-2); BBind; BSegment 0 208; BApply; BDone].
Definition le64 (v : Z) : list Z := le_bytes 8 v.
Definition small_words : list Z := [2 ^ 62 + 2 ^ 51; 2 ^ 63 + 5].
Definition bound_exe : exe :=
  Exe CPU_TYPE_ARM64 0 2 1
    [LCmd LC_SEGMENT_64 ([95; 95; 84] ++ replicate 61 0);
     LCmd LC_LOAD_DYLIB (words false [24; 0; 0; 0] ++ [108; 105; 98; 0; 0; 0; 0; 0]);
     LCmd LC_DYLD_INFO_ONLY (words false [0; 0; 184; stream_len small_ops; 0; 0; 0; 0; 0; 0])]
    (stream small_ops ++ replicate (Z.to_nat (208 - 184 - stream_len small_ops)) 0 ++ concat (le64 <$> small_words)).
Definition bound_image : image := exe_bytes bound_exe ++ replicate 4 0.
Definition bound_disk : disk := Disk {[cs "/bin/a" := exe_bytes bound_exe]} ∅.
Definition dyld_cmd : lcmd := LCmd LC_DYLD_INFO_ONLY (words false [0; 0; 184; stream_len small_ops; 0; 0; 0; 0; 0; 0]).
Definition small_sym : sym := Sym (Some [95; 102]) 1 false (-2) 0 1.
Definition small_fixes : list location := [Location 208 0 small_sym; Location 216 0 no_sym].
Definition small_machine (fs : list location) : machine := Machine small_sym 0 208 [small_sym] fs.

Lemma small_names : Forall names_ok (e_cmds bound_exe).
Proof.
  unfold bound_exe. cbn [e_cmds]. repeat (constructor; [split; intros H; try discriminate H|]); [| |constructor].
  - vm_compute. by eexists.
  - split; [vm_compute; lia|]. split; [vm_compute; split; discriminate|]. vm_compute. by eexists.
Qed.
Lemma small_ops_ok : Forall op_ok small_ops.
Proof. unfold small_ops. repeat (constructor; [by vm_compute; split_and?; repeat (constructor || discriminate)|]). constructor. Qed.
Lemma small_exec : exec bound_image 0 bound_exe start small_ops (small_machine small_fixes).
Proof.
  unfold small_ops. do 7 (apply exec_cons; [discriminate|]). eapply (exec_apply _ _ _ _ small_fixes).
  - eexists _, [(208, 2 ^ 62 + 2 ^ 51); (216, 2 ^ 63 + 5)]. split; [reflexivity|]. split; [vm_compute; split; congruence|]. split.
    + apply chain_more; [vm_compute; reflexivity|by vm_compute|]. apply chain_last; [vm_compute; reflexivity|by vm_compute].
    + repeat (constructor; [by repeat split|]). constructor.
  - apply exec_cons; [discriminate|]. apply exec_nil.
Qed.
Lemma small_area : area bound_image 0 dyld_cmd OPT_BIND_INFO small_ops.
Proof.
  split; [apply small_ops_ok|]. split; [by vm_compute|].
  exists (words false (header bound_exe) ++ lcs_bytes (e_cmds bound_exe)), (drop 200 bound_image).
  split; vm_compute; reflexivity.
Qed.
