(* ===== verification/CoordMsg.v ===== *)
(** The coordinator's protocol: the messages of
    [xnd/coordinator/xnd_coord_api.h] and their bytes on the socket.

    A message is sent as the bytes of the struct, with the layout the arm64
    ABI gives it: 80 bytes, the last four of them padding. *)

From S2P Require Import Prelude Bytes Io.
Open Scope Z_scope.

Inductive xnd_msghdr : Type :=
  | XND_CONNECT_LAUNCH
  | XND_CONNECT_RESTART
  | XND_EXIT
  | XND_ATFORK_PREPARE
  | XND_ATFORK_CHILD
  | XND_ATFORK_FAILED
  | XND_COMMAND
  | XND_COORD_ACK
  | XND_CLIENT_ACK
  | XND_VIRT_TO_REAL
  | XND_REAL_TO_VIRT
  | XND_CKPT_REQUEST
  | XND_CKPT_READY
  | XND_CKPT_START
  | XND_CKPT_DONE
  | XND_RESUME_AFTER_CKPT
  | XND_RESTART
  | XND_RESUME_AFTER_RESTART.
#[global] Instance xnd_msghdr_eq_dec : EqDecision xnd_msghdr.
Proof. solve_decision. Defined.

Inductive xnd_cmd : Type := XND_NULL_CMD | XND_CKPT_CMD | XND_EXIT_CMD | XND_KILL_CMD.
#[global] Instance xnd_cmd_eq_dec : EqDecision xnd_cmd.
Proof. solve_decision. Defined.

Inductive coord_barrier_type : Type :=
  | COORD_BARRIER_PRECKPT
  | COORD_BARRIER_POSTCKPT
  | COORD_BARRIER_POSTRESTART.
#[global] Instance coord_barrier_type_eq_dec : EqDecision coord_barrier_type.
Proof. solve_decision. Defined.

Definition XND_SUCCESS : Z := 0.
Definition XND_FAILURE : Z := 1.

(** The integer value of an enumerator, and the enumerator of an integer. *)
Definition msghdrs : list xnd_msghdr :=
  [XND_CONNECT_LAUNCH; XND_CONNECT_RESTART; XND_EXIT; XND_ATFORK_PREPARE; XND_ATFORK_CHILD;
   XND_ATFORK_FAILED; XND_COMMAND; XND_COORD_ACK; XND_CLIENT_ACK; XND_VIRT_TO_REAL;
   XND_REAL_TO_VIRT; XND_CKPT_REQUEST; XND_CKPT_READY; XND_CKPT_START; XND_CKPT_DONE;
   XND_RESUME_AFTER_CKPT; XND_RESTART; XND_RESUME_AFTER_RESTART].

Definition hdr_code (h : xnd_msghdr) : Z :=
  match h with
  | XND_CONNECT_LAUNCH => 0 | XND_CONNECT_RESTART => 1 | XND_EXIT => 2
  | XND_ATFORK_PREPARE => 3 | XND_ATFORK_CHILD => 4 | XND_ATFORK_FAILED => 5
  | XND_COMMAND => 6 | XND_COORD_ACK => 7 | XND_CLIENT_ACK => 8
  | XND_VIRT_TO_REAL => 9 | XND_REAL_TO_VIRT => 10 | XND_CKPT_REQUEST => 11
  | XND_CKPT_READY => 12 | XND_CKPT_START => 13 | XND_CKPT_DONE => 14
  | XND_RESUME_AFTER_CKPT => 15 | XND_RESTART => 16 | XND_RESUME_AFTER_RESTART => 17
  end.
Definition hdr_of (z : Z) : option xnd_msghdr := if z <? 0 then None else msghdrs !! Z.to_nat z.

Definition cmd_code (c : xnd_cmd) : Z :=
  match c with XND_NULL_CMD => 0 | XND_CKPT_CMD => 1 | XND_EXIT_CMD => 2 | XND_KILL_CMD => 3 end.
Definition cmd_of (z : Z) : option xnd_cmd :=
  if z <? 0 then None else [XND_NULL_CMD; XND_CKPT_CMD; XND_EXIT_CMD; XND_KILL_CMD] !! Z.to_nat z.

Lemma hdr_of_code h : hdr_of (hdr_code h) = Some h.
Proof. by destruct h. Qed.
Lemma cmd_of_code c : cmd_of (cmd_code c) = Some c.
Proof. by destruct c. Qed.

(** [struct xnd_msg]; an enum field holds any 32-bit integer. *)
Record xnd_msg := Msg {
  m_hdr : Z;
  m_cmd : Z;
  m_ret : Z;
  m_xnd_uuid : list Z;
  m_xnd_pid : Z;
  m_xnd_ppid : Z;
  m_xnd_pgid : Z;
  m_epoch : Z;
  m_num_peers : Z;
  m_is_root_of_tree : Z;
  m_ckpt_interval : Z;
  m_real_pid : Z;
  m_real_ppid : Z;
  m_virt_pid : Z;
  m_virt_ppid : Z
}.

Definition UUID_LEN : nat := 16.

(** Every field holds a value of its C type. *)
Record msg_ok (m : xnd_msg) : Prop := {
  ok_hdr : in_u 32 (m_hdr m); ok_cmd : in_u 32 (m_cmd m); ok_ret : in_u 32 (m_ret m);
  ok_uuid : length (m_xnd_uuid m) = UUID_LEN;
  ok_xnd_pid : in_u 32 (m_xnd_pid m); ok_xnd_ppid : in_u 32 (m_xnd_ppid m);
  ok_xnd_pgid : in_u 32 (m_xnd_pgid m);
  ok_epoch : in_u 64 (m_epoch m); ok_peers : in_u 32 (m_num_peers m);
  ok_root : in_u 32 (m_is_root_of_tree m); ok_interval : in_s 32 (m_ckpt_interval m);
  ok_real_pid : in_s 32 (m_real_pid m); ok_real_ppid : in_s 32 (m_real_ppid m);
  ok_virt_pid : in_s 32 (m_virt_pid m); ok_virt_ppid : in_s 32 (m_virt_ppid m)
}.

Definition sizeof_msg : Z := 80.

Definition msg_bytes (m : xnd_msg) : list Z :=
  le_bytes 4 (m_hdr m) ++ le_bytes 4 (m_cmd m) ++ le_bytes 4 (m_ret m) ++
  m_xnd_uuid m ++
  le_bytes 4 (m_xnd_pid m) ++ le_bytes 4 (m_xnd_ppid m) ++ le_bytes 4 (m_xnd_pgid m) ++
  le_bytes 8 (m_epoch m) ++ le_bytes 4 (m_num_peers m) ++ le_bytes 4 (m_is_root_of_tree m) ++
  le_bytes 4 (m_ckpt_interval m) ++
  le_bytes 4 (m_real_pid m) ++ le_bytes 4 (m_real_ppid m) ++
  le_bytes 4 (m_virt_pid m) ++ le_bytes 4 (m_virt_ppid m) ++ [0; 0; 0; 0].

Definition msg_of_bytes (l : list Z) : xnd_msg :=
  let '(hdr, l) := field_u 4 l in
  let '(cmd, l) := field_u 4 l in
  let '(ret, l) := field_u 4 l in
  let '(uuid, l) := (take UUID_LEN l, drop UUID_LEN l) in
  let '(xnd_pid, l) := field_u 4 l in
  let '(xnd_ppid, l) := field_u 4 l in
  let '(xnd_pgid, l) := field_u 4 l in
  let '(epoch, l) := field_u 8 l in
  let '(num_peers, l) := field_u 4 l in
  let '(is_root_of_tree, l) := field_u 4 l in
  let '(ckpt_interval, l) := field_s 4 l in
  let '(real_pid, l) := field_s 4 l in
  let '(real_ppid, l) := field_s 4 l in
  let '(virt_pid, l) := field_s 4 l in
  let '(virt_ppid, l) := field_s 4 l in
  Msg hdr cmd ret uuid xnd_pid xnd_ppid xnd_pgid epoch num_peers is_root_of_tree
      ckpt_interval real_pid real_ppid virt_pid virt_ppid.

Lemma msg_bytes_length m : length (m_xnd_uuid m) = UUID_LEN -> Z.of_nat (length (msg_bytes m)) = sizeof_msg.
Proof. intros H. unfold msg_bytes. rewrite !length_app, !le_bytes_length, H. done. Qed.

Lemma msg_of_bytes_spec (m : xnd_msg) (l : list Z) : msg_ok m -> msg_of_bytes (msg_bytes m ++ l) = m.
Proof.
  destruct m. intros Hm. destruct Hm. cbn in * |-. unfold msg_bytes, msg_of_bytes.
  cbn [m_hdr m_cmd m_ret m_xnd_uuid m_xnd_pid m_xnd_ppid m_xnd_pgid m_epoch m_num_peers
    m_is_root_of_tree m_ckpt_interval m_real_pid m_real_ppid m_virt_pid m_virt_ppid].
  rewrite <- !app_assoc.
  rewrite !(field_u_le 4) by assumption.
  rewrite take_app_length', drop_app_length' by done.
  rewrite !(field_u_le 4), (field_u_le 8), !(field_u_le 4) by assumption.
  rewrite !(field_s_le 4) by (assumption || lia). done.
Qed.

(** The setters a C assignment to a field of a message is. *)
Definition with_hdr (h : Z) (m : xnd_msg) : xnd_msg :=
  Msg h (m_cmd m) (m_ret m) (m_xnd_uuid m) (m_xnd_pid m) (m_xnd_ppid m) (m_xnd_pgid m) (m_epoch m)
      (m_num_peers m) (m_is_root_of_tree m) (m_ckpt_interval m) (m_real_pid m) (m_real_ppid m)
      (m_virt_pid m) (m_virt_ppid m).
Definition with_cmd (c : Z) (m : xnd_msg) : xnd_msg :=
  Msg (m_hdr m) c (m_ret m) (m_xnd_uuid m) (m_xnd_pid m) (m_xnd_ppid m) (m_xnd_pgid m) (m_epoch m)
      (m_num_peers m) (m_is_root_of_tree m) (m_ckpt_interval m) (m_real_pid m) (m_real_ppid m)
      (m_virt_pid m) (m_virt_ppid m).
Definition with_ret (r : Z) (m : xnd_msg) : xnd_msg :=
  Msg (m_hdr m) (m_cmd m) r (m_xnd_uuid m) (m_xnd_pid m) (m_xnd_ppid m) (m_xnd_pgid m) (m_epoch m)
      (m_num_peers m) (m_is_root_of_tree m) (m_ckpt_interval m) (m_real_pid m) (m_real_ppid m)
      (m_virt_pid m) (m_virt_ppid m).
Definition with_ids (uuid : list Z) (pid ppid pgid : Z) (m : xnd_msg) : xnd_msg :=
  Msg (m_hdr m) (m_cmd m) (m_ret m) uuid pid ppid pgid (m_epoch m)
      (m_num_peers m) (m_is_root_of_tree m) (m_ckpt_interval m) (m_real_pid m) (m_real_ppid m)
      (m_virt_pid m) (m_virt_ppid m).
Definition with_xnd_pid (pid : Z) (m : xnd_msg) : xnd_msg :=
  with_ids (m_xnd_uuid m) pid (m_xnd_ppid m) (m_xnd_pgid m) m.
Definition with_peers (peers root : Z) (m : xnd_msg) : xnd_msg :=
  Msg (m_hdr m) (m_cmd m) (m_ret m) (m_xnd_uuid m) (m_xnd_pid m) (m_xnd_ppid m) (m_xnd_pgid m) (m_epoch m)
      peers root (m_ckpt_interval m) (m_real_pid m) (m_real_ppid m) (m_virt_pid m) (m_virt_ppid m).
Definition with_restart (interval epoch peers : Z) (m : xnd_msg) : xnd_msg :=
  Msg (m_hdr m) (m_cmd m) (m_ret m) (m_xnd_uuid m) (m_xnd_pid m) (m_xnd_ppid m) (m_xnd_pgid m) epoch
      peers (m_is_root_of_tree m) interval (m_real_pid m) (m_real_ppid m) (m_virt_pid m) (m_virt_ppid m).
Definition with_pids (real_pid real_ppid virt_pid virt_ppid : Z) (m : xnd_msg) : xnd_msg :=
  Msg (m_hdr m) (m_cmd m) (m_ret m) (m_xnd_uuid m) (m_xnd_pid m) (m_xnd_ppid m) (m_xnd_pgid m) (m_epoch m)
      (m_num_peers m) (m_is_root_of_tree m) (m_ckpt_interval m) real_pid real_ppid virt_pid virt_ppid.
Definition with_real_pid (p : Z) (m : xnd_msg) : xnd_msg :=
  with_pids p (m_real_ppid m) (m_virt_pid m) (m_virt_ppid m) m.
Definition with_virt_pid (p : Z) (m : xnd_msg) : xnd_msg :=
  with_pids (m_real_pid m) (m_real_ppid m) p (m_virt_ppid m) m.

(** [= {0}] *)
Definition msg_zero : xnd_msg := Msg 0 0 0 (replicate 16 0) 0 0 0 0 0 0 0 0 0 0 0.

(** ** Sending and receiving *)

Section transport.
Context {W : Type} `{IoSys W}.

Definition coord_send_msg (fd : Z) (msg : xnd_msg) : M W Z :=
  bytes ← writeall fd (msg_bytes msg);
  mret (if negb (bytes =? sizeof_msg) then -1 else 0).

(** [None] is the return of -1. *)
Definition coord_recv_msg (fd : Z) : M W (option xnd_msg) :=
  buf ← readall fd sizeof_msg;
  mret (if negb (Z.of_nat (length buf) =? sizeof_msg) then None else Some (msg_of_bytes buf)).

(** The clients' variants first test for a closed descriptor. *)
Definition send_msg_to_coord (fd : Z) (msg : xnd_msg) : M W Z :=
  if fd =? -1 then mret (-1) else coord_send_msg fd msg.
Definition recv_msg_from_coord (fd : Z) : M W (option xnd_msg) :=
  if fd =? -1 then mret None else coord_recv_msg fd.
End transport.

Lemma writeall_returns {W} `{IoSys W} fd (content : W -> list Z) `{!Sink W fd content} buf w :
  returns (writeall fd buf) w (fun n w' =>
    0 <= n <= Z.of_nat (length buf) /\ content w' = content w ++ take (Z.to_nat n) buf).
Proof.
  eapply returns_weaken; [apply (writeall_loop_spec fd content); lia|].
  intros n w' [Hn Hc]. rewrite Z.sub_0_r, drop_0 in Hc. done.
Qed.

Lemma readall_returns {W} `{IoSys W} fd (pending : W -> list Z) `{!Source W fd pending} nbyte w :
  0 <= nbyte ->
  returns (readall fd nbyte) w (fun data w' =>
    pending w = data ++ pending w' /\ Z.of_nat (length data) <= nbyte).
Proof.
  intros Hn. eapply returns_weaken; [apply (readall_loop_spec fd pending); simpl; lia|].
  intros out w' (data & -> & Hp & Hl). done.
Qed.

(** Over a stream, sending always returns, and succeeds exactly when the
    message's 80 bytes have been appended to it; receiving always returns, and
    a receiver that finds a sent message at the front of its stream and
    succeeds gets the message that was sent and leaves the rest. *)
Theorem msg_send_recv {W} `{IoSys W} (sfd rfd : Z) (content pending : W -> list Z)
    `{!Sink W sfd content, !Source W rfd pending} (m : xnd_msg) (w w2 : W) (rest : list Z) :
  msg_ok m -> pending w2 = msg_bytes m ++ rest ->
  returns (coord_send_msg sfd m) w (fun r w1 =>
    (r = 0 \/ r = -1) /\ (r = 0 <-> content w1 = content w ++ msg_bytes m)) /\
  returns (coord_recv_msg rfd) w2 (fun r w3 =>
    r = None \/ r = Some m /\ pending w3 = rest).
Proof.
  intros Hm Hp. pose proof (msg_bytes_length m (ok_uuid _ Hm)) as Hl. split.
  - apply returns_bind. eapply returns_weaken; [apply (writeall_returns sfd content)|].
    intros n w1 [Hn Hc]. rewrite Hl in Hn. apply returns_ret.
    destruct (Z.eqb_spec n sizeof_msg) as [->|Hne]; cbn [negb]; (split; [lia|]); split; try done.
    + intros _. rewrite Hc, take_ge by lia. done.
    + rewrite Hc. intros He%app_inv_head. apply (f_equal length) in He. rewrite length_take in He. lia.
  - apply returns_bind. eapply returns_weaken; [by apply (readall_returns rfd pending)|].
    intros data w3 [Hd Hle]. apply returns_ret.
    destruct (Z.eqb_spec (Z.of_nat (length data)) sizeof_msg) as [Heq|]; cbn [negb]; [right|by left].
    rewrite Hp in Hd. apply app_inj_1 in Hd as [<- <-]; [|lia].
    by rewrite <- (app_nil_r (msg_bytes m)), msg_of_bytes_spec.
Qed.

(** A launch request over the file of [Io]. *)
Definition launch_msg : xnd_msg :=
  with_pids 4711 4242 0 0 (with_hdr (hdr_code XND_CONNECT_LAUNCH) msg_zero).

Lemma launch_msg_ok : msg_ok launch_msg.
Proof. by split. Defined.

Lemma msg_send_recv_witness :
  let w2 := File [] (msg_bytes launch_msg ++ [9]) 0 7 in
  returns (coord_send_msg 1 launch_msg) (File [] [] 100 7) (fun r w1 =>
    (r = 0 \/ r = -1) /\ (r = 0 <-> f_content w1 = [] ++ msg_bytes launch_msg)) /\
  returns (coord_recv_msg 3) w2 (fun r w3 =>
    r = None \/ r = Some launch_msg /\ f_pending w3 = [9]).
Proof.
  apply (msg_send_recv 1 3 f_content f_pending launch_msg (File [] [] 100 7)); [apply launch_msg_ok|].
  reflexivity.
Defined.

(** Both succeed when the kernel takes and gives the bytes in pieces. *)
Example msg_pieces :
  (exists w1, coord_send_msg 1 launch_msg (File [] [] 100 7) = Ret 0 w1) /\
  (exists w3, coord_recv_msg 3 (File [] (msg_bytes launch_msg ++ [9]) 0 7) = Ret (Some launch_msg) w3).
Proof. split; eexists; vm_compute; reflexivity. Qed.
