(* ===== verification/ProcList.v ===== *)
(** The coordinator's process list: [xnd/coordinator/proc_list.c].

    The first half is the code as it is written: a doubly linked list of
    nodes in a heap, where following a null or freed pointer is undefined.
    The second half is the list the coordinator's model works on, and the
    proof that every pointer operation implements the list operation. *)

From S2P Require Import Prelude.
Open Scope Z_scope.

Inductive proc_state : Type :=
  | PROC_RUNNING
  | PROC_RECV_CKPT_REQUEST
  | PROC_READY_FOR_CKPT
  | PROC_CKPT_IN_PROGRESS
  | PROC_CKPT_COMPLETE
  | PROC_RESTART_IN_PROGRESS
  | PROC_EXITED.
#[global] Instance proc_state_eq_dec : EqDecision proc_state.
Proof. solve_decision. Defined.

(** [struct proc] without its links; [p_cleanup] tells whether the cleanup
    callback has been set. *)
Record proc := Proc {
  p_fd : Z;
  p_oob_fd : Z;
  p_xnd_pid : Z;
  p_xnd_ppid : Z;
  p_xnd_pgid : Z;
  p_virt_pid : Z;
  p_real_pid : Z;
  p_virt_ppid : Z;
  p_real_ppid : Z;
  p_num_peers : Z;
  p_is_root_of_tree : bool;
  p_state : proc_state;
  p_cleanup : bool
}.

Abbreviation loc := positive.

Record node := Node { data : proc; next : option loc; prev : option loc }.
Record proc_list := ProcListS { heap : gmap loc node; head : option loc; list_size : Z }.

Definition set_next (n : option loc) (x : node) : node := Node (data x) n (prev x).
Definition set_prev (n : option loc) (x : node) : node := Node (data x) (next x) n.

(** ** The operations on the heap *)

Definition proc_list_init : proc_list := ProcListS ∅ None 0.

Definition load (p : loc) : M proc_list node := hl ← get; deref (heap hl !! p).
Definition store (p : loc) (f : node -> node) : M proc_list unit :=
  x ← load p; modify (fun hl => ProcListS (<[p := f x]> (heap hl)) (head hl) (list_size hl)).
Definition set_head (h : option loc) : M proc_list unit :=
  modify (fun hl => ProcListS (heap hl) h (list_size hl)).
Definition set_size (f : Z -> Z) : M proc_list unit :=
  modify (fun hl => ProcListS (heap hl) (head hl) (f (list_size hl))).
(** [malloc] of a [struct proc] whose fields are then assigned, and [free]. *)
Definition malloc_proc (p : loc) (d : proc) : M proc_list unit :=
  modify (fun hl => ProcListS (<[p := Node d None None]> (heap hl)) (head hl) (list_size hl)).
Definition free_proc (p : loc) : M proc_list unit :=
  load p;; modify (fun hl => ProcListS (delete p (heap hl)) (head hl) (list_size hl)).

Definition proc_list_add (p : loc) : M proc_list unit :=
  store p (set_prev None);;
  h ← gets head;
  store p (set_next h);;
  set_head (Some p);;
  x ← load p;
  match next x with
  | Some q => store q (set_prev (Some p))
  | None => mret tt
  end;;
  set_size (fun n => n + 1).

(** [proc_list_remove] up to its call of [p->cleanup(p)], which the caller of
    the model runs: the result says whether and with what the callback is
    called.  The callback does not read the links. *)
Definition proc_list_remove (p : loc) : M proc_list (option proc) :=
  h ← gets head;
  x ← load p;
  (if bool_decide (h = Some p) then
     xnd_assert (bool_decide (prev x = None));;
     set_head (next x)
   else
     xnd_assert (negb (bool_decide (prev x = None)));;
     match prev x with
     | Some q => store q (set_next (next x))
     | None => ub
     end);;
  match next x with
  | Some q => store q (set_prev (prev x))
  | None => mret tt
  end;;
  free_proc p;;
  set_size (fun n => n - 1);;
  mret (if p_cleanup (data x) then Some (data x) else None).

(** [proc_foreach] with a test and an early return. *)
Fixpoint proc_list_search (fuel : nat) (test : proc -> bool) (p : option loc)
    : M proc_list (option (loc * proc)) :=
  match p, fuel with
  | None, _ => mret None
  | Some _, O => nofuel
  | Some p, S fuel =>
    x ← load p;
    if test (data x) then mret (Some (p, data x)) else proc_list_search fuel test (next x)
  end.

Definition search (test : proc -> bool) : M proc_list (option (loc * proc)) :=
  hl ← get; proc_list_search (size (heap hl)) test (head hl).

Definition proc_list_find_by_real_pid (real : Z) : M proc_list (option loc) :=
  r ← search (fun d => p_real_pid d =? real); mret (fst <$> r).
Definition proc_list_find_by_virt_pid (virt : Z) : M proc_list (option loc) :=
  r ← search (fun d => p_virt_pid d =? virt); mret (fst <$> r).
Definition proc_list_find_by_xnd_pid (xnd_pid : Z) : M proc_list (option loc) :=
  r ← search (fun d => p_xnd_pid d =? xnd_pid); mret (fst <$> r).
Definition proc_list_real_to_virt (real : Z) : M proc_list Z :=
  r ← search (fun d => p_real_pid d =? real);
  mret (match r with Some (_, d) => p_virt_pid d | None => -1 end).
Definition proc_list_virt_to_real (virt : Z) : M proc_list Z :=
  r ← search (fun d => p_virt_pid d =? virt);
  mret (match r with Some (_, d) => p_real_pid d | None => -1 end).

(** The two [proc_foreach_safe] loops.  Both return the processes whose
    cleanup callback is run, in order.  [kill(pid, 0)] is a parameter: whether
    it fails with [ESRCH]. *)
Fixpoint proc_list_destroy_loop (fuel : nat) (p : option loc) : M proc_list (list proc) :=
  match p, fuel with
  | None, _ => mret []
  | Some _, O => nofuel
  | Some p, S fuel =>
    x ← load p;
    let nxt := next x in
    free_proc p;;
    rest ← proc_list_destroy_loop fuel nxt;
    mret (if p_cleanup (data x) then data x :: rest else rest)
  end.
Definition proc_list_destroy : M proc_list (list proc) :=
  hl ← get; proc_list_destroy_loop (size (heap hl)) (head hl).

Fixpoint proc_list_filter_loop (esrch : Z -> bool) (fuel : nat) (p : option loc)
    : M proc_list (list proc) :=
  match p, fuel with
  | None, _ => mret []
  | Some _, O => nofuel
  | Some p, S fuel =>
    x ← load p;
    let nxt := next x in
    if esrch (p_real_pid (data x)) then
      c ← proc_list_remove p;
      rest ← proc_list_filter_loop esrch fuel nxt;
      mret (option_list c ++ rest)
    else proc_list_filter_loop esrch fuel nxt
  end.
Definition proc_list_filter (esrch : Z -> bool) : M proc_list (list proc) :=
  hl ← get; proc_list_filter_loop esrch (size (heap hl)) (head hl).

(** ** The list *)

(** Locations and processes in traversal order. *)
Abbreviation plist := (list (loc * proc)).

Definition pl_remove (p : loc) (l : plist) : plist := List.filter (fun x => negb (bool_decide (x.1 = p))) l.
Definition pl_get (p : loc) (l : plist) : option proc := snd <$> List.find (fun x => bool_decide (x.1 = p)) l.
Definition pl_set (p : loc) (f : proc -> proc) (l : plist) : plist :=
  (fun x => if bool_decide (x.1 = p) then (p, f x.2) else x) <$> l.
Definition pl_find (test : proc -> bool) (l : plist) : option (loc * proc) := List.find (fun x => test x.2) l.
(** [p->next]: [None] when [p] is not in the list. *)
Fixpoint pl_next (p : loc) (l : plist) : option (option loc) :=
  match l with
  | [] => None
  | (q, _) :: l' => if bool_decide (q = p) then Some (fst <$> l' !! 0%nat) else pl_next p l'
  end.

(** A segment of the linked list: its nodes, the node before and after it. *)
Fixpoint seg (h : gmap loc node) (before : option loc) (l : plist) (after : option loc) : Prop :=
  match l with
  | [] => True
  | (p, d) :: l' =>
    h !! p = Some (Node d (match l' with [] => after | (q, _) :: _ => Some q end) before) /\
    seg h (Some p) l' after
  end.

Definition first (l : plist) (after : option loc) : option loc :=
  match l with [] => after | (q, _) :: _ => Some q end.

(** The heap represents the list; it may hold other allocated nodes. *)
Record rep (hl : proc_list) (l : plist) : Prop := {
  rep_head : head hl = first l None;
  rep_seg : seg (heap hl) None l None;
  rep_nodup : NoDup (l.*1);
  rep_size : list_size hl = Z.of_nat (length l)
}.

Lemma seg_app h b l1 l2 a :
  seg h b (l1 ++ l2) a <->
  seg h b l1 (first l2 a) /\ seg h (match last l1 with Some x => Some x.1 | None => b end) l2 a.
Proof.
  revert b. induction l1 as [|[p d] l1 IH]; intros b; simpl; [tauto|].
  rewrite IH. destruct l1 as [|[q e] l1].
  - destruct l2 as [|[r f] l2]; simpl; tauto.
  - rewrite last_cons_cons. simpl (first _ _). simpl ((_ :: _) ++ _).
    destruct (last ((q, e) :: l1)) eqn:E; [tauto|]. by apply last_None in E.
Qed.

Lemma seg_lookup h b l a p d : seg h b l a -> (p, d) ∈ l -> exists n v, h !! p = Some (Node d n v).
Proof.
  revert b. induction l as [|[q e] l IH]; intros b Hs Hin; [by apply elem_of_nil in Hin|].
  destruct Hs as [Hq Hs]. apply elem_of_cons in Hin as [[= -> ->]|Hin]; [by eauto|by eapply IH].
Qed.

Lemma seg_frame h b l a p x : p ∉ l.*1 -> seg h b l a -> seg (<[p:=x]> h) b l a.
Proof.
  revert b. induction l as [|[q e] l IH]; intros b Hn Hs; [done|]. simpl in *.
  apply not_elem_of_cons in Hn as [Hne Hn]. destruct Hs as [Hq Hs].
  split; [by rewrite lookup_insert_ne|by apply IH].
Qed.

Lemma seg_frame_delete h b l a p : p ∉ l.*1 -> seg h b l a -> seg (delete p h) b l a.
Proof.
  revert b. induction l as [|[q e] l IH]; intros b Hn Hs; [done|]. simpl in *.
  apply not_elem_of_cons in Hn as [Hne Hn]. destruct Hs as [Hq Hs].
  split; [by rewrite lookup_delete_ne|by apply IH].
Qed.

(** Changing the node before or after a segment. *)
Lemma seg_set_before h b b' p d l a :
  p ∉ l.*1 -> seg h b ((p, d) :: l) a -> seg (<[p := Node d (first l a) b']> h) b' ((p, d) :: l) a.
Proof.
  intros Hn [Hp Hs]. split; [|by apply seg_frame]. rewrite lookup_insert_eq. by destruct l as [|[]].
Qed.

Lemma seg_set_after h b l p d a a' :
  p ∉ l.*1 -> seg h b (l ++ [(p, d)]) a ->
  seg (<[p := Node d a' (match last l with Some x => Some x.1 | None => b end)]> h) b (l ++ [(p, d)]) a'.
Proof.
  intros Hn [Hl [Hp _]]%seg_app. apply seg_app. split; [by apply seg_frame|].
  split; [|done]. by rewrite lookup_insert_eq.
Qed.

Lemma load_ret hl p x : heap hl !! p = Some x -> load p hl = Ret x hl.
Proof. intros H. unfold load. mrun. by rewrite H. Qed.

Lemma store_ret hl p f x : heap hl !! p = Some x ->
  store p f hl = Ret tt (ProcListS (<[p := f x]> (heap hl)) (head hl) (list_size hl)).
Proof. intros H. unfold store. rewrite (bind_ret _ _ _ _ _ (load_ret _ _ _ H)). done. Qed.

Lemma free_ret hl p x : heap hl !! p = Some x ->
  free_proc p hl = Ret tt (ProcListS (delete p (heap hl)) (head hl) (list_size hl)).
Proof. intros H. unfold free_proc. rewrite (bind_ret _ _ _ _ _ (load_ret _ _ _ H)). done. Qed.

(** Symbolic execution of the heap operations. *)
Lemma returns_ret' (f : proc_list -> proc_list) (Q : unit -> proc_list -> Prop) (s : proc_list) :
  Q tt (f s) -> returns (modify f) s Q.
Proof. done. Qed.

Ltac lookup_heap := cbn [heap head list_size];
  repeat first [rewrite lookup_insert_eq | rewrite lookup_insert_ne by congruence]; eassumption || reflexivity.
Ltac hstep := eapply returns_step;
  [first [ eapply load_ret; lookup_heap | eapply store_ret; lookup_heap | eapply free_ret; lookup_heap
         | unfold set_head, set_size, gets, modify, get; reflexivity ] | cbn [heap head list_size next prev data set_next set_prev]].
(** The last command of a sequence. *)
Ltac hend := eapply returns_intro;
  [first [ eapply load_ret; lookup_heap | eapply store_ret; lookup_heap | eapply free_ret; lookup_heap
         | unfold set_head, set_size, gets, modify, get; reflexivity ] | cbn [heap head list_size next prev data set_next set_prev]].

Lemma rep_remove_decompose hl l p d :
  rep hl l -> (p, d) ∈ l ->
  exists l1 l2, l = l1 ++ (p, d) :: l2 /\ p ∉ l1.*1 /\ p ∉ l2.*1 /\
    NoDup (l1.*1) /\ NoDup (l2.*1) /\ (forall q, q ∈ l1.*1 -> q ∉ l2.*1) /\ pl_remove p l = l1 ++ l2.
Proof.
  intros Hr (l1 & l2 & ->)%list_elem_of_split. exists l1, l2.
  pose proof (rep_nodup _ _ Hr) as Hn. rewrite fmap_app, fmap_cons in Hn.
  apply NoDup_app in Hn as (H1 & H2 & H3). apply NoDup_cons in H3 as [H3 H4]. simpl in *.
  assert (p ∉ l1.*1) as Hp1 by (intros Hin; apply (H2 _ Hin); left).
  split; [done|]. split; [done|]. split; [done|]. split; [done|]. split; [done|].
  split; [intros q Hq Hq2; apply (H2 _ Hq); by right|].
  unfold pl_remove. rewrite List.filter_app. simpl. rewrite bool_decide_eq_true_2 by done. simpl.
  assert (forall k : plist, p ∉ k.*1 -> List.filter (fun x => negb (bool_decide (x.1 = p))) k = k) as Hf.
  { induction k as [|[q e] k IH]; intros Hk; [done|]. simpl in *.
    apply not_elem_of_cons in Hk as [Hne Hk].
    rewrite bool_decide_eq_false_2 by congruence. simpl. by rewrite IH. }
  by rewrite !Hf.
Qed.

(** Adding a freshly allocated process to the linked list never follows a
    dangling pointer and puts it at the front of the represented list. *)
Theorem proc_list_add_refines (hl : proc_list) (l : plist) (p : loc) (x : node) :
  rep hl l -> p ∉ l.*1 -> heap hl !! p = Some x ->
  returns (proc_list_add p) hl (fun _ hl' => rep hl' ((p, data x) :: l)).
Proof.
  intros [Hh Hs Hnd Hz] Hp Hx. unfold proc_list_add.
  do 5 hstep. rewrite Hh. destruct l as [|[q e] l]; cbn [first next set_next set_prev].
  - hstep. apply returns_ret'. split; cbn; [done| |apply (NoDup_singleton p)|cbn in *; lia].
    split; [by rewrite lookup_insert_eq|done].
  - rewrite fmap_cons in Hp, Hnd. cbn [fst] in Hp, Hnd.
    apply not_elem_of_cons in Hp as [Hpq Hp]. apply NoDup_cons in Hnd as [Hq Hnd].
    destruct Hs as [Hqn Hs]. hstep. apply returns_ret'.
    split; cbn [heap head list_size first]; [done| | |cbn [length] in *; lia].
    + split; [by rewrite lookup_insert_ne, lookup_insert_eq by done|].
      split; [by rewrite lookup_insert_eq|].
      apply seg_frame; [done|]. do 2 (apply seg_frame; [done|]). done.
    + rewrite !fmap_cons. constructor; [|by constructor]. apply not_elem_of_cons. done.
Qed.

(** A one-node heap list, for the witnesses. *)
Definition proc0 : proc := Proc 3 (-1) 1001 1000 1001 2 4711 1 4242 0 true PROC_RUNNING true.
Definition proc1 : proc := Proc 4 (-1) 1002 1001 1001 3 4712 2 4711 0 false PROC_RUNNING true.
Definition one : proc_list :=
  ProcListS (<[2%positive := Node proc1 None None]> {[1%positive := Node proc0 None None]}) (Some 1%positive) 1.

Lemma one_rep : rep one [(1%positive, proc0)].
Proof. split; [done|by vm_compute|apply NoDup_singleton|done]. Defined.

Lemma proc_list_add_refines_witness :
  returns (proc_list_add 2) one (fun _ hl' => rep hl' [(2%positive, proc1); (1%positive, proc0)]).
Proof.
  apply (proc_list_add_refines one [(1%positive, proc0)] 2 (Node proc1 None None)).
  - apply one_rep.
  - vm_compute. intros H. inversion H as [|? ? ? H']. inversion H'.
  - reflexivity.
Defined.

Lemma rep_prev_not_head l1 p (d : proc) l2 hl :
  rep hl (l1 ++ (p, d) :: l2) -> l1 <> [] -> p ∉ l1.*1 -> bool_decide (head hl = Some p) = false.
Proof.
  intros Hr Hl1 Hp. apply bool_decide_eq_false_2. rewrite (rep_head _ _ Hr).
  destruct l1 as [|[q e] l1]; [done|]. simpl. intros [= ->]. apply Hp. left.
Qed.

Lemma pl_remove_length p (d : proc) (l1 l2 : plist) n :
  n = Z.of_nat (length (l1 ++ (p, d) :: l2)) -> n - 1 = Z.of_nat (length (l1 ++ l2)).
Proof. intros ->. rewrite !length_app. simpl. lia. Qed.

Lemma remove_spec (hl : proc_list) (l : plist) (p : loc) (d : proc) :
  rep hl l -> (p, d) ∈ l ->
  returns (proc_list_remove p) hl (fun r hl' =>
    rep hl' (pl_remove p l) /\ heap hl' !! p = None /\
    r = (if p_cleanup d then Some d else None)).
Proof.
  intros Hr Hin. destruct (rep_remove_decompose _ _ _ _ Hr Hin)
    as (l1 & l2 & -> & Hp1 & Hp2 & Hn1 & Hn2 & Hdis & ->).
  destruct Hr as [Hh Hs Hnd Hz]. pose proof (pl_remove_length _ _ _ _ _ Hz) as Hz'.
  pose proof Hs as [Hs1 [Hpn Hs2]]%seg_app. fold (first l2 None) in Hpn.
  assert (NoDup ((l1 ++ l2).*1)) as Hnd' by (rewrite fmap_app; by apply NoDup_app).
  unfold proc_list_remove. do 2 hstep. apply returns_bind.
  destruct (decide (l1 = [])) as [->|Hl1].
  - cbn [app last] in *. rewrite Hh. cbn [first]. rewrite !bool_decide_eq_true_2 by done.
    hstep. hend. destruct l2 as [|[q e] l2]; cbn [first] in *; apply returns_bind.
    + apply returns_ret. do 2 hstep. apply returns_ret.
      split; [by split|split; [apply lookup_delete_eq|done]].
    + destruct Hs2 as [Hqn Hs2]. rewrite fmap_cons in Hp2, Hn2. cbn [fst] in Hp2, Hn2.
      apply not_elem_of_cons in Hp2 as [Hpq Hp2]. apply NoDup_cons in Hn2 as [Hq2 Hn2].
      hend. do 2 hstep. apply returns_ret.
      split; [|split; [apply lookup_delete_eq|done]]. split; cbn [heap head list_size]; [done| |done|done].
      split; [by rewrite lookup_delete_ne, lookup_insert_eq|].
      apply seg_frame_delete; [done|]. by apply seg_frame.
  - rewrite (rep_prev_not_head l1 p d l2); [|by split|done|done].
    destruct l1 as [|[q e] l1 _] using rev_ind; [done|]. clear Hl1.
    rewrite last_snoc in *. cbn [fst] in *. rewrite fmap_app in Hp1, Hn1, Hdis.
    apply NoDup_app in Hn1 as (_ & Hq1 & _). setoid_rewrite elem_of_app in Hdis.
    rewrite elem_of_app in Hp1. rewrite fmap_cons in Hp1, Hdis, Hq1. cbn [fst] in *.
    assert (q ∉ l1.*1) as Hq1' by (intros Hi; apply (Hq1 _ Hi); left).
    assert (q ∉ l2.*1) as Hq2 by (apply Hdis; right; left).
    assert (p <> q) as Hpq by (intros ->; apply Hp1; right; left).
    pose proof Hs1 as [_ [Hqn _]]%seg_app. cbn [first] in Hqn.
    pose proof (seg_set_after _ _ _ _ _ _ (first l2 None) Hq1' Hs1) as Hs1'.
    assert (p ∉ (l1 ++ [(q, e)]).*1) as Hp1' by (by rewrite fmap_app, elem_of_app).
    assert (head hl = first ((l1 ++ [(q, e)]) ++ l2) None) as Hh' by (rewrite Hh; by destruct l1 as [|[]]).
    rewrite bool_decide_eq_false_2 by done. cbn [negb]. hstep. hend. apply returns_bind.
    destruct l2 as [|[r f] l2]; cbn [first] in *.
    + apply returns_ret. do 2 hstep. apply returns_ret.
      split; [|split; [apply lookup_delete_eq|done]]. split; cbn [heap head list_size]; [done| |done|done].
      rewrite app_nil_r. by apply seg_frame_delete.
    + destruct Hs2 as [Hrn Hs2]. rewrite fmap_cons in Hp2, Hn2, Hdis, Hq2. cbn [fst] in *.
      apply not_elem_of_cons in Hp2 as [Hpr Hp2]. apply NoDup_cons in Hn2 as [Hr2 Hn2].
      apply not_elem_of_cons in Hq2 as [Hqr Hq2].
      assert (r ∉ (l1 ++ [(q, e)]).*1) as Hr1.
      { rewrite fmap_app, elem_of_app. intros Hi. apply (Hdis _ Hi). left. }
      hend. do 2 hstep. apply returns_ret.
      split; [|split; [apply lookup_delete_eq|done]]. split; cbn [heap head list_size]; [done| |done|done].
      apply seg_app. cbn [first]. rewrite last_snoc.
      split; [apply seg_frame_delete; [done|by apply seg_frame]|].
      split; [by rewrite lookup_delete_ne, lookup_insert_eq|].
      apply seg_frame_delete; [done|]. apply seg_frame; [done|]. by apply seg_frame.
Qed.

(** Removing a process of the list never follows a dangling pointer or
    fails an assertion, unlinks exactly that process, keeps the order of the
    others, frees its node, and calls the cleanup callback once when set. *)
Theorem proc_list_remove_refines (hl : proc_list) (l : plist) (p : loc) (d : proc) :
  rep hl l -> (p, d) ∈ l ->
  returns (proc_list_remove p) hl (fun r hl' =>
    rep hl' (pl_remove p l) /\ heap hl' !! p = None /\
    r = (if p_cleanup d then Some d else None)).
Proof. apply remove_spec. Qed.

Lemma proc_list_remove_refines_witness :
  returns (proc_list_remove 1) one (fun r hl' =>
    rep hl' (pl_remove 1 [(1%positive, proc0)]) /\ heap hl' !! 1%positive = None /\
    r = (if p_cleanup proc0 then Some proc0 else None)).
Proof.
  apply (proc_list_remove_refines one [(1%positive, proc0)] 1 proc0); [apply one_rep|].
  apply list_elem_of_In. left. reflexivity.
Defined.

(** ** Traversals *)

Lemma seg_size (h : gmap loc node) l b a : NoDup (l.*1) -> seg h b l a -> (length l <= size h)%nat.
Proof.
  revert h b. induction l as [|[p d] l IH]; intros h b Hn Hs; cbn [length]; [lia|].
  destruct Hs as [Hp Hs]. apply NoDup_cons in Hn as [Hpn Hn].
  specialize (IH (delete p h) (Some p) Hn (seg_frame_delete _ _ _ _ _ Hpn Hs)).
  rewrite <- (insert_delete_id h p _ Hp), map_size_insert_None by apply lookup_delete_eq. lia.
Qed.

Lemma rep_size_heap hl l : rep hl l -> (length l <= size (heap hl))%nat.
Proof. intros []. by eapply seg_size. Qed.

Lemma search_loop_spec test hl l b fuel :
  seg (heap hl) b l None -> (length l <= fuel)%nat ->
  proc_list_search fuel test (first l None) hl = Ret (pl_find test l) hl.
Proof.
  revert b fuel. induction l as [|[p d] l IH]; intros b fuel Hs Hf; [by destruct fuel|].
  destruct fuel as [|fuel]; cbn [length] in Hf; [lia|]. destruct Hs as [Hp Hs].
  cbn [first proc_list_search]. rewrite (bind_ret _ _ _ _ _ (load_ret _ _ _ Hp)).
  cbn [data next pl_find List.find snd]. unfold pl_find. cbn [List.find snd].
  destruct (test d); [done|]. eapply IH; [done|lia].
Qed.

Lemma search_spec test hl l : rep hl l -> search test hl = Ret (pl_find test l) hl.
Proof.
  intros Hr. change (search test hl) with (proc_list_search (size (heap hl)) test (head hl) hl).
  rewrite (rep_head _ _ Hr). eapply search_loop_spec; [apply Hr|by apply rep_size_heap].
Qed.

(** The five lookups always return, change nothing, and answer from the
    first process of the list with the pid asked for: its address, its other
    pid, or null and -1 when there is none. *)
Theorem proc_list_lookups (hl : proc_list) (l : plist) (n : Z) :
  rep hl l ->
  let by_real := pl_find (fun d => p_real_pid d =? n) l in
  let by_virt := pl_find (fun d => p_virt_pid d =? n) l in
  proc_list_find_by_real_pid n hl = Ret (fst <$> by_real) hl /\
  proc_list_find_by_virt_pid n hl = Ret (fst <$> by_virt) hl /\
  proc_list_find_by_xnd_pid n hl = Ret (fst <$> pl_find (fun d => p_xnd_pid d =? n) l) hl /\
  proc_list_real_to_virt n hl = Ret (match by_real with Some x => p_virt_pid x.2 | None => -1 end) hl /\
  proc_list_virt_to_real n hl = Ret (match by_virt with Some x => p_real_pid x.2 | None => -1 end) hl.
Proof.
  intros Hr by_real by_virt.
  split; [exact (bind_ret _ _ _ _ _ (search_spec _ _ _ Hr))|].
  split; [exact (bind_ret _ _ _ _ _ (search_spec _ _ _ Hr))|].
  split; [exact (bind_ret _ _ _ _ _ (search_spec _ _ _ Hr))|].
  split; unfold proc_list_real_to_virt, proc_list_virt_to_real;
    rewrite (bind_ret _ _ _ _ _ (search_spec _ _ _ Hr)); unfold mret, M_ret.
  - subst by_real; clear by_virt. destruct (pl_find _ l) as [[]|]; reflexivity.
  - subst by_virt; clear by_real. destruct (pl_find _ l) as [[]|]; reflexivity.
Qed.

Lemma proc_list_lookups_witness :
  proc_list_find_by_real_pid 4711 one = Ret (Some 1%positive) one /\
  proc_list_real_to_virt 4711 one = Ret 2 one /\ proc_list_virt_to_real 9 one = Ret (-1) one.
Proof.
  destruct (proc_list_lookups one _ 4711 one_rep) as (H1 & _ & _ & H2 & _).
  destruct (proc_list_lookups one _ 9 one_rep) as (_ & _ & _ & _ & H3).
  split; [exact H1|]. split; [exact H2|exact H3].
Defined.

(** What is left of the list, and the cleanup calls, when the processes that
    fail the test are removed. *)
Definition pl_filter (dead : proc -> bool) (l : plist) : plist :=
  List.filter (fun x => negb (dead x.2)) l.
Definition cleanups (dead : proc -> bool) (l : plist) : list proc :=
  List.filter (fun d => dead d && p_cleanup d) (l.*2).

Lemma pl_remove_mid p (d : proc) (l1 l2 : plist) :
  NoDup ((l1 ++ (p, d) :: l2).*1) -> pl_remove p (l1 ++ (p, d) :: l2) = l1 ++ l2.
Proof.
  intros Hn. rewrite fmap_app, fmap_cons in Hn. apply NoDup_app in Hn as (_ & H2 & H3).
  apply NoDup_cons in H3 as [H3 _]. cbn [fst] in *.
  assert (p ∉ l1.*1) as H1 by (intros H; apply (H2 _ H); left).
  assert (forall k : plist, p ∉ k.*1 -> pl_remove p k = k) as Hf.
  { unfold pl_remove. induction k as [|[q e] k IH]; intros Hk; [done|].
    rewrite fmap_cons in Hk. apply not_elem_of_cons in Hk as [Hne Hk]. cbn [List.filter fst] in *.
    rewrite bool_decide_eq_false_2 by congruence. cbn [negb]. by rewrite IH. }
  unfold pl_remove in *. rewrite List.filter_app. cbn [List.filter fst].
  rewrite bool_decide_eq_true_2 by done. cbn [negb]. by rewrite !Hf.
Qed.

Lemma filter_loop_spec esrch hl done l fuel :
  rep hl (done ++ l) -> (length l <= fuel)%nat ->
  returns (proc_list_filter_loop esrch fuel (first l None)) hl (fun c hl' =>
    rep hl' (done ++ pl_filter (fun d => esrch (p_real_pid d)) l) /\
    c = cleanups (fun d => esrch (p_real_pid d)) l).
Proof.
  revert hl done fuel. induction l as [|[p d] l IH]; intros hl done fuel Hr Hf; [by destruct fuel|].
  destruct fuel as [|fuel]; cbn [length] in Hf; [lia|].
  pose proof (rep_seg _ _ Hr) as [_ [Hp _]]%seg_app. fold (first l None) in Hp.
  unfold pl_filter, cleanups. rewrite fmap_cons. cbn [first proc_list_filter_loop List.filter snd].
  eapply returns_step; [by apply load_ret|]. cbn [data next].
  destruct (esrch (p_real_pid d)) eqn:E; cbn [negb andb].
  - apply returns_bind. eapply returns_weaken.
    { apply (remove_spec _ _ p d Hr). apply elem_of_app. right. left. }
    intros c hl' (Hr' & _ & ->). rewrite (pl_remove_mid _ _ _ _ (rep_nodup _ _ Hr)) in Hr'.
    apply returns_bind. eapply returns_weaken; [apply (IH _ _ fuel Hr'); lia|].
    intros c hl2 [Hr2 ->]. apply returns_ret. split; [exact Hr2|]. by destruct (p_cleanup d).
  - rewrite cons_middle, app_assoc in Hr.
    eapply returns_weaken; [apply (IH _ _ fuel Hr); lia|].
    intros c hl2 [Hr2 ->]. split; [|done]. rewrite <- app_assoc in Hr2. exact Hr2.
Qed.

(** [proc_list_filter] always returns, removes exactly the processes whose
    pid no longer exists, runs the cleanup of each once, and keeps the order of
    the others; the loop survives the removal of the node it stands on. *)
Theorem proc_list_filter_refines (esrch : Z -> bool) (hl : proc_list) (l : plist) :
  rep hl l ->
  returns (proc_list_filter esrch) hl (fun c hl' =>
    rep hl' (pl_filter (fun d => esrch (p_real_pid d)) l) /\
    c = cleanups (fun d => esrch (p_real_pid d)) l).
Proof.
  intros Hr. unfold proc_list_filter. eapply returns_step; [done|].
  rewrite (rep_head _ _ Hr). apply (filter_loop_spec esrch hl [] l); [done|by apply rep_size_heap].
Qed.

Lemma proc_list_filter_refines_witness :
  returns (proc_list_filter (fun r => r =? 4711)) one (fun c hl' => rep hl' [] /\ c = [proc0]).
Proof. apply (proc_list_filter_refines (fun r => r =? 4711) one _ one_rep). Defined.

Lemma destroy_loop_spec hl l fuel b :
  NoDup (l.*1) -> seg (heap hl) b l None -> (length l <= fuel)%nat ->
  returns (proc_list_destroy_loop fuel (first l None)) hl (fun c hl' =>
    c = List.filter p_cleanup (l.*2) /\
    (forall p, heap hl' !! p = if decide (p ∈ l.*1) then None else heap hl !! p)).
Proof.
  revert hl fuel b. induction l as [|[p d] l IH]; intros hl fuel b Hn Hs Hf.
  { destruct fuel; (split; [done|]); intros q; by rewrite decide_False by apply not_elem_of_nil. }
  destruct fuel as [|fuel]; cbn [length] in Hf; [lia|].
  destruct Hs as [Hp Hs]. fold (first l None) in Hp.
  apply NoDup_cons in Hn as [Hpn Hn]. cbn [first proc_list_destroy_loop].
  hstep. hstep. apply returns_bind.
  eapply returns_weaken; [eapply (IH _ fuel (Some p)); [done| |lia]|].
  { cbn [heap]. by apply seg_frame_delete. }
  intros c hl' [-> Hh]. apply returns_ret. split; [by cbn; destruct (p_cleanup d)|].
  intros q. rewrite Hh. cbn [heap]. rewrite fmap_cons. cbn [fst].
  destruct (decide (q = p)) as [->|Hne].
  - rewrite (decide_True (P := p ∈ p :: _)) by left. rewrite lookup_delete_eq. by destruct (decide _).
  - rewrite lookup_delete_ne by done.
    destruct (decide (q ∈ l.*1)); [rewrite decide_True by (by right)|rewrite decide_False]; try done.
    apply not_elem_of_cons. done.
Qed.

(** [proc_list_destroy] always returns: every node of the list is freed,
    once, every cleanup callback runs once and in order, and no other
    allocation is touched. *)
Theorem proc_list_destroy_correct (hl : proc_list) (l : plist) :
  rep hl l ->
  returns proc_list_destroy hl (fun c hl' =>
    c = List.filter p_cleanup (l.*2) /\
    (forall p, heap hl' !! p = if decide (p ∈ l.*1) then None else heap hl !! p)).
Proof.
  intros Hr. unfold proc_list_destroy. eapply returns_step; [done|].
  rewrite (rep_head _ _ Hr). eapply destroy_loop_spec; [apply Hr..|by apply rep_size_heap].
Qed.

Lemma proc_list_destroy_correct_witness :
  returns proc_list_destroy one (fun c hl' => c = [proc0] /\
    (forall p, heap hl' !! p = if decide (p ∈ [1%positive]) then None else heap one !! p)).
Proof. apply (proc_list_destroy_correct one _ one_rep). Defined.
