(* ===== verification/Process.v ===== *)
(** The state of a process under xnd: the globals of the injected library
    that the pid, coordinator-client and wrapper components share, and the
    unsafe sections of [xnd/thread_info.h].

    A component's functions run in the state monad over [pstate K]; [K] is the
    kernel and whatever else is outside the process. *)

From S2P Require Import Prelude Cstr Env.
Open Scope Z_scope.

Inductive thread_state : Type :=
  | ST_EMBRYO
  | ST_RUNNING
  | ST_SIGNALED
  | ST_SUSPINPROG
  | ST_SUSPENDED
  | ST_CKPT_THREAD
  | ST_UNSAFE.
#[global] Instance thread_state_eq_dec : EqDecision thread_state.
Proof. solve_decision. Defined.

Inductive xnd_state : Type :=
  | XND_UNINITIALIZED
  | XND_RUNNING
  | XND_CKPT_PENDING
  | XND_SUSPINPROG
  | XND_CKPTINPROG
  | XND_ATFORK
  | XND_EXITING.
#[global] Instance xnd_state_eq_dec : EqDecision xnd_state.
Proof. solve_decision. Defined.

(** The state of the library, and whether the thread's [__TSD_XND_FLAG] slot
    holds [__TSD_XND_INIT] ([xnd_tlv_ok] of [xnd/tls.h]). *)
Record lib := Lib { libxnd_state : xnd_state; tlv_ok : bool }.

(** [_virt_pid], [_real_pid], [_virt_ppid], [_real_ppid] *)
Record pids := Pids { virt_pid : Z; real_pid : Z; virt_ppid : Z; real_ppid : Z }.

(** The globals of [xnd_lib.c] a process knows its computation by. *)
Record ids := Ids {
  xnd_pid : Z; xnd_ppid : Z; xnd_pgid : Z; xnd_uuid : list Z;
  epoch : Z; num_peers : Z; is_root_of_tree : bool
}.

(** The statics of [xnd_coord_client.c]. *)
Record client := Client { coord_fd : Z; child_coord_fd : Z; oob_fd : Z; oob_locked : bool }.

(** [virtual_id_table<pid_t>] and its mutex. *)
Record vtable := VTable { table : gmap Z Z; vlocked : bool }.

(** The calling thread's entry in the thread list. *)
Record thr := Thr { th_state : thread_state; wrapper_depth : Z }.

Record pstate (K : Type) := PState {
  g_pids : pids;
  g_ids : ids;
  g_client : client;
  g_table : vtable;
  g_self : option thr;
  g_lib : lib;
  g_errno : Z;
  g_env : env_state;
  g_k : K
}.
Arguments PState {K}.
Arguments g_pids {K}.
Arguments g_ids {K}.
Arguments g_client {K}.
Arguments g_table {K}.
Arguments g_self {K}.
Arguments g_lib {K}.
Arguments g_errno {K}.
Arguments g_env {K}.
Arguments g_k {K}.

Section setters.
Context {K : Type}.
Implicit Types s : pstate K.

Definition put_pids (p : pids) s : pstate K :=
  PState p (g_ids s) (g_client s) (g_table s) (g_self s) (g_lib s) (g_errno s) (g_env s) (g_k s).
Definition put_ids (i : ids) s : pstate K :=
  PState (g_pids s) i (g_client s) (g_table s) (g_self s) (g_lib s) (g_errno s) (g_env s) (g_k s).
Definition put_client (c : client) s : pstate K :=
  PState (g_pids s) (g_ids s) c (g_table s) (g_self s) (g_lib s) (g_errno s) (g_env s) (g_k s).
Definition put_table (t : vtable) s : pstate K :=
  PState (g_pids s) (g_ids s) (g_client s) t (g_self s) (g_lib s) (g_errno s) (g_env s) (g_k s).
Definition put_self (t : option thr) s : pstate K :=
  PState (g_pids s) (g_ids s) (g_client s) (g_table s) t (g_lib s) (g_errno s) (g_env s) (g_k s).
Definition put_lib (l : lib) s : pstate K :=
  PState (g_pids s) (g_ids s) (g_client s) (g_table s) (g_self s) l (g_errno s) (g_env s) (g_k s).
Definition put_errno (e : Z) s : pstate K :=
  PState (g_pids s) (g_ids s) (g_client s) (g_table s) (g_self s) (g_lib s) e (g_env s) (g_k s).
Definition put_env (e : env_state) s : pstate K :=
  PState (g_pids s) (g_ids s) (g_client s) (g_table s) (g_self s) (g_lib s) (g_errno s) e (g_k s).
Definition put_k (k : K) s : pstate K :=
  PState (g_pids s) (g_ids s) (g_client s) (g_table s) (g_self s) (g_lib s) (g_errno s) (g_env s) k.

Definition set_errno (e : Z) : M (pstate K) unit := modify (put_errno e).

(** A computation of the kernel, or of the environment, in the process. *)
Definition on_k {A} (m : M K A) : M (pstate K) A := fun s =>
  match m (g_k s) with
  | Ret a k => Ret a (put_k k s)
  | Exit c k => Exit c (put_k k s)
  | Abort k => Abort (put_k k s)
  | Ub => Ub
  | NoFuel => NoFuel
  end.
Definition on_env {A} (m : M env_state A) : M (pstate K) A := fun s =>
  match m (g_env s) with
  | Ret a e => Ret a (put_env e s)
  | Exit c e => Exit c (put_env e s)
  | Abort e => Abort (put_env e s)
  | Ub => Ub
  | NoFuel => NoFuel
  end.

Lemma on_k_ret {A} (m : M K A) s a k : m (g_k s) = Ret a k -> on_k m s = Ret a (put_k k s).
Proof. intros H. unfold on_k. by rewrite H. Qed.
Lemma on_k_returns {A} (m : M K A) s Q :
  returns m (g_k s) (fun a k => Q a (put_k k s)) -> returns (on_k m) s Q.
Proof. unfold returns, on_k. by destruct (m (g_k s)). Qed.

(** A call that returns a value and may set errno. *)
Definition call {A} (f : K -> (A * option Z) * K) : M (pstate K) A := fun s =>
  let '(r, e, k) := f (g_k s) in
  let s := put_k k s in
  Ret r (match e with Some e => put_errno e s | None => s end).

(** [XND_SKIP_INTERPOSE] of [xnd/interpose.h] *)
Definition XND_SKIP_INTERPOSE : M (pstate K) bool :=
  l ← gets g_lib; mret (negb (tlv_ok l) || bool_decide (libxnd_state l = XND_UNINITIALIZED)).

(** ** Unsafe sections

    A thread inside one is not suspended by a checkpoint.  [unsafe_enter] of a
    running thread cannot fail; of a thread in another state it spins until a
    signal handler or the checkpoint thread changes the state, which is outside
    this sequential view. *)
Definition outside_checkpoint (t : option thr) : bool :=
  match t with
  | None => true
  | Some t => match th_state t with ST_EMBRYO | ST_CKPT_THREAD => true | _ => false end
  end.

Definition unsafe_enter : M (pstate K) unit :=
  self ← gets g_self;
  match self with
  | Some t =>
    if outside_checkpoint self then mret tt else
    if wrapper_depth t =? 0 then
      if bool_decide (th_state t = ST_RUNNING)
      then modify (put_self (Some (Thr ST_UNSAFE 1)))
      else nofuel
    else modify (put_self (Some (Thr (th_state t) (u32 (wrapper_depth t + 1)))))
  | None => mret tt
  end.

Definition unsafe_exit : M (pstate K) unit :=
  self ← gets g_self;
  match self with
  | Some t =>
    if outside_checkpoint self then mret tt else
    let depth := u32 (wrapper_depth t - 1) in
    if depth =? 0 then
      modify (put_self (Some (Thr (if bool_decide (th_state t = ST_UNSAFE) then ST_RUNNING
                                   else th_state t) depth)))
    else modify (put_self (Some (Thr (th_state t) depth)))
  | None => mret tt
  end.

(** A thread that may call a hook: outside checkpoints, running outside any
    unsafe section, or inside one. *)
Definition self_ok (t : option thr) : Prop :=
  outside_checkpoint t = true \/
  exists th d, t = Some (Thr th d) /\ 0 <= d < 2 ^ 32 - 1 /\
    ((d = 0 /\ th = ST_RUNNING) \/ (0 < d /\ th = ST_UNSAFE)).

(** The thread inside one more unsafe section. *)
Definition entered (t : option thr) : option thr :=
  if outside_checkpoint t then t else
  match t with Some t => Some (Thr ST_UNSAFE (wrapper_depth t + 1)) | None => None end.

Lemma unsafe_enter_spec s : self_ok (g_self s) ->
  unsafe_enter s = Ret tt (put_self (entered (g_self s)) s).
Proof.
  intros Hok. unfold unsafe_enter, entered. destruct s as [? ? ? ? self ? ? ? ?]. mrun.
  destruct self as [[th d]|]; [|done].
  destruct Hok as [->|(th' & d' & [= <- <-] & Hd & [[-> ->]|[Hp ->]])]; [done|done|].
  cbn. rewrite (proj2 (Z.eqb_neq _ _)) by lia. cbn [outside_checkpoint th_state].
  rewrite (wrapu_small 32 (d + 1)) by (unfold in_u; lia). done.
Qed.

Lemma unsafe_exit_spec s t : self_ok t -> g_self s = entered t ->
  unsafe_exit s = Ret tt (put_self t s).
Proof.
  intros Hok Hs. unfold unsafe_exit. destruct s as [? ? ? ? self ? ? ? ?]. mrun. subst self.
  destruct t as [[th d]|]; [|done].
  destruct Hok as [Ho|(th' & d' & [= <- <-] & Hd & [[-> ->]|[Hp ->]])].
  - unfold entered. rewrite Ho. by rewrite Ho.
  - done.
  - unfold entered. cbn [outside_checkpoint th_state wrapper_depth].
    rewrite Z.add_simpl_r, wrapu_small by (unfold in_u; lia).
    rewrite (proj2 (Z.eqb_neq _ _)) by lia. done.
Qed.
(** A process whose hooks do their work: a thread with its thread-local
    variables set up, after the library has started. *)
Definition interposing s : Prop := tlv_ok (g_lib s) = true /\ libxnd_state (g_lib s) <> XND_UNINITIALIZED.
Lemma skip_false s : interposing s -> XND_SKIP_INTERPOSE s = Ret false s.
Proof. intros [Ht Hu]. unfold XND_SKIP_INTERPOSE. mrun. rewrite Ht. by rewrite bool_decide_eq_false_2. Qed.
End setters.
