(* ===== verification/PidTable.v ===== *)
(** The virtual pid table: [xnd/virtual_id_table.h],
    [xnd/pid/pid_table_common.cpp] and [xnd/pid/pid_table.cpp].

    The table is a finite map.  [std::unordered_map] does not specify in which
    order it is traversed; the class [IterOrder] is any order. *)

From S2P Require Import Prelude Cstr Env Process.
Open Scope Z_scope.

Class IterOrder := {
  iter : gmap Z Z -> list (Z * Z);
  iter_perm : forall m, iter m ≡ₚ map_to_list m;
}.

Section table.
Context `{IterOrder}.
Implicit Types t : gmap Z Z.

Definition update (virt real : Z) t : gmap Z Z := <[virt := real]> t.
Definition erase (virt : Z) t : gmap Z Z := delete virt t.
Definition reset t : gmap Z Z := ∅.
Definition pid_table_size t : Z := Z.of_nat (size t).
Definition virtual_id_exists (virt : Z) t : bool := bool_decide (is_Some (t !! virt)).
Definition real_id_exists (real : Z) t : bool :=
  List.existsb (fun x => x.2 =? real) (iter t).
Definition virtual_to_real (virt : Z) t : Z := default (-1) (t !! virt).
Definition real_to_virtual (real : Z) t : Z :=
  match List.find (fun x => x.2 =? real) (iter t) with Some x => x.1 | None => -1 end.

Lemma elem_of_iter t v r : (v, r) ∈ iter t <-> t !! v = Some r.
Proof. by rewrite iter_perm, elem_of_map_to_list. Qed.

Lemma real_id_exists_spec real t : real_id_exists real t = true <-> exists virt, t !! virt = Some real.
Proof.
  unfold real_id_exists. rewrite List.existsb_exists. split.
  - intros ([v r] & Hin & Hr). apply list_elem_of_In, elem_of_iter in Hin. cbn in Hr.
    exists v. by rewrite Hin, (proj1 (Z.eqb_eq _ _) Hr).
  - intros [v Hv]. exists (v, real). rewrite <- list_elem_of_In, elem_of_iter. split; [done|apply Z.eqb_refl].
Qed.

Lemma real_to_virtual_spec real t :
  (exists virt, real_to_virtual real t = virt /\ t !! virt = Some real) \/
  (real_to_virtual real t = -1 /\ forall virt, t !! virt <> Some real).
Proof.
  unfold real_to_virtual. destruct (List.find _ _) as [[v r]|] eqn:E.
  - left. apply find_Some_elem in E as [Hin Hr]. apply elem_of_iter in Hin. cbn in *.
    exists v. by rewrite Hin, (proj1 (Z.eqb_eq _ _) Hr).
  - right. split; [done|]. intros v Hv. rewrite find_None_elem in E.
    specialize (E (v, real)). rewrite elem_of_iter in E. specialize (E Hv). cbn in E.
    by rewrite Z.eqb_refl in E.
Qed.

(** In a table whose real pids are distinct and whose pids are not -1,
    translating a virtual pid to a real one and back gives it again, and so the
    other way round; -1 is returned exactly for the pids that are not in the
    table.  None of this depends on the order the map is traversed in. *)
Theorem pid_translation_inverse t (virt real : Z) :
  (forall v1 v2 r, t !! v1 = Some r -> t !! v2 = Some r -> v1 = v2) ->
  (forall v r, t !! v = Some r -> v <> -1 /\ r <> -1) ->
  (virtual_to_real virt t <> -1 -> real_to_virtual (virtual_to_real virt t) t = virt) /\
  (real_to_virtual real t <> -1 -> virtual_to_real (real_to_virtual real t) t = real) /\
  (virtual_to_real virt t = -1 <-> virtual_id_exists virt t = false) /\
  (real_to_virtual real t = -1 <-> real_id_exists real t = false).
Proof.
  intros Hinj Hpos. unfold virtual_to_real, virtual_id_exists. split; [|split; [|split]].
  - destruct (t !! virt) as [r|] eqn:E; [|done]. intros _. cbn.
    destruct (real_to_virtual_spec r t) as [(v & -> & Hv)|[_ Hn]]; [by eapply Hinj|by destruct (Hn virt)].
  - destruct (real_to_virtual_spec real t) as [(v & -> & Hv)|[-> Hn]]; [|done]. by rewrite Hv.
  - destruct (t !! virt) as [r|] eqn:E; cbn.
    + destruct (Hpos _ _ E). done.
    + done.
  - rewrite <- not_true_iff_false, real_id_exists_spec.
    destruct (real_to_virtual_spec real t) as [(v & -> & Hv)|[-> Hn]].
    + destruct (Hpos _ _ Hv) as [Hv' _]. split; [done|intros Hx; destruct Hx; by exists v].
    + split; [intros _ [v Hv]; by destruct (Hn v)|done].
Qed.
End table.

(** One order, for the witnesses. *)
#[export] Instance map_order : IterOrder := { iter := map_to_list; iter_perm m := Permutation_refl _ }.

Definition two : gmap Z Z := {[2 := 4711; 3 := 4712]}.
Lemma pid_translation_inverse_witness :
  real_to_virtual (virtual_to_real 2 two) two = 2 /\
  virtual_to_real 9 two = -1 /\
  real_id_exists 5 two = false.
Proof.
  assert (forall v r, two !! v = Some r -> (v = 2 /\ r = 4711) \/ (v = 3 /\ r = 4712)) as Hx.
  { intros v r. unfold two. destruct (decide (v = 2)) as [->|]; [intros Hv; simplify_map_eq; lia|].
    intros Hv. rewrite lookup_insert_ne in Hv by done. apply lookup_singleton_Some in Hv. lia. }
  assert (forall v1 v2 r, two !! v1 = Some r ->
            two !! v2 = Some r -> v1 = v2) as Hi.
  { intros v1 v2 r H1%Hx H2%Hx. lia. }
  assert (forall v r, two !! v = Some r -> v <> -1 /\ r <> -1) as Hp.
  { intros v r Hv%Hx. lia. }
  destruct (pid_translation_inverse _ 2 5 Hi Hp) as (H1 & _ & _ & H4).
  destruct (pid_translation_inverse _ 9 5 Hi Hp) as (_ & _ & H3 & _).
  split; [apply H1; vm_compute; congruence|]. split; [apply H3; reflexivity|apply H4; vm_compute; reflexivity].
Defined.

(** ** The process's table *)

Class PidOS (K : Type) := {
  _real_getpid : K -> Z;
  _real_getppid : K -> Z;
  _real_getpgrp : K -> Z;
  _real_getpgid : Z -> K -> Z;
}.

(** What the table needs of the coordinator's client: the translations of
    [xnd_coord_client.c].  The laws are the promise [CoordClient] keeps: called
    with the client's mutex free, a translation returns, and leaves everything
    but the kernel and the client alone, and its mutex free. *)
Class CoordTranslate (K : Type) := {
  virt_to_real_pid_from_coord : Z -> M (pstate K) Z;
  real_to_virt_pid_from_coord : Z -> M (pstate K) Z;
  notify_coord_of_exit : Z -> M (pstate K) unit;
}.

(** What a call to the client leaves alone. *)
Record client_frame {K} (s s' : pstate K) : Prop := {
  cf_pids : g_pids s' = g_pids s;
  cf_table : g_table s' = g_table s;
  cf_self : g_self s' = g_self s;
  cf_lib : g_lib s' = g_lib s;
  cf_env : g_env s' = g_env s;
  cf_lock : oob_locked (g_client s') = false
}.

Class CoordTranslateOk (K : Type) `{CoordTranslate K} := {
  virt_to_real_ok : forall v s, oob_locked (g_client s) = false ->
    returns (virt_to_real_pid_from_coord v) s (fun _ s' => client_frame s s');
  real_to_virt_ok : forall r s, oob_locked (g_client s) = false ->
    returns (real_to_virt_pid_from_coord r) s (fun _ s' => client_frame s s');
  notify_ok : forall r s, oob_locked (g_client s) = false ->
    returns (notify_coord_of_exit r) s (fun _ s' => client_frame s s');
}.

Section ops.
Context {K : Type} `{IterOrder} `{PidOS K} `{CoordTranslate K}.

(** Locking a mutex the caller already holds deadlocks. *)
Definition pid_table_acquire : M (pstate K) unit :=
  t ← gets g_table;
  if vlocked t then nofuel else modify (put_table (VTable (table t) true)).
Definition pid_table_release : M (pstate K) unit :=
  t ← gets g_table;
  if vlocked t then modify (put_table (VTable (table t) false)) else ub.
Definition modify_table (f : gmap Z Z -> gmap Z Z) : M (pstate K) unit :=
  t ← gets g_table; modify (put_table (VTable (f (table t)) (vlocked t))).
Definition pid_table_update (virt real : Z) : M (pstate K) unit := modify_table (update virt real).
Definition pid_table_erase (virt : Z) : M (pstate K) unit := modify_table (erase virt).
Definition pid_table_virtual_to_real (virt : Z) : M (pstate K) Z :=
  t ← gets g_table; mret (virtual_to_real virt (table t)).
Definition pid_table_real_to_virtual (real : Z) : M (pstate K) Z :=
  t ← gets g_table; mret (real_to_virtual real (table t)).

(** [_real_pid = _real_getpid(); _real_ppid = _real_getppid();] *)
Definition refresh_real_pids : M (pstate K) unit :=
  p ← gets g_pids; k ← gets g_k;
  modify (put_pids (Pids (virt_pid p) (_real_getpid k) (virt_ppid p) (_real_getppid k))).

Definition pid_table_init_pid_info : M (pstate K) unit :=
  p ← gets g_pids;
  xnd_assert (negb (virt_pid p =? -1) && negb (virt_ppid p =? -1));;
  refresh_real_pids;;
  pid_table_acquire;;
  p ← gets g_pids;
  pid_table_update (virt_pid p) (real_pid p);;
  pid_table_update (virt_ppid p) (real_ppid p);;
  pid_table_release.

(** The traversal of [pid_table_postrestart]; it only replaces the values of
    keys that are there, which leaves the traversal's order alone.  [erased]
    collects the pids the coordinator does not know. *)
Fixpoint postrestart_loop (l : list (Z * Z)) (erased : list Z) : M (pstate K) (list Z) :=
  match l with
  | [] => mret erased
  | (virt, _) :: l =>
    p ← gets g_pids;
    if (virt =? virt_pid p) || (virt =? virt_ppid p) then postrestart_loop l erased else
    new_real ← virt_to_real_pid_from_coord virt;
    if new_real =? -1 then postrestart_loop l (erased ++ [virt])
    else pid_table_update virt new_real;; postrestart_loop l erased
  end.

Fixpoint erase_all (l : list Z) : M (pstate K) unit :=
  match l with
  | [] => mret tt
  | virt :: l => pid_table_erase virt;; erase_all l
  end.

Definition pid_table_postrestart : M (pstate K) unit :=
  refresh_real_pids;;
  pid_table_acquire;;
  p ← gets g_pids;
  xnd_assert (negb (virt_pid p =? -1) && negb (virt_ppid p =? -1));;
  pid_table_update (virt_pid p) (real_pid p);;
  pid_table_update (virt_ppid p) (real_ppid p);;
  t ← gets g_table;
  erased ← postrestart_loop (iter (table t)) [];
  erase_all erased;;
  pid_table_release.

Definition pid_table_atfork_prepare : M (pstate K) unit := pid_table_acquire.
(** The mutex is unlocked and initialized again. *)
Definition pid_table_atfork_child_mutex : M (pstate K) unit :=
  t ← gets g_table; modify (put_table (VTable (table t) false)).
Definition pid_table_atfork_child : M (pstate K) unit :=
  pid_table_atfork_child_mutex;;
  pid_table_acquire;;
  refresh_real_pids;;
  p ← gets g_pids;
  pid_table_update (virt_pid p) (real_pid p);;
  real ← pid_table_virtual_to_real (virt_ppid p);
  xnd_assert (real =? real_ppid p);;
  pid_table_release.
Definition pid_table_atfork_parent : M (pstate K) unit := pid_table_release.
Definition pid_table_atfork_failed : M (pstate K) unit := pid_table_release.
End ops.

Section postrestart.
Context {K : Type} `{IterOrder} `{PidOS K} `{CoordTranslate K}.
(** What the coordinator answers while this process restarts, and that asking
    it leaves the pids, the table and the other globals alone. *)
Variable answer : Z -> Z.
Hypothesis answers : forall v s, oob_locked (g_client s) = false ->
  returns (virt_to_real_pid_from_coord v) s (fun r s' => r = answer v /\ client_frame s s').

(** The table after the traversal of [l]. *)
Definition kept (p : pids) (v : Z) : Prop := v = virt_pid p \/ v = virt_ppid p.
#[local] Instance kept_dec p v : Decision (kept p v).
Proof. unfold kept. apply _. Defined.

Lemma postrestart_loop_spec l erased (s : pstate K) :
  oob_locked (g_client s) = false -> NoDup (l.*1) -> (forall v, v ∈ l.*1 -> is_Some (table (g_table s) !! v)) ->
  returns (postrestart_loop l erased) s (fun e s' =>
    g_pids s' = g_pids s /\ vlocked (g_table s') = vlocked (g_table s) /\
    oob_locked (g_client s') = false /\ g_self s' = g_self s /\
    e = erased ++ List.filter (fun v => negb (bool_decide (kept (g_pids s) v)) && (answer v =? -1)) (l.*1) /\
    forall v, table (g_table s') !! v =
      if decide (v ∈ l.*1 /\ ~ kept (g_pids s) v /\ answer v <> -1) then Some (answer v)
      else table (g_table s) !! v).
Proof.
  revert erased s. induction l as [|[v r] l IH]; intros erased s Hl Hn Hin.
  { cbn. rewrite app_nil_r. by split_and!. }
  rewrite fmap_cons in *. apply NoDup_cons in Hn as [Hv Hn]. cbn [fst postrestart_loop List.filter] in *.
  eapply returns_step; [done|]. 
  assert (((v =? virt_pid (g_pids s)) || (v =? virt_ppid (g_pids s))) = bool_decide (kept (g_pids s) v)) as ->.
  { unfold kept. apply eq_true_iff_eq. rewrite bool_decide_eq_true, orb_true_iff, !Z.eqb_eq. done. }
  destruct (bool_decide_reflect (kept (g_pids s) v)) as [Hk|Hk]; cbn [negb andb].
  { eapply returns_weaken; [apply IH; [done|done|]; intros w Hw; apply Hin; by right|].
    intros e s' (-> & -> & -> & -> & -> & Ht). split_and!; try done.
    intros w. rewrite Ht. apply decide_ext. rewrite elem_of_cons. naive_solver. }
  apply returns_bind. eapply returns_weaken; [by apply answers|]. intros r' s1 [-> [Hp Htb Hs Hlb Hv' Hl1]].
  destruct (Z.eqb_spec (answer v) (-1)) as [Ha|Ha].
  { eapply returns_weaken; [apply IH; [done|done|]; intros w Hw; rewrite Htb; apply Hin; by right|].
    rewrite Hp, Htb, Hs. intros e s' (-> & -> & -> & -> & -> & Ht). rewrite <- app_assoc. split_and!; try done.
    intros w. rewrite Ht. apply decide_ext. rewrite elem_of_cons. naive_solver. }
  eapply returns_step; [done|].
  eapply returns_weaken; [apply IH; [done|done|]; intros w Hw|].
  { cbn [g_table put_table table]. rewrite Htb. unfold update.
    destruct (decide (w = v)) as [->|]; [by rewrite lookup_insert_eq|].
    rewrite lookup_insert_ne by done. apply Hin. by right. }
  cbn [g_table put_table table g_pids g_self vlocked]. rewrite Hp, Htb, Hs.
  intros e s' (-> & -> & -> & -> & -> & Ht). split_and!; try done.
  intros w. rewrite Ht. destruct (decide (w = v)) as [->|Hne].
  - unfold update. rewrite decide_False by tauto. rewrite lookup_insert_eq, decide_True; [done|].
    split; [left|done].
  - unfold update. rewrite lookup_insert_ne by done. apply decide_ext. rewrite elem_of_cons. naive_solver.
Qed.

Lemma erase_all_spec l (s : pstate K) :
  erase_all l s = Ret tt (put_table (VTable (foldl (fun t v => delete v t) (table (g_table s)) l)
                                            (vlocked (g_table s))) s).
Proof.
  revert s. induction l as [|v l IH]; intros s; [by destruct s as [? ? ? [] ? ? ? ? ?]|].
  cbn [erase_all]. erewrite bind_ret by done. by rewrite IH.
Qed.

Lemma foldl_delete_lookup l (t : gmap Z Z) v :
  foldl (fun t v => delete v t) t l !! v = if decide (v ∈ l) then None else t !! v.
Proof.
  revert t. induction l as [|w l IH]; intros t; cbn [foldl].
  { by rewrite decide_False by apply not_elem_of_nil. }
  rewrite IH. destruct (decide (v = w)) as [->|Hne].
  - rewrite (decide_True (P := w ∈ w :: l)) by left. rewrite lookup_delete_eq. by destruct (decide _).
  - rewrite lookup_delete_ne by done. apply decide_ext. rewrite elem_of_cons. naive_solver.
Qed.

Lemma elem_of_unknown l p v :
  v ∈ List.filter (fun v => negb (bool_decide (kept p v)) && (answer v =? -1)) l <->
  v ∈ l /\ ~ kept p v /\ answer v = -1.
Proof.
  rewrite list_elem_of_In, List.filter_In, <- list_elem_of_In, andb_true_iff, negb_true_iff, Z.eqb_eq.
  by rewrite bool_decide_eq_false.
Qed.

(** After a restart the table maps the process's and its parent's virtual
    pid to the real pids the kernel gives now, every other virtual pid it held
    to the coordinator's answer, and forgets those the coordinator does not
    know; nothing is added.  The table's mutex is free again. *)
Theorem pid_table_postrestart_correct (s : pstate K) (vp vpp : Z) :
  virt_pid (g_pids s) = vp -> virt_ppid (g_pids s) = vpp ->
  vp <> -1 -> vpp <> -1 -> vp <> vpp ->
  vlocked (g_table s) = false -> oob_locked (g_client s) = false ->
  returns pid_table_postrestart s (fun _ s' =>
    vlocked (g_table s') = false /\
    g_pids s' = Pids vp (_real_getpid (g_k s)) vpp (_real_getppid (g_k s)) /\
    forall v, table (g_table s') !! v =
      if decide (v = vp) then Some (_real_getpid (g_k s))
      else if decide (v = vpp) then Some (_real_getppid (g_k s))
      else if decide (is_Some (table (g_table s) !! v)) then
        (if decide (answer v = -1) then None else Some (answer v))
      else None).
Proof.
  intros Hvp Hvpp Hp Hpp Hne Hl Hol. unfold pid_table_postrestart.
  set (real := _real_getpid (g_k s)). set (preal := _real_getppid (g_k s)).
  set (t := update vpp preal (update vp real (table (g_table s)))).
  set (s1 := put_table (VTable t true) (put_pids (Pids vp real vpp preal) s)).
  do 4 (eapply returns_step; [first [done|by (unfold pid_table_acquire; mrun; rewrite Hl)|idtac]|]).
  { cbn. rewrite Hvp, Hvpp, !(proj2 (Z.eqb_neq _ _)) by done. done. }
  cbn [g_pids put_table put_pids virt_pid virt_ppid real_pid real_ppid]. rewrite Hvp, Hvpp.
  do 3 (eapply returns_step; [done|]).
  refine (_ : returns (postrestart_loop (iter t) [] ≫= _) s1 _).
  apply returns_bind. eapply returns_weaken; [apply postrestart_loop_spec; [done| |]|].
  - rewrite iter_perm. apply NoDup_fst_map_to_list.
  - intros v [[w r] [-> Hin]]%list_elem_of_fmap. apply elem_of_iter in Hin. by exists r.
  - intros e s' (Hp' & Hl' & Ho' & _ & He & Ht). rewrite app_nil_l in He.
    eapply returns_step; [apply erase_all_spec|].
    eapply returns_intro; [unfold pid_table_release; mrun; by rewrite Hl'|]. cbn.
    split; [done|]. split; [by rewrite Hp'|]. intros v. rewrite foldl_delete_lookup, Ht, He.
    assert (forall w, w ∈ (iter t).*1 <-> is_Some (t !! w)) as Hdom.
    { intros w. rewrite list_elem_of_fmap. split.
      - intros [[w' r] [-> Hin]]. apply elem_of_iter in Hin. by exists r.
      - intros [r Hr]. exists (w, r). by rewrite elem_of_iter. }
    rewrite (decide_ext _ _ _ _ (elem_of_unknown _ _ _)).
    rewrite (decide_ext _ _ _ _ (and_iff_compat_r _ (Hdom v))). change (table (g_table s1)) with t.
    rewrite (decide_ext _ _ _ _ (and_iff_compat_r _ (Hdom v))).
    change (kept (g_pids s1) v) with (v = vp \/ v = vpp). unfold t, update.
    destruct (decide (v = vp)) as [->|H1v].
    { rewrite !decide_False by tauto. by rewrite lookup_insert_ne, lookup_insert_eq. }
    destruct (decide (v = vpp)) as [->|H2v].
    { rewrite !decide_False by tauto. by rewrite lookup_insert_eq. }
    rewrite !lookup_insert_ne by done.
    repeat destruct (decide _); try tauto. by apply eq_None_not_Some.
Qed.
End postrestart.

(** A coordinator that knows only virtual pid 7, and answers without state. *)
Definition test_translate : CoordTranslate unit := {|
  virt_to_real_pid_from_coord v := mret (if v =? 7 then 9007 else -1);
  real_to_virt_pid_from_coord _ := mret (-1);
  notify_coord_of_exit _ := mret tt
|}.
Definition test_os : PidOS unit := {|
  _real_getpid _ := 9003; _real_getppid _ := 9001; _real_getpgrp _ := 9003; _real_getpgid _ _ := 9003
|}.
Definition restarted : pstate unit :=
  PState (Pids 3 4003 1 4001) (Ids 1003 1001 1003 [] 1 2 false) (Client 210 (-1) (-1) false)
    (VTable {[3 := 4003; 1 := 4001; 7 := 4007; 8 := 4008]} false) (Some (Thr ST_CKPT_THREAD 0)) (Lib XND_CKPTINPROG true) 0
    (EnvState ∅ (-1)) tt.

Lemma pid_table_postrestart_correct_witness :
  returns (@pid_table_postrestart unit _ test_os test_translate) restarted (fun _ s' =>
    vlocked (g_table s') = false /\ g_pids s' = Pids 3 9003 1 9001 /\
    forall v, table (g_table s') !! v =
      if decide (v = 3) then Some 9003
      else if decide (v = 1) then Some 9001
      else if decide (is_Some (table (g_table restarted) !! v)) then
        (if decide ((if v =? 7 then 9007 else -1) = -1) then None else Some (if v =? 7 then 9007 else -1))
      else None).
Proof.
  apply (@pid_table_postrestart_correct unit map_order test_os test_translate
           (fun v => if v =? 7 then 9007 else -1)); try (done || reflexivity || lia).
Defined.

(** Pid 8 is forgotten. *)
Example postrestart_example :
  match @pid_table_postrestart unit _ test_os test_translate restarted with
  | Ret _ s => table (g_table s) = {[3 := 9003; 1 := 9001; 7 := 9007]}
  | _ => False
  end.
Proof. vm_compute. reflexivity. Qed.
