(* ===== verification/Coord.v ===== *)
(** The coordinator: [xnd/coordinator/xnd_coord.c].

    The state is [coord_info], the process list at the level of [ProcList]'s
    specification (locations and processes, in order), the pid table and the
    kernel.  A location that is not in the list is freed memory: following it
    is undefined.  A local [struct xnd_msg] or a [malloc]ed [struct proc] holds
    the arbitrary values of [stack_msg] and [heap_proc] until it is assigned.

    [select], [accept], [kill], clocks and the socket file are parameters, as
    are the checkpoint-directory functions of [ckptfile.c] (class [CkptDir]).
    Tracing and error output are left out, [sigprocmask] keeps only whether the
    three handled signals are blocked. *)

From S2P Require Import Prelude Bytes Io CoordMsg ProcList Process PidTable.
Open Scope Z_scope.

Definition INITIAL_VIRT_PID : Z := 1.
Definition INITIAL_XND_PID : Z := 1000.
Definition COORD_EXIT_SUCCESS : Z := 0.
Definition COORD_EXIT_FAILURE : Z := 222.
Definition COORD_HEARTBEAT_INTERVAL : Z := 16.
Definition COORD_MAX_PROC : Z := 256.
Definition SIGKILL : Z := 9.
Definition ESRCH : Z := 3.

Inductive coord_comm_type : Type := COMM_BROADCAST | COMM_REDUCE.
#[global] Instance coord_comm_type_eq_dec : EqDecision coord_comm_type.
Proof. solve_decision. Defined.

(** The result of [socket], [bind] and [listen] on the coordinator's path. *)
Inductive socket_result : Type :=
  | Listening (fd : Z)
  | SocketExists
  | SocketFailed.

Class CoordOS (W : Type) := {
  os_close : Z -> W -> W;
  (** [kill]: 0 or an errno *)
  os_kill : Z -> Z -> W -> Z * W;
  (** [select] on the descriptors of a set, for writing or for reading: the
      return value and the set it leaves *)
  os_select : coord_comm_type -> list Z -> W -> (Z * list Z) * W;
  os_accept : Z -> W -> Z * W;
  os_getpid : W -> Z;
  os_getppid : W -> Z;
  os_time : W -> Z * W;
  os_usleep : Z -> W -> W;
  os_block_signals : bool -> W -> W;
  os_listen_socket : W -> socket_result * W;
  (** the socket file, if there is one, is unlinked *)
  os_unlink_socket : W -> W;
  os_uuid : W -> list Z * W;
}.

(** What the coordinator uses of [ckptfile.c]. *)
Class CkptDir (W : Type) := {
  xnd_ckptdir_create : list Z -> Z -> M W Z;
  xnd_ckptdir_unlink : list Z -> Z -> M W Z;
  xnd_ckptfile_write_manifest : Z -> Z -> Z -> list Z -> Z -> M W Z;
}.

(** [struct coord_info] and the other globals. *)
Record coord (W : Type) := Coord {
  c_xnd_uuid : list Z;
  c_epoch : Z;
  c_next_virt_pid : Z;
  c_next_xnd_pid : Z;
  c_num_peers : Z;
  c_listen_fd : Z;
  c_ckpt_interval : Z;
  (** [proc_list], null before [coord_init] and freed by [coord_cleanup] *)
  c_list : option plist;
  (** the next location [malloc] returns *)
  c_alloc : loc;
  c_table : gmap Z Z;
  c_os : W
}.
Arguments Coord {W}.
Arguments c_xnd_uuid {W}.
Arguments c_epoch {W}.
Arguments c_next_virt_pid {W}.
Arguments c_next_xnd_pid {W}.
Arguments c_num_peers {W}.
Arguments c_listen_fd {W}.
Arguments c_ckpt_interval {W}.
Arguments c_list {W}.
Arguments c_alloc {W}.
Arguments c_table {W}.
Arguments c_os {W}.

(** The processes of the list. *)
Definition procs {W} (s : coord W) : plist := default [] (c_list s).

Section setters.
Context {W : Type}.
Implicit Types s : coord W.
Definition put_list (l : plist) s : coord W :=
  Coord (c_xnd_uuid s) (c_epoch s) (c_next_virt_pid s) (c_next_xnd_pid s) (c_num_peers s)
        (c_listen_fd s) (c_ckpt_interval s) (Some l) (c_alloc s) (c_table s) (c_os s).
Definition free_list s : coord W :=
  Coord (c_xnd_uuid s) (c_epoch s) (c_next_virt_pid s) (c_next_xnd_pid s) (c_num_peers s)
        (c_listen_fd s) (c_ckpt_interval s) None (c_alloc s) (c_table s) (c_os s).
Definition put_os (w : W) s : coord W :=
  Coord (c_xnd_uuid s) (c_epoch s) (c_next_virt_pid s) (c_next_xnd_pid s) (c_num_peers s)
        (c_listen_fd s) (c_ckpt_interval s) (c_list s) (c_alloc s) (c_table s) w.
Definition put_ctable (t : gmap Z Z) s : coord W :=
  Coord (c_xnd_uuid s) (c_epoch s) (c_next_virt_pid s) (c_next_xnd_pid s) (c_num_peers s)
        (c_listen_fd s) (c_ckpt_interval s) (c_list s) (c_alloc s) t (c_os s).
Definition put_next (virt xnd : Z) s : coord W :=
  Coord (c_xnd_uuid s) (c_epoch s) virt xnd (c_num_peers s)
        (c_listen_fd s) (c_ckpt_interval s) (c_list s) (c_alloc s) (c_table s) (c_os s).
Definition put_alloc (p : loc) s : coord W :=
  Coord (c_xnd_uuid s) (c_epoch s) (c_next_virt_pid s) (c_next_xnd_pid s) (c_num_peers s)
        (c_listen_fd s) (c_ckpt_interval s) (c_list s) p (c_table s) (c_os s).
Definition put_epoch (e : Z) s : coord W :=
  Coord (c_xnd_uuid s) e (c_next_virt_pid s) (c_next_xnd_pid s) (c_num_peers s)
        (c_listen_fd s) (c_ckpt_interval s) (c_list s) (c_alloc s) (c_table s) (c_os s).
Definition put_peers (n : Z) s : coord W :=
  Coord (c_xnd_uuid s) (c_epoch s) (c_next_virt_pid s) (c_next_xnd_pid s) n
        (c_listen_fd s) (c_ckpt_interval s) (c_list s) (c_alloc s) (c_table s) (c_os s).
Definition put_listen (fd interval : Z) s : coord W :=
  Coord (c_xnd_uuid s) (c_epoch s) (c_next_virt_pid s) (c_next_xnd_pid s) (c_num_peers s)
        fd interval (c_list s) (c_alloc s) (c_table s) (c_os s).
Definition put_uuid (u : list Z) s : coord W :=
  Coord u (c_epoch s) (c_next_virt_pid s) (c_next_xnd_pid s) (c_num_peers s)
        (c_listen_fd s) (c_ckpt_interval s) (c_list s) (c_alloc s) (c_table s) (c_os s).
End setters.

(** Assignments to the fields of a [struct proc]. *)
Definition with_state (st : proc_state) (p : proc) : proc :=
  Proc (p_fd p) (p_oob_fd p) (p_xnd_pid p) (p_xnd_ppid p) (p_xnd_pgid p) (p_virt_pid p) (p_real_pid p)
       (p_virt_ppid p) (p_real_ppid p) (p_num_peers p) (p_is_root_of_tree p) st (p_cleanup p).
Definition with_root (b : bool) (p : proc) : proc :=
  Proc (p_fd p) (p_oob_fd p) (p_xnd_pid p) (p_xnd_ppid p) (p_xnd_pgid p) (p_virt_pid p) (p_real_pid p)
       (p_virt_ppid p) (p_real_ppid p) (p_num_peers p) b (p_state p) (p_cleanup p).
Definition with_fd (fd : Z) (p : proc) : proc :=
  Proc fd (p_oob_fd p) (p_xnd_pid p) (p_xnd_ppid p) (p_xnd_pgid p) (p_virt_pid p) (p_real_pid p)
       (p_virt_ppid p) (p_real_ppid p) (p_num_peers p) (p_is_root_of_tree p) (p_state p) (p_cleanup p).
Definition with_oob_fd (fd : Z) (p : proc) : proc :=
  Proc (p_fd p) fd (p_xnd_pid p) (p_xnd_ppid p) (p_xnd_pgid p) (p_virt_pid p) (p_real_pid p)
       (p_virt_ppid p) (p_real_ppid p) (p_num_peers p) (p_is_root_of_tree p) (p_state p) (p_cleanup p).

Section coord.
Context {W : Type} `{IoSys W} `{CoordOS W} `{CkptDir W} `{IterOrder}.
Context (stack_msg : xnd_msg) (heap_proc : proc).

Definition os {A} (f : W -> A * W) : M (coord W) A := fun s =>
  let '(a, w) := f (c_os s) in Ret a (put_os w s).
Definition os_ (f : W -> W) : M (coord W) unit := modify (fun s => put_os (f (c_os s)) s).
Definition on_os {A} (m : M W A) : M (coord W) A := fun s =>
  match m (c_os s) with
  | Ret a w => Ret a (put_os w s)
  | Exit c w => Exit c (put_os w s)
  | Abort w => Abort (put_os w s)
  | Ub => Ub
  | NoFuel => NoFuel
  end.

Definition send (fd : Z) (msg : xnd_msg) : M (coord W) Z := on_os (coord_send_msg fd msg).
Definition recv (fd : Z) : M (coord W) (option xnd_msg) := on_os (coord_recv_msg fd).
(** [err != 0 && errno == ESRCH] after [kill(pid, 0)] *)
Definition is_dead (pid : Z) : M (coord W) bool := err ← os (os_kill pid 0); mret (err =? ESRCH).

(** ** The process list *)

Definition the_list : M (coord W) plist := l ← gets c_list; deref l.
Definition list_size : M (coord W) Z := l ← the_list; mret (Z.of_nat (length l)).
Definition proc_at (p : loc) : M (coord W) proc := l ← the_list; deref (pl_get p l).
Definition set_proc (p : loc) (f : proc -> proc) : M (coord W) unit :=
  proc_at p;; l ← the_list; modify (put_list (pl_set p f l)).
Definition find_proc (test : proc -> bool) : M (coord W) (option (loc * proc)) :=
  l ← the_list; mret (pl_find test l).
Definition head_proc : M (coord W) (option loc) := l ← the_list; mret (fst <$> l !! 0%nat).
Definition next_proc (p : loc) : M (coord W) (option loc) := l ← the_list; deref (pl_next p l).

(** [proc_foreach]: the successor is read after the body.  The body threads
    the loop's variables and may leave the loop with a result. *)
Fixpoint foreach_loop {A R} (fuel : nat) (body : loc -> A -> M (coord W) (A + R)) (p : option loc) (a : A)
    : M (coord W) (A + R) :=
  match p, fuel with
  | None, _ => mret (inl a)
  | Some _, O => nofuel
  | Some p, S fuel =>
    r ← body p a;
    match r with
    | inl a => n ← next_proc p; foreach_loop fuel body n a
    | inr r => mret (inr r)
    end
  end.
Definition foreach {A R} (body : loc -> A -> M (coord W) (A + R)) (a : A) : M (coord W) (A + R) :=
  l ← the_list; p ← head_proc; foreach_loop (length l) body p a.

(** [proc_foreach_safe]: the successor is read before the body. *)
Fixpoint foreach_safe_loop {A} (fuel : nat) (body : loc -> A -> M (coord W) A) (p : option loc) (a : A)
    : M (coord W) A :=
  match p, fuel with
  | None, _ => mret a
  | Some _, O => nofuel
  | Some p, S fuel =>
    n ← next_proc p;
    a ← body p a;
    foreach_safe_loop fuel body n a
  end.
Definition foreach_safe {A} (body : loc -> A -> M (coord W) A) (a : A) : M (coord W) A :=
  l ← the_list; p ← head_proc; foreach_safe_loop (length l) body p a.

(** A loop that is never left early. *)
Definition foreach_all {A} (body : loc -> A -> M (coord W) A) (a : A) : M (coord W) A :=
  r ← foreach (R := Empty_set) (fun p a => inl <$> body p a) a;
  match r with inl a => mret a | inr e => match (e : Empty_set) with end end.

Definition proc_exit_callback (p : proc) : M (coord W) unit :=
  (if negb (p_fd p =? -1) then os_ (os_close (p_fd p)) else mret tt);;
  (if negb (p_oob_fd p =? -1) then os_ (os_close (p_oob_fd p)) else mret tt);;
  modify (fun s => put_ctable (erase (p_virt_pid p) (c_table s)) s).

(** [proc_list_remove] with its call of the cleanup callback. *)
Definition remove_proc (p : loc) : M (coord W) unit :=
  x ← proc_at p;
  l ← the_list;
  modify (put_list (pl_remove p l));;
  if p_cleanup x then proc_exit_callback x else mret tt.

Definition new_loc : M (coord W) loc :=
  p ← gets c_alloc; modify (put_alloc (Pos.succ p));; mret p.
Definition add_proc (p : loc) (x : proc) : M (coord W) unit :=
  l ← the_list; modify (put_list ((p, x) :: l)).

(** [proc_list_filter]: the processes that no longer exist are removed. *)
Definition filter_procs : M (coord W) unit :=
  foreach_safe (fun p _ =>
    x ← proc_at p;
    dead ← is_dead (p_real_pid x);
    if dead : bool then remove_proc p else mret tt) tt.

(** ** Cleanup and exit *)

(** [proc_list_destroy]: the callbacks in order; every node is freed. *)
Fixpoint run_cleanups (l : plist) : M (coord W) unit :=
  match l with
  | [] => mret tt
  | (_, x) :: l => (if p_cleanup x then proc_exit_callback x else mret tt);; run_cleanups l
  end.

Definition coord_cleanup : M (coord W) unit :=
  l ← the_list;
  run_cleanups l;;
  modify free_list;;
  fd ← gets c_listen_fd;
  (if negb (fd =? -1) then os_ (os_close fd) else mret tt);;
  os_ os_unlink_socket.

Definition coord_exit {A} (status : Z) : M (coord W) A :=
  coord_cleanup;; exit_with status.

(** [coord_handler], which runs in a signal handler. *)
Definition coord_handler (sig : Z) : M (coord W) unit :=
  foreach_all (fun p _ => x ← proc_at p; os (os_kill (p_real_pid x) sig);; mret tt) tt;;
  coord_cleanup;;
  pid ← gets (fun s => os_getpid (c_os s));
  os (os_kill pid sig);;
  mret tt.

(** [coord_init]; [interval] is [env_get_ckpt_interval()].  The three
    [coord_setup_handler] calls only install [coord_handler]. *)
Definition coord_init (interval : Z) : M (coord W) unit :=
  u ← os os_uuid;
  modify (put_uuid u);;
  fd ← os os_listen_socket;
  match fd with
  | SocketFailed => coord_exit COORD_EXIT_FAILURE
  | SocketExists => abort
  | Listening fd =>
    modify (put_listen fd interval);;
    modify (put_list [])
  end.

Definition coord_broadcast_kill : M (coord W) unit :=
  foreach_all (fun p _ => x ← proc_at p; os (os_kill (p_real_pid x) SIGKILL);; mret tt) tt;;
  coord_exit COORD_EXIT_SUCCESS.

(** ** Identifiers *)

Definition coord_next_virt_pid : M (coord W) Z :=
  s ← get;
  let next := c_next_virt_pid s in
  (if next =? 2 ^ 31 - 1 then ub else modify (put_next (next + 1) (c_next_xnd_pid s)));;
  if virtual_id_exists next (c_table s) then coord_exit COORD_EXIT_FAILURE else mret next.

Definition coord_next_xnd_pid : M (coord W) Z :=
  s ← get;
  modify (put_next (c_next_virt_pid s) (u32 (c_next_xnd_pid s + 1)));;
  mret (c_next_xnd_pid s).

Definition table_update (virt real : Z) : M (coord W) unit :=
  modify (fun s => put_ctable (update virt real (c_table s)) s).

(** ** Barriers *)

Definition coord_release_barrier (type : coord_barrier_type) : M (coord W) Z :=
  let '(hdr, expected, next) :=
    match type with
    | COORD_BARRIER_PRECKPT => (XND_CKPT_START, PROC_READY_FOR_CKPT, PROC_CKPT_IN_PROGRESS)
    | COORD_BARRIER_POSTCKPT => (XND_RESUME_AFTER_CKPT, PROC_CKPT_COMPLETE, PROC_RUNNING)
    | COORD_BARRIER_POSTRESTART => (XND_RESUME_AFTER_RESTART, PROC_RESTART_IN_PROGRESS, PROC_RUNNING)
    end in
  r ← foreach (fun p msg =>
        x ← proc_at p;
        xnd_assert (bool_decide (p_state x = expected));;
        peers ← gets c_num_peers;
        let msg := if bool_decide (type = COORD_BARRIER_PRECKPT)
                   then with_peers peers (if p_is_root_of_tree x then 1 else 0) msg else msg in
        err ← send (p_fd x) msg;
        if negb (err =? 0) then mret (inr (-1)) else
        set_proc p (with_state next);;
        mret (inl msg)) (with_hdr (hdr_code hdr) stack_msg);
  mret (match r with inl _ => 0 | inr r => r end).

(** The do-while of [coord_collective_prepare]: every descriptor is ready at
    once. *)
Fixpoint collective_prepare_loop (fuel : nat) (type : coord_comm_type) : M (coord W) Z :=
  match fuel with
  | O => nofuel
  | S fuel =>
    r ← foreach_safe (fun p '(total, set) =>
          x ← proc_at p;
          dead ← is_dead (p_real_pid x);
          if dead : bool then remove_proc p;; mret (total, set)
          else mret (total + 1, p_fd x :: set)) (0, []);
    let '(total, set) := r in
    sel ← os (os_select type set);
    let err := sel.1 in
    if err <? 0 then coord_exit COORD_EXIT_FAILURE else
    if negb (err =? total) then collective_prepare_loop fuel type else mret total
  end.
Definition coord_collective_prepare (fuel : nat) (type : coord_comm_type) : M (coord W) Z :=
  collective_prepare_loop fuel type.

(** ** Translation requests *)

Definition coord_send_virt_to_real (fd : Z) (msg : xnd_msg) : M (coord W) unit :=
  let virt := m_virt_pid msg in
  let resp := with_ret XND_SUCCESS (with_hdr (hdr_code XND_COORD_ACK) msg_zero) in
  t ← gets c_table;
  found ← find_proc (fun d => p_virt_pid d =? virt);
  let listed := match found with Some x => p_real_pid x.2 | None => -1 end in
  let real := if negb (virtual_to_real virt t =? -1) then virtual_to_real virt t else listed in
  let resp := if negb (real =? -1) then with_real_pid real resp
              else with_real_pid (-1) (with_ret XND_FAILURE resp) in
  err ← send fd resp;
  xnd_assert (err =? 0).

Definition coord_send_real_to_virt (fd : Z) (msg : xnd_msg) : M (coord W) unit :=
  let real := m_real_pid msg in
  let resp := with_ret XND_SUCCESS (with_hdr (hdr_code XND_COORD_ACK) msg_zero) in
  t ← gets c_table;
  found ← find_proc (fun d => p_real_pid d =? real);
  let listed := match found with Some x => p_virt_pid x.2 | None => -1 end in
  let virt := if negb (real_to_virtual real t =? -1) then real_to_virtual real t else listed in
  let resp := if negb (virt =? -1) then with_virt_pid virt resp
              else with_virt_pid (-1) (with_ret XND_FAILURE resp) in
  err ← send fd resp;
  xnd_assert (err =? 0).

(** ** Registration *)

Definition coord_send_handshake (x : proc) : M (coord W) unit :=
  uuid ← gets c_xnd_uuid;
  let msg := with_ids uuid (p_xnd_pid x) (p_xnd_ppid x) (p_xnd_pgid x)
    (with_pids (p_real_pid x) (p_real_ppid x) (p_virt_pid x) (p_virt_ppid x)
    (with_ret XND_SUCCESS (with_hdr (hdr_code XND_COORD_ACK) stack_msg))) in
  err ← send (p_fd x) msg;
  if negb (err =? 0) then coord_exit COORD_EXIT_FAILURE else mret tt.

(** A [struct proc] from [malloc]; its state and callback are assigned before
    it is added to the list. *)
Definition fresh_proc (fd xnd_pid xnd_ppid xnd_pgid virt_pid real_pid virt_ppid real_ppid : Z)
    (state : proc_state) : proc :=
  Proc fd (-1) xnd_pid xnd_ppid xnd_pgid virt_pid real_pid virt_ppid real_ppid
       (p_num_peers heap_proc) (p_is_root_of_tree heap_proc) state true.

Definition register (p : loc) (x : proc) : M (coord W) unit :=
  table_update (p_virt_pid x) (p_real_pid x);;
  table_update (p_virt_ppid x) (p_real_ppid x);;
  add_proc p x.

Definition coord_connect_with_process_on_launch (fd : Z) (msg : xnd_msg) : M (coord W) unit :=
  t ← gets c_table;
  if real_id_exists (m_real_pid msg) t then
    found ← find_proc (fun d => p_real_pid d =? m_real_pid msg);
    px ← deref found;
    os_ (os_close (p_fd px.2));;
    set_proc px.1 (with_fd fd);;
    x ← proc_at px.1;
    coord_send_handshake x
  else
    p ← new_loc;
    let '(real_pid, real_ppid) := (m_real_pid msg, m_real_ppid msg) in
    epoch ← gets c_epoch;
    xnd_assert (epoch =? 0);;
    x ← (if real_id_exists real_ppid t then
           found ← find_proc (fun d => p_real_pid d =? real_ppid);
           match found with
           | None => abort
           | Some (_, parent) =>
             virt_pid ← coord_next_virt_pid;
             xnd_pid ← coord_next_xnd_pid;
             mret (fresh_proc fd xnd_pid (p_xnd_pid parent) (p_xnd_pgid parent)
                     virt_pid real_pid (p_virt_pid parent) real_ppid PROC_RUNNING)
           end
         else
           virt_ppid ← coord_next_virt_pid;
           virt_pid ← coord_next_virt_pid;
           xnd_ppid ← coord_next_xnd_pid;
           xnd_pid ← coord_next_xnd_pid;
           mret (fresh_proc fd xnd_pid xnd_ppid xnd_pid virt_pid real_pid virt_ppid real_ppid PROC_RUNNING));
    coord_send_handshake x;;
    register p x.

Definition coord_connect_with_process_on_restart (fd : Z) (msg : xnd_msg) : M (coord W) unit :=
  p ← new_loc;
  let x := fresh_proc fd (m_xnd_pid msg) (m_xnd_ppid msg) (m_xnd_pgid msg)
             (m_virt_pid msg) (m_real_pid msg) (m_virt_ppid msg) (m_real_ppid msg)
             PROC_RESTART_IN_PROGRESS in
  s ← get;
  (if c_next_virt_pid s <=? p_virt_pid x then
     if p_virt_pid x =? 2 ^ 31 - 1 then ub else modify (put_next (p_virt_pid x + 1) (c_next_xnd_pid s))
   else mret tt);;
  s ← get;
  (if c_next_xnd_pid s <=? p_xnd_pid x
   then modify (put_next (c_next_virt_pid s) (u32 (p_xnd_pid x + 1))) else mret tt);;
  coord_send_handshake x;;
  register p x.

Definition coord_atfork (fd : Z) (parent_msg : xnd_msg) : M (coord W) unit :=
  p ← new_loc;
  virt_pid ← coord_next_virt_pid;
  xnd_pid ← coord_next_xnd_pid;
  let resp := with_virt_pid virt_pid (with_ret XND_SUCCESS (with_hdr (hdr_code XND_COORD_ACK) stack_msg)) in
  err ← send fd resp;
  if negb (err =? 0) then coord_exit COORD_EXIT_FAILURE else
  let virt_ppid := m_virt_ppid parent_msg in
  found ← find_proc (fun d => p_virt_pid d =? virt_ppid);
  match found with
  | None => coord_exit COORD_EXIT_FAILURE
  | Some (_, parent) =>
    child_msg ← recv fd;
    match child_msg with
    | None => coord_exit COORD_EXIT_FAILURE
    | Some child_msg =>
      xnd_assert (m_hdr child_msg =? hdr_code XND_ATFORK_CHILD);;
      xnd_assert (m_real_ppid child_msg =? p_real_pid parent);;
      let child := fresh_proc fd xnd_pid (m_xnd_ppid parent_msg) (m_xnd_pgid parent_msg)
                     virt_pid (m_real_pid child_msg) virt_ppid (m_real_ppid child_msg) PROC_RUNNING in
      coord_send_handshake child;;
      register p child
    end
  end.

(** ** Checkpoints *)

Definition coord_write_ckpt_manifest : M (coord W) unit :=
  r ← foreach_all (fun p '(mx, mn) =>
        x ← proc_at p; mret (Z.max (p_xnd_pid x) mx, Z.min (p_xnd_pid x) mn)) (0, 2 ^ 32 - 1);
  s ← get;
  err ← on_os (xnd_ckptfile_write_manifest (c_num_peers s) r.2 r.1 (c_xnd_uuid s) (c_epoch s));
  if negb (err =? 0) then coord_exit COORD_EXIT_FAILURE else mret tt.

Definition coord_determine_roots : M (coord W) unit :=
  foreach_all (fun p _ =>
    x ← proc_at p;
    parent ← find_proc (fun d => p_real_pid d =? p_real_ppid x);
    set_proc p (with_root (match parent with Some _ => false | None => true end))) tt.

(** One process in the do-while of [coord_suspend_processes]; the variables
    are [total] and [ready]. *)
Definition suspend_one (p : loc) (tr : Z * Z) : M (coord W) (Z * Z) :=
  let '(total, ready) := tr in
  x ← proc_at p;
  ready ← match p_state x with
          | PROC_RUNNING =>
            err ← send (p_fd x) (with_hdr (hdr_code XND_CKPT_REQUEST) msg_zero);
            (if err =? 0 then set_proc p (with_state PROC_RECV_CKPT_REQUEST) else mret tt);;
            mret ready
          | PROC_RECV_CKPT_REQUEST =>
            resp ← recv (p_fd x);
            match resp with
            | Some resp =>
              if m_hdr resp =? hdr_code XND_CKPT_READY then
                set_proc p (with_state PROC_READY_FOR_CKPT);; mret (ready + 1)
              else mret ready
            | None => mret ready
            end
          | PROC_READY_FOR_CKPT => mret (ready + 1)
          | _ => mret ready
          end;
  dead ← is_dead (p_real_pid x);
  if dead : bool then remove_proc p;; mret (total, ready) else mret (total + 1, ready).

Fixpoint coord_suspend_processes (fuel : nat) : M (coord W) unit :=
  match fuel with
  | O => nofuel
  | S fuel =>
    r ← foreach_safe suspend_one (0, 0);
    let '(total, ready) := r in
    if negb (ready =? total) then os_ (os_usleep 100);; coord_suspend_processes fuel
    else mret tt
  end.

Definition coord_wait_for_ckpt_completions (fuel : nat) : M (coord W) unit :=
  expected ← gets c_num_peers;
  total ← coord_collective_prepare fuel COMM_REDUCE;
  if negb (total =? expected) then coord_exit COORD_EXIT_FAILURE else
  total ← foreach_all (fun p total =>
            x ← proc_at p;
            xnd_assert (bool_decide (p_state x = PROC_CKPT_IN_PROGRESS));;
            msg ← recv (p_fd x);
            match msg with
            | Some msg =>
              if m_hdr msg =? hdr_code XND_CKPT_DONE then
                set_proc p (with_state PROC_CKPT_COMPLETE);; mret (total + 1)
              else mret total
            | None => mret total
            end) 0;
  if negb (total =? expected) then coord_exit COORD_EXIT_FAILURE else mret tt.

Definition coord_do_checkpoint (fuel : nat) : M (coord W) unit :=
  epoch ← gets c_epoch;
  os_ (os_block_signals true);;
  total ← coord_collective_prepare fuel COMM_BROADCAST;
  if total =? 0 then os_ (os_block_signals false) else
  coord_suspend_processes fuel;;
  uuid ← gets c_xnd_uuid;
  err ← on_os (xnd_ckptdir_create uuid epoch);
  (if negb (err =? 0) then
     on_os (xnd_ckptdir_unlink uuid epoch);; mret tt
   else
     n ← list_size;
     modify (put_peers (u32 n));;
     coord_determine_roots;;
     total ← coord_collective_prepare fuel COMM_BROADCAST;
     peers ← gets c_num_peers;
     xnd_assert (total =? peers);;
     err ← coord_release_barrier COORD_BARRIER_PRECKPT;
     xnd_assert (err =? 0);;
     coord_wait_for_ckpt_completions fuel;;
     coord_write_ckpt_manifest;;
     err ← coord_release_barrier COORD_BARRIER_POSTCKPT;
     xnd_assert (err =? 0);;
     (if negb (epoch =? 0) then on_os (xnd_ckptdir_unlink uuid (epoch - 1));; mret tt else mret tt);;
     modify (fun s => put_epoch (u64 (c_epoch s + 1)) s));;
  os_ (os_block_signals false).

(** ** Messages *)

Definition coord_handle_command (fuel : nat) (fd : Z) (msg : xnd_msg) : M (coord W) unit :=
  xnd_assert (m_hdr msg =? hdr_code XND_COMMAND);;
  match cmd_of (m_cmd msg) with
  | Some XND_CKPT_CMD => coord_do_checkpoint fuel
  | Some XND_KILL_CMD => coord_broadcast_kill
  | _ => coord_exit COORD_EXIT_FAILURE
  end;;
  err ← send fd (with_ret XND_SUCCESS (with_hdr (hdr_code XND_COORD_ACK) stack_msg));
  xnd_assert (err =? 0).

Definition coord_handle_msg (fd : Z) (msg : xnd_msg) : M (coord W) unit :=
  match hdr_of (m_hdr msg) with
  | Some XND_EXIT =>
    found ← find_proc (fun d => p_real_pid d =? m_real_pid msg);
    match found with
    | Some (p, _) => remove_proc p
    | None => mret tt
    end
  | Some XND_VIRT_TO_REAL => coord_send_virt_to_real fd msg
  | Some XND_REAL_TO_VIRT => coord_send_real_to_virt fd msg
  | _ => coord_exit COORD_EXIT_FAILURE
  end.

(** The body of the loop of [coord_wait_for_msg]; [set] is what [select]
    left. *)
Definition wait_for_msg_one (set : list Z) (p : loc) : M (coord W) unit :=
  x ← proc_at p;
  removed ← (if bool_decide (p_fd x ∈ set) then
               msg ← recv (p_fd x);
               match msg with
               | None => remove_proc p;; mret true
               | Some msg => coord_handle_msg (p_fd x) msg;; mret false
               end
             else mret false);
  if removed : bool then mret tt else
  x ← proc_at p;
  if negb (p_oob_fd x =? -1) && bool_decide (p_oob_fd x ∈ set) then
    msg ← recv (p_oob_fd x);
    match msg with
    | None => remove_proc p
    | Some msg => coord_handle_msg (p_oob_fd x) msg
    end
  else mret tt.

Definition coord_wait_for_msg : M (coord W) unit :=
  set ← foreach_all (fun p set =>
          x ← proc_at p;
          let set := p_fd x :: set in
          mret (if negb (p_oob_fd x =? -1) then p_oob_fd x :: set else set)) [];
  sel ← os (os_select COMM_REDUCE set);
  if sel.1 <=? 0 then mret tt else
  foreach_safe (fun p _ => wait_for_msg_one sel.2 p) tt.

Definition oob_request (fd : Z) (msg : xnd_msg) (reply : Z -> xnd_msg -> M (coord W) unit) : M (coord W) unit :=
  found ← find_proc (fun d => p_xnd_pid d =? m_xnd_pid msg);
  match found with
  | None => abort
  | Some (p, _) => set_proc p (with_oob_fd fd);; reply fd msg
  end.

(** The switch of [coord_wait_for_connection]. *)
Definition handle_connection (fuel : nat) (fd : Z) (msg : xnd_msg) : M (coord W) unit :=
  match hdr_of (m_hdr msg) with
  | Some XND_CONNECT_LAUNCH => coord_connect_with_process_on_launch fd msg
  | Some XND_CONNECT_RESTART =>
    n ← list_size;
    (if n =? 0 then
       modify (fun s => put_uuid (m_xnd_uuid msg) (put_listen (c_listen_fd s) (m_ckpt_interval msg)
                          (put_peers (m_num_peers msg) (put_epoch (m_epoch msg) s))))
     else mret tt);;
    coord_connect_with_process_on_restart fd msg
  | Some XND_ATFORK_PREPARE => coord_atfork fd msg
  | Some XND_COMMAND => coord_handle_command fuel fd msg;; os_ (os_close fd)
  | Some XND_REAL_TO_VIRT => oob_request fd msg coord_send_real_to_virt
  | Some XND_VIRT_TO_REAL => oob_request fd msg coord_send_virt_to_real
  | _ => coord_exit COORD_EXIT_FAILURE
  end.

Definition coord_wait_for_connection (fuel : nat) : M (coord W) unit :=
  listen ← gets c_listen_fd;
  sel ← os (os_select COMM_REDUCE [listen]);
  if sel.1 <=? 0 then mret tt else
  fd ← os (os_accept listen);
  if fd <? 0 then mret tt else
  msg ← recv fd;
  match msg with
  | None => abort
  | Some msg => handle_connection fuel fd msg
  end.

(** ** The main loops

    [fuel] bounds the iterations; the program runs until its last process is
    gone. *)

(** Both do-whiles that wait for the first process. *)
Fixpoint wait_first_process (fuel : nat) (ppid : Z) : M (coord W) unit :=
  match fuel with
  | O => nofuel
  | S fuel =>
    coord_wait_for_connection fuel;;
    n ← list_size;
    if negb (n =? 0) then mret tt else
    dead ← is_dead ppid;
    if dead : bool then coord_exit COORD_EXIT_FAILURE else wait_first_process fuel ppid
  end.

Fixpoint coord_work_loop (fuel : nat) (start : Z) (refresh : bool) (iter : Z) : M (coord W) unit :=
  match fuel with
  | O => nofuel
  | S fuel =>
    interval ← gets c_ckpt_interval;
    start ← (if negb (interval =? 0) && refresh then os os_time else mret start);
    let refresh := if negb (interval =? 0) && refresh then false else refresh in
    coord_wait_for_connection fuel;;
    coord_wait_for_msg;;
    interval ← gets c_ckpt_interval;
    refresh ← (if negb (interval =? 0) then
                 stop ← os os_time;
                 if interval <=? s32 (stop - start) then coord_do_checkpoint fuel;; mret true
                 else mret refresh
               else mret refresh);
    n ← list_size;
    if n =? 0 then mret tt else
    if iter mod COORD_HEARTBEAT_INTERVAL =? 0 then
      filter_procs;;
      n ← list_size;
      if n =? 0 then mret tt else coord_work_loop fuel start refresh (u64 (iter + 1))
    else coord_work_loop fuel start refresh (u64 (iter + 1))
  end.

Definition coord_work (fuel : nat) : M (coord W) unit :=
  ppid ← gets (fun s => os_getppid (c_os s));
  if ppid =? 1 then coord_exit COORD_EXIT_FAILURE else
  wait_first_process fuel ppid;;
  start ← os os_time;
  coord_work_loop fuel start false 0.

Fixpoint wait_all_peers (fuel : nat) (ppid : Z) : M (coord W) unit :=
  match fuel with
  | O => nofuel
  | S fuel =>
    n ← list_size;
    peers ← gets c_num_peers;
    if negb (n <? peers) then mret tt else
    coord_wait_for_connection fuel;;
    n ← list_size;
    peers ← gets c_num_peers;
    if n =? peers then mret tt else
    dead ← is_dead ppid;
    if dead : bool then coord_exit COORD_EXIT_FAILURE else wait_all_peers fuel ppid
  end.

Definition coord_do_restart (fuel : nat) : M (coord W) unit :=
  ppid ← gets (fun s => os_getppid (c_os s));
  if ppid =? 1 then coord_exit COORD_EXIT_FAILURE else
  wait_first_process fuel ppid;;
  wait_all_peers fuel ppid;;
  total ← coord_collective_prepare fuel COMM_BROADCAST;
  peers ← gets c_num_peers;
  if negb (total =? peers) then coord_exit COORD_EXIT_FAILURE else
  err ← coord_release_barrier COORD_BARRIER_POSTRESTART;
  if negb (err =? 0) then coord_exit COORD_EXIT_FAILURE else mret tt.

(** [main]; [restart] is [coord_is_restart(argc, argv)]. *)
Definition main (fuel : nat) (interval : Z) (restart : bool) : M (coord W) unit :=
  coord_init interval;;
  (if restart then coord_do_restart fuel else mret tt);;
  coord_work fuel;;
  coord_exit COORD_EXIT_SUCCESS.
End coord.
