(* ===== verification/CoordProps.v ===== *)
(** Properties of the coordinator of [Coord]: barriers, checkpoints, the
    registration invariant, translation, and the ways it fails. *)

From S2P Require Import Prelude Bytes Io CoordMsg ProcList Process PidTable Coord.
Open Scope Z_scope.

(** What [write] and [read] promise on any descriptor: a write that does not
    fail takes some of the bytes, a read gives no more than was asked for. *)
Class IoTotal (W : Type) `{IoSys W} := {
  write_total : forall fd buf w,
    (sys_write fd buf w).1 = -1 \/
    (0 <= (sys_write fd buf w).1 <= Z.of_nat (length buf) /\ (buf <> [] -> 0 < (sys_write fd buf w).1));
  read_total : forall fd n w, 0 <= n ->
    match (sys_read fd n w).1 with Some data => Z.of_nat (length data) <= n | None => True end;
}.
(** No read waits for ever: whoever is at the other end answers or closes. *)
Class IoAnswers (W : Type) `{IoSys W} := answers : forall fd n w, read_waits fd n w = false.

Section io_total.
Context {W : Type} `{IoSys W, !IoTotal W}.

Lemma writeall_loop_total fuel fd buf bytes w :
  0 <= bytes <= Z.of_nat (length buf) -> (length buf < fuel + Z.to_nat bytes)%nat ->
  returns (writeall_loop fuel fd buf bytes) w (fun _ _ => True).
Proof.
  revert bytes w. induction fuel as [|fuel IH]; intros bytes w Hb Hf; [lia|].
  unfold returns. cbn [writeall_loop].
  pose proof (write_total fd (drop (Z.to_nat bytes) buf) w) as Hw. rewrite length_drop in Hw.
  destruct (sys_write fd (drop (Z.to_nat bytes) buf) w) as [r w1]. cbn [fst] in Hw.
  destruct (Z.eqb_spec r (-1)) as [|Hr]; [done|].
  destruct (Z.ltb_spec (bytes + r) (Z.of_nat (length buf))) as [Hlt|]; [|done].
  destruct Hw as [|[Hr1 Hr2]]; [done|]. apply IH; [lia|].
  assert (0 < r); [|lia]. apply Hr2. intros Hd. apply (f_equal length) in Hd.
  rewrite length_drop in Hd. cbn in Hd. lia.
Qed.

(** It returns, unless a read waits for ever. *)
Definition answered {S A} (m : M S A) (s : S) (Q : A -> S -> Prop) : Prop :=
  match m s with
  | Ret a s' => Q a s'
  | NoFuel => exists fd n w, read_waits fd n w = true
  | _ => False
  end.
Lemma answered_returns {S A} `{!IoAnswers W} (m : M S A) (s : S) Q : answered m s Q -> returns m s Q.
Proof. unfold answered, returns. destruct (m s); try done. intros (fd & n & w & Hw). by rewrite answers in Hw. Qed.
Lemma returns_answered {S A} (m : M S A) (s : S) Q : returns m s Q -> answered m s Q.
Proof. unfold answered, returns. by destruct (m s). Qed.
Lemma answered_bind {S A B} (m : M S A) (k : A -> M S B) (s : S) Q :
  answered m s (fun a s' => answered (k a) s' Q) -> answered (m ≫= k) s Q.
Proof. unfold answered, mbind, M_bind. destruct (m s); naive_solver. Qed.
Lemma answered_weaken {S A} (m : M S A) (s : S) (Q Q' : A -> S -> Prop) :
  answered m s Q -> (forall a s', Q a s' -> Q' a s') -> answered m s Q'.
Proof. unfold answered. destruct (m s); naive_solver. Qed.

Lemma readall_loop_answered fuel fd n buf w :
  Z.of_nat (length buf) <= n -> (Z.to_nat n < fuel + length buf)%nat ->
  answered (readall_loop fuel fd n buf) w (fun _ _ => True).
Proof.
  revert buf w. induction fuel as [|fuel IH]; intros buf w Hb Hf; [lia|].
  unfold answered. cbn [readall_loop]. unfold read_call.
  destruct (read_waits fd _ w) eqn:Hwait; [by eexists _, _, _|].
  pose proof (read_total fd (n - Z.of_nat (length buf)) w ltac:(lia)) as Hr.
  destruct (sys_read fd (n - Z.of_nat (length buf)) w) as [[[|d data]|] w1]; try done.
  cbn [fst] in Hr. assert (length (buf ++ d :: data) = length buf + S (length data))%nat as Hlen
    by (by rewrite length_app).
  destruct (Z.ltb_spec (Z.of_nat (length (buf ++ d :: data))) n); [|done]. apply IH; lia.
Qed.

Lemma send_total fd m w : returns (coord_send_msg fd m) w (fun r _ => r = 0 \/ r = -1).
Proof.
  apply returns_bind. eapply returns_weaken; [apply writeall_loop_total; lia|].
  intros n w' _. apply returns_ret. destruct (n =? sizeof_msg); auto.
Qed.

Lemma recv_answered fd w : answered (coord_recv_msg fd) w (fun _ _ => True).
Proof.
  apply answered_bind. eapply answered_weaken; [apply readall_loop_answered; cbn [length]; [done|lia]|].
  intros n w' _. by apply returns_answered, returns_ret.
Qed.
End io_total.

(** ** The list operations at a position *)

Lemma pl_get_mid p (x : proc) (l1 l2 : plist) : p ∉ l1.*1 -> pl_get p (l1 ++ (p, x) :: l2) = Some x.
Proof.
  unfold pl_get. induction l1 as [|[q y] l1 IH]; cbn [app List.find fst]; intros Hp.
  - by rewrite bool_decide_eq_true_2.
  - rewrite fmap_cons in Hp. apply not_elem_of_cons in Hp as [Hne Hp]. cbn in Hne.
    rewrite bool_decide_eq_false_2 by congruence. by apply IH.
Qed.

Lemma pl_next_mid p (x : proc) (l1 l2 : plist) :
  p ∉ l1.*1 -> pl_next p (l1 ++ (p, x) :: l2) = Some (fst <$> l2 !! 0%nat).
Proof.
  induction l1 as [|[q y] l1 IH]; cbn [app pl_next]; intros Hp.
  - by rewrite bool_decide_eq_true_2.
  - rewrite fmap_cons in Hp. apply not_elem_of_cons in Hp as [Hne Hp]. cbn in Hne.
    rewrite bool_decide_eq_false_2 by congruence. by apply IH.
Qed.

Lemma pl_set_notin p f (l : plist) : p ∉ l.*1 -> pl_set p f l = l.
Proof.
  unfold pl_set. induction l as [|[q y] l IH]; [done|]. rewrite !fmap_cons. intros Hp.
  apply not_elem_of_cons in Hp as [Hne Hp]. cbn in Hne. cbn [fst].
  rewrite bool_decide_eq_false_2 by congruence. by rewrite IH.
Qed.

Lemma pl_set_mid p f (x : proc) (l1 l2 : plist) :
  p ∉ l1.*1 -> p ∉ l2.*1 -> pl_set p f (l1 ++ (p, x) :: l2) = l1 ++ (p, f x) :: l2.
Proof.
  intros H1 H2. unfold pl_set. rewrite fmap_app, fmap_cons. cbn [fst snd].
  rewrite bool_decide_eq_true_2 by done. fold (pl_set p f l1) (pl_set p f l2).
  by rewrite !pl_set_notin.
Qed.

Lemma NoDup_mid (l1 l2 : plist) p x :
  NoDup ((l1 ++ (p, x) :: l2).*1) -> p ∉ l1.*1 /\ p ∉ l2.*1.
Proof.
  rewrite fmap_app, fmap_cons. cbn. intros (_ & H2 & H3)%NoDup_app. apply NoDup_cons in H3 as [H3 _].
  split; [|done]. intros H. apply (H2 _ H). left.
Qed.

Lemma NoDup_locs (l1 l2 : plist) p x y :
  NoDup ((l1 ++ (p, x) :: l2).*1) -> NoDup ((l1 ++ (p, y) :: l2).*1).
Proof. by rewrite !fmap_app, !fmap_cons. Qed.

(** ** Rules for the loops *)

Section rules.
Context {W : Type}.
Implicit Types s : coord W.

Lemma proc_at_mid p x l1 l2 s : c_list s = Some (l1 ++ (p, x) :: l2) -> p ∉ l1.*1 -> proc_at p s = Ret x s.
Proof. intros Hl Hp. unfold proc_at, the_list. mrun. rewrite Hl. cbn. by rewrite pl_get_mid. Qed.

Lemma set_proc_mid p f x l1 l2 s :
  c_list s = Some (l1 ++ (p, x) :: l2) -> p ∉ l1.*1 -> p ∉ l2.*1 ->
  set_proc p f s = Ret tt (put_list (l1 ++ (p, f x) :: l2) s).
Proof.
  intros Hl Hp Hp2. unfold set_proc. rewrite (bind_ret _ _ _ _ _ (proc_at_mid _ _ _ _ _ Hl Hp)).
  unfold the_list. mrun. rewrite Hl. cbn. by rewrite pl_set_mid.
Qed.

Lemma next_proc_mid p x l1 l2 s :
  c_list s = Some (l1 ++ (p, x) :: l2) -> p ∉ l1.*1 -> next_proc p s = Ret (fst <$> l2 !! 0%nat) s.
Proof. intros Hl Hp. unfold next_proc, the_list. mrun. rewrite Hl. cbn. by rewrite pl_next_mid. Qed.

(** A [proc_foreach] whose body may change the process it is at but not the
    list's structure: an invariant of the processes passed and those to come. *)
Lemma foreach_rule {A R} ok (I : plist -> plist -> A -> coord W -> Prop)
    (body : loc -> A -> M (coord W) (A + R)) (Q : A + R -> coord W -> Prop) :
  (forall l1 p x l2 a s, c_list s = Some (l1 ++ (p, x) :: l2) -> NoDup ((l1 ++ (p, x) :: l2).*1) ->
     I l1 ((p, x) :: l2) a s ->
     sat ok (body p a) s (fun r s' =>
       match r with
       | inl a' => exists x', c_list s' = Some (l1 ++ (p, x') :: l2) /\ I (l1 ++ [(p, x')]) l2 a' s'
       | inr r => Q (inr r) s'
       end)) ->
  (forall l1 a s, c_list s = Some l1 -> I l1 [] a s -> Q (inl a) s) ->
  forall l a s, c_list s = Some l -> NoDup (l.*1) -> I [] l a s -> sat ok (foreach body a) s Q.
Proof.
  intros Hbody Hend l a s Hl Hn HI. unfold foreach.
  eapply sat_step; [unfold the_list; mrun; by rewrite Hl|].
  eapply sat_step; [unfold head_proc, the_list; mrun; by rewrite Hl|].
  assert (forall fuel l2 l1 a s, c_list s = Some (l1 ++ l2) -> NoDup ((l1 ++ l2).*1) -> I l1 l2 a s ->
            (length l2 <= fuel)%nat -> sat ok (foreach_loop fuel body (fst <$> l2 !! 0%nat) a) s Q) as Hloop.
  { clear Hl Hn HI l a s. induction fuel as [|fuel IH]; intros [|[p x] l2] l1 a s Hl Hn HI Hf; cbn in Hf; try lia.
    - rewrite app_nil_r in Hl. by apply (Hend l1).
    - rewrite app_nil_r in Hl. by apply (Hend l1).
    - cbn [foreach_loop lookup list_lookup fmap option_fmap option_map fst]. apply sat_bind.
      eapply sat_weaken; [by eapply Hbody|]. intros [a'|r] s' Hs'; [|by apply sat_ret].
      destruct Hs' as (x' & Hl' & HI').
      destruct (NoDup_mid _ _ _ _ Hn) as [Hp _].
      eapply sat_step; [by eapply next_proc_mid|]. apply (IH l2 (l1 ++ [(p, x')])); [| |done|lia].
      + by rewrite <- app_assoc.
      + rewrite <- app_assoc. by eapply NoDup_locs. }
  by apply (Hloop _ l []).
Qed.

Lemma foreach_all_rule {A} ok (I : plist -> plist -> A -> coord W -> Prop)
    (body : loc -> A -> M (coord W) A) (Q : A -> coord W -> Prop) :
  (forall l1 p x l2 a s, c_list s = Some (l1 ++ (p, x) :: l2) -> NoDup ((l1 ++ (p, x) :: l2).*1) ->
     I l1 ((p, x) :: l2) a s ->
     sat ok (body p a) s (fun a' s' =>
       exists x', c_list s' = Some (l1 ++ (p, x') :: l2) /\ I (l1 ++ [(p, x')]) l2 a' s')) ->
  (forall l1 a s, c_list s = Some l1 -> I l1 [] a s -> Q a s) ->
  forall l a s, c_list s = Some l -> NoDup (l.*1) -> I [] l a s -> sat ok (foreach_all body a) s Q.
Proof.
  intros Hbody Hend l a s Hl Hn HI. unfold foreach_all. apply sat_bind.
  eapply (foreach_rule ok I) with (Q := fun r s => sat ok (match r with inl a => mret a | inr e => match (e : Empty_set) with end end) s Q);
    [|intros; by eapply Hend|done..].
  intros l1 p x l2 a' s' Hl' Hn' HI'. apply sat_bind.
  eapply sat_weaken; [by eapply Hbody|]. done.
Qed.

(** The same for [proc_foreach_safe]. *)
Lemma foreach_safe_rule {A} ok (I : plist -> plist -> A -> coord W -> Prop)
    (body : loc -> A -> M (coord W) A) (Q : A -> coord W -> Prop) :
  (forall l1 p x l2 a s, c_list s = Some (l1 ++ (p, x) :: l2) -> NoDup ((l1 ++ (p, x) :: l2).*1) ->
     I l1 ((p, x) :: l2) a s ->
     sat ok (body p a) s (fun a' s' =>
       exists x', c_list s' = Some (l1 ++ (p, x') :: l2) /\ I (l1 ++ [(p, x')]) l2 a' s')) ->
  (forall l1 a s, c_list s = Some l1 -> I l1 [] a s -> Q a s) ->
  forall l a s, c_list s = Some l -> NoDup (l.*1) -> I [] l a s -> sat ok (foreach_safe body a) s Q.
Proof.
  intros Hbody Hend l a s Hl Hn HI. unfold foreach_safe.
  eapply sat_step; [unfold the_list; mrun; by rewrite Hl|].
  eapply sat_step; [unfold head_proc, the_list; mrun; by rewrite Hl|].
  assert (forall fuel l2 l1 a s, c_list s = Some (l1 ++ l2) -> NoDup ((l1 ++ l2).*1) -> I l1 l2 a s ->
            (length l2 <= fuel)%nat -> sat ok (foreach_safe_loop fuel body (fst <$> l2 !! 0%nat) a) s Q) as Hloop.
  { clear Hl Hn HI l a s. induction fuel as [|fuel IH]; intros [|[p x] l2] l1 a s Hl Hn HI Hf; cbn in Hf; try lia.
    - rewrite app_nil_r in Hl. by apply (Hend l1).
    - rewrite app_nil_r in Hl. by apply (Hend l1).
    - cbn [foreach_safe_loop lookup list_lookup fmap option_fmap option_map fst].
      destruct (NoDup_mid _ _ _ _ Hn) as [Hp _].
      eapply sat_step; [by eapply next_proc_mid|]. apply sat_bind.
      eapply sat_weaken; [by eapply Hbody|]. intros a' s' (x' & Hl' & HI').
      apply (IH l2 (l1 ++ [(p, x')])); [| |done|lia].
      + by rewrite <- app_assoc.
      + rewrite <- app_assoc. by eapply NoDup_locs. }
  by apply (Hloop _ l []).
Qed.
End rules.

(** ** Barriers *)

Section barrier.
Context {W : Type} `{IoSys W, !IoTotal W}.
Context (stack_msg : xnd_msg).
Implicit Types s : coord W.

Lemma on_os_returns {A} (m : M W A) s Q :
  returns m (c_os s) (fun a w => Q a (put_os w s)) -> returns (on_os m) s Q.
Proof. unfold returns, on_os. by destruct (m (c_os s)). Qed.

(** The states a barrier moves a process between. *)
Definition barrier_expected (type : coord_barrier_type) : proc_state :=
  match type with
  | COORD_BARRIER_PRECKPT => PROC_READY_FOR_CKPT
  | COORD_BARRIER_POSTCKPT => PROC_CKPT_COMPLETE
  | COORD_BARRIER_POSTRESTART => PROC_RESTART_IN_PROGRESS
  end.
Definition barrier_next (type : coord_barrier_type) : proc_state :=
  match type with
  | COORD_BARRIER_PRECKPT => PROC_CKPT_IN_PROGRESS
  | _ => PROC_RUNNING
  end.
Definition released (type : coord_barrier_type) (l : plist) : plist :=
  (fun x => (x.1, with_state (barrier_next type) x.2)) <$> l.

(** What a barrier sends a process: its release; before a checkpoint, with the
    number of processes and whether this one is the root of a tree. *)
Definition barrier_hdr (type : coord_barrier_type) : xnd_msghdr :=
  match type with
  | COORD_BARRIER_PRECKPT => XND_CKPT_START
  | COORD_BARRIER_POSTCKPT => XND_RESUME_AFTER_CKPT
  | COORD_BARRIER_POSTRESTART => XND_RESUME_AFTER_RESTART
  end.
Definition addressed (type : coord_barrier_type) (peers : Z) (x : proc) (msg : xnd_msg) : xnd_msg :=
  if bool_decide (type = COORD_BARRIER_PRECKPT) then with_peers peers (if p_is_root_of_tree x then 1 else 0) msg else msg.
Definition release_to (type : coord_barrier_type) (peers : Z) (x : loc * proc) : Z * xnd_msg :=
  (p_fd x.2, addressed type peers x.2 (with_hdr (hdr_code (barrier_hdr type)) stack_msg)).

(** The messages are sent, in order, each in full. *)
Fixpoint told (msgs : list (Z * xnd_msg)) (w w' : W) : Prop :=
  match msgs with
  | [] => w' = w
  | (fd, msg) :: msgs => exists w1, coord_send_msg fd msg w = Ret 0 w1 /\ told msgs w1 w'
  end.
Lemma told_snoc msgs fd msg w w1 w2 : told msgs w w1 -> coord_send_msg fd msg w1 = Ret 0 w2 -> told (msgs ++ [(fd, msg)]) w w2.
Proof.
  revert w. induction msgs as [|[fd' m] msgs IH]; cbn [told app]; intros w.
  - intros -> E. by exists w2.
  - intros (w3 & E3 & Ht) E. exists w3. split; [done|by apply IH].
Qed.
Lemma addressed_twice type peers x y msg : addressed type peers x (addressed type peers y msg) = addressed type peers x msg.
Proof. unfold addressed. by destruct (bool_decide _). Qed.
Lemma release_to_state type peers p x st : release_to type peers (p, with_state st x) = release_to type peers (p, x).
Proof. done. Qed.

Lemma barrier_eq type : coord_release_barrier stack_msg type =
  (r ← foreach (fun p msg =>
      x ← proc_at p;
      xnd_assert (bool_decide (p_state x = barrier_expected type));;
      peers ← gets c_num_peers;
      let msg := addressed type peers x msg in
      err ← send (p_fd x) msg;
      if negb (err =? 0) then mret (inr (-1)) else
      set_proc p (with_state (barrier_next type));;
      mret (inl msg)) (with_hdr (hdr_code (barrier_hdr type)) stack_msg);
   mret (match r with inl _ => 0 | inr r => r end)).
Proof. by destruct type. Qed.

(** Every process has been sent the release and has moved, or a send failed
    and those before it have. *)
Definition barrier_result (type : coord_barrier_type) (s : coord W) (l : plist) (r : Z) (w : W) (s' : coord W) : Prop :=
  let sends := fmap (M := list) (release_to type (c_num_peers s)) in
  r = 0 /\ s' = put_list (released type l) (put_os w s) /\ told (sends l) (c_os s) w \/
  r = -1 /\ exists l1 x l2, l = l1 ++ x :: l2 /\ s' = put_list (released type l1 ++ x :: l2) (put_os w s) /\
    exists w1, told (sends l1) (c_os s) w1 /\
      coord_send_msg (p_fd x.2) (release_to type (c_num_peers s) x).2 w1 = Ret (-1) w.

(** What a barrier does; when some process has not arrived it does not return. *)
Lemma release_barrier_sat ok (type : coord_barrier_type) (s : coord W) (l : plist) :
  c_list s = Some l -> NoDup (l.*1) ->
  (ok = false -> Forall (fun x => p_state x.2 = barrier_expected type) l) ->
  sat ok (coord_release_barrier stack_msg type) s (fun r s' =>
    exists w, barrier_result type s l r w s').
Proof.
  intros Hl Hn Hst. rewrite (barrier_eq type). apply sat_bind.
  set (I := fun (l1 l2 : plist) (msg : xnd_msg) s' => exists k w, l = k ++ l2 /\ l1 = released type k /\
              s' = put_list (l1 ++ l2) (put_os w s) /\ told (release_to type (c_num_peers s) <$> k) (c_os s) w /\
              forall x, addressed type (c_num_peers s) x msg =
                addressed type (c_num_peers s) x (with_hdr (hdr_code (barrier_hdr type)) stack_msg)).
  eapply (foreach_rule ok I); [| | exact Hl | exact Hn |].
  - intros l1 p x l2 a s1 Hl1 Hn1 (k & w & Hk & -> & -> & Ht & Ha).
    destruct (NoDup_mid _ _ _ _ Hn1) as [Hp1 Hp2].
    eapply sat_step; [by eapply proc_at_mid|].
    destruct (decide (p_state x = barrier_expected type)) as [Hx|Hx].
    2: { rewrite (bool_decide_eq_false_2 (p_state x = _)) by done.
      destruct ok; [done|]. specialize (Hst eq_refl). rewrite Hk in Hst.
      apply Forall_app in Hst as [_ Hst]. by inversion Hst. }
    rewrite (bool_decide_eq_true_2 (p_state x = _)) by done.
    do 2 (eapply sat_step; [done|]). cbn [c_num_peers put_list put_os]. rewrite Ha. apply sat_bind, sat_returns, on_os_returns.
    cbn [c_os put_list put_os].
    destruct (returns_inv _ _ _ (send_total (p_fd x) (release_to type (c_num_peers s) (p, x)).2 w)) as (r & w' & Es & Hr).
    eapply returns_intro; [exact Es|]. destruct Hr as [-> | ->]; cbn [Z.eqb negb].
    + eapply sat_step; [by apply (set_proc_mid p _ x (released type k) l2)|]. apply sat_ret.
      exists (with_state (barrier_next type) x). split; [done|].
      exists (k ++ [(p, x)]), w'. rewrite <- !app_assoc. split; [done|].
      unfold released. rewrite !fmap_app. split; [done|]. split; [done|]. split; [by eapply told_snoc|].
      intros y. apply addressed_twice.
    + apply sat_ret. apply sat_ret. exists w'. right. split; [done|]. exists k, (p, x), l2. split; [done|]. split; [done|].
      by exists w.
  - intros l1 a s1 Hl1 (k & w & Hk & -> & -> & Ht & _). rewrite app_nil_r in *. subst k.
    apply sat_ret. exists w. by left.
  - exists [], (c_os s). split; [done|]. split; [done|]. destruct s. cbn in *. by subst.
Qed.

(** Releasing a barrier all processes have arrived in: every process is
    sent the release, in list order, and moves to the next state; or a send
    fails, the call returns -1, and exactly the processes before that one have
    been released.  Nothing else of the coordinator changes. *)
Theorem release_barrier_correct (type : coord_barrier_type) (s : coord W) (l : plist) :
  c_list s = Some l -> NoDup (l.*1) ->
  Forall (fun x => p_state x.2 = barrier_expected type) l ->
  returns (coord_release_barrier stack_msg type) s (fun r s' =>
    exists w, barrier_result type s l r w s').
Proof. intros Hl Hn Hst. apply returns_sat. by apply release_barrier_sat. Qed.
End barrier.

(** ** Suspension *)

Section suspend.
Context {W : Type} `{IoSys W, !IoTotal W, CoordOS W}.
(** No process dies: [kill(pid, 0)] does not report ESRCH. *)
Hypothesis alive : forall pid w, (os_kill pid 0 w).1 <> ESRCH.
Implicit Types s : coord W.

(** The same processes, in possibly other states. *)
Definition upto_state (l l' : plist) : Prop :=
  Forall2 (fun x y => y.1 = x.1 /\ exists st, y.2 = with_state st x.2) l l'.
Definition ready_in (l : plist) : nat :=
  length (List.filter (fun x => bool_decide (p_state x.2 = PROC_READY_FOR_CKPT)) l).

Lemma upto_state_refl l : upto_state l l.
Proof. induction l as [|[p x] l IH]; constructor; [|done]. split; [done|]. exists (p_state x). by destruct x. Qed.
Lemma upto_state_trans l1 l2 l3 : upto_state l1 l2 -> upto_state l2 l3 -> upto_state l1 l3.
Proof.
  intros H12. revert l3. induction H12 as [|x y l1 l2 [Hxy [st Hst]] _ IH]; intros l3 H23; inversion H23; subst.
  - constructor.
  - constructor; [|by apply IH]. destruct H3 as [-> [st' ->]]. split; [done|]. exists st'. by rewrite Hst.
Qed.
Lemma upto_state_locs l l' : upto_state l l' -> l'.*1 = l.*1.
Proof. induction 1 as [|x y l l' [Hx _] _ IH]; [done|]. by rewrite !fmap_cons, Hx, IH. Qed.
Lemma upto_state_mid l1 p x l2 st : upto_state (l1 ++ (p, x) :: l2) (l1 ++ (p, with_state st x) :: l2).
Proof.
  apply Forall2_app; [apply upto_state_refl|]. constructor; [|apply upto_state_refl].
  split; [done|by exists st].
Qed.

Lemma ready_in_app l1 l2 : ready_in (l1 ++ l2) = (ready_in l1 + ready_in l2)%nat.
Proof. unfold ready_in. by rewrite List.filter_app, length_app. Qed.
Lemma ready_in_one p st x :
  ready_in [(p, with_state st x)] = if decide (st = PROC_READY_FOR_CKPT) then 1%nat else 0%nat.
Proof. by destruct st. Qed.
Lemma ready_in_le l : (ready_in l <= length l)%nat.
Proof. apply List.filter_length_le. Qed.
Lemma ready_in_all l : ready_in l = length l -> Forall (fun x => p_state x.2 = PROC_READY_FOR_CKPT) l.
Proof.
  induction l as [|[p x] l IH]; [constructor|]. unfold ready_in. cbn [List.filter snd].
  pose proof (ready_in_le l) as Hle. unfold ready_in in *.
  destruct (bool_decide_reflect (p_state x = PROC_READY_FOR_CKPT)); cbn [length]; intros Hl; [|lia].
  constructor; [done|]. apply IH. lia.
Qed.

Lemma is_dead_false pid s : exists w, is_dead pid s = Ret false (put_os w s).
Proof.
  unfold is_dead, os. mrun. specialize (alive pid (c_os s)).
  destruct (os_kill pid 0 (c_os s)) as [e w]. cbn in *. exists w. by rewrite (proj2 (Z.eqb_neq _ _)).
Qed.

Lemma put_list_same l s w : c_list s = Some l -> put_list l (put_os w s) = put_os w s.
Proof. destruct s. cbn. by intros ->. Qed.
Lemma with_state_same x : with_state (p_state x) x = x.
Proof. by destruct x. Qed.

(** The rest of the iteration, after the switch on the process's state. *)
Lemma suspend_tail ok p x l1 l2 (total ready : Z) s st w :
  s = put_list (l1 ++ (p, with_state st x) :: l2) (put_os w s) ->
  sat ok (dead ← is_dead (p_real_pid x);
          if dead : bool then remove_proc p;; mret (total, ready) else mret (total + 1, ready)) s
    (fun tr s' => exists w', tr = (total + 1, ready) /\ s' = put_list (l1 ++ (p, with_state st x) :: l2) (put_os w' s)).
Proof.
  intros Hs. destruct (is_dead_false (p_real_pid x) s) as [w' Hd].
  eapply sat_step; [exact Hd|]. apply sat_ret. exists w'. split; [done|]. rewrite Hs. done.
Qed.

Lemma suspend_one_spec p x l1 l2 total ready s :
  c_list s = Some (l1 ++ (p, x) :: l2) -> NoDup ((l1 ++ (p, x) :: l2).*1) ->
  sat true (suspend_one p (total, ready)) s (fun tr s' => exists st w,
    s' = put_list (l1 ++ (p, with_state st x) :: l2) (put_os w s) /\
    tr = (total + 1, if decide (st = PROC_READY_FOR_CKPT) then ready + 1 else ready)).
Proof.
  intros Hl Hn. destruct (NoDup_mid _ _ _ _ Hn) as [Hp1 Hp2]. unfold suspend_one.
  eapply sat_step; [by eapply proc_at_mid|]. apply sat_bind.
  apply sat_weaken with (Q := fun r s' => exists st w,
    s' = put_list (l1 ++ (p, with_state st x) :: l2) (put_os w s) /\
    r = if decide (st = PROC_READY_FOR_CKPT) then ready + 1 else ready).
  2: { intros r s' (st & w & -> & ->).
    eapply sat_weaken; [by eapply (suspend_tail true p x l1 l2 _ _ _ st w)|].
    intros tr s' (w' & -> & ->). by exists st, w'. }
  assert (forall st w s', s' = put_os w s -> st = p_state x ->
            s' = put_list (l1 ++ (p, with_state st x) :: l2) (put_os w s)) as Hsame.
  { intros st w s' -> ->. rewrite with_state_same. by rewrite put_list_same. }
  assert (forall st, st = p_state x -> s = put_list (l1 ++ (p, with_state st x) :: l2) (put_os (c_os s) s)) as Hsame0.
  { intros st Hst. apply Hsame; [by destruct s|done]. }
  destruct (p_state x) eqn:Hx.
  - apply sat_bind, sat_returns, on_os_returns. eapply returns_weaken; [apply send_total|].
    intros r w [-> | ->]; cbn [Z.eqb].
    + eapply sat_step; [by apply (set_proc_mid p _ x l1 l2)|]. apply sat_ret.
      by exists PROC_RECV_CKPT_REQUEST, w.
    + eapply sat_step; [done|]. apply sat_ret. exists PROC_RUNNING, w. split; [by apply Hsame|done].
  - apply sat_bind. unfold recv, on_os, sat at 1.
    destruct (coord_recv_msg (p_fd x) (c_os s)) as [[resp|] w| | | |]; try done; [destruct (_ =? _)|].
    + eapply sat_step; [by apply (set_proc_mid p _ x l1 l2)|]. apply sat_ret.
      by exists PROC_READY_FOR_CKPT, w.
    + apply sat_ret. exists PROC_RECV_CKPT_REQUEST, w. split; [by apply Hsame|done].
    + apply sat_ret. exists PROC_RECV_CKPT_REQUEST, w. split; [by apply Hsame|done].
  - apply sat_ret. exists PROC_READY_FOR_CKPT, (c_os s). split; [by apply Hsame0|done].
  - apply sat_ret. exists PROC_CKPT_IN_PROGRESS, (c_os s). split; [by apply Hsame0|done].
  - apply sat_ret. exists PROC_CKPT_COMPLETE, (c_os s). split; [by apply Hsame0|done].
  - apply sat_ret. exists PROC_RESTART_IN_PROGRESS, (c_os s). split; [by apply Hsame0|done].
  - apply sat_ret. exists PROC_EXITED, (c_os s). split; [by apply Hsame0|done].
Qed.

(** One iteration of the do-while over the whole list. *)
Lemma suspend_round l s :
  c_list s = Some l -> NoDup (l.*1) ->
  sat true (foreach_safe suspend_one (0, 0)) s (fun tr s' => exists l' w,
    s' = put_list l' (put_os w s) /\ upto_state l l' /\
    tr.1 = Z.of_nat (length l') /\ tr.2 = Z.of_nat (ready_in l')).
Proof.
  intros Hl Hn.
  set (I := fun (l1 l2 : plist) (tr : Z * Z) s' => exists k w, l = k ++ l2 /\ upto_state k l1 /\
              s' = put_list (l1 ++ l2) (put_os w s) /\
              tr = (Z.of_nat (length l1), Z.of_nat (ready_in l1))).
  eapply (foreach_safe_rule true I); [| | exact Hl | exact Hn |].
  - intros l1 p x l2 tr s1 Hl1 Hn1 (k & w & Hk & Hu & -> & ->).
    eapply sat_weaken; [by apply (suspend_one_spec p x l1 l2)|].
    intros tr s' (st & w' & -> & ->). exists (with_state st x). split; [done|].
    exists (k ++ [(p, x)]), w'. rewrite <- !app_assoc. split; [done|]. split.
    { apply Forall2_app; [done|]. constructor; [|constructor]. split; [done|by exists st]. }
    split; [done|]. rewrite length_app, ready_in_app. cbn [length].
    rewrite ready_in_one. destruct (decide (st = PROC_READY_FOR_CKPT)); f_equal; lia.
  - intros l1 tr s1 Hl1 (k & w & Hk & Hu & -> & ->). rewrite app_nil_r in *. subst k.
    by exists l1, w.
  - exists [], (c_os s). split; [done|]. split; [constructor|]. split; [|done].
    destruct s. cbn in *. by subst.
Qed.

Lemma suspend_sat (fuel : nat) (s : coord W) (l : plist) :
  c_list s = Some l -> NoDup (l.*1) ->
  sat true (coord_suspend_processes fuel) s (fun _ s' => exists l' w, s' = put_list l' (put_os w s) /\
    upto_state l l' /\ Forall (fun x => p_state x.2 = PROC_READY_FOR_CKPT) l').
Proof.
  revert s l. induction fuel as [|fuel IH]; intros s l Hl Hn; [done|].
  cbn [coord_suspend_processes]. apply sat_bind.
  eapply sat_weaken; [by eapply suspend_round|].
  intros [total ready] s1 (l1 & w & -> & Hu & Ht & Hr). cbn [fst snd] in *. subst.
  destruct (Z.eqb_spec (Z.of_nat (ready_in l1)) (Z.of_nat (length l1))) as [He|He]; cbn [negb].
  - apply sat_ret. exists l1, w. split; [done|]. split; [done|]. apply ready_in_all. lia.
  - eapply sat_step; [done|].
    eapply sat_weaken; [eapply (IH _ l1); [done|by rewrite (upto_state_locs _ _ Hu)]|].
    intros _ s' (l2 & w2 & -> & Hu2 & Hrd). exists l2, w2. split; [done|]. split; [by eapply upto_state_trans|done].
Qed.
End suspend.

(** ** What a checkpoint leaves behind *)

Section stable.
Context {W : Type} `{IoSys W, !IoTotal W, CoordOS W, CkptDir W, IterOrder}.
Context (stack_msg : xnd_msg).
Implicit Types s : coord W.

(** The list is there and no location is in it twice. *)
Definition wf s : Prop := exists l, c_list s = Some l /\ NoDup (l.*1).

(** The epoch, and the computation's identifier. *)
Definition c_id s : Z * list Z := (c_epoch s, c_xnd_uuid s).
(** Where it returns, the list is still well formed, the epoch and the
    identifier the same. *)
Definition stable {A} (m : M (coord W) A) : Prop :=
  forall s, wf s -> sat true m s (fun _ s' => wf s' /\ c_id s' = c_id s).

Lemma stable_ret {A} (a : A) : stable (mret a).
Proof. by intros s Hs. Qed.
Lemma stable_gets {A} (f : coord W -> A) : stable (gets f).
Proof. by intros s Hs. Qed.
Lemma stable_ub {A} : stable (A := A) ub.
Proof. by intros s Hs. Qed.
Lemma stable_nofuel {A} : stable (A := A) nofuel.
Proof. by intros s Hs. Qed.
Lemma exit_post {A} c s Q : sat true (coord_exit (A := A) c) s Q.
Proof. unfold coord_exit, sat. unfold mbind, M_bind. by destruct (coord_cleanup s). Qed.
Lemma stable_exit {A} c : stable (A := A) (coord_exit c).
Proof. intros s Hs. apply exit_post. Qed.
Lemma stable_bind {A B} (m : M (coord W) A) (k : A -> M (coord W) B) :
  stable m -> (forall a, stable (k a)) -> stable (m ≫= k).
Proof.
  intros Hm Hk s Hs. apply sat_bind. eapply sat_weaken; [by apply Hm|]. intros a s1 [Hw He].
  eapply sat_weaken; [by apply Hk|]. intros b s2 [Hw2 He2]. split; [done|congruence].
Qed.
Lemma stable_fmap {A B} (f : A -> B) (m : M (coord W) A) : stable m -> stable (f <$> m).
Proof. intros Hm. apply stable_bind; [done|intros; apply stable_ret]. Qed.
Lemma stable_assert b : stable (xnd_assert b).
Proof. by destruct b; intros s Hs. Qed.
Lemma stable_deref {A} (o : option A) : stable (deref o).
Proof. destruct o; [apply stable_ret|apply stable_ub]. Qed.
Lemma stable_os {A} (f : W -> A * W) : stable (os f).
Proof. intros s Hs. unfold sat, os. by destruct (f (c_os s)). Qed.
Lemma stable_os_ (f : W -> W) : stable (os_ f).
Proof. by intros s Hs. Qed.
Lemma stable_on_os {A} (m : M W A) : stable (on_os m).
Proof. intros s Hs. unfold sat, on_os. by destruct (m (c_os s)). Qed.
Lemma stable_modify (f : coord W -> coord W) :
  (forall s, wf s -> wf (f s) /\ c_id (f s) = c_id s) -> stable (modify f).
Proof. intros Hf s Hs. by apply Hf. Qed.

Lemma stable_the_list : stable the_list.
Proof. apply stable_bind; [apply stable_gets|intros; apply stable_deref]. Qed.
Lemma stable_proc_at p : stable (proc_at p).
Proof. apply stable_bind; [apply stable_the_list|intros; apply stable_deref]. Qed.
Lemma stable_next p : stable (next_proc p).
Proof. apply stable_bind; [apply stable_the_list|intros; apply stable_deref]. Qed.
Lemma stable_find test : stable (find_proc test).
Proof. apply stable_bind; [apply stable_the_list|intros; apply stable_ret]. Qed.
Lemma stable_head : stable head_proc.
Proof. apply stable_bind; [apply stable_the_list|intros; apply stable_ret]. Qed.
Lemma stable_size : stable list_size.
Proof. apply stable_bind; [apply stable_the_list|intros; apply stable_ret]. Qed.

Lemma pl_set_locs p f (l : plist) : (pl_set p f l).*1 = l.*1.
Proof.
  unfold pl_set. induction l as [|[q x] l IH]; [done|]. rewrite !fmap_cons, IH. cbn [fst].
  by destruct (bool_decide_reflect (q = p)); subst.
Qed.
Lemma pl_remove_NoDup p (l : plist) : NoDup (l.*1) -> NoDup ((pl_remove p l).*1).
Proof.
  unfold pl_remove. induction l as [|[q x] l IH]; [done|]. rewrite fmap_cons. cbn [fst List.filter].
  intros [Hq Hn]%NoDup_cons. destruct (negb _); [|by apply IH].
  rewrite fmap_cons. constructor; [|by apply IH]. intros Hin. apply Hq.
  apply list_elem_of_fmap in Hin as [y [Hy Hin]]. apply list_elem_of_fmap. exists y. split; [done|].
  apply list_elem_of_In, List.filter_In in Hin as [Hin _]. by apply list_elem_of_In.
Qed.

(** An update of the list read just before. *)
Lemma stable_update (f : plist -> plist) :
  (forall l, NoDup (l.*1) -> NoDup ((f l).*1)) ->
  stable (l ← the_list; modify (put_list (f l))).
Proof.
  intros Hf s (l & Hl & Hn). unfold sat, the_list. mrun. rewrite Hl. cbn. split; [|done].
  exists (f l). by split; [|apply Hf].
Qed.
Lemma stable_set p f : stable (set_proc p f).
Proof.
  apply stable_bind; [apply stable_proc_at|]. intros _. apply (stable_update (pl_set p f)).
  intros l. by rewrite pl_set_locs.
Qed.
Lemma stable_callback x : stable (proc_exit_callback x).
Proof.
  apply stable_bind; [destruct (negb _); [apply stable_os_|apply stable_ret]|]. intros _.
  apply stable_bind; [destruct (negb _); [apply stable_os_|apply stable_ret]|]. intros _.
  by apply stable_modify.
Qed.
Lemma stable_remove p : stable (remove_proc p).
Proof.
  apply stable_bind; [apply stable_proc_at|]. intros x s Hs.
  pose proof (stable_update (pl_remove p) (pl_remove_NoDup p) s Hs) as Hu.
  unfold sat in *. unfold mbind, M_bind in *.
  destruct (the_list s) as [l s1|c s1|s1| |]; try done.
  destruct (modify (put_list (pl_remove p l)) s1) as [[] s2|c s2|s2| |]; try done.
  destruct Hu as [Hw He]. pose proof (stable_callback x s2 Hw) as Hc. unfold sat in Hc.
  destruct (p_cleanup x); [|by split].
  destruct (proc_exit_callback x s2) as [[] s3|c s3|s3| |]; try done.
  destruct Hc as [Hw3 He3]. split; [done|congruence].
Qed.
Lemma stable_is_dead pid : stable (is_dead pid).
Proof. apply stable_bind; [apply stable_os|intros; apply stable_ret]. Qed.

Lemma stable_foreach_safe {A} (body : loc -> A -> M (coord W) A) (a : A) :
  (forall p a, stable (body p a)) -> stable (foreach_safe body a).
Proof.
  intros Hb. apply stable_bind; [apply stable_the_list|]. intros l.
  apply stable_bind; [apply stable_head|]. intros p. revert p a.
  induction (length l) as [|n IH]; intros [p|] a; cbn [foreach_safe_loop]; try apply stable_ret.
  - apply stable_nofuel.
  - apply stable_bind; [apply stable_next|]. intros q.
    apply stable_bind; [apply Hb|]. intros a'. apply IH.
Qed.
Lemma stable_foreach {A R} (body : loc -> A -> M (coord W) (A + R)) (a : A) :
  (forall p a, stable (body p a)) -> stable (foreach body a).
Proof.
  intros Hb. apply stable_bind; [apply stable_the_list|]. intros l.
  apply stable_bind; [apply stable_head|]. intros p. revert p a.
  induction (length l) as [|n IH]; intros [p|] a; cbn [foreach_loop]; try apply stable_ret.
  - apply stable_nofuel.
  - apply stable_bind; [apply Hb|]. intros [a'|r]; [|apply stable_ret].
    apply stable_bind; [apply stable_next|]. intros q. apply IH.
Qed.
Lemma stable_foreach_all {A} (body : loc -> A -> M (coord W) A) (a : A) :
  (forall p a, stable (body p a)) -> stable (foreach_all body a).
Proof.
  intros Hb. apply stable_bind; [|intros [?|[]]; apply stable_ret].
  apply stable_foreach. intros. by apply stable_fmap.
Qed.
End stable.

#[export] Hint Resolve stable_ret stable_gets stable_ub stable_nofuel stable_exit stable_assert stable_deref
  stable_os stable_os_ stable_on_os stable_the_list stable_proc_at stable_next stable_find stable_head
  stable_size stable_set stable_callback stable_remove stable_is_dead : xnd.

(** Decomposes a [stable] goal along the program. *)
Ltac stabilize :=
  repeat first
    [ progress intros
    | solve [eauto with xnd]
    | apply stable_foreach_safe | apply stable_foreach_all | apply stable_foreach
    | apply stable_bind
    | match goal with
      | |- stable (match ?x with _ => _ end) => destruct x eqn:?
      | |- stable (if ?x then _ else _) => destruct x eqn:?
      end
    | apply stable_fmap ].

Section checkpoint.
Context {W : Type} `{IoSys W, !IoTotal W, CoordOS W, CkptDir W, IterOrder}.
Context (stack_msg : xnd_msg).
Implicit Types s : coord W.

Lemma stable_collective fuel type : stable (W := W) (coord_collective_prepare fuel type).
Proof.
  unfold coord_collective_prepare. induction fuel as [|fuel IH]; cbn [collective_prepare_loop]; [stabilize|].
  apply stable_bind; [stabilize|]. intros [total set]. stabilize.
Qed.
Lemma stable_suspend_one p tr : stable (W := W) (suspend_one p tr).
Proof. unfold suspend_one, send, recv. stabilize. Qed.
Lemma stable_suspend fuel : stable (W := W) (coord_suspend_processes fuel).
Proof.
  induction fuel as [|fuel IH]; cbn [coord_suspend_processes]; [stabilize|].
  apply stable_bind; [apply stable_foreach_safe; intros; apply stable_suspend_one|]. intros [total ready].
  stabilize.
Qed.
Lemma stable_barrier type : stable (W := W) (coord_release_barrier stack_msg type).
Proof. unfold coord_release_barrier, send. destruct type; stabilize. Qed.
Lemma stable_roots : stable (W := W) coord_determine_roots.
Proof. unfold coord_determine_roots. stabilize. Qed.
Lemma stable_completions fuel : stable (W := W) (coord_wait_for_ckpt_completions fuel).
Proof.
  unfold coord_wait_for_ckpt_completions, recv.
  apply stable_bind; [stabilize|]. intros n. apply stable_bind; [apply stable_collective|]. stabilize.
Qed.
Lemma stable_manifest : stable (W := W) coord_write_ckpt_manifest.
Proof. unfold coord_write_ckpt_manifest. stabilize. Qed.

(** What an epoch ends with: every process of the list is running; they have
    all been told to resume; the directory of the epoch before is removed and
    the signals are unblocked. *)
Definition epoch_done s s' : Prop :=
  Forall (fun x => p_state x.2 = PROC_RUNNING) (procs s') /\
  exists w1 w2 w3,
    told (release_to stack_msg COORD_BARRIER_POSTCKPT (c_num_peers s') <$> procs s') w1 w2 /\
    (if c_epoch s =? 0 then w3 = w2 else exists r, xnd_ckptdir_unlink (c_xnd_uuid s) (c_epoch s - 1) w2 = Ret r w3) /\
    c_os s' = os_block_signals false w3.

(** C26. The epoch advances only over a computation that has been released:
    when [coord_do_checkpoint] returns, either the epoch is unchanged; or it has
    advanced by one, every process left in the list is running and has been sent
    XND_RESUME_AFTER_CKPT, in list order and each in full, and after these sends
    nothing was done but to remove the directory of the epoch before (none at
    the first checkpoint) and to unblock the signals. *)
Theorem checkpoint_epoch (fuel : nat) (s s' : coord W) :
  wf s -> coord_do_checkpoint stack_msg fuel s = Ret tt s' ->
  wf s' /\ (c_epoch s' = c_epoch s \/ (c_epoch s' = u64 (c_epoch s + 1) /\ epoch_done s s')).
Proof.
  intros Hs. apply sat_post with (a := tt) (Q := fun _ s' => wf s' /\ (c_epoch s' = c_epoch s \/
   (c_epoch s' = u64 (c_epoch s + 1) /\ epoch_done s s'))).
  clear s'. unfold coord_do_checkpoint. eapply sat_step; [done|]. eapply sat_step; [done|].
  apply sat_bind. eapply sat_weaken; [by apply stable_collective|]. intros total s1 [Hw1 He1].
  change (c_id (put_os (os_block_signals true (c_os s)) s)) with (c_id s) in He1.
  destruct (total =? 0); [split; [done|left; unfold c_id in He1; by simplify_eq]|].
  apply sat_bind. eapply sat_weaken; [by apply stable_suspend|]. intros _ s2 [Hw2 He2].
  eapply sat_step; [done|]. apply sat_bind. eapply sat_weaken; [by apply stable_on_os|].
  intros err s3 [Hw3 He3]. apply sat_bind. destruct (negb (err =? 0)).
  { apply sat_bind. eapply sat_weaken; [by apply stable_on_os|]. intros r s4 [Hw4 He4].
    apply sat_ret. split; [done|left]. cbn. rewrite He3, He2, He1 in He4. unfold c_id in He4. by simplify_eq. }
  apply sat_bind. eapply sat_weaken; [by apply stable_size|]. intros n s4 [Hw4 He4].
  eapply sat_step; [done|]. set (s5 := put_peers (u32 n) s4). assert (wf s5) as Hw5 by done.
  assert (c_id s5 = c_id s) as He5 by (change (c_id s4 = c_id s); congruence). clearbody s5.
  apply sat_bind. eapply sat_weaken; [by apply stable_roots|]. intros _ s6 [Hw6 He6].
  apply sat_bind. eapply sat_weaken; [by apply stable_collective|]. intros t s7 [Hw7 He7].
  eapply sat_step; [done|].
  apply sat_bind. eapply sat_weaken; [by apply stable_assert|]. intros _ s8 [Hw8 He8].
  apply sat_bind. eapply sat_weaken; [by apply stable_barrier|]. intros e1 s9 [Hw9 He9].
  apply sat_bind. eapply sat_weaken; [by apply stable_assert|]. intros _ s10 [Hw10 He10].
  apply sat_bind. eapply sat_weaken; [by apply stable_completions|]. intros _ s11 [Hw11 He11].
  apply sat_bind. eapply sat_weaken; [by apply stable_manifest|]. intros _ s12 [(l & Hl & Hn) He12].
  assert (c_id s12 = c_id s) as He by congruence. assert (c_id s2 = c_id s) as Hu by congruence.
  unfold c_id in He, Hu. injection He as He Hui. injection Hu as _ ->.
  apply sat_bind. eapply sat_weaken; [by apply release_barrier_sat|].
  intros r s13 (w & [(-> & -> & Ht)|[-> _] ]); [|done]. cbn [Z.eqb]. eapply sat_step; [done|].
  set (s14 := put_list (released COORD_BARRIER_POSTCKPT l) (put_os w s12)).
  apply sat_weaken with (Q := fun _ s' => exists w', s' = put_epoch (u64 (c_epoch s + 1)) (put_os w' s14) /\
    if c_epoch s =? 0 then w' = w else exists r, xnd_ckptdir_unlink (c_xnd_uuid s) (c_epoch s - 1) w = Ret r w').
  - destruct (c_epoch s =? 0) eqn:Hz; cbn [negb].
    + eapply sat_step; [done|]. exists w. split; [by unfold s14; cbn; rewrite He|done].
    + apply sat_bind, sat_bind. unfold sat, on_os. cbn [c_os s14 put_list put_os].
      destruct (xnd_ckptdir_unlink _ _ w) as [r0 w'| | | |] eqn:Eu; try done. cbn. exists w'.
      split; [by rewrite He|by exists r0].
  - intros _ s' (w' & -> & Hw'). split.
    + exists (released COORD_BARRIER_POSTCKPT l). split; [done|]. unfold released.
      rewrite <- list_fmap_compose. exact Hn.
    + right. split; [done|]. split; [cbn; unfold released; by apply Forall_fmap, Forall_true|].
      exists (c_os s12), w, w'. split; [|by split]. cbn. unfold released. rewrite <- list_fmap_compose. exact Ht.
Qed.
End checkpoint.

(** ** A checkpoint whose directory cannot be created *)

Section ckptdir_failure.
Context {W : Type} `{IoSys W, !IoTotal W, CoordOS W, CkptDir W, IterOrder}.
Context (stack_msg : xnd_msg).
Hypothesis alive : forall pid w, (os_kill pid 0 w).1 <> ESRCH.
Hypothesis no_ckptdir : forall uuid epoch w, sat true (xnd_ckptdir_create uuid epoch) w (fun err _ => err <> 0).
Implicit Types s : coord W.

Lemma collective_alive fuel type l s :
  c_list s = Some l -> NoDup (l.*1) ->
  sat true (coord_collective_prepare fuel type) s (fun total s' =>
    total = Z.of_nat (length l) /\ exists w, s' = put_os w s).
Proof.
  intros Hl Hn. unfold coord_collective_prepare. revert s Hl.
  induction fuel as [|fuel IH]; intros s Hl; [done|]. cbn [collective_prepare_loop]. apply sat_bind.
  apply sat_weaken with (Q := fun r s' => r.1 = Z.of_nat (length l) /\ exists w, s' = put_os w s).
  - set (I := fun (l1 l2 : plist) (ts : Z * list Z) s' => ts.1 = Z.of_nat (length l1) /\ l = l1 ++ l2 /\
                exists w, s' = put_os w s).
    eapply (foreach_safe_rule true I); [| |exact Hl|exact Hn|].
    + intros l1 p x l2 [total set] s1 Hl1 Hn1 (Ht & Hk & w & ->).
      destruct (NoDup_mid _ _ _ _ Hn1) as [Hp1 Hp2].
      eapply sat_step; [by eapply proc_at_mid|].
      destruct (is_dead_false alive (p_real_pid x) (put_os w s)) as [w' Hd].
      eapply sat_step; [exact Hd|]. apply sat_ret. exists x. split; [done|].
      split; [cbn in *; rewrite length_app; cbn [length]; lia|]. rewrite <- app_assoc. split; [done|by exists w'].
    + intros l1 [total set] s1 Hl1 (Ht & Hk & w & ->). rewrite app_nil_r in Hk. subst l1.
      split; [done|by exists w].
    + split; [done|]. split; [done|]. exists (c_os s). by destruct s.
  - intros [total set] s1 [Ht [w ->]]. cbn [fst] in Ht. apply sat_bind. unfold sat at 1, os.
    destruct (os_select type set (c_os (put_os w s))) as [[err rset] w1]. cbn [fst].
    destruct (err <? 0); [apply exit_post|].
    destruct (negb (err =? total)); [|split; [done|by exists w1]].
    eapply sat_weaken; [by apply IH|]. intros t s' [Ht' [w' ->]]. split; [done|by exists w'].
Qed.

(** When the checkpoint directory cannot be created, [coord_do_checkpoint]
    gives the checkpoint up with every process of the list still suspended in
    the pre-checkpoint barrier: nothing releases them, the epoch does not
    advance, and the command that asked for the checkpoint is then answered
    with XND_SUCCESS. *)
Theorem failed_ckptdir_suspends (fuel : nat) (s s' : coord W) (l : plist) (fd : Z) (msg : xnd_msg) :
  c_list s = Some l -> l <> [] -> NoDup (l.*1) -> m_cmd msg = cmd_code XND_CKPT_CMD ->
  coord_handle_command stack_msg fuel fd msg s = Ret tt s' ->
  c_epoch s' = c_epoch s /\
  exists l', c_list s' = Some l' /\ upto_state l l' /\
    Forall (fun x => p_state x.2 = PROC_READY_FOR_CKPT) l'.
Proof.
  intros Hl Hne Hn Hcmd. apply sat_post with (a := tt) (Q := fun _ s' => c_epoch s' = c_epoch s /\
    exists l', c_list s' = Some l' /\ upto_state l l' /\ Forall (fun x => p_state x.2 = PROC_READY_FOR_CKPT) l').
  clear s'. unfold coord_handle_command. apply sat_bind.
  destruct (m_hdr msg =? hdr_code XND_COMMAND); [|done]. apply sat_ret.
  rewrite Hcmd, cmd_of_code. apply sat_bind.
  apply sat_weaken with (Q := fun _ s' => c_epoch s' = c_epoch s /\
    exists l', c_list s' = Some l' /\ upto_state l l' /\ Forall (fun x => p_state x.2 = PROC_READY_FOR_CKPT) l').
  2: { intros _ s1 Hs1. apply sat_bind. unfold send, on_os, sat at 1.
    destruct (coord_send_msg _ _ (c_os s1)) as [r w|c w|w| |]; try done.
    by destruct (r =? 0). }
  unfold coord_do_checkpoint. eapply sat_step; [done|]. eapply sat_step; [done|].
  apply sat_bind. eapply sat_weaken; [by eapply collective_alive|]. intros total s1 [-> [w1 ->]].
  rewrite (proj2 (Z.eqb_neq _ _)) by (destruct l; cbn; [done|lia]).
  apply sat_bind.
  apply sat_weaken with (Q := fun _ s' => exists l' w, s' = put_list l' (put_os w s) /\ upto_state l l' /\
    Forall (fun x => p_state x.2 = PROC_READY_FOR_CKPT) l').
  { eapply sat_weaken; [by apply (suspend_sat alive fuel _ l)|].
    intros _ s2 (l' & w & -> & Hu & Hr). by exists l', w. }
  intros _ s2 (l' & w & -> & Hu & Hr). eapply sat_step; [done|]. apply sat_bind.
  apply sat_weaken with (Q := fun err s' => err <> 0 /\ exists w', s' = put_os w' (put_list l' (put_os w s))).
  { unfold on_os, sat. specialize (no_ckptdir (c_xnd_uuid (put_list l' (put_os w s))) (c_epoch s) w).
    unfold sat in no_ckptdir. cbn [c_os put_list put_os].
    destruct (xnd_ckptdir_create _ _ w); try done. split; [done|by eexists]. }
  intros err s3 [Herr [w' ->]]. rewrite (proj2 (Z.eqb_neq _ _) Herr). cbn [negb].
  apply sat_bind, sat_bind. unfold on_os, sat at 1.
  destruct (xnd_ckptdir_unlink _ _ _); try done. cbn. split; [done|]. by exists l'.
Qed.
End ckptdir_failure.
