(* ===== verification/CoordReg.v ===== *)
(** Registration with the coordinator of [Coord]: the invariant that ties the
    process list, the pid table and the pid counter, what translation requests
    are answered, and the coordinator's failures. *)

From S2P Require Import Prelude Bytes Io CoordMsg ProcList Process PidTable Coord CoordProps.
Open Scope Z_scope.

Section invariant.
Context {W : Type} `{IoSys W, !IoTotal W, CoordOS W, CkptDir W, IterOrder}.
Context (stack_msg : xnd_msg) (heap_proc : proc).
Implicit Types s : coord W.

Record coord_inv s : Prop := {
  ci_list : c_list s = Some (procs s);
  ci_locs : NoDup ((procs s).*1);
  ci_alloc : forall p, p ∈ (procs s).*1 -> (p < c_alloc s)%positive;
  ci_virt : NoDup (p_virt_pid <$> (procs s).*2);
  ci_table : forall p x, (p, x) ∈ procs s -> c_table s !! p_virt_pid x = Some (p_real_pid x);
  ci_next : forall v r, c_table s !! v = Some r -> v < c_next_virt_pid s
}.

Lemma inv_put_os s w : coord_inv s -> coord_inv (put_os w s).
Proof. by intros []. Qed.

Lemma next_virt_pid_spec s : coord_inv s ->
  sat true coord_next_virt_pid s (fun v s' =>
    v = c_next_virt_pid s /\ s' = put_next (v + 1) (c_next_xnd_pid s) s /\ c_table s !! v = None).
Proof.
  intros Hi. unfold coord_next_virt_pid, sat. mrun.
  destruct (c_next_virt_pid s =? 2 ^ 31 - 1); [done|].
  destruct (c_table s !! c_next_virt_pid s) as [r|] eqn:E.
  { apply (ci_next s Hi) in E. lia. }
  unfold virtual_id_exists. cbn [c_table put_next]. rewrite E. cbn. done.
Qed.

Lemma inv_put_next v n s : coord_inv s -> c_next_virt_pid s <= v -> coord_inv (put_next v n s).
Proof. intros [] Hv. split; try done. cbn. intros w r Hw. specialize (ci_next0 w r Hw). lia. Qed.

Lemma next_xnd_pid_spec s :
  coord_next_xnd_pid s = Ret (c_next_xnd_pid s) (put_next (c_next_virt_pid s) (u32 (c_next_xnd_pid s + 1)) s).
Proof. done. Qed.

Lemma handshake_spec x s :
  sat true (coord_send_handshake stack_msg x) s (fun _ s' => exists w, s' = put_os w s).
Proof.
  unfold coord_send_handshake. eapply sat_step; [done|]. apply sat_bind. unfold send, on_os, sat at 1.
  destruct (coord_send_msg _ _ _) as [r w|c w|w| |]; try done.
  destruct (negb _); [apply exit_post|]. by exists w.
Qed.

(** A new process: its virtual pid is new, its parent's virtual pid is the one
    of a listed process with that real pid, or new as well. *)
Lemma register_inv p x s :
  coord_inv s -> p ∉ (procs s).*1 -> (p < c_alloc s)%positive ->
  p_virt_pid x < c_next_virt_pid s -> p_virt_ppid x < c_next_virt_pid s ->
  p_virt_pid x ∉ p_virt_pid <$> (procs s).*2 -> p_virt_ppid x <> p_virt_pid x ->
  (forall q y, (q, y) ∈ procs s -> p_virt_pid y = p_virt_ppid x -> p_real_pid y = p_real_ppid x) ->
  sat true (register p x) s (fun _ s' => coord_inv s').
Proof.
  intros Hi Hp Ha Hv Hvp Hnew Hne Hpar. pose proof Hi as [].
  unfold register, table_update, add_proc, the_list, sat. mrun. rewrite ci_list0. cbn.
  split; cbn [c_list c_table c_alloc c_next_virt_pid put_list put_ctable procs default id].
  - done.
  - by constructor.
  - intros q [->|Hq]%elem_of_cons; [done|by apply ci_alloc0].
  - by constructor.
  - intros q y [[= -> ->]|Hq]%elem_of_cons.
    + unfold update. rewrite lookup_insert_ne by congruence. apply lookup_insert_eq.
    + unfold update. destruct (decide (p_virt_ppid x = p_virt_pid y)) as [He|Hn].
      * rewrite He, lookup_insert_eq. f_equal. symmetry. by eapply Hpar.
      * rewrite lookup_insert_ne by done. rewrite lookup_insert_ne; [by eapply ci_table0|].
        intros He. apply Hnew. rewrite He. apply list_elem_of_fmap. exists y. split; [done|].
        apply list_elem_of_fmap. by exists (q, y).
  - unfold update. intros v r. destruct (decide (v = p_virt_ppid x)) as [->|]; [done|].
    rewrite lookup_insert_ne by done. destruct (decide (v = p_virt_pid x)) as [->|]; [done|].
    rewrite lookup_insert_ne by done. apply ci_next0.
Qed.

Lemma virt_listed_lt s v : coord_inv s -> v ∈ p_virt_pid <$> (procs s).*2 -> v < c_next_virt_pid s.
Proof.
  intros Hi Hv. apply list_elem_of_fmap in Hv as (y & -> & Hy). apply list_elem_of_fmap in Hy as ([q z] & -> & Hq).
  by eapply ci_next; [|eapply ci_table].
Qed.

Lemma inv_alloc s : coord_inv s -> coord_inv (put_alloc (Pos.succ (c_alloc s)) s) /\ c_alloc s ∉ (procs s).*1.
Proof.
  intros Hi. pose proof Hi as []. split; [split; try done|].
  - intros p Hp. cbn. specialize (ci_alloc0 p Hp). lia.
  - intros Hp. specialize (ci_alloc0 _ Hp). lia.
Qed.

Lemma find_proc_spec test l s : c_list s = Some l -> find_proc test s = Ret (pl_find test l) s.
Proof. intros Hl. unfold find_proc, the_list. mrun. by rewrite Hl. Qed.

Lemma launch_inv fd msg s : coord_inv s ->
  sat true (coord_connect_with_process_on_launch stack_msg heap_proc fd msg) s (fun _ s' => coord_inv s').
Proof.
  intros Hi. unfold coord_connect_with_process_on_launch. eapply sat_step; [done|].
  destruct (real_id_exists (m_real_pid msg) (c_table s)).
  { eapply sat_step; [by eapply find_proc_spec, ci_list|].
    destruct (pl_find _ (procs s)) as [[p x]|] eqn:E; [|done].
    apply find_Some_elem in E as [Hin _]. apply list_elem_of_split in Hin as (l1 & l2 & Hl).
    eapply sat_step; [done|]. eapply sat_step; [done|]. cbn [fst snd].
    set (s1 := put_os (os_close (p_fd x) (c_os s)) s). assert (coord_inv s1) as Hi1 by (by apply inv_put_os).
    assert (c_list s1 = Some (l1 ++ (p, x) :: l2)) as Hl1 by (rewrite <- Hl; apply Hi).
    pose proof (ci_locs s Hi) as Hn. rewrite Hl in Hn. destruct (NoDup_mid _ _ _ _ Hn) as [Hp1 Hp2].
    change (sat true (set_proc p (with_fd fd);; x0 ← proc_at p; coord_send_handshake stack_msg x0) s1
              (fun _ s' => coord_inv s')).
    eapply sat_step; [by eapply set_proc_mid|]. eapply sat_step; [by eapply proc_at_mid|].
    eapply sat_weaken; [apply handshake_spec|]. intros _ s2 [w ->]. apply inv_put_os.
    destruct Hi1. assert (procs s1 = l1 ++ (p, x) :: l2) as Hps by (unfold procs; by rewrite Hl1).
    rewrite Hps in *. split; cbn [c_list put_list procs default id c_table c_alloc c_next_virt_pid]; try done.
    - by eapply NoDup_locs.
    - intros q Hq. apply ci_alloc0. revert Hq. by rewrite !fmap_app, !fmap_cons.
    - revert ci_virt0. by rewrite !fmap_app, !fmap_cons.
    - intros q y Hq. rewrite elem_of_app, elem_of_cons in Hq.
      destruct Hq as [Hq|[[= -> ->]|Hq]].
      + apply (ci_table0 q). apply elem_of_app. by left.
      + apply (ci_table0 p x). apply elem_of_app. right. left.
      + apply (ci_table0 q). apply elem_of_app. right. by right. }
  eapply sat_step; [done|]. destruct (inv_alloc s Hi) as [Hia Hfresh].
  set (s1 := put_alloc (Pos.succ (c_alloc s)) s) in *. eapply sat_step; [done|].
  apply sat_bind. destruct (c_epoch s1 =? 0); [|done]. apply sat_ret.
  apply sat_bind.
  apply sat_weaken with (Q := fun x s' => coord_inv s' /\ procs s' = procs s /\ c_alloc s' = c_alloc s1 /\
    p_virt_pid x < c_next_virt_pid s' /\ p_virt_ppid x < c_next_virt_pid s' /\
    p_virt_pid x ∉ p_virt_pid <$> (procs s).*2 /\ p_virt_ppid x <> p_virt_pid x /\
    (forall q y, (q, y) ∈ procs s -> p_virt_pid y = p_virt_ppid x -> p_real_pid y = p_real_ppid x)).
  2: { intros x s2 (Hi2 & Hps & Hal & Hv & Hvp & Hnew & Hne & Hpar).
    apply sat_bind. eapply sat_weaken; [apply handshake_spec|]. intros _ s3 [w ->].
    assert (procs (put_os w s2) = procs s) as Hps' by exact Hps.
    apply register_inv; rewrite ?Hps'; try done; [by apply inv_put_os|].
    change (c_alloc (put_os w s2)) with (c_alloc s2). rewrite Hal. cbn. lia. }
  destruct (real_id_exists (m_real_ppid msg) (c_table s)).
  - eapply sat_step; [by eapply find_proc_spec, (ci_list s Hi)|].
    destruct (pl_find _ (procs s)) as [[q par]|] eqn:E; [|done].
    apply find_Some_elem in E as [Hin Hr]. cbn in Hr. apply Z.eqb_eq in Hr.
    apply sat_bind. eapply sat_weaken; [apply (next_virt_pid_spec s1 Hia)|]. intros v s2 (-> & -> & Hv).
    eapply sat_step; [apply next_xnd_pid_spec|]. apply sat_ret.
    assert (p_virt_pid par < c_next_virt_pid s) as Hlt.
    { eapply ci_next; [done|]. by eapply (ci_table s Hi q). }
    split; [apply inv_put_next; [apply inv_put_next; [done|cbn; lia]|cbn; lia]|].
    split; [done|]. split; [done|]. cbn. split; [lia|]. split; [lia|]. split; [|split; [lia|]].
    + intros Hx%virt_listed_lt; [lia|done].
    + intros q' y Hq' He. rewrite <- Hr.
      pose proof (ci_table s Hi _ _ Hq') as H1'. pose proof (ci_table s Hi _ _ Hin) as H2'.
      rewrite He, H2' in H1'. by injection H1'.
  - apply sat_bind. eapply sat_weaken; [apply (next_virt_pid_spec s1 Hia)|]. intros vp s2 (-> & -> & Hvp).
    set (s2 := put_next _ _ s1).
    assert (coord_inv s2) as Hi2 by (apply inv_put_next; [done|cbn; lia]).
    apply sat_bind. eapply sat_weaken; [apply (next_virt_pid_spec s2 Hi2)|]. intros v s3 (-> & -> & Hv).
    do 2 (eapply sat_step; [apply next_xnd_pid_spec|]). apply sat_ret.
    split; [do 3 (apply inv_put_next; [|cbn; lia]); done|].
    split; [done|]. split; [done|]. cbn. split; [lia|]. split; [lia|]. split; [|split; [lia|]].
    + intros Hx%virt_listed_lt; [lia|done].
    + intros q' y Hq' He. exfalso.
      assert (p_virt_pid y < c_next_virt_pid s) by (eapply ci_next; [done|by eapply (ci_table s Hi q')]). lia.
Qed.

Lemma atfork_inv fd msg s : coord_inv s ->
  sat true (coord_atfork stack_msg heap_proc fd msg) s (fun _ s' => coord_inv s').
Proof.
  intros Hi. unfold coord_atfork. eapply sat_step; [done|]. destruct (inv_alloc s Hi) as [Hia Hfresh].
  set (s1 := put_alloc (Pos.succ (c_alloc s)) s) in *.
  apply sat_bind. eapply sat_weaken; [apply (next_virt_pid_spec s1 Hia)|]. intros v s2 (-> & -> & Hv).
  eapply sat_step; [apply next_xnd_pid_spec|].
  set (s2 := put_next _ _ (put_next _ _ s1)).
  assert (coord_inv s2) as Hi2 by (do 2 (apply inv_put_next; [|cbn; lia]); done).
  apply sat_bind. unfold send, on_os, sat at 1.
  destruct (coord_send_msg _ _ _) as [r w|c w|w| |]; try done.
  destruct (negb (r =? 0)); [apply exit_post|].
  set (s3 := put_os w s2). assert (coord_inv s3) as Hi3 by (by apply inv_put_os).
  eapply sat_step; [by eapply find_proc_spec, (ci_list s Hi)|].
  destruct (pl_find _ (procs s)) as [[q par]|] eqn:E; [|apply exit_post].
  apply find_Some_elem in E as [Hin Hr]. cbn in Hr. apply Z.eqb_eq in Hr.
  apply sat_bind. unfold recv, on_os, sat at 1.
  destruct (coord_recv_msg _ _) as [[cm|] w2|c w2|w2| |]; try done; [|apply exit_post].
  apply sat_bind. destruct (m_hdr cm =? _); [|done]. apply sat_ret.
  apply sat_bind. destruct (Z.eqb_spec (m_real_ppid cm) (p_real_pid par)) as [Hpp|]; [|done]. apply sat_ret.
  apply sat_bind. eapply sat_weaken; [apply handshake_spec|]. intros _ s4 [w3 ->].
  assert (p_virt_pid par < c_next_virt_pid s) as Hlt.
  { eapply ci_next; [done|]. by eapply (ci_table s Hi q). }
  apply register_inv; try done; cbn -[Z.add]; try lia.
  - by do 2 apply inv_put_os.
  - intros Hx. apply (virt_listed_lt s) in Hx; [lia|done].
  - intros q' y Hq' He. rewrite Hpp.
    pose proof (ci_table s Hi _ _ Hq') as H1'. pose proof (ci_table s Hi _ _ Hin) as H2'.
    rewrite He, <- Hr, H2' in H1'. by injection H1'.
Qed.

Lemma remove_inv p s : coord_inv s -> sat true (remove_proc p) s (fun _ s' => coord_inv s').
Proof.
  intros Hi. unfold remove_proc, proc_at. apply sat_bind. unfold the_list, sat at 1. mrun.
  rewrite (ci_list s Hi). cbn. destruct (pl_get p (procs s)) as [x|] eqn:E; [|done].
  unfold sat. cbn. rewrite (ci_list s Hi). cbn.
  assert (exists l1 l2, procs s = l1 ++ (p, x) :: l2) as (l1 & l2 & Hl).
  { unfold pl_get in E. destruct (List.find _ _) as [[q y]|] eqn:F; [|done]. injection E as <-.
    apply find_Some_elem in F as [Hin Hq]. apply bool_decide_eq_true in Hq. cbn in Hq. subst q.
    by apply list_elem_of_split. }
  pose proof Hi as []. rewrite Hl in *. rewrite (pl_remove_mid _ _ _ _ ci_locs0).
  assert (forall t, (forall q y, (q, y) ∈ l1 ++ l2 -> t !! p_virt_pid y = Some (p_real_pid y)) ->
            (forall v r, t !! v = Some r -> v < c_next_virt_pid s) ->
            forall w, coord_inv (put_ctable t (put_os w (put_list (l1 ++ l2) s)))) as Hnew.
  { intros t Ht1 Ht2 w. split; cbn [c_list put_ctable put_os put_list procs default id c_table c_alloc c_next_virt_pid]; try done.
    - rewrite fmap_app, fmap_cons in ci_locs0. rewrite fmap_app.
      apply NoDup_app in ci_locs0 as (? & Hd & [_ ?]%NoDup_cons). apply NoDup_app. split; [done|].
      split; [|done]. intros z Hz Hz'. apply (Hd z Hz). by right.
    - intros q Hq. apply ci_alloc0. rewrite fmap_app, fmap_cons. rewrite fmap_app in Hq.
      rewrite elem_of_app, elem_of_cons in *. tauto.
    - rewrite !fmap_app, !fmap_cons in ci_virt0. rewrite !fmap_app.
      apply NoDup_app in ci_virt0 as (? & Hd & [_ ?]%NoDup_cons). apply NoDup_app. split; [done|].
      split; [|done]. intros z Hz Hz'. apply (Hd z Hz). by right. }
  assert (forall q y, (q, y) ∈ l1 ++ l2 -> p_virt_pid y <> p_virt_pid x) as Hdiff.
  { intros q y Hq He. rewrite !fmap_app, !fmap_cons in ci_virt0. cbn in ci_virt0.
    apply NoDup_app in ci_virt0 as (_ & Hd & [Hx _]%NoDup_cons).
    assert (forall l, (q, y) ∈ l -> p_virt_pid x ∈ p_virt_pid <$> l.*2) as Hmem.
    { intros l Hin. rewrite <- He. apply list_elem_of_fmap. exists y. split; [done|].
      apply list_elem_of_fmap. by exists (q, y). }
    apply elem_of_app in Hq as [Hq|Hq]; [apply (Hd _ (Hmem _ Hq)); left|apply Hx, Hmem, Hq]. }
  assert (forall q y, (q, y) ∈ l1 ++ l2 -> c_table s !! p_virt_pid y = Some (p_real_pid y)) as Htab.
  { intros q y Hq. apply (ci_table0 q). rewrite elem_of_app, elem_of_cons in *. tauto. }
  destruct (p_cleanup x).
  - assert (forall w, coord_inv (put_ctable (erase (p_virt_pid x) (c_table s)) (put_os w (put_list (l1 ++ l2) s)))) as Her.
    { intros w. apply Hnew.
      - intros q y Hq. unfold erase. rewrite lookup_delete_ne by (intros He; by apply (Hdiff q y Hq)). by eapply Htab.
      - intros v r. unfold erase. intros [_ Hv]%lookup_delete_Some. by eapply ci_next0. }
    unfold proc_exit_callback. mrun.
    destruct (negb (p_fd x =? -1)), (negb (p_oob_fd x =? -1)); cbn; try apply Her.
  - apply (Hnew (c_table s) Htab ci_next0 (c_os s)).
Qed.

Lemma handle_msg_inv fd msg s : coord_inv s ->
  sat true (coord_handle_msg fd msg) s (fun _ s' => coord_inv s').
Proof.
  intros Hi.
  assert (forall m, sat true (err ← send fd m; xnd_assert (err =? 0)) s (fun _ s' => coord_inv s')) as Hsend.
  { intros m. apply sat_bind. unfold send, on_os, sat at 1.
    destruct (coord_send_msg fd m (c_os s)) as [r w|c w|w| |]; try done.
    destruct (r =? 0); [|done]. by apply inv_put_os. }
  unfold coord_handle_msg. destruct (hdr_of (m_hdr msg)) as [[]|]; try apply exit_post.
  - eapply sat_step; [by eapply find_proc_spec, ci_list|].
    destruct (pl_find _ _) as [[p x]|]; [by apply remove_inv|done].
  - unfold coord_send_virt_to_real. eapply sat_step; [done|].
    eapply sat_step; [by eapply find_proc_spec, ci_list|]. apply Hsend.
  - unfold coord_send_real_to_virt. eapply sat_step; [done|].
    eapply sat_step; [by eapply find_proc_spec, ci_list|]. apply Hsend.
Qed.

(** C28. The coordinator's tables stay consistent.  A process that launches or
    reconnects, a fork, and a message of a registered process (an exit, a
    translation request) each keep: the processes of the list have distinct
    virtual pids, the pid table maps each of them to the process's real pid,
    every virtual pid of the table is below the next one to be given out, and
    no node is in the list twice.  So no virtual pid is ever given out twice. *)
Theorem registration_invariant (s s' : coord W) (fd : Z) (msg : xnd_msg) :
  coord_inv s ->
  coord_connect_with_process_on_launch stack_msg heap_proc fd msg s = Ret tt s' \/
  coord_atfork stack_msg heap_proc fd msg s = Ret tt s' \/
  coord_handle_msg fd msg s = Ret tt s' ->
  coord_inv s'.
Proof.
  intros Hi [Hx|[Hx|Hx]].
  - pose proof (launch_inv fd msg s Hi) as Hs. rewrite sat_post in Hs. by eapply Hs.
  - pose proof (atfork_inv fd msg s Hi) as Hs. rewrite sat_post in Hs. by eapply Hs.
  - pose proof (handle_msg_inv fd msg s Hi) as Hs. rewrite sat_post in Hs. by eapply Hs.
Qed.

(** The answer to a translation request. *)
Definition answer (ret : Z) (msg : xnd_msg) : xnd_msg :=
  with_ret ret (with_hdr (hdr_code XND_COORD_ACK) msg).

(** Any process that asks for the real pid of a registered process's
    virtual pid is sent the success answer with that process's real pid; a
    virtual pid that is neither in the table nor in the list is answered
    XND_FAILURE and -1. *)
Theorem virt_to_real_answer (s : coord W) (fd : Z) (msg : xnd_msg) (p : loc) (x : proc) :
  coord_inv s -> p_real_pid x <> -1 ->
  ((p, x) ∈ procs s -> m_virt_pid msg = p_virt_pid x ->
   coord_send_virt_to_real fd msg s =
     (err ← send fd (with_real_pid (p_real_pid x) (answer XND_SUCCESS msg_zero)); xnd_assert (err =? 0)) s) /\
  (c_table s !! m_virt_pid msg = None -> m_virt_pid msg ∉ p_virt_pid <$> (procs s).*2 ->
   coord_send_virt_to_real fd msg s =
     (err ← send fd (with_real_pid (-1) (answer XND_FAILURE msg_zero)); xnd_assert (err =? 0)) s).
Proof.
  intros Hi Hreal.
  pose proof (find_proc_spec (fun d => p_virt_pid d =? m_virt_pid msg) (procs s) s (ci_list s Hi)) as Hf.
  unfold coord_send_virt_to_real. rewrite (bind_ret _ _ _ _ _ (eq_refl : gets c_table s = Ret (c_table s) s)).
  rewrite (bind_ret _ _ _ _ _ Hf). split.
  - intros Hin Hv. unfold virtual_to_real. rewrite Hv, (ci_table s Hi _ _ Hin). cbn [default from_option id].
    rewrite (proj2 (Z.eqb_neq _ _) Hreal). cbn [negb]. rewrite (proj2 (Z.eqb_neq _ _) Hreal). reflexivity.
  - intros Ht Hl. unfold virtual_to_real. rewrite Ht. cbn [default from_option id].
    destruct (pl_find _ (procs s)) as [[q y]|] eqn:E; [|reflexivity]. exfalso. apply Hl.
    apply find_Some_elem in E as [Hin Hq]. cbn in Hq. apply Z.eqb_eq in Hq. rewrite <- Hq.
    apply list_elem_of_fmap. exists y. split; [done|]. apply list_elem_of_fmap. by exists (q, y).
Qed.

(** ** Failures *)

Lemma run_cleanups_spec l s : Forall (fun x => p_cleanup x.2 = true) l ->
  exists w, run_cleanups l s =
    Ret tt (put_ctable (foldl (fun t v => delete v t) (c_table s) (p_virt_pid <$> l.*2)) (put_os w s)).
Proof.
  revert s. induction l as [|[p x] l IH]; intros s Hc; [by exists (c_os s); destruct s|].
  inversion Hc as [|? ? Hx Hl]; subst. cbn [run_cleanups]. cbn in Hx. rewrite Hx.
  assert (exists w, proc_exit_callback x s = Ret tt (put_ctable (erase (p_virt_pid x) (c_table s)) (put_os w s)))
    as [w Hw].
  { unfold proc_exit_callback. mrun.
    destruct (negb (p_fd x =? -1)), (negb (p_oob_fd x =? -1)); cbn; eexists; reflexivity. }
  rewrite (bind_ret _ _ _ _ _ Hw). destruct (IH (put_ctable (erase (p_virt_pid x) (c_table s)) (put_os w s)) Hl) as [w' ->].
  by exists w'.
Qed.

Lemma coord_exit_spec {A} status s : coord_inv s -> Forall (fun x => p_cleanup x.2 = true) (procs s) ->
  exists w, coord_exit (A := A) status s = Exit status (put_ctable
    (foldl (fun t v => delete v t) (c_table s) (p_virt_pid <$> (procs s).*2)) (free_list (put_os w s))).
Proof.
  intros Hi Hc. unfold coord_exit, coord_cleanup.
  destruct (run_cleanups_spec (procs s) s Hc) as [w Hw].
  assert (the_list s = Ret (procs s) s) as Hl by (unfold the_list; mrun; by rewrite (ci_list s Hi)).
  unfold mbind at 1, M_bind at 1. rewrite (bind_ret _ _ _ _ _ Hl), (bind_ret _ _ _ _ _ Hw).
  mrun. destruct (negb _); cbn; eexists; reflexivity.
Qed.

(** A client whose first message on a new connection is XND_EXIT ends the
    coordinator with COORD_EXIT_FAILURE, whatever processes are registered.
    [notify_coord_of_exit] sends exactly that when its out-of-band connection
    is new. *)
Theorem exit_on_new_connection (s : coord W) (fuel : nat) (fd : Z) (msg : xnd_msg) :
  coord_inv s -> Forall (fun x => p_cleanup x.2 = true) (procs s) ->
  m_hdr msg = hdr_code XND_EXIT ->
  exists s', handle_connection stack_msg heap_proc fuel fd msg s = Exit COORD_EXIT_FAILURE s' /\ c_list s' = None.
Proof.
  intros Hi Hc Hh. unfold handle_connection. rewrite Hh, hdr_of_code.
  destruct (coord_exit_spec (A := unit) COORD_EXIT_FAILURE s Hi Hc) as [w ->]. by eexists.
Qed.

Lemma find_mid (f : proc -> bool) (l1 l2 : plist) p x :
  (forall q y, (q, y) ∈ l1 -> f y = false) -> f x = true ->
  pl_find f (l1 ++ (p, x) :: l2) = Some (p, x).
Proof.
  intros Hf1 Hx. unfold pl_find. induction l1 as [|[q y] l1 IH]; cbn [app List.find snd]; [by rewrite Hx|].
  rewrite (Hf1 q y) by left. apply IH. intros q' y' Hq. apply (Hf1 q'). by right.
Qed.

(** A process's own exit message makes the coordinator read freed memory:
    [coord_handle_msg] removes and frees the process, and the loop of
    [coord_wait_for_msg] then reads its [oob_fd]. *)
Theorem exit_message_use_after_free (s : coord W) (set : list Z) (l1 l2 : plist) (p : loc) (x : proc)
    (msg : xnd_msg) (w : W) :
  coord_inv s -> procs s = l1 ++ (p, x) :: l2 -> p_fd x ∈ set ->
  coord_recv_msg (p_fd x) (c_os s) = Ret (Some msg) w ->
  m_hdr msg = hdr_code XND_EXIT -> m_real_pid msg = p_real_pid x ->
  (forall q y, (q, y) ∈ l1 -> p_real_pid y <> p_real_pid x) ->
  wait_for_msg_one set p s = Ub.
Proof.
  intros Hi Hl Hset Hrecv Hh Hr Hfirst. pose proof (ci_locs s Hi) as Hn. rewrite Hl in Hn.
  destruct (NoDup_mid _ _ _ _ Hn) as [Hp1 Hp2].
  assert (c_list s = Some (l1 ++ (p, x) :: l2)) as Hls by (rewrite <- Hl; apply Hi).
  unfold wait_for_msg_one. rewrite (bind_ret _ _ _ _ _ (proc_at_mid _ _ _ _ _ Hls Hp1)).
  rewrite bool_decide_eq_true_2 by done. set (s1 := put_os w s).
  assert (recv (p_fd x) s = Ret (Some msg) s1) as Hrv by (unfold recv, on_os; by rewrite Hrecv).
  assert (exists s2, coord_handle_msg (p_fd x) msg s1 = Ret tt s2 /\ c_list s2 = Some (l1 ++ l2)) as (s2 & Hs2 & Hl2).
  { unfold coord_handle_msg. rewrite Hh, hdr_of_code.
    rewrite (bind_ret _ _ _ _ _ (find_proc_spec _ _ s1 Hls)), find_mid.
    2: { intros q y Hq. apply Z.eqb_neq. rewrite Hr. by eapply Hfirst. }
    2: { rewrite Hr. apply Z.eqb_refl. }
    unfold remove_proc. rewrite (bind_ret _ _ _ _ _ (proc_at_mid _ _ _ _ s1 Hls Hp1)).
    unfold the_list. mrun. rewrite Hls. cbn. rewrite pl_remove_mid by done.
    destruct (p_cleanup x); [|by eexists]. unfold proc_exit_callback. mrun.
    destruct (negb (p_fd x =? -1)), (negb (p_oob_fd x =? -1)); cbn; by eexists. }
  unfold mbind at 1, M_bind at 1. rewrite (bind_ret _ _ _ _ _ Hrv), (bind_ret _ _ _ _ _ Hs2).
  unfold mret at 1, M_ret at 1. unfold mbind at 1, M_bind at 1, proc_at, the_list. mrun. rewrite Hl2. cbn.
  assert (pl_get p (l1 ++ l2) = None) as ->; [|done].
  unfold pl_get. assert (List.find (fun y : loc * proc => bool_decide (y.1 = p)) (l1 ++ l2) = None) as ->; [|done].
  apply find_None_elem. intros [q y] Hq. apply bool_decide_eq_false_2. cbn. intros ->.
  apply elem_of_app in Hq as [Hq|Hq]; [apply Hp1|apply Hp2]; apply list_elem_of_fmap; by exists (p, y).
Qed.

(** Two processes started by the same process that is not itself
    registered: the second registration fails the assertion that the parent
    is in the list, because the first one put the parent's real pid in the
    pid table only. *)
Theorem second_launch_aborts (s s1 : coord W) (fd1 fd2 : Z) (msg1 msg2 : xnd_msg) :
  coord_inv s -> c_epoch s = 0 ->
  real_id_exists (m_real_pid msg1) (c_table s) = false ->
  real_id_exists (m_real_ppid msg1) (c_table s) = false ->
  coord_connect_with_process_on_launch stack_msg heap_proc fd1 msg1 s = Ret tt s1 ->
  real_id_exists (m_real_pid msg2) (c_table s1) = false ->
  m_real_ppid msg2 = m_real_ppid msg1 -> m_real_pid msg1 <> m_real_ppid msg1 ->
  exists s2, coord_connect_with_process_on_launch stack_msg heap_proc fd2 msg2 s1 = Abort s2.
Proof.
  intros Hi He Hr1 Hp1 Hlaunch Hr2 Hsame Hne.
  assert (exists x w, p_real_pid x = m_real_pid msg1 /\ c_list s1 = Some ((w, x) :: procs s) /\
            c_epoch s1 = 0 /\ exists v t, c_table s1 = update v (m_real_ppid msg1) t) as (x & q & Hx & Hl & He1 & v & t & Ht).
  { revert Hlaunch. apply sat_post with (Q := fun _ s1 => exists x w, p_real_pid x = m_real_pid msg1 /\
      c_list s1 = Some ((w, x) :: procs s) /\ c_epoch s1 = 0 /\
      exists v t, c_table s1 = update v (m_real_ppid msg1) t).
    unfold coord_connect_with_process_on_launch. eapply sat_step; [done|]. rewrite Hr1.
    eapply sat_step; [done|]. eapply sat_step; [done|]. apply sat_bind. cbn [c_epoch put_alloc]. rewrite He.
    apply sat_ret. rewrite Hp1. destruct (inv_alloc s Hi) as [Hia _].
    apply sat_bind, sat_bind. eapply sat_weaken; [apply (next_virt_pid_spec _ Hia)|]. intros vp s2 (-> & -> & _).
    match goal with |- sat _ _ ?s2 _ => assert (coord_inv s2) as Hi2 by (apply inv_put_next; [done|cbn; lia]) end.
    apply sat_bind. eapply sat_weaken; [apply (next_virt_pid_spec _ Hi2)|]. intros v s3 (-> & -> & _).
    do 2 (eapply sat_step; [apply next_xnd_pid_spec|]). apply sat_ret.
    apply sat_bind. eapply sat_weaken; [apply handshake_spec|]. intros _ s4 [w ->].
    unfold sat, register, table_update, add_proc, the_list. mrun. rewrite (ci_list s Hi). cbn.
    eexists _, _. split; [|split; [reflexivity|]]; [done|]. split; [done|]. by eexists _, _. }
  unfold coord_connect_with_process_on_launch.
  rewrite (bind_ret _ _ _ _ _ (eq_refl : gets c_table s1 = Ret (c_table s1) s1)), Hr2.
  set (s2 := put_alloc (Pos.succ (c_alloc s1)) s1).
  rewrite (bind_ret _ _ _ (c_alloc s1) s2) by done.
  rewrite (bind_ret _ _ _ 0 s2) by (unfold gets; cbn; by rewrite He1).
  rewrite (bind_ret _ _ _ tt s2) by done.
  assert (real_id_exists (m_real_ppid msg2) (c_table s1) = true) as ->.
  { apply real_id_exists_spec. exists v. rewrite Ht, Hsame. apply lookup_insert_eq. }
  exists s2. unfold mbind at 1, M_bind at 1. rewrite (bind_ret _ _ _ _ _ (find_proc_spec _ _ s2 Hl)).
  assert (pl_find (fun d => p_real_pid d =? m_real_ppid msg2) ((q, x) :: procs s) = None) as ->; [|done].
  apply find_None_elem. intros [q' y] Hy. apply Z.eqb_neq. cbn. rewrite Hsame.
  apply elem_of_cons in Hy as [[= -> ->]|Hy]; [by rewrite Hx|].
  intros Heq. apply not_true_iff_false in Hp1. apply Hp1. apply real_id_exists_spec.
  exists (p_virt_pid y). rewrite <- Heq. by eapply (ci_table s Hi q').
Qed.

(** When its socket cannot be created the coordinator, instead of
    exiting with COORD_EXIT_FAILURE, follows a null pointer: [coord_cleanup]
    destroys a process list that is not allocated yet. *)
Theorem init_failure_null (s : coord W) (interval : Z) :
  c_list s = None -> (forall w, (os_listen_socket w).1 = SocketFailed) -> coord_init interval s = Ub.
Proof.
  intros Hl Hs. unfold coord_init, os. mrun. destruct (os_uuid (c_os s)) as [u w]. cbn.
  specialize (Hs w). destruct (os_listen_socket w) as [r w']. cbn in *. subst r.
  unfold coord_exit, coord_cleanup, the_list. mrun. by rewrite Hl.
Qed.
End invariant.
