(* ===== verification/CoordWorld.v ===== *)
(** A concrete kernel for the coordinator of [Coord], and the witnesses of the
    theorems of [CoordProps] and [CoordReg] on it.

    Every descriptor has the bytes still to be read from it; all writes go to
    one log.  [select] reports the descriptors with input; a descriptor is
    always writable. *)

From S2P Require Import Prelude Bytes Io CoordMsg ProcList Process PidTable Coord CoordProps CoordReg.
Open Scope Z_scope.

Record world := World {
  w_in : gmap Z (list Z);
  w_out : list (Z * list Z);
  (** descriptors whose peer is gone: writing fails *)
  w_broken : list Z;
  w_dead : list Z;
  w_conn : list Z;
  w_closed : list Z
}.
Definition listen_fd : Z := 5.

#[export] Instance world_io : IoSys world := {
  sys_write fd buf w :=
    if bool_decide (fd ∈ w_broken w) then (-1, w) else
    (Z.of_nat (length buf), World (w_in w) (w_out w ++ [(fd, buf)]) (w_broken w) (w_dead w) (w_conn w) (w_closed w));
  sys_read fd n w :=
    let input := default [] (w_in w !! fd) in
    (Some (take (Z.to_nat n) input),
     World (<[fd := drop (Z.to_nat n) input]> (w_in w)) (w_out w) (w_broken w) (w_dead w) (w_conn w) (w_closed w));
  read_waits _ _ _ := false
}.

#[export] Instance world_total : IoTotal world.
Proof.
  split.
  - intros fd buf w. cbn. destruct (bool_decide _); [by left|right]. cbn. split; [lia|].
    destruct buf; [done|cbn; lia].
  - intros fd n w Hn. cbn. rewrite length_take. lia.
Qed.

(** [mortal]: whether the processes of [w_dead] are reported dead. *)
Definition world_os (mortal : bool) : CoordOS world := {|
  os_close fd w := World (w_in w) (w_out w) (w_broken w) (w_dead w) (w_conn w) (fd :: w_closed w);
  os_kill pid _ w := ((if mortal && bool_decide (pid ∈ w_dead w) then ESRCH else 0), w);
  os_select type set w :=
    let ready := match type with
                 | COMM_BROADCAST => set
                 | COMM_REDUCE => List.filter (fun fd =>
                     if fd =? listen_fd then negb (bool_decide (w_conn w = []))
                     else negb (bool_decide (default [] (w_in w !! fd) = []))) set
                 end in
    ((Z.of_nat (length ready), ready), w);
  os_accept _ w := match w_conn w with
                   | [] => (-1, w)
                   | fd :: l => (fd, World (w_in w) (w_out w) (w_broken w) (w_dead w) l (w_closed w))
                   end;
  os_getpid _ := 900;
  os_getppid _ := 800;
  os_time w := (0, w);
  os_usleep _ w := w;
  os_block_signals _ w := w;
  os_listen_socket w := (SocketFailed, w);
  os_unlink_socket w := w;
  os_uuid w := (replicate 16 7, w)
|}.

(** [disk]: whether the checkpoint directory can be created. *)
Definition world_ckptdir (disk : bool) : CkptDir world := {|
  xnd_ckptdir_create _ _ := mret (if disk then 0 else -1);
  xnd_ckptdir_unlink _ _ := mret 0;
  xnd_ckptfile_write_manifest _ _ _ _ _ := mret 0
|}.

Definition pA (st : proc_state) : proc := Proc 10 (-1) 1001 1000 1001 2 4711 1 4242 0 true st true.
Definition pB (st : proc_state) : proc := Proc 11 (-1) 1002 1001 1001 3 4712 2 4711 0 false st true.
Definition two_procs (st : proc_state) : plist := [(2%positive, pB st); (1%positive, pA st)].
Definition two_table : gmap Z Z := {[1 := 4242; 2 := 4711; 3 := 4712]}.
Definition coord_with (l : plist) (w : world) : coord world :=
  Coord (replicate 16 7) 0 4 1003 0 listen_fd 0 (Some l) 3 two_table w.

Definition ready_msg : list Z := msg_bytes (with_hdr (hdr_code XND_CKPT_READY) msg_zero).
Definition done_msg : list Z := msg_bytes (with_hdr (hdr_code XND_CKPT_DONE) msg_zero).
(** Both processes answer the request, then report their checkpoints done. *)
Definition checkpointing : world :=
  World {[10 := ready_msg ++ done_msg; 11 := ready_msg ++ done_msg]} [] [] [] [] [].
Definition quiet : world := World ∅ [] [] [] [] [].

#[local] Existing Instance world_io.
#[local] Instance mortal_os : CoordOS world := world_os true.
#[local] Instance good_disk : CkptDir world := world_ckptdir true.

(** The state a computation returns in. *)
Definition after {A} (m : M (coord world) A) (s : coord world) : coord world :=
  match m s with Ret _ s' => s' | _ => s end.

(** ** A whole checkpoint *)

Example checkpoint_runs :
  exists s', coord_do_checkpoint msg_zero 5 (coord_with (two_procs PROC_RUNNING) checkpointing) = Ret tt s' /\
    c_epoch s' = 1 /\ c_num_peers s' = 2 /\ c_list s' = Some (two_procs PROC_RUNNING).
Proof. eexists. vm_compute. done. Qed.

Lemma two_procs_wf st w : wf (coord_with (two_procs st) w).
Proof.
  exists (two_procs st). split; [reflexivity|]. cbn. constructor; [|apply NoDup_singleton].
  intros Hin. apply list_elem_of_singleton in Hin. discriminate.
Defined.

Lemma checkpoint_epoch_witness :
  let s := coord_with (two_procs PROC_RUNNING) checkpointing in
  let s' := after (coord_do_checkpoint msg_zero 5) s in
  c_epoch s' = 1 /\ wf s' /\ (c_epoch s' = c_epoch s \/
   (c_epoch s' = u64 (c_epoch s + 1) /\ epoch_done msg_zero s s')).
Proof.
  split; [vm_compute; reflexivity|].
  apply (checkpoint_epoch msg_zero 5); [apply two_procs_wf|]. vm_compute. reflexivity.
Defined.

Lemma release_barrier_correct_witness :
  let s := coord_with (two_procs PROC_READY_FOR_CKPT) (World ∅ [] [10] [] [] []) in
  returns (coord_release_barrier msg_zero COORD_BARRIER_PRECKPT) s (fun r s' =>
    exists w, barrier_result msg_zero COORD_BARRIER_PRECKPT s (two_procs PROC_READY_FOR_CKPT) r w s').
Proof.
  apply (release_barrier_correct msg_zero COORD_BARRIER_PRECKPT
    (coord_with (two_procs PROC_READY_FOR_CKPT) (World ∅ [] [10] [] [] [])) (two_procs PROC_READY_FOR_CKPT)).
  - reflexivity.
  - destruct (two_procs_wf PROC_READY_FOR_CKPT quiet) as (l & [= <-] & Hn). exact Hn.
  - repeat constructor.
Defined.

Lemma immortal (pid : Z) (w : world) : (@os_kill world (world_os false) pid 0 w).1 <> ESRCH.
Proof. discriminate. Defined.


Definition ckpt_cmd : xnd_msg := with_cmd (cmd_code XND_CKPT_CMD) (with_hdr (hdr_code XND_COMMAND) msg_zero).

Lemma failed_ckptdir_suspends_witness :
  let s := coord_with (two_procs PROC_RUNNING) checkpointing in
  let m := @coord_handle_command world _ (world_os false) (world_ckptdir false) msg_zero 5 12 ckpt_cmd in
  c_epoch (after m s) = c_epoch s /\
  exists l', c_list (after m s) = Some l' /\ upto_state (two_procs PROC_RUNNING) l' /\
    Forall (fun x => p_state x.2 = PROC_READY_FOR_CKPT) l'.
Proof.
  apply (@failed_ckptdir_suspends world _ _ (world_os false) (world_ckptdir false) msg_zero immortal)
    with (fuel := 5%nat) (fd := 12) (msg := ckpt_cmd).
  - intros uuid epoch w. unfold sat. cbn. lia.
  - reflexivity.
  - discriminate.
  - destruct (two_procs_wf PROC_RUNNING quiet) as (l & [= <-] & Hn). exact Hn.
  - reflexivity.
  - vm_compute. reflexivity.
Defined.

(** The client is told XND_SUCCESS, while both processes stay suspended. *)
Example failed_ckptdir_reply :
  let s := after (@coord_handle_command world _ (world_os false) (world_ckptdir false) msg_zero 5 12 ckpt_cmd)
             (coord_with (two_procs PROC_RUNNING) checkpointing) in
  last (w_out (c_os s)) = Some (12, msg_bytes (with_ret XND_SUCCESS (with_hdr (hdr_code XND_COORD_ACK) msg_zero))) /\
  c_list s = Some (two_procs PROC_READY_FOR_CKPT).
Proof. vm_compute. done. Qed.

(** A process found dead after its answer was counted: with the process that
    is left not ready, the loop ends, and the checkpoint fails an assertion. *)
Example suspend_race :
  let l := [(2%positive, pB PROC_RUNNING); (1%positive, pA PROC_READY_FOR_CKPT)] in
  let s' := after (coord_suspend_processes 1) (coord_with l (World ∅ [] [] [4711] [] [])) in
  c_list s' = Some [(2%positive, pB PROC_RECV_CKPT_REQUEST)] /\
  coord_release_barrier msg_zero COORD_BARRIER_PRECKPT s' = Abort s'.
Proof. vm_compute. split; reflexivity. Qed.

(** ** Registration *)

Lemma two_procs_inv w : coord_inv (coord_with (two_procs PROC_RUNNING) w).
Proof.
  split.
  - reflexivity.
  - destruct (two_procs_wf PROC_RUNNING w) as (l & [= <-] & Hn). exact Hn.
  - intros p [->|Hp]%elem_of_cons; [done|]. apply list_elem_of_singleton in Hp as ->. done.
  - cbn. constructor; [|apply NoDup_singleton]. intros Hin. apply list_elem_of_singleton in Hin. discriminate.
  - intros p x [[= -> ->]|Hp]%elem_of_cons; [reflexivity|]. apply list_elem_of_singleton in Hp as [= -> ->]. reflexivity.
  - intros v r Hv. cbn in *. unfold two_table in Hv. 
    apply lookup_insert_Some in Hv as [[<- _]|[_ Hv]]; [lia|].
    apply lookup_insert_Some in Hv as [[<- _]|[_ Hv]]; [lia|].
    apply lookup_singleton_Some in Hv as [<- _]. lia.
Defined.

Definition launch (real ppid : Z) : xnd_msg :=
  with_pids real ppid 0 0 (with_hdr (hdr_code XND_CONNECT_LAUNCH) msg_zero).

Lemma registration_invariant_witness :
  let s := coord_with (two_procs PROC_RUNNING) quiet in
  coord_inv (after (coord_connect_with_process_on_launch msg_zero (pA PROC_EXITED) 12 (launch 4713 4712)) s).
Proof.
  apply (registration_invariant msg_zero (pA PROC_EXITED) (coord_with (two_procs PROC_RUNNING) quiet) _
    12 (launch 4713 4712)); [apply two_procs_inv|]. left. vm_compute. reflexivity.
Defined.

Lemma virt_to_real_answer_witness :
  let s := coord_with (two_procs PROC_RUNNING) quiet in
  coord_send_virt_to_real 12 (with_virt_pid 3 msg_zero) s =
    (err ← send 12 (with_real_pid 4712 (answer XND_SUCCESS msg_zero)); xnd_assert (err =? 0)) s /\
  coord_send_virt_to_real 12 (with_virt_pid 9 msg_zero) s =
    (err ← send 12 (with_real_pid (-1) (answer XND_FAILURE msg_zero)); xnd_assert (err =? 0)) s.
Proof.
  split.
  - apply (virt_to_real_answer (coord_with (two_procs PROC_RUNNING) quiet) 12 (with_virt_pid 3 msg_zero) 2 (pB PROC_RUNNING));
      [apply two_procs_inv|discriminate|left|reflexivity].
  - apply (virt_to_real_answer (coord_with (two_procs PROC_RUNNING) quiet) 12 (with_virt_pid 9 msg_zero) 2 (pB PROC_RUNNING));
      [apply two_procs_inv|discriminate|reflexivity|].
    intros [Hx|Hx]%elem_of_cons; [discriminate|]. apply list_elem_of_singleton in Hx. discriminate.
Defined.

Definition exit_msg (real : Z) : xnd_msg := with_real_pid real (with_hdr (hdr_code XND_EXIT) msg_zero).

Lemma exit_on_new_connection_witness :
  exists s', handle_connection msg_zero (pA PROC_EXITED) 1 12 (exit_msg 4712)
    (coord_with (two_procs PROC_RUNNING) quiet) = Exit COORD_EXIT_FAILURE s' /\ c_list s' = None.
Proof.
  apply (exit_on_new_connection msg_zero (pA PROC_EXITED) (coord_with (two_procs PROC_RUNNING) quiet) 1 12 (exit_msg 4712));
    [apply two_procs_inv|repeat constructor|reflexivity].
Defined.

Definition exiting : world := World {[11 := msg_bytes (exit_msg 4712)]} [] [] [] [] [].

Lemma exit_message_use_after_free_witness :
  wait_for_msg_one [11] 2 (coord_with (two_procs PROC_RUNNING) exiting) = Ub.
Proof.
  apply (exit_message_use_after_free (coord_with (two_procs PROC_RUNNING) exiting) [11] []
    [(1%positive, pA PROC_RUNNING)] 2 (pB PROC_RUNNING) (exit_msg 4712)
    (World {[11 := []]} [] [] [] [] [])).
  - apply two_procs_inv.
  - reflexivity.
  - left.
  - vm_compute. reflexivity.
  - reflexivity.
  - reflexivity.
  - intros q y Hq. apply elem_of_nil in Hq. destruct Hq.
Defined.

(** The whole [coord_wait_for_msg] on a process that exits. *)
Example exit_message_whole : coord_wait_for_msg (coord_with (two_procs PROC_RUNNING) exiting) = Ub.
Proof. vm_compute. reflexivity. Qed.

Lemma second_launch_aborts_witness :
  let s := coord_with (two_procs PROC_RUNNING) quiet in
  let m fd msg := coord_connect_with_process_on_launch msg_zero (pA PROC_EXITED) fd msg in
  exists s2, m 13 (launch 5002 5000) (after (m 12 (launch 5001 5000)) s) = Abort s2.
Proof.
  apply (second_launch_aborts msg_zero (pA PROC_EXITED) (coord_with (two_procs PROC_RUNNING) quiet) _
    12 13 (launch 5001 5000) (launch 5002 5000)).
  - apply two_procs_inv.
  - reflexivity.
  - vm_compute. reflexivity.
  - vm_compute. reflexivity.
  - vm_compute. reflexivity.
  - vm_compute. reflexivity.
  - reflexivity.
  - discriminate.
Defined.

Lemma init_failure_null_witness :
  coord_init 0 (Coord [] 0 1 1000 0 (-1) 0 None 1 ∅ quiet) = Ub.
Proof.
  apply (init_failure_null (Coord [] 0 1 1000 0 (-1) 0 None 1 ∅ quiet) 0); [reflexivity|].
  intros w. reflexivity.
Defined.
