(* ===== verification/CoordLive.v ===== *)
(** Liveness of the coordinator's checkpoint: with processes that follow the
    protocol, [coord_do_checkpoint] of [Coord] completes.

    The processes are seen by the coordinator through the class [Peers]: what
    is to be read on a descriptor, the answer of a process to each message of
    the protocol, and the calls of the system that leave this alone. *)

From S2P Require Import Prelude Bytes Io CoordMsg ProcList Process PidTable Coord CoordProps CoordWorld.
Open Scope Z_scope.

(** What a process sends back when it is sent a message of the protocol. *)
Definition answer (h : xnd_msghdr) : option xnd_msghdr :=
  match h with
  | XND_CKPT_REQUEST => Some XND_CKPT_READY
  | XND_CKPT_START => Some XND_CKPT_DONE
  | _ => None
  end.

Class Peers (W : Type) `{IoSys W, CoordOS W, CkptDir W} := {
  (** the message to be read on a descriptor *)
  pending : Z -> W -> option xnd_msghdr;
  peer_send : forall fd m h w, length (m_xnd_uuid m) = UUID_LEN -> m_hdr m = hdr_code h -> pending fd w = None ->
    returns (coord_send_msg fd m) w (fun r w' => r = 0 /\ pending fd w' = answer h /\
      forall fd', fd' <> fd -> pending fd' w' = pending fd' w);
  peer_recv : forall fd h w, pending fd w = Some h ->
    returns (coord_recv_msg fd) w (fun o w' => (exists m, o = Some m /\ m_hdr m = hdr_code h) /\
      pending fd w' = None /\ forall fd', fd' <> fd -> pending fd' w' = pending fd' w);
  (** no process dies *)
  peer_kill : forall pid w, (os_kill pid 0 w).1 <> ESRCH /\ forall fd, pending fd (os_kill pid 0 w).2 = pending fd w;
  (** descriptors are writable, and readable where there is a message *)
  peer_select : forall type set w,
    (type = COMM_REDUCE -> Forall (fun fd => is_Some (pending fd w)) set) ->
    (os_select type set w).1.1 = Z.of_nat (length set) /\ forall fd, pending fd (os_select type set w).2 = pending fd w;
  peer_usleep : forall n w fd, pending fd (os_usleep n w) = pending fd w;
  peer_block : forall b w fd, pending fd (os_block_signals b w) = pending fd w;
  (** the checkpoint directory can be made and the manifest written *)
  peer_create : forall uuid epoch w,
    returns (xnd_ckptdir_create uuid epoch) w (fun r w' => r = 0 /\ forall fd, pending fd w' = pending fd w);
  peer_manifest : forall total mn mx uuid epoch w,
    returns (xnd_ckptfile_write_manifest total mn mx uuid epoch) w (fun r w' => r = 0 /\
      forall fd, pending fd w' = pending fd w);
  peer_unlink : forall uuid epoch w, returns (xnd_ckptdir_unlink uuid epoch) w (fun _ _ => True);
}.

Section live.
Context {W : Type} `{IoSys W, CoordOS W, CkptDir W, !Peers W, IterOrder}.
Context (stack_msg : xnd_msg) (stack_uuid : length (m_xnd_uuid stack_msg) = UUID_LEN).
Implicit Types (s : coord W) (w : W) (l : plist) (x : proc).

Definition fds l : list Z := (fun y => p_fd y.2) <$> l.
Definition all_pending (a : option xnd_msghdr) l w : Prop := Forall (fun y => pending (p_fd y.2) w = a) l.
Definition same_pending w w' : Prop := forall fd, pending fd w' = pending fd w.
Definition in_state (st : proc_state) l : Prop := Forall (fun y => p_state y.2 = st) l.
Definition map_procs (f : proc -> proc) l : plist := (fun y => (y.1, f y.2)) <$> l.

Lemma all_pending_same a l w w' : same_pending w w' -> all_pending a l w -> all_pending a l w'.
Proof. intros Hs Ha. eapply Forall_impl; [exact Ha|]. intros y Hy. by rewrite Hs. Qed.
Lemma map_procs_locs f l : (map_procs f l).*1 = l.*1.
Proof. unfold map_procs. by rewrite <- list_fmap_compose. Qed.
Lemma map_procs_fds f l : (forall x, p_fd (f x) = p_fd x) -> fds (map_procs f l) = fds l.
Proof. intros Hf. unfold fds, map_procs. rewrite <- list_fmap_compose. apply list_fmap_ext. intros. cbn. apply Hf. Qed.
Lemma put_same s : forall l, c_list s = Some l -> s = put_list l (put_os (c_os s) s).
Proof. destruct s. cbn. by intros l ->. Qed.

(** ** One loop over the processes

    The body at a process takes its pending message from [a] to [b] and the
    process [x] to [f x]; [Acc k acc] relates the loop's variables to the
    processes [k] passed. *)
Section phase.
Context {A : Type} (f : proc -> proc) (a b : option xnd_msghdr) (Acc : plist -> A -> Prop) (l : plist) (s0 : coord W).
Context (f_fd : forall x, p_fd (f x) = p_fd x).
Context (Hlocs : NoDup (l.*1)) (Hfds : NoDup (fds l)).

(** What the body does. *)
Definition phase_post (k : plist) (p : loc) (x : proc) (l2 : plist) s (acc' : A) s' : Prop :=
  Acc (k ++ [(p, x)]) acc' /\ exists w', s' = put_list (map_procs f k ++ (p, f x) :: l2) (put_os w' s) /\
    pending (p_fd x) w' = b /\ forall fd, fd <> p_fd x -> pending fd w' = pending fd (c_os s).

Definition phase_inv (l1 l2 : plist) (acc : A) s : Prop :=
  exists k w, l = k ++ l2 /\ l1 = map_procs f k /\ s = put_list (l1 ++ l2) (put_os w s0) /\ Acc k acc /\
    all_pending b l1 w /\ all_pending a l2 w.

Lemma phase_step l1 p x l2 acc acc' s s' k :
  l = k ++ (p, x) :: l2 -> l1 = map_procs f k ->
  phase_inv l1 ((p, x) :: l2) acc s -> phase_post k p x l2 s acc' s' ->
  exists x', c_list s' = Some (l1 ++ (p, x') :: l2) /\ phase_inv (l1 ++ [(p, x')]) l2 acc' s'.
Proof.
  intros Hl -> (k0 & w & Hk & Hl1 & Hs & Hacc & Hb & Ha) (Hacc' & w' & -> & Hx & Hw).
  exists (f x). split; [done|]. exists (k ++ [(p, x)]), w'. rewrite <- !app_assoc. split; [done|].
  split. { unfold map_procs. by rewrite fmap_app. }
  split. { by rewrite Hs. }
  split; [done|]. rewrite Hl in Hfds. unfold fds in Hfds. rewrite fmap_app, fmap_cons in Hfds. cbn [snd] in Hfds.
  apply NoDup_app in Hfds as (_ & Hd & [Hx2 _]%NoDup_cons).
  assert (forall y, y ∈ map_procs f k -> p_fd y.2 <> p_fd x) as Hne1.
  { intros y (z & -> & Hz)%list_elem_of_fmap. cbn [snd]. rewrite f_fd. intros Heq.
    apply (Hd (p_fd z.2)); [apply list_elem_of_fmap; by exists z|]. rewrite Heq. by left. }
  assert (forall y, y ∈ l2 -> p_fd y.2 <> p_fd x) as Hne2.
  { intros y Hy Heq. apply Hx2. apply list_elem_of_fmap. by exists y. }
  assert (c_os s = w) as Hos by (by rewrite Hs). rewrite Hos in Hw.
  split.
  - apply Forall_app. split; [|constructor; [|done]].
    + eapply Forall_impl'; [exact Hb|]. intros y Hy <-. apply Hw. by apply Hne1.
    + cbn [snd]. by rewrite f_fd.
  - apply Forall_cons in Ha as [_ Ha]. eapply Forall_impl'; [exact Ha|]. intros y Hy <-. apply Hw. by apply Hne2.
Qed.

Lemma phase_inv_split l1 p x l2 acc s : phase_inv l1 ((p, x) :: l2) acc s ->
  exists k, l = k ++ (p, x) :: l2 /\ l1 = map_procs f k /\ Acc k acc /\ pending (p_fd x) (c_os s) = a.
Proof.
  intros (k & w & Hk & Hl1 & Hs & Hacc & _ & Ha). exists k. split; [done|]. split; [done|]. split; [done|].
  apply Forall_cons in Ha as [Ha _]. rewrite Hs. exact Ha.
Qed.

Lemma phase_start acc : c_list s0 = Some l -> Acc [] acc -> all_pending a l (c_os s0) -> phase_inv [] l acc s0.
Proof.
  intros Hl Hacc Ha. exists [], (c_os s0). split; [done|]. split; [done|].
  split; [by apply put_same|]. split; [done|]. split; [constructor|done].
Qed.

(** The state after the loop. *)
Definition phase_end (acc : A) s : Prop :=
  exists w, s = put_list (map_procs f l) (put_os w s0) /\ Acc l acc /\ all_pending b (map_procs f l) w.

Lemma phase_finish l1 acc s : c_list s = Some l1 -> phase_inv l1 [] acc s -> phase_end acc s.
Proof.
  intros _ (k & w & Hk & -> & Hs & Hacc & Hb & _). rewrite app_nil_r in *. subst k. by exists w.
Qed.

(** The body, at any process of the list. *)
Definition phase_body (body : loc -> A -> M (coord W) A) : Prop :=
  forall k p x l2 acc s, l = k ++ (p, x) :: l2 -> c_list s = Some (map_procs f k ++ (p, x) :: l2) ->
    NoDup ((map_procs f k ++ (p, x) :: l2).*1) -> Acc k acc -> pending (p_fd x) (c_os s) = a -> returns (body p acc) s (phase_post k p x l2 s).

Lemma phase_safe body acc : phase_body body -> c_list s0 = Some l -> Acc [] acc -> all_pending a l (c_os s0) ->
  returns (foreach_safe body acc) s0 phase_end.
Proof.
  intros Hb Hl Hacc Ha. apply returns_sat.
  eapply (foreach_safe_rule false phase_inv); [|apply phase_finish|exact Hl|exact Hlocs|by apply phase_start].
  intros l1 p x l2 acc1 s1 Hl1 Hn1 Hi. destruct (phase_inv_split _ _ _ _ _ _ Hi) as (k & Hk & -> & Hacc1 & Hp).
  apply returns_sat. eapply returns_weaken; [by apply (Hb k)|].
  intros acc' s' Hpost. by eapply phase_step.
Qed.
Lemma phase_all body acc : phase_body body -> c_list s0 = Some l -> Acc [] acc -> all_pending a l (c_os s0) ->
  returns (foreach_all body acc) s0 phase_end.
Proof.
  intros Hb Hl Hacc Ha. apply returns_sat.
  eapply (foreach_all_rule false phase_inv); [|apply phase_finish|exact Hl|exact Hlocs|by apply phase_start].
  intros l1 p x l2 acc1 s1 Hl1 Hn1 Hi. destruct (phase_inv_split _ _ _ _ _ _ Hi) as (k & Hk & -> & Hacc1 & Hp).
  apply returns_sat. eapply returns_weaken; [by apply (Hb k)|].
  intros acc' s' Hpost. by eapply phase_step.
Qed.
(** A loop whose body can leave it, but does not. *)
Lemma phase_each {R} (body : loc -> A -> M (coord W) (A + R)) acc :
  (forall k p x l2 acc s, l = k ++ (p, x) :: l2 -> c_list s = Some (map_procs f k ++ (p, x) :: l2) ->
     NoDup ((map_procs f k ++ (p, x) :: l2).*1) -> Acc k acc -> pending (p_fd x) (c_os s) = a ->
     returns (body p acc) s (fun r s' => exists acc', r = inl acc' /\ phase_post k p x l2 s acc' s')) ->
  c_list s0 = Some l -> Acc [] acc -> all_pending a l (c_os s0) ->
  returns (foreach body acc) s0 (fun r s' => exists acc', r = inl acc' /\ phase_end acc' s').
Proof.
  intros Hb Hl Hacc Ha. apply returns_sat.
  eapply (foreach_rule false phase_inv); [| |exact Hl|exact Hlocs|by apply phase_start].
  - intros l1 p x l2 acc1 s1 Hl1 Hn1 Hi. destruct (phase_inv_split _ _ _ _ _ _ Hi) as (k & Hk & -> & Hacc1 & Hp).
    apply returns_sat. eapply returns_weaken; [by apply (Hb k)|].
    intros r s' (acc' & -> & Hpost). by eapply phase_step.
  - intros l1 acc1 s1 Hl1 Hi. exists acc1. split; [done|]. by eapply phase_finish.
Qed.
End phase.

(** ** The steps of the checkpoint *)

Lemma is_dead_alive pid s : exists w, is_dead pid s = Ret false (put_os w s) /\ same_pending (c_os s) w.
Proof.
  unfold is_dead, os. mrun. destruct (peer_kill pid (c_os s)) as [Ha Hp].
  destruct (os_kill pid 0 (c_os s)) as [e w]. cbn in *. exists w. by rewrite (proj2 (Z.eqb_neq _ _)).
Qed.

(** A body that ends where the world has changed at one descriptor. *)
Lemma phase_post_intro f b {A} (Acc : plist -> A -> Prop) k p x l2 s acc' w' :
  Acc (k ++ [(p, x)]) acc' -> pending (p_fd x) w' = b ->
  (forall fd, fd <> p_fd x -> pending fd w' = pending fd (c_os s)) ->
  phase_post f b Acc k p x l2 s acc' (put_list (map_procs f k ++ (p, f x) :: l2) (put_os w' s)).
Proof. intros. split; [done|]. by exists w'. Qed.

Lemma phase_post_id b {A} (Acc : plist -> A -> Prop) k p x l2 s acc' w' :
  c_list s = Some (map_procs id k ++ (p, x) :: l2) ->
  Acc (k ++ [(p, x)]) acc' -> pending (p_fd x) (c_os s) = b -> same_pending (c_os s) w' ->
  phase_post id b Acc k p x l2 s acc' (put_os w' s).
Proof.
  intros Hl Hacc Hb Hs. split; [done|]. exists w'. split; [by destruct s; cbn in *; subst|].
  split; [by rewrite Hs|]. intros fd _. apply Hs.
Qed.

Lemma map_procs_id l : map_procs id l = l.
Proof. unfold map_procs. induction l as [|[p x] l IH]; [done|]. by rewrite fmap_cons, IH. Qed.

(** [coord_collective_prepare] counts the processes. *)
Lemma prepare_ok fuel type a l s :
  (0 < fuel)%nat -> c_list s = Some l -> NoDup (l.*1) -> NoDup (fds l) -> all_pending a l (c_os s) ->
  (type = COMM_REDUCE -> is_Some a) ->
  returns (coord_collective_prepare fuel type) s (fun total s' => total = Z.of_nat (length l) /\
    exists w, s' = put_os w s /\ all_pending a l w).
Proof.
  intros Hf Hl Hn Hnf Ha Ht. unfold coord_collective_prepare. destruct fuel as [|fuel]; [lia|].
  cbn [collective_prepare_loop]. apply returns_bind.
  set (Acc := fun (k : plist) (ts : Z * list Z) => ts.1 = Z.of_nat (length k) /\
                length ts.2 = length k /\ Forall (fun fd => fd ∈ fds k) ts.2).
  eapply returns_weaken; [eapply (phase_safe id a a Acc l s); [done|done|done| |done|by repeat constructor|done]|].
  - intros k p x l2 [total set] s1 Hk Hl1 Hn1 (H1' & H2' & H3') Hp. cbn [fst snd] in *.
    destruct (NoDup_mid _ _ _ _ Hn1) as [Hp1 Hp2].
    eapply returns_step; [by eapply proc_at_mid|]. destruct (is_dead_alive (p_real_pid x) s1) as (w1 & Hd & Hs).
    eapply returns_step; [exact Hd|]. apply returns_ret. apply phase_post_id; [done| |done|done].
    unfold Acc. cbn [fst snd]. rewrite length_app. cbn [length]. split; [lia|]. split; [lia|].
    unfold fds in *. rewrite fmap_app. constructor; [apply elem_of_app; right; by left|].
    eapply Forall_impl; [exact H3'|]. intros fd Hfd. apply elem_of_app. by left.
  - intros [total set] s1 (w & -> & (H1' & H2' & H3') & Hw). cbn [fst snd] in *. rewrite map_procs_id in Hw |- *.
    apply returns_bind. unfold os, returns. cbn [c_os put_list put_os].
    destruct (peer_select type set w) as [Hc Hsel].
    { intros Hr. destruct (Ht Hr) as [h ->]. eapply Forall_impl; [exact H3'|].
      intros fd (y & -> & Hy)%list_elem_of_fmap. unfold all_pending in Hw. rewrite Forall_forall in Hw.
      rewrite (Hw _ Hy). by eexists. }
    destruct (os_select type set w) as [[n set'] w']. cbn [fst snd] in *.
    rewrite (proj2 (Z.ltb_ge n 0)) by lia. rewrite (proj2 (Z.eqb_eq n total)) by lia. cbn [negb].
    split; [lia|]. exists w'. split; [|by eapply all_pending_same].
    rewrite (put_same s l Hl) at 2. done.
Qed.

Lemma in_state_at st l k p x l2 : in_state st l -> l = k ++ (p, x) :: l2 -> p_state x = st.
Proof. intros Hst ->. by apply Forall_app in Hst as [_ [Hx _]%Forall_cons]. Qed.
Lemma in_state_map f st l : (forall x, p_state (f x) = st) -> in_state st (map_procs f l).
Proof. intros Hf. apply Forall_fmap, Forall_true. intros x. apply Hf. Qed.

(** The end of the suspension's iteration. *)
Lemma suspend_end f b (Acc : plist -> Z * Z -> Prop) k p x l2 s (total ready : Z) w :
  Acc (k ++ [(p, x)]) (total + 1, ready) -> pending (p_fd x) w = b ->
  (forall fd, fd <> p_fd x -> pending fd w = pending fd (c_os s)) ->
  returns (dead ← is_dead (p_real_pid x);
           if dead : bool then remove_proc p;; mret (total, ready) else mret (total + 1, ready))
    (put_list (map_procs f k ++ (p, f x) :: l2) (put_os w s)) (phase_post f b Acc k p x l2 s).
Proof.
  intros Hacc Hb Hw. destruct (is_dead_alive (p_real_pid x) (put_list (map_procs f k ++ (p, f x) :: l2) (put_os w s)))
    as (w1 & Hd & Hs).
  eapply returns_step; [exact Hd|]. apply returns_ret.
  apply (phase_post_intro f b Acc k p x l2 s _ w1); [done|by rewrite Hs|].
  intros fd Hfd. rewrite Hs. by apply Hw.
Qed.

(** The first pass asks every process, the second one reads that it is ready. *)
Lemma suspend_pass1 l s :
  c_list s = Some l -> NoDup (l.*1) -> NoDup (fds l) -> in_state PROC_RUNNING l -> all_pending None l (c_os s) ->
  returns (foreach_safe suspend_one (0, 0)) s
    (phase_end (with_state PROC_RECV_CKPT_REQUEST) (Some XND_CKPT_READY)
       (fun k tr => tr = (Z.of_nat (length k), 0)) l s).
Proof.
  intros Hl Hn Hnf Hst Ha. eapply phase_safe; [done|done|done| |done|done|exact Ha].
  intros k p x l2 tr s1 Hk Hl1 Hn1 -> Hp. destruct (NoDup_mid _ _ _ _ Hn1) as [Hp1 Hp2]. unfold suspend_one.
  eapply returns_step; [by eapply proc_at_mid|]. rewrite (in_state_at _ _ _ _ _ _ Hst Hk).
  apply returns_bind, returns_bind, on_os_returns.
  eapply returns_weaken; [by apply (peer_send (p_fd x) _ XND_CKPT_REQUEST)|].
  intros r w (-> & Hx & Hw). cbn [Z.eqb]. eapply returns_step; [by eapply (set_proc_mid p _ x)|].
  apply returns_ret. apply suspend_end; [|done|done]. rewrite length_app. cbn [length]. f_equal; lia.
Qed.
Lemma suspend_pass2 l s :
  c_list s = Some l -> NoDup (l.*1) -> NoDup (fds l) -> in_state PROC_RECV_CKPT_REQUEST l ->
  all_pending (Some XND_CKPT_READY) l (c_os s) ->
  returns (foreach_safe suspend_one (0, 0)) s
    (phase_end (with_state PROC_READY_FOR_CKPT) None
       (fun k tr => tr = (Z.of_nat (length k), Z.of_nat (length k))) l s).
Proof.
  intros Hl Hn Hnf Hst Ha. eapply phase_safe; [done|done|done| |done|done|exact Ha].
  intros k p x l2 tr s1 Hk Hl1 Hn1 -> Hp. destruct (NoDup_mid _ _ _ _ Hn1) as [Hp1 Hp2]. unfold suspend_one.
  eapply returns_step; [by eapply proc_at_mid|]. rewrite (in_state_at _ _ _ _ _ _ Hst Hk).
  apply returns_bind, returns_bind, on_os_returns. eapply returns_weaken; [by apply peer_recv|].
  intros r w ((m & -> & ->) & Hx & Hw). rewrite Z.eqb_refl.
  eapply returns_step; [by eapply (set_proc_mid p _ x)|].
  apply returns_ret. apply suspend_end; [|done|done]. rewrite length_app. cbn [length]. f_equal; lia.
Qed.

Lemma with_state_twice st st' l : map_procs (with_state st) (map_procs (with_state st') l) = map_procs (with_state st) l.
Proof. unfold map_procs. rewrite <- list_fmap_compose. by apply list_fmap_ext. Qed.
Lemma length_map_procs f l : length (map_procs f l) = length l.
Proof. apply length_fmap. Qed.

Lemma suspend_ok fuel l s :
  (1 < fuel)%nat -> l <> [] ->
  c_list s = Some l -> NoDup (l.*1) -> NoDup (fds l) -> in_state PROC_RUNNING l -> all_pending None l (c_os s) ->
  returns (coord_suspend_processes fuel) s (fun _ s' => exists w,
    s' = put_list (map_procs (with_state PROC_READY_FOR_CKPT) l) (put_os w s) /\
    all_pending None (map_procs (with_state PROC_READY_FOR_CKPT) l) w).
Proof.
  intros Hf Hne Hl Hn Hnf Hst Ha. destruct fuel as [|[|fuel]]; [lia..|]. cbn [coord_suspend_processes].
  apply returns_bind. eapply returns_weaken; [by apply suspend_pass1|].
  intros tr s1 (w & -> & -> & Hw). assert (length l <> 0)%nat by (by destruct l).
  rewrite (proj2 (Z.eqb_neq _ _)) by lia. cbn [negb]. eapply returns_step; [reflexivity|].
  set (l1 := map_procs (with_state PROC_RECV_CKPT_REQUEST) l) in *. cbn [c_os put_list put_os].
  apply returns_bind. eapply returns_weaken; [apply (suspend_pass2 l1)|].
  - done.
  - unfold l1. by rewrite map_procs_locs.
  - unfold l1. by rewrite map_procs_fds.
  - by apply in_state_map.
  - eapply all_pending_same; [|exact Hw]. intros fd. apply peer_usleep.
  - intros tr s2 (w2 & -> & -> & Hw2). rewrite Z.eqb_refl. cbn [negb]. apply returns_ret.
    exists w2. unfold l1 in *. rewrite with_state_twice in *. done.
Qed.

(** Whether a process's parent is not itself checkpointed. *)
Definition is_root l x : bool :=
  match pl_find (fun d => p_real_pid d =? p_real_ppid x) l with Some _ => false | None => true end.

Lemma find_map_procs (test : proc -> bool) f l :
  (forall x, test (f x) = test x) ->
  match pl_find test (map_procs f l) with Some _ => false | None => true end =
  match pl_find test l with Some _ => false | None => true end.
Proof.
  intros Hf. unfold pl_find, map_procs. induction l as [|[p x] l IH]; [done|].
  rewrite fmap_cons. cbn [List.find fst snd]. rewrite Hf. by destruct (test x).
Qed.
Lemma find_app (test : proc -> bool) l1 l2 :
  match pl_find test (l1 ++ l2) with Some _ => false | None => true end =
  match pl_find test l1 with Some _ => false | None => true end &&
  match pl_find test l2 with Some _ => false | None => true end.
Proof.
  unfold pl_find. induction l1 as [|[p x] l1 IH]; [done|]. cbn [app List.find fst snd]. by destruct (test x).
Qed.

Lemma roots_ok a l s :
  c_list s = Some l -> NoDup (l.*1) -> NoDup (fds l) -> all_pending a l (c_os s) ->
  returns coord_determine_roots s (fun _ s' => exists w,
    s' = put_list (map_procs (fun x => with_root (is_root l x) x) l) (put_os w s) /\
    all_pending a (map_procs (fun x => with_root (is_root l x) x) l) w).
Proof.
  intros Hl Hn Hnf Ha. unfold coord_determine_roots. set (f := fun x => with_root (is_root l x) x).
  eapply returns_weaken; [apply (phase_all f a a (fun _ _ => True) l s); [done|done|done| |done|done|exact Ha]|].
  - intros k p x l2 [] s1 Hk Hl1 Hn1 _ Hp. destruct (NoDup_mid _ _ _ _ Hn1) as [Hp1 Hp2].
    eapply returns_step; [by eapply proc_at_mid|].
    set (test := fun d => p_real_pid d =? p_real_ppid x).
    eapply returns_step; [unfold find_proc, the_list; mrun; by rewrite Hl1|].
    assert ((match pl_find test (map_procs f k ++ (p, x) :: l2) with Some _ => false | None => true end) =
              is_root l x) as ->.
    { unfold is_root. fold test. rewrite Hk, !find_app. f_equal. apply find_map_procs. done. }
    eapply returns_intro; [by eapply (set_proc_mid p _ x)|]. split; [done|]. exists (c_os s1).
    split; [by destruct s1|]. done.
  - intros [] s1 (w & -> & _ & Hw). by exists w.
Qed.

(** A barrier every process answers. *)
Definition barrier_hdr (type : coord_barrier_type) : xnd_msghdr :=
  match type with
  | COORD_BARRIER_PRECKPT => XND_CKPT_START
  | COORD_BARRIER_POSTCKPT => XND_RESUME_AFTER_CKPT
  | COORD_BARRIER_POSTRESTART => XND_RESUME_AFTER_RESTART
  end.
Lemma barrier_unfold type : coord_release_barrier stack_msg type =
  (r ← foreach (fun p msg =>
      x ← proc_at p;
      xnd_assert (bool_decide (p_state x = barrier_expected type));;
      peers ← gets c_num_peers;
      let msg := if bool_decide (type = COORD_BARRIER_PRECKPT)
                 then with_peers peers (if p_is_root_of_tree x then 1 else 0) msg else msg in
      err ← send (p_fd x) msg;
      if negb (err =? 0) then mret (inr (-1)) else
      set_proc p (with_state (barrier_next type));;
      mret (inl msg)) (with_hdr (hdr_code (barrier_hdr type)) stack_msg);
   mret (match r with inl _ => 0 | inr r => r end)).
Proof. by destruct type. Qed.

Lemma barrier_ok type l s :
  c_list s = Some l -> NoDup (l.*1) -> NoDup (fds l) -> in_state (barrier_expected type) l ->
  all_pending None l (c_os s) ->
  returns (coord_release_barrier stack_msg type) s (fun r s' => r = 0 /\ exists w,
    s' = put_list (map_procs (with_state (barrier_next type)) l) (put_os w s) /\
    all_pending (answer (barrier_hdr type)) (map_procs (with_state (barrier_next type)) l) w).
Proof.
  intros Hl Hn Hnf Hst Ha. rewrite barrier_unfold. apply returns_bind.
  set (Acc := fun (_ : plist) m => length (m_xnd_uuid m) = UUID_LEN /\ m_hdr m = hdr_code (barrier_hdr type)).
  eapply returns_weaken; [eapply (phase_each (with_state (barrier_next type)) None (answer (barrier_hdr type)) Acc l s);
    [done|done|done| |done|done|exact Ha]|].
  - intros k p x l2 m s1 Hk Hl1 Hn1 [Hu Hh] Hp. destruct (NoDup_mid _ _ _ _ Hn1) as [Hp1 Hp2].
    eapply returns_step; [by eapply proc_at_mid|].
    rewrite (bool_decide_eq_true_2 (p_state x = _)) by by eapply in_state_at.
    do 2 (eapply returns_step; [reflexivity|]).
    cbv zeta. set (m' := if bool_decide (type = COORD_BARRIER_PRECKPT) then _ else m).
    assert (length (m_xnd_uuid m') = UUID_LEN /\ m_hdr m' = hdr_code (barrier_hdr type)) as [Hu' Hh']
      by (unfold m'; by case_bool_decide).
    apply returns_bind, on_os_returns. eapply returns_weaken; [by apply (peer_send (p_fd x) m' (barrier_hdr type))|].
    intros r w (-> & Hx & Hw). cbn [Z.eqb negb]. eapply returns_step; [by eapply (set_proc_mid p _ x)|].
    apply returns_ret. exists m'. split; [done|]. apply phase_post_intro; done.
  - intros r s1 (m & -> & w & -> & _ & Hw). apply returns_ret. split; [done|]. by exists w.
Qed.

Lemma completions_ok fuel l s :
  (0 < fuel)%nat -> c_list s = Some l -> NoDup (l.*1) -> NoDup (fds l) -> in_state PROC_CKPT_IN_PROGRESS l ->
  c_num_peers s = Z.of_nat (length l) -> all_pending (Some XND_CKPT_DONE) l (c_os s) ->
  returns (coord_wait_for_ckpt_completions fuel) s (fun _ s' => exists w,
    s' = put_list (map_procs (with_state PROC_CKPT_COMPLETE) l) (put_os w s) /\
    all_pending None (map_procs (with_state PROC_CKPT_COMPLETE) l) w).
Proof.
  intros Hf Hl Hn Hnf Hst Hpeers Ha. unfold coord_wait_for_ckpt_completions.
  eapply returns_step; [reflexivity|]. apply returns_bind.
  eapply returns_weaken; [apply (prepare_ok fuel COMM_REDUCE (Some XND_CKPT_DONE) l); try done; by eexists|].
  intros total s1 (-> & w & -> & Hw). rewrite Hpeers, Z.eqb_refl. cbn [negb]. apply returns_bind.
  eapply returns_weaken; [apply (phase_all (with_state PROC_CKPT_COMPLETE) (Some XND_CKPT_DONE) None
    (fun k n => n = Z.of_nat (length k)) l (put_os w s)); [done|done|done| |done|done|exact Hw]|].
  - intros k p x l2 n s1 Hk Hl1 Hn1 -> Hp. destruct (NoDup_mid _ _ _ _ Hn1) as [Hp1 Hp2].
    eapply returns_step; [by eapply proc_at_mid|]. rewrite (in_state_at _ _ _ _ _ _ Hst Hk).
    eapply returns_step; [reflexivity|].
    apply returns_bind, on_os_returns. eapply returns_weaken; [by apply peer_recv|].
    intros r w1 ((m & -> & ->) & Hx & Hw1). rewrite Z.eqb_refl.
    eapply returns_step; [by eapply (set_proc_mid p _ x)|]. apply returns_ret.
    apply phase_post_intro; [|done|done]. rewrite length_app. cbn [length]. lia.
  - intros n s1 (w1 & -> & -> & Hw1). rewrite Z.eqb_refl. apply returns_ret. by exists w1.
Qed.

Lemma manifest_ok a l s :
  c_list s = Some l -> NoDup (l.*1) -> NoDup (fds l) -> all_pending a l (c_os s) ->
  returns coord_write_ckpt_manifest s (fun _ s' => exists w, s' = put_os w s /\ all_pending a l w).
Proof.
  intros Hl Hn Hnf Ha. unfold coord_write_ckpt_manifest. apply returns_bind.
  eapply returns_weaken; [apply (phase_all id a a (fun _ _ => True) l s); [done|done|done| |done|done|exact Ha]|].
  - intros k p x l2 [mx mn] s1 Hk Hl1 Hn1 _ Hp. destruct (NoDup_mid _ _ _ _ Hn1) as [Hp1 Hp2].
    eapply returns_step; [by eapply proc_at_mid|]. apply returns_ret.
    pose proof (put_same s1 _ Hl1) as Es. split; [done|]. exists (c_os s1). by split.
  - intros r s1 (w & -> & _ & Hw). rewrite map_procs_id in Hw |- *. eapply returns_step; [reflexivity|].
    apply returns_bind, on_os_returns. eapply returns_weaken; [apply peer_manifest|].
    intros e w' [-> Hs]. apply returns_ret. exists w'. split; [|by eapply all_pending_same].
    rewrite (put_same s l Hl) at 2. done.
Qed.

Lemma map_procs_compose f g l : map_procs g (map_procs f l) = map_procs (g ∘ f) l.
Proof. unfold map_procs. by rewrite <- list_fmap_compose. Qed.
Lemma map_procs_ext f g l : (forall x, f x = g x) -> map_procs f l = map_procs g l.
Proof. intros Hfg. unfold map_procs. apply list_fmap_ext. intros i [p x] _. cbn. by rewrite Hfg. Qed.
Lemma is_root_map f l x y :
  (forall x, p_real_pid (f x) = p_real_pid x) -> p_real_ppid y = p_real_ppid x ->
  is_root (map_procs f l) y = is_root l x.
Proof.
  intros Hf Hy. unfold is_root. rewrite Hy. apply (find_map_procs (fun d => p_real_pid d =? p_real_ppid x)).
  intros z. by rewrite Hf.
Qed.

(** A step that changes only the world, and leaves what is pending. *)
Lemma on_os_ok {A} (m : M W A) s (Q : A -> Prop) :
  returns m (c_os s) (fun a w => Q a /\ same_pending (c_os s) w) ->
  returns (on_os m) s (fun a s' => Q a /\ exists w, s' = put_os w s /\ same_pending (c_os s) w).
Proof.
  intros Hm. apply on_os_returns. eapply returns_weaken; [exact Hm|]. intros a w [Ha Hs].
  split; [done|]. by exists w.
Qed.

(** The processes after a checkpoint: running, with their place in the tree. *)
Definition checkpointed l : plist := map_procs (fun x => with_root (is_root l x) (with_state PROC_RUNNING x)) l.

(** From the barrier before the checkpoint to the one after it. *)
Lemma barriers_ok {A} fuel l s (rest : M (coord W) A) (Q : A -> coord W -> Prop) :
  (0 < fuel)%nat -> c_list s = Some l -> NoDup (l.*1) -> NoDup (fds l) -> in_state PROC_READY_FOR_CKPT l ->
  c_num_peers s = Z.of_nat (length l) -> all_pending None l (c_os s) ->
  (forall w, returns rest (put_list (map_procs (with_state PROC_RUNNING) l) (put_os w s)) Q) ->
  returns (err ← coord_release_barrier stack_msg COORD_BARRIER_PRECKPT;
           xnd_assert (err =? 0);;
           coord_wait_for_ckpt_completions fuel;;
           coord_write_ckpt_manifest;;
           err ← coord_release_barrier stack_msg COORD_BARRIER_POSTCKPT;
           xnd_assert (err =? 0);;
           rest) s Q.
Proof.
  intros Hf Hl Hn Hnf Hst Hpeers Ha Hrest. apply returns_bind.
  eapply returns_weaken; [by apply barrier_ok|]. intros r s1 (-> & w & -> & Hw). eapply returns_step; [reflexivity|].
  cbn [barrier_next answer barrier_hdr] in *. set (l1 := map_procs (with_state PROC_CKPT_IN_PROGRESS) l) in *.
  assert (NoDup (l1.*1)) as Hn1 by (unfold l1; by rewrite map_procs_locs).
  assert (NoDup (fds l1)) as Hnf1 by (unfold l1; by rewrite map_procs_fds).
  apply returns_bind. eapply returns_weaken; [apply (completions_ok fuel l1); try done|].
  { by apply in_state_map. } { unfold l1. by rewrite length_map_procs. }
  intros _ s2 (w2 & -> & Hw2). set (l2 := map_procs (with_state PROC_CKPT_COMPLETE) l1) in *.
  assert (NoDup (l2.*1)) as Hn2 by (unfold l2; by rewrite map_procs_locs).
  assert (NoDup (fds l2)) as Hnf2 by (unfold l2; by rewrite map_procs_fds).
  apply returns_bind. eapply returns_weaken; [by apply (manifest_ok None l2)|].
  intros _ s3 (w3 & -> & Hw3). apply returns_bind.
  eapply returns_weaken; [apply (barrier_ok COORD_BARRIER_POSTCKPT l2); try done; by apply in_state_map|].
  intros r s4 (-> & w4 & -> & Hw4). eapply returns_step; [reflexivity|].
  specialize (Hrest w4). unfold l2, l1. cbn [barrier_next]. by rewrite !with_state_twice.
Qed.

(** C4. A checkpoint completes: when the processes follow the protocol, none
    dies, and the directory and the manifest can be written,
    [coord_do_checkpoint] returns (two passes of its loops are enough), every
    process is running again and marked as the root of a process tree exactly
    when its parent is not one of the processes, the number of peers is theirs,
    and the epoch has advanced; nothing else of the coordinator's state has
    changed. *)
Theorem checkpoint_completes fuel l s :
  (1 < fuel)%nat -> l <> [] -> Z.of_nat (length l) < 2 ^ 32 ->
  c_list s = Some l -> NoDup (l.*1) -> NoDup (fds l) ->
  in_state PROC_RUNNING l -> all_pending None l (c_os s) ->
  returns (coord_do_checkpoint stack_msg fuel) s (fun _ s' => exists w,
    s' = put_epoch (u64 (c_epoch s + 1)) (put_peers (Z.of_nat (length l)) (put_list (checkpointed l) (put_os w s)))).
Proof.
  intros Hf Hne Hlen Hl Hn Hnf Hst Ha. unfold coord_do_checkpoint. do 2 (eapply returns_step; [reflexivity|]).
  apply returns_bind. eapply returns_weaken; [apply (prepare_ok fuel COMM_BROADCAST None l); try done; [lia|]|].
  { eapply all_pending_same; [|exact Ha]. intros fd. apply peer_block. }
  intros total s1 (-> & w1 & -> & Hw1). assert (length l <> 0)%nat by (by destruct l).
  rewrite (proj2 (Z.eqb_neq _ _)) by lia. apply returns_bind.
  eapply returns_weaken; [by apply (suspend_ok fuel l)|]. intros _ s2 (w2 & -> & Hw2).
  set (l2 := map_procs (with_state PROC_READY_FOR_CKPT) l) in *.
  assert (NoDup (l2.*1)) as Hn2 by (unfold l2; by rewrite map_procs_locs).
  assert (NoDup (fds l2)) as Hnf2 by (unfold l2; by rewrite map_procs_fds).
  eapply returns_step; [reflexivity|]. apply returns_bind.
  eapply returns_weaken; [apply (on_os_ok _ _ (fun r => r = 0)), peer_create|].
  intros r s3 (-> & w3 & -> & Hs3). cbn [Z.eqb negb]. apply returns_bind.
  eapply returns_step; [reflexivity|]. eapply returns_step; [reflexivity|]. apply returns_bind.
  eapply returns_weaken; [apply (roots_ok None l2); try done; by eapply all_pending_same|].
  intros _ s4 (w4 & -> & Hw4). set (l4 := map_procs _ l2) in *.
  assert (NoDup (l4.*1)) as Hn4 by (unfold l4; by rewrite map_procs_locs).
  assert (NoDup (fds l4)) as Hnf4 by (unfold l4; by rewrite map_procs_fds).
  apply returns_bind. eapply returns_weaken; [apply (prepare_ok fuel COMM_BROADCAST None l4); try done; lia|].
  intros total s5 (-> & w5 & -> & Hw5). eapply returns_step; [reflexivity|].
  assert (u32 (Z.of_nat (length l2)) = Z.of_nat (length l)) as Hu.
  { unfold l2. rewrite length_map_procs. apply wrapu_small. unfold in_u. lia. }
  cbn [c_num_peers put_os put_list put_peers procs c_list default]. rewrite Hu.
  assert (length l4 = length l) as Hl4 by (unfold l4, l2; by rewrite !length_map_procs).
  rewrite Hl4, Z.eqb_refl. eapply returns_step; [reflexivity|].
  apply (barriers_ok fuel l4); try done; [lia| |by rewrite Hl4|].
  { unfold l4. unfold in_state, map_procs. apply Forall_fmap. eapply Forall_impl; [by apply (in_state_map _ PROC_READY_FOR_CKPT)|].
    by intros y Hy. }
  intros w6. assert (map_procs (with_state PROC_RUNNING) l4 = checkpointed l) as ->.
  { unfold l4, l2, checkpointed. rewrite !map_procs_compose. apply map_procs_ext. intros x.
    unfold compose. by rewrite (is_root_map _ l x). }
  apply returns_weaken with (Q := fun _ s' => exists w, s' = put_epoch (u64 (c_epoch s + 1))
    (put_peers (Z.of_nat (length l)) (put_list (checkpointed l) (put_os w s)))).
  2:{ intros [] s' [w ->]. by eexists. }
  destruct (negb (c_epoch s =? 0)).
  - apply returns_bind, returns_bind, on_os_returns. eapply returns_weaken; [apply peer_unlink|].
    intros e w7 _. apply returns_ret. by exists w7.
  - eapply returns_step; [reflexivity|]. by exists w6.
Qed.
End live.

(** ** Processes that follow the protocol

    A world of processes: the message each has sent and the coordinator has
    not read. *)
Definition peers_world : Type := gmap Z xnd_msghdr.

#[local] Instance peers_io : IoSys peers_world := {
  sys_write fd buf w :=
    (Z.of_nat (length buf),
     match hdr_of (fst (field_u 4 buf)) ≫= answer with Some h => <[fd := h]> w | None => w end);
  sys_read fd n w :=
    if n =? sizeof_msg then
      (Some (match w !! fd with Some h => msg_bytes (with_hdr (hdr_code h) msg_zero) | None => [] end), delete fd w)
    else (None, w);
  read_waits _ _ _ := false
}.
#[local] Instance peers_os : CoordOS peers_world := {|
  os_close _ w := w; os_kill _ _ w := (0, w);
  os_select type set w :=
    let ready := match type with
                 | COMM_BROADCAST => set
                 | COMM_REDUCE => List.filter (fun fd => bool_decide (is_Some (w !! fd))) set
                 end in
    ((Z.of_nat (length ready), ready), w);
  os_accept _ w := (-1, w); os_getpid _ := 900; os_getppid _ := 800; os_time w := (0, w); os_usleep _ w := w;
  os_block_signals _ w := w; os_listen_socket w := (SocketFailed, w); os_unlink_socket w := w;
  os_uuid w := (replicate 16 7, w)
|}.
#[local] Instance peers_dir : CkptDir peers_world := {|
  xnd_ckptdir_create _ _ := mret 0; xnd_ckptdir_unlink _ _ := mret 0; xnd_ckptfile_write_manifest _ _ _ _ _ := mret 0
|}.

Lemma peers_writeall fd buf (w : peers_world) : writeall fd buf w = Ret (Z.of_nat (length buf)) (sys_write fd buf w).2.
Proof.
  unfold writeall. cbn [writeall_loop]. rewrite drop_0. cbn [sys_write peers_io snd].
  rewrite (proj2 (Z.eqb_neq _ (-1))) by lia. by rewrite Z.add_0_l, Z.ltb_irrefl.
Qed.
Lemma msg_hdr_bytes h m : m_hdr m = hdr_code h -> hdr_of (fst (field_u 4 (msg_bytes m))) = Some h.
Proof. intros Hm. unfold msg_bytes. rewrite Hm, field_u_le by by destruct h. apply hdr_of_code. Qed.

#[local] Instance peers_peers : Peers peers_world.
Proof.
  refine {| pending := fun fd (w : peers_world) => w !! fd |}; try done.
  - intros fd m h w Hu Hm Hp. unfold coord_send_msg. eapply returns_step; [apply peers_writeall|].
    rewrite msg_bytes_length by done. apply returns_ret. split; [done|]. cbn [sys_write peers_io snd].
    rewrite (msg_hdr_bytes h) by done. cbn [mbind option_bind]. destruct (answer h); [|done].
    split; [apply lookup_insert_eq|]. intros fd' Hne. apply lookup_insert_ne. congruence.
  - intros fd h w Hp. unfold coord_recv_msg, readall.
    eapply returns_step with (a := msg_bytes (with_hdr (hdr_code h) msg_zero)) (s' := delete fd w).
    + change (S (Z.to_nat sizeof_msg)) with (S 80). cbn [readall_loop read_call read_waits length sys_read peers_io].
      change (sizeof_msg - Z.of_nat 0 =? sizeof_msg) with true. rewrite Hp. by destruct h.
    + apply returns_ret. split; [eexists; split; [by destruct h|by destruct h]|].
      split; [apply lookup_delete_eq|]. intros fd' Hne. apply lookup_delete_ne. congruence.
  - intros type set w Hr. split; [|done]. destruct type; [done|]. cbn [os_select peers_os fst].
    f_equal. specialize (Hr eq_refl). induction Hr as [|fd set Hfd _ IH]; [done|].
    cbn [List.filter]. rewrite bool_decide_eq_true_2 by done. cbn [length]. by rewrite IH.
Defined.

(** Two processes, the second the child of the first, at their second
    checkpoint. *)
Definition second_epoch : coord peers_world :=
  Coord (replicate 16 7) 1 4 1003 2 5 0 (Some (CoordWorld.two_procs PROC_RUNNING)) 3%positive CoordWorld.two_table ∅.

Lemma checkpoint_completes_witness :
  returns (coord_do_checkpoint msg_zero 2) second_epoch (fun _ s' => exists w,
    s' = put_epoch 2 (put_peers 2 (put_list (checkpointed (CoordWorld.two_procs PROC_RUNNING)) (put_os w second_epoch)))).
Proof.
  refine (checkpoint_completes msg_zero eq_refl 2 (CoordWorld.two_procs PROC_RUNNING) second_epoch _ _ _ _ _ _ _ _).
  - lia.
  - discriminate.
  - reflexivity.
  - reflexivity.
  - apply (bool_decide_unpack _). reflexivity.
  - apply (bool_decide_unpack _). reflexivity.
  - repeat constructor.
  - repeat constructor.
Defined.
