(* ===== verification/Time.v ===== *)
(** The sleep hooks of [xnd/wrappers/time_wrappers.c] with the conversions of
    [include/common/time.h].

    [select] and the monotonic clock are parameters. *)

From S2P Require Import Prelude Env Process.
Open Scope Z_scope.

Definition NSEC_PER_USEC : Z := 1000.
Definition NSEC_PER_SEC : Z := 1000000000.
Definition EINTR : Z := 4.
Definition EINVAL : Z := 22.

Record timespec := Timespec { tv_sec : Z; tv_nsec : Z }.
Record timeval := Timeval { tvl_sec : Z; tvl_usec : Z }.

Definition TIMESPEC_TO_NSEC (t : timespec) : Z := tv_sec t * NSEC_PER_SEC + tv_nsec t.
Definition TIMESPEC_NSEC_DIFF (e b : timespec) : Z := TIMESPEC_TO_NSEC e - TIMESPEC_TO_NSEC b.
Definition TIMESPEC_TO_TIMEVAL (t : timespec) : timeval :=
  Timeval (tv_sec t) (Z.quot (tv_nsec t) NSEC_PER_USEC).
Definition TIMEVAL_TO_USEC (t : timeval) : Z := tvl_sec t * 1000000 + tvl_usec t.

(** The other conversions of the header: exact, the sums and products being of
    [long]s.  [TIMESPEC_TO_USEC] does not compile. *)
Definition TIMEVAL_TO_MSEC (t : timeval) : Z := tvl_sec t * 1000 + Z.quot (tvl_usec t) 1000.
Definition TIMEVAL_TO_NSEC (t : timeval) : Z := tvl_sec t * NSEC_PER_SEC + tvl_usec t * NSEC_PER_USEC.
Definition TIMEVAL_MSEC_DIFF (e b : timeval) : Z := TIMEVAL_TO_MSEC e - TIMEVAL_TO_MSEC b.
Definition TIMEVAL_USEC_DIFF (e b : timeval) : Z := TIMEVAL_TO_USEC e - TIMEVAL_TO_USEC b.
Definition TIMEVAL_NSEC_DIFF (e b : timeval) : Z := TIMEVAL_TO_NSEC e - TIMEVAL_TO_NSEC b.
Definition TIMESPEC_TO_MSEC (t : timespec) : Z := tv_sec t * 1000 + Z.quot (tv_nsec t) 1000000.
Definition TIMESPEC_MSEC_DIFF (e b : timespec) : Z := TIMESPEC_TO_MSEC e - TIMESPEC_TO_MSEC b.
Definition TIMEVAL_TO_TIMESPEC (t : timeval) : timespec := Timespec (tvl_sec t) (tvl_usec t * NSEC_PER_USEC).

(** A [timeval] is the same after going through a [timespec]; the other way a
    [timespec] loses less than a microsecond. *)
Lemma timeval_roundtrip t : TIMESPEC_TO_TIMEVAL (TIMEVAL_TO_TIMESPEC t) = t.
Proof. destruct t as [s u]. unfold TIMESPEC_TO_TIMEVAL, TIMEVAL_TO_TIMESPEC, NSEC_PER_USEC. cbn. by rewrite Z.quot_mul. Qed.
Lemma timespec_truncated t : 0 <= tv_nsec t ->
  0 <= TIMESPEC_NSEC_DIFF t (TIMEVAL_TO_TIMESPEC (TIMESPEC_TO_TIMEVAL t)) < NSEC_PER_USEC.
Proof.
  destruct t as [s n]. unfold TIMESPEC_NSEC_DIFF, TIMESPEC_TO_NSEC, TIMEVAL_TO_TIMESPEC, TIMESPEC_TO_TIMEVAL, NSEC_PER_USEC. cbn.
  intros Hn. Z.to_euclidean_division_equations; lia.
Qed.
(** The timer's milliseconds and the difference in nanoseconds agree to within
    one. *)
Lemma msec_diff_close e b : 0 <= tv_nsec e -> 0 <= tv_nsec b ->
  - 1000000 < TIMESPEC_NSEC_DIFF e b - TIMESPEC_MSEC_DIFF e b * 1000000 < 1000000.
Proof.
  destruct e as [s n], b as [s' n']. unfold TIMESPEC_NSEC_DIFF, TIMESPEC_MSEC_DIFF, TIMESPEC_TO_NSEC, TIMESPEC_TO_MSEC, NSEC_PER_SEC. cbn.
  intros. Z.to_euclidean_division_equations; lia.
Qed.

Class TimeOS (K : Type) := {
  (** [select(0, NULL, NULL, NULL, &tv)] *)
  select_timeout : timeval -> K -> (Z * option Z) * K;
  clock_gettime : K -> timespec * K;
}.

Section time.
Context {K : Type} `{TimeOS K}.

Definition clock : M (pstate K) timespec := on_k (fun k => let '(t, k) := clock_gettime k in Ret t k).

(** [rmtp] is null or points to the old remainder; the result is the return
    value and what [rmtp] points to afterwards.  Signed overflow of the
    multiplication is undefined. *)
Definition __nanosleep_hook (rqtp : timespec) (rmtp : option timespec)
    : M (pstate K) (Z * option timespec) :=
  let rq := TIMESPEC_TO_NSEC rqtp in
  if negb ((- 2 ^ 63 <=? rq) && (rq <? 2 ^ 63)) then ub else
  if (rq <? 0) || (100000000 <=? rq) then set_errno EINVAL;; mret (-1, rmtp) else
  start ← (match rmtp with Some _ => Some <$> clock | None => mret None end);
  err ← call (select_timeout (TIMESPEC_TO_TIMEVAL rqtp));
  errno ← gets g_errno;
  match rmtp, start with
  | Some _, Some start =>
    if negb (err =? 0) && (errno =? EINTR) then
      stop ← clock;
      let rm := rq - TIMESPEC_NSEC_DIFF stop start in
      mret (err, Some (Timespec (Z.quot rm NSEC_PER_SEC) (Z.rem rm NSEC_PER_SEC)))
    else mret (err, rmtp)
  | _, _ => mret (err, rmtp)
  end.

Definition __sleep_hook (seconds : Z) : M (pstate K) Z :=
  r ← __nanosleep_hook (Timespec seconds 0) (Some (Timespec 0 0));
  if negb (r.1 =? 0) then mret (u32 (match r.2 with Some rm => tv_sec rm | None => 0 end)) else mret 0.

Definition __usleep_hook (usec : Z) : M (pstate K) Z :=
  let nsec := usec * NSEC_PER_USEC in
  r ← __nanosleep_hook (Timespec (Z.quot nsec NSEC_PER_SEC) (Z.rem nsec NSEC_PER_SEC)) (Some (Timespec 0 0));
  mret r.1.

(** A request [nanosleep] accepts. *)
Definition valid_request (t : timespec) : Prop :=
  0 <= tv_sec t < 2 ^ 32 /\ 0 <= tv_nsec t < NSEC_PER_SEC.

Lemma nsec_no_overflow t : valid_request t ->
  (- 2 ^ 63 <=? TIMESPEC_TO_NSEC t) && (TIMESPEC_TO_NSEC t <? 2 ^ 63) = true /\ 0 <= TIMESPEC_TO_NSEC t.
Proof.
  unfold valid_request, TIMESPEC_TO_NSEC, NSEC_PER_SEC. intros [? ?].
  rewrite andb_true_iff, Z.leb_le, Z.ltb_lt. lia.
Qed.

(** A request for less than a tenth of a second is one [select] for the
    whole microseconds of the request; a longer one, which [nanosleep] accepts,
    fails with EINVAL without sleeping.  So [sleep(n)] with n > 0 returns 0, as
    after a full sleep, and the kernel has not been called; [usleep] fails from
    100000 microseconds on. *)
Theorem sleep_hooks (t : timespec) (n usec : Z) (s : pstate K) :
  valid_request t -> 0 < n < 2 ^ 32 -> 0 <= usec < 2 ^ 32 ->
  (TIMESPEC_TO_NSEC t < 100000000 ->
     __nanosleep_hook t None s = (err ← call (select_timeout (Timeval 0 (tv_nsec t / 1000))); mret (err, None)) s) /\
  (100000000 <= TIMESPEC_TO_NSEC t ->
     forall rm, __nanosleep_hook t rm s = Ret (-1, rm) (put_errno EINVAL s)) /\
  __sleep_hook n s = Ret 0 (put_errno EINVAL s) /\
  (100000 <= usec -> __usleep_hook usec s = Ret (-1) (put_errno EINVAL s)).
Proof.
  intros Ht Hn Hu.
  assert (forall u, valid_request u -> 100000000 <= TIMESPEC_TO_NSEC u -> forall rm,
            __nanosleep_hook u rm s = Ret (-1, rm) (put_errno EINVAL s)) as Hlong.
  { intros u Hu' Hge rm. unfold __nanosleep_hook. destruct (nsec_no_overflow u Hu') as [-> Hp].
    rewrite (proj2 (Z.leb_le _ _) Hge), orb_true_r. done. }
  split; [|split; [|split]].
  - intros Hlt. unfold __nanosleep_hook. destruct (nsec_no_overflow t Ht) as [-> Hp].
    rewrite (proj2 (Z.ltb_ge _ _) Hp), (proj2 (Z.leb_gt _ _) Hlt). cbn [negb orb].
    destruct t as [sec nsec]. unfold valid_request, TIMESPEC_TO_NSEC, NSEC_PER_SEC in *. cbn in *.
    assert (sec = 0) as -> by lia. unfold TIMESPEC_TO_TIMEVAL, NSEC_PER_USEC. cbn.
    rewrite Z.quot_div_nonneg by lia. mrun. by destruct (call _ s).
  - intros Hge. by apply Hlong.
  - unfold __sleep_hook. rewrite (bind_ret _ _ _ (-1, Some (Timespec 0 0)) (put_errno EINVAL s)); [reflexivity|]. apply Hlong.
    + unfold valid_request, NSEC_PER_SEC. cbn. lia.
    + unfold TIMESPEC_TO_NSEC, NSEC_PER_SEC. cbn. lia.
  - intros Hge. unfold __usleep_hook. rewrite (bind_ret _ _ _ (-1, Some (Timespec 0 0)) (put_errno EINVAL s)); [reflexivity|].
    unfold NSEC_PER_USEC, NSEC_PER_SEC.
    rewrite Z.quot_div_nonneg, Z.rem_mod_nonneg by lia. apply Hlong.
    + unfold valid_request, NSEC_PER_SEC. cbn [tv_sec tv_nsec]. unfold NSEC_PER_USEC in *.
      Z.to_euclidean_division_equations; lia.
    + unfold TIMESPEC_TO_NSEC, NSEC_PER_SEC. cbn [tv_sec tv_nsec]. unfold NSEC_PER_USEC in *.
      Z.to_euclidean_division_equations; lia.
Qed.
End time.

(** A kernel that counts its calls. *)
Definition counting_time : TimeOS Z := {|
  select_timeout _ k := ((0, None), k + 1);
  clock_gettime k := (Timespec k 0, k)
|}.
Definition idle : pstate Z :=
  PState (Pids 3 4003 1 4001) (Ids 1003 1001 1003 [] 1 2 false) (Client 210 (-1) (-1) false)
    (VTable ∅ false) (Some (Thr ST_RUNNING 0)) (Lib XND_RUNNING true) 0 (EnvState ∅ (-1)) 0.

Lemma sleep_hooks_witness :
  @__nanosleep_hook Z counting_time (Timespec 0 1000) None idle = Ret (0, None) (put_k 1 idle) /\
  @__nanosleep_hook Z counting_time (Timespec 1 0) None idle = Ret (-1, None) (put_errno EINVAL idle) /\
  @__sleep_hook Z counting_time 1 idle = Ret 0 (put_errno EINVAL idle) /\
  @__usleep_hook Z counting_time 100000 idle = Ret (-1) (put_errno EINVAL idle).
Proof.
  destruct (@sleep_hooks Z counting_time (Timespec 0 1000) 1 100000 idle) as (H1 & _ & H3 & H4);
    [unfold valid_request, NSEC_PER_SEC; cbn; lia..|].
  destruct (@sleep_hooks Z counting_time (Timespec 1 0) 1 100000 idle) as (_ & H2 & _ & _);
    [unfold valid_request, NSEC_PER_SEC; cbn; lia..|].
  split; [exact (H1 ltac:(vm_compute; reflexivity))|].
  split; [exact (H2 ltac:(vm_compute; congruence) None)|].
  split; [exact H3|exact (H4 ltac:(vm_compute; congruence))].
Defined.
