(* ===== verification/PidHooks.v ===== *)
(** The interposed pid functions: [xnd/pid/pid_wrappers.c].

    The functions the hooks replace are parameters: [wait4], [kill], [killpg]
    and [fork] of the kernel, and the libproc functions, named by the type
    [libproc_call].  The coordinator's client is the interface
    [CoordTranslate]. *)

From S2P Require Import Prelude Cstr Env Bytes Process PidTable Time.
Open Scope Z_scope.

Definition ESRCH : Z := 3.
Definition WNOHANG : Z := 1.

Definition WIFEXITED (status : Z) : bool := Z.land status 127 =? 0.
Definition WIFSIGNALED (status : Z) : bool :=
  negb (Z.land status 127 =? 127) && negb (Z.land status 127 =? 0).

(** The flavors of [proc_pidinfo] and types of [proc_listpids] the code
    distinguishes, and the sizes and offsets of [<sys/proc_info.h>]. *)
Definition PROC_PIDTASKALLINFO : Z := 2.
Definition PROC_PIDTBSDINFO : Z := 3.
Definition PROC_PIDT_SHORTBSDINFO : Z := 13.
Definition PROC_PGRP_ONLY : Z := 2.
Definition PROC_PPID_ONLY : Z := 6.
Definition sizeof_bsdinfo : Z := 136.
Definition sizeof_taskallinfo : Z := 232.
Definition sizeof_bsdshortinfo : Z := 64.

(** A libproc function and its arguments but the pid and the buffer. *)
Inductive libproc_call : Type :=
  | proc_pidinfo (flavor arg bufsize : Z)
  | proc_pidfdinfo (fd flavor bufsize : Z)
  | proc_pidfileportinfo (fileport flavor bufsize : Z)
  | proc_name (bufsize : Z)
  | proc_regionfilename (addr bufsize : Z)
  | proc_pidpath (bufsize : Z)
  | proc_pid_rusage (flavor : Z)
  | proc_track_dirty (flags : Z)
  | proc_set_dirty (dirty : bool)
  | proc_get_dirty
  | proc_clear_dirty (flags : Z)
  | proc_terminate
  | proc_udata_info (flavor bufsize : Z)
  | proc_listpgrppids (bufsize : Z)
  | proc_listchildpids (bufsize : Z)
  | proc_listpids (type bufsize : Z)
  | proc_listallpids (bufsize : Z).

(** What a buffer pointer points to; [None] is a null pointer. *)
Abbreviation buffer := (option (list Z)).

Class HookOS (K : Type) := {
  (** the return value, [*status], errno *)
  wait4 : Z -> Z -> K -> (Z * Z * option Z) * K;
  kill : Z -> Z -> K -> (Z * option Z) * K;
  killpg : Z -> Z -> K -> (Z * option Z) * K;
  (** the pid argument ([typeinfo] of [proc_listpids]) and the buffer *)
  libproc : libproc_call -> Z -> buffer -> K -> (Z * buffer * option Z) * K;
}.

(** [fork] with the handlers of [xnd_lib.c] registered by
    [xnd_register_fork_handlers], and [xnd_atfork_failed]. *)
Class ForkOS (K : Type) := {
  xnd_register_fork_handlers : M (pstate K) unit;
  fork : M (pstate K) Z;
  xnd_atfork_failed : M (pstate K) unit;
}.

Section hooks.
Context {K : Type} `{IterOrder} `{PidOS K} `{CoordTranslate K} `{TimeOS K} `{HookOS K}.

Definition virtual_to_real_pid (virt : Z) : M (pstate K) Z :=
  pid_table_acquire;;
  real ← pid_table_virtual_to_real virt;
  real ← (if negb (real =? -1) then mret real else virt_to_real_pid_from_coord virt);
  pid_table_release;;
  mret real.

Definition real_to_virtual_pid (real : Z) : M (pstate K) Z :=
  pid_table_acquire;;
  virt ← pid_table_real_to_virtual real;
  virt ← (if negb (virt =? -1) then mret virt else real_to_virt_pid_from_coord real);
  pid_table_release;;
  mret virt.

Definition __getpid_hook : M (pstate K) Z :=
  p ← gets g_pids; k ← gets g_k;
  mret (if negb (virt_pid p =? -1) then virt_pid p else _real_getpid k).
Definition __getppid_hook : M (pstate K) Z :=
  p ← gets g_pids; k ← gets g_k;
  mret (if negb (virt_ppid p =? -1) then virt_ppid p else _real_getppid k).

Definition __getpgrp_hook : M (pstate K) Z :=
  unsafe_enter;;
  k ← gets g_k; p ← gets g_pids;
  let real_pgrp := _real_getpgrp k in
  virt_pgrp ← (if real_pgrp =? real_pid p then mret (virt_pid p)
               else if real_pgrp =? real_ppid p then mret (virt_ppid p)
               else real_to_virtual_pid real_pgrp);
  unsafe_exit;;
  mret virt_pgrp.

Definition __getpgid_hook (pid : Z) : M (pstate K) Z :=
  p ← gets g_pids;
  if (pid =? 0) || (pid =? real_pid p) then __getpgrp_hook else
  unsafe_enter;;
  real ← virtual_to_real_pid pid;
  if real =? -1 then unsafe_exit;; mret (-1) else
  k ← gets g_k;
  virt_pgid ← real_to_virtual_pid (_real_getpgid real k);
  unsafe_exit;;
  mret virt_pgid.

Definition __fork_hook `{ForkOS K} : M (pstate K) Z :=
  unsafe_enter;;
  xnd_register_fork_handlers;;
  real_ret ← fork;
  virt_ret ← (if real_ret =? -1 then xnd_atfork_failed;; mret (-1)
              else if real_ret =? 0 then mret 0
              else
                info ← on_env (env_get_pid_info true false false false);
                let virt := default (-1) info.1.1.1 in
                pid_table_acquire;;
                pid_table_update virt real_ret;;
                pid_table_release;;
                mret virt);
  unsafe_exit;;
  mret virt_ret.

(** The pid argument of [wait4].  Negating INT32_MIN overflows. *)
Definition wait4_real_pid (pid : Z) : M (pstate K) Z :=
  if pid <=? -2 then
    if pid =? - 2 ^ 31 then ub else
    real ← virtual_to_real_pid (- pid);
    xnd_assert (negb (real =? -1));; mret (- real)
  else if (pid =? 0) || (pid =? -1) then mret pid
  else
    real ← virtual_to_real_pid pid;
    xnd_assert (negb (real =? -1));; mret real.

Definition erase_reaped (virt : Z) : M (pstate K) unit :=
  pid_table_acquire;; pid_table_erase virt;; pid_table_release.

(** The default case of the switch on [real_ret]. *)
Definition wait4_reaped (real_ret status : Z) : M (pstate K) Z :=
  virt_ret ← real_to_virtual_pid real_ret;
  (if WIFEXITED status then erase_reaped virt_ret
   else if WIFSIGNALED status then
     real ← virtual_to_real_pid virt_ret;
     notify_coord_of_exit real;;
     erase_reaped virt_ret
   else mret tt);;
  mret virt_ret.

(** The result is the return value and [*status]. *)
Fixpoint wait4_loop (fuel : nat) (pid options sv_errno : Z) : M (pstate K) (Z * Z) :=
  match fuel with
  | O => nofuel
  | S fuel =>
    unsafe_enter;;
    real_pid ← wait4_real_pid pid;
    r ← call (wait4 real_pid (Z.lor options WNOHANG));
    let '(real_ret, status) := (r.1, r.2) in
    if real_ret =? -1 then mret (-1, status) else
    virt_ret ← (if real_ret =? 0 then mret 0 else wait4_reaped real_ret status);
    unsafe_exit;;
    if negb (Z.land options WNOHANG =? 0) || negb (virt_ret =? 0) then
      set_errno sv_errno;; mret (virt_ret, status)
    else
      __nanosleep_hook (Timespec 0 1000) None;;
      wait4_loop fuel pid options sv_errno
  end.

Definition __wait4_hook (fuel : nat) (pid options : Z) : M (pstate K) (Z * Z) :=
  sv_errno ← gets g_errno; wait4_loop fuel pid options sv_errno.
Definition __wait_hook (fuel : nat) : M (pstate K) (Z * Z) := __wait4_hook fuel (-1) 0.
Definition __waitpid_hook (fuel : nat) (pid options : Z) : M (pstate K) (Z * Z) :=
  __wait4_hook fuel pid options.
Definition __wait3_hook (fuel : nat) (options : Z) : M (pstate K) (Z * Z) :=
  __wait4_hook fuel (-1) options.

Definition __killpg_hook (pgrp sig : Z) : M (pstate K) Z :=
  reserved ← on_env env_get_ckpt_signal;
  if sig =? reserved then mret (-1) else
  unsafe_enter;;
  retval ← (if pgrp =? 0 then call (killpg 0 sig)
            else
              real ← virtual_to_real_pid pgrp;
              if real =? -1 then mret (-1) else call (killpg real sig));
  unsafe_exit;;
  mret retval.

Definition __kill_hook (pid sig : Z) : M (pstate K) Z :=
  reserved ← on_env env_get_ckpt_signal;
  if sig =? reserved then mret (-1) else
  if pid <=? -2 then (if pid =? - 2 ^ 31 then ub else __killpg_hook (- pid) sig)
  else if pid =? -1 then
    unsafe_enter;; retval ← call (kill (-1) sig); unsafe_exit;; mret retval
  else if pid =? 0 then __killpg_hook 0 sig
  else
    unsafe_enter;;
    real ← virtual_to_real_pid pid;
    retval ← (if real =? -1 then mret (-1) else call (kill real sig));
    unsafe_exit;;
    mret retval.

(** ** Pids in result buffers *)

(** The 32-bit field at an offset of a buffer. *)
Definition get_u32 (off : nat) (buf : list Z) : Z := le_val (take 4 (drop off buf)).
Definition set_u32 (off : nat) (v : Z) (buf : list Z) : list Z :=
  take off buf ++ le_bytes 4 v ++ drop (off + 4) buf.

(** [if ((virt = real_to_virtual_pid((pid_t)field)) != -1) field = (u32)virt;] *)
Definition field_real_to_virt (off : nat) (buf : list Z) : M (pstate K) (list Z) :=
  virt ← real_to_virtual_pid (s32 (get_u32 off buf));
  mret (if negb (virt =? -1) then set_u32 off (u32 virt) buf else buf).

(** The fields [pbi_pid], [pbi_ppid], [pbi_pgid] and [e_tpgid]. *)
Definition bsdinfo_real_to_virt (buf : list Z) : M (pstate K) (list Z) :=
  buf ← field_real_to_virt 12 buf;
  buf ← field_real_to_virt 16 buf;
  buf ← field_real_to_virt 100 buf;
  field_real_to_virt 112 buf.

(** The fields [pbsi_pid], [pbsi_ppid] and [pbsi_pgid]. *)
Definition bsdshortinfo_real_to_virt (buf : list Z) : M (pstate K) (list Z) :=
  buf ← field_real_to_virt 0 buf;
  buf ← field_real_to_virt 4 buf;
  field_real_to_virt 8 buf.

(** The first [count] entries of an array of pids; [i] is the offset of the
    entry reached.  An entry outside the buffer is undefined. *)
Fixpoint pid_list_real_to_virt_loop (count i : nat) (buf : list Z) : M (pstate K) (list Z) :=
  match count with
  | O => mret buf
  | S count =>
    if negb (4 * Z.of_nat i + 4 <=? Z.of_nat (length buf)) then ub else
    let real := s32 (get_u32 (4 * i) buf) in
    if real =? 0 then pid_list_real_to_virt_loop count (S i) buf else
    virt ← real_to_virtual_pid real;
    pid_list_real_to_virt_loop count (S i)
      (if negb (virt =? -1) then set_u32 (4 * i) (u32 virt) buf else buf)
  end.
Definition pid_list_real_to_virt (buf : list Z) (count : Z) : M (pstate K) (list Z) :=
  pid_list_real_to_virt_loop (Z.to_nat count) 0 buf.

(** ** The libproc hooks

    They share the code [interposed] is: with interposition skipped the call
    itself, otherwise the call with the real pid between [unsafe_enter] and
    [unsafe_exit], or [fail] with ESRCH when there is no real pid.  [after] is
    what is done to the result.  The result is the return value and the
    buffer. *)
Definition interposed (fail : Z) (f : libproc_call) (after : Z -> buffer -> M (pstate K) buffer)
    (pid : Z) (buf : buffer) : M (pstate K) (Z * buffer) :=
  skip ← XND_SKIP_INTERPOSE;
  if skip : bool then call (libproc f pid buf) else
  unsafe_enter;;
  real ← virtual_to_real_pid pid;
  if real =? -1 then unsafe_exit;; set_errno ESRCH;; mret (fail, buf) else
  r ← call (libproc f real buf);
  buf ← after r.1 r.2;
  unsafe_exit;;
  mret (r.1, buf).

Definition as_is (ret : Z) (buf : buffer) : M (pstate K) buffer := mret buf.

Definition pidinfo_real_to_virt (flavor ret : Z) (buf : buffer) : M (pstate K) buffer :=
  match buf with
  | Some b =>
    if negb (0 <? ret) then mret buf else
    if flavor =? PROC_PIDTBSDINFO then
      if sizeof_bsdinfo <=? ret then Some <$> bsdinfo_real_to_virt b else mret buf
    else if flavor =? PROC_PIDTASKALLINFO then
      if sizeof_taskallinfo <=? ret then Some <$> bsdinfo_real_to_virt b else mret buf
    else if flavor =? PROC_PIDT_SHORTBSDINFO then
      if sizeof_bsdshortinfo <=? ret then Some <$> bsdshortinfo_real_to_virt b else mret buf
    else mret buf
  | None => mret None
  end.

(** [if (ret > 0 && buf != NULL) pid_list_real_to_virt(buf, ret / sizeof(pid_t));] *)
Definition pids_real_to_virt (ret : Z) (buf : buffer) : M (pstate K) buffer :=
  match buf with
  | Some b => if 0 <? ret then Some <$> pid_list_real_to_virt b (Z.quot ret 4) else mret buf
  | None => mret None
  end.

Definition __proc_pidinfo_hook (pid flavor arg : Z) (buf : buffer) (bufsize : Z) :=
  interposed 0 (proc_pidinfo flavor arg bufsize) (pidinfo_real_to_virt flavor) pid buf.
Definition __proc_pidfdinfo_hook (pid fd flavor : Z) (buf : buffer) (bufsize : Z) :=
  interposed 0 (proc_pidfdinfo fd flavor bufsize) as_is pid buf.
Definition __proc_pidfileportinfo_hook (pid fileport flavor : Z) (buf : buffer) (bufsize : Z) :=
  interposed 0 (proc_pidfileportinfo fileport flavor bufsize) as_is pid buf.
Definition __proc_name_hook (pid : Z) (buf : buffer) (bufsize : Z) :=
  interposed 0 (proc_name bufsize) as_is pid buf.
Definition __proc_regionfilename_hook (pid addr : Z) (buf : buffer) (bufsize : Z) :=
  interposed 0 (proc_regionfilename addr bufsize) as_is pid buf.
Definition __proc_pidpath_hook (pid : Z) (buf : buffer) (bufsize : Z) :=
  interposed 0 (proc_pidpath bufsize) as_is pid buf.
Definition __proc_pid_rusage_hook (pid flavor : Z) (buf : buffer) :=
  interposed (-1) (proc_pid_rusage flavor) as_is pid buf.
Definition __proc_track_dirty_hook (pid flags : Z) :=
  interposed (-1) (proc_track_dirty flags) as_is pid None.
Definition __proc_set_dirty_hook (pid : Z) (dirty : bool) :=
  interposed (-1) (proc_set_dirty dirty) as_is pid None.
Definition __proc_get_dirty_hook (pid : Z) (flags : buffer) :=
  interposed (-1) proc_get_dirty as_is pid flags.
Definition __proc_clear_dirty_hook (pid flags : Z) :=
  interposed (-1) (proc_clear_dirty flags) as_is pid None.
Definition __proc_terminate_hook (pid : Z) (sig : buffer) :=
  interposed (-1) proc_terminate as_is pid sig.
Definition __proc_udata_info_hook (pid flavor : Z) (buf : buffer) (bufsize : Z) :=
  interposed 0 (proc_udata_info flavor bufsize) as_is pid buf.
Definition __proc_listpgrppids_hook (pgrp : Z) (buf : buffer) (bufsize : Z) :=
  interposed 0 (proc_listpgrppids bufsize) pids_real_to_virt pgrp buf.
Definition __proc_listchildpids_hook (ppid : Z) (buf : buffer) (bufsize : Z) :=
  interposed 0 (proc_listchildpids bufsize) pids_real_to_virt ppid buf.

Definition __proc_listpids_hook (type typeinfo : Z) (buf : buffer) (bufsize : Z)
    : M (pstate K) (Z * buffer) :=
  skip ← XND_SKIP_INTERPOSE;
  if skip : bool then call (libproc (proc_listpids type bufsize) typeinfo buf) else
  unsafe_enter;;
  real ← (if (type =? PROC_PGRP_ONLY) || (type =? PROC_PPID_ONLY)
          then Some <$> virtual_to_real_pid (s32 typeinfo) else mret None);
  if bool_decide (real = Some (-1)) then unsafe_exit;; set_errno ESRCH;; mret (0, buf) else
  r ← call (libproc (proc_listpids type bufsize) (match real with Some r => u32 r | None => typeinfo end) buf);
  buf ← pids_real_to_virt r.1 r.2;
  unsafe_exit;;
  mret (r.1, buf).

Definition __proc_listallpids_hook (buf : buffer) (bufsize : Z) : M (pstate K) (Z * buffer) :=
  skip ← XND_SKIP_INTERPOSE;
  if skip : bool then call (libproc (proc_listallpids bufsize) 0 buf) else
  unsafe_enter;;
  r ← call (libproc (proc_listallpids bufsize) 0 buf);
  buf ← pids_real_to_virt r.1 r.2;
  unsafe_exit;;
  mret (r.1, buf).
End hooks.

(** ** Unsafe sections and locks are balanced *)

Section balance.
Context {K : Type} `{IterOrder} `{PidOS K} `{!CoordTranslate K, !CoordTranslateOk K} `{TimeOS K} `{HookOS K}.
Implicit Types s : pstate K.

(** Neither mutex is held. *)
Definition ready s : Prop := vlocked (g_table s) = false /\ oob_locked (g_client s) = false.

Record hframe s s' : Prop := {
  hf_pids : g_pids s' = g_pids s;
  hf_table : g_table s' = g_table s;
  hf_self : g_self s' = g_self s;
  hf_lib : g_lib s' = g_lib s;
  hf_ready : ready s'
}.

Lemma hframe_refl s : ready s -> hframe s s.
Proof. by split. Qed.
Lemma hframe_trans s1 s2 s3 : hframe s1 s2 -> hframe s2 s3 -> hframe s1 s3.
Proof. intros [] []. split; congruence || done. Qed.

(** A computation that may run anywhere, and keeps the frame. *)
Definition safe {A} (m : M (pstate K) A) : Prop :=
  forall s, ready s -> returns m s (fun _ s' => hframe s s').
(** A computation called inside one more unsafe section than [t], which it
    leaves. *)
Definition inside {A} (t : option thr) (m : M (pstate K) A) : Prop :=
  forall s, ready s -> g_self s = entered t ->
  returns m s (fun _ s' => g_pids s' = g_pids s /\ g_table s' = g_table s /\ g_self s' = t /\ g_lib s' = g_lib s /\ ready s').
(** A hook: callable by any thread that may call one. *)
Definition balanced {A} (m : M (pstate K) A) : Prop :=
  forall s, ready s -> self_ok (g_self s) -> returns m s (fun _ s' => hframe s s').

Lemma safe_ret {A} (a : A) : safe (mret a).
Proof. intros s Hs. by apply hframe_refl. Qed.
Lemma safe_gets {A} (f : pstate K -> A) : safe (gets f).
Proof. intros s Hs. by apply hframe_refl. Qed.
Lemma safe_set_errno e : safe (set_errno e).
Proof. intros s Hs. by split. Qed.
Lemma safe_call {A} (f : K -> (A * option Z) * K) : safe (call f).
Proof. intros s Hs. unfold returns, call. destruct (f (g_k s)) as [[a [e|]] k]; by split. Qed.
Lemma safe_env {A} (m : M env_state A) : (forall e, returns m e (fun _ _ => True)) -> safe (on_env m).
Proof.
  intros Hm s Hs. unfold returns, on_env. specialize (Hm (g_env s)). unfold returns in Hm.
  destruct (m (g_env s)); try done; by split.
Qed.
Lemma safe_bind {A B} (m : M (pstate K) A) (k : A -> M (pstate K) B) :
  safe m -> (forall a, safe (k a)) -> safe (m ≫= k).
Proof.
  intros Hm Hk s Hs. apply returns_bind. eapply returns_weaken; [by apply Hm|]. intros a s1 Hf1.
  eapply returns_weaken; [apply Hk, Hf1|]. intros b s2 Hf2. exact (hframe_trans _ _ _ Hf1 Hf2).
Qed.
Lemma safe_fmap {A B} (f : A -> B) (m : M (pstate K) A) : safe m -> safe (f <$> m).
Proof. intros Hm. apply safe_bind; [done|intros a; apply safe_ret]. Qed.

Lemma safe_skip : safe XND_SKIP_INTERPOSE.
Proof. apply safe_bind; [apply safe_gets|intros l; apply safe_ret]. Qed.

Lemma unlock_lock s : ready s ->
  put_table (VTable (table (g_table s)) false) (put_table (VTable (table (g_table s)) true) s) = s.
Proof. destruct s as [? ? ? [? ?] ? ? ? ? ?]. intros [Hl _]. cbn in *. by subst. Qed.

(** A lookup in the locked table, and the coordinator when it fails. *)
Lemma translate_spec (look : gmap Z Z -> Z) (ask : M (pstate K) Z) s :
  (forall s, oob_locked (g_client s) = false -> returns ask s (fun _ s' => client_frame s s')) ->
  ready s ->
  returns (pid_table_acquire;;
           real ← (t ← gets g_table; mret (look (table t)));
           real ← (if negb (real =? -1) then mret real else ask);
           pid_table_release;; mret real) s (fun r s' =>
    hframe s s' /\ (look (table (g_table s)) <> -1 -> r = look (table (g_table s)) /\ s' = s) /\
    (look (table (g_table s)) = -1 ->
     returns ask (put_table (VTable (table (g_table s)) true) s) (fun r' _ => r = r'))).
Proof.
  intros Hask Hs. pose proof Hs as [Hl Ho].
  eapply returns_step; [unfold pid_table_acquire; mrun; by rewrite Hl|].
  eapply returns_step; [done|]. cbn [table g_table put_table].
  destruct (Z.eqb_spec (look (table (g_table s))) (-1)) as [He|He]; cbn [negb].
  - specialize (Hask (put_table (VTable (table (g_table s)) true) s) Ho).
    apply returns_inv in Hask as (r & s1 & Hr & [Hp Ht Hsf Hlb Hv Hlk]).
    eapply returns_step; [exact Hr|]. cbn in *.
    eapply returns_step; [unfold pid_table_release; mrun; by rewrite Ht|].
    apply returns_ret. split; [|split; [done|intros _; unfold returns; by rewrite Hr]].
    split; cbn; try done. destruct s as [? ? ? [? ?] ? ? ? ? ?]. cbn in *. by subst.
  - do 2 (eapply returns_step; [done|]). apply returns_ret. cbn [g_table put_table table vlocked].
    rewrite unlock_lock by done. split; [by apply hframe_refl|]. by split.
Qed.

Lemma virtual_to_real_pid_spec v s : ready s ->
  returns (virtual_to_real_pid v) s (fun r s' =>
    hframe s s' /\
    (virtual_to_real v (table (g_table s)) <> -1 -> r = virtual_to_real v (table (g_table s)) /\ s' = s) /\
    (virtual_to_real v (table (g_table s)) = -1 ->
     returns (virt_to_real_pid_from_coord v) (put_table (VTable (table (g_table s)) true) s) (fun r' _ => r = r'))).
Proof. intros Hs. apply (translate_spec (virtual_to_real v)); [|done]. intros. by apply virt_to_real_ok. Qed.

Lemma real_to_virtual_pid_spec r s : ready s ->
  returns (real_to_virtual_pid r) s (fun v s' =>
    hframe s s' /\
    (real_to_virtual r (table (g_table s)) <> -1 -> v = real_to_virtual r (table (g_table s)) /\ s' = s) /\
    (real_to_virtual r (table (g_table s)) = -1 ->
     returns (real_to_virt_pid_from_coord r) (put_table (VTable (table (g_table s)) true) s) (fun v' _ => v = v'))).
Proof. intros Hs. apply (translate_spec (real_to_virtual r)); [|done]. intros. by apply real_to_virt_ok. Qed.

Lemma safe_v2r v : safe (virtual_to_real_pid v).
Proof. intros s Hs. eapply returns_weaken; [by apply virtual_to_real_pid_spec|]. by intros r s' [? _]. Qed.
Lemma safe_r2v r : safe (real_to_virtual_pid r).
Proof. intros s Hs. eapply returns_weaken; [by apply real_to_virtual_pid_spec|]. by intros v s' [? _]. Qed.
Lemma safe_notify r : safe (notify_coord_of_exit r).
Proof.
  intros s Hs. eapply returns_weaken; [apply notify_ok, Hs|]. intros _ s' [].
  split; try done. destruct Hs. by split; [congruence|].
Qed.
Lemma safe_signal : safe (on_env env_get_ckpt_signal).
Proof.
  apply safe_env. intros e. unfold env_get_ckpt_signal, getenv. unfold returns. mrun.
  by destruct (ckpt_sig_cache e =? -1).
Qed.

Lemma inside_bind {A B} t (m : M (pstate K) A) (k : A -> M (pstate K) B) :
  safe m -> (forall a, inside t (k a)) -> inside t (m ≫= k).
Proof.
  intros Hm Hk s Hs Ht. apply returns_bind. eapply returns_weaken; [by apply Hm|]. intros a s1 Hf1.
  eapply returns_weaken; [apply Hk; [apply Hf1|by rewrite (hf_self _ _ Hf1)]|].
  intros b s2 (? & ? & ? & ? & ?). destruct Hf1. split_and!; congruence || done.
Qed.
Lemma inside_exit {A} t (k : M (pstate K) A) : self_ok t -> safe k -> inside t (unsafe_exit ≫= fun _ => k).
Proof.
  intros Hok Hk s Hs Ht. eapply returns_step; [by apply unsafe_exit_spec|].
  eapply returns_weaken; [by apply Hk|]. intros b s2 []. by split_and!.
Qed.
Lemma balanced_enter {A} (k : M (pstate K) A) :
  (forall t, self_ok t -> inside t k) -> balanced (unsafe_enter ≫= fun _ => k).
Proof.
  intros Hk s Hs Hok. eapply returns_step; [by apply unsafe_enter_spec|].
  eapply returns_weaken; [by eapply (Hk (g_self s))|]. intros b s2 (? & ? & ? & ? & ?). by split.
Qed.
Lemma balanced_bind {A B} (m : M (pstate K) A) (k : A -> M (pstate K) B) :
  safe m -> (forall a, balanced (k a)) -> balanced (m ≫= k).
Proof.
  intros Hm Hk s Hs Hok. apply returns_bind. eapply returns_weaken; [by apply Hm|]. intros a s1 Hf1.
  eapply returns_weaken; [apply Hk; [apply Hf1|by rewrite (hf_self _ _ Hf1)]|].
  intros b s2 Hf2. exact (hframe_trans _ _ _ Hf1 Hf2).
Qed.
Lemma safe_balanced {A} (m : M (pstate K) A) : safe m -> balanced m.
Proof. intros Hm s Hs _. by apply Hm. Qed.
End balance.

#[export] Hint Resolve safe_ret safe_gets safe_set_errno safe_call safe_skip safe_v2r safe_r2v safe_notify
  safe_signal : xnd.

(** Decomposes a [safe], [inside] or [balanced] goal along the program. *)
Ltac balance :=
  repeat first
    [ progress intros
    | solve [eauto with xnd]
    | match goal with |- context [if ?b then _ else _] => destruct b eqn:? end
    | apply safe_fmap
    | apply inside_exit; [assumption|]
    | match goal with
      | |- balanced (unsafe_enter ≫= _) => apply balanced_enter
      | |- balanced (_ ≫= _) => apply balanced_bind
      | |- inside _ (_ ≫= _) => apply inside_bind
      | |- safe (_ ≫= _) => apply safe_bind
      end
    | apply safe_balanced ].

Section hook_balance.
Context {K : Type} `{IterOrder} `{PidOS K} `{!CoordTranslate K, !CoordTranslateOk K} `{TimeOS K} `{HookOS K}.

Lemma set_u32_length off v buf : (off + 4 <= length buf)%nat -> length (set_u32 off v buf) = length buf.
Proof.
  intros Ho. unfold set_u32. rewrite !length_app, length_take, le_bytes_length, length_drop. lia.
Qed.

Lemma safe_bsdinfo buf : safe (bsdinfo_real_to_virt (K:=K) buf).
Proof. unfold bsdinfo_real_to_virt, field_real_to_virt. balance. Qed.
Lemma safe_bsdshortinfo buf : safe (bsdshortinfo_real_to_virt (K:=K) buf).
Proof. unfold bsdshortinfo_real_to_virt, field_real_to_virt. balance. Qed.
Lemma safe_pid_list count i buf : 4 * Z.of_nat (i + count) <= Z.of_nat (length buf) ->
  safe (pid_list_real_to_virt_loop (K:=K) count i buf).
Proof.
  revert i buf. induction count as [|count IH]; intros i buf Hl; cbn [pid_list_real_to_virt_loop]; [balance|].
  rewrite (proj2 (Z.leb_le _ _)) by lia. cbn [negb].
  destruct (s32 (get_u32 (4 * i) buf) =? 0); [apply IH; lia|].
  apply safe_bind; [apply safe_r2v|]. intros v. apply IH.
  destruct (negb (v =? -1)); [rewrite set_u32_length|]; lia.
Qed.

(** What the list functions return is not more than the buffer they filled. *)
Definition libproc_bounded : Prop := forall f pid b (k : K) ret b' e k',
  libproc f pid b k = ((ret, b', e), k') ->
  match b' with Some b' => 0 < ret -> ret <= Z.of_nat (length b') | None => True end.

Lemma safe_pids ret buf :
  match buf with Some b => 0 < ret -> ret <= Z.of_nat (length b) | None => True end ->
  safe (pids_real_to_virt (K:=K) ret buf).
Proof.
  intros Hb. unfold pids_real_to_virt. destruct buf as [b|]; [|balance].
  destruct (Z.ltb_spec 0 ret) as [Hr|]; [|balance]. apply safe_fmap, safe_pid_list.
  specialize (Hb Hr). pose proof (Z.quot_pos ret 4). rewrite Z.quot_div_nonneg by lia.
  cbn [plus]. Z.to_euclidean_division_equations. lia.
Qed.

Lemma inside_libproc t f pid buf (after : Z -> buffer -> M (pstate K) buffer) :
  libproc_bounded -> self_ok t ->
  (forall ret b, match b with Some b => 0 < ret -> ret <= Z.of_nat (length b) | None => True end ->
                 safe (after ret b)) ->
  inside t (r ← call (libproc f pid buf); b ← after r.1 r.2; unsafe_exit;; mret (r.1, b)).
Proof.
  intros Hb Ht Ha s Hs He.
  assert (exists r s1, call (libproc f pid buf) s = Ret r s1 /\ hframe s s1 /\
            match r.2 with Some b => 0 < r.1 -> r.1 <= Z.of_nat (length b) | None => True end)
    as (r & s1 & Hc & Hf & Hr).
  { unfold call. destruct (libproc f pid buf (g_k s)) as [[[ret b] e] k] eqn:E.
    eexists _, _. split; [reflexivity|]. split; [destruct e; by split|]. apply (Hb _ _ _ _ _ _ _ _ E). }
  eapply returns_step; [exact Hc|].
  eapply returns_weaken; [apply (inside_bind t (after r.1 r.2));
    [by apply Ha|intros b; apply inside_exit; [done|apply safe_ret]|apply Hf|by rewrite (hf_self _ _ Hf)]|].
  intros b s2 (? & ? & ? & ? & ?). destruct Hf. split_and!; congruence || done.
Qed.

Lemma balanced_interposed fail f after pid buf :
  libproc_bounded ->
  (forall ret b, match b with Some b => 0 < ret -> ret <= Z.of_nat (length b) | None => True end ->
                 safe (after ret b)) ->
  balanced (interposed (K:=K) fail f after pid buf).
Proof.
  intros Hb Ha. unfold interposed. apply balanced_bind; [apply safe_skip|]. intros [].
  { apply safe_balanced, safe_call. }
  apply balanced_enter. intros t Ht. apply inside_bind; [apply safe_v2r|]. intros real.
  destruct (real =? -1); [balance|by apply inside_libproc].
Qed.

Lemma safe_pidinfo flavor ret b : safe (pidinfo_real_to_virt (K:=K) flavor ret b).
Proof.
  unfold pidinfo_real_to_virt. destruct b as [b|]; [|apply safe_ret].
  repeat destruct (_ : bool); auto using safe_ret, safe_fmap, safe_bsdinfo, safe_bsdshortinfo.
Qed.
End hook_balance.

(** ** Properties *)

Section properties.
Context {K : Type} `{IterOrder} `{PidOS K} `{!CoordTranslate K, !CoordTranslateOk K} `{TimeOS K} `{HookOS K}.
Implicit Types s : pstate K.

Lemma balanced_getpgrp : balanced __getpgrp_hook.
Proof. unfold __getpgrp_hook. balance. Qed.
Lemma balanced_killpg pgrp sig : balanced (__killpg_hook pgrp sig).
Proof. unfold __killpg_hook. balance. Qed.
Lemma balanced_kill pid sig : - 2 ^ 31 < pid -> balanced (__kill_hook pid sig).
Proof.
  intros Hp. unfold __kill_hook. apply balanced_bind; [apply safe_signal|]. intros reserved.
  destruct (sig =? reserved); [balance|]. destruct (pid <=? -2).
  { rewrite (proj2 (Z.eqb_neq _ _)) by lia. apply balanced_killpg. }
  destruct (pid =? -1); [balance|]. destruct (pid =? 0); [apply balanced_killpg|balance].
Qed.

(** The libproc hooks, by the function they replace. *)
Definition libproc_hook (f : libproc_call) (pid : Z) (buf : buffer) : M (pstate K) (Z * buffer) :=
  match f with
  | proc_pidinfo flavor arg n => __proc_pidinfo_hook pid flavor arg buf n
  | proc_pidfdinfo fd flavor n => __proc_pidfdinfo_hook pid fd flavor buf n
  | proc_pidfileportinfo p flavor n => __proc_pidfileportinfo_hook pid p flavor buf n
  | proc_name n => __proc_name_hook pid buf n
  | proc_regionfilename addr n => __proc_regionfilename_hook pid addr buf n
  | proc_pidpath n => __proc_pidpath_hook pid buf n
  | proc_pid_rusage flavor => __proc_pid_rusage_hook pid flavor buf
  | proc_track_dirty flags => __proc_track_dirty_hook pid flags
  | proc_set_dirty dirty => __proc_set_dirty_hook pid dirty
  | proc_get_dirty => __proc_get_dirty_hook pid buf
  | proc_clear_dirty flags => __proc_clear_dirty_hook pid flags
  | proc_terminate => __proc_terminate_hook pid buf
  | proc_udata_info flavor n => __proc_udata_info_hook pid flavor buf n
  | proc_listpgrppids n => __proc_listpgrppids_hook pid buf n
  | proc_listchildpids n => __proc_listchildpids_hook pid buf n
  | proc_listpids type n => __proc_listpids_hook type pid buf n
  | proc_listallpids n => __proc_listallpids_hook buf n
  end.

Lemma balanced_libproc f pid buf : libproc_bounded (K:=K) -> balanced (libproc_hook f pid buf).
Proof.
  intros Hb. destruct f; cbn [libproc_hook];
    try (apply balanced_interposed; [done|intros ret b Hr]; first
      [apply safe_ret | apply safe_pidinfo | by apply safe_pids]).
  - unfold __proc_listpids_hook. apply balanced_bind; [apply safe_skip|]. intros [].
    { apply safe_balanced, safe_call. }
    apply balanced_enter. intros t Ht. apply inside_bind; [balance|]. intros real.
    destruct (bool_decide _); [balance|]. apply inside_libproc; [done|done|apply safe_pids].
  - unfold __proc_listallpids_hook. apply balanced_bind; [apply safe_skip|]. intros [].
    { apply safe_balanced, safe_call. }
    apply balanced_enter. intros t Ht. apply inside_libproc; [done|done|apply safe_pids].
Qed.

(** C39. Called with no mutex held, where the coordinator's client returns from
    the translations they ask of it ([CoordTranslateOk]), the hooks of getpgrp,
    getpgid, kill and killpg and those of libproc ([libproc_hook]) return,
    whatever path they take, with the calling thread in as many unsafe sections
    as before, the pid table unchanged and both mutexes free: they neither
    deadlock nor fail an assertion.  Those of wait4 and its kin are not among
    them, and leak a section ([wait4_hook_leaks]). *)
Theorem pid_hooks_balanced (s : pstate K) (pid sig : Z) (f : libproc_call) (buf : buffer) :
  ready s -> self_ok (g_self s) -> - 2 ^ 31 < pid -> libproc_bounded (K:=K) ->
  returns __getpgrp_hook s (fun _ s' => hframe s s') /\
  returns (__getpgid_hook pid) s (fun _ s' => hframe s s') /\
  returns (__kill_hook pid sig) s (fun _ s' => hframe s s') /\
  returns (__killpg_hook pid sig) s (fun _ s' => hframe s s') /\
  returns (libproc_hook f pid buf) s (fun _ s' => hframe s s').
Proof.
  intros Hr Hs Hp Hb. split; [by apply balanced_getpgrp|]. split.
  { revert s Hr Hs. change (balanced (__getpgid_hook pid)). unfold __getpgid_hook.
    apply balanced_bind; [apply safe_gets|]. intros p.
    destruct (_ || _); [apply balanced_getpgrp|]. balance. }
  split; [by apply balanced_kill|]. split; [by apply balanced_killpg|by apply balanced_libproc].
Qed.

(** The calls whose results hold no pids. *)
Definition no_pids (f : libproc_call) : bool :=
  match f with
  | proc_pidinfo _ _ _ | proc_listpgrppids _ | proc_listchildpids _ | proc_listpids _ _
  | proc_listallpids _ | proc_track_dirty _ | proc_set_dirty _ | proc_clear_dirty _ => false
  | _ => true
  end.

Lemma libproc_hook_as_is f pid buf : no_pids f = true ->
  exists fail, libproc_hook f pid buf = interposed fail f as_is pid buf.
Proof. destruct f; try done; intros _; eexists; reflexivity. Qed.

(** A libproc hook on a pid of the virtual pid table makes exactly one
    call, of the function it replaces with the same arguments and the real
    pid, and returns what that call returned and stored, with its errno. *)
Theorem libproc_hook_translates (s : pstate K) (f : libproc_call) (pid : Z) (buf : buffer) :
  ready s -> self_ok (g_self s) -> interposing s -> no_pids f = true ->
  virtual_to_real pid (table (g_table s)) <> -1 ->
  libproc_hook f pid buf s = call (libproc f (virtual_to_real pid (table (g_table s))) buf) s.
Proof.
  intros Hr Hs Hsk Hf Hv. destruct (libproc_hook_as_is f pid buf Hf) as [fail ->].
  unfold interposed. rewrite (bind_ret _ _ _ _ _ (skip_false s Hsk)).
  rewrite (bind_ret _ _ _ _ _ (unsafe_enter_spec s Hs)).
  set (s1 := put_self (entered (g_self s)) s).
  pose proof (virtual_to_real_pid_spec pid s1 Hr) as Hx. apply returns_inv in Hx as (r & s2 & Hx & _ & Hl & _).
  destruct (Hl Hv) as [-> ->]. rewrite (bind_ret _ _ _ _ _ Hx). clear Hl Hx.
  change (table (g_table s1)) with (table (g_table s)).
  rewrite (proj2 (Z.eqb_neq _ _)) by done.
  destruct (libproc f (virtual_to_real pid (table (g_table s))) buf (g_k s)) as [[[ret b] e] k] eqn:E.
  unfold call. rewrite E. unfold mbind at 1, M_bind at 1.
  change (g_k s1) with (g_k s). rewrite E. cbn [fst snd].
  unfold mbind at 1, M_bind at 1, as_is, mret at 1, M_ret at 1.
  erewrite bind_ret by (apply (unsafe_exit_spec _ (g_self s)); [done|by destruct e]).
  unfold mret, M_ret. f_equal. by destruct e, s.
Qed.

(** An unknown pid: a libproc hook for a pid neither the table nor the
    coordinator knows reports failure with ESRCH, leaves the buffer alone and
    leaves every unsafe section it entered. *)
Theorem libproc_hook_unknown (s : pstate K) (f : libproc_call) (pid : Z) (buf : buffer) :
  ready s -> self_ok (g_self s) -> interposing s -> no_pids f = true ->
  virtual_to_real pid (table (g_table s)) = -1 ->
  (forall s1, returns (virt_to_real_pid_from_coord pid) s1 (fun r _ => r = -1)) ->
  returns (libproc_hook f pid buf) s (fun r s' =>
    (r = (0, buf) \/ r = (-1, buf)) /\ g_errno s' = ESRCH /\ g_self s' = g_self s /\ ready s').
Proof.
  intros Hr Hs Hsk Hf Hv Hc.
  assert (forall fail, returns (interposed fail f as_is pid buf) s (fun r s' =>
            r = (fail, buf) /\ g_errno s' = ESRCH /\ g_self s' = g_self s /\ ready s')) as Hi.
  { intros fail. unfold interposed. eapply returns_step; [by apply skip_false|].
    eapply returns_step; [by apply unsafe_enter_spec|].
    set (s1 := put_self (entered (g_self s)) s). apply returns_bind.
    eapply returns_weaken; [by apply (virtual_to_real_pid_spec pid s1)|]. intros r s2 (Hf1 & _ & Hask).
    specialize (Hask Hv). apply returns_inv in Hask as (r' & s3 & Hask & ->).
    specialize (Hc (put_table (VTable (table (g_table s1)) true) s1)). unfold returns in Hc. rewrite Hask in Hc.
    subst r'. eapply returns_step.
    { apply (unsafe_exit_spec _ (g_self s)); [done|]. by rewrite (hf_self _ _ Hf1). }
    eapply returns_step; [done|]. apply returns_ret. split; [done|]. split; [done|]. split; [done|apply Hf1]. }
  destruct f; try done; (eapply returns_weaken; [exact (Hi _)|]); intros r s' (-> & H'); auto.
Qed.

(** A failing [wait4] leaks an unsafe section: when the kernel's call
    returns -1, as it does with ECHILD when there is no child, the hook returns
    -1 with the thread still inside the section it entered, so that the thread
    is in state ST_UNSAFE from then on and is never suspended. *)
Theorem wait4_hook_leaks (s : pstate K) (fuel : nat) (options status : Z) (e : option Z) (k' : K) :
  ready s -> g_self s = Some (Thr ST_RUNNING 0) ->
  wait4 (-1) (Z.lor options WNOHANG) (g_k s) = ((-1, status, e), k') ->
  returns (__wait4_hook (S fuel) (-1) options) s (fun r s' =>
    r = (-1, status) /\ g_self s' = Some (Thr ST_UNSAFE 1) /\
    returns unsafe_enter s' (fun _ s2 => returns unsafe_exit s2 (fun _ s3 => g_self s3 = Some (Thr ST_UNSAFE 1)))).
Proof.
  intros Hr Hs Hw. unfold __wait4_hook. eapply returns_step; [done|]. cbn [wait4_loop].
  eapply returns_step; [apply unsafe_enter_spec; rewrite Hs; right; exists ST_RUNNING, 0; split_and!; [done|lia|lia|by left]|].
  eapply returns_step; [done|].
  destruct s as [? ? ? ? self ? ? ? k]. cbn in Hs, Hw. subst self.
  unfold returns, call. mrun. rewrite Hw. cbn. by destruct e.
Qed.

(** Reaping a child: when the kernel reports a child of the table that
    exited or was killed, [wait4] returns the child's virtual pid and its
    status, takes the child out of the table and nothing else, leaves errno as
    it was before the call, and leaves the unsafe section. *)
Theorem wait4_hook_reaps (s : pstate K) (fuel : nat) (options real status : Z) (e : option Z) (k' : K) (v : Z) :
  ready s -> self_ok (g_self s) ->
  wait4 (-1) (Z.lor options WNOHANG) (g_k s) = ((real, status, e), k') ->
  real <> -1 -> real <> 0 -> real_to_virtual real (table (g_table s)) = v -> v <> -1 -> v <> 0 ->
  WIFEXITED status || WIFSIGNALED status = true ->
  returns (__wait4_hook (S fuel) (-1) options) s (fun r s' =>
    r = (v, status) /\ table (g_table s') = erase v (table (g_table s)) /\
    g_errno s' = g_errno s /\ g_self s' = g_self s /\ ready s').
Proof.
  intros Hr Hs Hw Hr1 Hr0 Hv Hv1 Hv0 Hst. unfold __wait4_hook. eapply returns_step; [done|]. cbn [wait4_loop].
  eapply returns_step; [by apply unsafe_enter_spec|]. eapply returns_step; [done|].
  set (s1 := put_self (entered (g_self s)) s).
  assert (exists s2, call (wait4 (-1) (Z.lor options WNOHANG)) s1 = Ret (real, status) s2 /\ hframe s1 s2)
    as (s2 & Hc & Hf).
  { unfold call. cbn [g_k s1 put_self]. rewrite Hw. destruct e; eexists; (split; [reflexivity|]); by split. }
  eapply returns_step; [exact Hc|]. cbn [fst snd].
  rewrite (proj2 (Z.eqb_neq _ _) Hr1), (proj2 (Z.eqb_neq _ _) Hr0). apply returns_bind.
  assert (returns (wait4_reaped real status) s2 (fun r s3 => r = v /\
            table (g_table s3) = erase v (table (g_table s)) /\ g_self s3 = entered (g_self s) /\ ready s3)) as Hreap.
  { unfold wait4_reaped. apply returns_bind.
    eapply returns_weaken; [apply (real_to_virtual_pid_spec real s2), Hf|]. intros v' s3 (_ & Hlook & _).
    rewrite (hf_table _ _ Hf) in Hlook. change (table (g_table s1)) with (table (g_table s)) in Hlook.
    rewrite Hv in Hlook. destruct (Hlook Hv1) as [-> ->].
    assert (forall s4, hframe s2 s4 -> returns (erase_reaped v ≫= fun _ => mret v) s4 (fun r s3 => r = v /\
            table (g_table s3) = erase v (table (g_table s)) /\ g_self s3 = entered (g_self s) /\ ready s3)) as Her.
    { intros s4 Hf4. pose proof (hf_ready _ _ Hf4) as [Hl4 Ho4].
      pose proof (hf_table _ _ Hf4) as Ht4. rewrite (hf_table _ _ Hf) in Ht4.
      pose proof (hf_self _ _ Hf4) as Hs4. rewrite (hf_self _ _ Hf) in Hs4.
      unfold erase_reaped, pid_table_acquire, pid_table_erase, pid_table_release, modify_table, returns. mrun.
      rewrite Hl4. cbn. rewrite Ht4, Hs4. by split_and!. }
    destruct (WIFEXITED status); [apply Her, hframe_refl, Hf|]. cbn [orb] in Hst. rewrite Hst.
    apply returns_bind. apply returns_bind.
    eapply returns_weaken; [apply safe_v2r, Hf|]. intros r4 s4 Hf4. apply returns_bind.
    eapply returns_weaken; [apply safe_notify, Hf4|]. intros [] s5 Hf5.
    specialize (Her s5 (hframe_trans _ _ _ Hf4 Hf5)). apply returns_inv in Her as (? & ? & Hm & Hq).
    apply bind_inv in Hm as (? & ? & Hm & [= -> ->]). unfold returns. rewrite Hm. exact Hq. }
  eapply returns_weaken; [exact Hreap|]. intros r s3 (-> & Ht & Hs3 & Hr3).
  eapply returns_step; [by apply unsafe_exit_spec|].
  rewrite (proj2 (Z.eqb_neq v 0)), orb_true_r by done.
  eapply returns_step; [done|]. apply returns_ret. by split_and!.
Qed.
End properties.

(** ** Lists of pids *)

(** The [i]-th entry of an array of pids. *)
Definition entry (i : nat) (buf : list Z) : Z := s32 (get_u32 (4 * i) buf).

Lemma entry_set_same i v buf : (4 * i + 4 <= length buf)%nat ->
  entry i (set_u32 (4 * i) (u32 v) buf) = s32 v.
Proof.
  intros Hl. unfold entry, get_u32, set_u32.
  rewrite drop_app_length' by (rewrite length_take; lia).
  rewrite take_app_length' by (by rewrite le_bytes_length). rewrite le_val_bytes.
  unfold wrapu. rewrite Zmod_mod. by apply wraps_mod.
Qed.

Lemma entry_set_other i j v buf : (4 * i + 4 <= length buf)%nat -> i <> j ->
  entry j (set_u32 (4 * i) v buf) = entry j buf.
Proof.
  intros Hl Hne. unfold entry, get_u32, set_u32. do 2 f_equal.
  destruct (decide (j < i)%nat) as [Hlt|Hge].
  - rewrite drop_app_le by (rewrite length_take; lia).
    rewrite take_app_le by (rewrite length_drop, length_take; lia).
    rewrite !take_drop_commute, take_take. do 2 f_equal. lia.
  - rewrite drop_app_ge by (rewrite length_take; lia). rewrite length_take_le by lia.
    rewrite drop_app_ge by (rewrite le_bytes_length; lia). rewrite le_bytes_length, drop_drop.
    do 2 f_equal. lia.
Qed.

Section pid_lists.
Context {K : Type} `{IterOrder} `{PidOS K} `{!CoordTranslate K, !CoordTranslateOk K} `{TimeOS K} `{HookOS K}.
Implicit Types s : pstate K.
(** What the coordinator answers for a real pid. *)
Variable answer : Z -> Z.
Hypothesis answers : forall r s, oob_locked (g_client s) = false ->
  returns (real_to_virt_pid_from_coord r) s (fun v _ => v = answer r).

(** The pid a program sees for a real pid. *)
Definition seen (t : gmap Z Z) (real : Z) : Z :=
  let virt := if real_to_virtual real t =? -1 then answer real else real_to_virtual real t in
  if (real =? 0) || (virt =? -1) then real else s32 virt.

Lemma pid_list_loop_spec count i buf s :
  ready s -> 4 * Z.of_nat (i + count) <= Z.of_nat (length buf) ->
  returns (pid_list_real_to_virt_loop count i buf) s (fun buf' s' =>
    hframe s s' /\ length buf' = length buf /\
    forall j, entry j buf' = if decide (i <= j < i + count)%nat then seen (table (g_table s)) (entry j buf)
                             else entry j buf).
Proof.
  revert i buf s. induction count as [|count IH]; intros i buf s Hr Hl; cbn [pid_list_real_to_virt_loop].
  { apply returns_ret. split; [by apply hframe_refl|]. split; [done|].
    intros j. by rewrite decide_False by lia. }
  rewrite (proj2 (Z.leb_le _ _)) by lia. cbn [negb]. change (s32 (get_u32 (4 * i) buf)) with (entry i buf).
  assert (forall b1 s1, hframe s s1 -> length b1 = length buf ->
            entry i b1 = seen (table (g_table s)) (entry i buf) ->
            (forall j, j <> i -> entry j b1 = entry j buf) ->
            returns (pid_list_real_to_virt_loop count (S i) b1) s1 (fun buf' s' =>
    hframe s s' /\ length buf' = length buf /\
    forall j, entry j buf' = if decide (i <= j < i + S count)%nat then seen (table (g_table s)) (entry j buf)
                             else entry j buf)) as Hnext.
  { intros b1 s1 Hf Hlb Hsame Hother.
    eapply returns_weaken; [apply (IH (S i) b1 s1); [apply Hf|lia]|].
    intros buf' s' (Hf' & Hl' & He). split; [by eapply hframe_trans|]. split; [congruence|].
    rewrite (hf_table _ _ Hf) in He.
    intros j. rewrite He. destruct (decide (j = i)) as [->|Hne].
    - rewrite decide_False by lia. by rewrite decide_True by lia.
    - rewrite (Hother j Hne). apply decide_ext. lia. }
  destruct (Z.eqb_spec (entry i buf) 0) as [Hz|Hz].
  { apply Hnext; [by apply hframe_refl|done| |done]. unfold seen. by rewrite Hz. }
  apply returns_bind. eapply returns_weaken; [by apply real_to_virtual_pid_spec|].
  intros v s1 (Hf & Hknown & Hask).
  assert (v = if real_to_virtual (entry i buf) (table (g_table s)) =? -1 then answer (entry i buf)
              else real_to_virtual (entry i buf) (table (g_table s))) as Hv.
  { destruct (Z.eqb_spec (real_to_virtual (entry i buf) (table (g_table s))) (-1)) as [Hx|Hx].
    - specialize (Hask Hx). apply returns_inv in Hask as (r' & s3 & Hask & ->).
      specialize (answers (entry i buf) (put_table (VTable (table (g_table s)) true) s) (proj2 Hr)).
      unfold returns in answers. by rewrite Hask in answers.
    - by destruct (Hknown Hx) as [-> _]. }
  apply Hnext; [done| | |].
  - destruct (negb _); [rewrite set_u32_length|]; lia.
  - unfold seen. rewrite <- Hv, (proj2 (Z.eqb_neq _ _) Hz). cbn [orb].
    destruct (v =? -1); cbn [negb]; [done|]. apply entry_set_same. lia.
  - intros j Hj. destruct (negb _); [|done]. apply entry_set_other; [lia|done].
Qed.

(** What the list hooks do to the buffer: of the array the call filled,
    the entries before [ret / 4] become the pids the program sees (virtual
    where there is a mapping, else real), every later one stays real.  Where
    [ret] is a number of pids, as libproc's three list functions besides
    [proc_listpids] return it, three quarters of the list stay real. *)
Theorem pid_list_prefix (s : pstate K) (ret : Z) (buf : list Z) :
  ready s -> 0 < ret <= Z.of_nat (length buf) ->
  returns (pids_real_to_virt ret (Some buf)) s (fun out s' =>
    exists buf', out = Some buf' /\ length buf' = length buf /\ hframe s s' /\
    (forall i, Z.of_nat i < ret / 4 -> entry i buf' = seen (table (g_table s)) (entry i buf)) /\
    (forall i, ret / 4 <= Z.of_nat i -> entry i buf' = entry i buf)).
Proof.
  intros Hr Hret. unfold pids_real_to_virt. rewrite (proj2 (Z.ltb_lt _ _)) by lia.
  apply returns_bind. eapply returns_weaken.
  { apply (pid_list_loop_spec (Z.to_nat (Z.quot ret 4)) 0 buf s Hr).
    rewrite Z.quot_div_nonneg by lia. pose proof (Z.div_pos ret 4).
    cbn [plus]. Z.to_euclidean_division_equations. lia. }
  intros buf' s' (Hf & Hl & He). apply returns_ret. exists buf'.
  rewrite Z.quot_div_nonneg in He by lia. pose proof (Z.div_pos ret 4 ltac:(lia) ltac:(lia)).
  split; [done|]. split; [done|]. split; [done|].
  split; intros i Hi; rewrite He; [rewrite decide_True by lia|rewrite decide_False by lia]; done.
Qed.
End pid_lists.

(** ** A concrete kernel, for the witnesses

    One call of [wait4] reaps the child 4007 when there is one. *)
Definition child_status : Z := 9.
#[local] Instance test_hooks : HookOS bool := {
  wait4 _ _ k := if k then ((4007, child_status, None), false) else ((-1, 0, Some 10), false);
  kill _ _ k := ((0, None), k);
  killpg _ _ k := ((0, None), k);
  libproc f pid buf k := (((match buf with Some b => Z.of_nat (length b) | None => 0 end), buf, None), k);
}.
#[local] Instance test_pids : PidOS bool := {
  _real_getpid _ := 4003; _real_getppid _ := 4001; _real_getpgrp _ := 4003; _real_getpgid _ _ := 4003
}.
#[local] Instance test_time : TimeOS bool := {
  select_timeout _ k := ((0, None), k);
  clock_gettime k := (Timespec 0 0, k)
}.
#[local] Instance test_coord : CoordTranslate bool := {
  virt_to_real_pid_from_coord _ := mret (-1);
  real_to_virt_pid_from_coord _ := mret (-1);
  notify_coord_of_exit _ := mret tt
}.
#[local] Instance test_coord_ok : CoordTranslateOk bool.
Proof. split; intros r s Hs; by split. Defined.

Definition parent (child : bool) : pstate bool :=
  PState (Pids 3 4003 1 4001) (Ids 1003 1001 1003 [] 1 2 false) (Client 210 (-1) (-1) false)
    (VTable {[3 := 4003; 7 := 4007]} false) (Some (Thr ST_RUNNING 0)) (Lib XND_RUNNING true) 5
    (EnvState ∅ (-1)) child.

Lemma parent_self child : self_ok (g_self (parent child)).
Proof. right. exists ST_RUNNING, 0. split; [reflexivity|]. split; [split; vm_compute; congruence|by left]. Defined.



Lemma pid_hooks_balanced_witness :
  returns (__kill_hook 7 15) (parent true) (fun _ s' => hframe (parent true) s') /\
  returns (__getpgid_hook 7) (parent true) (fun _ s' => hframe (parent true) s') /\
  returns (libproc_hook (proc_name 64) 7 (Some [0; 0])) (parent true) (fun _ s' => hframe (parent true) s').
Proof.
  assert (libproc_bounded (K:=bool)) as Hb.
  { intros f pid b k ret b' e k' Heq. injection Heq as <- <- _ _. destruct b; [lia|done]. }
  destruct (pid_hooks_balanced (parent true) 7 15 (proc_name 64) (Some [0; 0]))
    as (_ & H2 & H3 & _ & H5); [split; reflexivity|apply parent_self|reflexivity|exact Hb|].
  split; [exact H3|]. split; [exact H2|exact H5].
Defined.

Lemma libproc_hook_translates_witness :
  libproc_hook (proc_pidpath 64) 7 (Some [0]) (parent true)
  = call (libproc (proc_pidpath 64) 4007 (Some [0])) (parent true).
Proof.
  apply (libproc_hook_translates (parent true) (proc_pidpath 64) 7 (Some [0]));
    [split; reflexivity|apply parent_self|split; [reflexivity|discriminate]|reflexivity|].
  vm_compute. congruence.
Defined.

Lemma libproc_hook_unknown_witness :
  returns (libproc_hook (proc_pidpath 64) 12 (Some [0])) (parent true) (fun r s' =>
    (r = (0, Some [0]) \/ r = (-1, Some [0])) /\ g_errno s' = ESRCH /\
    g_self s' = g_self (parent true) /\ ready s').
Proof.
  apply (libproc_hook_unknown (parent true) (proc_pidpath 64) 12 (Some [0]));
    [split; reflexivity|apply parent_self|split; [reflexivity|discriminate]|reflexivity|reflexivity|].
  intros s1. reflexivity.
Defined.

Lemma wait4_hook_leaks_witness :
  returns (__wait4_hook 1 (-1) 0) (parent false) (fun r s' =>
    r = (-1, 0) /\ g_self s' = Some (Thr ST_UNSAFE 1) /\
    returns unsafe_enter s' (fun _ s2 => returns unsafe_exit s2 (fun _ s3 => g_self s3 = Some (Thr ST_UNSAFE 1)))).
Proof.
  apply (wait4_hook_leaks (parent false) 0 0 0 (Some 10) false); [split; reflexivity|reflexivity|reflexivity].
Defined.

Lemma wait4_hook_reaps_witness :
  returns (__wait4_hook 1 (-1) 0) (parent true) (fun r s' =>
    r = (7, 9) /\ table (g_table s') = erase 7 (table (g_table (parent true))) /\
    g_errno s' = 5 /\ g_self s' = g_self (parent true) /\ ready s').
Proof.
  apply (wait4_hook_reaps (parent true) 0 0 4007 9 None false 7);
    [split; reflexivity|apply parent_self|reflexivity|lia|lia|reflexivity|lia|lia|reflexivity].
Defined.

Lemma pid_list_prefix_witness :
  returns (pids_real_to_virt 4 (Some (le_bytes 4 4007 ++ le_bytes 4 4003 ++ le_bytes 4 4007 ++ le_bytes 4 4003)))
    (parent true) (fun out s' => exists buf', out = Some buf' /\ length buf' = 16%nat /\ hframe (parent true) s' /\
    (forall i, Z.of_nat i < 1 -> entry i buf' = seen (fun _ => -1) {[3 := 4003; 7 := 4007]}
       (entry i (le_bytes 4 4007 ++ le_bytes 4 4003 ++ le_bytes 4 4007 ++ le_bytes 4 4003))) /\
    (forall i, 1 <= Z.of_nat i -> entry i buf'
       = entry i (le_bytes 4 4007 ++ le_bytes 4 4003 ++ le_bytes 4 4007 ++ le_bytes 4 4003))).
Proof.
  apply (pid_list_prefix (K:=bool) (fun _ => -1)) with (s := parent true) (ret := 4);
    [intros r s Hs; reflexivity|split; reflexivity|].
  split; vm_compute; congruence.
Defined.

(** Four pids, reported as the count 4: only the first is translated. *)
Example pid_list_quarter :
  match pids_real_to_virt 4 (Some (le_bytes 4 4007 ++ le_bytes 4 4003 ++ le_bytes 4 4007 ++ le_bytes 4 4003)) (parent true) with
  | Ret (Some b) _ => map (fun i => entry i b) [0; 1; 2; 3]%nat = [7; 4003; 4007; 4003]
  | _ => False
  end.
Proof. vm_compute. reflexivity. Qed.
