(* ===== verification/CoordClient.v ===== *)
(** The client side of the coordinator's protocol:
    [xnd/coordinator/xnd_coord_client.c], and [connect_to_coord] and
    [send_command_to_coord] of [xnd/coordinator/xnd_coord_api.c].

    The sockets are a parameter.  [stack_msg] is what an uninitialized message
    holds.  The last section shows that the client keeps the promise
    [CoordTranslate] makes to the pid table and the pid hooks. *)

From S2P Require Import Prelude Cstr Env Bytes Io CoordMsg Process PidTable CoordProps.
Open Scope Z_scope.

Definition XND_COORD_FD : Z := 210.
Definition ENOENT : Z := 2.
Definition ECONNREFUSED : Z := 61.

Class ClientOS (K : Type) := {
  (** [socket]: a descriptor or -1 *)
  k_socket : K -> Z * K;
  (** [connect] to the coordinator's path, [fcntl(F_SETFD)], [shutdown]: 0 or
      an errno *)
  k_connect : Z -> K -> Z * K;
  k_cloexec : Z -> K -> Z * K;
  k_shutdown : Z -> K -> Z * K;
  (** [usleep] and [nanosleep] *)
  k_sleep : Z -> K -> K;
}.

Section client.
Context {K : Type} `{IoSys K, FdSys K, ClientOS K, PidOS K}.
Context (stack_msg : xnd_msg).

Definition k_op {A} (f : K -> A * K) : M (pstate K) A := on_k (fun k => let '(a, k) := f k in Ret a k).
Definition k_close (fd : Z) : M (pstate K) unit := on_k (fun k => Ret tt (fd_close fd k)).
Definition k_pause (usec : Z) : M (pstate K) unit := on_k (fun k => Ret tt (k_sleep usec k)).

(** ** Connecting *)

(** The do-while over [connect]: up to a hundred retries, so [fuel] 101 is
    never exhausted.  The result is [err]. *)
Fixpoint connect_loop (fuel : nat) (fd tries : Z) : M (pstate K) Z :=
  match fuel with
  | O => nofuel
  | S fuel =>
    err ← k_op (k_connect fd);
    if err =? 0 then mret 0 else
    let retry := (err =? ENOENT) || (err =? ECONNREFUSED) in
    if retry && (tries <? 100) then k_pause 200;; connect_loop fuel fd (tries + 1)
    else mret (-1)
  end.

Definition connect_to_coord : M (pstate K) Z :=
  fd ← k_op k_socket;
  if fd <? 0 then mret (-1) else
  err ← connect_loop 101 fd 0;
  err ← (if err =? 0 then k_op (k_cloexec fd) else mret err);
  if negb (err =? 0) then k_close fd;; mret (-1) else mret fd.

Definition send_msg (fd : Z) (msg : xnd_msg) : M (pstate K) Z := on_k (send_msg_to_coord fd msg).
Definition recv_msg (fd : Z) : M (pstate K) (option xnd_msg) := on_k (recv_msg_from_coord fd).

Definition send_command_to_coord (cmd : xnd_cmd) : M (pstate K) Z :=
  let msg := with_cmd (cmd_code cmd) (with_hdr (hdr_code XND_COMMAND) stack_msg) in
  fd ← connect_to_coord;
  if fd <? 0 then mret (-1) else
  err ← send_msg fd msg;
  err ← (if negb (err =? 0) then mret err else
         resp ← recv_msg fd;
         mret (match resp with
               | None => -1
               | Some msg =>
                 if negb (m_hdr msg =? hdr_code XND_COORD_ACK) || negb (m_ret msg =? XND_SUCCESS) then -1 else 0
               end));
  k_close fd;;
  mret err.

(** ** The client's globals *)

Definition set_client (f : client -> client) : M (pstate K) unit :=
  modify (fun s => put_client (f (g_client s)) s).
Definition set_coord_fd (fd : Z) (c : client) : client := Client fd (child_coord_fd c) (oob_fd c) (oob_locked c).
Definition set_child_fd (fd : Z) (c : client) : client := Client (coord_fd c) fd (oob_fd c) (oob_locked c).
Definition set_oob_fd (fd : Z) (c : client) : client := Client (coord_fd c) (child_coord_fd c) fd (oob_locked c).
Definition set_oob_lock (b : bool) (c : client) : client := Client (coord_fd c) (child_coord_fd c) (oob_fd c) b.

(** Locking [oob_mutex] when it is held deadlocks. *)
Definition oob_lock : M (pstate K) unit :=
  c ← gets g_client; if oob_locked c then nofuel else set_client (set_oob_lock true).
Definition oob_unlock : M (pstate K) unit := set_client (set_oob_lock false).

(** ** Registration *)

Definition handshake_msg (hdr : xnd_msghdr) (s : pstate K) : M (pstate K) xnd_msg :=
  let msg := with_pids (_real_getpid (g_k s)) (_real_getppid (g_k s)) 0 0
               (with_hdr (hdr_code hdr) msg_zero) in
  match hdr with
  | XND_CONNECT_RESTART =>
    interval ← on_env env_get_ckpt_interval;
    let i := g_ids s in
    mret (with_restart interval (epoch i) (num_peers i)
           (with_ids (xnd_uuid i) (xnd_pid i) (xnd_ppid i) (xnd_pgid i)
           (with_pids (m_real_pid msg) (m_real_ppid msg) (virt_pid (g_pids s)) (virt_ppid (g_pids s)) msg)))
  | _ => mret msg
  end.

Definition send_recv_coord_handshake (hdr : xnd_msghdr) : M (pstate K) unit :=
  s ← get;
  msg ← handshake_msg hdr s;
  c ← gets g_client;
  err ← send_msg (coord_fd c) msg;
  if negb (err =? 0) then abort else
  resp ← recv_msg (coord_fd c);
  match resp with
  | None => abort
  | Some msg =>
    if negb (m_hdr msg =? hdr_code XND_COORD_ACK) || negb (m_ret msg =? XND_SUCCESS) then abort else
    match hdr with
    | XND_CONNECT_LAUNCH | XND_ATFORK_CHILD =>
      p ← gets g_pids; i ← gets g_ids;
      modify (put_pids (Pids (m_virt_pid msg) (real_pid p) (m_virt_ppid msg) (real_ppid p)));;
      modify (put_ids (Ids (m_xnd_pid msg) (m_xnd_ppid msg) (m_xnd_pgid msg) (m_xnd_uuid msg)
                           (epoch i) (num_peers i) (is_root_of_tree i)))
    | _ => mret tt
    end
  end.

Definition move_to_coord_fd (fd : Z) : M (pstate K) unit :=
  fd ← on_k (xnd_fd_change fd XND_COORD_FD);
  set_client (set_coord_fd fd);;
  xnd_assert (fd =? XND_COORD_FD).

Definition connect_to_coord_on_launch : M (pstate K) unit :=
  fd ← connect_to_coord;
  if fd <? 0 then abort else
  move_to_coord_fd fd;;
  send_recv_coord_handshake XND_CONNECT_LAUNCH.

Definition connect_to_coord_on_restart : M (pstate K) unit :=
  fd ← connect_to_coord;
  if fd <? 0 then abort else
  move_to_coord_fd fd;;
  send_recv_coord_handshake XND_CONNECT_RESTART;;
  set_client (set_oob_fd (-1)).

(** ** The out-of-band connection *)

(** [if (oob_fd == -1) { connect; msg.xnd_pid = xnd_pid }]: the message to
    send, or [None] when connecting fails. *)
Definition oob_connect (msg : xnd_msg) : M (pstate K) (option xnd_msg) :=
  c ← gets g_client;
  if oob_fd c =? -1 then
    fd ← connect_to_coord;
    set_client (set_oob_fd fd);;
    if fd <? 0 then mret None else i ← gets g_ids; mret (Some (with_xnd_pid (xnd_pid i) msg))
  else mret (Some msg).

Definition notify_coord_of_exit (pid : Z) : M (pstate K) unit :=
  let msg := with_real_pid pid (with_hdr (hdr_code XND_EXIT) msg_zero) in
  oob_lock;;
  msg ← oob_connect msg;
  match msg with
  | None => oob_unlock
  | Some msg => c ← gets g_client; send_msg (oob_fd c) msg;; oob_unlock
  end.

(** Both translation functions: [answer] reads the pid from the reply. *)
Definition oob_translate (msg : xnd_msg) (answer : xnd_msg -> Z) : M (pstate K) Z :=
  oob_lock;;
  msg ← oob_connect msg;
  r ← match msg with
      | None => mret (-1)
      | Some msg =>
        c ← gets g_client;
        err ← send_msg (oob_fd c) msg;
        if negb (err =? 0) then mret (-1) else
        resp ← recv_msg (oob_fd c);
        mret (match resp with
              | None => -1
              | Some resp =>
                if negb (m_hdr resp =? hdr_code XND_COORD_ACK) then -1
                else if negb (m_ret resp =? XND_SUCCESS) then -1 else answer resp
              end)
      end;
  oob_unlock;;
  mret r.

Definition virt_to_real_pid_from_coord (virt : Z) : M (pstate K) Z :=
  oob_translate (with_virt_pid virt (with_hdr (hdr_code XND_VIRT_TO_REAL) stack_msg)) m_real_pid.
Definition real_to_virt_pid_from_coord (real : Z) : M (pstate K) Z :=
  oob_translate (with_real_pid real (with_hdr (hdr_code XND_REAL_TO_VIRT) stack_msg)) m_virt_pid.

(** ** Exit and fork *)

Definition disconnect_from_coord : M (pstate K) unit :=
  s ← get;
  let msg := with_real_pid (real_pid (g_pids s)) (with_hdr (hdr_code XND_EXIT) msg_zero) in
  xnd_assert (real_pid (g_pids s) =? _real_getpid (g_k s));;
  let c := g_client s in
  send_msg (coord_fd c) msg;;
  send_msg (coord_fd c) msg;;
  err ← k_op (k_shutdown (coord_fd c));
  xnd_assert (err =? 0);;
  set_client (set_coord_fd (-1));;
  k_close (coord_fd c);;
  if negb (oob_fd c =? -1) then set_client (set_oob_fd (-1));; k_close (oob_fd c) else mret tt.

Definition coord_client_atfork_prepare : M (pstate K) unit :=
  oob_lock;;
  s ← get;
  let msg := with_ids (m_xnd_uuid stack_msg) (m_xnd_pid stack_msg) (xnd_pid (g_ids s)) (xnd_pgid (g_ids s))
    (with_pids (m_real_pid stack_msg) (m_real_ppid stack_msg) (m_virt_pid stack_msg) (virt_pid (g_pids s))
    (with_hdr (hdr_code XND_ATFORK_PREPARE) stack_msg)) in
  fd ← connect_to_coord;
  set_client (set_child_fd fd);;
  if fd <? 0 then abort else
  err ← send_msg fd msg;
  if negb (err =? 0) then abort else
  resp ← recv_msg fd;
  match resp with
  | None => abort
  | Some msg =>
    if negb (m_hdr msg =? hdr_code XND_COORD_ACK) || negb (m_ret msg =? XND_SUCCESS) then abort else
    on_env (env_set_pid_info (m_virt_pid msg) (-1) (-1) (-1))
  end.

Definition coord_client_atfork_child : M (pstate K) unit :=
  oob_unlock;;
  c ← gets g_client;
  move_to_coord_fd (child_coord_fd c);;
  send_recv_coord_handshake XND_ATFORK_CHILD;;
  c ← gets g_client;
  if negb (oob_fd c =? -1) then k_close (oob_fd c);; set_client (set_oob_fd (-1)) else mret tt.

Definition coord_client_atfork_parent : M (pstate K) unit :=
  oob_unlock;; c ← gets g_client; k_close (child_coord_fd c).
Definition coord_client_atfork_failed : M (pstate K) unit :=
  oob_unlock;; c ← gets g_client; k_close (child_coord_fd c).

(** ** Checkpoints *)

Definition wait_for_ckpt_request_from_coord : M (pstate K) Z :=
  c ← gets g_client;
  msg ← recv_msg (coord_fd c);
  match msg with
  | None => c ← gets g_client; if coord_fd c =? -1 then k_pause 1000;; mret (-1) else mret (-1)
  | Some msg => mret (if negb (m_hdr msg =? hdr_code XND_CKPT_REQUEST) then -1 else 0)
  end.

Definition enter_coord_barrier (type : coord_barrier_type) : M (pstate K) unit :=
  c ← gets g_client;
  let announce hdr :=
    err ← send_msg (coord_fd c) (with_hdr (hdr_code hdr) stack_msg);
    if negb (err =? 0) then abort else mret tt in
  expected ← match type with
             | COORD_BARRIER_PRECKPT => announce XND_CKPT_READY;; mret XND_CKPT_START
             | COORD_BARRIER_POSTCKPT => announce XND_CKPT_DONE;; mret XND_RESUME_AFTER_CKPT
             | COORD_BARRIER_POSTRESTART => mret XND_RESUME_AFTER_RESTART
             end;
  msg ← recv_msg (coord_fd c);
  match msg with
  | None => abort
  | Some msg =>
    if negb (m_hdr msg =? hdr_code expected) then abort else
    if bool_decide (type = COORD_BARRIER_PRECKPT) then
      i ← gets g_ids;
      modify (put_ids (Ids (xnd_pid i) (xnd_ppid i) (xnd_pgid i) (xnd_uuid i) (epoch i)
                           (m_num_peers msg) (negb (m_is_root_of_tree msg =? 0))))
    else mret tt
  end.
End client.

(** ** Properties *)

Section properties.
Context {K : Type} `{!IoSys K, !IoTotal K, !FdSys K, !ClientOS K, !PidOS K}.
Context (stack_msg : xnd_msg).
Implicit Types s : pstate K.

(** Nothing but the kernel and the client's descriptors has changed. *)
Record client_only s s' : Prop := {
  co_pids : g_pids s' = g_pids s;
  co_ids : g_ids s' = g_ids s;
  co_table : g_table s' = g_table s;
  co_self : g_self s' = g_self s;
  co_lib : g_lib s' = g_lib s;
  co_env : g_env s' = g_env s;
  co_coord : coord_fd (g_client s') = coord_fd (g_client s);
  co_lock : oob_locked (g_client s') = oob_locked (g_client s)
}.
Lemma client_only_refl s : client_only s s.
Proof. by split. Qed.
Lemma client_only_trans s1 s2 s3 : client_only s1 s2 -> client_only s2 s3 -> client_only s1 s3.
Proof. intros [] []. split; congruence. Qed.

Definition quiet {A} (m : M (pstate K) A) : Prop := forall s, returns m s (fun _ s' => client_only s s').

Lemma quiet_ret {A} (a : A) : quiet (mret a).
Proof. intros s. apply client_only_refl. Qed.
Lemma quiet_gets {A} (f : pstate K -> A) : quiet (gets f).
Proof. intros s. apply client_only_refl. Qed.
Lemma quiet_bind {A B} (m : M (pstate K) A) (k : A -> M (pstate K) B) :
  quiet m -> (forall a, quiet (k a)) -> quiet (m ≫= k).
Proof.
  intros Hm Hk s. apply returns_bind. eapply returns_weaken; [apply Hm|]. intros a s1 H1.
  eapply returns_weaken; [apply Hk|]. intros b s2 H2. exact (client_only_trans _ _ _ H1 H2).
Qed.
Lemma quiet_op {A} (f : K -> A * K) : quiet (k_op f).
Proof. intros s. unfold returns, k_op, on_k. by destruct (f (g_k s)). Qed.
Lemma quiet_close fd : quiet (k_close fd).
Proof. by intros s. Qed.
Lemma quiet_pause t : quiet (k_pause t).
Proof. by intros s. Qed.
Lemma quiet_oob_fd fd : quiet (set_client (K:=K) (set_oob_fd fd)).
Proof. by intros s. Qed.
Lemma quiet_send fd msg : quiet (send_msg fd msg).
Proof.
  intros s. unfold send_msg, send_msg_to_coord. apply on_k_returns.
  destruct (fd =? -1); [by apply returns_ret|]. eapply returns_weaken; [apply send_total|]. by intros.
Qed.
(** The same of a computation that reads: unless a read waits for ever. *)
Definition patient {A} (m : M (pstate K) A) : Prop := forall s, answered m s (fun _ s' => client_only s s').
Lemma quiet_patient {A} (m : M (pstate K) A) : quiet m -> patient m.
Proof using Type. intros Hm s. apply returns_answered, Hm. Qed.
Lemma patient_bind {A B} (m : M (pstate K) A) (k : A -> M (pstate K) B) :
  patient m -> (forall a, patient (k a)) -> patient (m ≫= k).
Proof using Type.
  intros Hm Hk s. apply answered_bind. eapply answered_weaken; [apply Hm|]. intros a s1 H1.
  eapply answered_weaken; [apply Hk|]. intros b s2 H2. exact (client_only_trans _ _ _ H1 H2).
Qed.
Lemma patient_recv fd : patient (recv_msg fd).
Proof.
  intros s. unfold answered, recv_msg, recv_msg_from_coord, on_k. destruct (fd =? -1); [by split|].
  pose proof (recv_answered fd (g_k s)) as Hr. unfold answered in Hr. by destruct (coord_recv_msg fd (g_k s)).
Qed.

Lemma quiet_connect_loop fuel fd tries :
  101 <= Z.of_nat fuel + tries -> 0 <= tries <= 100 -> quiet (connect_loop fuel fd tries).
Proof.
  revert tries. induction fuel as [|fuel IH]; intros tries Hf Ht; [lia|]. cbn [connect_loop].
  apply quiet_bind; [apply quiet_op|]. intros err. destruct (err =? 0); [apply quiet_ret|].
  destruct (_ && (tries <? 100)) eqn:E; [|apply quiet_ret].
  apply andb_true_iff in E as [_ E]. apply Z.ltb_lt in E.
  apply quiet_bind; [apply quiet_pause|]. intros _. apply IH; lia.
Qed.

Lemma quiet_connect : quiet connect_to_coord.
Proof.
  unfold connect_to_coord. apply quiet_bind; [apply quiet_op|]. intros fd.
  destruct (fd <? 0); [apply quiet_ret|].
  apply quiet_bind; [apply quiet_connect_loop; lia|]. intros err.
  apply quiet_bind; [destruct (err =? 0); [apply quiet_op|apply quiet_ret]|]. intros err'.
  destruct (negb _); [apply quiet_bind; [apply quiet_close|intros _; apply quiet_ret]|apply quiet_ret].
Qed.

Lemma quiet_oob_connect msg : quiet (oob_connect msg).
Proof.
  unfold oob_connect. apply quiet_bind; [apply quiet_gets|]. intros c.
  destruct (oob_fd c =? -1); [|apply quiet_ret].
  apply quiet_bind; [apply quiet_connect|]. intros fd.
  apply quiet_bind; [apply quiet_oob_fd|]. intros _.
  destruct (fd <? 0); [apply quiet_ret|]. apply quiet_bind; [apply quiet_gets|intros i; apply quiet_ret].
Qed.

(** A computation between [oob_lock] and [oob_unlock]. *)
Lemma oob_lock_free s : oob_locked (g_client s) = false ->
  oob_lock s = Ret tt (put_client (set_oob_lock true (g_client s)) s).
Proof using Type. intros Hl. unfold oob_lock. mrun. by rewrite Hl. Qed.
Lemma locked_section {A} (m : M (pstate K) A) s :
  patient m -> oob_locked (g_client s) = false ->
  answered (oob_lock;; a ← m; oob_unlock;; mret a) s (fun _ s' => client_frame s s').
Proof using Type.
  intros Hm Hl. apply answered_bind. unfold answered at 1. rewrite oob_lock_free by done.
  apply answered_bind. eapply answered_weaken; [apply Hm|]. intros a s1 []. by split.
Qed.

Lemma locked_section2 {A B} (m : M (pstate K) A) (k : A -> M (pstate K) B) s :
  patient m -> (forall a, patient (k a)) -> oob_locked (g_client s) = false ->
  answered (oob_lock;; a ← m; b ← k a; oob_unlock;; mret b) s (fun _ s' => client_frame s s').
Proof using Type.
  intros Hm Hk Hl. pose proof (locked_section (m ≫= k) s (patient_bind m k Hm Hk) Hl) as Hx.
  unfold answered in *. unfold mbind at 1, M_bind at 1. unfold mbind at 1, M_bind at 1 in Hx.
  destruct (oob_lock s); try done. by rewrite bind_assoc in Hx.
Qed.

Lemma oob_translate_ok msg answer s : oob_locked (g_client s) = false ->
  answered (oob_translate msg answer) s (fun _ s' => client_frame s s').
Proof.
  intros Hl. unfold oob_translate. apply locked_section2; [apply quiet_patient, quiet_oob_connect| |done].
  intros [m|]; [|apply quiet_patient, quiet_ret]. apply patient_bind; [apply quiet_patient, quiet_gets|]. intros c.
  apply patient_bind; [apply quiet_patient, quiet_send|]. intros err. destruct (negb _); [apply quiet_patient, quiet_ret|].
  apply patient_bind; [apply patient_recv|intros r; apply quiet_patient, quiet_ret].
Qed.

Lemma notify_coord_of_exit_ok pid s : oob_locked (g_client s) = false ->
  returns (notify_coord_of_exit pid) s (fun _ s' => client_frame s s').
Proof.
  intros Hl. unfold notify_coord_of_exit. eapply returns_step; [by apply oob_lock_free|].
  apply returns_bind. eapply returns_weaken; [apply quiet_oob_connect|]. intros [m|] s1 [].
  - eapply returns_step; [done|]. apply returns_bind. eapply returns_weaken; [apply quiet_send|].
    intros r s2 []. unfold returns, oob_unlock, set_client, modify. split; cbn in *; congruence.
  - unfold returns, oob_unlock, set_client, modify. split; cbn in *; congruence.
Qed.

(** The client as an implementation of the interface. *)
Definition client_translate : CoordTranslate K := {|
  PidTable.virt_to_real_pid_from_coord := virt_to_real_pid_from_coord stack_msg;
  PidTable.real_to_virt_pid_from_coord := real_to_virt_pid_from_coord stack_msg;
  PidTable.notify_coord_of_exit := notify_coord_of_exit
|}.

Lemma client_translate_ok `{!IoAnswers K} : @CoordTranslateOk K client_translate.
Proof.
  split; intros p s Hs; cbn.
  - by apply answered_returns, oob_translate_ok.
  - by apply answered_returns, oob_translate_ok.
  - by apply notify_coord_of_exit_ok.
Qed.

(** C37. The client keeps the promise the pid table and the pid hooks rely on:
    called with its mutex free, an exit notice returns, and a translation
    returns unless a read waits for ever (a coordinator that has taken the
    request and neither answers nor closes the connection), whether or not the
    coordinator can be reached and whatever it answers; they change nothing but
    the client's descriptors and the kernel, and leave the mutex free.
    Connecting retries at most a hundred times. *)
Theorem client_keeps_promise (pid : Z) (s : pstate K) :
  oob_locked (g_client s) = false ->
  answered (virt_to_real_pid_from_coord stack_msg pid) s (fun _ s' => client_frame s s') /\
  answered (real_to_virt_pid_from_coord stack_msg pid) s (fun _ s' => client_frame s s') /\
  returns (notify_coord_of_exit pid) s (fun _ s' => client_frame s s').
Proof.
  intros Hs. split; [by apply oob_translate_ok|]. split; [by apply oob_translate_ok|].
  by apply notify_coord_of_exit_ok.
Qed.

(** A coordinator that takes the request and says nothing: the translation does
    not return, and it is the holder of the client's mutex that waits. *)
Lemma silent_coordinator_holds (virt : Z) (s : pstate K) (k1 : K) :
  oob_locked (g_client s) = false -> oob_fd (g_client s) <> -1 ->
  coord_send_msg (oob_fd (g_client s)) (with_virt_pid virt (with_hdr (hdr_code XND_VIRT_TO_REAL) stack_msg)) (g_k s)
    = Ret 0 k1 ->
  read_waits (oob_fd (g_client s)) sizeof_msg k1 = true ->
  virt_to_real_pid_from_coord stack_msg virt s = NoFuel.
Proof using Type.
  intros Hl Hfd Hsend Hw. apply Z.eqb_neq in Hfd. unfold virt_to_real_pid_from_coord, oob_translate.
  rewrite (bind_ret _ _ _ _ _ (oob_lock_free s Hl)). set (s1 := put_client (set_oob_lock true (g_client s)) s).
  set (m := with_virt_pid virt (with_hdr (hdr_code XND_VIRT_TO_REAL) stack_msg)) in *.
  assert (oob_connect m s1 = Ret (Some m) s1) as H2 by (unfold oob_connect; mrun; by rewrite Hfd).
  rewrite (bind_ret _ _ _ _ _ H2). unfold mbind at 1, M_bind at 1.
  rewrite (bind_ret _ _ _ (g_client s1) s1) by done. cbn [oob_fd g_client s1 put_client set_oob_lock].
  assert (send_msg (oob_fd (g_client s)) m s1 = Ret 0 (put_k k1 s1)) as H3.
  { unfold send_msg, on_k, send_msg_to_coord. rewrite Hfd. change (g_k s1) with (g_k s). by rewrite Hsend. }
  rewrite (bind_ret _ _ _ _ _ H3). cbn [Z.eqb negb].
  assert (coord_recv_msg (oob_fd (g_client s)) k1 = NoFuel) as Hr.
  { unfold coord_recv_msg, readall, mbind, M_bind. cbn [readall_loop length]. unfold read_call.
    change (Z.of_nat 0) with 0. rewrite Z.sub_0_r. by rewrite Hw. }
  unfold recv_msg, recv_msg_from_coord. rewrite Hfd. unfold on_k, mbind, M_bind. cbn [g_k put_k]. by rewrite Hr.
Qed.

(** On an open out-of-band connection a translation is one request and one
    reply: the result is the pid of a successful acknowledgement, and -1 for
    any other reply or none. *)
Theorem translation_result (virt : Z) (s : pstate K) (k1 k2 : K) (resp : option xnd_msg) :
  oob_locked (g_client s) = false -> oob_fd (g_client s) <> -1 ->
  coord_send_msg (oob_fd (g_client s)) (with_virt_pid virt (with_hdr (hdr_code XND_VIRT_TO_REAL) stack_msg)) (g_k s)
    = Ret 0 k1 ->
  coord_recv_msg (oob_fd (g_client s)) k1 = Ret resp k2 ->
  virt_to_real_pid_from_coord stack_msg virt s = Ret
    (match resp with
     | Some m => if (m_hdr m =? hdr_code XND_COORD_ACK) && (m_ret m =? XND_SUCCESS) then m_real_pid m else -1
     | None => -1
     end) (put_k k2 s).
Proof.
  intros Hl Hfd Hsend Hrecv. unfold virt_to_real_pid_from_coord, oob_translate.
  set (s1 := put_client (set_oob_lock true (g_client s)) s).
  assert (oob_lock s = Ret tt s1) as H1 by (unfold oob_lock; mrun; by rewrite Hl).
  rewrite (bind_ret _ _ _ _ _ H1).
  set (m := with_virt_pid virt (with_hdr (hdr_code XND_VIRT_TO_REAL) stack_msg)) in *.
  assert (oob_connect m s1 = Ret (Some m) s1) as H2.
  { unfold oob_connect. mrun. by rewrite (proj2 (Z.eqb_neq _ _) Hfd). }
  rewrite (bind_ret _ _ _ _ _ H2). unfold mbind at 1, M_bind at 1.
  rewrite (bind_ret _ _ _ (g_client s1) s1) by done. cbn [oob_fd g_client s1 put_client set_oob_lock].
  assert (send_msg (oob_fd (g_client s)) m s1 = Ret 0 (put_k k1 s1)) as H3.
  { unfold send_msg, on_k, send_msg_to_coord. rewrite (proj2 (Z.eqb_neq _ _) Hfd).
    change (g_k s1) with (g_k s). by rewrite Hsend. }
  rewrite (bind_ret _ _ _ _ _ H3). cbn [Z.eqb negb].
  assert (recv_msg (oob_fd (g_client s)) (put_k k1 s1) = Ret resp (put_k k2 s1)) as H4.
  { unfold recv_msg, on_k, recv_msg_from_coord. rewrite (proj2 (Z.eqb_neq _ _) Hfd).
    change (g_k (put_k k1 s1)) with k1. by rewrite Hrecv. }
  rewrite (bind_ret _ _ _ _ _ H4). unfold mret at 1, M_ret at 1.
  assert (forall r, (oob_unlock ≫= fun _ => mret r) (put_k k2 s1) = Ret (r : Z) (put_k k2 s)) as Hun.
  { intros r. unfold oob_unlock, set_client. mrun. destruct s as [? ? [? ? ? ?] ? ? ? ? ? ?]. cbn in *. by subst. }
  rewrite Hun. f_equal. destruct resp as [r|]; [|done].
  destruct (m_hdr r =? hdr_code XND_COORD_ACK), (m_ret r =? XND_SUCCESS); reflexivity.
Qed.

(** What a process announces at a barrier, and the message it waits for. *)
Definition barrier_announce (type : coord_barrier_type) : option xnd_msghdr :=
  match type with
  | COORD_BARRIER_PRECKPT => Some XND_CKPT_READY
  | COORD_BARRIER_POSTCKPT => Some XND_CKPT_DONE
  | COORD_BARRIER_POSTRESTART => None
  end.

Definition barrier_release (type : coord_barrier_type) : xnd_msghdr :=
  match type with
  | COORD_BARRIER_PRECKPT => XND_CKPT_START
  | COORD_BARRIER_POSTCKPT => XND_RESUME_AFTER_CKPT
  | COORD_BARRIER_POSTRESTART => XND_RESUME_AFTER_RESTART
  end.

(** The state of a process past the barrier: after the pre-checkpoint barrier it
    knows its number of peers and whether it is the root of its tree. *)
Definition barrier_passed (type : coord_barrier_type) (msg : xnd_msg) (s : pstate K) : pstate K :=
  match type with
  | COORD_BARRIER_PRECKPT =>
      let i := g_ids s in
      put_ids (Ids (xnd_pid i) (xnd_ppid i) (xnd_pgid i) (xnd_uuid i) (epoch i)
                   (m_num_peers msg) (negb (m_is_root_of_tree msg =? 0))) s
  | _ => s
  end.

(** A process leaves a coordinator barrier exactly on that barrier's release.
    It announces itself (before a checkpoint that it is ready, after it that it
    is done, after a restart not at all) and takes one message; the release
    lets it through, with the number of peers and the root flag of that message
    before a checkpoint, and anything else, the end of the stream included,
    aborts the process. *)
Theorem barrier_left_on_release (type : coord_barrier_type) (s : pstate K) (k1 k2 : K) (resp : option xnd_msg) :
  coord_fd (g_client s) <> -1 ->
  match barrier_announce type with
  | Some h => coord_send_msg (coord_fd (g_client s)) (with_hdr (hdr_code h) stack_msg) (g_k s) = Ret 0 k1
  | None => k1 = g_k s
  end ->
  coord_recv_msg (coord_fd (g_client s)) k1 = Ret resp k2 ->
  enter_coord_barrier stack_msg type s =
    match resp with
    | Some msg =>
        if m_hdr msg =? hdr_code (barrier_release type) then Ret tt (barrier_passed type msg (put_k k2 s)) else Abort (put_k k2 s)
    | None => Abort (put_k k2 s)
    end.
Proof.
  intros Hfd Hann Hrecv. apply Z.eqb_neq in Hfd.
  assert (forall h, coord_send_msg (coord_fd (g_client s)) (with_hdr (hdr_code h) stack_msg) (g_k s) = Ret 0 k1 ->
    (err ← send_msg (coord_fd (g_client s)) (with_hdr (hdr_code h) stack_msg);
     if negb (err =? 0) then abort else mret tt) s = Ret tt (put_k k1 s)) as Hsend.
  { intros h Hh. unfold send_msg, send_msg_to_coord, on_k, mbind, M_bind. rewrite Hfd, Hh. done. }
  assert (recv_msg (coord_fd (g_client s)) (put_k k1 s) = Ret resp (put_k k2 s)) as Hr.
  { unfold recv_msg, on_k, recv_msg_from_coord. rewrite Hfd. cbn [g_k put_k]. by rewrite Hrecv. }
  unfold enter_coord_barrier. rewrite (bind_ret _ _ _ (g_client s) s) by done.
  rewrite (bind_ret _ _ _ (barrier_release type) (put_k k1 s)).
  2:{ destruct type; cbn [barrier_announce] in Hann.
      - by rewrite (bind_ret _ _ _ _ _ (Hsend _ Hann)).
      - by rewrite (bind_ret _ _ _ _ _ (Hsend _ Hann)).
      - subst k1. by destruct s. }
  rewrite (bind_ret _ _ _ _ _ Hr). destruct resp as [msg|]; [|done].
  destruct (m_hdr msg =? hdr_code (barrier_release type)); [cbn [negb]|done].
  by destruct type.
Qed.
End properties.

(** ** A concrete kernel, for the witnesses: the bytes to be read, and whether
    the coordinator accepts connections. *)
Record wire := Wire { wire_in : list Z; wire_up : bool }.
#[local] Instance wire_io : IoSys wire := {
  sys_write _ buf k := (Z.of_nat (length buf), k);
  sys_read _ n k := (Some (take (Z.to_nat n) (wire_in k)), Wire (drop (Z.to_nat n) (wire_in k)) (wire_up k));
  read_waits _ _ _ := false
}.
#[local] Instance wire_total : IoTotal wire.
Proof.
  split.
  - intros fd buf k. right. cbn. split; [lia|]. destruct buf; [done|cbn; lia].
  - intros fd n k Hn. cbn. rewrite length_take. lia.
Qed.
#[local] Instance wire_fd : FdSys wire := {
  fd_getfl _ k := (0, k); fd_dup2 _ new k := (new, k); fd_close _ k := k;
}.
#[local] Instance wire_client : ClientOS wire := {
  k_socket k := (7, k);
  k_connect _ k := ((if wire_up k then 0 else ENOENT), k);
  k_cloexec _ k := (0, k);
  k_shutdown _ k := (0, k);
  k_sleep _ k := k;
}.
#[local] Instance wire_pids : PidOS wire := {
  _real_getpid _ := 4003; _real_getppid _ := 4001; _real_getpgrp _ := 4003; _real_getpgid _ _ := 4003
}.

Definition client_state (oob : Z) (k : wire) : pstate wire :=
  PState (Pids 3 4003 1 4001) (Ids 1003 1001 1003 (replicate 16 0) 1 2 false) (Client 210 (-1) oob false)
    (VTable ∅ false) (Some (Thr ST_RUNNING 0)) (Lib XND_RUNNING true) 0 (EnvState ∅ (-1)) k.

Lemma client_keeps_promise_witness :
  let s := client_state (-1) (Wire [] false) in
  answered (virt_to_real_pid_from_coord msg_zero 7) s (fun _ s' => client_frame s s') /\
  answered (real_to_virt_pid_from_coord msg_zero 7) s (fun _ s' => client_frame s s') /\
  returns (notify_coord_of_exit 7) s (fun _ s' => client_frame s s').
Proof. apply (client_keeps_promise msg_zero 7 (client_state (-1) (Wire [] false))). reflexivity. Defined.

Definition ack (real : Z) : xnd_msg := with_real_pid real (with_hdr (hdr_code XND_COORD_ACK) msg_zero).

Lemma translation_result_witness :
  let k := Wire (msg_bytes (ack 4711)) true in
  virt_to_real_pid_from_coord msg_zero 7 (client_state 9 k) = Ret 4711 (put_k (Wire [] true) (client_state 9 k)).
Proof.
  apply (translation_result msg_zero 7 (client_state 9 (Wire (msg_bytes (ack 4711)) true))
    (Wire (msg_bytes (ack 4711)) true) (Wire [] true) (Some (ack 4711)));
    [reflexivity|discriminate|vm_compute; reflexivity|vm_compute; reflexivity].
Defined.

Definition start_msg : xnd_msg := with_peers 2 1 (with_hdr (hdr_code XND_CKPT_START) msg_zero).

Lemma barrier_left_on_release_witness :
  let k := Wire (msg_bytes start_msg) true in
  enter_coord_barrier msg_zero COORD_BARRIER_PRECKPT (client_state 9 k) =
    Ret tt (put_ids (Ids 1003 1001 1003 (replicate 16 0) 1 2 true) (put_k (Wire [] true) (client_state 9 k))).
Proof.
  apply (barrier_left_on_release msg_zero COORD_BARRIER_PRECKPT (client_state 9 (Wire (msg_bytes start_msg) true))
    (Wire (msg_bytes start_msg) true) (Wire [] true) (Some start_msg));
    [discriminate|vm_compute; reflexivity|vm_compute; reflexivity].
Defined.

(** A coordinator that is not there: a hundred retries, then failure. *)
Example connect_gives_up : connect_to_coord (client_state (-1) (Wire [] false))
  = Ret (-1) (client_state (-1) (Wire [] false)).
Proof. vm_compute. reflexivity. Qed.
