(* ===== verification/CkptFile.v ===== *)
(** Checkpoint directories, file names, the manifest and the image header:
    [xnd/ckptfile.c] and [xnd/shared_cache.c].

    The file system, [libuuid] and dyld's description of the shared cache are
    parameters.  [stack_manifest] is what an uninitialized manifest holds. *)

From S2P Require Import Prelude Cstr Path Bytes Io Process PidTable Coord.
Import Stdlib.Strings.Ascii.
Open Scope Z_scope.

Class FsSys (K : Type) := {
  (** [access(path, F_OK) == 0], [mkdir(path, 0755) == 0] *)
  fs_access : cstr -> K -> bool * K;
  fs_mkdir : cstr -> K -> bool * K;
  (** [open(path, O_DIRECTORY | O_RDONLY)], [open(path, O_RDONLY)] *)
  fs_open_dir : cstr -> K -> Z * K;
  fs_open_rd : cstr -> K -> Z * K;
  (** [mkdirat], [openat] with [O_CREAT | O_EXCL | O_WRONLY] and with
      [O_RDONLY], [faccessat(dir, name, F_OK, 0) == 0], [unlinkat(dir, name, 0)],
      [unlinkat(dir, name, AT_REMOVEDIR)] *)
  fs_mkdirat : Z -> cstr -> K -> bool * K;
  fs_openat_excl : Z -> cstr -> K -> Z * K;
  fs_openat_rd : Z -> cstr -> K -> Z * K;
  fs_faccessat : Z -> cstr -> K -> bool * K;
  fs_unlinkat : Z -> cstr -> K -> bool * K;
  fs_unlinkat_dir : Z -> cstr -> K -> bool * K;
  (** [opendir] with the names [readdir] will give, [closedir], [unlink] *)
  fs_opendir : cstr -> K -> option (list cstr) * K;
  fs_closedir : K -> K;
  fs_unlink : cstr -> K -> bool * K;
}.

(** [uuid_unparse] writes 36 characters; [uuid_parse] fails on other text. *)
Class UuidLib := {
  uuid_unparse : list Z -> cstr;
  uuid_parse : cstr -> option (list Z);
}.

(** [_dyld_get_shared_cache_range] and [_dyld_get_shared_cache_uuid] *)
Class DyldSys (K : Type) := {
  dyld_shared_cache_range : K -> option (Z * Z);
  dyld_shared_cache_uuid : K -> option (list Z);
  k_task_self : K -> Z;
  k_host_self : K -> Z;
  _real_getsid : Z -> K -> Z;
}.

Definition XND_HEADER_MAGIC : cstr := cs "xnd_ckptfile_v0".
Definition XND_CKPTDIR_BASELEN : Z := 50.
Definition XND_CKPTDIR_SUBLEN : Z := 28.
Definition XND_CKPTDIR_MAXLEN : Z := 78.
Definition XND_CKPTFILE_MAXLEN : Z := 26.
Definition XND_CKPTPATH_MAXLEN : Z := 104.
Definition XND_MANIFEST_ENTRY_MAX : Z := 256.
Definition XND_CKPT_ENTRY_MAX : Z := 1024.
Definition XND_CKPT_VM_REGION_MAX : Z := 1023.
Definition XND_MANIFEST_NAME : cstr := cs "ckpt-manifest.xnd".
Definition sizeof_manifest : Z := 1028.

(** ** Names *)
Definition ckptfile_fmt (xnd_pid : Z) : cstr := cs "ckpt-" ++ show_u xnd_pid ++ cs ".xnd".
Definition compressed_fmt (xnd_pid : Z) : cstr := cs "ckpt-" ++ show_u xnd_pid ++ cs ".xnd.gz".
Definition ckptfile_buf (xnd_pid : Z) : cstr := snprintf XND_CKPTFILE_MAXLEN (ckptfile_fmt xnd_pid).

Section names.
Context `{UuidLib}.

Definition xnd_ckptpath_name (uuid : list Z) (epoch xnd_pid : Z) (use_zlib : bool) : cstr :=
  let buf := snprintf XND_CKPTPATH_MAXLEN
    (uuid_unparse uuid ++ cs "-checkpoints/epoch-" ++ show_u epoch ++ cs "/ckpt-" ++ show_u xnd_pid ++ cs ".xnd") in
  if use_zlib then buf ++ take (Z.to_nat (XND_CKPTPATH_MAXLEN - strlen buf)) (cs ".gz") else buf.

(** The base and the subdirectory. *)
Definition xnd_ckptdir_name (uuid : list Z) (epoch : Z) : cstr * cstr :=
  (uuid_unparse uuid ++ cs "-checkpoints", snprintf XND_CKPTDIR_SUBLEN (cs "epoch-" ++ show_u epoch)).

(** [sscanf(str, "epoch-%llu/ckpt-%u.xnd", &ep, &id)]: the values converted. *)
Definition scan_lit (lit s : cstr) : option cstr :=
  if decide (take (length lit) s = lit) then Some (drop (length lit) s) else None.
Fixpoint skip_digits (s : cstr) : cstr :=
  match s with a :: s' => if digit_val a then skip_digits s' else s | [] => [] end.
(** ["%u"] and ["%llu"] skip white space and take an optional sign. *)
Definition scan_digits (s : cstr) : option (Z * cstr) :=
  match s with
  | a :: _ => if digit_val a then Some (parse_digits s 0, skip_digits s) else None
  | [] => None
  end.
Definition scan_u (s : cstr) : option (Z * cstr) :=
  match skip_space s with
  | a :: s' => if Ascii.eqb a "-" then prod_map Z.opp id <$> scan_digits s'
               else if Ascii.eqb a "+" then scan_digits s' else scan_digits (a :: s')
  | [] => None
  end.
Definition scan_ckptpath (s : cstr) : list Z :=
  match scan_lit (cs "epoch-") s with
  | None => []
  | Some s =>
    match scan_u s with
    | None => []
    | Some (ep, s) =>
      match scan_lit (cs "/ckpt-") s with
      | None => [u64 ep]
      | Some s => match scan_u s with None => [u64 ep] | Some (id, _) => [u64 ep; u32 id] end
      end
    end
  end.

(** [sizeof("-checkpoints/")] counts the terminating NUL. *)
Definition sizeof_checkpoints_slash : Z := 14.
Definition xnd_ckptfile_parse (path : cstr) : option (list Z * Z * Z) :=
  match uuid_parse (take 36 path) with
  | None => None
  | Some uuid =>
    match scan_ckptpath (drop (Z.to_nat (36 + sizeof_checkpoints_slash)) path) with
    | [ep; id] => Some (uuid, ep, id)
    | _ => None
    end
  end.

(** [-1], or 0 and the name. *)
Definition xnd_ckptfile_name (outlen xnd_pid : Z) : option cstr :=
  if outlen <? XND_CKPTFILE_MAXLEN then None else Some (snprintf outlen (ckptfile_fmt xnd_pid)).
End names.

(** ** Directories *)
Section dirs.
Context {K : Type} `{IoSys K, FdSys K, FsSys K, UuidLib}.
Context (stack_manifest : list Z).

Definition fcall {A} (f : K -> A * K) : M K A := fun k => let '(a, k) := f k in Ret a k.
Definition fclose (fd : Z) : M K unit := fun k => Ret tt (fd_close fd k).

(** [xnd_path_join(out, outlen, l, r)] into a fresh buffer. *)
Definition path_join (outlen : Z) (l r : cstr) : M K (Z * cstr) := fun k =>
  match xnd_path_join outlen (Some l) (Some r) [] with
  | Ret err out => Ret (err, out) k
  | _ => Ub
  end.

Definition xnd_ckptdir_create (uuid : list Z) (epoch : Z) : M K Z :=
  let '(base, sub) := xnd_ckptdir_name uuid epoch in
  exists_ ← fcall (fs_access base);
  ok ← (if (exists_ : bool) then mret true else fcall (fs_mkdir base));
  if negb ok then mret (-1) else
  fd ← fcall (fs_open_dir base);
  if fd <? 0 then mret (-1) else
  ok ← fcall (fs_mkdirat fd sub);
  fclose fd;;
  mret (if (ok : bool) then 0 else -1).

Definition xnd_ckptdir_open (uuid : list Z) (epoch : Z) : M K Z :=
  let '(base, sub) := xnd_ckptdir_name uuid epoch in
  '(err, path) ← path_join PATH_MAX base sub;
  if negb (err =? 0) then mret (-1) else
  fd ← fcall (fs_open_dir path);
  if fd <? 0 then mret (-1) else mret fd.

Fixpoint unlink_entries (path : cstr) (ents : list cstr) : M K Z :=
  match ents with
  | [] => mret 0
  | d_name :: ents =>
    if decide (d_name = cs "." \/ d_name = cs "..") then unlink_entries path ents else
    let buf := snprintf (XND_CKPTDIR_MAXLEN + XND_CKPTFILE_MAXLEN) (path ++ slash :: d_name) in
    ok ← fcall (fs_unlink buf);
    if negb ok then mret (-1) else unlink_entries path ents
  end.

(** The early returns leave the directory stream open, every return after
    [open] leaves [dirfd] open. *)
Definition xnd_ckptdir_unlink (uuid : list Z) (epoch : Z) : M K Z :=
  let '(base, sub) := xnd_ckptdir_name uuid epoch in
  '(err, path) ← path_join XND_CKPTDIR_MAXLEN base sub;
  if negb (err =? 0) then mret (-1) else
  dirp ← fcall (fs_opendir path);
  match dirp with
  | None => mret (-1)
  | Some ents =>
    err ← unlink_entries path ents;
    if negb (err =? 0) then mret (-1) else
    fcall (fun k => (tt, fs_closedir k));;
    dirfd ← fcall (fs_open_dir base);
    if dirfd <? 0 then mret (-1) else
    ok ← fcall (fs_unlinkat_dir dirfd sub);
    mret (if (ok : bool) then 0 else -1)
  end.

(** ** Checkpoint files *)

Definition neg_to_m1 (fd : Z) : Z := if fd <? 0 then -1 else fd.
Definition xnd_ckptfile_create (dirfd : Z) (ckptfile : cstr) : M K Z :=
  fd ← fcall (fs_openat_excl dirfd ckptfile); mret (neg_to_m1 fd).
Definition xnd_ckptfile_openat (dirfd xnd_pid : Z) : M K Z :=
  fd ← fcall (fs_openat_rd dirfd (ckptfile_buf xnd_pid)); mret (neg_to_m1 fd).
Definition xnd_ckptfile_exists (dirfd xnd_pid : Z) : M K bool := fcall (fs_faccessat dirfd (ckptfile_buf xnd_pid)).
Definition xnd_compressed_ckpt_exists (dirfd xnd_pid : Z) : M K bool :=
  fcall (fs_faccessat dirfd (snprintf XND_CKPTFILE_MAXLEN (compressed_fmt xnd_pid))).
Definition xnd_ckptfile_unlinkat (dirfd xnd_pid : Z) : M K Z :=
  ok ← fcall (fs_unlinkat dirfd (ckptfile_buf xnd_pid)); mret (if (ok : bool) then 0 else -1).
Definition xnd_ckptfile_unlink (dir : cstr) (xnd_pid : Z) : M K Z :=
  dirfd ← fcall (fs_open_dir dir);
  if dirfd <? 0 then mret (-1) else
  ok ← fcall (fs_unlinkat dirfd (ckptfile_buf xnd_pid));
  fclose dirfd;;
  mret (if (ok : bool) then 0 else -1).

(** ** The manifest *)
Definition xnd_ckptfile_create_manifest (dirfd : Z) : M K Z :=
  fd ← fcall (fs_openat_excl dirfd XND_MANIFEST_NAME); mret (neg_to_m1 fd).

Definition manifest_bytes (entry_count : Z) (xnd_pids : list Z) : list Z :=
  le_bytes 4 entry_count ++ concat (le_bytes 4 <$> xnd_pids).

(** The loop over the ids: [for (id = min; id <= max; id++)] on unsigned
    32-bit integers.  [ids] are the entries stored, [count] of them; storing
    past the array is out of bounds. *)
Fixpoint manifest_loop (fuel : nat) (dirfd id max : Z) (ids : list Z) : M K (list Z) :=
  match fuel with
  | O => nofuel
  | S fuel =>
    if max <? id then mret ids else
    plain ← xnd_ckptfile_exists dirfd id;
    present ← (if (plain : bool) then mret true else xnd_compressed_ckpt_exists dirfd id);
    if (present : bool) then
      if Z.of_nat (length ids) <? XND_MANIFEST_ENTRY_MAX
      then manifest_loop fuel dirfd (u32 (id + 1)) max (ids ++ [id]) else ub
    else manifest_loop fuel dirfd (u32 (id + 1)) max ids
  end.

Definition close_unless (fd : Z) : M K unit := if fd =? -1 then mret tt else fclose fd.

Definition xnd_ckptfile_write_manifest (total min_xnd_pid max_xnd_pid : Z) (uuid : list Z) (epoch : Z) : M K Z :=
  dirfd ← xnd_ckptdir_open uuid epoch;
  if dirfd <? 0 then close_unless dirfd;; mret (-1) else
  fd ← xnd_ckptfile_create_manifest dirfd;
  if fd <? 0 then close_unless dirfd;; close_unless fd;; mret (-1) else
  ids ← manifest_loop (S (Z.to_nat (max_xnd_pid - min_xnd_pid + 1))) dirfd min_xnd_pid max_xnd_pid [];
  let count := Z.of_nat (length ids) in
  if negb (count =? total) then close_unless dirfd;; close_unless fd;; mret (-1) else
  bytes ← writeall fd (manifest_bytes count (ids ++ drop (length ids) stack_manifest));
  if negb (bytes =? sizeof_manifest) then close_unless dirfd;; close_unless fd;; mret (-1) else
  fclose dirfd;; fclose fd;; mret 0.

(** The manifest as read back: the count and the 256 ids. *)
Fixpoint words (n : nat) (l : list Z) : list Z :=
  match n with O => [] | S n => let '(x, l) := field_u 4 l in x :: words n l end.
Definition manifest_of_bytes (l : list Z) : Z * list Z :=
  let '(n, l) := field_u 4 l in (n, words 256 l).

Definition xnd_ckptfile_extract_manifest (path : cstr) : M K (option (Z * list Z)) :=
  fd ← fcall (fs_open_rd path);
  if fd <? 0 then close_unless fd;; mret None else
  data ← readall fd sizeof_manifest;
  if negb (Z.of_nat (length data) =? sizeof_manifest) then close_unless fd;; mret None else
  fclose fd;; mret (Some (manifest_of_bytes data)).
End dirs.

(** ** The image header *)

Record shared_cache_info := SharedCacheInfo { sc_base : Z; sc_size : Z; sc_uuid : list Z }.

Record xnd_ckpt_header := CkptHeader {
  h_magic : list Z;
  h_xnd_uuid : list Z;
  h_xnd_pid : Z; h_xnd_ppid : Z; h_xnd_pgid : Z;
  h_pid : Z; h_ppid : Z; h_pgid : Z; h_sid : Z;
  h_task_self : Z; h_host_self : Z;
  h_num_peers : Z; h_is_root_of_tree : Z;
  h_entry_count : Z; h_region_count : Z;
  h_shared_cache_info : shared_cache_info
}.

(** 16 + 16 + 13 * 4 bytes, 4 of padding for the pointer that follows, 32 for
    the shared cache: 120.  [bzero] clears the padding. *)
Definition sizeof_header : Z := 120.
Definition header_bytes (h : xnd_ckpt_header) : list Z :=
  h_magic h ++ h_xnd_uuid h ++
  le_bytes 4 (h_xnd_pid h) ++ le_bytes 4 (h_xnd_ppid h) ++ le_bytes 4 (h_xnd_pgid h) ++
  le_bytes 4 (h_pid h) ++ le_bytes 4 (h_ppid h) ++ le_bytes 4 (h_pgid h) ++ le_bytes 4 (h_sid h) ++
  le_bytes 4 (h_task_self h) ++ le_bytes 4 (h_host_self h) ++
  le_bytes 4 (h_num_peers h) ++ le_bytes 4 (h_is_root_of_tree h) ++
  le_bytes 4 (h_entry_count h) ++ le_bytes 4 (h_region_count h) ++ replicate 4 0 ++
  le_bytes 8 (sc_base (h_shared_cache_info h)) ++ le_bytes 8 (sc_size (h_shared_cache_info h)) ++
  sc_uuid (h_shared_cache_info h).

Definition header_of_bytes (l : list Z) : xnd_ckpt_header :=
  let magic := take 16 l in let l := drop 16 l in
  let uuid := take 16 l in let l := drop 16 l in
  let '(xp, l) := field_u 4 l in let '(xpp, l) := field_u 4 l in let '(xpg, l) := field_u 4 l in
  let '(p, l) := field_s 4 l in let '(pp, l) := field_s 4 l in
  let '(pg, l) := field_s 4 l in let '(si, l) := field_s 4 l in
  let '(ts, l) := field_u 4 l in let '(hs, l) := field_u 4 l in
  let '(np, l) := field_u 4 l in let '(root, l) := field_u 4 l in
  let '(ec, l) := field_u 4 l in let '(rc, l) := field_u 4 l in
  let l := drop 4 l in
  let '(b, l) := field_u 8 l in let '(s, l) := field_u 8 l in
  CkptHeader magic uuid xp xpp xpg p pp pg si ts hs np root ec rc (SharedCacheInfo b s (take 16 l)).

(** [strcmp(header->magic, XND_HEADER_MAGIC)]: equal up to the NUL. *)
Definition magic_bytes : list Z := (Z.of_nat ∘ nat_of_ascii) <$> XND_HEADER_MAGIC.
Definition magic_ok (magic : list Z) : bool := bool_decide (take 16 magic = magic_bytes ++ [0]).

Section header.
Context {K : Type} `{IoSys K, FdSys K, PidOS K, DyldSys K}.

Definition shared_cache_get_info : M K (option shared_cache_info) := fun k =>
  Ret (match dyld_shared_cache_range k with
       | None => None
       | Some (base, size) =>
         match dyld_shared_cache_uuid k with None => None | Some uuid => Some (SharedCacheInfo base size uuid) end
       end) k.

Definition shared_cache_cmp (old new : shared_cache_info) : Z :=
  if negb (sc_base old =? sc_base new) || negb (sc_size old =? sc_size new) then -1
  else if decide (sc_uuid old = sc_uuid new) then 0 else -1.

Definition shared_cache_check (old : shared_cache_info) : M K Z :=
  new ← shared_cache_get_info;
  mret (match new with None => -1 | Some new => shared_cache_cmp old new end).

Definition xnd_ckptfile_valid (h : xnd_ckpt_header) : M K bool :=
  if negb (magic_ok (h_magic h)) then mret false else
  err ← shared_cache_check (h_shared_cache_info h);
  if err <? 0 then mret false else
  mret (negb ((XND_CKPT_ENTRY_MAX <? h_entry_count h) || (XND_CKPT_VM_REGION_MAX <? h_region_count h))).

(** [fd] is never opened before it is tested, so the rest is not reached. *)
Definition xnd_ckptfile_extract_header (path : cstr) (hdr : xnd_ckpt_header) : M K (Z * xnd_ckpt_header) :=
  let fd := -1 in
  if fd <? 0 then mret (-1, hdr) else
  data ← readall fd sizeof_header;
  if negb (Z.of_nat (length data) =? sizeof_header) then fclose fd;; mret (-1, hdr) else
  let hdr := header_of_bytes data in
  if negb (magic_ok (h_magic hdr)) then fclose fd;; mret (-1, hdr) else
  fclose fd;; mret (0, hdr).

Definition xnd_ckptfile_write_header (nr_regions nr_entries : Z) (uuid : list Z)
    (xnd_pid xnd_ppid xnd_pgid num_peers : Z) (is_root : bool) : M K xnd_ckpt_header :=
  info ← shared_cache_get_info;
  match info with
  | None => abort
  | Some info =>
    k ← get;
    mret (CkptHeader (magic_bytes ++ [0]) uuid xnd_pid xnd_ppid xnd_pgid
            (_real_getpid k) (_real_getppid k) (_real_getpgid 0 k) (_real_getsid 0 k)
            (k_task_self k) (k_host_self k) num_peers (if is_root then 1 else 0) nr_entries nr_regions info)
  end.
End header.
