(* ===== verification/VmRegion.v ===== *)
(** Memory regions: [xnd/vm_region.h], the walk that selects what a checkpoint
    saves ([xnd/vm_checkpoint.c]) and the walk that marks the restart process's
    own regions ([ckpt_vm_mark_regions] of [xnd/vm_restore.c]).

    The kernel's answer to [mach_vm_region_recurse] is a parameter; [LayoutSpec]
    says what the theorems assume of it, on an address space given as a tree of
    regions and submaps. *)

From S2P Require Import Prelude Bytes.
Open Scope Z_scope.

(** ** Constants of the Mach headers *)
Definition VM_PROT_NONE : Z := 0.
Definition VM_PROT_READ : Z := 1.
Definition VM_PROT_WRITE : Z := 2.
Definition VM_PROT_EXECUTE : Z := 4.
Definition VM_PROT_DEFAULT : Z := 3.
Definition VM_PROT_ALL : Z := 7.
Definition VM_PROT_COPY : Z := 16.
Definition VM_INHERIT_COPY : Z := 1.
Definition VM_INHERIT_NONE : Z := 2.
Definition VM_INHERIT_DEFAULT : Z := VM_INHERIT_COPY.
Definition VM_BEHAVIOR_RSEQNTL : Z := 2.
Definition VM_MEMORY_MALLOC : Z := 1.
Definition VM_MEMORY_MALLOC_SMALL : Z := 2.
Definition VM_MEMORY_MALLOC_LARGE : Z := 3.
Definition VM_MEMORY_MALLOC_HUGE : Z := 4.
Definition VM_MEMORY_REALLOC : Z := 6.
Definition VM_MEMORY_MALLOC_TINY : Z := 7.
Definition VM_MEMORY_MALLOC_LARGE_REUSABLE : Z := 8.
Definition VM_MEMORY_MALLOC_LARGE_REUSED : Z := 9.
Definition VM_MEMORY_MALLOC_NANO : Z := 11.
Definition VM_MEMORY_MALLOC_MEDIUM : Z := 12.
Definition VM_MEMORY_MALLOC_PROB_GUARD : Z := 13.
Definition VM_MEMORY_STACK : Z := 30.
Definition VM_MEMORY_GUARD : Z := 31.
Definition VM_MEMORY_SHARED_PMAP : Z := 32.
Definition VM_MEMORY_DYLIB : Z := 33.
Definition VM_MEMORY_UNSHARED_PMAP : Z := 35.
Definition VM_MEMORY_DYLD : Z := 60.
Definition VM_MEMORY_DYLD_MALLOC : Z := 61.
Definition VM_MEMORY_OS_ALLOC_ONCE : Z := 73.
Definition VM_KERN_MEMORY_UBC : Z := 22.
Definition VM_MEMORY_RESTART_STACK : Z := 240.
Definition RESTART_REGION_BEHAVIOR_FLAG : Z := VM_BEHAVIOR_RSEQNTL.
Definition RESTART_REGION_INHERIT_FLAG : Z := VM_INHERIT_NONE.

(** What the headers and the build fix: the page size ([vm_page_size]), the
    shared cache's range and the addresses reserved for the restart binary. *)
Class VmParams := {
  VM_PAGE_SIZE : Z;
  SHARED_REGION_BASE_ARM64 : Z;
  SHARED_REGION_SIZE_ARM64 : Z;
  XND_RESTART_BASE : Z;
  XND_RESTART_END : Z;
}.

(** [vm_region_submap_info_data_64_t], the fields the code reads. *)
Record vm_info := VmInfo {
  is_submap : bool;
  inheritance : Z; protection : Z; max_protection : Z;
  behavior : Z; share_mode : Z; user_tag : Z;
  pages_resident : Z; info_pages_dirtied : Z
}.

(** [struct xnd_vm_region] *)
Record xnd_vm_region := VmRegion {
  start : Z; size : Z; inherit : Z; prot : Z; max_prot : Z;
  mode : Z; tag : Z; pages_dirtied : Z; dirty_only : bool
}.

(** [mach_vm_region_recurse(addr, depth)]: the next region at or above [addr]
    with its address, size and depth, or failure. *)
Class VmWalk (K : Type) := {
  vm_region_recurse : Z -> Z -> K -> option (Z * Z * Z * vm_info);
  (** [mach_vm_behavior_set(addr, size, behavior)]: success and the effect *)
  vm_set_behavior : Z -> Z -> Z -> K -> bool * K;
}.

(** The calls that change or copy memory.  Addresses, sizes and protections are
    integers; a boolean result is [KERN_SUCCESS]. *)
Class VmMem (K : Type) := {
  (** [mach_vm_protect(addr, size, set_max, prot)], [mach_vm_inherit] *)
  vm_protect : Z -> Z -> bool -> Z -> K -> bool * K;
  vm_set_inherit : Z -> Z -> Z -> K -> bool * K;
  (** [mach_vm_map(&addr, size, flags)] of fresh zero-filled memory with
      [VM_PROT_DEFAULT], [VM_PROT_ALL], [VM_INHERIT_DEFAULT]: the address *)
  vm_map : Z -> Z -> Z -> K -> option Z * K;
  (** [mach_vm_page_range_query]: a disposition per page *)
  vm_page_range_query : Z -> Z -> K -> option (list Z) * K;
  (** [write(fd, addr, n)] and [read(fd, addr, n)] of the process's memory: -1
      or the number of bytes, [errno] being part of the state *)
  mem_write : Z -> Z -> Z -> K -> Z * K;
  mem_read : Z -> Z -> Z -> K -> Z * K;
  k_errno : K -> Z;
  (** [lseek(fd, 0, SEEK_CUR)] and [lseek(fd, off, SEEK_SET)] *)
  lseek_cur : Z -> K -> Z * K;
  lseek_set : Z -> Z -> K -> Z * K;
  (** [&mach_task_self_], [task_self_trap()], and a store to memory *)
  mach_task_self_ptr : Z;
  task_self_trap : K -> Z;
  mem_store : Z -> list Z -> K -> K;
}.

(** ** The predicates of vm_region.h *)
Section predicates.
Context `{VmParams}.

Definition PAGEZERO_BASE : Z := 0.
Definition PAGEZERO_END : Z := 4294967296.
Definition PAGEZERO (addr size : Z) : bool := (PAGEZERO_BASE <=? addr) && (u64 (addr + size) <? PAGEZERO_END).

Definition DYLD_SHARED_CACHE_BASE : Z := SHARED_REGION_BASE_ARM64.
Definition DYLD_SHARED_CACHE_END : Z := SHARED_REGION_BASE_ARM64 + SHARED_REGION_SIZE_ARM64.
Definition DYLD_SHARED_CACHE_REGION (addr size : Z) : bool :=
  (DYLD_SHARED_CACHE_BASE <=? addr) && (u64 (addr + size) <? DYLD_SHARED_CACHE_END).

Definition RESTART_REGION (info : vm_info) (addr size : Z) : bool :=
  ((XND_RESTART_BASE <=? addr) && (u64 (addr + size) <? XND_RESTART_END)) ||
  ((inheritance info =? RESTART_REGION_INHERIT_FLAG) && (behavior info =? RESTART_REGION_BEHAVIOR_FLAG)) ||
  (user_tag info =? VM_MEMORY_RESTART_STACK).

Definition ONLY_RESTORE_DIRTY_PAGES (r : xnd_vm_region) : bool :=
  DYLD_SHARED_CACHE_REGION (start r) (size r) || (tag r =? VM_MEMORY_MALLOC_NANO) ||
  (tag r =? VM_MEMORY_MALLOC_TINY) || (tag r =? VM_MEMORY_MALLOC_SMALL) ||
  (tag r =? VM_MEMORY_MALLOC_MEDIUM) || (tag r =? VM_MEMORY_MALLOC_LARGE).
Definition ONLY_SAVE_DIRTY_PAGES (r : xnd_vm_region) : bool := ONLY_RESTORE_DIRTY_PAGES r.

Definition IN_VM_RANGE (ptr start end_ : Z) : bool := (start <=? ptr) && (ptr <? end_).

(** ** [ckpt_vm_valid_region] *)
Definition ckpt_vm_valid_region {S} (info : vm_info) (addr size : Z) : M S bool :=
  if PAGEZERO addr size || RESTART_REGION info addr size || (max_protection info =? VM_PROT_NONE)
  then mret false else
  if DYLD_SHARED_CACHE_REGION addr size then mret (negb (info_pages_dirtied info =? 0)) else
  let t := user_tag info in
  if (t =? VM_MEMORY_MALLOC) || (t =? VM_MEMORY_MALLOC_NANO) || (t =? VM_MEMORY_MALLOC_TINY) ||
     (t =? VM_MEMORY_MALLOC_SMALL) || (t =? VM_MEMORY_MALLOC_MEDIUM) || (t =? VM_MEMORY_MALLOC_LARGE) ||
     (t =? VM_MEMORY_MALLOC_HUGE) || (t =? VM_MEMORY_MALLOC_LARGE_REUSABLE) ||
     (t =? VM_MEMORY_MALLOC_LARGE_REUSED) || (t =? VM_MEMORY_MALLOC_PROB_GUARD) ||
     (t =? VM_MEMORY_STACK) then mret true
  else if (t =? VM_MEMORY_DYLD) || (t =? VM_MEMORY_DYLD_MALLOC) then
    if negb (pages_resident info =? 0) && negb (info_pages_dirtied info =? 0) then
      xnd_assert (negb (Z.land (max_protection info) VM_PROT_WRITE =? 0));; mret true
    else mret false
  else if (t =? VM_MEMORY_REALLOC) || (t =? VM_MEMORY_GUARD) || (t =? VM_MEMORY_SHARED_PMAP) ||
          (t =? VM_MEMORY_UNSHARED_PMAP) then mret false
  else if (t =? VM_MEMORY_DYLIB) || (t =? VM_MEMORY_OS_ALLOC_ONCE) then mret true
  else if t =? VM_KERN_MEMORY_UBC then mret (negb (DYLD_SHARED_CACHE_END <=? addr))
  else mret true.
End predicates.

(** ** [ckpt_vm_save_regions]

    [buf] is the caller's array of [XND_CKPT_VM_REGION_MAX] regions, of which
    only [dirty_only] survives; the loop writes past its end without a check.
    The result is the prefix of the array that was filled. *)

Section walks.
Context `{VmParams} {K : Type} `{VmWalk K} `{VmMem K}.

Definition region_of (info : vm_info) (addr size : Z) (old : bool) : xnd_vm_region :=
  VmRegion addr size (inheritance info) (protection info) (max_protection info)
           (share_mode info) (user_tag info) (info_pages_dirtied info) old.

Fixpoint save_regions_loop (fuel : nat) (buf : list bool) (addr depth : Z) (regions : list xnd_vm_region)
    : M K (list xnd_vm_region) :=
  match fuel with
  | O => nofuel
  | S fuel =>
    k ← get;
    match vm_region_recurse addr depth k with
    | None => mret regions
    | Some (addr, size, depth, info) =>
      if is_submap info then save_regions_loop fuel buf addr (depth + 1) regions else
      valid ← ckpt_vm_valid_region info addr size;
      if negb valid then save_regions_loop fuel buf (u64 (addr + size)) depth regions else
      old ← deref (buf !! length regions);
      save_regions_loop fuel buf (u64 (addr + size)) depth (regions ++ [region_of info addr size old])
    end
  end.

Definition ckpt_vm_save_regions (fuel : nat) (buf : list bool) : M K (list xnd_vm_region) :=
  save_regions_loop fuel buf 0 0 [].

(** ** [ckpt_vm_mark], [ckpt_vm_mark_regions] *)
Definition ckpt_vm_mark (addr size : Z) : M K Z := fun k =>
  let '(ok, k) := vm_set_inherit addr size RESTART_REGION_INHERIT_FLAG k in
  if negb ok then Ret (-1) k else
  let '(ok, k) := vm_set_behavior addr size RESTART_REGION_BEHAVIOR_FLAG k in
  if negb ok then Ret (-1) k else Ret 0 k.

(** [continue] on a submap keeps [addr] and [depth]. *)
Fixpoint mark_regions_loop (fuel : nat) (addr depth : Z) : M K Z :=
  match fuel with
  | O => nofuel
  | S fuel =>
    k ← get;
    match vm_region_recurse addr depth k with
    | None => mret 0
    | Some (addr, size, depth, info) =>
      if is_submap info then mark_regions_loop fuel addr depth else
      if PAGEZERO addr size || DYLD_SHARED_CACHE_REGION addr size
      then mark_regions_loop fuel (u64 (addr + size)) depth else
      err ← ckpt_vm_mark addr size;
      if err <? 0 then mret (-1) else mark_regions_loop fuel (u64 (addr + size)) depth
    end
  end.
Definition ckpt_vm_mark_regions (fuel : nat) : M K Z := mark_regions_loop fuel 0 0.
(** [ckpt_vm_find_ubc_region]: the address of the region with the tag, 0 if none. *)
Fixpoint find_ubc_loop (fuel : nat) (addr depth : Z) : M K (Z * Z) :=
  match fuel with
  | O => nofuel
  | S fuel =>
    k ← get;
    match vm_region_recurse addr depth k with
    | None => mret (0, 0)
    | Some (addr, size, depth, info) =>
      if is_submap info then find_ubc_loop fuel addr depth else
      if user_tag info =? VM_KERN_MEMORY_UBC then mret (addr, size)
      else find_ubc_loop fuel (u64 (addr + size)) depth
    end
  end.
Definition ckpt_vm_find_ubc_region (fuel : nat) : M K (Z * Z) := find_ubc_loop fuel 0 0.
End walks.
