(* ===== verification/CkptImage.v ===== *)
(** The checkpoint image: [xnd/writeckpt.c], [xnd/readckpt.c], the restoring half
    of [xnd/vm_restore.c] and [ckpt_vm_protect] of [xnd/vm_common.c].

    A computation runs over the kernel [K], which holds the process's memory and
    the open checkpoint file. *)

From S2P Require Import Prelude Cstr Bytes Io Env Process CkptFile VmRegion.
Open Scope Z_scope.

Definition VM_PAGE_QUERY_PAGE_DIRTY : Z := 8.
Definition VM_FLAGS_FIXED : Z := 0.
Definition VM_FLAGS_OVERWRITE : Z := 16384.
Definition VM_MAKE_TAG (tag : Z) : Z := Z.shiftl tag 24.
Definition EFAULT : Z := 14.

(** ** Layout

    [sizeof(struct xnd_vm_region)] is 48 with the 7 bytes of padding, which are
    never read; [sizeof(struct xnd_vm_page)] is 8 and an [enum xnd_ckpt_entry]
    takes 4 bytes. *)
Definition sizeof_region : Z := 48.
Definition sizeof_page : Z := 8.
Definition sizeof_entry : Z := 4.

Definition region_bytes (r : xnd_vm_region) : list Z :=
  le_bytes 8 (start r) ++ le_bytes 8 (size r) ++ le_bytes 4 (inherit r) ++ le_bytes 4 (prot r) ++
  le_bytes 4 (max_prot r) ++ le_bytes 4 (mode r) ++ le_bytes 4 (tag r) ++ le_bytes 4 (pages_dirtied r) ++
  (if dirty_only r then 1 else 0) :: replicate 7 0.

Definition region_of_bytes (l : list Z) : xnd_vm_region :=
  let '(st, l) := field_u 8 l in
  let '(sz, l) := field_u 8 l in
  let '(inh, l) := field_u 4 l in
  let '(pr, l) := field_s 4 l in
  let '(mx, l) := field_s 4 l in
  let '(md, l) := field_u 4 l in
  let '(tg, l) := field_u 4 l in
  let '(dr, l) := field_u 4 l in
  VmRegion st sz inh pr mx md tg dr (negb (nth 0 l 0 =? 0)).

Definition with_dirty (n : Z) (d : bool) (r : xnd_vm_region) : xnd_vm_region :=
  VmRegion (start r) (size r) (inherit r) (prot r) (max_prot r) (mode r) (tag r) n d.
Definition with_size (n : Z) (r : xnd_vm_region) : xnd_vm_region :=
  VmRegion (start r) n (inherit r) (prot r) (max_prot r) (mode r) (tag r) (pages_dirtied r) (dirty_only r).

(** [enum xnd_ckpt_entry] *)
Inductive xnd_ckpt_entry := XND_VM_REGION_ENTRY | XND_VM_PAGE_ENTRY | XND_UCONTEXT_ENTRY.
#[global] Instance xnd_ckpt_entry_eq_dec : EqDecision xnd_ckpt_entry.
Proof. solve_decision. Defined.
Definition entry_code (e : xnd_ckpt_entry) : Z :=
  match e with XND_VM_REGION_ENTRY => 0 | XND_VM_PAGE_ENTRY => 1 | XND_UCONTEXT_ENTRY => 2 end.

Section image.
Context `{VmParams} {K : Type} `{IoSys K} `{VmMem K}.

Definition kcall {A} (f : K -> A * K) : M K A := fun k => let '(a, k) := f k in Ret a k.

(** [writeall] and [sys_readall] of memory at [addr]. *)
Fixpoint mem_writeall_loop (fuel : nat) (fd addr nbyte bytes : Z) : M K Z :=
  match fuel with
  | O => nofuel
  | S fuel =>
    ret ← kcall (mem_write fd (addr + bytes) (nbyte - bytes));
    if ret =? -1 then mret bytes else
    if bytes + ret <? nbyte then mem_writeall_loop fuel fd addr nbyte (bytes + ret) else mret (bytes + ret)
  end.
Definition mem_writeall (fd addr nbyte : Z) : M K Z := mem_writeall_loop (S (Z.to_nat nbyte)) fd addr nbyte 0.

Fixpoint mem_readall_loop (fuel : nat) (fd addr nbyte bytes : Z) : M K Z :=
  match fuel with
  | O => nofuel
  | S fuel =>
    ret ← kcall (mem_read fd (addr + bytes) (nbyte - bytes));
    if 0 <? ret then
      if bytes + ret <? nbyte then mem_readall_loop fuel fd addr nbyte (bytes + ret) else mret (bytes + ret)
    else mret bytes
  end.
Definition mem_readall (fd addr nbyte : Z) : M K Z := mem_readall_loop (S (Z.to_nat nbyte)) fd addr nbyte 0.

(** ** Writing *)

Definition ckpt_vm_protect (r : xnd_vm_region) (max : bool) (prot : Z) : M K Z :=
  ok ← kcall (vm_protect (start r) (size r) max prot);
  mret (if (ok : bool) then 0 else -1).

Definition write_vm_page (fd : Z) (r : xnd_vm_region) (offset : Z) : M K Z :=
  bytes ← writeall fd (le_bytes 8 offset);
  if negb (bytes =? sizeof_page) then mret (-1) else
  bytes ← mem_writeall fd (start r + offset) VM_PAGE_SIZE;
  if negb (bytes =? VM_PAGE_SIZE) then mret (-1) else mret 0.

Definition page_dirty (v : Z) : bool := negb (Z.land v VM_PAGE_QUERY_PAGE_DIRTY =? 0).

(** The second loop of [write_vm_region_dirty]: [vec] is what is left of the
    dispositions from [idx] on, [pg] the pages written so far.  The result is
    [None] for the early [return -1], else the final [pg]. *)
Fixpoint write_dirty_loop (fd : Z) (r : xnd_vm_region) (dirty : Z) (vec : list Z) (idx pg : Z) : M K (option Z) :=
  match vec with
  | [] => mret (Some pg)
  | v :: vec =>
    if dirty <=? pg then xnd_assert (dirty <=? idx);; mret (Some pg) else
    if page_dirty v then
      err ← write_vm_page fd r (idx * VM_PAGE_SIZE);
      if negb (err =? 0) then mret None else write_dirty_loop fd r dirty vec (idx + 1) (pg + 1)
    else write_dirty_loop fd r dirty vec (idx + 1) pg
  end.

Definition write_vm_region_dirty (fd : Z) (r : xnd_vm_region) : M K Z :=
  xnd_assert (size r mod VM_PAGE_SIZE =? 0);;
  vec ← kcall (vm_page_range_query (start r) (size r));
  match vec with
  | None => mret (-1)
  | Some vec =>
    xnd_assert (Z.of_nat (length vec) =? size r / VM_PAGE_SIZE);;
    let dirty := u32 (Z.of_nat (length (List.filter page_dirty vec))) in
    bytes ← writeall fd (region_bytes (with_dirty dirty (dirty_only r) r));
    if negb (bytes =? sizeof_region) then mret (-1) else
    pg ← write_dirty_loop fd r dirty vec 0 0;
    match pg with
    | None => mret (-1)
    | Some pg => xnd_assert (pg =? dirty);; mret 0
    end
  end.

(** [p] pages are written, [todo] remain; [seek] is the file offset they end at. *)
Fixpoint write_all_pages_loop (todo : nat) (fd : Z) (r : xnd_vm_region) (p seek : Z) : M K Z :=
  match todo with
  | O => mret p
  | S todo =>
    bytes ← mem_writeall fd (start r + p * VM_PAGE_SIZE) VM_PAGE_SIZE;
    if negb (bytes =? VM_PAGE_SIZE) then
      if negb (bytes =? 0) then
        ret ← kcall (lseek_set fd (seek - bytes));
        xnd_assert (negb (ret =? -1));; mret p
      else mret p
    else write_all_pages_loop todo fd r (p + 1) (seek + VM_PAGE_SIZE)
  end.

Definition write_vm_region_all_pages (fd : Z) (r : xnd_vm_region) : M K Z :=
  seek ← kcall (lseek_cur fd);
  xnd_assert (negb (seek =? -1));;
  write_all_pages_loop (Z.to_nat (size r / VM_PAGE_SIZE)) fd r 0 seek.

(** [write_vm_region] from its label [out]. *)
Definition write_region_out (read_protect : bool) (r : xnd_vm_region) : M K Z :=
  if read_protect then ckpt_vm_protect r false (prot r);; mret 0 else mret 0.

(** [write_vm_region] after its first [if].  When pages are missing the region
    is rewritten with the size that was written. *)
Definition write_region_pages (fd : Z) (r : xnd_vm_region) : M K Z :=
  before ← kcall (lseek_cur fd);
  xnd_assert (negb (before =? -1));;
  bytes ← writeall fd (region_bytes r);
  if negb (bytes =? sizeof_region) then mret (-1) else
  let read_protect := Z.land (prot r) VM_PROT_READ =? 0 in
  err ← (if read_protect then ckpt_vm_protect r false (Z.lor (prot r) VM_PROT_READ) else mret 0);
  if negb (err =? 0) then mret (-1) else
  pages ← write_vm_region_all_pages fd r;
  if pages =? size r / VM_PAGE_SIZE then write_region_out read_protect r else
  after ← kcall (lseek_cur fd);
  xnd_assert (negb (after =? -1));;
  ret ← kcall (lseek_set fd before);
  if ret <? 0 then mret (-1) else
  let r := with_size (pages * VM_PAGE_SIZE) r in
  bytes ← writeall fd (region_bytes r);
  if negb (bytes =? sizeof_region) then mret (-1) else
  ret ← kcall (lseek_set fd after);
  if ret <? 0 then mret (-1) else
  write_region_out read_protect r.

Definition dirty_cost (r : xnd_vm_region) : Z := u64 (pages_dirtied r * (sizeof_page + VM_PAGE_SIZE)).
Definition save_dirty_only (r : xnd_vm_region) : bool :=
  ONLY_SAVE_DIRTY_PAGES r && (dirty_cost r <? u64 (size r + sizeof_region)).

Definition write_vm_region (fd : Z) (r : xnd_vm_region) : M K Z :=
  if ONLY_SAVE_DIRTY_PAGES r then
    if dirty_cost r <? u64 (size r + sizeof_region)
    then write_vm_region_dirty fd (with_dirty (pages_dirtied r) true r)
    else write_region_pages fd (with_dirty (pages_dirtied r) false r)
  else write_region_pages fd r.

Definition write_context (fd : Z) (uctx : list Z) : M K Z :=
  bytes ← writeall fd uctx;
  mret (if bytes =? Z.of_nat (length uctx) then 0 else -1).

(** The loop of [write_ckpt] over the entries, [todo] of them; -1 is the jump
    to [bad].  Reading past an array is out of bounds. *)
Fixpoint write_entries (todo : nat) (fd : Z) (entries : list xnd_ckpt_entry) (regions : list xnd_vm_region)
    (uctx : list Z) : M K Z :=
  match todo with
  | O => mret 0
  | S todo =>
    match entries with
    | [] => ub
    | e :: entries =>
      bytes ← writeall fd (le_bytes 4 (entry_code e));
      if negb (bytes =? sizeof_entry) then mret (-1) else
      match e with
      | XND_VM_REGION_ENTRY =>
        match regions with
        | [] => ub
        | r :: regions =>
          err ← write_vm_region fd r;
          if negb (err =? 0) then mret (-1) else write_entries todo fd entries regions uctx
        end
      | XND_UCONTEXT_ENTRY =>
        err ← write_context fd uctx;
        if negb (err =? 0) then mret (-1) else write_entries todo fd entries regions uctx
      | XND_VM_PAGE_ENTRY => abort
      end
    end
  end.
End image.

(** [xnd_compress_ckpt] of [xnd/util/compress.c], which drives zlib. *)
Class CkptZlib (K : Type) := { xnd_compress_ckpt : Z -> cstr -> M K Z }.

Section write.
Context `{VmParams} {K : Type} `{IoSys K} `{VmMem K} `{FdSys K} `{FsSys K} `{UuidLib} `{CkptZlib K}.

(** The label [bad]. *)
Definition write_bad (dirfd fd : Z) : M (pstate K) Z :=
  on_k (close_unless dirfd);; on_k (close_unless fd);; mret (-1).

Definition write_ckpt (header : xnd_ckpt_header) (entries : list xnd_ckpt_entry)
    (regions : list xnd_vm_region) (uctx : list Z) : M (pstate K) Z :=
  use_zlib ← on_env env_use_zlib_compression;
  i ← gets g_ids;
  ckptfile ← deref (xnd_ckptfile_name XND_CKPTFILE_MAXLEN (xnd_pid i));
  dirfd ← on_k (xnd_ckptdir_open (h_xnd_uuid header) (epoch i));
  if dirfd <? 0 then write_bad dirfd (-1) else
  fd ← on_k (xnd_ckptfile_create dirfd ckptfile);
  if fd <? 0 then write_bad dirfd fd else
  bytes ← on_k (writeall fd (header_bytes header));
  if negb (bytes =? sizeof_header) then write_bad dirfd fd else
  err ← on_k (write_entries (Z.to_nat (h_entry_count header)) fd entries regions uctx);
  if negb (err =? 0) then write_bad dirfd fd else
  err ← (if (use_zlib : bool) then on_k (xnd_compress_ckpt dirfd ckptfile) else mret 0);
  if negb (err =? 0) then write_bad dirfd fd else
  on_k (fclose dirfd);; on_k (fclose fd);; mret 0.
End write.
