(* ===== verification/CkptRestore.v ===== *)
(** Reading a checkpoint image back: [xnd/readckpt.c] and the restoring half of
    [xnd/vm_restore.c]. *)

From S2P Require Import Prelude Bytes Io CkptFile VmRegion CkptImage.
Open Scope Z_scope.

Section restore.
Context `{VmParams} {K : Type} `{IoSys K} `{VmMem K} `{FdSys K}.

(** The memory at [addr] made writable, readable and zero. *)
Definition page_flags (r : xnd_vm_region) : Z := Z.lor VM_FLAGS_FIXED (VM_MAKE_TAG (tag r)).
Definition region_flags (r : xnd_vm_region) : Z :=
  Z.lor (Z.lor VM_FLAGS_FIXED VM_FLAGS_OVERWRITE) (VM_MAKE_TAG (tag r)).

Definition ckpt_vm_refresh_page (r : xnd_vm_region) (offset : Z) : M K Z :=
  let addr := start r + offset in
  ok ← (if negb (prot r =? VM_PROT_DEFAULT)
        then kcall (vm_protect addr VM_PAGE_SIZE false (prot r)) else mret true);
  if negb ok then mret (-1) else
  ok ← (if negb (max_prot r =? VM_PROT_ALL)
        then kcall (vm_protect addr VM_PAGE_SIZE true (max_prot r)) else mret true);
  if negb ok then mret (-1) else
  ok ← (if negb (inherit r =? VM_INHERIT_DEFAULT)
        then kcall (vm_set_inherit addr VM_PAGE_SIZE (inherit r)) else mret true);
  mret (if (ok : bool) then 0 else -1).

(** The assertion compares the page's address with the region's. *)
Definition ckpt_vm_map_page (r : xnd_vm_region) (offset : Z) : M K Z :=
  addr ← kcall (vm_map (start r + offset) VM_PAGE_SIZE (page_flags r));
  match addr with
  | None => mret (-1)
  | Some addr => xnd_assert (start r =? addr);; mret 0
  end.

Definition ckpt_vm_page_restore (fd : Z) (r : xnd_vm_region) (offset : Z) : M K Z :=
  let addr := start r + offset in
  bytes ← mem_readall fd addr VM_PAGE_SIZE;
  if bytes =? VM_PAGE_SIZE then mret 0 else
  errno ← gets k_errno;
  if negb (errno =? EFAULT) then mret (-1) else
  xnd_assert (bytes =? 0);;
  err ← ckpt_vm_map_page r offset;
  if negb (err =? 0) then mret (-1) else
  bytes ← mem_readall fd addr VM_PAGE_SIZE;
  if negb (bytes =? VM_PAGE_SIZE) then mret (-1) else
  ckpt_vm_refresh_page r offset;; mret 0.

Fixpoint restore_pages_loop (todo : nat) (fd : Z) (r : xnd_vm_region) : M K Z :=
  match todo with
  | O => mret 0
  | S todo =>
    data ← sys_readall fd sizeof_page;
    if negb (Z.of_nat (length data) =? sizeof_page) then mret (-1) else
    err ← ckpt_vm_page_restore fd r (fst (field_u 8 data));
    if negb (err =? 0) then mret (-1) else restore_pages_loop todo fd r
  end.
Definition ckpt_vm_restore_pages (fd : Z) (r : xnd_vm_region) : M K Z :=
  restore_pages_loop (Z.to_nat (pages_dirtied r)) fd r.

Definition ckpt_vm_map_region (r : xnd_vm_region) : M K Z :=
  addr ← kcall (vm_map (start r) (size r) (region_flags r));
  match addr with
  | None => mret (-1)
  | Some addr => xnd_assert (start r =? addr);; mret 0
  end.

Definition ckpt_vm_refresh_region (r : xnd_vm_region) : M K Z :=
  err ← (if negb (prot r =? VM_PROT_DEFAULT) then ckpt_vm_protect r false (prot r) else mret 0);
  if negb (err =? 0) then mret (-1) else
  err ← (if negb (max_prot r =? VM_PROT_ALL) then ckpt_vm_protect r true (max_prot r) else mret 0);
  if negb (err =? 0) then mret (-1) else
  ok ← (if negb (inherit r =? VM_INHERIT_DEFAULT)
        then kcall (vm_set_inherit (start r) (size r) (inherit r)) else mret true);
  mret (if (ok : bool) then 0 else -1).

(** [mach_task_self_ = task_self_trap()] when the region holds the variable. *)
Definition restore_task_port (r : xnd_vm_region) : M K unit :=
  if IN_VM_RANGE mach_task_self_ptr (start r) (start r + size r)
  then modify (fun k => mem_store mach_task_self_ptr (le_bytes 4 (task_self_trap k)) k)
  else mret tt.

Definition ckpt_vm_restore_region_pages (fd : Z) (r : xnd_vm_region) : M K Z :=
  let shared := DYLD_SHARED_CACHE_REGION (start r) (size r) in
  ret ← (if shared
         then ckpt_vm_protect r false (Z.lor (Z.lor VM_PROT_READ VM_PROT_WRITE) VM_PROT_COPY)
         else ckpt_vm_map_region r);
  if negb (ret =? 0) then mret (-1) else
  err ← ckpt_vm_restore_pages fd r;
  if negb (err =? 0) then mret (-1) else
  restore_task_port r;;
  if shared then ckpt_vm_protect r false (prot r) else ckpt_vm_refresh_region r.

Definition ckpt_vm_restore_region (fd : Z) (r : xnd_vm_region) : M K Z :=
  if ONLY_RESTORE_DIRTY_PAGES r && dirty_only r then ckpt_vm_restore_region_pages fd r else
  err ← ckpt_vm_map_region r;
  if negb (err =? 0) then mret (-1) else
  bread ← mem_readall fd (start r) (size r);
  if negb (bread =? size r) then mret (-1) else
  restore_task_port r;;
  err ← ckpt_vm_refresh_region r;
  if negb (err =? 0) then mret (-1) else mret 0.

(** ** [readckpt.c] *)

(** [None] for -1, else the region read. *)
Definition read_vm_region (fd : Z) : M K (option xnd_vm_region) :=
  data ← sys_readall fd sizeof_region;
  if negb (Z.of_nat (length data) =? sizeof_region) then mret None else
  let r := region_of_bytes data in
  err ← ckpt_vm_restore_region fd r;
  mret (if err <? 0 then None else Some r).

(** [sizeof(ucontext_t)], and the assignment of [uc_mcontext]: the machine's
    context is the one inside the structure. *)
Context (sizeof_uctx : Z) (fix_mcontext : list Z -> list Z).

Definition read_context (fd : Z) : M K (option (list Z)) :=
  data ← sys_readall fd sizeof_uctx;
  if negb (Z.of_nat (length data) =? sizeof_uctx) then mret None else mret (Some (fix_mcontext data)).

Record ckpt_in := CkptIn { in_entries : list Z; in_regions : list xnd_vm_region; in_uctx : option (list Z) }.

(** The loop of [read_ckpt]: [None] is the jump to [bad].  Storing a region
    past [nr] (the array's length) is out of bounds. *)
Fixpoint read_entries (todo : nat) (fd : Z) (nr : Z) (acc : ckpt_in) : M K (option ckpt_in) :=
  match todo with
  | O => mret (Some acc)
  | S todo =>
    data ← sys_readall fd sizeof_entry;
    if negb (Z.of_nat (length data) =? sizeof_entry) then mret None else
    let e := fst (field_u 4 data) in
    if e =? entry_code XND_VM_REGION_ENTRY then
      if nr <=? Z.of_nat (length (in_regions acc)) then ub else
      r ← read_vm_region fd;
      match r with
      | None => mret None
      | Some r => read_entries todo fd nr (CkptIn (in_entries acc ++ [e]) (in_regions acc ++ [r]) (in_uctx acc))
      end
    else if e =? entry_code XND_UCONTEXT_ENTRY then
      u ← read_context fd;
      match u with
      | None => mret None
      | Some u => read_entries todo fd nr (CkptIn (in_entries acc ++ [e]) (in_regions acc) (Some u))
      end
    else mret None
  end.

Definition read_ckpt (fd : Z) (header : xnd_ckpt_header) : M K (option ckpt_in) :=
  r ← read_entries (Z.to_nat (h_entry_count header)) fd (h_region_count header) (CkptIn [] [] None);
  fclose fd;;
  mret r.
End restore.
