(* ===== verification/CkptSpec.v ===== *)
(** What the kernel is assumed to do for a checkpoint: memory as a map from
    addresses to cells, the open checkpoint file, and the documented effect of
    each call on them.  Views are compared up to the pointwise equality of
    memory. *)

From S2P Require Import Prelude Bytes Io VmRegion CkptImage.
Open Scope Z_scope.

Record cell := Cell { c_byte : Z; c_prot : Z; c_max : Z; c_inherit : Z; c_tag : Z }.
Abbreviation vmap := (Z -> option cell).

Definition in_range (addr n a : Z) : bool := (addr <=? a) && (a <? addr + n).
Definition on_range (addr n : Z) (f : cell -> cell) (m : vmap) : vmap := fun a =>
  if in_range addr n a then f <$> m a else m a.

Definition set_byte (b : Z) (c : cell) : cell := Cell b (c_prot c) (c_max c) (c_inherit c) (c_tag c).
Definition set_prot (p : Z) (c : cell) : cell := Cell (c_byte c) p (c_max c) (c_inherit c) (c_tag c).
(** A new maximum also bounds the current protection. *)
Definition set_max (p : Z) (c : cell) : cell := Cell (c_byte c) (Z.land (c_prot c) p) p (c_inherit c) (c_tag c).
Definition set_inherit (i : Z) (c : cell) : cell := Cell (c_byte c) (c_prot c) (c_max c) i (c_tag c).

Definition vm_store (addr : Z) (bs : list Z) (m : vmap) : vmap := fun a =>
  if in_range addr (Z.of_nat (length bs)) a then set_byte (nth (Z.to_nat (a - addr)) bs 0) <$> m a else m a.
(** [VM_PROT_COPY] asks for a private copy and is no protection. *)
Definition vm_protected (addr n : Z) (max : bool) (p : Z) : vmap -> vmap :=
  on_range addr n (if max then set_max (Z.land p VM_PROT_ALL) else set_prot (Z.land p VM_PROT_ALL)).
Definition vm_mapped (addr n flags : Z) (m : vmap) : vmap := fun a =>
  if in_range addr n a
  then Some (Cell 0 VM_PROT_DEFAULT VM_PROT_ALL VM_INHERIT_DEFAULT (Z.land (Z.shiftr flags 24) 255)) else m a.
Definition vm_inherited (addr n i : Z) : vmap -> vmap := on_range addr n (set_inherit i).

Definition readable (o : option cell) : bool :=
  match o with Some c => negb (Z.land (c_prot c) VM_PROT_READ =? 0) | None => false end.
Definition writable (o : option cell) : bool :=
  match o with Some c => negb (Z.land (c_prot c) VM_PROT_WRITE =? 0) | None => false end.
Definition byte_at (m : vmap) (a : Z) : Z := match m a with Some c => c_byte c | None => 0 end.
Definition range (m : vmap) (addr n : Z) : list Z := byte_at m <$> seqZ addr n.

(** A protection may be asked for within the cell's maximum; with
    [VM_PROT_COPY] the copy's maximum is raised as needed. *)
Definition may_protect (max : bool) (p : Z) (o : option cell) : bool :=
  match o with
  | None => false
  | Some c => (Z.land p (c_max c) =? p) || (negb max && negb (Z.land p VM_PROT_COPY =? 0))
  end.

(** The page dispositions and the task's port are part of the view because no
    call of a checkpoint changes them. *)
Record view := View { v_vm : vmap; v_file : list Z; v_off : Z; v_disp : Z -> Z; v_port : Z }.
Definition v_mem (f : vmap -> vmap) (v : view) : view :=
  View (f (v_vm v)) (v_file v) (v_off v) (v_disp v) (v_port v).
Definition v_seek (off : Z) (v : view) : view := View (v_vm v) (v_file v) off (v_disp v) (v_port v).
Definition overwrite (f : list Z) (off : Z) (bs : list Z) : list Z :=
  take (Z.to_nat off) f ++ bs ++ drop (Z.to_nat off + length bs) f.
Definition v_write (bs : list Z) (v : view) : view :=
  View (v_vm v) (overwrite (v_file v) (v_off v) bs) (v_off v + Z.of_nat (length bs)) (v_disp v) (v_port v).
Definition v_rest (v : view) : list Z := drop (Z.to_nat (v_off v)) (v_file v).

#[global] Instance view_equiv : Equiv view := fun v w =>
  (forall a, v_vm v a = v_vm w a) /\ v_file v = v_file w /\ v_off v = v_off w /\
  (forall a, v_disp v a = v_disp w a) /\ v_port v = v_port w.
#[global] Instance view_equivalence : Equivalence (≡@{view}).
Proof.
  split.
  - intros v. by repeat split.
  - intros v w (H1 & H2 & H3 & H4 & H5). by repeat split; congruence.
  - intros u v w (H1 & H2 & H3 & H4 & H5) (G1 & G2 & G3 & G4 & G5). repeat split; congruence.
Qed.

(** The documented effects, for the descriptor [fd] of the checkpoint file. *)
Class VmSpec (K : Type) `{VmParams, IoSys K, VmMem K} (fd : Z) := {
  view_of : K -> view;
  page_size_pos : 0 < VM_PAGE_SIZE;
  spec_write : forall buf k r k', sys_write fd buf k = (r, k') -> buf <> [] ->
    0 < r <= Z.of_nat (length buf) /\ view_of k' ≡ v_write (take (Z.to_nat r) buf) (view_of k);
  spec_mem_write : forall addr n k r k', mem_write fd addr n k = (r, k') -> 0 < n ->
    if readable (v_vm (view_of k) addr)
    then 0 < r <= n /\ (forall a, addr <= a < addr + r -> readable (v_vm (view_of k) a) = true) /\
         view_of k' ≡ v_write (range (v_vm (view_of k)) addr r) (view_of k)
    else r = -1 /\ view_of k' ≡ view_of k;
  spec_read : forall n k d k', sys_read fd n k = (d, k') -> 0 < n ->
    exists data, d = Some data /\ Z.of_nat (length data) <= n /\
      (data = [] -> v_rest (view_of k) = []) /\ data = take (length data) (v_rest (view_of k)) /\
      view_of k' ≡ v_seek (v_off (view_of k) + Z.of_nat (length data)) (view_of k);
  spec_answers : forall n k, read_waits fd n k = false;
  spec_mem_read : forall addr n k r k', mem_read fd addr n k = (r, k') -> 0 < n ->
    v_rest (view_of k) <> [] ->
    if writable (v_vm (view_of k) addr)
    then 0 < r <= n /\ r <= Z.of_nat (length (v_rest (view_of k))) /\
         (forall a, addr <= a < addr + r -> writable (v_vm (view_of k) a) = true) /\
         view_of k' ≡ v_seek (v_off (view_of k) + r)
                        (v_mem (vm_store addr (take (Z.to_nat r) (v_rest (view_of k)))) (view_of k))
    else r = -1 /\ k_errno k' = EFAULT /\ view_of k' ≡ view_of k;
  spec_lseek_cur : forall k r k', lseek_cur fd k = (r, k') -> r = v_off (view_of k) /\ view_of k' ≡ view_of k;
  spec_lseek_set : forall off k r k', lseek_set fd off k = (r, k') -> 0 <= off ->
    r = off /\ view_of k' ≡ v_seek off (view_of k);
  spec_query : forall addr n k o k', vm_page_range_query addr n k = (o, k') ->
    o = Some ((fun i => v_disp (view_of k) (addr + i * VM_PAGE_SIZE)) <$> seqZ 0 (n / VM_PAGE_SIZE)) /\
    view_of k' ≡ view_of k;
  spec_protect : forall addr n max p k ok k', vm_protect addr n max p k = (ok, k') ->
    (forall a, addr <= a < addr + n -> may_protect max p (v_vm (view_of k) a) = true) ->
    ok = true /\ view_of k' ≡ v_mem (vm_protected addr n max p) (view_of k);
  spec_map : forall addr n flags k o k', vm_map addr n flags k = (o, k') ->
    addr mod VM_PAGE_SIZE = 0 -> n mod VM_PAGE_SIZE = 0 ->
    o = Some addr /\ view_of k' ≡ v_mem (vm_mapped addr n flags) (view_of k);
  spec_inherit : forall addr n i k ok k', vm_set_inherit addr n i k = (ok, k') ->
    (forall a, addr <= a < addr + n -> v_vm (view_of k) a <> None) ->
    ok = true /\ view_of k' ≡ v_mem (vm_inherited addr n i) (view_of k);
  spec_store : forall addr bs k,
    (forall a, addr <= a < addr + Z.of_nat (length bs) -> writable (v_vm (view_of k) a) = true) ->
    view_of (mem_store addr bs k) ≡ v_mem (vm_store addr bs) (view_of k);
  spec_port : forall k, task_self_trap k = v_port (view_of k);
}.

(** ** Setoid rewriting *)
Lemma view_eq_intro (v w : view) : v = w -> v ≡ w.
Proof. by intros ->. Qed.

Definition vmap_eq : relation vmap := pointwise_relation Z eq.

#[global] Instance v_mem_proper : Proper ((vmap_eq ==> vmap_eq) ==> (≡) ==> (≡)) v_mem.
Proof. intros f g Hf v w (H1 & H2 & H3 & H4 & H5). by repeat split; [apply Hf|..]. Qed.
#[global] Instance v_seek_proper : Proper (eq ==> (≡) ==> (≡)) v_seek.
Proof. intros o o' <- v w (H1 & H2 & H3 & H4 & H5). by repeat split. Qed.
#[global] Instance same_mem_proper : Proper (vmap_eq ==> vmap_eq) (fun m : vmap => m).
Proof. by intros m m' Hm. Qed.
#[global] Instance if_mem_proper (b : bool) (f g : vmap -> vmap) :
  Proper (vmap_eq ==> vmap_eq) f -> Proper (vmap_eq ==> vmap_eq) g ->
  Proper (vmap_eq ==> vmap_eq) (if b then f else g).
Proof. by destruct b. Qed.
#[global] Instance v_write_proper bs : Proper ((≡) ==> (≡)) (v_write bs).
Proof. intros v w (H1 & H2 & H3 & H4 & H5). repeat split; cbn; [done|by rewrite H2, H3|by rewrite H3|done|done]. Qed.
#[global] Instance v_rest_proper : Proper ((≡) ==> eq) v_rest.
Proof. intros v w (H1 & H2 & H3 & H4 & H5). unfold v_rest. by rewrite H2, H3. Qed.
#[global] Instance v_off_proper : Proper ((≡) ==> eq) v_off.
Proof. by intros v w (H1 & H2 & H3 & H4 & H5). Qed.
#[global] Instance v_file_proper : Proper ((≡) ==> eq) v_file.
Proof. by intros v w (H1 & H2 & H3 & H4 & H5). Qed.
#[global] Instance v_port_proper : Proper ((≡) ==> eq) v_port.
Proof. by intros v w (H1 & H2 & H3 & H4 & H5). Qed.
#[global] Instance v_vm_proper : Proper ((≡) ==> eq ==> eq) v_vm.
Proof. intros v w (H1 & H2 & H3 & H4 & H5) a b ->. done. Qed.
#[global] Instance v_disp_proper : Proper ((≡) ==> eq ==> eq) v_disp.
Proof. intros v w (H1 & H2 & H3 & H4 & H5) a b ->. done. Qed.
#[global] Instance on_range_proper addr n f : Proper (vmap_eq ==> vmap_eq) (on_range addr n f).
Proof. intros m m' H a. unfold on_range. by rewrite (H a). Qed.
#[global] Instance vm_store_proper addr bs : Proper (vmap_eq ==> vmap_eq) (vm_store addr bs).
Proof. intros m m' H a. unfold vm_store. by rewrite (H a). Qed.
#[global] Instance vm_protected_proper addr n max p : Proper (vmap_eq ==> vmap_eq) (vm_protected addr n max p).
Proof. unfold vm_protected. apply _. Qed.
#[global] Instance vm_mapped_proper addr n flags : Proper (vmap_eq ==> vmap_eq) (vm_mapped addr n flags).
Proof. intros m m' H a. unfold vm_mapped. by rewrite (H a). Qed.
#[global] Instance vm_inherited_proper addr n i : Proper (vmap_eq ==> vmap_eq) (vm_inherited addr n i).
Proof. unfold vm_inherited. apply _. Qed.

Lemma range_ext m m' addr n : (forall a, addr <= a < addr + n -> m a = m' a) -> range m addr n = range m' addr n.
Proof.
  intros H. unfold range. apply list_fmap_ext. intros i x Hi.
  apply lookup_seqZ in Hi as [-> Hi]. unfold byte_at. rewrite H by lia. done.
Qed.
Lemma range_length m addr n : 0 <= n -> Z.of_nat (length (range m addr n)) = n.
Proof. intros H. unfold range. rewrite length_fmap, length_seqZ. lia. Qed.
Lemma range_app m addr n p : 0 <= n -> 0 <= p -> range m addr (n + p) = range m addr n ++ range m (addr + n) p.
Proof. intros Hn Hp. unfold range. by rewrite seqZ_app, fmap_app by lia. Qed.
Lemma range_nth m addr n a : addr <= a < addr + n -> nth (Z.to_nat (a - addr)) (range m addr n) 0 = byte_at m a.
Proof.
  intros Ha. unfold range. apply nth_lookup_Some. rewrite list_lookup_fmap, lookup_seqZ_lt by lia.
  cbn. do 2 f_equal. lia.
Qed.
