(* ===== verification/CkptWrite.v ===== *)
(** What [writeckpt.c] puts into a checkpoint file: the image of a region, of an
    entry list, and the theorem that the code writes it. *)

From S2P Require Import Prelude Bytes Io VmRegion CkptImage CkptSpec.
Open Scope Z_scope.

Definition v_append (bs : list Z) (v : view) : view :=
  View (v_vm v) (v_file v ++ bs) (v_off v + Z.of_nat (length bs)) (v_disp v) (v_port v).
Definition at_end (v : view) : Prop := v_off v = Z.of_nat (length (v_file v)).

#[global] Instance v_append_proper bs : Proper ((≡) ==> (≡)) (v_append bs).
Proof. intros v w (H1 & H2 & H3 & H4 & H5). repeat split; cbn; [done|by rewrite H2|by rewrite H3|done|done]. Qed.
#[global] Instance at_end_proper : Proper ((≡) ==> iff) at_end.
Proof. intros v w (H1 & H2 & H3 & H4 & H5). unfold at_end. by rewrite H2, H3. Qed.

Lemma v_write_end bs v : at_end v -> v_write bs v ≡ v_append bs v.
Proof.
  unfold at_end, v_write, v_append, overwrite. intros ->. apply view_eq_intro. f_equal.
  rewrite Nat2Z.id, firstn_all, drop_ge by lia. by rewrite app_nil_r.
Qed.
Lemma at_end_append bs v : at_end v -> at_end (v_append bs v).
Proof. unfold at_end. cbn. intros ->. rewrite length_app. lia. Qed.
Lemma v_append_app a b v : v_append b (v_append a v) ≡ v_append (a ++ b) v.
Proof. apply view_eq_intro. unfold v_append. cbn. rewrite <- app_assoc, length_app. f_equal. lia. Qed.
Lemma v_append_nil v : v_append [] v ≡ v.
Proof. apply view_eq_intro. destruct v. unfold v_append. cbn. f_equal; [apply app_nil_r|lia]. Qed.

(** ** The image *)
Section format.
Context `{VmParams}.

Definition page_offsets (r : xnd_vm_region) : list Z :=
  (fun i => i * VM_PAGE_SIZE) <$> seqZ 0 (size r / VM_PAGE_SIZE).
Definition dirty_page (v : view) (r : xnd_vm_region) (offset : Z) : bool := page_dirty (v_disp v (start r + offset)).
Definition dirty_offsets (v : view) (r : xnd_vm_region) : list Z := List.filter (dirty_page v r) (page_offsets r).
Definition page_image (v : view) (r : xnd_vm_region) (offset : Z) : list Z :=
  le_bytes 8 offset ++ range (v_vm v) (start r + offset) VM_PAGE_SIZE.

(** The region as the file describes it, and the region with its contents. *)
Definition saved_region (v : view) (r : xnd_vm_region) : xnd_vm_region :=
  if save_dirty_only r then with_dirty (u32 (Z.of_nat (length (dirty_offsets v r)))) true r
  else if ONLY_SAVE_DIRTY_PAGES r then with_dirty (pages_dirtied r) false r else r.
Definition region_image (v : view) (r : xnd_vm_region) : list Z :=
  region_bytes (saved_region v r) ++
  (if save_dirty_only r then List.flat_map (page_image v r) (dirty_offsets v r) else range (v_vm v) (start r) (size r)).

Fixpoint entries_image (v : view) (entries : list xnd_ckpt_entry) (regions : list xnd_vm_region) (uctx : list Z)
    : list Z :=
  match entries with
  | [] => []
  | XND_VM_REGION_ENTRY :: entries =>
    match regions with
    | [] => []
    | r :: regions => le_bytes 4 (entry_code XND_VM_REGION_ENTRY) ++ region_image v r ++
                      entries_image v entries regions uctx
    end
  | e :: entries => le_bytes 4 (entry_code e) ++ uctx ++ entries_image v entries regions uctx
  end.
End format.

(** The image depends on the memory and the dispositions only. *)
Definition mem_eq (v w : view) : Prop := (forall a, v_vm v a = v_vm w a) /\ (forall a, v_disp v a = v_disp w a).
Lemma view_mem_eq (v w : view) : v ≡ w -> mem_eq v w.
Proof. by intros (H1 & H2 & H3 & H4 & H5). Qed.
Lemma mem_eq_append bs v : mem_eq (v_append bs v) v.
Proof. done. Qed.

Section mem_eq.
Context `{VmParams} (v w : view) (Heq : mem_eq v w).

Lemma mem_eq_dirty_page r x : dirty_page v r x = dirty_page w r x.
Proof. unfold dirty_page. by rewrite (proj2 Heq). Qed.
Lemma mem_eq_dirty_offsets r : dirty_offsets v r = dirty_offsets w r.
Proof. apply List.filter_ext. intros x. apply mem_eq_dirty_page. Qed.
Lemma mem_eq_range addr n : range (v_vm v) addr n = range (v_vm w) addr n.
Proof. apply range_ext. intros. apply Heq. Qed.
Lemma mem_eq_page_image r x : page_image v r x = page_image w r x.
Proof. unfold page_image. by rewrite mem_eq_range. Qed.
Lemma mem_eq_saved_region r : saved_region v r = saved_region w r.
Proof. unfold saved_region. by rewrite mem_eq_dirty_offsets. Qed.
Lemma mem_eq_region_image r : region_image v r = region_image w r.
Proof.
  unfold region_image. rewrite mem_eq_saved_region, mem_eq_dirty_offsets, mem_eq_range. f_equal.
  destruct (save_dirty_only r); [|done]. apply List.flat_map_ext, mem_eq_page_image.
Qed.
Lemma mem_eq_entries_image entries regions uctx :
  entries_image v entries regions uctx = entries_image w entries regions uctx.
Proof.
  revert regions. induction entries as [|[] entries IH]; intros regions; cbn [entries_image]; [done|..]; [|by rewrite IH..].
  destruct regions; [done|]. by rewrite IH, mem_eq_region_image.
Qed.
End mem_eq.

(** ** Transfers *)
Section write.
Context {K : Type} `{!VmParams, !IoSys K, !VmMem K} (fd : Z) `{!VmSpec K fd}.
Implicit Types k : K.

(** [bs] has been appended to the file, and nothing else has changed. *)
Definition appended k (bs : list Z) k' : Prop := view_of k' ≡ v_append bs (view_of k) /\ at_end (view_of k').

Lemma appended_nil k k' : at_end (view_of k) -> view_of k' ≡ view_of k -> appended k [] k'.
Proof. intros He Hv. split; [by rewrite v_append_nil|by rewrite Hv]. Qed.
Lemma appended_trans k a k1 b k2 : appended k a k1 -> appended k1 b k2 -> appended k (a ++ b) k2.
Proof. intros [H1 _] [H2 He]. split; [|done]. by rewrite H2, H1, v_append_app. Qed.
Lemma appended_vm k bs k' a : appended k bs k' -> v_vm (view_of k') a = v_vm (view_of k) a.
Proof. intros [H1 _]. by rewrite H1. Qed.
Lemma appended_disp k bs k' a : appended k bs k' -> v_disp (view_of k') a = v_disp (view_of k) a.
Proof. intros [H1 _]. by rewrite H1. Qed.
Lemma appended_file k bs k' : appended k bs k' -> v_file (view_of k') = v_file (view_of k) ++ bs.
Proof. intros [H1 _]. by rewrite H1. Qed.
Lemma appended_mem_eq k bs k' : appended k bs k' -> mem_eq (view_of k') (view_of k).
Proof. intros [H1 _]. by apply view_mem_eq in H1. Qed.
Lemma appended_write k bs k' : at_end (view_of k) -> view_of k' ≡ v_write bs (view_of k) -> appended k bs k'.
Proof. intros He Hv. rewrite v_write_end in Hv by done. split; [done|]. rewrite Hv. by apply at_end_append. Qed.

Lemma writeall_loop_ok fuel buf bytes k :
  0 <= bytes < Z.of_nat (length buf) -> (length buf < fuel + Z.to_nat bytes)%nat -> at_end (view_of k) ->
  returns (writeall_loop fuel fd buf bytes) k (fun n k' =>
    n = Z.of_nat (length buf) /\ appended k (drop (Z.to_nat bytes) buf) k').
Proof.
  revert bytes k. induction fuel as [|fuel IH]; intros bytes k Hb Hf He; [lia|].
  unfold returns. cbn [writeall_loop].
  destruct (sys_write fd (drop (Z.to_nat bytes) buf) k) as [r k1] eqn:E.
  apply spec_write in E as [Hr Hv].
  2:{ intros Hd. apply (f_equal length) in Hd. rewrite length_drop in Hd. cbn in Hd. lia. }
  apply appended_write in Hv as Ha; [|done]. rewrite length_drop in Hr.
  rewrite (proj2 (Z.eqb_neq _ _)) by lia.
  destruct (Z.ltb_spec (bytes + r) (Z.of_nat (length buf))).
  - destruct (returns_inv _ _ _ (IH (bytes + r) k1 ltac:(lia) ltac:(lia) (proj2 Ha))) as (n & k' & -> & -> & Ha').
    split; [done|]. pose proof (appended_trans _ _ _ _ _ Ha Ha') as Ht.
    replace (Z.to_nat (bytes + r)) with (Z.to_nat bytes + Z.to_nat r)%nat in Ht by lia.
    by rewrite <- drop_drop, take_drop in Ht.
  - split; [lia|]. by rewrite take_ge in Ha by (rewrite length_drop; lia).
Qed.

Lemma writeall_ok buf k : buf <> [] -> at_end (view_of k) ->
  returns (writeall fd buf) k (fun n k' => n = Z.of_nat (length buf) /\ appended k buf k').
Proof. intros Hb He. apply writeall_loop_ok; [|cbn; lia|done]. destruct buf; [done|cbn; lia]. Qed.

Lemma mem_writeall_loop_ok fuel addr n bytes k :
  0 <= bytes < n -> (Z.to_nat n < fuel + Z.to_nat bytes)%nat -> at_end (view_of k) ->
  (forall a, addr + bytes <= a < addr + n -> readable (v_vm (view_of k) a) = true) ->
  returns (mem_writeall_loop fuel fd addr n bytes) k (fun r k' =>
    r = n /\ appended k (range (v_vm (view_of k)) (addr + bytes) (n - bytes)) k').
Proof.
  revert bytes k. induction fuel as [|fuel IH]; intros bytes k Hb Hf He Hr; [lia|].
  cbn [mem_writeall_loop]. unfold kcall at 1.
  destruct (mem_write fd (addr + bytes) (n - bytes) k) as [r k1] eqn:E.
  eapply returns_step; [by rewrite E|].
  apply spec_mem_write in E; [|lia]. rewrite Hr in E by lia. destruct E as (Hrr & _ & Hv).
  apply appended_write in Hv as Ha; [|done]. rewrite (proj2 (Z.eqb_neq _ _)) by lia.
  destruct (Z.ltb_spec (bytes + r) n).
  - eapply returns_weaken; [apply IH; [lia|lia|apply Ha|]|].
    { intros a Haa. rewrite (appended_vm _ _ _ _ Ha). apply Hr. lia. }
    intros m k' [-> Ha']. split; [done|]. pose proof (appended_trans _ _ _ _ _ Ha Ha') as Ht.
    rewrite (range_ext (v_vm (view_of k1)) (v_vm (view_of k))) in Ht by (intros; by rewrite (appended_vm _ _ _ _ Ha)).
    rewrite Z.add_assoc, <- range_app in Ht by lia.
    by replace (r + (n - (bytes + r))) with (n - bytes) in Ht by lia.
  - apply returns_ret. split; [lia|]. by replace (n - bytes) with r by lia.
Qed.

Lemma mem_writeall_ok addr n k : 0 < n -> at_end (view_of k) ->
  (forall a, addr <= a < addr + n -> readable (v_vm (view_of k) a) = true) ->
  returns (mem_writeall fd addr n) k (fun r k' => r = n /\ appended k (range (v_vm (view_of k)) addr n) k').
Proof.
  intros Hn He Hr. eapply returns_weaken; [apply mem_writeall_loop_ok; [lia|lia|done|]|].
  - intros a Ha. apply Hr. lia.
  - intros r k'. by rewrite Z.add_0_r, Z.sub_0_r.
Qed.

(** ** Regions

    A region the walk found: page-aligned, mapped, with the protection the
    record gives and a maximum that lets it be made readable; one saved by its
    dirty pages is readable as it is. *)
Record region_ok (v : view) (r : xnd_vm_region) : Prop := {
  ro_start : 0 <= start r;
  ro_size : 0 < size r;
  ro_end : start r + size r < 2 ^ 64;
  ro_start_aligned : start r mod VM_PAGE_SIZE = 0;
  ro_size_aligned : size r mod VM_PAGE_SIZE = 0;
  ro_pages : size r / VM_PAGE_SIZE < 2 ^ 32;
  ro_prot : 0 <= prot r < 8;
  ro_cells : forall a, start r <= a < start r + size r -> exists c, v_vm v a = Some c /\
    c_prot c = prot r /\ Z.land (Z.lor (prot r) VM_PROT_READ) (c_max c) = Z.lor (prot r) VM_PROT_READ;
  ro_dirty : save_dirty_only r = true -> Z.land (prot r) VM_PROT_READ <> 0
}.

Lemma region_ok_appended k bs k' r : region_ok (view_of k) r -> appended k bs k' -> region_ok (view_of k') r.
Proof.
  intros Hr Ha. destruct Hr. split; try done. intros a Haa. rewrite (appended_vm _ _ _ _ Ha). auto.
Qed.

Lemma region_readable v r a : region_ok v r -> Z.land (prot r) VM_PROT_READ <> 0 ->
  start r <= a < start r + size r -> readable (v_vm v a) = true.
Proof.
  intros Hr Hp Ha. destruct (ro_cells _ _ Hr a Ha) as (c & Hc & Hcp & _). unfold readable.
  rewrite Hc, Hcp. by rewrite (proj2 (Z.eqb_neq _ _) Hp).
Qed.

Lemma region_size_pages v r : region_ok v r -> size r = size r / VM_PAGE_SIZE * VM_PAGE_SIZE /\ 0 <= size r / VM_PAGE_SIZE.
Proof.
  intros Hr. pose proof (page_size_pos (fd := fd)). pose proof (ro_size _ _ Hr). pose proof (ro_size_aligned _ _ Hr).
  split; [|apply Z.div_pos; lia]. rewrite Z.mul_comm. apply Z_div_exact_full_2; lia.
Qed.

(** A page of a region lies inside it. *)
Lemma page_inside v r i a : region_ok v r -> 0 <= i < size r / VM_PAGE_SIZE ->
  start r + i * VM_PAGE_SIZE <= a < start r + i * VM_PAGE_SIZE + VM_PAGE_SIZE -> start r <= a < start r + size r.
Proof.
  intros Hr Hi Ha. destruct (region_size_pages v r Hr) as [Hs _]. pose proof (page_size_pos (fd := fd)).
  assert (i * VM_PAGE_SIZE + VM_PAGE_SIZE <= size r / VM_PAGE_SIZE * VM_PAGE_SIZE) by nia. nia.
Qed.

Lemma writeall_le n z k : (n <> 0)%nat -> at_end (view_of k) ->
  returns (writeall fd (le_bytes n z)) k (fun m k' => m = Z.of_nat n /\ appended k (le_bytes n z) k').
Proof.
  intros Hn He. eapply returns_weaken; [apply writeall_ok; [|done]|].
  - destruct n; [done|discriminate].
  - intros m k'. by rewrite le_bytes_length.
Qed.

Lemma write_vm_page_ok r i k : at_end (view_of k) -> region_ok (view_of k) r ->
  Z.land (prot r) VM_PROT_READ <> 0 -> 0 <= i < size r / VM_PAGE_SIZE ->
  returns (write_vm_page fd r (i * VM_PAGE_SIZE)) k (fun e k' =>
    e = 0 /\ appended k (page_image (view_of k) r (i * VM_PAGE_SIZE)) k').
Proof.
  intros He Hr Hp Hi. unfold write_vm_page. apply returns_bind.
  eapply returns_weaken; [by apply writeall_le|]. intros m k1 [-> Ha1]. cbn [Z.of_nat].
  change (negb (8 =? sizeof_page)) with false. cbv iota.
  apply returns_bind. eapply returns_weaken; [apply mem_writeall_ok; [apply (page_size_pos (fd := fd))|apply Ha1|]|].
  { intros a Haa. rewrite (appended_vm _ _ _ _ Ha1). eapply region_readable; [done|done|]. by eapply page_inside. }
  intros m k2 [-> Ha2]. rewrite Z.eqb_refl. cbn [negb]. apply returns_ret. split; [done|].
  pose proof (appended_trans _ _ _ _ _ Ha1 Ha2) as Ht. unfold page_image.
  by rewrite (range_ext (v_vm (view_of k1)) (v_vm (view_of k))) in Ht by (intros; by rewrite (appended_vm _ _ _ _ Ha1)).
Qed.

(** The pages from [idx] on. *)
Definition pages_from (idx : Z) (n : nat) : list Z := (fun i => i * VM_PAGE_SIZE) <$> seqZ idx (Z.of_nat n).
Definition disps_from (v : view) (r : xnd_vm_region) (idx : Z) (n : nat) : list Z :=
  (fun i => v_disp v (start r + i * VM_PAGE_SIZE)) <$> seqZ idx (Z.of_nat n).
Lemma seqZ_S' m n : seqZ m (Z.of_nat (S n)) = m :: seqZ (m + 1) (Z.of_nat n).
Proof. rewrite seqZ_cons by lia. by rewrite Nat2Z.inj_succ, Z.pred_succ. Qed.
Lemma pages_from_S idx n : pages_from idx (S n) = idx * VM_PAGE_SIZE :: pages_from (idx + 1) n.
Proof. unfold pages_from. rewrite seqZ_S'. done. Qed.
Lemma disps_from_S v r idx n :
  disps_from v r idx (S n) = v_disp v (start r + idx * VM_PAGE_SIZE) :: disps_from v r (idx + 1) n.
Proof. unfold disps_from. rewrite seqZ_S'. done. Qed.
Lemma filter_disps v r idx n :
  length (List.filter page_dirty (disps_from v r idx n)) = length (List.filter (dirty_page v r) (pages_from idx n)).
Proof.
  revert idx. induction n as [|n IH]; intros idx; [done|]. rewrite pages_from_S, disps_from_S. cbn [List.filter].
  unfold dirty_page at 1. destruct (page_dirty _); cbn [length]; by rewrite IH.
Qed.

Lemma write_dirty_loop_ok r n idx pg k :
  at_end (view_of k) -> region_ok (view_of k) r -> Z.land (prot r) VM_PROT_READ <> 0 ->
  0 <= pg <= idx -> idx + Z.of_nat n <= size r / VM_PAGE_SIZE ->
  let todo := List.filter (dirty_page (view_of k) r) (pages_from idx n) in
  let dirty := pg + Z.of_nat (length todo) in
  returns (write_dirty_loop fd r dirty (disps_from (view_of k) r idx n) idx pg) k (fun o k' =>
    o = Some dirty /\ appended k (List.flat_map (page_image (view_of k) r) todo) k').
Proof.
  revert idx pg k. induction n as [|n IH]; intros idx pg k He Hr Hp Hpg Hn todo dirty.
  { apply returns_ret. split; [|by apply appended_nil]. unfold dirty. change (Some pg = Some (pg + 0)). by rewrite Z.add_0_r. }
  subst todo dirty. rewrite disps_from_S, pages_from_S. cbn [write_dirty_loop List.filter].
  change (page_dirty (v_disp (view_of k) (start r + idx * VM_PAGE_SIZE)))
    with (dirty_page (view_of k) r (idx * VM_PAGE_SIZE)).
  specialize (IH (idx + 1)).
  destruct (dirty_page (view_of k) r (idx * VM_PAGE_SIZE)); cbn [length List.flat_map].
  - rewrite (proj2 (Z.leb_gt _ _)) by lia. apply returns_bind.
    eapply returns_weaken; [by apply write_vm_page_ok; [..|lia]|]. intros e k1 [-> Ha1]. cbn [negb Z.eqb].
    pose proof (region_ok_appended _ _ _ _ Hr Ha1) as Hr1.
    assert (view_of k1 ≡ v_append (page_image (view_of k) r (idx * VM_PAGE_SIZE)) (view_of k)) as Hv1 by apply Ha1.
    assert (List.filter (dirty_page (view_of k1) r) (pages_from (idx + 1) n) =
            List.filter (dirty_page (view_of k) r) (pages_from (idx + 1) n)) as Hf.
    { apply List.filter_ext. intros x. unfold dirty_page. by rewrite (appended_disp _ _ _ _ Ha1). }
    assert (disps_from (view_of k1) r (idx + 1) n = disps_from (view_of k) r (idx + 1) n) as Hd.
    { apply list_fmap_ext. intros i x _. by rewrite (appended_disp _ _ _ _ Ha1). }
    specialize (IH (pg + 1) k1 (proj2 Ha1) Hr1 Hp ltac:(lia) ltac:(lia)). cbn zeta in IH. rewrite Hf, Hd in IH.
    replace (pg + Z.of_nat (S (length (List.filter (dirty_page (view_of k) r) (pages_from (idx + 1) n)))))
      with (pg + 1 + Z.of_nat (length (List.filter (dirty_page (view_of k) r) (pages_from (idx + 1) n)))) by lia.
    eapply returns_weaken; [apply IH|]. intros o k2 [-> Ha2]. split; [done|].
    eapply appended_trans; [done|]. erewrite List.flat_map_ext; [apply Ha2|].
    intros x. unfold page_image. f_equal. apply range_ext. intros. by rewrite (appended_vm _ _ _ _ Ha1).
  - destruct (Z.leb_spec (pg + Z.of_nat (length (List.filter (dirty_page (view_of k) r) (pages_from (idx + 1) n)))) pg)
      as [Hle|Hgt].
    + assert (List.filter (dirty_page (view_of k) r) (pages_from (idx + 1) n) = []) as ->.
      { destruct (List.filter _ _); [done|cbn in Hle; lia]. }
      cbn [length]. rewrite (proj2 (Z.leb_le (pg + Z.of_nat 0) idx)) by lia. cbn [xnd_assert].
      unfold xnd_assert. eapply returns_step; [reflexivity|]. apply returns_ret.
      split; [f_equal; lia|by apply appended_nil].
    + apply (IH pg k); [done|done|done|lia|lia].
Qed.

Lemma dirty_offsets_pages v r : 0 <= size r / VM_PAGE_SIZE ->
  dirty_offsets v r = List.filter (dirty_page v r) (pages_from 0 (Z.to_nat (size r / VM_PAGE_SIZE))).
Proof. intros Hs. unfold dirty_offsets, page_offsets, pages_from. by rewrite Z2Nat.id by done. Qed.

Lemma region_bytes_length r : Z.of_nat (length (region_bytes r)) = sizeof_region.
Proof. unfold region_bytes. rewrite !length_app, !le_bytes_length. done. Qed.
Lemma region_bytes_nonnil r : region_bytes r <> [].
Proof. intros Hnil. pose proof (region_bytes_length r) as Hl. by rewrite Hnil in Hl. Qed.

Lemma write_region_bytes r k : at_end (view_of k) ->
  returns (writeall fd (region_bytes r)) k (fun n k' => n = sizeof_region /\ appended k (region_bytes r) k').
Proof.
  intros He. eapply returns_weaken; [apply writeall_ok; [apply region_bytes_nonnil|done]|].
  intros n k'. by rewrite region_bytes_length.
Qed.

Lemma kcall_step {A B} (f : K -> A * K) (g : A -> M K B) k a k' Q :
  f k = (a, k') -> returns (g a) k' Q -> returns (kcall f ≫= g) k Q.
Proof. intros Hf. apply returns_step. unfold kcall. by rewrite Hf. Qed.

Lemma saved_region_start v r : start (saved_region v r) = start r /\ size (saved_region v r) = size r.
Proof. unfold saved_region. by destruct (save_dirty_only r), (ONLY_SAVE_DIRTY_PAGES r). Qed.

Lemma write_vm_region_dirty_ok r k :
  at_end (view_of k) -> region_ok (view_of k) r -> save_dirty_only r = true ->
  returns (write_vm_region_dirty fd (with_dirty (pages_dirtied r) true r)) k (fun e k' =>
    e = 0 /\ appended k (region_image (view_of k) r) k').
Proof.
  intros He Hr Hd. pose proof (ro_dirty _ _ Hr Hd) as Hp. destruct (region_size_pages _ _ Hr) as [Hs Hn].
  set (r' := with_dirty (pages_dirtied r) true r).
  unfold write_vm_region_dirty. change (size r') with (size r). change (start r') with (start r).
  rewrite (proj2 (Z.eqb_eq _ _) (ro_size_aligned _ _ Hr)). eapply returns_step; [reflexivity|].
  destruct (vm_page_range_query (start r) (size r) k) as [o k1] eqn:Eq.
  eapply kcall_step; [exact Eq|]. apply spec_query in Eq as [-> Hv1].
  assert (appended k [] k1) as Ha1 by by apply appended_nil.
  pose proof (region_ok_appended _ _ _ _ Hr Ha1) as Hr1.
  set (n := Z.to_nat (size r / VM_PAGE_SIZE)).
  assert (disps_from (view_of k1) r 0 n =
    (fun i => v_disp (view_of k) (start r + i * VM_PAGE_SIZE)) <$> seqZ 0 (size r / VM_PAGE_SIZE)) as <-.
  { unfold disps_from, n. rewrite Z2Nat.id by done. apply list_fmap_ext. intros i x _. by rewrite Hv1. }
  rewrite (proj2 (Z.eqb_eq (Z.of_nat (length _)) _)).
  2:{ unfold disps_from. rewrite length_fmap, length_seqZ. unfold n. lia. }
  eapply returns_step; [reflexivity|]. rewrite filter_disps.
  assert (dirty_offsets (view_of k) r = List.filter (dirty_page (view_of k1) r) (pages_from 0 n)) as Hoff.
  { rewrite <- dirty_offsets_pages by done. by apply mem_eq_dirty_offsets, view_mem_eq. }
  rewrite <- Hoff. change (dirty_only r') with true.
  change (with_dirty ?x true r') with (with_dirty x true r).
  assert (0 <= Z.of_nat (length (dirty_offsets (view_of k) r)) < 2 ^ 32) as Hlen.
  { pose proof (filter_disps (view_of k1) r 0 n) as Hfd. rewrite <- Hoff in Hfd. rewrite <- Hfd.
    pose proof (List.filter_length_le page_dirty (disps_from (view_of k1) r 0 n)) as Hl.
    unfold disps_from in Hl at 2. rewrite length_fmap, length_seqZ, Nat2Z.id in Hl.
    pose proof (ro_pages _ _ Hr). assert (Z.of_nat n = size r / VM_PAGE_SIZE) by (unfold n; lia). lia. }
  apply returns_bind. eapply returns_weaken; [apply write_region_bytes, Ha1|]. intros m k2 [-> Ha2].
  rewrite Z.eqb_refl. cbn [negb]. pose proof (region_ok_appended _ _ _ _ Hr1 Ha2) as Hr2.
  assert (appended k (region_bytes (saved_region (view_of k) r)) k2) as Hak2.
  { pose proof (appended_trans _ _ _ _ _ Ha1 Ha2) as Ht. unfold saved_region. by rewrite Hd. }
  assert (dirty_offsets (view_of k) r = List.filter (dirty_page (view_of k2) r) (pages_from 0 n)) as Hoff2.
  { rewrite Hoff. apply List.filter_ext. intros x. unfold dirty_page. by rewrite (appended_disp _ _ _ _ Ha2). }
  assert (disps_from (view_of k1) r 0 n = disps_from (view_of k2) r 0 n) as ->.
  { apply list_fmap_ext. intros i x _. by rewrite (appended_disp _ _ _ _ Ha2). }
  apply returns_bind. rewrite wrapu_small by exact Hlen.
  pose proof (write_dirty_loop_ok r' n 0 0 k2 (proj2 Ha2)) as Hloop. cbn zeta in Hloop.
  change (disps_from (view_of k2) r' 0 n) with (disps_from (view_of k2) r 0 n) in Hloop.
  change (dirty_page (view_of k2) r') with (dirty_page (view_of k2) r) in Hloop. rewrite <- Hoff2 in Hloop.
  eapply returns_weaken; [apply Hloop|].
  { by destruct Hr2. }
  { done. }
  { lia. }
  { change (size r') with (size r). unfold n. lia. }
  intros o k3 [-> Ha3]. rewrite Z.eqb_refl. eapply returns_step; [reflexivity|]. apply returns_ret. split; [done|].
  unfold region_image. rewrite Hd. eapply appended_trans; [exact Hak2|].
  erewrite List.flat_map_ext; [exact Ha3|]. intros x. unfold page_image. f_equal. apply range_ext. intros.
  by rewrite (appended_vm _ _ _ _ Hak2).
Qed.

Lemma write_all_pages_loop_ok n r p seek k :
  at_end (view_of k) -> 0 <= p -> p + Z.of_nat n <= size r / VM_PAGE_SIZE ->
  (forall a, start r + p * VM_PAGE_SIZE <= a < start r + (p + Z.of_nat n) * VM_PAGE_SIZE ->
     readable (v_vm (view_of k) a) = true) ->
  returns (write_all_pages_loop n fd r p seek) k (fun q k' => q = p + Z.of_nat n /\
    appended k (range (v_vm (view_of k)) (start r + p * VM_PAGE_SIZE) (Z.of_nat n * VM_PAGE_SIZE)) k').
Proof.
  revert p seek k. induction n as [|n IH]; intros p seek k He Hp Hn Hr; cbn [write_all_pages_loop].
  { apply returns_ret. split; [lia|]. by apply appended_nil. }
  pose proof (page_size_pos (fd := fd)) as Hps. apply returns_bind.
  eapply returns_weaken; [apply mem_writeall_ok; [done|done|]|].
  { intros a Ha. apply Hr. nia. }
  intros b k1 [-> Ha1]. rewrite Z.eqb_refl. cbn [negb].
  eapply returns_weaken; [apply IH; [apply Ha1|lia|lia|]|].
  { intros a Ha. rewrite (appended_vm _ _ _ _ Ha1). apply Hr. nia. }
  intros q k2 [-> Ha2]. split; [lia|]. pose proof (appended_trans _ _ _ _ _ Ha1 Ha2) as Ht.
  rewrite (range_ext (v_vm (view_of k1)) (v_vm (view_of k))) in Ht by (intros; by rewrite (appended_vm _ _ _ _ Ha1)).
  replace (start r + (p + 1) * VM_PAGE_SIZE) with (start r + p * VM_PAGE_SIZE + VM_PAGE_SIZE) in Ht by lia.
  rewrite <- range_app in Ht by lia.
  by replace (Z.of_nat (S n) * VM_PAGE_SIZE) with (VM_PAGE_SIZE + Z.of_nat n * VM_PAGE_SIZE) by lia.
Qed.

(** *** Making a region readable and protecting it again *)

Lemma land_lor_l p q : Z.land p (Z.lor p q) = p.
Proof. apply Z.bits_inj. intros i. rewrite Z.land_spec, Z.lor_spec. by destruct (Z.testbit p i). Qed.
Lemma prot_cases p : 0 <= p < 8 -> p = 0 \/ p = 1 \/ p = 2 \/ p = 3 \/ p = 4 \/ p = 5 \/ p = 6 \/ p = 7.
Proof. lia. Qed.
Lemma readable_prot p : 0 <= p < 8 -> Z.land (Z.land (Z.lor p VM_PROT_READ) VM_PROT_ALL) VM_PROT_READ <> 0.
Proof. intros Hp. destruct (prot_cases p Hp) as [->|[->|[->|[->|[->|[->|[->| ->]]]]]]]; done. Qed.
Lemma prot_all p : 0 <= p < 8 -> Z.land p VM_PROT_ALL = p.
Proof. intros Hp. destruct (prot_cases p Hp) as [->|[->|[->|[->|[->|[->|[->| ->]]]]]]]; done. Qed.

Definition made_readable (r : xnd_vm_region) : vmap -> vmap :=
  if Z.land (prot r) VM_PROT_READ =? 0
  then vm_protected (start r) (size r) false (Z.lor (prot r) VM_PROT_READ) else fun m => m.
#[local] Instance made_readable_proper r : Proper (vmap_eq ==> vmap_eq) (made_readable r).
Proof. unfold made_readable. destruct (_ =? 0); [apply _|]. by intros m m' Hm. Qed.

Lemma in_range_spec addr n a : in_range addr n a = true <-> addr <= a < addr + n.
Proof. unfold in_range. rewrite andb_true_iff, Z.leb_le, Z.ltb_lt. done. Qed.
Lemma in_range_true addr n a : addr <= a < addr + n -> in_range addr n a = true.
Proof. apply in_range_spec. Qed.

Lemma made_readable_bytes r m addr n : range (made_readable r m) addr n = range m addr n.
Proof.
  unfold range. apply list_fmap_ext. intros i a _. unfold byte_at, made_readable, vm_protected, on_range.
  destruct (_ =? 0); [|done]. destruct (in_range _ _ a); [|done]. by destruct (m a).
Qed.

Lemma made_readable_readable v r a : region_ok v r -> start r <= a < start r + size r ->
  readable (made_readable r (v_vm v) a) = true.
Proof.
  intros Hr Ha. destruct (ro_cells _ _ Hr a Ha) as (c & Hc & Hcp & _). unfold made_readable.
  destruct (Z.eqb_spec (Z.land (prot r) VM_PROT_READ) 0) as [|Hne]; [|by eapply region_readable].
  unfold vm_protected, on_range. rewrite in_range_true, Hc by done. cbn.
  by rewrite (proj2 (Z.eqb_neq _ _) (readable_prot _ (ro_prot _ _ Hr))).
Qed.

(** Protecting the region again leaves memory as it was. *)
Lemma reprotected v r a : region_ok v r -> Z.land (prot r) VM_PROT_READ = 0 ->
  vm_protected (start r) (size r) false (prot r) (made_readable r (v_vm v)) a = v_vm v a.
Proof.
  intros Hr H0. unfold made_readable. rewrite H0. cbn [Z.eqb]. unfold vm_protected, on_range.
  destruct (in_range (start r) (size r) a) eqn:Hin; [|done]. apply in_range_spec in Hin.
  destruct (ro_cells _ _ Hr a Hin) as ([b p mx ih tg] & Hc & Hcp & _). rewrite Hc. cbn in *. unfold set_prot. cbn.
  by rewrite prot_all, Hcp by apply Hr.
Qed.

Lemma make_readable_ok r k : region_ok (view_of k) r ->
  returns (if Z.land (prot r) VM_PROT_READ =? 0
           then ckpt_vm_protect r false (Z.lor (prot r) VM_PROT_READ) else mret 0) k (fun e k' =>
    e = 0 /\ view_of k' ≡ v_mem (made_readable r) (view_of k)).
Proof.
  intros Hr. unfold made_readable. destruct (_ =? 0).
  2:{ apply returns_ret. split; [done|]. by destruct (view_of k). }
  unfold ckpt_vm_protect. destruct (vm_protect (start r) (size r) false (Z.lor (prot r) VM_PROT_READ) k) as [ok k1] eqn:E.
  eapply kcall_step; [exact E|]. apply spec_protect in E as [-> Hv]; [by apply returns_ret|].
  intros a Ha. destruct (ro_cells _ _ Hr a Ha) as (c & Hc & _ & Hm). unfold may_protect. rewrite Hc, Hm.
  by rewrite Z.eqb_refl.
Qed.

Lemma write_region_pages_ok r k : at_end (view_of k) -> region_ok (view_of k) r ->
  returns (write_region_pages fd r) k (fun e k' =>
    e = 0 /\ appended k (region_bytes r ++ range (v_vm (view_of k)) (start r) (size r)) k').
Proof.
  intros He Hr. unfold write_region_pages. destruct (region_size_pages _ _ Hr) as [Hs Hn].
  destruct (lseek_cur fd k) as [before k0] eqn:E0. eapply kcall_step; [exact E0|].
  apply spec_lseek_cur in E0 as [-> Hv0]. unfold at_end in He.
  rewrite (proj2 (Z.eqb_neq (v_off (view_of k)) (-1))) by lia. eapply returns_step; [reflexivity|].
  assert (appended k [] k0) as Ha0 by by apply appended_nil.
  apply returns_bind. eapply returns_weaken; [apply write_region_bytes, Ha0|]. intros m k1 [-> Ha1].
  rewrite Z.eqb_refl. cbn [negb]. pose proof (appended_trans _ _ _ _ _ Ha0 Ha1) as Ha. cbn [app] in Ha.
  pose proof (region_ok_appended _ _ _ _ Hr Ha) as Hr1. cbv zeta.
  apply returns_bind. eapply returns_weaken; [by apply make_readable_ok|]. intros e k2 [-> Hv2]. cbn [negb Z.eqb].
  assert (at_end (view_of k2)) as He2 by (rewrite Hv2; apply Ha).
  unfold write_vm_region_all_pages. apply returns_bind.
  destruct (lseek_cur fd k2) as [seek k3] eqn:E3. eapply kcall_step; [exact E3|].
  apply spec_lseek_cur in E3 as [-> Hv3]. unfold at_end in He2.
  rewrite (proj2 (Z.eqb_neq (v_off (view_of k2)) (-1))) by lia. eapply returns_step; [reflexivity|].
  assert (forall a, v_vm (view_of k3) a = made_readable r (v_vm (view_of k1)) a) as Hm3.
  { intros a. by rewrite Hv3, Hv2. }
  eapply returns_weaken; [apply (write_all_pages_loop_ok (Z.to_nat (size r / VM_PAGE_SIZE)) r 0)|].
  { by rewrite Hv3. }
  { done. }
  { lia. }
  { intros a Haa. rewrite Hm3. apply (made_readable_readable _ _ _ Hr1). lia. }
  intros q k4 [-> Ha4]. rewrite Z2Nat.id by done. rewrite Z.add_0_l, Z.eqb_refl.
  rewrite Z.add_0_r, Z2Nat.id, <- Hs in Ha4 by done.
  rewrite (range_ext _ _ _ _ (fun a _ => Hm3 a)), made_readable_bytes in Ha4.
  rewrite (range_ext (v_vm (view_of k1)) (v_vm (view_of k))) in Ha4 by (intros; by rewrite (appended_vm _ _ _ _ Ha)).
  set (bs := region_bytes r ++ range (v_vm (view_of k)) (start r) (size r)).
  set (rng := range (v_vm (view_of k)) (start r) (size r)) in *.
  assert (view_of k4 ≡ v_append rng (v_mem (made_readable r) (view_of k1))) as Hv4.
  { destruct Ha4 as [-> _]. by rewrite Hv3, Hv2. }
  unfold write_region_out. destruct (Z.eqb_spec (Z.land (prot r) VM_PROT_READ) 0) as [H0|H1].
  - apply returns_bind. unfold ckpt_vm_protect.
    destruct (vm_protect (start r) (size r) false (prot r) k4) as [ok k5] eqn:E5.
    eapply kcall_step; [exact E5|]. apply spec_protect in E5 as [-> Hv5].
    2:{ intros a Haa. rewrite Hv4. cbn. destruct (ro_cells _ _ Hr1 a Haa) as (c & Hc & Hcp & Hm).
        unfold made_readable. rewrite H0. cbn [Z.eqb]. unfold vm_protected, on_range.
        rewrite in_range_true, Hc by done. cbn. apply orb_true_iff. left. apply Z.eqb_eq.
        revert Hm. clear. intros Hm.
        apply (f_equal (Z.land (prot r))) in Hm. rewrite Z.land_assoc in Hm.
        assert (Z.land (prot r) (Z.lor (prot r) VM_PROT_READ) = prot r) as Hl by apply land_lor_l.
        rewrite Hl in Hm. by rewrite Hm. }
    apply returns_ret. split; [done|]. destruct Ha as [Hav _].
    assert (view_of k5 ≡ v_append bs (view_of k)) as Hv6.
    { rewrite Hv5, Hv4. unfold bs. rewrite <- v_append_app, <- Hav.
      split; [|done]. intros a. apply (reprotected _ _ _ Hr1 H0). }
    split; [exact Hv6|]. rewrite Hv6. by apply at_end_append.
  - apply returns_ret. split; [done|].
    assert (view_of k4 ≡ v_append rng (view_of k1)) as Hv6.
    { rewrite Hv4. unfold made_readable. rewrite (proj2 (Z.eqb_neq _ _) H1). by destruct (view_of k1). }
    eapply appended_trans; [exact Ha|]. split; [exact Hv6|apply Ha4].
Qed.

Lemma region_ok_with_dirty v r d : region_ok v r -> region_ok v (with_dirty (pages_dirtied r) d r).
Proof. intros Hr. by destruct Hr. Qed.

Lemma write_vm_region_ok r k : at_end (view_of k) -> region_ok (view_of k) r ->
  returns (write_vm_region fd r) k (fun e k' => e = 0 /\ appended k (region_image (view_of k) r) k').
Proof.
  intros He Hr. unfold write_vm_region. destruct (save_dirty_only r) eqn:Hd.
  - pose proof (write_vm_region_dirty_ok r k He Hr Hd) as Hw. unfold save_dirty_only in Hd.
    apply andb_true_iff in Hd as [-> ->]. exact Hw.
  - unfold region_image, saved_region. rewrite Hd. unfold save_dirty_only in Hd.
    destruct (ONLY_SAVE_DIRTY_PAGES r); cbn [andb] in Hd.
    + rewrite Hd. exact (write_region_pages_ok _ k He (region_ok_with_dirty _ _ false Hr)).
    + exact (write_region_pages_ok r k He Hr).
Qed.

(** ** The entries *)

(** A region entry for each region, in any order with the context's. *)
Fixpoint entries_ok (entries : list xnd_ckpt_entry) (regions : list xnd_vm_region) : Prop :=
  match entries with
  | [] => regions = []
  | XND_VM_REGION_ENTRY :: entries => match regions with [] => False | _ :: regions => entries_ok entries regions end
  | XND_UCONTEXT_ENTRY :: entries => entries_ok entries regions
  | XND_VM_PAGE_ENTRY :: _ => False
  end.

Lemma write_entries_ok entries regions uctx k :
  at_end (view_of k) -> entries_ok entries regions -> Forall (region_ok (view_of k)) regions -> uctx <> [] ->
  returns (write_entries (length entries) fd entries regions uctx) k (fun e k' =>
    e = 0 /\ appended k (entries_image (view_of k) entries regions uctx) k').
Proof.
  revert regions k. induction entries as [|e entries IH]; intros regions k He Hok Hr Hu.
  { apply returns_ret. split; [done|by apply appended_nil]. }
  cbn [length write_entries]. apply returns_bind. eapply returns_weaken; [by apply writeall_le|].
  intros b k1 [-> Ha1]. change (negb (Z.of_nat 4 =? sizeof_entry)) with false. cbv iota.
  destruct e; cbn [entries_ok entries_image] in *; [|done|].
  - destruct regions as [|r regions]; [done|]. apply Forall_cons in Hr as [Hr Hrs].
    apply returns_bind. eapply returns_weaken; [apply write_vm_region_ok; [apply Ha1|by eapply region_ok_appended]|].
    intros e k2 [-> Ha2]. cbn [negb Z.eqb]. pose proof (appended_trans _ _ _ _ _ Ha1 Ha2) as Ha.
    eapply returns_weaken; [apply IH; [apply Ha2|done| |done]|].
    { eapply Forall_impl; [exact Hrs|]. intros r' Hr'. cbn beta. by eapply region_ok_appended. }
    intros e k3 [-> Ha3]. split; [done|]. pose proof (appended_trans _ _ _ _ _ Ha Ha3) as Ht.
    rewrite (mem_eq_region_image _ _ (appended_mem_eq _ _ _ Ha1)) in Ht.
    by rewrite (mem_eq_entries_image _ _ (appended_mem_eq _ _ _ Ha)), <- app_assoc in Ht.
  - unfold write_context. apply returns_bind, returns_bind.
    eapply returns_weaken; [apply writeall_ok; [done|apply Ha1]|]. intros n k2 [-> Ha2].
    rewrite Z.eqb_refl. apply returns_ret. cbn [negb Z.eqb]. pose proof (appended_trans _ _ _ _ _ Ha1 Ha2) as Ha.
    eapply returns_weaken; [apply IH; [apply Ha2|done| |done]|].
    { eapply Forall_impl; [exact Hr|]. intros r' Hr'. cbn beta. by eapply region_ok_appended. }
    intros e k3 [-> Ha3]. split; [done|]. pose proof (appended_trans _ _ _ _ _ Ha Ha3) as Ht.
    by rewrite (mem_eq_entries_image _ _ (appended_mem_eq _ _ _ Ha)), <- app_assoc in Ht.
Qed.
End write.
