(* ===== verification/CkptRead.v ===== *)
(** Reading an image back restores the memory it was made from: what
    [readckpt.c] and [vm_restore.c] do with the file [CkptWrite] describes. *)

From S2P Require Import Prelude Bytes Io CkptFile VmRegion CkptImage CkptRestore CkptSpec CkptWrite.
Open Scope Z_scope.

(** ** Memory *)

Lemma vm_store_app addr b1 b2 m a :
  vm_store (addr + Z.of_nat (length b1)) b2 (vm_store addr b1 m) a = vm_store addr (b1 ++ b2) m a.
Proof.
  unfold vm_store. rewrite length_app. unfold in_range.
  destruct (Z.leb_spec (addr + Z.of_nat (length b1)) a), (Z.leb_spec addr a); try lia; cbn [andb]; try done.
  - rewrite (proj2 (Z.ltb_ge a (addr + Z.of_nat (length b1)))) by lia.
    replace (addr + Z.of_nat (length b1 + length b2)) with (addr + Z.of_nat (length b1) + Z.of_nat (length b2)) by lia.
    destruct (_ <? _); [|done]. rewrite app_nth2 by lia. do 3 f_equal. lia.
  - rewrite (proj2 (Z.ltb_lt a (addr + Z.of_nat (length b1)))) by lia.
    rewrite (proj2 (Z.ltb_lt a (addr + Z.of_nat (length b1 + length b2)))) by lia.
    by rewrite app_nth1 by lia.
Qed.

Lemma vm_store_attrs addr bs m a :
  vm_store addr bs m a = None <-> m a = None.
Proof. unfold vm_store. destruct (in_range _ _ _); [|done]. by destruct (m a). Qed.
Lemma vm_store_writable addr bs m a : writable (vm_store addr bs m a) = writable (m a).
Proof. unfold vm_store. destruct (in_range _ _ _); [|done]. by destruct (m a). Qed.

Lemma v_rest_seek n v f : 0 <= v_off v -> 0 <= n ->
  v_rest (v_seek (v_off v + n) (v_mem f v)) = drop (Z.to_nat n) (v_rest v).
Proof. intros Hv Hn. unfold v_rest. cbn. rewrite drop_drop. f_equal. lia. Qed.

Section read.
Context {K : Type} `{!VmParams, !IoSys K, !VmMem K} (fd : Z) `{!VmSpec K fd}.
Implicit Types k : K.

(** [n] bytes of the file have been consumed, and memory changed by [f]. *)
Definition advanced k (n : Z) (f : vmap -> vmap) k' : Prop :=
  view_of k' ≡ v_seek (v_off (view_of k) + n) (v_mem f (view_of k)).
(** The file goes on with [bs]. *)
Definition next k (bs rs : list Z) : Prop := 0 <= v_off (view_of k) /\ v_rest (view_of k) = bs ++ rs.

Lemma advanced_next k bs rs f k' : next k bs rs -> advanced k (Z.of_nat (length bs)) f k' ->
  next k' [] rs.
Proof.
  intros [Ho Hn] Ha. unfold advanced in Ha. split.
  - rewrite Ha. cbn. lia.
  - rewrite Ha, v_rest_seek, Hn by lia. rewrite Nat2Z.id. by rewrite drop_app_length.
Qed.

Lemma readall_loop_ok fuel n buf bs rs k :
  next k bs rs -> 0 < Z.of_nat (length bs) -> n = Z.of_nat (length buf) + Z.of_nat (length bs) ->
  (length bs < fuel)%nat ->
  returns (readall_loop fuel fd n buf) k (fun d k' =>
    d = buf ++ bs /\ advanced k (Z.of_nat (length bs)) (fun m => m) k').
Proof.
  revert buf bs k. induction fuel as [|fuel IH]; intros buf bs k Hk Hbs Hn Hf; [lia|].
  unfold returns. cbn [readall_loop]. rewrite read_call_eq by apply spec_answers.
  destruct (sys_read fd (n - Z.of_nat (length buf)) k) as [d k1] eqn:E.
  apply spec_read in E as (data & -> & Hl & Hnil & Hdata & Hv); [|lia].
  destruct Hk as [Ho Hr]. rewrite Hr in Hdata, Hnil.
  destruct data as [|x data]; [destruct bs; [cbn in Hbs; lia|by specialize (Hnil eq_refl)]|].
  set (dat := x :: data) in *. assert (0 < Z.of_nat (length dat)) as Hd0 by (unfold dat; cbn [length]; lia). clearbody dat.
  assert (dat = take (length dat) bs) as Hd1.
  { rewrite Hdata at 1. apply take_app_le. lia. }
  assert (bs = dat ++ drop (length dat) bs) as Hbs2 by (rewrite Hd1 at 1; by rewrite take_drop).
  rewrite length_app. destruct (Z.ltb_spec (Z.of_nat (length buf + length dat)) n).
  - assert (next k1 (drop (length dat) bs) rs) as Hk1.
    { split; [rewrite Hv; cbn; lia|]. rewrite Hv.
      change (v_seek ?o (view_of k)) with (v_seek o (v_mem (fun m => m) (view_of k))).
      rewrite (v_rest_seek _ _ (fun m => m)), Hr by lia. rewrite Nat2Z.id, drop_app_le by lia. done. }
    pose proof (f_equal length Hbs2) as Hlen. rewrite length_app in Hlen.
    specialize (IH (buf ++ dat) _ k1 Hk1). rewrite length_app in IH.
    apply returns_inv in IH as (d' & k' & -> & -> & Ha); [|lia..].
    split; [by rewrite <- app_assoc, <- Hbs2|]. unfold advanced in *. rewrite Ha, Hv. cbn.
    apply view_eq_intro. unfold v_seek, v_mem. cbn. f_equal. lia.
  - assert (length dat = length bs) as Hlb.
    { pose proof (f_equal length Hbs2) as Hlen. rewrite length_app in Hlen. lia. }
    split; [f_equal; rewrite Hd1, Hlb; by rewrite firstn_all|]. unfold advanced. by rewrite Hv, Hlb.
Qed.

Lemma sys_readall_ok n bs rs k : next k bs rs -> Z.of_nat (length bs) = n -> 0 < n ->
  returns (sys_readall fd n) k (fun d k' => d = bs /\ advanced k n (fun m => m) k' /\ next k' [] rs).
Proof.
  intros Hk Hl Hn. unfold sys_readall, readall.
  eapply returns_weaken; [apply (readall_loop_ok _ n [] bs rs); [done|lia|done|lia]|].
  intros d k' [-> Ha]. rewrite Hl in Ha. split; [done|]. split; [done|].
  eapply advanced_next; [exact Hk|by rewrite Hl].
Qed.

Lemma mem_readall_loop_ok fuel addr n bytes bs rs k :
  next k bs rs -> 0 < Z.of_nat (length bs) -> 0 <= bytes -> n = bytes + Z.of_nat (length bs) ->
  (length bs < fuel)%nat ->
  (forall a, addr + bytes <= a < addr + n -> writable (v_vm (view_of k) a) = true) ->
  returns (mem_readall_loop fuel fd addr n bytes) k (fun r k' =>
    r = n /\ advanced k (Z.of_nat (length bs)) (vm_store (addr + bytes) bs) k').
Proof.
  revert bytes bs k. induction fuel as [|fuel IH]; intros bytes bs k Hk Hbs Hb Hn Hf Hw; [lia|].
  cbn [mem_readall_loop]. destruct (mem_read fd (addr + bytes) (n - bytes) k) as [r k1] eqn:E.
  eapply returns_step; [unfold kcall; by rewrite E|].
  destruct Hk as [Ho Hr]. apply spec_mem_read in E; [|lia|rewrite Hr; destruct bs; [cbn in Hbs; lia|done]].
  rewrite Hw in E by lia. destruct E as (Hrn & Hrl & _ & Hv). rewrite Hr in Hv.
  rewrite (proj2 (Z.ltb_lt _ _)) by lia. rewrite take_app_le in Hv by lia.
  destruct (Z.ltb_spec (bytes + r) n).
  - assert (next k1 (drop (Z.to_nat r) bs) rs) as Hk1.
    { split; [rewrite Hv; cbn; lia|]. rewrite Hv, v_rest_seek, Hr by lia. by rewrite drop_app_le by lia. }
    pose proof (length_drop bs (Z.to_nat r)) as Hlen.
    eapply returns_weaken; [apply (IH (bytes + r) _ k1 Hk1); [lia..|]|].
    { intros a Ha. rewrite Hv. cbn. rewrite vm_store_writable. apply Hw. lia. }
    intros q k2 [-> Ha]. split; [done|]. unfold advanced in *. rewrite Ha, Hv.
    split; [|cbn; repeat split; [lia|done..]]. intros a. cbn. rewrite Z.add_assoc.
    assert (r = Z.of_nat (length (take (Z.to_nat r) bs))) as Hrr by (rewrite length_take; lia).
    rewrite Hrr at 1. rewrite vm_store_app. by rewrite take_drop.
  - assert (r = Z.of_nat (length bs)) as -> by lia. apply returns_ret. split; [lia|].
    unfold advanced. rewrite Hv. by rewrite Nat2Z.id, firstn_all.
Qed.

Lemma mem_readall_ok addr n bs rs k : next k bs rs -> Z.of_nat (length bs) = n -> 0 < n ->
  (forall a, addr <= a < addr + n -> writable (v_vm (view_of k) a) = true) ->
  returns (mem_readall fd addr n) k (fun r k' => r = n /\ advanced k n (vm_store addr bs) k' /\ next k' [] rs).
Proof.
  intros Hk Hl Hn Hw.
  eapply returns_weaken; [apply (mem_readall_loop_ok _ addr n 0 bs rs); [done|lia|lia|lia|lia|]|].
  { intros a Ha. apply Hw. lia. }
  intros r k' [-> Ha]. rewrite Z.add_0_r, Hl in Ha. split; [done|]. split; [done|].
  eapply advanced_next; [exact Hk|by rewrite Hl].
Qed.

(** ** One region *)

(** The fields fit their types; the tag is a byte, the protection is within
    the maximum. *)
Record region_fields (r : xnd_vm_region) : Prop := {
  rf_start : in_u 64 (start r);
  rf_size : in_u 64 (size r);
  rf_inherit : in_u 32 (inherit r);
  rf_prot : 0 <= prot r < 8;
  rf_max : 0 <= max_prot r < 8;
  rf_within : Z.land (prot r) (max_prot r) = prot r;
  rf_mode : in_u 32 (mode r);
  rf_tag : 0 <= tag r < 256;
  rf_dirtied : in_u 32 (pages_dirtied r)
}.

Lemma region_bytes_roundtrip r : region_fields r -> region_of_bytes (region_bytes r) = r.
Proof.
  intros [H1 H2 H3 H4 H5 H6 H7 H8 H9]. unfold region_of_bytes, region_bytes.
  assert (2 ^ 32 = 4294967296) as E32 by done. assert (2 ^ (8 * Z.of_nat 4) = 4294967296) as E32' by done.
  assert (2 ^ (8 * Z.of_nat 4 - 1) = 2147483648) as E31 by done.
  unfold in_u in *. rewrite E32 in *.
  rewrite (field_u_le 8) by exact H1. rewrite (field_u_le 8) by exact H2.
  rewrite (field_u_le 4) by (unfold in_u; lia).
  rewrite (field_s_le 4) by (lia || (unfold in_s; lia)). rewrite (field_s_le 4) by (lia || (unfold in_s; lia)).
  rewrite !(field_u_le 4) by (unfold in_u; lia).
  destruct r as [? ? ? ? ? ? ? ? []]; reflexivity.
Qed.

(** Fresh memory with the attributes of the record. *)
Definition refreshed (r : xnd_vm_region) (m : vmap) : vmap :=
  (if inherit r =? VM_INHERIT_DEFAULT then fun m => m else vm_inherited (start r) (size r) (inherit r))
  ((if max_prot r =? VM_PROT_ALL then fun m => m else vm_protected (start r) (size r) true (max_prot r))
  ((if prot r =? VM_PROT_DEFAULT then fun m => m else vm_protected (start r) (size r) false (prot r)) m)).
Definition fresh_cell (t : Z) (c : cell) : Prop :=
  c_prot c = VM_PROT_DEFAULT /\ c_max c = VM_PROT_ALL /\ c_inherit c = VM_INHERIT_DEFAULT /\ c_tag c = t.
Definition fresh (r : xnd_vm_region) (m : vmap) : Prop :=
  forall a, start r <= a < start r + size r -> exists c, m a = Some c /\ fresh_cell (tag r) c.

Lemma refreshed_out r m a : in_range (start r) (size r) a = false -> refreshed r m a = m a.
Proof.
  intros Ha. unfold refreshed, vm_inherited, vm_protected, on_range.
  destruct (inherit r =? _), (max_prot r =? _), (prot r =? _); rewrite ?Ha; done.
Qed.
Lemma refreshed_in r m a c : region_fields r -> start r <= a < start r + size r ->
  m a = Some c -> fresh_cell (tag r) c ->
  refreshed r m a = Some (Cell (c_byte c) (prot r) (max_prot r) (inherit r) (tag r)).
Proof.
  intros Hf Ha Hm (Hp & Hx & Hi & Ht). apply in_range_true in Ha. destruct c as [b p mx ih tg]. cbn in *. subst.
  pose proof (prot_all _ (rf_prot _ Hf)) as Hpa. pose proof (prot_all _ (rf_max _ Hf)) as Hma.
  pose proof (rf_within _ Hf) as Hw.
  unfold refreshed, vm_inherited, vm_protected, on_range.
  destruct (Z.eqb_spec (inherit r) VM_INHERIT_DEFAULT) as [->|], (Z.eqb_spec (max_prot r) VM_PROT_ALL) as [Em|],
    (Z.eqb_spec (prot r) VM_PROT_DEFAULT) as [Ep|]; rewrite ?Ha, Hm; cbn; unfold set_max, set_prot, set_inherit; cbn;
    rewrite ?Hma, ?Hpa, ?Hw, ?Em, ?Ep in *; rewrite ?Hw; done.
Qed.

Lemma kcall_protect_ok addr n max p k Q :
  (forall a, addr <= a < addr + n -> may_protect max p (v_vm (view_of k) a) = true) ->
  (forall k', view_of k' ≡ v_mem (vm_protected addr n max p) (view_of k) -> Q true k') ->
  returns (kcall (vm_protect addr n max p)) k Q.
Proof.
  intros Hp HQ. unfold returns, kcall. destruct (vm_protect addr n max p k) as [ok k'] eqn:E.
  apply spec_protect in E as [-> Hv]; [by apply HQ|done].
Qed.

Lemma ckpt_vm_protect_ok r max p k :
  (forall a, start r <= a < start r + size r -> may_protect max p (v_vm (view_of k) a) = true) ->
  returns (ckpt_vm_protect r max p) k (fun e k' =>
    e = 0 /\ view_of k' ≡ v_mem (vm_protected (start r) (size r) max p) (view_of k)).
Proof. intros Hp. unfold ckpt_vm_protect. apply returns_bind, kcall_protect_ok; [done|]. intros k' Hv. by apply returns_ret. Qed.

Lemma ckpt_vm_refresh_region_ok r k : region_fields r -> fresh r (v_vm (view_of k)) ->
  returns (ckpt_vm_refresh_region r) k (fun e k' => e = 0 /\ view_of k' ≡ v_mem (refreshed r) (view_of k)).
Proof.
  intros Hf Hm. unfold ckpt_vm_refresh_region, refreshed. apply returns_bind.
  set (f1 := if prot r =? VM_PROT_DEFAULT then fun m => m else vm_protected (start r) (size r) false (prot r)).
  assert (Proper (vmap_eq ==> vmap_eq) f1) as Hf1 by apply _.
  apply returns_weaken with (Q := fun e k' => e = 0 /\ view_of k' ≡ v_mem f1 (view_of k)).
  { unfold f1. destruct (prot r =? VM_PROT_DEFAULT); cbn [negb]; [by apply returns_ret; destruct (view_of k)|].
    apply ckpt_vm_protect_ok. intros a Ha. destruct (Hm a Ha) as (c & Hc & _ & Hmx & _). unfold may_protect.
    rewrite Hc, Hmx, prot_all, Z.eqb_refl by apply Hf. done. }
  intros e k1 [-> Hv1]. cbn [negb Z.eqb]. apply returns_bind.
  assert (forall a, start r <= a < start r + size r -> exists c, v_vm (view_of k1) a = Some c /\ c_max c = VM_PROT_ALL) as Hm1.
  { intros a Ha. destruct (Hm a Ha) as (c & Hc & Hp & Hmx & _). rewrite (proj1 Hv1 a). cbn. unfold f1, vm_protected, on_range.
    destruct (prot r =? _); [|rewrite in_range_true by done]; rewrite Hc; by eexists. }
  set (f2 := if max_prot r =? VM_PROT_ALL then fun m => m else vm_protected (start r) (size r) true (max_prot r)).
  assert (Proper (vmap_eq ==> vmap_eq) f2) as Hf2 by apply _.
  apply returns_weaken with (Q := fun e k' => e = 0 /\ view_of k' ≡ v_mem f2 (view_of k1)).
  { unfold f2. destruct (max_prot r =? VM_PROT_ALL); cbn [negb]; [by apply returns_ret; destruct (view_of k1)|].
    apply ckpt_vm_protect_ok. intros a Ha. destruct (Hm1 a Ha) as (c & Hc & Hmx). unfold may_protect.
    rewrite Hc, Hmx, prot_all, Z.eqb_refl by apply Hf. done. }
  intros e k2 [-> Hv2]. cbn [negb Z.eqb].
  assert (forall a, start r <= a < start r + size r -> v_vm (view_of k2) a <> None) as Hm2.
  { intros a Ha. destruct (Hm1 a Ha) as (c & Hc & _). rewrite Hv2. cbn. unfold f2, vm_protected, on_range.
    destruct (max_prot r =? _); [|rewrite in_range_true by done]; by rewrite Hc. }
  destruct (inherit r =? VM_INHERIT_DEFAULT) eqn:Ei; cbn [negb].
  - eapply returns_step; [reflexivity|]. apply returns_ret. split; [done|]. rewrite Hv2, Hv1.
    by destruct (view_of k).
  - destruct (vm_set_inherit (start r) (size r) (inherit r) k2) as [ok k3] eqn:E.
    eapply kcall_step; [exact E|]. apply spec_inherit in E as [-> Hv3]; [|done].
    apply returns_ret. split; [done|]. rewrite Hv3, Hv2, Hv1. by destruct (view_of k).
Qed.

(** *** The task port *)

Definition port_addr (a : Z) : bool := in_range mach_task_self_ptr 4 a.
Definition holds_port (r : xnd_vm_region) : bool := IN_VM_RANGE mach_task_self_ptr (start r) (start r + size r).
(** A region that holds the variable holds all of it. *)
Definition port_inside (r : xnd_vm_region) : Prop :=
  holds_port r = true -> mach_task_self_ptr + 4 <= start r + size r.
Definition ported (p : Z) (r : xnd_vm_region) : vmap -> vmap :=
  if holds_port r then vm_store mach_task_self_ptr (le_bytes 4 p) else fun m => m.
#[local] Instance ported_proper p r : Proper (vmap_eq ==> vmap_eq) (ported p r).
Proof. unfold ported. apply _. Qed.

Definition all_writable (r : xnd_vm_region) (m : vmap) : Prop :=
  forall a, start r <= a < start r + size r -> writable (m a) = true.

Lemma holds_port_range r : holds_port r = true -> port_inside r ->
  start r <= mach_task_self_ptr /\ mach_task_self_ptr + 4 <= start r + size r.
Proof.
  intros Hh Hi. specialize (Hi Hh). unfold holds_port, IN_VM_RANGE in Hh.
  apply andb_true_iff in Hh as [H1%Z.leb_le _]. done.
Qed.

Lemma restore_task_port_ok r k : port_inside r -> all_writable r (v_vm (view_of k)) ->
  returns (restore_task_port r) k (fun _ k' => view_of k' ≡ v_mem (ported (v_port (view_of k)) r) (view_of k)).
Proof.
  intros Hi Hw. unfold restore_task_port, ported. fold (holds_port r). destruct (holds_port r) eqn:Eh.
  - destruct (holds_port_range r Eh Hi). unfold returns, modify. rewrite spec_port.
    apply spec_store. rewrite le_bytes_length. intros a Ha. apply Hw. lia.
  - apply returns_ret. by destruct (view_of k).
Qed.

Lemma ported_out p r m a : port_inside r -> in_range (start r) (size r) a = false -> ported p r m a = m a.
Proof.
  intros Hi Ha. unfold ported. destruct (holds_port r) eqn:Eh; [|done].
  destruct (holds_port_range r Eh Hi). unfold vm_store. rewrite le_bytes_length.
  destruct (in_range mach_task_self_ptr _ a) eqn:Ep; [|done]. apply in_range_spec in Ep.
  rewrite in_range_true in Ha by lia. done.
Qed.
Lemma ported_cell p r m a : exists f, ported p r m a = f <$> m a /\
  (forall c, c_prot (f c) = c_prot c /\ c_max (f c) = c_max c /\ c_inherit (f c) = c_inherit c /\ c_tag (f c) = c_tag c) /\
  (port_addr a = false -> forall c, c_byte (f c) = c_byte c) /\
  (holds_port r = true -> port_addr a = true ->
   forall c, c_byte (f c) = nth (Z.to_nat (a - mach_task_self_ptr)) (le_bytes 4 p) 0).
Proof.
  unfold ported, port_addr. destruct (holds_port r) eqn:Eh.
  - unfold vm_store. rewrite le_bytes_length. change (Z.of_nat 4) with 4.
    destruct (in_range mach_task_self_ptr 4 a) eqn:Ep.
    + eexists. split; [reflexivity|]. split; [done|]. by split.
    + exists id. split; [by destruct (m a)|]. split; [done|]. by split.
  - exists id. split; [by destruct (m a)|]. split; [done|]. by split.
Qed.

(** *** Pages *)

(** The pages at [offs] copied from [src]. *)
Fixpoint store_pages (src : vmap) (r : xnd_vm_region) (offs : list Z) (m : vmap) : vmap :=
  match offs with
  | [] => m
  | off :: offs => store_pages src r offs (vm_store (start r + off) (range src (start r + off) VM_PAGE_SIZE) m)
  end.
#[local] Instance store_pages_proper src r offs : Proper (vmap_eq ==> vmap_eq) (store_pages src r offs).
Proof.
  induction offs as [|off offs IH]; intros m m' Hm; cbn [store_pages]; [done|]. apply IH.
  by apply vm_store_proper.
Qed.

Lemma store_pages_start src r r' offs m : start r' = start r -> store_pages src r' offs m = store_pages src r offs m.
Proof. intros Hst. revert m. induction offs as [|off offs IH]; intros m; cbn; [done|]. by rewrite Hst. Qed.

(** The offset of the page an address is on. *)
Definition page_off (r : xnd_vm_region) (a : Z) : Z := (a - start r) / VM_PAGE_SIZE * VM_PAGE_SIZE.

Lemma page_off_in r i a : in_range (start r + i * VM_PAGE_SIZE) VM_PAGE_SIZE a = bool_decide (page_off r a = i * VM_PAGE_SIZE).
Proof.
  pose proof (page_size_pos (fd := fd)) as Hp. unfold page_off. apply eq_true_iff_eq. rewrite in_range_spec.
  rewrite bool_decide_eq_true. assert (VM_PAGE_SIZE <> 0) as Hp0 by lia.
  pose proof (Z.div_mod (a - start r) VM_PAGE_SIZE Hp0) as Hd.
  pose proof (Z.mod_pos_bound (a - start r) VM_PAGE_SIZE Hp) as Hb. split.
  - intros Ha. assert ((a - start r) / VM_PAGE_SIZE = i) as ->; [|done].
    symmetry. apply (Z.div_unique_pos _ _ _ (a - start r - i * VM_PAGE_SIZE)); lia.
  - intros He. apply Z.mul_cancel_r in He; [|lia]. rewrite He in Hd. lia.
Qed.

Lemma store_pages_cell src r idxs m a :
  store_pages src r ((fun i => i * VM_PAGE_SIZE) <$> idxs) m a =
  if decide (page_off r a ∈ (fun i => i * VM_PAGE_SIZE) <$> idxs) then set_byte (byte_at src a) <$> m a else m a.
Proof.
  pose proof (page_size_pos (fd := fd)) as Hp.
  revert m. induction idxs as [|i idxs IH]; intros m; cbn [fmap list_fmap store_pages].
  { rewrite decide_False; [done|apply not_elem_of_nil]. }
  rewrite IH. unfold vm_store. rewrite range_length, page_off_in by lia.
  destruct (bool_decide_reflect (page_off r a = i * VM_PAGE_SIZE)) as [He|Hne].
  - assert (nth (Z.to_nat (a - (start r + i * VM_PAGE_SIZE))) (range src (start r + i * VM_PAGE_SIZE) VM_PAGE_SIZE) 0
      = byte_at src a) as ->.
    { apply range_nth, in_range_spec. rewrite page_off_in. by apply bool_decide_eq_true. }
    rewrite (decide_True (P := page_off r a ∈ i * VM_PAGE_SIZE :: _)) by (rewrite elem_of_cons; by left).
    destruct (decide _); [|done]. by destruct (m a).
  - destruct (decide (page_off r a ∈ (λ i, i * VM_PAGE_SIZE) <$> idxs)) as [Hin|Hout].
    + by rewrite decide_True by (rewrite elem_of_cons; by right).
    + by rewrite decide_False by (rewrite elem_of_cons; naive_solver).
Qed.

Lemma next_app k b1 b2 rs : next k (b1 ++ b2) rs <-> next k b1 (b2 ++ rs).
Proof. unfold next. by rewrite <- app_assoc. Qed.
Lemma advanced_trans k n f k1 m g k2 : Proper (vmap_eq ==> vmap_eq) g ->
  advanced k n f k1 -> advanced k1 m g k2 -> advanced k (n + m) (fun mem => g (f mem)) k2.
Proof.
  unfold advanced. intros Hg H1 H2. rewrite H2, H1. apply view_eq_intro. unfold v_seek, v_mem. cbn. f_equal. lia.
Qed.
Lemma advanced_mem k n f k' g k2 : Proper (vmap_eq ==> vmap_eq) g -> advanced k n f k' ->
  view_of k2 ≡ v_mem g (view_of k') -> advanced k n (fun mem => g (f mem)) k2.
Proof. unfold advanced. intros Hg H1 H2. by rewrite H2, H1. Qed.
Lemma advanced_vm k n f k' a : advanced k n f k' -> v_vm (view_of k') a = f (v_vm (view_of k)) a.
Proof. intros Ha. by rewrite (proj1 Ha a). Qed.
Lemma advanced_next_app k b1 b2 rs f k' : next k (b1 ++ b2) rs ->
  advanced k (Z.of_nat (length b1)) f k' -> next k' b2 rs.
Proof. intros Hn%next_app Ha. exact (advanced_next _ _ _ _ _ Hn Ha). Qed.

Lemma store_pages_writable src r offs m a : writable (store_pages src r offs m a) = writable (m a).
Proof. revert m. induction offs as [|off offs IH]; intros m; cbn; [done|]. by rewrite IH, vm_store_writable. Qed.

Lemma restore_pages_loop_ok (w : view) r r' idxs rs k :
  region_ok w r -> start r' = start r -> Forall (fun i => 0 <= i < size r / VM_PAGE_SIZE) idxs ->
  let offs := (fun i => i * VM_PAGE_SIZE) <$> idxs in
  next k (List.flat_map (page_image w r) offs) rs -> all_writable r (v_vm (view_of k)) ->
  returns (restore_pages_loop (length idxs) fd r') k (fun e k' => e = 0 /\
    advanced k (Z.of_nat (length (List.flat_map (page_image w r) offs))) (store_pages (v_vm w) r offs) k').
Proof.
  intros Hok Hst. revert k. induction idxs as [|i idxs IH]; intros k Hi offs Hk Hw.
  { apply returns_ret. split; [done|]. unfold advanced. cbn. rewrite Z.add_0_r. by destruct (view_of k). }
  apply Forall_cons in Hi as [Hi His]. subst offs.
  cbn [fmap list_fmap List.flat_map length restore_pages_loop store_pages] in *.
  unfold page_image at 1 in Hk. rewrite <- app_assoc in Hk. apply next_app in Hk as Hk0.
  pose proof (page_size_pos (fd := fd)) as Hps. destruct (region_size_pages fd _ _ Hok) as [Hs Hn0].
  apply returns_bind. eapply returns_weaken; [apply (sys_readall_ok _ _ _ _ Hk0); [by rewrite le_bytes_length|done]|].
  intros d k1 (-> & Ha1 & Hk1). rewrite le_bytes_length. change (negb (Z.of_nat 8 =? sizeof_page)) with false. cbv iota.
  rewrite <- (app_nil_r (le_bytes 8 _)), field_u_le.
  2:{ pose proof (ro_end _ _ Hok). pose proof (ro_start _ _ Hok). unfold in_u. change (8 * Z.of_nat 8) with 64. nia. }
  cbn [fst].
  apply returns_bind. unfold ckpt_vm_page_restore. rewrite Hst. apply returns_bind.
  assert (next k1 (range (v_vm w) (start r + i * VM_PAGE_SIZE) VM_PAGE_SIZE)
    (List.flat_map (page_image w r) ((fun i => i * VM_PAGE_SIZE) <$> idxs) ++ rs)) as Hk1'.
  { destruct Hk1 as [Ho Hr]. split; [done|]. by rewrite Hr, app_nil_l, <- app_assoc. }
  eapply returns_weaken; [apply (mem_readall_ok _ _ _ _ _ Hk1'); [apply range_length; lia|done|]|].
  { intros a Ha. rewrite (advanced_vm _ _ _ _ _ Ha1). apply Hw. exact (page_inside fd w r i a Hok Hi Ha). }
  intros b k2 (-> & Ha2 & Hk2). rewrite Z.eqb_refl. apply returns_ret. cbn [negb Z.eqb].
  pose proof (advanced_trans _ _ _ _ _ _ _ _ Ha1 Ha2) as Ha12.
  eapply returns_weaken; [apply IH; [done| |]|].
  { destruct Hk2 as [Ho Hr]. by split. }
  { intros a Ha. rewrite (advanced_vm _ _ _ _ _ Ha12), vm_store_writable. by apply Hw. }
  intros e k3 [-> Ha3]. split; [done|].
  pose proof (advanced_trans _ _ _ _ _ _ _ _ Ha12 Ha3) as Ht. unfold page_image at 1.
  rewrite !length_app, le_bytes_length, !Nat2Z.inj_add, range_length by lia. exact Ht.
Qed.

(** *** A region *)

Lemma region_flags_tag r : region_fields r -> Z.land (Z.shiftr (region_flags r) 24) 255 = tag r.
Proof.
  intros Hf. pose proof (rf_tag _ Hf) as Ht. unfold region_flags, VM_MAKE_TAG. rewrite Z.shiftr_lor.
  change (Z.shiftr (Z.lor VM_FLAGS_FIXED VM_FLAGS_OVERWRITE) 24) with 0. rewrite Z.lor_0_l.
  rewrite Z.shiftr_shiftl_l by lia. change (24 - 24) with 0. rewrite Z.shiftl_0_r.
  change 255 with (Z.ones 8). rewrite Z.land_ones by lia. apply Z.mod_small. change (2 ^ 8) with 256. lia.
Qed.

(** Where a transformer keeps attributes, cells stay as fresh as they were. *)
Definition keeps_attrs (f : vmap -> vmap) : Prop := forall m a, exists g, f m a = g <$> m a /\
  forall c, c_prot (g c) = c_prot c /\ c_max (g c) = c_max c /\ c_inherit (g c) = c_inherit c /\ c_tag (g c) = c_tag c.

Lemma keeps_fresh f r m : keeps_attrs f -> fresh r m -> fresh r (f m).
Proof.
  intros Hf Hm a Ha. destruct (Hf m a) as (g & Hg & Hattr). destruct (Hm a Ha) as (c & Hc & H1 & H2 & H3 & H4).
  exists (g c). rewrite Hg, Hc. split; [done|]. destruct (Hattr c) as (E1 & E2 & E3 & E4). split; [congruence|].
  split; [congruence|]. split; congruence.
Qed.
Lemma keeps_writable f r m : keeps_attrs f -> all_writable r m -> all_writable r (f m).
Proof.
  intros Hf Hm a Ha. destruct (Hf m a) as (g & -> & Hattr). specialize (Hm a Ha). destruct (m a) as [c|]; [|done].
  cbn in *. by destruct (Hattr c) as [-> _].
Qed.
Lemma keeps_store addr bs : keeps_attrs (vm_store addr bs).
Proof. intros m a. unfold vm_store. destruct (in_range _ _ _); [by eexists|]. exists id. split; [by destruct (m a)|done]. Qed.
Lemma keeps_ported p r : keeps_attrs (ported p r).
Proof. intros m a. destruct (ported_cell p r m a) as (f & Hf & Hattr & _). by exists f. Qed.
Lemma keeps_store_pages src r offs : keeps_attrs (store_pages src r offs).
Proof.
  induction offs as [|off offs IH]; intros m a; cbn [store_pages].
  { exists id. split; [by destruct (m a)|done]. }
  destruct (IH (vm_store (start r + off) (range src (start r + off) VM_PAGE_SIZE) m) a) as (g & -> & Hg).
  destruct (keeps_store (start r + off) (range src (start r + off) VM_PAGE_SIZE) m a) as (h & -> & Hh).
  exists (g ∘ h). split; [by destruct (m a)|]. intros c. change ((g ∘ h) c) with (g (h c)).
  destruct (Hg (h c)) as (-> & -> & -> & ->). apply Hh.
Qed.

Lemma fresh_mapped r m : region_fields r -> fresh r (vm_mapped (start r) (size r) (region_flags r) m).
Proof.
  intros Hf a Ha. unfold vm_mapped. rewrite in_range_true by done. eexists. split; [done|]. split; [done|].
  split; [done|]. split; [done|]. cbn. by apply region_flags_tag.
Qed.
Lemma fresh_writable r m : fresh r m -> all_writable r m.
Proof. intros Hm a Ha. destruct (Hm a Ha) as (c & -> & Hp & _). cbn. by rewrite Hp. Qed.

Lemma ckpt_vm_map_region_ok r k : start r mod VM_PAGE_SIZE = 0 -> size r mod VM_PAGE_SIZE = 0 ->
  returns (ckpt_vm_map_region r) k (fun e k' =>
    e = 0 /\ view_of k' ≡ v_mem (vm_mapped (start r) (size r) (region_flags r)) (view_of k)).
Proof.
  intros H1 H2. unfold ckpt_vm_map_region.
  destruct (vm_map (start r) (size r) (region_flags r) k) as [o k1] eqn:E. eapply kcall_step; [exact E|].
  apply spec_map in E as [-> Hv]; [|done|done]. rewrite Z.eqb_refl. eapply returns_step; [reflexivity|].
  by apply returns_ret.
Qed.

Definition bulk_effect (w : view) (p : Z) (r : xnd_vm_region) (m : vmap) : vmap :=
  refreshed r (ported p r (vm_store (start r) (range (v_vm w) (start r) (size r))
    (vm_mapped (start r) (size r) (region_flags r) m))).

#[local] Instance refreshed_proper r : Proper (vmap_eq ==> vmap_eq) (refreshed r).
Proof.
  intros m m' Hm. unfold refreshed.
  apply (if_mem_proper _ _ _ _ _), (if_mem_proper _ _ _ _ _), (if_mem_proper _ _ _ _ _), Hm.
Qed.

Lemma port_advanced k n f k' : advanced k n f k' -> v_port (view_of k') = v_port (view_of k).
Proof. unfold advanced. intros Ha. by rewrite Ha. Qed.

Lemma restore_bulk_ok w r rs k :
  region_fields r -> 0 < size r -> start r mod VM_PAGE_SIZE = 0 -> size r mod VM_PAGE_SIZE = 0 -> port_inside r ->
  ONLY_RESTORE_DIRTY_PAGES r && dirty_only r = false -> next k (range (v_vm w) (start r) (size r)) rs ->
  returns (ckpt_vm_restore_region fd r) k (fun e k' =>
    e = 0 /\ advanced k (size r) (bulk_effect w (v_port (view_of k)) r) k').
Proof.
  intros Hf Hs H1 H2 Hi Hd Hk. unfold ckpt_vm_restore_region. rewrite Hd. apply returns_bind.
  eapply returns_weaken; [by apply ckpt_vm_map_region_ok|]. intros e k1 [-> Hv1]. cbn [negb Z.eqb].
  assert (next k1 (range (v_vm w) (start r) (size r)) rs) as Hk1 by (unfold next; rewrite Hv1; apply Hk).
  pose proof (fresh_mapped r (v_vm (view_of k)) Hf) as Hfr1.
  apply returns_bind. eapply returns_weaken; [apply (mem_readall_ok _ _ _ _ _ Hk1); [apply range_length; lia|done|]|].
  { intros a Ha. rewrite (proj1 Hv1 a). by apply (fresh_writable r). }
  intros b k2 (-> & Ha2 & Hk2). rewrite Z.eqb_refl. cbn [negb].
  assert (advanced k (size r) (fun m => vm_store (start r) (range (v_vm w) (start r) (size r))
    (vm_mapped (start r) (size r) (region_flags r) m)) k2) as Ha.
  { unfold advanced in *. by rewrite Ha2, Hv1. }
  pose proof (keeps_fresh _ _ _ (keeps_store (start r) (range (v_vm w) (start r) (size r))) Hfr1) as Hfr2.
  apply returns_bind. eapply returns_weaken; [apply restore_task_port_ok; [done|]|].
  { intros a Haa. rewrite (advanced_vm _ _ _ _ _ Ha). by apply (fresh_writable r). }
  intros [] k3 Hv3. rewrite (port_advanced _ _ _ _ Ha) in Hv3.
  pose proof (advanced_mem _ _ _ _ _ _ _ Ha Hv3) as Ha3. apply returns_bind.
  eapply returns_weaken; [apply ckpt_vm_refresh_region_ok; [done|]|].
  { intros a Haa. rewrite (advanced_vm _ _ _ _ _ Ha3). by apply (keeps_fresh _ _ _ (keeps_ported _ r) Hfr2). }
  intros e k4 [-> Hv4]. apply returns_ret. split; [done|]. exact (advanced_mem _ _ _ _ _ _ _ Ha3 Hv4).
Qed.

(** *** A region saved by its dirty pages *)

Definition shared (r : xnd_vm_region) : bool := DYLD_SHARED_CACHE_REGION (start r) (size r).
Definition rw_copy : Z := Z.lor (Z.lor VM_PROT_READ VM_PROT_WRITE) VM_PROT_COPY.
Definition pages_begin (r : xnd_vm_region) : vmap -> vmap :=
  if shared r then vm_protected (start r) (size r) false rw_copy
  else vm_mapped (start r) (size r) (region_flags r).
Definition pages_end (r : xnd_vm_region) : vmap -> vmap :=
  if shared r then vm_protected (start r) (size r) false (prot r) else refreshed r.
Definition pages_effect (w : view) (p : Z) (r : xnd_vm_region) (offs : list Z) (m : vmap) : vmap :=
  pages_end r (ported p r (store_pages (v_vm w) r offs (pages_begin r m))).
#[local] Instance pages_end_proper r : Proper (vmap_eq ==> vmap_eq) (pages_end r).
Proof. unfold pages_end. apply _. Qed.

(** The restarted process has the shared cache mapped where the checkpointed
    one had it, and may give its pages their protection. *)
Definition cache_mapped (r : xnd_vm_region) (m : vmap) : Prop :=
  shared r = true -> forall a, start r <= a < start r + size r ->
  exists c, m a = Some c /\ Z.land (prot r) (c_max c) = prot r.

Lemma pages_begin_ok r k : start r mod VM_PAGE_SIZE = 0 -> size r mod VM_PAGE_SIZE = 0 ->
  cache_mapped r (v_vm (view_of k)) ->
  returns (if shared r then ckpt_vm_protect r false rw_copy else ckpt_vm_map_region r) k (fun e k' =>
    e = 0 /\ view_of k' ≡ v_mem (pages_begin r) (view_of k)).
Proof.
  intros H1 H2 Hc. unfold pages_begin. destruct (shared r) eqn:Es; [|by apply ckpt_vm_map_region_ok].
  apply ckpt_vm_protect_ok. intros a Ha. destruct (Hc Es a Ha) as (c & -> & _). cbn. by rewrite orb_true_r.
Qed.

Lemma pages_begin_state r m : region_fields r -> cache_mapped r m ->
  all_writable r (pages_begin r m) /\ cache_mapped r (pages_begin r m) /\
  (shared r = false -> fresh r (pages_begin r m)).
Proof.
  intros Hf Hc. unfold pages_begin. destruct (shared r) eqn:Es.
  - split; [|split; [|done]].
    + intros a Ha. destruct (Hc Es a Ha) as (c & Hm & _). unfold vm_protected, on_range.
      rewrite in_range_true, Hm by done. done.
    + intros _ a Ha. destruct (Hc Es a Ha) as (c & Hm & Hx). unfold vm_protected, on_range.
      rewrite in_range_true, Hm by done. by eexists.
  - pose proof (fresh_mapped r m Hf) as Hfr. split; [by apply fresh_writable|]. split; [|done]. intros Es'. congruence.
Qed.

Lemma keeps_cache f r m : keeps_attrs f -> cache_mapped r m -> cache_mapped r (f m).
Proof.
  intros Hf Hm Es a Ha. destruct (Hf m a) as (g & Hg & Hattr). destruct (Hm Es a Ha) as (c & Hc & Hx).
  exists (g c). rewrite Hg, Hc. split; [done|]. by destruct (Hattr c) as (_ & -> & _).
Qed.

Lemma pages_end_ok r k : region_fields r -> cache_mapped r (v_vm (view_of k)) ->
  (shared r = false -> fresh r (v_vm (view_of k))) ->
  returns (if shared r then ckpt_vm_protect r false (prot r) else ckpt_vm_refresh_region r) k (fun e k' =>
    e = 0 /\ view_of k' ≡ v_mem (pages_end r) (view_of k)).
Proof.
  intros Hf Hc Hfr. unfold pages_end. destruct (shared r) eqn:Es; [|by apply ckpt_vm_refresh_region_ok; auto].
  apply ckpt_vm_protect_ok. intros a Ha. destruct (Hc Es a Ha) as (c & -> & Hx). cbn. by rewrite Hx, Z.eqb_refl.
Qed.

Lemma restore_dirty_ok w r0 r idxs rs k :
  region_ok w r0 -> start r = start r0 -> size r = size r0 -> region_fields r -> port_inside r ->
  ONLY_RESTORE_DIRTY_PAGES r && dirty_only r = true -> pages_dirtied r = Z.of_nat (length idxs) ->
  Forall (fun i => 0 <= i < size r0 / VM_PAGE_SIZE) idxs -> cache_mapped r (v_vm (view_of k)) ->
  let offs := (fun i => i * VM_PAGE_SIZE) <$> idxs in
  let bs := List.flat_map (page_image w r0) offs in
  next k bs rs ->
  returns (ckpt_vm_restore_region fd r) k (fun e k' =>
    e = 0 /\ advanced k (Z.of_nat (length bs)) (pages_effect w (v_port (view_of k)) r offs) k').
Proof.
  intros Hok Hst Hsz Hf Hi Hd Hn Hidx Hcm offs bs Hk. unfold ckpt_vm_restore_region. rewrite Hd.
  unfold ckpt_vm_restore_region_pages. fold (shared r). cbv zeta. apply returns_bind.
  assert (start r mod VM_PAGE_SIZE = 0) as Ha1 by (rewrite Hst; apply Hok).
  assert (size r mod VM_PAGE_SIZE = 0) as Ha2 by (rewrite Hsz; apply Hok).
  eapply returns_weaken; [apply (pages_begin_ok r k Ha1 Ha2 Hcm)|]. intros e k1 [-> Hv1]. cbn [negb Z.eqb].
  destruct (pages_begin_state r (v_vm (view_of k)) Hf Hcm) as (Hw1 & Hc1 & Hfr1).
  assert (next k1 bs rs) as Hk1 by (unfold next; rewrite Hv1; apply Hk).
  apply returns_bind. unfold ckpt_vm_restore_pages. rewrite Hn, Nat2Z.id.
  eapply returns_weaken; [apply (restore_pages_loop_ok w r0 r idxs rs k1 Hok Hst Hidx Hk1)|].
  { intros a Haa. rewrite (proj1 Hv1 a). apply Hw1. by rewrite Hst, Hsz. }
  intros e k2 [-> Hadv2]. cbn [negb Z.eqb]. fold offs bs in Hadv2.
  assert (advanced k (Z.of_nat (length bs)) (fun m => store_pages (v_vm w) r offs (pages_begin r m)) k2) as Ha.
  { unfold advanced in *. rewrite Hadv2, Hv1. split; [|done]. intros a. cbn.
    by rewrite (store_pages_start _ r0 r) by done. }
  pose proof (keeps_store_pages (v_vm w) r offs) as Hks.
  apply returns_bind. eapply returns_weaken; [apply restore_task_port_ok; [done|]|].
  { intros a Haa. rewrite (advanced_vm _ _ _ _ _ Ha). exact (keeps_writable _ _ _ Hks Hw1 a Haa). }
  intros [] k3 Hv3. rewrite (port_advanced _ _ _ _ Ha) in Hv3.
  pose proof (advanced_mem _ _ _ _ _ _ _ Ha Hv3) as Ha3.
  pose proof (keeps_ported (v_port (view_of k)) r) as Hkp.
  eapply returns_weaken; [apply pages_end_ok; [done|..]|].
  { intros Es a Haa. rewrite (advanced_vm _ _ _ _ _ Ha3). exact (keeps_cache _ _ _ Hkp (keeps_cache _ _ _ Hks Hc1) Es a Haa). }
  { intros Es a Haa. rewrite (advanced_vm _ _ _ _ _ Ha3).
    exact (keeps_fresh _ _ _ Hkp (keeps_fresh _ _ _ Hks (Hfr1 Es)) a Haa). }
  intros e k4 [-> Hv4]. split; [done|]. exact (advanced_mem _ _ _ _ _ _ _ Ha3 Hv4).
Qed.

(** *** What a restored region looks like

    [w] is the checkpointed process, [m] the memory of the restarting process
    before and [m'] after.  A byte that was not saved, because its page was
    clean, is what the restarted process has there: the shared cache's, or
    zero. *)
Definition restored_byte (w : view) (r : xnd_vm_region) (m : vmap) (a : Z) : Z :=
  if save_dirty_only r && negb (dirty_page w r (page_off r a))
  then (if shared r then byte_at m a else 0) else byte_at (v_vm w) a.

Record restored (w : view) (p : Z) (r : xnd_vm_region) (m m' : vmap) : Prop := {
  re_out : forall a, in_range (start r) (size r) a = false -> m' a = m a;
  re_in : forall a, start r <= a < start r + size r -> exists c, m' a = Some c /\
    c_prot c = prot r /\
    (save_dirty_only r && shared r = false ->
     c_max c = max_prot r /\ c_inherit c = inherit r /\ c_tag c = tag r) /\
    (port_addr a = false -> c_byte c = restored_byte w r m a) /\
    (holds_port r = true -> port_addr a = true -> c_byte c = nth (Z.to_nat (a - mach_task_self_ptr)) (le_bytes 4 p) 0)
}.

(** The cell after [ported] and [refreshed], from the cell [c] before. *)
Lemma finished_cell p r m a c : region_fields r -> start r <= a < start r + size r -> m a = Some c ->
  fresh_cell (tag r) c ->
  exists c', refreshed r (ported p r m) a = Some c' /\ c_prot c' = prot r /\
    (c_max c' = max_prot r /\ c_inherit c' = inherit r /\ c_tag c' = tag r) /\
    (port_addr a = false -> c_byte c' = c_byte c) /\
    (holds_port r = true -> port_addr a = true -> c_byte c' = nth (Z.to_nat (a - mach_task_self_ptr)) (le_bytes 4 p) 0).
Proof.
  intros Hf Ha Hc Hfr. destruct (ported_cell p r m a) as (f & Hp & Hattr & Hb1 & Hb2).
  rewrite Hc in Hp. cbn in Hp. eexists. split.
  { apply (refreshed_in r _ a (f c) Hf Ha Hp). destruct (Hattr c) as (E1 & E2 & E3 & E4).
    destruct Hfr as (F1 & F2 & F3 & F4). split; [congruence|]. split; [congruence|]. split; congruence. }
  cbn. split; [done|]. split; [done|]. split; intros; [by apply Hb1|by apply Hb2].
Qed.

Lemma bulk_restored w p r m : region_fields r -> 0 < size r -> port_inside r -> save_dirty_only r = false ->
  restored w p r m (bulk_effect w p r m).
Proof.
  intros Hf Hs0 Hi Hd. pose proof (fun a Ha => in_range_true (start r) (size r) a Ha) as Hir. split.
  - intros a Ha. unfold bulk_effect. rewrite refreshed_out, ported_out by done. unfold vm_store, vm_mapped.
    rewrite range_length by lia. by rewrite Ha.
  - intros a Ha. set (m0 := vm_mapped (start r) (size r) (region_flags r) m).
    destruct (fresh_mapped r m Hf a Ha) as (c & Hc & Hfr). fold m0 in Hc.
    assert (vm_store (start r) (range (v_vm w) (start r) (size r)) m0 a = Some (set_byte (byte_at (v_vm w) a) c)) as Hs.
    { unfold vm_store. rewrite range_length, Hir, Hc by lia. cbn. do 2 f_equal. by apply range_nth. }
    destruct (finished_cell p r _ a _ Hf Ha Hs) as (c' & H1 & H2 & H3 & H4 & H5); [done|].
    exists c'. split; [done|]. split; [done|]. split; [done|]. split; [|done]. intros Hp. rewrite (H4 Hp).
    unfold restored_byte. by rewrite Hd.
Qed.

Definition dirty_idxs (w : view) (r : xnd_vm_region) : list Z :=
  List.filter (fun i => dirty_page w r (i * VM_PAGE_SIZE)) (seqZ 0 (size r / VM_PAGE_SIZE)).
Lemma dirty_offsets_idxs w r : dirty_offsets w r = (fun i => i * VM_PAGE_SIZE) <$> dirty_idxs w r.
Proof.
  unfold dirty_offsets, page_offsets, dirty_idxs. generalize (seqZ 0 (size r / VM_PAGE_SIZE)) as l.
  induction l as [|i l IH]; [done|]. cbn. destruct (dirty_page w r (i * VM_PAGE_SIZE)); cbn; by rewrite IH.
Qed.
Lemma dirty_idxs_range w r : Forall (fun i => 0 <= i < size r / VM_PAGE_SIZE) (dirty_idxs w r).
Proof.
  apply Forall_forall. intros i Hi. apply list_elem_of_In, List.filter_In in Hi as [Hi _].
  apply list_elem_of_In, elem_of_seqZ in Hi. lia.
Qed.

(** The page of an address of the region is one of the stored pages exactly
    when it is dirty. *)
Lemma dirty_page_stored w r a : region_ok w r -> start r <= a < start r + size r ->
  page_off r a ∈ dirty_offsets w r <-> dirty_page w r (page_off r a) = true.
Proof.
  intros Hok Ha. pose proof (page_size_pos (fd := fd)) as Hp. destruct (region_size_pages fd _ _ Hok) as [Hs Hn].
  unfold dirty_offsets. rewrite !list_elem_of_In, List.filter_In. split; [tauto|]. intros Hd. split; [|done].
  unfold page_offsets. apply list_elem_of_In, list_elem_of_fmap. exists ((a - start r) / VM_PAGE_SIZE). split; [done|].
  apply elem_of_seqZ. split; [apply Z.div_pos; lia|]. apply Z.div_lt_upper_bound; lia.
Qed.

Lemma pages_restored w p r m : region_fields r -> region_ok w r -> port_inside r -> save_dirty_only r = true ->
  cache_mapped r m -> restored w p r m (pages_effect w p r (dirty_offsets w r) m).
Proof.
  intros Hf Hok Hi Hd Hcm. unfold pages_effect. rewrite dirty_offsets_idxs.
  pose proof (page_size_pos (fd := fd)) as Hps. destruct (region_size_pages fd _ _ Hok) as [Hs Hn].
  assert (forall a, in_range (start r) (size r) a = false -> pages_begin r m a = m a) as Hbo.
  { intros a Ha. unfold pages_begin, vm_protected, vm_mapped, on_range. destruct (shared r); by rewrite Ha. }
  split.
  - intros a Ha.
    assert (pages_end r (ported p r (store_pages (v_vm w) r ((fun i => i * VM_PAGE_SIZE) <$> dirty_idxs w r)
              (pages_begin r m))) a
      = ported p r (store_pages (v_vm w) r ((fun i => i * VM_PAGE_SIZE) <$> dirty_idxs w r) (pages_begin r m)) a) as ->.
    { unfold pages_end. destruct (shared r); [unfold vm_protected, on_range; by rewrite Ha|by apply refreshed_out]. }
    rewrite ported_out, store_pages_cell, Hbo by done. rewrite decide_False; [done|].
    rewrite <- dirty_offsets_idxs. unfold dirty_offsets, page_offsets.
    rewrite list_elem_of_In, List.filter_In. intros [Hin _]. apply list_elem_of_In, list_elem_of_fmap in Hin as (i & He & Hin).
    apply elem_of_seqZ in Hin. pose proof (page_off_in r i a) as Hpi.
    rewrite (bool_decide_eq_true_2 _ He) in Hpi. apply in_range_spec in Hpi.
    pose proof (page_inside fd w r i a Hok ltac:(lia) Hpi) as Hin2. apply in_range_true in Hin2. congruence.
  - intros a Ha. pose proof (in_range_true _ _ _ Ha) as Hir.
    assert (forall c, pages_begin r m a = Some c ->
      store_pages (v_vm w) r ((fun i => i * VM_PAGE_SIZE) <$> dirty_idxs w r) (pages_begin r m) a =
      Some (if dirty_page w r (page_off r a) then set_byte (byte_at (v_vm w) a) c else c)) as Hst.
    { intros c Hc. rewrite store_pages_cell, <- dirty_offsets_idxs, Hc.
      destruct (dirty_page w r (page_off r a)) eqn:Ed.
      - by rewrite decide_True by (by apply dirty_page_stored).
      - rewrite decide_False; [done|]. intros Hin. apply dirty_page_stored in Hin; congruence. }
    unfold restored_byte. rewrite Hd. cbn [andb]. unfold pages_end, pages_begin in *. destruct (shared r) eqn:Es.
    + destruct (Hcm Es a Ha) as (c & Hc & Hx).
      assert (vm_protected (start r) (size r) false rw_copy m a = Some (set_prot (Z.land rw_copy VM_PROT_ALL) c)) as Hb
        by (unfold vm_protected, on_range; by rewrite Hir, Hc).
      specialize (Hst _ Hb). set (m1 := store_pages _ _ _ _) in *.
      destruct (ported_cell p r m1 a) as (f & Hp & Hattr & Hb1 & Hb2).
      unfold vm_protected, on_range. rewrite Hir, Hp, Hst. eexists. split; [reflexivity|]. cbn [c_prot c_byte set_prot].
      split; [by apply prot_all, Hf|]. split; [done|]. split.
      * intros Hpa. rewrite (Hb1 Hpa). destruct (dirty_page w r (page_off r a)); [done|]. cbn. unfold byte_at. by rewrite Hc.
      * intros Hh Hpa. by apply Hb2.
    + destruct (fresh_mapped r m Hf a Ha) as (c & Hc & Hfr). specialize (Hst _ Hc).
      destruct (finished_cell p r _ a _ Hf Ha Hst) as (c' & H1 & H2 & H3 & H4 & H5).
      { by destruct (dirty_page w r (page_off r a)). }
      exists c'. split; [done|]. split; [done|]. split; [done|]. split; [|done]. intros Hpa. rewrite (H4 Hpa).
      destruct (dirty_page w r (page_off r a)); [done|]. cbn [negb].
      unfold vm_mapped in Hc. rewrite Hir in Hc. by injection Hc as <-.
Qed.

(** *** [read_vm_region] *)

Lemma saved_region_fields w r : region_fields r -> region_fields (saved_region w r).
Proof.
  intros Hf. unfold saved_region. destruct (save_dirty_only r), (ONLY_SAVE_DIRTY_PAGES r);
    destruct Hf; split; try done; by apply wrapu_range.
Qed.

Lemma advanced_frame k n f k' : advanced k n f k' -> v_off (view_of k') = v_off (view_of k) + n /\
  v_file (view_of k') = v_file (view_of k) /\ v_port (view_of k') = v_port (view_of k).
Proof. unfold advanced. intros Ha. rewrite !Ha. done. Qed.

(** The region [r] of [w] has been read from the front of the file. *)
Record region_read (w : view) (r : xnd_vm_region) k k' : Prop := {
  rr_mem : restored w (v_port (view_of k)) r (v_vm (view_of k)) (v_vm (view_of k'));
  rr_port : v_port (view_of k') = v_port (view_of k)
}.

Lemma restored_ext w p r m m1 m2 : (forall a, m1 a = m2 a) -> restored w p r m m2 -> restored w p r m m1.
Proof. intros He [H1 H2]. split; intros a Ha; rewrite He; auto. Qed.

Lemma read_vm_region_ok w r rs k :
  region_ok w r -> region_fields r -> port_inside r -> cache_mapped r (v_vm (view_of k)) ->
  next k (region_image w r) rs ->
  returns (read_vm_region fd) k (fun o k' =>
    o = Some (saved_region w r) /\ next k' [] rs /\ region_read w r k k').
Proof.
  intros Hok Hf Hi Hcm Hk. unfold read_vm_region, region_image in *. apply next_app in Hk.
  destruct (region_size_pages fd _ _ Hok) as [Hs Hn]. pose proof (ro_size _ _ Hok) as Hs0.
  apply returns_bind. eapply returns_weaken; [apply (sys_readall_ok _ _ _ _ Hk); [apply region_bytes_length|done]|].
  intros d k1 (-> & Ha1 & Hk1). rewrite region_bytes_length, Z.eqb_refl. cbn [negb].
  pose proof (saved_region_fields w r Hf) as Hf'. rewrite region_bytes_roundtrip by done. cbv zeta.
  assert (forall a, v_vm (view_of k1) a = v_vm (view_of k) a) as Hm1 by (intros a; apply (advanced_vm _ _ _ _ _ Ha1)).
  assert (cache_mapped r (v_vm (view_of k1))) as Hcm1 by (intros Es a Ha; rewrite Hm1; by apply Hcm).
  destruct (advanced_frame _ _ _ _ Ha1) as (Ho1 & _ & Hp1).
  apply returns_bind. unfold saved_region in *. destruct (save_dirty_only r) eqn:Hd.
  - pose proof (proj1 (andb_true_iff _ _) Hd) as [Hon _].
    set (r' := with_dirty (u32 (Z.of_nat (length (dirty_offsets w r)))) true r) in *.
    assert (0 <= Z.of_nat (length (dirty_offsets w r)) < 2 ^ 32) as Hlen.
    { rewrite dirty_offsets_idxs, length_fmap. unfold dirty_idxs.
      pose proof (List.filter_length_le (fun i => dirty_page w r (i * VM_PAGE_SIZE)) (seqZ 0 (size r / VM_PAGE_SIZE))) as Hl.
      rewrite length_seqZ in Hl. pose proof (ro_pages _ _ Hok). lia. }
    assert (next k1 (List.flat_map (page_image w r) ((fun i => i * VM_PAGE_SIZE) <$> dirty_idxs w r)) rs) as Hk1'.
    { rewrite <- dirty_offsets_idxs. exact Hk1. }
    eapply returns_weaken; [apply (restore_dirty_ok w r r' (dirty_idxs w r) rs k1 Hok)|]; try done.
    { unfold r', ONLY_RESTORE_DIRTY_PAGES in *. cbn. by rewrite andb_true_r. }
    { cbn. rewrite wrapu_small by done. by rewrite dirty_offsets_idxs, length_fmap. }
    { apply dirty_idxs_range. }
    intros e k2 [-> Ha2]. apply returns_ret. split; [done|].
    split; [exact (advanced_next _ _ _ _ _ Hk1' Ha2)|]. destruct (advanced_frame _ _ _ _ Ha2) as (_ & _ & Hp2).
    split; [|congruence]. eapply restored_ext; [apply (fun a => advanced_vm _ _ _ _ a Ha2)|].
    rewrite Hp1, <- dirty_offsets_idxs.
    assert (forall m, pages_effect w (v_port (view_of k)) r' (dirty_offsets w r) m =
      pages_effect w (v_port (view_of k)) r (dirty_offsets w r) m) as ->.
    { intros m. unfold pages_effect. by rewrite (store_pages_start _ r r'). }
    pose proof (pages_restored w (v_port (view_of k)) r (v_vm (view_of k1)) Hf Hok Hi Hd Hcm1) as Hr.
    destruct Hr as [R1 R2]. split; intros a Ha.
    + rewrite <- Hm1. by apply R1.
    + destruct (R2 a Ha) as (c & C1 & C2 & C3 & C4 & C5). exists c. split; [exact C1|]. split; [done|].
      split; [done|]. split; [|done]. intros Hpa. rewrite (C4 Hpa). unfold restored_byte, byte_at. by rewrite Hm1.
  - set (r' := if ONLY_SAVE_DIRTY_PAGES r then with_dirty (pages_dirtied r) false r else r) in *.
    assert (start r' = start r /\ size r' = size r /\ ONLY_RESTORE_DIRTY_PAGES r' && dirty_only r' = false /\
      forall m, bulk_effect w (v_port (view_of k)) r' m = bulk_effect w (v_port (view_of k)) r m) as (E1 & E2 & E3 & E4).
    { unfold r'. destruct (ONLY_SAVE_DIRTY_PAGES r) eqn:Eo; repeat split; try done; [apply andb_false_r|].
      unfold ONLY_SAVE_DIRTY_PAGES in Eo. by rewrite Eo. }
    assert (port_inside r') as Hi' by (unfold port_inside, holds_port in *; by rewrite E1, E2).
    eapply returns_weaken; [apply (restore_bulk_ok w r' rs k1)|]; rewrite ?E1, ?E2; try done; [apply Hok..|].
    intros e k2 [-> Ha2]. apply returns_ret. split; [done|]. destruct (advanced_frame _ _ _ _ Ha2) as (_ & _ & Hp2).
    split.
    { apply (advanced_next k1 (range (v_vm w) (start r) (size r)) rs (bulk_effect w (v_port (view_of k1)) r') k2 Hk1).
      by rewrite range_length by lia. }
    split; [|congruence]. eapply restored_ext; [apply (fun a => advanced_vm _ _ _ _ a Ha2)|]. rewrite Hp1, E4.
    pose proof (bulk_restored w (v_port (view_of k)) r (v_vm (view_of k1)) Hf Hs0 Hi Hd) as [R1 R2].
    split; intros a Ha.
    + rewrite <- Hm1. by apply R1.
    + destruct (R2 a Ha) as (c & C1 & C2 & C3 & C4 & C5). exists c. split; [exact C1|]. split; [done|].
      split; [done|]. split; [|done]. intros Hpa. rewrite (C4 Hpa). unfold restored_byte, byte_at. by rewrite Hm1.
Qed.

(** *** The entries *)

Definition disjoint (r1 r2 : xnd_vm_region) : Prop :=
  start r1 + size r1 <= start r2 \/ start r2 + size r2 <= start r1.
Fixpoint separate (regions : list xnd_vm_region) : Prop :=
  match regions with [] => True | r :: regions => Forall (disjoint r) regions /\ separate regions end.

(** Every region restored, the rest of memory as it was. *)
Definition all_restored (w : view) (p : Z) (regions : list xnd_vm_region) (m m' : vmap) : Prop :=
  (forall r, r ∈ regions -> exists m1 m2, restored w p r m1 m2 /\
     forall a, start r <= a < start r + size r -> m1 a = m a /\ m' a = m2 a) /\
  (forall a, Forall (fun r => in_range (start r) (size r) a = false) regions -> m' a = m a).

Lemma disjoint_out r1 r2 a : disjoint r1 r2 -> start r2 <= a < start r2 + size r2 -> in_range (start r1) (size r1) a = false.
Proof.
  unfold disjoint, in_range. intros Hd Ha. apply andb_false_iff. rewrite Z.leb_gt, Z.ltb_ge. lia.
Qed.

Lemma all_restored_cons w p r regions m m1 m2 : Forall (disjoint r) regions ->
  restored w p r m m1 -> all_restored w p regions m1 m2 -> all_restored w p (r :: regions) m m2.
Proof.
  intros Hd Hr [Hi Ho]. rewrite Forall_forall in Hd. split.
  - intros r' [->|Hr']%elem_of_cons.
    + exists m, m1. split; [done|]. intros a Ha. split; [done|]. apply Ho, Forall_forall. intros r' Hr'.
      assert (disjoint r' r) as Hd' by (destruct (Hd _ Hr'); [right|left]; done).
      by apply (disjoint_out _ r).
    + destruct (Hi r' Hr') as (n1 & n2 & Hn & Hnm). exists n1, n2. split; [done|]. intros a Ha.
      destruct (Hnm a Ha) as [-> ->]. split; [|done]. apply (re_out _ _ _ _ _ Hr). by apply (disjoint_out _ r'); [apply Hd|].
  - intros a [Ha Has]%Forall_cons. rewrite Ho by done. by apply (re_out _ _ _ _ _ Hr).
Qed.

(** What a checkpoint asks of its regions, and of the process that restores it. *)
Record regions_ok (w : view) (regions : list xnd_vm_region) : Prop := {
  rs_ok : Forall (region_ok w) regions;
  rs_fields : Forall region_fields regions;
  rs_port : Forall port_inside regions;
  rs_separate : separate regions
}.

Lemma cache_mapped_restored w p r r' m m' : disjoint r r' -> restored w p r m m' -> cache_mapped r' m -> cache_mapped r' m'.
Proof.
  intros Hd Hr Hm Es a Ha. rewrite (re_out _ _ _ _ _ Hr) by (by apply (disjoint_out _ r')). by apply Hm.
Qed.

Context `{!FdSys K} (fix_mcontext : list Z -> list Z).

Lemma read_entry_ok e k rs : next k (le_bytes 4 (entry_code e)) rs ->
  returns (sys_readall fd sizeof_entry) k (fun d k' =>
    d = le_bytes 4 (entry_code e) /\ next k' [] rs /\ (forall a, v_vm (view_of k') a = v_vm (view_of k) a) /\
    v_port (view_of k') = v_port (view_of k)).
Proof.
  intros Hk. eapply returns_weaken; [apply (sys_readall_ok _ _ _ _ Hk); [by rewrite le_bytes_length|done]|].
  intros d k' (-> & Ha & Hn). split; [done|]. split; [done|]. split; [|apply (advanced_frame _ _ _ _ Ha)].
  intros a. apply (advanced_vm _ _ _ _ _ Ha).
Qed.

Lemma read_entries_ok w entries regions uctx nr acc rs k :
  entries_ok entries regions -> regions_ok w regions ->
  Forall (fun r => cache_mapped r (v_vm (view_of k))) regions -> uctx <> [] ->
  Z.of_nat (length (in_regions acc) + length regions) <= nr ->
  next k (entries_image w entries regions uctx) rs ->
  returns (read_entries (Z.of_nat (length uctx)) fix_mcontext (length entries) fd nr acc) k (fun o k' =>
    o = Some (CkptIn (in_entries acc ++ (entry_code <$> entries)) (in_regions acc ++ (saved_region w <$> regions))
          (if bool_decide (XND_UCONTEXT_ENTRY ∈ entries) then Some (fix_mcontext uctx) else in_uctx acc)) /\
    next k' [] rs /\ all_restored w (v_port (view_of k)) regions (v_vm (view_of k)) (v_vm (view_of k'))).
Proof.
  intros Hok Hrs Hcm Hu Hnr. revert regions acc k Hok Hrs Hcm Hnr. induction entries as [|e entries IH];
    intros regions acc k Hok Hrs Hcm Hnr Hk.
  { cbn in Hok. subst. apply returns_ret. cbn [fmap list_fmap]. rewrite !app_nil_r. destruct acc. cbn.
    split; [done|]. split; [exact Hk|]. split; [|done]. intros r Hr. by apply elem_of_nil in Hr. }
  cbn [length read_entries]. destruct e; cbn [entries_ok entries_image] in *; [|done|].
  - destruct regions as [|r regions]; [done|]. destruct Hrs as [R1 R2 R3 [R4 R5]].
    apply Forall_cons in R1 as [R1 R1'], R2 as [R2 R2'], R3 as [R3 R3'], Hcm as [Hcm Hcm'].
    apply next_app in Hk as Hk0. apply returns_bind.
    eapply returns_weaken; [by apply read_entry_ok|]. intros d k1 (-> & Hk1 & Hm1 & Hp1).
    rewrite le_bytes_length. change (negb (Z.of_nat 4 =? sizeof_entry)) with false. cbv iota zeta.
    change (fst (field_u 4 (le_bytes 4 (entry_code XND_VM_REGION_ENTRY)))) with (entry_code XND_VM_REGION_ENTRY).
    rewrite Z.eqb_refl. cbn [length] in Hnr. rewrite (proj2 (Z.leb_gt _ _)) by lia.
    apply returns_bind. assert (next k1 (region_image w r) (entries_image w entries regions uctx ++ rs)) as Hk1'.
    { exact (proj1 (next_app k1 (region_image w r) (entries_image w entries regions uctx) rs) Hk1). }
    eapply returns_weaken; [apply (read_vm_region_ok w r (entries_image w entries regions uctx ++ rs) k1); [done|done|done| |exact Hk1']|].
    { intros Es a Ha. rewrite Hm1. by apply Hcm. }
    intros o k2 (-> & Hk2 & [Hr Hp2]).
    assert (restored w (v_port (view_of k)) r (v_vm (view_of k)) (v_vm (view_of k2))) as Hrk.
    { rewrite Hp1 in Hr. destruct Hr as [Q1 Q2]. split; intros a Ha.
      - rewrite <- Hm1. by apply Q1.
      - destruct (Q2 a Ha) as (c & C1 & C2 & C3 & C4 & C5). exists c. split; [done|]. split; [done|].
        split; [done|]. split; [|done]. intros Hpa. rewrite (C4 Hpa). unfold restored_byte, byte_at. by rewrite Hm1. }
    set (acc' := CkptIn _ _ _).
    eapply returns_weaken; [apply (IH regions acc' k2 Hok)|].
    + split; done.
    + rewrite Forall_forall in Hcm', R4 |- *. intros r' Hr'. eapply cache_mapped_restored; [by apply R4|exact Hrk|by apply Hcm'].
    + unfold acc'. cbn. rewrite length_app. cbn. lia.
    + exact Hk2.
    + intros o k3 (-> & Hk3 & Hall). split; [|split; [done|]].
      * unfold acc'. cbn [in_entries in_regions in_uctx fmap list_fmap]. rewrite <- !app_assoc. do 2 f_equal.
        assert (bool_decide (XND_UCONTEXT_ENTRY ∈ XND_VM_REGION_ENTRY :: entries) =
          bool_decide (XND_UCONTEXT_ENTRY ∈ entries)) as ->; [|done].
        apply bool_decide_ext. rewrite elem_of_cons. naive_solver.
      * rewrite Hp2, Hp1 in Hall. by eapply all_restored_cons.
  - apply next_app in Hk as Hk0. apply returns_bind.
    eapply returns_weaken; [by apply read_entry_ok|]. intros d k1 (-> & Hk1 & Hm1 & Hp1).
    rewrite le_bytes_length. change (negb (Z.of_nat 4 =? sizeof_entry)) with false. cbv iota zeta.
    change (fst (field_u 4 (le_bytes 4 (entry_code XND_UCONTEXT_ENTRY)))) with (entry_code XND_UCONTEXT_ENTRY).
    change (entry_code XND_UCONTEXT_ENTRY =? entry_code XND_VM_REGION_ENTRY) with false. cbv iota. rewrite Z.eqb_refl.
    assert (next k1 uctx (entries_image w entries regions uctx ++ rs)) as Hk1'.
    { exact (proj1 (next_app k1 uctx (entries_image w entries regions uctx) rs) Hk1). }
    apply returns_bind. unfold read_context. apply returns_bind.
    eapply returns_weaken; [apply (sys_readall_ok _ _ _ _ Hk1'); [done|destruct uctx; [done|cbn; lia]]|].
    intros d k2 (-> & Ha2 & Hk2). rewrite Z.eqb_refl. apply returns_ret.
    assert (forall a, v_vm (view_of k2) a = v_vm (view_of k) a) as Hm2.
    { intros a. rewrite (advanced_vm _ _ _ _ _ Ha2). apply Hm1. }
    destruct (advanced_frame _ _ _ _ Ha2) as (_ & _ & Hp2).
    set (acc' := CkptIn _ _ _).
    eapply returns_weaken; [apply (IH regions acc' k2 Hok Hrs)|].
    + eapply Forall_impl; [exact Hcm|]. intros r' Hr' Es a Ha. rewrite Hm2. by apply Hr'.
    + done.
    + exact Hk2.
    + intros o k3 (-> & Hk3 & [Hin Hout]). split; [|split; [done|]].
      * unfold acc'. cbn [in_entries in_regions in_uctx fmap list_fmap]. rewrite <- !app_assoc. do 2 f_equal.
        rewrite (bool_decide_eq_true_2 (XND_UCONTEXT_ENTRY ∈ XND_UCONTEXT_ENTRY :: entries)) by (rewrite elem_of_cons; by left).
        by destruct (bool_decide _).
      * rewrite Hp2, Hp1 in Hin. split.
        -- intros r Hr. destruct (Hin r Hr) as (n1 & n2 & Hn & Hnm). exists n1, n2. split; [done|].
           intros a Ha. destruct (Hnm a Ha) as [-> ->]. by rewrite Hm2.
        -- intros a Ha. by rewrite Hout, Hm2.
Qed.
End read.
