(* ===== verification/CkptProps.v ===== *)
(** A checkpoint image restores the process it was taken of: [write_ckpt]
    followed by [read_ckpt], and the ways an image goes wrong. *)

From S2P Require Import Prelude Cstr Bytes Io Env Process CkptFile VmRegion CkptImage CkptRestore CkptSpec CkptWrite CkptRead.
Open Scope Z_scope.

Section roundtrip.
Context {K : Type} `{!VmParams, !IoSys K, !VmMem K, !FdSys K, !FsSys K, !UuidLib, !CkptZlib K} (fd : Z) `{!VmSpec K fd}.
Implicit Types s : pstate K.

Lemma header_bytes_nonnil h : header_bytes h <> [].
Proof.
  unfold header_bytes. intros Hn. apply (f_equal length) in Hn. rewrite !length_app, !le_bytes_length in Hn.
  cbn [length] in Hn. lia.
Qed.

(** The image file's parts of the size the code expects. *)
Definition header_ok (h : xnd_ckpt_header) : Prop :=
  length (h_magic h) = 16%nat /\ length (h_xnd_uuid h) = 16%nat /\ length (sc_uuid (h_shared_cache_info h)) = 16%nat.
Lemma header_bytes_length h : header_ok h -> Z.of_nat (length (header_bytes h)) = sizeof_header.
Proof.
  intros (H1 & H2 & H3). unfold header_bytes. rewrite !length_app, !le_bytes_length, H1, H2, H3.
  by rewrite length_replicate.
Qed.

(** The directory of the epoch opens and the image file is created in it,
    empty. *)
Record ckptfile_opens (h : xnd_ckpt_header) s (dirfd : Z) (k2 : K) : Prop := {
  co_dir : exists k1, xnd_ckptdir_open (h_xnd_uuid h) (epoch (g_ids s)) (g_k s) = Ret dirfd k1 /\
    forall name, xnd_ckptfile_name XND_CKPTFILE_MAXLEN (xnd_pid (g_ids s)) = Some name ->
    xnd_ckptfile_create dirfd name k1 = Ret fd k2;
  co_dirfd : 0 <= dirfd;
  co_fd : 0 <= fd;
  co_empty : v_file (view_of k2) = [] /\ v_off (view_of k2) = 0
}.

Lemma write_ckpt_ok h entries regions uctx s dirfd k2 :
  ckptfile_opens h s dirfd k2 -> env_use_zlib_compression (g_env s) = Ret false (g_env s) ->
  header_ok h -> h_entry_count h = Z.of_nat (length entries) ->
  entries_ok entries regions -> Forall (region_ok (view_of k2)) regions -> uctx <> [] ->
  returns (write_ckpt h entries regions uctx) s (fun ret s' => ret = 0 /\ exists k3,
    s' = put_k (fd_close fd (fd_close dirfd k3)) s /\
    v_file (view_of k3) = header_bytes h ++ entries_image (view_of k2) entries regions uctx).
Proof.
  intros [(k1 & Hd & Hc) Hdn Hfn [Hf0 Ho0]] Hz Hh Hn Hok Hr Hu. unfold write_ckpt.
  assert (put_env (g_env s) s = s) as Hpe by by destruct s.
  eapply returns_step. { unfold on_env. rewrite Hz. by rewrite Hpe. }
  eapply returns_step; [reflexivity|].
  destruct (xnd_ckptfile_name XND_CKPTFILE_MAXLEN (xnd_pid (g_ids s))) as [name|] eqn:En; [|done].
  eapply returns_step; [reflexivity|]. specialize (Hc _ eq_refl).
  eapply returns_step. { unfold on_k. by rewrite Hd. }
  rewrite (proj2 (Z.ltb_ge _ _) Hdn). eapply returns_step. { unfold on_k. cbn [g_k put_k]. by rewrite Hc. }
  rewrite (proj2 (Z.ltb_ge _ _) Hfn). apply returns_bind, on_k_returns. cbn [g_k put_k].
  assert (at_end (view_of k2)) as He by (unfold at_end; by rewrite Hf0, Ho0).
  eapply returns_weaken; [apply (writeall_ok fd _ _ (header_bytes_nonnil h) He)|]. intros n k3 [-> Ha3].
  rewrite header_bytes_length, Z.eqb_refl by done. cbn [negb]. apply returns_bind, on_k_returns. cbn [g_k put_k].
  rewrite Hn, Nat2Z.id. eapply returns_weaken; [apply (write_entries_ok fd); [apply Ha3|done| |done]|].
  { eapply Forall_impl; [exact Hr|]. intros r Hro. by eapply region_ok_appended. }
  intros e k4 [-> Ha4]. cbn [negb Z.eqb]. eapply returns_step; [reflexivity|]. cbn [negb Z.eqb].
  eapply returns_step; [reflexivity|]. eapply returns_step; [reflexivity|]. apply returns_ret.
  split; [done|]. exists k4. split; [by destruct s|].
  pose proof (appended_trans fd _ _ _ _ _ Ha3 Ha4) as [Hv _]. rewrite Hv. cbn. rewrite Hf0. cbn. f_equal.
  apply mem_eq_entries_image. by apply (appended_mem_eq fd) in Ha3.
Qed.

(** C3. A checkpoint writes exactly the image: with its directory and file open
    and every region's pages readable (or readable after [mach_vm_protect]),
    [write_ckpt] returns 0, closes both descriptors, changes nothing else of the
    process, and leaves a file that is the header followed by each entry: the
    region with all its pages or, where that is smaller, with its dirty pages
    and their offsets, and the context. *)
Theorem write_ckpt_image h entries regions uctx s dirfd k2 :
  ckptfile_opens h s dirfd k2 -> env_use_zlib_compression (g_env s) = Ret false (g_env s) ->
  header_ok h -> h_entry_count h = Z.of_nat (length entries) ->
  entries_ok entries regions -> Forall (region_ok (view_of k2)) regions -> uctx <> [] ->
  returns (write_ckpt h entries regions uctx) s (fun ret s' => ret = 0 /\ exists k3,
    s' = put_k (fd_close fd (fd_close dirfd k3)) s /\
    v_file (view_of k3) = header_bytes h ++ entries_image (view_of k2) entries regions uctx).
Proof. apply write_ckpt_ok. Qed.

(** What a byte of a restored region is when it was saved. *)
Definition saved_addr (w : view) (r : xnd_vm_region) (a : Z) : bool :=
  negb (save_dirty_only r) || dirty_page w r (page_off r a).

(** The memory of [m'] is that of the checkpointed process [w] on the regions
    it saved: their attributes, and every saved byte except the cached task
    port, which is the new process's. *)
Definition same_process (w : view) (p : Z) (regions : list xnd_vm_region) (m' : vmap) : Prop :=
  forall r a, r ∈ regions -> start r <= a < start r + size r -> exists c, m' a = Some c /\
    c_prot c = prot r /\
    (save_dirty_only r && shared r = false -> c_max c = max_prot r /\ c_inherit c = inherit r /\ c_tag c = tag r) /\
    (saved_addr w r a = true -> port_addr a = false -> c_byte c = byte_at (v_vm w) a) /\
    (holds_port r = true -> port_addr a = true -> c_byte c = nth (Z.to_nat (a - mach_task_self_ptr)) (le_bytes 4 p) 0).

Lemma all_restored_same w p regions m m' : all_restored w p regions m m' -> same_process w p regions m'.
Proof.
  intros [Hin _] r a Hr Ha. destruct (Hin r Hr) as (m1 & m2 & [_ Hre] & Hm). destruct (Hm a Ha) as [_ Hm2].
  destruct (Hre a Ha) as (c & C1 & C2 & C3 & C4 & C5). exists c. rewrite Hm2. split; [done|]. split; [done|].
  split; [done|]. split; [|done]. intros Hs Hp. rewrite (C4 Hp). unfold restored_byte. unfold saved_addr in Hs.
  destruct (save_dirty_only r); [|done]. cbn in *. by rewrite Hs.
Qed.

(** C2. A restart gets the process back: whatever process [write_ckpt] saved,
    [read_ckpt] on the resulting file returns with the region table and the
    context of the checkpoint, and with the checkpointed memory: every saved
    byte, protection, inheritance and tag of every region, but with the new
    process's task port. *)
Theorem checkpoint_roundtrip h entries regions uctx (fix_mcontext : list Z -> list Z) s dirfd k2 :
  ckptfile_opens h s dirfd k2 -> env_use_zlib_compression (g_env s) = Ret false (g_env s) ->
  header_ok h -> h_entry_count h = Z.of_nat (length entries) -> h_region_count h = Z.of_nat (length regions) ->
  entries_ok entries regions -> XND_UCONTEXT_ENTRY ∈ entries -> uctx <> [] ->
  regions_ok (view_of k2) regions ->
  returns (write_ckpt h entries regions uctx) s (fun ret s' => ret = 0 /\ exists k3,
    g_k s' = fd_close fd (fd_close dirfd k3) /\
    forall kr, v_file (view_of kr) = v_file (view_of k3) -> v_off (view_of kr) = sizeof_header ->
      Forall (fun r => cache_mapped r (v_vm (view_of kr))) regions ->
      returns (read_ckpt (Z.of_nat (length uctx)) fix_mcontext fd h) kr (fun o kr' =>
        o = Some (CkptIn (entry_code <$> entries) (saved_region (view_of k2) <$> regions) (Some (fix_mcontext uctx))) /\
        exists k4, kr' = fd_close fd k4 /\ same_process (view_of k2) (v_port (view_of kr)) regions (v_vm (view_of k4)))).
Proof.
  intros Ho Hz Hh Hn Hnr Hok Hin Hu Hrs.
  eapply returns_weaken; [apply write_ckpt_ok; try done; apply Hrs|].
  intros ret s' [-> (k3 & -> & Hf)]. split; [done|]. exists k3. split; [done|].
  intros kr Hkf Hko Hcm. unfold read_ckpt. rewrite Hn, Hnr, Nat2Z.id. apply returns_bind.
  assert (next fd kr (entries_image (view_of k2) entries regions uctx) []) as Hk.
  { split; [rewrite Hko; done|]. unfold v_rest. rewrite Hkf, Hf, Hko.
    pose proof (header_bytes_length h Hh) as Hl. rewrite app_nil_r. apply drop_app_length'. lia. }
  eapply returns_weaken; [apply (read_entries_ok fd fix_mcontext (view_of k2) entries regions uctx
    (Z.of_nat (length regions)) (CkptIn [] [] None) [] kr Hok Hrs Hcm Hu); [done|exact Hk]|].
  intros o k4 (-> & _ & Hall). apply returns_bind. eapply returns_intro; [reflexivity|]. apply returns_ret.
  rewrite (bool_decide_eq_true_2 _ Hin). split; [done|]. exists k4. split; [done|]. by eapply all_restored_same.
Qed.
End roundtrip.

(** ** Where an image goes wrong *)
Section faults.
Context {K : Type} `{!VmParams, !IoSys K, !VmMem K} (fd : Z) `{!VmSpec K fd}.
Implicit Types k : K.

Lemma mem_writeall_partial_loop fuel addr n lim bytes k :
  0 <= bytes <= lim -> lim < n -> (Z.to_nat n < fuel + Z.to_nat bytes)%nat -> at_end (view_of k) ->
  (forall a, addr + bytes <= a < addr + lim -> readable (v_vm (view_of k) a) = true) ->
  readable (v_vm (view_of k) (addr + lim)) = false ->
  returns (mem_writeall_loop fuel fd addr n bytes) k (fun r k' =>
    r = lim /\ appended fd k (range (v_vm (view_of k)) (addr + bytes) (lim - bytes)) k').
Proof.
  revert bytes k. induction fuel as [|fuel IH]; intros bytes k Hb Hl Hf He Hr Hu; [lia|].
  cbn [mem_writeall_loop]. destruct (mem_write fd (addr + bytes) (n - bytes) k) as [r k1] eqn:E.
  eapply returns_step; [unfold kcall; by rewrite E|]. apply spec_mem_write in E; [|lia].
  destruct (decide (bytes = lim)) as [->|Hne].
  { rewrite Hu in E. destruct E as [-> Hv]. apply returns_ret. split; [done|]. rewrite Z.sub_diag.
    by apply appended_nil. }
  rewrite Hr in E by lia. destruct E as (Hrr & Hall & Hv).
  assert (r <= lim - bytes) as Hrl.
  { destruct (Z_le_gt_dec r (lim - bytes)) as [|Hg]; [done|]. rewrite Hall in Hu by lia. done. }
  pose proof (appended_write fd _ _ _ He Hv) as Ha. rewrite (proj2 (Z.eqb_neq _ _)) by lia.
  rewrite (proj2 (Z.ltb_lt _ _)) by lia.
  eapply returns_weaken; [apply IH; [lia|lia|lia|apply Ha| |]|].
  - intros a Haa. rewrite (appended_vm fd _ _ _ _ Ha). apply Hr. lia.
  - by rewrite (appended_vm fd _ _ _ _ Ha).
  - intros m k2 [-> Ha2]. split; [done|]. pose proof (appended_trans fd _ _ _ _ _ Ha Ha2) as Ht.
    rewrite (range_ext (v_vm (view_of k1)) (v_vm (view_of k))) in Ht
      by (intros; by rewrite (appended_vm fd _ _ _ _ Ha)).
    rewrite Z.add_assoc, <- range_app in Ht by lia. by replace (r + (lim - (bytes + r))) with (lim - bytes) in Ht by lia.
Qed.

Lemma all_pages_partial n r p seek b k :
  at_end (view_of k) -> 0 < b < VM_PAGE_SIZE -> 0 <= p -> b <= seek + Z.of_nat n * VM_PAGE_SIZE ->
  let q := p + Z.of_nat n in
  (forall a, start r + p * VM_PAGE_SIZE <= a < start r + q * VM_PAGE_SIZE + b -> readable (v_vm (view_of k) a) = true) ->
  readable (v_vm (view_of k) (start r + q * VM_PAGE_SIZE + b)) = false ->
  forall m, returns (write_all_pages_loop (n + S m) fd r p seek) k (fun got k' => got = q /\
    v_file (view_of k') = v_file (view_of k) ++
      range (v_vm (view_of k)) (start r + p * VM_PAGE_SIZE) (Z.of_nat n * VM_PAGE_SIZE + b) /\
    v_off (view_of k') = seek + Z.of_nat n * VM_PAGE_SIZE - b).
Proof.
  revert p seek k. induction n as [|n IH]; intros p seek k He Hb Hp Hk q Hr Hu m; subst q;
    pose proof (page_size_pos (fd := fd)) as Hps; cbn [Nat.add write_all_pages_loop]; apply returns_bind.
  - rewrite Z.add_0_r in *.
    eapply returns_weaken; [apply (mem_writeall_partial_loop _ _ _ b 0); [lia|lia|lia|done| |done]|].
    { intros a Ha. apply Hr. lia. }
    intros x k1 [-> Ha1]. rewrite Z.add_0_r, Z.sub_0_r in Ha1.
    rewrite (proj2 (Z.eqb_neq b VM_PAGE_SIZE)), (proj2 (Z.eqb_neq b 0)) by lia. cbn [negb].
    destruct (lseek_set fd (seek - b) k1) as [ret k2] eqn:E. eapply kcall_step; [exact E|].
    apply spec_lseek_set in E as [-> Hv]; [|lia]. rewrite (proj2 (Z.eqb_neq _ (-1))) by lia.
    eapply returns_step; [reflexivity|]. apply returns_ret. split; [done|]. rewrite !Hv. cbn.
    destruct Ha1 as [Hv1 _]. rewrite Hv1. cbn. split; [done|lia].
  - rewrite Nat2Z.inj_succ in *.
    eapply returns_weaken; [apply (mem_writeall_ok fd); [done|done|]|].
    { intros a Ha. apply Hr. nia. }
    intros x k1 [-> Ha1]. rewrite Z.eqb_refl. cbn [negb].
    assert (p + Z.succ (Z.of_nat n) = p + 1 + Z.of_nat n) as Eq by lia. rewrite Eq in *.
    eapply returns_weaken; [apply IH; [apply Ha1|done|lia|lia| |]|].
    { intros a Ha. rewrite (appended_vm fd _ _ _ _ Ha1). apply Hr. lia. }
    { by rewrite (appended_vm fd _ _ _ _ Ha1). }
    intros got k2 (-> & Hf & Ho). split; [done|]. split; [|rewrite Ho; lia].
    rewrite Hf, (appended_file fd _ _ _ Ha1), <- app_assoc. f_equal.
    rewrite (range_ext (v_vm (view_of k1)) (v_vm (view_of k))) by (intros; by rewrite (appended_vm fd _ _ _ _ Ha1)).
    replace (start r + (p + 1) * VM_PAGE_SIZE) with (start r + p * VM_PAGE_SIZE + VM_PAGE_SIZE) by lia.
    rewrite <- range_app by lia. f_equal. lia.
Qed.

(** A page that can be written only in part corrupts the image: when [q]
    pages of a region are readable and [b] bytes of the next one,
    [write_vm_region_all_pages] reports the [q] pages, but leaves the file
    offset [b] bytes before the end of the last of them instead of at it, so
    that what is written next replaces the last [b] bytes of the region. *)
Theorem partial_page_overwrites (r : xnd_vm_region) (q : nat) (b : Z) (k : K) :
  at_end (view_of k) -> 0 < b < VM_PAGE_SIZE -> b <= v_off (view_of k) ->
  Z.of_nat q < size r / VM_PAGE_SIZE ->
  (forall a, start r <= a < start r + Z.of_nat q * VM_PAGE_SIZE + b -> readable (v_vm (view_of k) a) = true) ->
  readable (v_vm (view_of k) (start r + Z.of_nat q * VM_PAGE_SIZE + b)) = false ->
  returns (write_vm_region_all_pages fd r) k (fun pages k' => pages = Z.of_nat q /\
    v_file (view_of k') = v_file (view_of k) ++ range (v_vm (view_of k)) (start r) (Z.of_nat q * VM_PAGE_SIZE + b) /\
    v_off (view_of k') = v_off (view_of k) + Z.of_nat q * VM_PAGE_SIZE - b).
Proof.
  intros He Hb Ho Hq Hr Hu. unfold write_vm_region_all_pages. pose proof (page_size_pos (fd := fd)) as Hps.
  destruct (lseek_cur fd k) as [seek k1] eqn:E. eapply kcall_step; [exact E|].
  apply spec_lseek_cur in E as [-> Hv]. rewrite (proj2 (Z.eqb_neq _ (-1))) by lia.
  eapply returns_step; [reflexivity|].
  replace (Z.to_nat (size r / VM_PAGE_SIZE)) with (q + S (Z.to_nat (size r / VM_PAGE_SIZE) - q - 1))%nat by lia.
  eapply returns_weaken; [apply (all_pages_partial q r 0 _ b k1); [by rewrite Hv|done|lia|lia| |]|].
  - intros a Ha. rewrite Hv. apply Hr. lia.
  - rewrite Hv. by rewrite Z.add_0_l.
  - intros got k2 (-> & Hf & Hoff). split; [done|]. split; [|rewrite Hoff; lia].
    rewrite Hf, (v_file_proper _ _ Hv), Z.add_0_r. f_equal. apply range_ext. intros. by rewrite Hv.
Qed.

(** A page of the shared cache that is not mapped in the restarted process is
    never restored, unless it is the first of its region: [ckpt_vm_map_page]
    maps it where it should be, and then asserts that this is the address of
    the region. *)
Theorem map_page_aborts (r : xnd_vm_region) (offset : Z) (k : K) :
  (start r + offset) mod VM_PAGE_SIZE = 0 ->
  match ckpt_vm_map_page r offset k with
  | Ret e k' => offset = 0 /\ e = 0
  | Abort k' => offset <> 0 /\ view_of k' ≡ v_mem (vm_mapped (start r + offset) VM_PAGE_SIZE (page_flags r)) (view_of k)
  | _ => False
  end.
Proof.
  intros Ho. unfold ckpt_vm_map_page, mbind, M_bind, kcall.
  destruct (vm_map (start r + offset) VM_PAGE_SIZE (page_flags r) k) as [o k1] eqn:E.
  apply spec_map in E as [-> Hv]; [|done|apply Z_mod_same_full]. unfold xnd_assert.
  destruct (Z.eqb_spec (start r) (start r + offset)); cbn; [split; [lia|done]|]. split; [lia|done].
Qed.
End faults.
