(* ===== verification/CkptWorld.v ===== *)
(** A kernel with four-byte pages, for the witnesses of the checkpoint image: a
    process with a write-only region that holds the task port, an allocator
    region with one dirty page of three and a shared-cache region. *)

From S2P Require Import Prelude Cstr Bytes Io Env Process CkptFile VmRegion CkptImage CkptRestore CkptSpec CkptWrite CkptRead CkptProps.
Open Scope Z_scope.

Record box := Box { b_view : view; b_errno : Z }.
Definition on_view (f : view -> view) (b : box) : box := Box (f (b_view b)) (b_errno b).

#[export] Instance box_io : IoSys box := {
  sys_write _ buf b := (Z.of_nat (length buf), on_view (v_write buf) b);
  sys_read _ n b := let data := take (Z.to_nat n) (v_rest (b_view b)) in
    (Some data, on_view (v_seek (v_off (b_view b) + Z.of_nat (length data))) b);
  read_waits _ _ _ := false
}.
#[export] Instance box_fd : FdSys box := { fd_getfl _ b := (0, b); fd_dup2 _ new b := (new, b); fd_close _ b := b }.
(** Memory is transferred a byte at a time. *)
#[export] Instance box_mem `{VmParams} : VmMem box := {
  vm_protect addr n max p b := (true, on_view (v_mem (vm_protected addr n max p)) b);
  vm_set_inherit addr n i b := (true, on_view (v_mem (vm_inherited addr n i)) b);
  vm_map addr n flags b := (Some addr, on_view (v_mem (vm_mapped addr n flags)) b);
  vm_page_range_query addr n b := (Some ((fun i => v_disp (b_view b) (addr + i * VM_PAGE_SIZE)) <$> seqZ 0 (n / VM_PAGE_SIZE)), b);
  mem_write _ addr n b :=
    if readable (v_vm (b_view b) addr) then (1, on_view (v_write (range (v_vm (b_view b)) addr 1)) b) else (-1, b);
  mem_read _ addr n b :=
    match v_rest (b_view b) with
    | [] => (0, b)
    | x :: _ =>
      if writable (v_vm (b_view b) addr)
      then (1, on_view (fun v => v_seek (v_off v + 1) (v_mem (vm_store addr [x]) v)) b)
      else (-1, Box (b_view b) EFAULT)
    end;
  k_errno b := b_errno b;
  lseek_cur _ b := (v_off (b_view b), b);
  lseek_set _ off b := if off <? 0 then (-1, b) else (off, on_view (v_seek off) b);
  mach_task_self_ptr := 104;
  task_self_trap b := v_port (b_view b);
  mem_store addr bs b := on_view (v_mem (vm_store addr bs)) b;
}.

Definition box_vm_spec `{VmParams} (Hp : 0 < VM_PAGE_SIZE) : VmSpec box 6.
Proof.
  refine {| view_of := b_view |}; [done|..].
  - intros buf b r b' [= <- <-] Hn. split; [destruct buf; [done|cbn; lia]|]. cbn. by rewrite Nat2Z.id, firstn_all.
  - intros addr n b r b' Hw Hn. cbn in Hw. destruct (readable (v_vm (b_view b) addr)) eqn:Er.
    + injection Hw as <- <-. split; [lia|]. split; [|done]. intros a Ha. by replace a with addr by lia.
    + by injection Hw as <- <-.
  - intros n b d b' [= <- <-] Hn. eexists. split; [reflexivity|]. rewrite length_take. split; [lia|]. split.
    + intros Ht. apply (f_equal length) in Ht. rewrite length_take in Ht. cbn in Ht.
      destruct (v_rest (b_view b)); [done|cbn in Ht; lia].
    + split; [|done]. destruct (Nat.le_ge_cases (Z.to_nat n) (length (v_rest (b_view b)))).
      * by rewrite Nat.min_l.
      * rewrite Nat.min_r by done. by rewrite !take_ge by lia.
  - done.
  - intros addr n b r b' Hr Hn Hne. cbn in Hr. destruct (v_rest (b_view b)) as [|x l] eqn:El; [done|].
    destruct (writable (v_vm (b_view b) addr)) eqn:Ew.
    + injection Hr as <- <-. split; [lia|]. split; [cbn; lia|]. split; [|done]. intros a Ha. by replace a with addr by lia.
    + by injection Hr as <- <-.
  - by intros b r b' [= <- <-].
  - intros off b r b' Hl Ho. cbn in Hl. rewrite (proj2 (Z.ltb_ge _ _) Ho) in Hl. by injection Hl as <- <-.
  - by intros addr n b o b' [= <- <-].
  - by intros addr n max p b ok b' [= <- <-] _.
  - by intros addr n flags b o b' [= <- <-] _ _.
  - by intros addr n i b ok b' [= <- <-] _.
  - done.
  - done.
Defined.

#[local] Instance small_vm : VmParams := {
  VM_PAGE_SIZE := 4; SHARED_REGION_BASE_ARM64 := 1000; SHARED_REGION_SIZE_ARM64 := 1000;
  XND_RESTART_BASE := 5000; XND_RESTART_END := 6000;
}.

#[local] Instance box_spec : VmSpec box 6 := box_vm_spec eq_refl.

#[export] Instance box_fs : FsSys box := {
  fs_access _ b := (true, b); fs_mkdir _ b := (true, b); fs_open_dir _ b := (5, b); fs_open_rd _ b := (5, b);
  fs_mkdirat _ _ b := (true, b);
  fs_openat_excl _ _ b := (6, on_view (fun v => View (v_vm v) [] 0 (v_disp v) (v_port v)) b);
  fs_openat_rd _ _ b := (6, b); fs_faccessat _ _ b := (true, b); fs_unlinkat _ _ b := (true, b);
  fs_unlinkat_dir _ _ b := (true, b); fs_opendir _ b := (Some [], b); fs_closedir b := b; fs_unlink _ b := (true, b);
}.
#[export] Instance box_uuid : UuidLib := {
  uuid_unparse _ := cs "00000000-0000-0000-0000-000000000000"; uuid_parse _ := Some (replicate 16 0)
}.
#[export] Instance box_zlib : CkptZlib box := { xnd_compress_ckpt _ _ := mret 0 }.

(** ** The process *)
Definition r_stack : xnd_vm_region := VmRegion 100 8 1 2 3 0 30 2 false.
Definition r_tiny : xnd_vm_region := VmRegion 200 12 1 3 7 0 7 1 false.
Definition r_cache : xnd_vm_region := VmRegion 1000 8 1 1 3 0 0 1 false.
Definition the_regions : list xnd_vm_region := [r_stack; r_tiny; r_cache].

Definition the_memory (dirty : Z) : vmap := fun a =>
  if in_range 100 8 a then Some (Cell (a mod 256) 2 3 1 30)
  else if in_range 200 12 a then Some (Cell (if in_range 204 4 a then dirty else 0) 3 7 1 7)
  else if in_range 1000 8 a then Some (Cell (if in_range 1004 4 a then dirty else 9) 1 3 1 0)
  else None.
Definition the_disp (a : Z) : Z := if (a =? 204) || (a =? 1004) then 8 else 1.
Definition the_view (dirty port : Z) (file : list Z) (off : Z) : view :=
  View (the_memory dirty) file off the_disp port.

Definition the_header : xnd_ckpt_header :=
  CkptHeader (magic_bytes ++ [0]) (replicate 16 0) 1000 0 1000 50 1 50 50 259 515 1 1 4 3
    (SharedCacheInfo 1000 1000 (replicate 16 7)).
Definition the_entries : list xnd_ckpt_entry :=
  [XND_VM_REGION_ENTRY; XND_VM_REGION_ENTRY; XND_VM_REGION_ENTRY; XND_UCONTEXT_ENTRY].
Definition the_uctx : list Z := [1; 2; 3; 4; 5].

Definition process (b : box) : pstate box :=
  PState (Pids 3 50 1 1) (Ids 1000 0 1000 (replicate 16 0) 1 1 true) (Client 210 (-1) (-1) false)
    (VTable ∅ false) (Some (Thr ST_CKPT_THREAD 0)) (Lib XND_CKPTINPROG true) 0 (EnvState ∅ (-1)) b.
Definition before : box := Box (the_view 77 259 [1; 2] 2) 0.
Definition created : box := Box (the_view 77 259 [] 0) 0.

Lemma in_range_false addr n a : ~ (addr <= a < addr + n) -> in_range addr n a = false.
Proof. unfold in_range. intros Ha. apply andb_false_iff. rewrite Z.leb_gt, Z.ltb_ge. lia. Qed.

Lemma the_region_ok r : r ∈ the_regions -> region_ok (the_view 77 259 [] 0) r.
Proof.
  intros Hr. repeat (apply elem_of_cons in Hr as [->|Hr]; [|try by apply elem_of_nil in Hr]).
  - split; try done; [vm_compute; lia..|]. intros a Ha. cbn in Ha. exists (Cell (a mod 256) 2 3 1 30).
    split; [|done]. unfold the_view, the_memory. cbn [v_vm]. by rewrite in_range_true by lia.
  - split; try done; [vm_compute; lia..|]. intros a Ha. cbn in Ha.
    exists (Cell (if in_range 204 4 a then 77 else 0) 3 7 1 7). split; [|done]. unfold the_view, the_memory. cbn [v_vm].
    rewrite (in_range_false 100 8 a) by lia.
    by rewrite in_range_true by lia.
  - split; try done; [vm_compute; lia..|]. intros a Ha. cbn in Ha.
    exists (Cell (if in_range 1004 4 a then 77 else 9) 1 3 1 0). split; [|done]. unfold the_view, the_memory. cbn [v_vm].
    rewrite (in_range_false 100 8 a) by lia.
    rewrite (in_range_false 200 12 a) by lia.
    by rewrite in_range_true by lia.
Qed.

Lemma the_regions_ok : regions_ok (the_view 77 259 [] 0) the_regions.
Proof.
  split.
  - apply Forall_forall, the_region_ok.
  - repeat constructor; try done; vm_compute; lia.
  - repeat constructor; vm_compute; done.
  - cbn. repeat (split || apply List.Forall_cons || apply List.Forall_nil); left; vm_compute; done.
Qed.

Lemma the_file_opens : ckptfile_opens 6 the_header (process before) 5 created.
Proof. split; [|done..]. eexists. split; [vm_compute; reflexivity|]. by intros name _. Qed.

Lemma write_ckpt_image_witness :
  returns (write_ckpt the_header the_entries the_regions the_uctx) (process before) (fun ret s' => ret = 0 /\ exists k3,
    s' = put_k (fd_close 6 (fd_close 5 k3)) (process before) /\
    v_file (view_of k3) = header_bytes the_header ++ entries_image (view_of created) the_entries the_regions the_uctx).
Proof.
  apply (write_ckpt_image 6 the_header the_entries the_regions the_uctx (process before) 5 created);
    [exact the_file_opens|reflexivity|done|reflexivity|done|exact (rs_ok _ _ the_regions_ok)|done].
Defined.

Lemma checkpoint_roundtrip_witness :
  returns (write_ckpt the_header the_entries the_regions the_uctx) (process before) (fun ret s' => ret = 0 /\ exists k3,
    g_k s' = fd_close 6 (fd_close 5 k3) /\
    forall kr, v_file (view_of kr) = v_file (view_of k3) -> v_off (view_of kr) = sizeof_header ->
      Forall (fun r => cache_mapped r (v_vm (view_of kr))) the_regions ->
      returns (read_ckpt 5 id 6 the_header) kr (fun o kr' =>
        o = Some (CkptIn (entry_code <$> the_entries) (saved_region (view_of created) <$> the_regions) (Some the_uctx)) /\
        exists k4, kr' = fd_close 6 k4 /\
          same_process (view_of created) (v_port (view_of kr)) the_regions (v_vm (view_of k4)))).
Proof.
  apply (checkpoint_roundtrip 6 the_header the_entries the_regions the_uctx id (process before) 5 created);
    [exact the_file_opens|reflexivity|done|reflexivity|reflexivity|done| |done|exact the_regions_ok].
  unfold the_entries. set_solver.
Defined.

(** Computed: the file of [before] restored in a process whose port is 263 and
    whose shared cache holds 5 where the checkpointed one held 77. *)
Definition restarted : list Z * list (option Z) :=
  match write_ckpt the_header the_entries the_regions the_uctx (process before) with
  | Ret _ s =>
    match read_ckpt 5 id 6 the_header (Box (the_view 5 263 (v_file (b_view (g_k s))) 120) 0) with
    | Ret (Some r) b => (default [] (in_uctx r), (fun a => c_byte <$> v_vm (b_view b) a) <$> [100; 103; 104; 105; 107; 200; 204; 207; 208; 1000; 1004])
    | _ => ([], [])
    end
  | _ => ([], [])
  end.
Example restarted_memory : restarted =
  (the_uctx, Some <$> [100; 103; 7; 1; 0; 0; 77; 77; 0; 9; 77]).
Proof. vm_compute. reflexivity. Qed.

(** A region whose second page has three readable bytes. *)
Definition torn : view :=
  View (fun a => if in_range 100 7 a then Some (Cell 1 3 7 1 0) else None) (replicate 10 0) 10 the_disp 259.
Lemma partial_page_overwrites_witness :
  returns (write_vm_region_all_pages 6 r_stack) (Box torn 0) (fun pages k' => pages = Z.of_nat 1 /\
    v_file (view_of k') = v_file torn ++ range (v_vm torn) 100 (Z.of_nat 1 * 4 + 3) /\
    v_off (view_of k') = v_off torn + Z.of_nat 1 * 4 - 3).
Proof.
  refine (partial_page_overwrites 6 r_stack 1 3 (Box torn 0) _ _ _ _ _ _); try done.
  intros a Ha. cbn [view_of box_spec box_vm_spec b_view torn v_vm]. cbn in Ha. rewrite in_range_true by lia. done.
Defined.

Lemma map_page_aborts_witness :
  match ckpt_vm_map_page r_cache 4 before with
  | Ret e k' => 4 = 0 /\ e = 0
  | Abort k' => 4 <> 0 /\ view_of k' ≡ v_mem (vm_mapped 1004 4 (page_flags r_cache)) (view_of before)
  | _ => False
  end.
Proof. refine (map_page_aborts 6 r_cache 4 before _). reflexivity. Defined.
