(* ===== verification/VmLayout.v ===== *)
(** The walks of the address space: [ckpt_vm_save_regions] visits every region,
    in order and inside submaps too; [ckpt_vm_mark_regions] and
    [ckpt_vm_find_ubc_region] do not get past a submap.

    The address space is a tree of regions and submaps; [LayoutSpec] gives
    [mach_vm_region_recurse]'s documented answer on it. *)

From S2P Require Import Prelude CkptFile VmRegion.
Open Scope Z_scope.

Inductive vm_node : Type :=
  | Leaf (addr size : Z) (info : vm_info)
  | Submap (addr size : Z) (info : vm_info) (children : list vm_node).

Definition node_start (n : vm_node) : Z := match n with Leaf a _ _ | Submap a _ _ _ => a end.
Definition node_end (n : vm_node) : Z := match n with Leaf a s _ | Submap a s _ _ => a + s end.

(** The first region that ends after [addr], looking into submaps [d] deep; its
    address, size, depth and description. *)
Fixpoint find_region (d : nat) (l : list vm_node) (addr : Z) : option (Z * Z * Z * vm_info) :=
  (fix go (l : list vm_node) : option (Z * Z * Z * vm_info) :=
    match l with
    | [] => None
    | n :: l =>
      if node_end n <=? addr then go l else
      match n with
      | Leaf a s i => Some (a, s, 0, i)
      | Submap a s i ch =>
        match d with
        | O => Some (a, s, 0, i)
        | S d =>
          match find_region d ch addr with
          | Some (a, s, dep, i) => Some (a, s, dep + 1, i)
          | None => go l
          end
        end
      end
    end) l.

Lemma find_region_nil d addr : find_region d [] addr = None.
Proof. by destruct d. Qed.
Lemma find_region_cons d n l addr : find_region d (n :: l) addr =
  if node_end n <=? addr then find_region d l addr else
  match n with
  | Leaf a s i => Some (a, s, 0, i)
  | Submap a s i ch =>
    match d with
    | O => Some (a, s, 0, i)
    | S d => match find_region d ch addr with Some (a, s, dep, i) => Some (a, s, dep + 1, i) | None => find_region (S d) l addr end
    end
  end.
Proof. by destruct d. Qed.

Class LayoutSpec (K : Type) `{VmWalk K} (layout : list vm_node) := {
  recurse_spec : forall addr depth k, 0 <= depth ->
    vm_region_recurse addr depth k = find_region (Z.to_nat depth) layout addr
}.

(** The regions of the address space, in order. *)
Fixpoint node_leaves (n : vm_node) : list (Z * Z * vm_info) :=
  match n with Leaf a s i => [(a, s, i)] | Submap _ _ _ ch => List.flat_map node_leaves ch end.
Definition leaves (l : list vm_node) : list (Z * Z * vm_info) := List.flat_map node_leaves l.
Fixpoint node_height (n : vm_node) : nat :=
  match n with Leaf _ _ _ => O | Submap _ _ _ ch => S (list_max (map node_height ch)) end.
Definition height (l : list vm_node) : nat := list_max (map node_height l).

(** Nodes are nonempty, in order, and below 2^64; a submap's regions lie inside
    it. *)
Inductive wf_layout : Z -> Z -> list vm_node -> Prop :=
  | wf_nil lo hi : wf_layout lo hi []
  | wf_leaf lo hi a s i l : is_submap i = false -> lo <= a -> 0 < s -> a + s <= hi ->
      wf_layout (a + s) hi l -> wf_layout lo hi (Leaf a s i :: l)
  | wf_submap lo hi a s i ch l : is_submap i = true -> lo <= a -> 0 < s -> a + s <= hi ->
      wf_layout a (a + s) ch -> wf_layout (a + s) hi l -> wf_layout lo hi (Submap a s i ch :: l).

Definition from (addr : Z) (l : list (Z * Z * vm_info)) : list (Z * Z * vm_info) :=
  List.filter (fun x => addr <=? fst (fst x)) l.

Lemma from_app addr l1 l2 : from addr (l1 ++ l2) = from addr l1 ++ from addr l2.
Proof. apply List.filter_app. Qed.

Lemma wf_leaves_range lo hi l x : wf_layout lo hi l -> x ∈ leaves l ->
  lo <= fst (fst x) /\ 0 < snd (fst x) /\ fst (fst x) + snd (fst x) <= hi /\ is_submap (snd x) = false.
Proof.
  intros Hwf. induction Hwf; intros Hx.
  - by apply elem_of_nil in Hx.
  - unfold leaves in Hx. cbn in Hx. apply elem_of_cons in Hx as [->|Hx]; [cbn; repeat split; try done; lia|].
    destruct (IHHwf Hx) as (? & ? & ? & ?). repeat split; try done; lia.
  - unfold leaves in Hx. cbn in Hx. apply elem_of_app in Hx as [Hx|Hx].
    + destruct (IHHwf1 Hx) as (? & ? & ? & ?). repeat split; try done; lia.
    + destruct (IHHwf2 Hx) as (? & ? & ? & ?). repeat split; try done; lia.
Qed.

Lemma from_all lo hi l addr : wf_layout lo hi l -> addr <= lo -> from addr (leaves l) = leaves l.
Proof.
  intros Hwf Ha. unfold from.
  assert (forall x, x ∈ leaves l -> addr <=? fst (fst x) = true) as Hall.
  { intros x Hx. destruct (wf_leaves_range _ _ _ _ Hwf Hx) as (? & _). apply Z.leb_le. lia. }
  clear Hwf. induction (leaves l) as [|x xs IH]; [done|]. cbn. rewrite Hall by (rewrite elem_of_cons; by left).
  f_equal. apply IH. intros y Hy. apply Hall. rewrite elem_of_cons. by right.
Qed.
Lemma from_none lo hi l addr : wf_layout lo hi l -> hi <= addr -> from addr (leaves l) = [].
Proof.
  intros Hwf Ha. unfold from.
  assert (forall x, x ∈ leaves l -> addr <=? fst (fst x) = false) as Hall.
  { intros x Hx. destruct (wf_leaves_range _ _ _ _ Hwf Hx) as (? & ? & ? & _). apply Z.leb_gt. lia. }
  clear Hwf. induction (leaves l) as [|x xs IH]; [done|]. cbn. rewrite Hall by (rewrite elem_of_cons; by left).
  apply IH. intros y Hy. apply Hall. rewrite elem_of_cons. by right.
Qed.

(** ** Positions of the walk

    [good d addr l]: every submap that [addr] is strictly inside of can be
    entered by a query of depth [d]. *)
Inductive good : nat -> Z -> list vm_node -> Prop :=
  | good_nil d addr : good d addr []
  | good_leaf d addr a s i l : addr <= a \/ a + s <= addr -> good d addr l -> good d addr (Leaf a s i :: l)
  | good_out d addr a s i ch l : addr <= a \/ a + s <= addr -> good d addr l -> good d addr (Submap a s i ch :: l)
  | good_in d addr a s i ch l : a < addr < a + s -> good d addr ch -> good (S d) addr l ->
      good (S d) addr (Submap a s i ch :: l).

Lemma good_before d addr lo hi l : wf_layout lo hi l -> addr <= lo -> good d addr l.
Proof.
  intros Hwf. revert d. induction Hwf; intros d Ha; constructor; try lia.
  - apply IHHwf. lia.
  - apply IHHwf2. lia.
Qed.

(** The answer to a query at a good position: nothing when no region is left;
    a submap, which can be entered without skipping a region; or the next
    region, whose end is a good position. *)
Definition answer_ok (d : nat) (l : list vm_node) (addr lo hi : Z) (o : option (Z * Z * Z * vm_info)) : Prop :=
  match o with
  | None => from addr (leaves l) = []
  | Some (a, s, dep, i) =>
    0 <= dep <= Z.of_nat d /\ addr <= a /\ lo <= a /\ 0 < s /\ a + s <= hi /\
    if is_submap i
    then dep = Z.of_nat d /\ from addr (leaves l) = from a (leaves l) /\ good (S d) a l /\ (d < height l)%nat
    else from addr (leaves l) = (a, s, i) :: from (a + s) (leaves l) /\ good (Z.to_nat dep) (a + s) l
  end.

Lemma leaves_cons n l : leaves (n :: l) = node_leaves n ++ leaves l.
Proof. done. Qed.
Lemma height_cons n l : height (n :: l) = Nat.max (node_height n) (height l).
Proof. done. Qed.

(** A node that ends before the answer of the rest does not matter. *)
Lemma answer_skip d n l addr lo hi o :
  wf_layout lo hi (n :: l) -> from addr (node_leaves n) = [] -> answer_ok d l addr (node_end n) hi o ->
  answer_ok d (n :: l) addr lo hi o.
Proof.
  intros Hwf Hn Ho. unfold answer_ok in *. rewrite !leaves_cons.
  assert (lo <= node_start n /\ node_start n < node_end n /\ forall a, node_end n <= a -> from a (node_leaves n) = [])
    as (Hlo & Hse & Hnone).
  { inversion Hwf; subst; cbn; (split; [lia|]); (split; [lia|]); intros b Hb.
    - unfold from. cbn. by rewrite (proj2 (Z.leb_gt _ _)) by lia.
    - by eapply from_none. }
  destruct o as [[[[a s] dep] i]|].
  - destruct Ho as (H1 & H2 & H3 & H4 & H5 & H6). split; [done|]. split; [done|]. split; [lia|]. split; [done|].
    split; [done|]. rewrite !from_app, Hn.
    assert (forall d' b, node_end n <= b -> good d' b l -> good d' b (n :: l)) as Hg.
    { intros d' b Hb Hgl. destruct n; cbn in Hb; constructor; try done; lia. }
    destruct (is_submap i).
    + destruct H6 as (-> & E & G & Hh). rewrite Hnone by done. split; [done|]. split; [done|].
      split; [by apply Hg|]. rewrite height_cons. lia.
    + destruct H6 as (E & G). rewrite (Hnone (a + s)) by lia. split; [done|]. apply Hg; [lia|done].
  - by rewrite from_app, Hn, Ho.
Qed.

Lemma find_region_answer d l addr lo hi :
  wf_layout lo hi l -> good d addr l -> answer_ok d l addr lo hi (find_region d l addr).
Proof.
  intros Hwf. revert d. induction Hwf as [lo hi|lo hi a s i l Hi Hlo Hs Hhi Hwf IH|lo hi a s i ch l Hi Hlo Hs Hhi Hc IHc Hwf IH];
    intros d Hg.
  - by rewrite find_region_nil.
  - rewrite find_region_cons. cbn [node_end]. inversion Hg as [|? ? ? ? ? ? Ho Hgl| |]; subst.
    assert (wf_layout lo hi (Leaf a s i :: l)) as Hwf' by by constructor.
    destruct (Z.leb_spec (a + s) addr).
    + apply answer_skip; [done| |by apply IH]. unfold from. cbn. by rewrite (proj2 (Z.leb_gt _ _)) by lia.
    + cbv beta iota delta [answer_ok]. rewrite Hi. split; [lia|]. split; [lia|]. split; [done|]. split; [done|]. split; [done|].
      rewrite leaves_cons, !from_app. unfold from at 1 3. cbn. rewrite (proj2 (Z.leb_le addr a)) by lia.
      rewrite (proj2 (Z.leb_gt _ _)) by lia. cbn. rewrite !(from_all (a + s) hi) by (done || lia). split; [done|].
      constructor; [lia|]. by eapply good_before.
  - rewrite find_region_cons. cbn [node_end].
    assert (wf_layout lo hi (Submap a s i ch :: l)) as Hwf' by by constructor.
    assert (good d addr l) as Hgl by by inversion Hg.
    destruct (Z.leb_spec (a + s) addr) as [Hle|Hgt].
    { apply answer_skip; [done| |by apply IH]. by apply (from_none a (a + s)). }
    destruct d as [|d].
    + assert (addr <= a) as Ha by (inversion Hg; lia).
      cbv beta iota delta [answer_ok]. rewrite Hi. split; [lia|]. split; [done|]. split; [done|].
      split; [done|]. split; [done|]. split; [done|]. rewrite leaves_cons, !from_app. cbn [node_leaves].
      fold (leaves ch). rewrite !(from_all a (a + s) ch), !(from_all (a + s) hi l) by (done || lia).
      split; [done|]. split; [constructor; [lia|eapply good_before; [exact Hwf|lia]]|]. rewrite height_cons. cbn [node_height]. lia.
    + assert (good d addr ch) as Hgc.
      { inversion Hg; subst; [|done]. eapply good_before; [done|lia]. }
      specialize (IHc d Hgc). destruct (find_region d ch addr) as [[[[a' s'] dep] i']|] eqn:E.
      2:{ apply answer_skip; [done|exact IHc|by apply IH]. }
      destruct IHc as (H1 & H2 & H3 & H4 & H5 & H6).
      assert (forall d' b, a <= b -> b <= a + s -> good d' b ch -> good (S d') b (Submap a s i ch :: l)) as Hin.
      { intros d' b Hb1 Hb2 Hgb. destruct (decide (b = a)) as [->|]; [constructor; [lia|eapply good_before; [exact Hwf|lia]]|].
        destruct (decide (b = a + s)) as [->|]; [constructor; [lia|eapply good_before; [exact Hwf|lia]]|].
        apply good_in; [lia|done|]. eapply good_before; [exact Hwf|lia]. }
      cbv beta iota delta [answer_ok]. split; [lia|]. split; [done|]. split; [lia|]. split; [done|]. split; [lia|].
      rewrite leaves_cons, !from_app. cbn [node_leaves]. fold (leaves ch).
      rewrite !(from_all (a + s) hi l) by (done || lia). destruct (is_submap i').
      * destruct H6 as (-> & E1 & G & Hh). split; [lia|]. rewrite E1. split; [done|].
        split; [apply Hin; [lia|lia|done]|]. rewrite height_cons. cbn [node_height]. fold (height ch). lia.
      * destruct H6 as (E1 & G). rewrite E1. split; [done|]. rewrite Z2Nat.inj_add by lia.
        replace (Z.to_nat dep + Z.to_nat 1)%nat with (S (Z.to_nat dep)) by lia. apply Hin; [lia|lia|done].
Qed.

(** ** The walks *)
Section walks.
Context `{!VmParams} {K : Type} `{!VmWalk K, !VmMem K} (layout : list vm_node) `{!LayoutSpec K layout}.
Implicit Types k : K.

Definition region_valid (x : Z * Z * vm_info) : bool :=
  match ckpt_vm_valid_region (snd x) (fst (fst x)) (snd (fst x)) tt with Ret b _ => b | _ => false end.
(** The assertion of [ckpt_vm_valid_region] holds: dirty dyld memory is
    writable. *)
Definition dyld_writable (x : Z * Z * vm_info) : Prop :=
  user_tag (snd x) = VM_MEMORY_DYLD \/ user_tag (snd x) = VM_MEMORY_DYLD_MALLOC ->
  Z.land (max_protection (snd x)) VM_PROT_WRITE <> 0.

Lemma valid_region_ret x k : dyld_writable x ->
  ckpt_vm_valid_region (snd x) (fst (fst x)) (snd (fst x)) k = Ret (region_valid x) k.
Proof.
  intros Hd. unfold region_valid, ckpt_vm_valid_region.
  destruct (PAGEZERO _ _ || _ || _); [done|]. destruct (DYLD_SHARED_CACHE_REGION _ _); [done|]. cbv zeta.
  destruct (_ || (user_tag (snd x) =? VM_MEMORY_STACK)); [done|].
  destruct ((user_tag (snd x) =? VM_MEMORY_DYLD) || (user_tag (snd x) =? VM_MEMORY_DYLD_MALLOC)) eqn:Et.
  - destruct (negb (pages_resident (snd x) =? 0) && _); [|done].
    apply orb_true_iff in Et. rewrite !Z.eqb_eq in Et. specialize (Hd Et).
    by rewrite (proj2 (Z.eqb_neq _ _) Hd).
  - destruct (_ || (user_tag (snd x) =? VM_MEMORY_UNSHARED_PMAP)); [done|].
    destruct (_ || (user_tag (snd x) =? VM_MEMORY_OS_ALLOC_ONCE)); [done|].
    by destruct (user_tag (snd x) =? VM_KERN_MEMORY_UBC).
Qed.

Definition region_at (x : Z * Z * vm_info) (old : bool) : xnd_vm_region :=
  region_of (snd x) (fst (fst x)) (snd (fst x)) old.

Lemma from_head addr l x xs : from addr l = x :: xs -> x ∈ l.
Proof.
  intros Hf. assert (x ∈ from addr l) as Hx by (rewrite Hf, elem_of_cons; by left).
  apply list_elem_of_In, List.filter_In in Hx as [Hx _]. by apply list_elem_of_In.
Qed.

Lemma save_regions_loop_ok hi fuel buf addr depth acc k :
  wf_layout 0 hi layout -> hi < 2 ^ 64 -> Forall dyld_writable (leaves layout) ->
  good (Z.to_nat depth) addr layout -> 0 <= depth <= Z.of_nat (height layout) ->
  (length (from addr (leaves layout)) * S (height layout) + height layout < fuel + Z.to_nat depth)%nat ->
  let vs := List.filter region_valid (from addr (leaves layout)) in
  save_regions_loop fuel buf addr depth acc k =
    if (length vs =? 0)%nat || (length acc + length vs <=? length buf)%nat
    then Ret (acc ++ zip_with region_at vs (drop (length acc) buf)) k else Ub.
Proof.
  intros Hwf Hhi Hdw. revert addr depth acc.
  induction fuel as [|fuel IH]; intros addr depth acc Hg Hd Hf vs; [lia|].
  cbn [save_regions_loop]. rewrite (bind_ret get _ k k k eq_refl). rewrite recurse_spec by lia.
  pose proof (find_region_answer _ _ _ _ _ Hwf Hg) as Ha.
  destruct (find_region (Z.to_nat depth) layout addr) as [[[[a s] dep] i]|].
  2:{ cbn in Ha. subst vs. rewrite Ha. cbn. by rewrite app_nil_r. }
  cbn in Ha. destruct Ha as (H1 & H2 & H3 & H4 & H5 & H6). destruct (is_submap i) eqn:Ei.
  - destruct H6 as (-> & E & G & Hh). subst vs. rewrite E.
    apply IH; [by rewrite Z2Nat.inj_add, Nat2Z.id, Nat.add_comm by lia|lia|]. rewrite <- E.
    rewrite Z2Nat.inj_add by lia. lia.
  - destruct H6 as (E & G). pose proof (from_head _ _ _ _ E) as Hx. rewrite Forall_forall in Hdw. specialize (Hdw _ Hx).
    pose proof (valid_region_ret _ k Hdw) as Hv. cbn [fst snd] in Hv. rewrite (bind_ret _ _ _ _ _ Hv).
    subst vs. rewrite E in Hf |- *. cbn [length] in Hf. cbn [List.filter].
    assert (u64 (a + s) = a + s) as -> by (apply wrapu_small; unfold in_u; lia).
    assert (0 <= dep <= Z.of_nat (height layout)) as Hdep by lia.
    assert (length (from (a + s) (leaves layout)) * S (height layout) + height layout < fuel + Z.to_nat dep)%nat as Hf' by lia.
    destruct (region_valid (a, s, i)); cbn [negb].
    + destruct (buf !! length acc) as [old|] eqn:Eb.
      * cbn [deref]. rewrite (bind_ret (mret old) _ k old k eq_refl). rewrite IH by done.
        rewrite length_app. cbn [length]. apply lookup_lt_Some in Eb as Hlt.
        rewrite (drop_S _ _ _ Eb). cbn [zip_with].
        assert (S (length acc) = (length acc + 1)%nat) as -> by lia.
        rewrite <- app_assoc. cbn [app].
        replace (length acc + 1 + length (List.filter region_valid (from (a + s) (leaves layout))))%nat
          with (length acc + S (length (List.filter region_valid (from (a + s) (leaves layout)))))%nat by lia.
        set (m := length (List.filter region_valid (from (a + s) (leaves layout)))).
        destruct (Nat.eqb_spec m 0) as [Hm|Hm]; [|done]. cbn [orb].
        by rewrite (proj2 (Nat.leb_le (length acc + S m) (length buf))) by lia.
      * cbn [deref]. apply lookup_ge_None in Eb. cbn [length]. rewrite (proj2 (Nat.leb_gt _ _)) by lia. done.
    + by rewrite IH.
Qed.

Lemma ckpt_vm_save_regions_eq (hi : Z) (buf : list bool) (k : K) :
  wf_layout 0 hi layout -> hi < 2 ^ 64 -> Forall dyld_writable (leaves layout) ->
  let vs := List.filter region_valid (leaves layout) in
  let fuel := (S (length (leaves layout)) * S (height layout))%nat in
  ckpt_vm_save_regions fuel buf k =
    if (length vs <=? length buf)%nat then Ret (zip_with region_at vs buf) k else Ub.
Proof.
  intros Hwf Hhi Hdw vs fuel. unfold ckpt_vm_save_regions.
  rewrite (save_regions_loop_ok hi) by (first [done|lia|by eapply good_before; [exact Hwf|lia]|
    rewrite (from_all 0 hi) by (done || lia); unfold fuel; cbn; lia]).
  rewrite (from_all 0 hi) by (done || lia). fold vs. rewrite drop_0. cbn [length Nat.add app].
  destruct (Nat.eqb_spec (length vs) 0) as [E|]; [|done]. by rewrite E.
Qed.

(** C35. [ckpt_vm_save_regions] saves the whole address space: it returns within
    a fixed number of queries, and the array holds, in address order, exactly
    the regions [ckpt_vm_valid_region] accepts, those inside submaps included,
    each as the kernel describes it.  With more of them than the array has
    room for it writes past the array's end. *)
Theorem save_regions_complete (hi : Z) (buf : list bool) (k : K) :
  wf_layout 0 hi layout -> hi < 2 ^ 64 -> Forall dyld_writable (leaves layout) ->
  let vs := List.filter region_valid (leaves layout) in
  let fuel := (S (length (leaves layout)) * S (height layout))%nat in
  ckpt_vm_save_regions fuel buf k =
    if (length vs <=? length buf)%nat then Ret (zip_with region_at vs buf) k else Ub.
Proof. apply ckpt_vm_save_regions_eq. Qed.

(** The first submap at the top level. *)
Lemma find_before_submap pre lo hi a s i ch post addr :
  wf_layout lo hi (((fun x => Leaf (fst (fst x)) (snd (fst x)) (snd x)) <$> pre) ++ Submap a s i ch :: post) ->
  addr <= a -> exists a' s' i',
  find_region 0 (((fun x => Leaf (fst (fst x)) (snd (fst x)) (snd x)) <$> pre) ++ Submap a s i ch :: post) addr =
    Some (a', s', 0, i') /\ lo <= a' /\ 0 < s' /\
    ((is_submap i' = false /\ a' + s' <= a) \/ (is_submap i' = true /\ a' = a)) /\ a + s <= hi /\ 0 < s.
Proof.
  revert lo. induction pre as [|[[a1 s1] i1] pre IH]; intros lo Hwf Ha; cbn [fmap list_fmap app fst snd] in *;
    rewrite find_region_cons; cbn [node_end].
  - inversion Hwf; subst. rewrite (proj2 (Z.leb_gt _ _)) by lia. exists a, s, i. split; [done|]. split; [done|].
    split; [done|]. split; [by right|]. done.
  - inversion Hwf as [|? ? ? ? ? ? Hi1 Hlo1 Hs1 Hhi1 Hwf1|]; subst.
    destruct (IH _ Hwf1 Ha) as (a' & s' & i' & E & H1 & H2 & H3 & H4).
    destruct (Z.leb_spec (a1 + s1) addr).
    + exists a', s', i'. split; [done|]. split; [lia|]. done.
    + exists a1, s1, i1. split; [done|]. split; [done|]. split; [done|]. split; [|done]. left. split; [done|].
      clear -Hwf1. revert Hwf1. generalize (a1 + s1) as lo. induction pre as [|[[a2 s2] i2] pre IH]; intros lo Hwf;
        cbn [fmap list_fmap app fst snd] in Hwf; inversion Hwf; subst; [done|].
      pose proof (IH _ ltac:(eassumption)). lia.
Qed.

(** C40. [ckpt_vm_mark_regions] never ends in an address space with a submap at
    its top level: the walk answers a submap with [continue], and asks again at
    the same address and depth. *)
Theorem mark_regions_diverges (pre : list (Z * Z * vm_info)) (a s hi : Z) (i : vm_info) (ch post : list vm_node)
    (fuel : nat) (k : K) :
  layout = ((fun x => Leaf (fst (fst x)) (snd (fst x)) (snd x)) <$> pre) ++ Submap a s i ch :: post ->
  wf_layout 0 hi layout -> hi < 2 ^ 64 ->
  (forall addr size k, exists k', ckpt_vm_mark addr size k = Ret 0 k') ->
  ckpt_vm_mark_regions fuel k = NoFuel.
Proof.
  intros Hl Hwf Hhi Hmark. unfold ckpt_vm_mark_regions. assert (0 <= a) as Ha0.
  { rewrite Hl in Hwf. destruct (find_before_submap pre 0 hi a s i ch post a Hwf ltac:(lia)) as
      (a' & s' & i' & _ & H1 & H2 & [[_ H3]|[_ ->]] & _); lia. }
  assert (forall fuel k addr, addr <= a -> mark_regions_loop fuel addr 0 k = NoFuel) as Hloop; [|by apply Hloop].
  clear fuel k. induction fuel as [|fuel IH]; intros k addr Ha; [done|]. cbn [mark_regions_loop].
  rewrite (bind_ret get _ k k k eq_refl). rewrite recurse_spec by done.
  pose proof Hwf as Hwf'. rewrite Hl in Hwf'.
  destruct (find_before_submap pre 0 hi a s i ch post addr Hwf' Ha) as (a' & s' & i' & E & H1 & H2 & H3 & H4).
  rewrite Hl. change (Z.to_nat 0) with 0%nat. rewrite E. destruct H3 as [[Hi Hle]|[Hi ->]]; rewrite Hi; [|by apply IH].
  assert (u64 (a' + s') = a' + s') as -> by (apply wrapu_small; unfold in_u; lia).
  destruct (_ || _); [by apply IH|]. destruct (Hmark a' s' k) as [k' Hk]. rewrite (bind_ret _ _ _ _ _ Hk).
  by apply IH.
Qed.
End walks.

(** ** A concrete address space *)
#[local] Instance arm64_vm : VmParams := {
  VM_PAGE_SIZE := 16384; SHARED_REGION_BASE_ARM64 := 6442450944; SHARED_REGION_SIZE_ARM64 := 4294967296;
  XND_RESTART_BASE := 87960930222080; XND_RESTART_END := 87960932974592;
}.
Definition leaf_info (tag dirtied : Z) : vm_info := VmInfo false 1 3 7 0 2 tag 1 dirtied.
Definition cache_info : vm_info := VmInfo true 1 1 1 0 2 0 0 0.
Definition the_layout : list vm_node :=
  [ Leaf 4294967296 65536 (leaf_info 0 1); Leaf 4295032832 16384 (VmInfo false 1 0 0 0 2 0 0 0);
    Submap 6442450944 4294967296 cache_info
      [Leaf 6442450944 16384 (leaf_info 0 0); Leaf 6442467328 32768 (leaf_info 0 2)];
    Leaf 105553116266496 131072 (leaf_info VM_MEMORY_MALLOC_NANO 1); Leaf 105553116397568 16384 (leaf_info VM_MEMORY_GUARD 0) ].

#[local] Instance walk_unit : VmWalk unit := {
  vm_region_recurse addr depth _ := find_region (Z.to_nat depth) the_layout addr;
  vm_set_behavior _ _ _ k := (true, k);
}.
#[local] Instance mem_unit : VmMem unit := {
  vm_protect _ _ _ _ k := (true, k); vm_set_inherit _ _ _ k := (true, k); vm_map a _ _ k := (Some a, k);
  vm_page_range_query _ _ k := (None, k); mem_write _ _ n k := (n, k); mem_read _ _ _ k := (0, k); k_errno _ := 0;
  lseek_cur _ k := (0, k); lseek_set _ o k := (o, k); mach_task_self_ptr := 0; task_self_trap _ := 0; mem_store _ _ k := k;
}.
#[local] Instance layout_unit : LayoutSpec unit the_layout.
Proof. by constructor. Qed.

Lemma the_layout_wf : wf_layout 0 140737488355328 the_layout.
Proof. repeat (constructor; try done). Qed.

Lemma save_regions_complete_witness :
  ckpt_vm_save_regions 18 (replicate 1023 false) tt =
    Ret [VmRegion 4294967296 65536 1 3 7 2 0 1 false; VmRegion 6442467328 32768 1 3 7 2 0 2 false;
         VmRegion 105553116266496 131072 1 3 7 2 11 1 false] tt.
Proof.
  pose proof (save_regions_complete the_layout 140737488355328 (replicate 1023 false) tt the_layout_wf) as Hsave.
  refine (eq_trans (Hsave _ _) _).
  - vm_compute. reflexivity.
  - repeat (apply List.Forall_cons || apply List.Forall_nil);
      intros [E|E]; vm_compute in E; discriminate.
  - vm_compute. reflexivity.
Defined.

Lemma mark_regions_diverges_witness : ckpt_vm_mark_regions 1000 tt = NoFuel.
Proof.
  apply (mark_regions_diverges the_layout
    [(4294967296, 65536, leaf_info 0 1); (4295032832, 16384, VmInfo false 1 0 0 0 2 0 0 0)]
    6442450944 4294967296 140737488355328 cache_info
    [Leaf 6442450944 16384 (leaf_info 0 0); Leaf 6442467328 32768 (leaf_info 0 2)]
    [Leaf 105553116266496 131072 (leaf_info VM_MEMORY_MALLOC_NANO 1); Leaf 105553116397568 16384 (leaf_info VM_MEMORY_GUARD 0)]
    1000%nat tt).
  - reflexivity.
  - exact the_layout_wf.
  - reflexivity.
  - intros addr size []. exists tt. reflexivity.
Defined.
