(* ===== verification/CkptStore.v ===== *)
(** Checkpoint names and the manifest: theorems on [xnd/ckptfile.c], and the
    coordinator's checkpoint directory as this file implements it. *)

From S2P Require Import Prelude Cstr Path Bytes Io Process PidTable Coord CkptFile.
Import Stdlib.Strings.Ascii.
Open Scope Z_scope.

(** ** Names *)
Section names.
Context `{!UuidLib} (unparse_len : forall u, length (uuid_unparse u) = 36%nat).

Lemma scan_lit_head c d lit s : c <> d -> scan_lit (c :: lit) (d :: s) = None.
Proof. intros Hcd. unfold scan_lit. rewrite decide_False; [done|]. cbn. congruence. Qed.

(** [xnd_ckptfile_parse] parses no checkpoint path: it skips one character
    more than the directory's suffix, [sizeof] counting the terminating NUL,
    so what it scans begins after the "e" of "epoch-". *)
Theorem ckptfile_parse_fails (uuid : list Z) (epoch xnd_pid : Z) (use_zlib : bool) :
  xnd_ckptfile_parse (xnd_ckptpath_name uuid epoch xnd_pid use_zlib) = None.
Proof.
  unfold xnd_ckptfile_parse. destruct (uuid_parse _); [|done].
  assert (exists s, drop (Z.to_nat (36 + sizeof_checkpoints_slash)) (xnd_ckptpath_name uuid epoch xnd_pid use_zlib) =
    "p"%char :: s) as [s ->].
  2:{ unfold scan_ckptpath. change (cs "epoch-") with ("e"%char :: cs "poch-"). by rewrite scan_lit_head. }
  unfold xnd_ckptpath_name. set (path := uuid_unparse uuid ++ _).
  assert (exists t, snprintf XND_CKPTPATH_MAXLEN path = (uuid_unparse uuid ++ cs "-checkpoints/e") ++ "p"%char :: t) as [t ->].
  { exists (take 52 (cs "och-" ++ show_u epoch ++ cs "/ckpt-" ++ show_u xnd_pid ++ cs ".xnd")).
    unfold snprintf, path. change (Z.to_nat (XND_CKPTPATH_MAXLEN - 1)) with (36 + 67)%nat.
    rewrite take_app_ge by (rewrite unparse_len; lia). rewrite unparse_len.
    change (36 + 67 - 36)%nat with (14 + (1 + 52))%nat. rewrite <- app_assoc. f_equal. }
  assert (length (uuid_unparse uuid ++ cs "-checkpoints/e") = 50%nat) as Hl by by rewrite length_app, unparse_len.
  change (Z.to_nat (36 + sizeof_checkpoints_slash)) with 50%nat.
  destruct use_zlib.
  - rewrite <- app_assoc, drop_app_length' by done. by eexists.
  - rewrite drop_app_length' by done. by eexists.
Qed.
End names.

(** ** The manifest *)
Section manifest.
Context {K : Type} `{!IoSys K, !FdSys K, !FsSys K, !UuidLib}.
Context (stack_manifest : list Z) (stack_len : length stack_manifest = 256%nat)
  (stack_u32 : Forall (in_u 32) stack_manifest).

(** A process has a checkpoint, compressed or not, in a directory with [has]. *)
Definition has_ckpt (has : cstr -> bool) (id : Z) : bool :=
  has (ckptfile_buf id) || has (snprintf XND_CKPTFILE_MAXLEN (compressed_fmt id)).
Definition present_ids (has : cstr -> bool) (lo hi : Z) : list Z :=
  List.filter (has_ckpt has) (seqZ lo (hi - lo + 1)).

Lemma words_le (l : list Z) rest : Forall (in_u 32) l ->
  words (length l) (concat (le_bytes 4 <$> l) ++ rest) = l.
Proof.
  induction 1 as [|x l Hx _ IH]; [done|]. cbn [length words fmap list_fmap concat]. rewrite <- app_assoc.
  rewrite field_u_le by exact Hx. f_equal. exact IH.
Qed.

Lemma manifest_bytes_length n l : length l = 256%nat -> Z.of_nat (length (manifest_bytes n l)) = sizeof_manifest.
Proof.
  intros Hl. unfold manifest_bytes. rewrite length_app, le_bytes_length.
  assert (length (concat (le_bytes 4 <$> l)) = (4 * length l)%nat) as ->.
  { clear Hl. induction l as [|x l IH]; [done|]. cbn [fmap list_fmap concat length].
    rewrite length_app, le_bytes_length, IH. lia. }
  rewrite Hl. done.
Qed.

Lemma manifest_roundtrip n l : in_u 32 n -> length l = 256%nat -> Forall (in_u 32) l ->
  manifest_of_bytes (manifest_bytes n l) = (n, l).
Proof.
  intros Hn Hl Hf. unfold manifest_of_bytes, manifest_bytes. rewrite field_u_le by done. f_equal.
  rewrite <- (app_nil_r (concat _)), <- Hl. by apply words_le.
Qed.

Context (dirfd fd : Z) (has : cstr -> bool).
(** [faccessat] looks names up in the directory and changes nothing. *)
Hypothesis faccess : forall name (k : K), fs_faccessat dirfd name k = (has name, k).

Lemma manifest_loop_ok fuel id hi ids (k : K) :
  0 <= id -> hi < 2 ^ 32 - 1 -> (Z.to_nat (hi - id + 1) < fuel)%nat ->
  (length ids + length (present_ids has id hi) <= 256)%nat ->
  manifest_loop fuel dirfd id hi ids k = Ret (ids ++ present_ids has id hi) k.
Proof.
  revert id ids. induction fuel as [|fuel IH]; intros id ids H0 Hhi Hf Hl; [lia|]. cbn [manifest_loop].
  destruct (Z.ltb_spec hi id).
  { unfold present_ids. rewrite seqZ_nil by lia. cbn. by rewrite app_nil_r. }
  assert (present_ids has id hi = (if has_ckpt has id then [id] else []) ++ present_ids has (id + 1) hi) as Hp.
  { unfold present_ids. rewrite seqZ_cons by lia. cbn [List.filter].
    replace (Z.pred (hi - id + 1)) with (hi - (id + 1) + 1) by lia. change (Z.succ id) with (id + 1).
    by destruct (has_ckpt has id). }
  assert (u32 (id + 1) = id + 1) as Hu by (apply wrapu_small; unfold in_u; lia).
  rewrite (bind_ret _ _ _ (has (ckptfile_buf id)) k) by (unfold xnd_ckptfile_exists, fcall; by rewrite faccess).
  rewrite (bind_ret _ _ _ (has_ckpt has id) k).
  2:{ unfold has_ckpt. destruct (has (ckptfile_buf id)); [done|].
      unfold xnd_compressed_ckpt_exists, fcall. by rewrite faccess. }
  rewrite Hp in Hl |- *. rewrite Hu. destruct (has_ckpt has id).
  - rewrite length_app in Hl. cbn [length] in Hl. unfold XND_MANIFEST_ENTRY_MAX. rewrite (proj2 (Z.ltb_lt _ _)) by lia.
    rewrite IH; [by rewrite <- app_assoc|lia|done|lia|rewrite length_app; cbn; lia].
  - cbn [app] in Hl |- *. apply IH; [lia|done|lia|done].
Qed.

Lemma close_unless_ok f (k : K) : 0 <= f -> close_unless f k = Ret tt (fd_close f k).
Proof. intros Hf. unfold close_unless. by rewrite (proj2 (Z.eqb_neq f (-1))) by lia. Qed.

(** The manifest lists exactly the processes whose checkpoint, compressed or
    not, is in the epoch's directory: when their number is the expected one,
    the file written reads back as that number and their ids in order; when it
    is not, [xnd_ckptfile_write_manifest] fails. *)
Theorem manifest_complete (content : K -> list Z) `{!Sink K fd content} (total lo hi : Z) (uuid : list Z) (epoch : Z)
    (k k1 k2 : K) :
  let ids := present_ids has lo hi in
  0 <= lo -> hi < 2 ^ 32 - 1 -> (length ids <= 256)%nat ->
  xnd_ckptdir_open uuid epoch k = Ret dirfd k1 -> 0 <= dirfd ->
  xnd_ckptfile_create_manifest dirfd k1 = Ret fd k2 -> 0 <= fd -> content k2 = [] ->
  returns (xnd_ckptfile_write_manifest stack_manifest total lo hi uuid epoch) k (fun ret k' =>
    (ret = 0 -> total = Z.of_nat (length ids) /\ exists k3 rest, k' = fd_close fd (fd_close dirfd k3) /\
       manifest_of_bytes (content k3) = (total, ids ++ rest)) /\
    (ret <> 0 -> ret = -1) /\ (total <> Z.of_nat (length ids) -> ret = -1)).
Proof.
  intros ids H0 Hhi Hlen Hd Hdn Hc Hfn Hempty. unfold xnd_ckptfile_write_manifest.
  eapply returns_step; [exact Hd|]. rewrite (proj2 (Z.ltb_ge _ _) Hdn).
  eapply returns_step; [exact Hc|]. rewrite (proj2 (Z.ltb_ge _ _) Hfn).
  assert (ids = present_ids has lo hi) as Eids by done.
  eapply returns_step; [apply manifest_loop_ok; [done|done|lia|exact Hlen]|]. cbn [app]. rewrite <- Eids.
  destruct (Z.eqb_spec (Z.of_nat (length ids)) total) as [Et|Et]; cbn [negb].
  2:{ eapply returns_step; [by apply close_unless_ok|]. eapply returns_step; [by apply close_unless_ok|].
      apply returns_ret. split; [done|]. by split. }
  apply returns_bind. eapply returns_weaken; [apply (writeall_loop_spec fd content); lia|].
  intros n k3 [Hn Hct]. rewrite Hempty, Z.sub_0_r in Hct. change (Z.to_nat 0) with 0%nat in Hct.
  rewrite drop_0 in Hct. cbn [app] in Hct.
  assert (length (ids ++ drop (length ids) stack_manifest) = 256%nat) as Hl by (rewrite length_app, length_drop; lia).
  rewrite manifest_bytes_length in Hn by done.
  destruct (Z.eqb_spec n sizeof_manifest) as [->|Hne]; cbn [negb].
  - eapply returns_step; [reflexivity|]. eapply returns_step; [reflexivity|]. apply returns_ret.
    split; [|by split; [|lia]]. intros _. split; [done|]. exists k3, (drop (length ids) stack_manifest). split; [done|].
    rewrite Hct, take_ge by (pose proof (manifest_bytes_length (Z.of_nat (length ids)) _ Hl); lia).
    rewrite <- Et. apply manifest_roundtrip; [unfold in_u; lia|done|].
    apply Forall_app. split; [|by apply Forall_drop].
    apply Forall_forall. intros x Hx. unfold ids, present_ids in Hx. apply list_elem_of_In, List.filter_In in Hx as [Hx _].
    apply list_elem_of_In, elem_of_seqZ in Hx. unfold in_u. lia.
  - eapply returns_step; [by apply close_unless_ok|]. eapply returns_step; [by apply close_unless_ok|].
    apply returns_ret. split; [done|]. by split.
Qed.
End manifest.

(** ** The header *)
Record header_fields (h : xnd_ckpt_header) : Prop := {
  hf_magic : length (h_magic h) = 16%nat;
  hf_uuid : length (h_xnd_uuid h) = 16%nat;
  hf_sc_uuid : length (sc_uuid (h_shared_cache_info h)) = 16%nat;
  hf_u32 : Forall (in_u 32) [h_xnd_pid h; h_xnd_ppid h; h_xnd_pgid h; h_task_self h; h_host_self h; h_num_peers h;
                             h_is_root_of_tree h; h_entry_count h; h_region_count h];
  hf_pids : Forall (in_s 32) [h_pid h; h_ppid h; h_pgid h; h_sid h];
  hf_u64 : Forall (in_u 64) [sc_base (h_shared_cache_info h); sc_size (h_shared_cache_info h)]
}.

(** The restarting process reads the header the checkpoint wrote: every field
    of [struct xnd_ckpt_header], the shared cache's included, survives its 120
    bytes. *)
Theorem header_roundtrip (h : xnd_ckpt_header) : header_fields h -> header_of_bytes (header_bytes h) = h.
Proof.
  intros [Hm Hu Hs H32 Hp H64].
  assert (2 ^ (8 * Z.of_nat 4) = 2 ^ 32) as E4 by done. assert (2 ^ (8 * Z.of_nat 8) = 2 ^ 64) as E8 by done.
  repeat match goal with Hf : Forall _ (_ :: _) |- _ => apply Forall_cons in Hf as [? Hf] end.
  unfold header_of_bytes, header_bytes. cbv zeta.
  rewrite (take_app_length' (h_magic h)), (drop_app_length' (h_magic h)) by done.
  rewrite (take_app_length' (h_xnd_uuid h)), (drop_app_length' (h_xnd_uuid h)) by done.
  rewrite !(field_u_le 4) by done.
  do 4 (rewrite (field_s_le 4) by (done || lia)). rewrite !(field_u_le 4) by done.
  rewrite (drop_app_length' (replicate 4 0)) by done. rewrite !(field_u_le 8) by done.
  rewrite take_ge by lia. by destruct h as [? ? ? ? ? ? ? ? ? ? ? ? ? ? ? []].
Qed.

(** The checkpoint directory the coordinator uses, as [ckptfile.c] implements
    it. *)
#[export] Instance ckptfile_ckptdir {K : Type} `{IoSys K, FdSys K, FsSys K, UuidLib} (stack_manifest : list Z) :
    CkptDir K := {
  Coord.xnd_ckptdir_create := CkptFile.xnd_ckptdir_create;
  Coord.xnd_ckptdir_unlink := CkptFile.xnd_ckptdir_unlink;
  Coord.xnd_ckptfile_write_manifest := CkptFile.xnd_ckptfile_write_manifest stack_manifest;
}.

(** ** Witnesses: a directory with the images of 1000 and 1003, the latter
    compressed. *)
Definition listed (name : cstr) : bool := bool_decide (name = cs "ckpt-1000.xnd" \/ name = cs "ckpt-1003.xnd.gz").
#[local] Instance dir_fd : FdSys file := { fd_getfl _ k := (0, k); fd_dup2 _ new k := (new, k); fd_close _ k := k }.
#[local] Instance dir_fs : FsSys file := {
  fs_access _ b := (true, b); fs_mkdir _ b := (true, b); fs_open_dir _ b := (5, b); fs_open_rd _ b := (6, b);
  fs_mkdirat _ _ b := (true, b); fs_openat_excl _ _ b := (6, b); fs_openat_rd _ _ b := (6, b);
  fs_faccessat _ name b := (listed name, b); fs_unlinkat _ _ b := (true, b);
  fs_unlinkat_dir _ _ b := (true, b); fs_opendir _ b := (Some [], b); fs_closedir b := b; fs_unlink _ b := (true, b);
}.
#[local] Instance dir_uuid : UuidLib := {
  uuid_unparse _ := cs "00000000-0000-0000-0000-000000000000"; uuid_parse _ := Some (replicate 16 0)
}.

Lemma ckptfile_parse_fails_witness :
  xnd_ckptfile_parse (xnd_ckptpath_name (replicate 16 0) 3 1000 false) = None.
Proof. apply ckptfile_parse_fails. intros u. reflexivity. Defined.

Lemma manifest_complete_witness :
  let k := File [] [] 2000 500 in
  returns (xnd_ckptfile_write_manifest (replicate 256 0) 2 1000 1004 (replicate 16 0) 3) k (fun ret k' =>
    (ret = 0 -> 2 = Z.of_nat 2 /\ exists k3 rest, k' = fd_close 6 (fd_close 5 k3) /\
       manifest_of_bytes (f_content k3) = (2, [1000; 1003] ++ rest)) /\
    (ret <> 0 -> ret = -1) /\ (2 <> Z.of_nat 2 -> ret = -1)).
Proof.
  pose proof (manifest_complete (replicate 256 0) eq_refl
    ltac:(apply Forall_replicate; vm_compute; split; [discriminate|reflexivity]) 5 6 listed
    (fun _ _ => eq_refl) f_content 2 1000 1004 (replicate 16 0) 3
    (File [] [] 2000 500) (File [] [] 2000 500) (File [] [] 2000 500)) as Hman.
  assert (present_ids listed 1000 1004 = [1000; 1003]) as Hids by (vm_compute; reflexivity).
  cbv zeta in Hman. rewrite Hids in Hman. apply Hman; [lia|lia|cbn; lia|vm_compute; reflexivity|lia|reflexivity|lia|reflexivity].
Defined.

Lemma header_roundtrip_witness :
  let h := CkptHeader (magic_bytes ++ [0]) (replicate 16 1) 1000 0 1000 50 1 50 50 259 515 2 1 4 3
             (SharedCacheInfo 6442450944 4294967296 (replicate 16 7)) in
  header_of_bytes (header_bytes h) = h.
Proof.
  apply header_roundtrip. split; [reflexivity|reflexivity|reflexivity|..];
    repeat (apply List.Forall_cons || apply List.Forall_nil); vm_compute; split; (discriminate || reflexivity).
Defined.
