(* ===== verification/Compress.v ===== *)
(** Compressing and decompressing an image: [xnd/util/compress.c].

    zlib is a parameter: [Zlib] are the calls the file makes, as functions on
    a stream, [ZlibSpec] what zlib.h documents of them.  A stream's
    [avail_in] and [next_in] are the list of bytes still to be consumed; with
    [n] bytes of room, [avail_out] afterwards is [n] less the bytes put out. *)

From S2P Require Import Prelude Cstr Bytes Io CkptFile CkptImage.
Open Scope Z_scope.

Definition CHUNK : Z := 16384.
Definition XND_COMPRESSED_SUFFIX : string := ".gz".
Definition Z_OK : Z := 0.
Definition Z_STREAM_END : Z := 1.
Definition Z_NEED_DICT : Z := 2.
Definition Z_STREAM_ERROR : Z := -2.
Definition Z_DATA_ERROR : Z := -3.
Definition Z_MEM_ERROR : Z := -4.
Definition Z_BUF_ERROR : Z := -5.

(** What a call of [deflate] or [inflate] gives: its result, how much of the
    input it consumed, the output, and the stream. *)
Record zcall (St : Type) := ZCall { z_err : Z; z_used : nat; z_out : list Z; z_stream : St }.
Arguments ZCall {St}.
Arguments z_err {St}.
Arguments z_used {St}.
Arguments z_out {St}.
Arguments z_stream {St}.

Class Zlib := {
  deflating : Type;
  inflating : Type;
  (** [None]: not Z_OK *)
  deflateInit : option deflating;
  inflateInit : option inflating;
  (** the input, the room for output, and whether [flush] is Z_FINISH *)
  deflate : deflating -> list Z -> Z -> bool -> zcall deflating;
  inflate : inflating -> list Z -> Z -> zcall inflating;
}.

Class CreatSys (K : Type) := {
  (** [openat(dir, name, O_WRONLY | O_CREAT, 0666)] *)
  fs_openat_creat : Z -> cstr -> K -> Z * K;
}.

Section compress.
Context `{Zlib} {K : Type} `{IoSys K, FdSys K, FsSys K, CreatSys K}.

(** The inner do-while of [do_compress]: [None] is the label [bad].  Its fuel
    counts full output buffers. *)
Fixpoint deflate_all (fuel : nat) (dstfd : Z) (z : deflating) (avail_in : list Z) (flush : bool)
    : M K (option (Z * list Z * deflating)) :=
  match fuel with
  | O => nofuel
  | S fuel =>
    let c := deflate z avail_in CHUNK flush in
    xnd_assert (negb (z_err c =? Z_STREAM_ERROR));;
    let avail_in := drop (z_used c) avail_in in
    let have := Z.of_nat (length (z_out c)) in
    bytes ← writeall dstfd (z_out c);
    if negb (bytes =? have) then mret None else
    if CHUNK - have =? 0 then deflate_all fuel dstfd (z_stream c) avail_in flush
    else mret (Some (z_err c, avail_in, z_stream c))
  end.

(** The outer one, whose fuel counts reads. *)
Fixpoint compress_loop (fuel ifuel : nat) (dstfd srcfd : Z) (z : deflating) : M K Z :=
  match fuel with
  | O => nofuel
  | S fuel =>
    inbuf ← fcall (sys_read srcfd CHUNK);
    match inbuf with
    | None => mret (-1)
    | Some bytes =>
      let flush := bool_decide (bytes = []) in
      r ← deflate_all ifuel dstfd z bytes flush;
      match r with
      | None => mret (-1)
      | Some (err, avail_in, z) =>
        xnd_assert (bool_decide (avail_in = []));;
        if flush then xnd_assert (err =? Z_STREAM_END);; mret 0
        else compress_loop fuel ifuel dstfd srcfd z
      end
    end
  end.

Definition do_compress (fuel ifuel : nat) (dstfd srcfd : Z) : M K Z :=
  match deflateInit with
  | None => mret (-1)
  | Some z => compress_loop fuel ifuel dstfd srcfd z
  end.

Fixpoint inflate_all (fuel : nat) (dstfd : Z) (z : inflating) (avail_in : list Z) : M K (option (Z * inflating)) :=
  match fuel with
  | O => nofuel
  | S fuel =>
    let c := inflate z avail_in CHUNK in
    xnd_assert (negb ((z_err c =? Z_STREAM_ERROR) || (z_err c =? Z_NEED_DICT)));;
    if (z_err c =? Z_DATA_ERROR) || (z_err c =? Z_MEM_ERROR) then mret None else
    let avail_in := drop (z_used c) avail_in in
    let have := Z.of_nat (length (z_out c)) in
    bytes ← writeall dstfd (z_out c);
    if negb (bytes =? have) then mret None else
    if CHUNK - have =? 0 then inflate_all fuel dstfd (z_stream c) avail_in
    else mret (Some (z_err c, z_stream c))
  end.

(** At the end of the file the label [done] returns 0 whatever the state of the
    stream. *)
Fixpoint decompress_loop (fuel ifuel : nat) (dstfd srcfd : Z) (z : inflating) : M K Z :=
  match fuel with
  | O => nofuel
  | S fuel =>
    inbuf ← fcall (sys_read srcfd CHUNK);
    match inbuf with
    | None => mret (-1)
    | Some [] => mret 0
    | Some bytes =>
      r ← inflate_all ifuel dstfd z bytes;
      match r with
      | None => mret (-1)
      | Some (err, z) => if err =? Z_STREAM_END then mret 0 else decompress_loop fuel ifuel dstfd srcfd z
      end
    end
  end.

Definition do_decompress (fuel ifuel : nat) (dstfd srcfd : Z) : M K Z :=
  match inflateInit with
  | None => mret (-1)
  | Some z => decompress_loop fuel ifuel dstfd srcfd z
  end.

(** The label [bad] of the two functions below. *)
Definition compress_bad (srcfd dstfd : Z) : M K Z := close_unless srcfd;; close_unless dstfd;; mret (-1).

Definition xnd_compress_ckpt (fuel ifuel : nat) (dirfd : Z) (ckptfile : cstr) : M K Z :=
  srcfd ← fcall (fs_openat_rd dirfd ckptfile);
  if srcfd <? 0 then compress_bad srcfd (-1) else
  let buf := snprintf XND_CKPTFILE_MAXLEN (ckptfile ++ cs XND_COMPRESSED_SUFFIX) in
  dstfd ← fcall (fs_openat_creat dirfd buf);
  if dstfd <? 0 then compress_bad srcfd dstfd else
  err ← do_compress fuel ifuel dstfd srcfd;
  if negb (err =? 0) then compress_bad srcfd dstfd else
  fcall (fs_unlinkat dirfd ckptfile);;
  fclose srcfd;; fclose dstfd;; mret 0.

Definition xnd_decompress_ckpt (fuel ifuel : nat) (dirfd : Z) (ckptfile : cstr) : M K Z :=
  let buf := snprintf XND_CKPTFILE_MAXLEN (ckptfile ++ cs XND_COMPRESSED_SUFFIX) in
  srcfd ← fcall (fs_openat_rd dirfd buf);
  if srcfd <? 0 then compress_bad srcfd (-1) else
  dstfd ← fcall (fs_openat_creat dirfd ckptfile);
  if dstfd <? 0 then compress_bad srcfd dstfd else
  err ← do_decompress fuel ifuel dstfd srcfd;
  if negb (err =? 0) then compress_bad srcfd dstfd else
  fclose srcfd;; fclose dstfd;; mret 0.
End compress.

(** What the writer of images uses. *)
Definition zlib_ckpt (fuel ifuel : nat) `{Zlib} {K : Type} `{IoSys K, FdSys K, FsSys K, CreatSys K} : CkptZlib K :=
  {| CkptImage.xnd_compress_ckpt := xnd_compress_ckpt fuel ifuel |}.

(** ** What zlib documents *)

Class ZlibSpec `{Zlib} := {
  (** The format: what a byte sequence becomes *)
  codes : list Z -> list Z -> Prop;
  codes_nonempty data code : codes data code -> code <> [];
  (** What a stream has consumed and put out, and whether it has been told
      that the input is complete *)
  fed : deflating -> list Z;
  emitted : deflating -> list Z;
  finishing : deflating -> bool;
  deflate_start z : deflateInit = Some z -> fed z = [] /\ emitted z = [] /\ finishing z = false;
  (** [deflate] consumes input and puts out output until one of them is used
      up; told to finish, with room left, it has ended the stream *)
  deflate_step z inp n flush c : deflate z inp n flush = c -> 0 < n ->
    (finishing z = true -> inp = [] /\ flush = true) -> Forall is_byte (fed z ++ inp) ->
    z_err c <> Z_STREAM_ERROR /\ (z_used c <= length inp)%nat /\ Z.of_nat (length (z_out c)) <= n /\
    fed (z_stream c) = fed z ++ take (z_used c) inp /\ emitted (z_stream c) = emitted z ++ z_out c /\
    finishing (z_stream c) = finishing z || flush /\
    (Z.of_nat (length (z_out c)) < n -> z_used c = length inp /\ (flush = true -> z_err c = Z_STREAM_END)) /\
    (z_err c = Z_STREAM_END -> codes (fed (z_stream c)) (emitted (z_stream c)));
  (** [deflateBound] *)
  deflate_bound : nat -> nat;
  deflate_bounded z : Forall is_byte (fed z) -> (length (emitted z) <= deflate_bound (length (fed z)))%nat;
  deflate_bound_mono i j : (i <= j)%nat -> (deflate_bound i <= deflate_bound j)%nat;
  (** What an inflating stream has consumed and put out *)
  eaten : inflating -> list Z;
  produced : inflating -> list Z;
  inflate_start z : inflateInit = Some z -> eaten z = [] /\ produced z = [];
  (** of a coded sequence, perhaps with other bytes after it, [inflate]
      produces the data, in pieces, and then says Z_STREAM_END *)
  inflate_step z inp n c data code rest : inflate z inp n = c -> 0 < n -> codes data code ->
    eaten z ++ inp `prefix_of` code ++ rest -> eaten z `prefix_of` code -> produced z `prefix_of` data ->
    z_err c ∈ [Z_OK; Z_STREAM_END; Z_BUF_ERROR] /\ (z_used c <= length inp)%nat /\ Z.of_nat (length (z_out c)) <= n /\
    eaten (z_stream c) = eaten z ++ take (z_used c) inp /\ eaten (z_stream c) `prefix_of` code /\
    produced (z_stream c) = produced z ++ z_out c /\ produced (z_stream c) `prefix_of` data /\
    (z_err c = Z_STREAM_END -> eaten (z_stream c) = code /\ produced (z_stream c) = data) /\
    (Z.of_nat (length (z_out c)) < n ->
      (z_used c = length inp \/ z_err c = Z_STREAM_END) /\
      (eaten (z_stream c) = code -> z_err c = Z_STREAM_END));
}.
