(* ===== verification/CompressProps.v ===== *)
(** What is compressed comes back: theorems of [Compress]. *)

From S2P Require Import Prelude Cstr Bytes Io CkptFile CkptImage Compress.
Open Scope Z_scope.

(** ** Between two descriptors *)

(** While [I] holds of the world, [src] can be read to the end of [pending],
    [dst] be written at the end of [content], and neither disturbs the other. *)
Class Pipe (K : Type) `{IoSys K} (src dst : Z) (I : K -> Prop) (pending content : K -> list Z) := {
  pipe_read n k r k' : I k -> sys_read src n k = (r, k') -> 0 < n -> I k' /\ content k' = content k /\
    match r with
    | None => pending k' = pending k
    | Some d => pending k = d ++ pending k' /\ Z.of_nat (length d) <= n /\ (d = [] -> pending k = [])
    end;
  pipe_write buf k r k' : I k -> sys_write dst buf k = (r, k') -> I k' /\ pending k' = pending k /\
    (r = -1 /\ content k' = content k \/
     0 <= r <= Z.of_nat (length buf) /\ (buf <> [] -> 0 < r) /\ content k' = content k ++ take (Z.to_nat r) buf);
}.

Section pipe.
Context `{ZlibSpec} {K : Type} `{IoSys K, FdSys K, FsSys K, CreatSys K} {src dst : Z} {I : K -> Prop}
  {pending content : K -> list Z} `{!Pipe K src dst I pending content}.

Lemma pipe_writeall buf k : I k ->
  returns (writeall dst buf) k (fun n k' => I k' /\ pending k' = pending k /\ 0 <= n <= Z.of_nat (length buf) /\
    content k' = content k ++ take (Z.to_nat n) buf).
Proof using Type*.
  intros HI. eapply returns_weaken.
  - apply (writeall_loop_inv dst (fun k' => I k' /\ pending k' = pending k) content); [|by split|lia|lia].
    intros b w r w' [HIw Hp] E. destruct (pipe_write b w r w' HIw E) as (HI' & Hp' & Hc).
    split; [split; [done|congruence]|exact Hc].
  - cbn. intros n k' ((HI' & Hp) & Hn & Hc). by rewrite Z.sub_0_r in Hc.
Qed.

(** One call of zlib's worth of output. *)
Lemma pipe_write_out {B} out (f : M K (option B)) (Q : option B -> K -> Prop) k :
  I k -> (forall k', I k' -> pending k' = pending k -> Q None k') ->
  (forall k', I k' -> pending k' = pending k -> content k' = content k ++ out -> returns f k' Q) ->
  returns (bytes ← writeall dst out; if negb (bytes =? Z.of_nat (length out)) then mret None else f) k Q.
Proof using Type*.
  intros HI Hbad Hok. apply returns_bind. eapply returns_weaken; [by apply pipe_writeall|].
  intros n k' (HI' & Hp & Hn & Hc). destruct (Z.eqb_spec n (Z.of_nat (length out))) as [->|Hne].
  - apply Hok; [done|done|]. by rewrite Hc, Nat2Z.id, take_ge.
  - by apply returns_ret, Hbad.
Qed.

Lemma deflate_all_ok flush : forall fuel z avail k, I k ->
  (finishing z = true -> flush = true) -> (flush = true -> avail = []) -> Forall is_byte (fed z ++ avail) ->
  (deflate_bound (length (fed z ++ avail)) < length (emitted z) + fuel)%nat ->
  returns (deflate_all fuel dst z avail flush) k (fun r k' => I k' /\ pending k' = pending k /\
    match r with
    | None => True
    | Some (err, rest, z') => rest = [] /\ fed z' = fed z ++ avail /\ finishing z' = finishing z || flush /\
        (exists o, emitted z' = emitted z ++ o /\ content k' = content k ++ o) /\
        (flush = true -> err = Z_STREAM_END /\ codes (fed z') (emitted z'))
    end).
Proof using Type*.
  induction fuel as [|fuel IH]; intros z avail k HI Hfin Hav Hb Hf.
  { pose proof (deflate_bounded z ltac:(by apply Forall_app in Hb as [? _])).
    pose proof (deflate_bound_mono (length (fed z)) (length (fed z ++ avail)) ltac:(rewrite length_app; lia)). lia. }
  cbn [deflate_all]. destruct (deflate_step z avail CHUNK flush _ eq_refl ltac:(done) ltac:(auto) Hb)
    as (Herr & Hu & Ho & Hfed & Hem & Hfz & Hroom & Hend).
  set (c := deflate z avail CHUNK flush) in *. clearbody c.
  rewrite (proj2 (Z.eqb_neq _ _) Herr). eapply returns_step; [done|]. cbv zeta.
  apply pipe_write_out; [done|done|]. intros k' HI' Hp Hc.
  assert (fed (z_stream c) ++ drop (z_used c) avail = fed z ++ avail) as Hall
    by (by rewrite Hfed, <- app_assoc, take_drop).
  destruct (Z.eqb_spec (CHUNK - Z.of_nat (length (z_out c))) 0) as [Hz|Hz].
  - eapply returns_weaken; [apply (IH (z_stream c) (drop (z_used c) avail) k' HI')|].
    + rewrite Hfz. intros [Hx|Hx]%orb_true_iff; [by apply Hfin|done].
    + intros Hx. by rewrite (Hav Hx), drop_nil.
    + by rewrite Hall.
    + rewrite Hall, Hem, (length_app (emitted z)). unfold CHUNK in Hz. lia.
    + intros [[[err rest] z']|] k2 (HI2 & Hp2 & Hr); (split; [done|]; split; [congruence|]); [|done].
      destruct Hr as (-> & Hfed' & Hfin' & (o & Hem' & Hc') & Hend'). split_and!; try done.
      * by rewrite Hfed', Hall.
      * rewrite Hfin', Hfz. by destruct (finishing z), flush.
      * exists (z_out c ++ o). by rewrite Hem', Hem, Hc', Hc, <- !app_assoc.
  - destruct (Hroom ltac:(lia)) as [Hused Hf1]. apply returns_ret. split; [done|]. split; [done|].
    rewrite Hused, drop_all in *. split; [done|]. split; [by rewrite app_nil_r in Hall|]. split; [done|].
    split; [by exists (z_out c)|]. intros Hx. auto.
Qed.

Lemma compress_loop_ok ifuel : forall fuel z k, I k -> finishing z = false -> Forall is_byte (fed z ++ pending k) ->
  (length (pending k) < fuel)%nat -> (deflate_bound (length (fed z ++ pending k)) < ifuel)%nat ->
  returns (compress_loop fuel ifuel dst src z) k (fun r k' => I k' /\
    (r = -1 \/ r = 0 /\ exists o, content k' = content k ++ o /\ codes (fed z ++ pending k) (emitted z ++ o))).
Proof using Type*.
  induction fuel as [|fuel IH]; intros z k HI Hfin Hb Hf Hi; [lia|]. cbn [compress_loop].
  destruct (sys_read src CHUNK k) as [inbuf k1] eqn:Er.
  eapply (returns_step _ _ _ inbuf k1); [unfold fcall; by rewrite Er|].
  destruct (pipe_read CHUNK k inbuf k1 HI Er ltac:(done)) as (HI1 & Hc1 & Hd).
  destruct inbuf as [d|]; [|apply returns_ret; split; [done|by left]]. destruct Hd as (Hp & Hl & Hnil).
  apply returns_bind. eapply returns_weaken; [apply (deflate_all_ok (bool_decide (d = [])) ifuel z d k1 HI1)|].
  - by rewrite Hfin.
  - intros Hx. by apply bool_decide_eq_true in Hx.
  - rewrite Hp, app_assoc in Hb. by apply Forall_app in Hb as [? _].
  - rewrite Hp, !length_app in Hi. eapply Nat.le_lt_trans; [apply deflate_bound_mono|eapply Nat.lt_le_trans; [exact Hi|lia]].
    rewrite length_app. lia.
  - intros [[[err rest] z']|] k2 (HI2 & Hp2 & Hr); [|apply returns_ret; split; [done|by left]].
    destruct Hr as (-> & Hfed & Hfin' & (o & Hem & Hc2) & Hend).
    change (bool_decide (@nil Z = [])) with true. eapply returns_step; [done|].
    destruct d as [|b d].
    + destruct (Hend eq_refl) as [-> Hcodes]. change (bool_decide (@nil Z = [])) with true.
      eapply returns_step; [done|]. apply returns_ret. split; [done|]. right. split; [done|]. exists o.
      rewrite (Hnil eq_refl). rewrite <- Hfed, <- Hem. split; [by rewrite Hc2, Hc1|done].
    + change (bool_decide (b :: d = [])) with false in *.
      assert (fed z' ++ pending k2 = fed z ++ pending k) as Hall by (by rewrite Hfed, Hp2, Hp, <- app_assoc).
      eapply returns_weaken; [apply (IH z' k2 HI2)|].
      * by rewrite Hfin', Hfin.
      * by rewrite Hall.
      * rewrite Hp2. rewrite Hp, length_app in Hf. cbn [length] in Hf. lia.
      * by rewrite Hall.
      * intros r k3 (HI3 & [->|(-> & o' & Hc3 & Hcodes)]); (split; [done|]); [by left|right].
        split; [done|]. exists (o ++ o'). rewrite Hc3, Hc2, Hc1, <- app_assoc. split; [done|].
        by rewrite Hall, Hem, <- app_assoc in Hcodes.
Qed.

(** *** Decompressing *)

Lemma inflate_all_ok data code rest : codes data code -> forall fuel z avail k, I k ->
  eaten z ++ avail `prefix_of` code ++ rest -> eaten z `prefix_of` code -> produced z `prefix_of` data ->
  (length data < length (produced z) + fuel)%nat ->
  returns (inflate_all fuel dst z avail) k (fun r k' => I k' /\ pending k' = pending k /\
    match r with
    | None => True
    | Some (err, z') => eaten z' `prefix_of` code /\ produced z' `prefix_of` data /\
        (exists o, produced z' = produced z ++ o /\ content k' = content k ++ o) /\
        (err = Z_STREAM_END -> produced z' = data) /\
        (err <> Z_STREAM_END -> eaten z' = eaten z ++ avail /\ eaten z' <> code)
    end).
Proof using Type*.
  intros Hcodes. induction fuel as [|fuel IH]; intros z avail k HI Hpre He Hpr Hf.
  { apply prefix_length in Hpr. lia. }
  cbn [inflate_all]. destruct (inflate_step z avail CHUNK _ data code rest eq_refl ltac:(done) Hcodes Hpre He Hpr)
    as (Herr & Hu & Ho & Hea & Hea' & Hpd & Hpd' & Hend & Hroom).
  set (c := inflate z avail CHUNK) in *. clearbody c.
  assert ((z_err c =? Z_STREAM_ERROR) = false /\ (z_err c =? Z_NEED_DICT) = false /\
    (z_err c =? Z_DATA_ERROR) = false /\ (z_err c =? Z_MEM_ERROR) = false) as (-> & -> & -> & ->).
  { repeat (apply elem_of_cons in Herr as [->|Herr]; [by split_and!|]). by apply not_elem_of_nil in Herr. }
  eapply returns_step; [done|]. cbv zeta. cbn [orb].
  apply pipe_write_out; [done|done|]. intros k' HI' Hp Hc.
  assert (eaten (z_stream c) ++ drop (z_used c) avail = eaten z ++ avail) as Hall
    by (by rewrite Hea, <- app_assoc, take_drop).
  destruct (Z.eqb_spec (CHUNK - Z.of_nat (length (z_out c))) 0) as [Hz|Hz].
  - eapply returns_weaken; [apply (IH (z_stream c) (drop (z_used c) avail) k' HI'); [by rewrite Hall|done|done|]|].
    + rewrite Hpd, length_app. unfold CHUNK in Hz. lia.
    + intros [[err z']|] k2 (HI2 & Hp2 & Hr); (split; [done|]; split; [congruence|]); [|done].
      destruct Hr as (H1' & H2' & (o & Hpd2 & Hc2) & H3' & H4'). split_and!; try done.
      * exists (z_out c ++ o). by rewrite Hpd2, Hpd, Hc2, Hc, <- !app_assoc.
      * by rewrite <- Hall.
  - destruct (Hroom ltac:(lia)) as [Hused Hlast]. apply returns_ret. split; [done|]. split; [done|].
    split_and!; [done|done|by exists (z_out c)|by intros E; apply Hend|]. intros Hne. split; [|by intros E; apply Hne, Hlast].
    destruct Hused as [Hused|]; [|done]. by rewrite Hused, drop_all, app_nil_r in Hall.
Qed.

(** [complete]: the whole of the code is there. *)
Lemma decompress_loop_ok data code rest ifuel : codes data code -> (length data < ifuel)%nat -> forall fuel z k, I k ->
  eaten z ++ pending k `prefix_of` code ++ rest -> eaten z `prefix_of` code -> eaten z <> code ->
  produced z `prefix_of` data -> (length (pending k) < fuel)%nat ->
  returns (decompress_loop fuel ifuel dst src z) k (fun r k' => I k' /\ (r = -1 \/ r = 0 /\
    exists o, content k' = content k ++ o /\ produced z ++ o `prefix_of` data /\
      (code `prefix_of` eaten z ++ pending k -> produced z ++ o = data))).
Proof using Type*.
  intros Hcodes Hif. induction fuel as [|fuel IH]; intros z k HI Hpre He Hne Hpr Hf; [lia|]. cbn [decompress_loop].
  destruct (sys_read src CHUNK k) as [inbuf k1] eqn:Er.
  eapply (returns_step _ _ _ inbuf k1); [unfold fcall; by rewrite Er|].
  destruct (pipe_read CHUNK k inbuf k1 HI Er ltac:(done)) as (HI1 & Hc1 & Hd).
  destruct inbuf as [d|]; [|apply returns_ret; split; [done|by left]]. destruct Hd as (Hp & Hl & Hnil).
  destruct d as [|b d].
  { apply returns_ret. split; [done|]. right. split; [done|]. exists []. rewrite !app_nil_r.
    split_and!; [done|done|]. rewrite (Hnil eq_refl), app_nil_r. intros Hc. destruct Hne.
    apply prefix_length_eq; [done|]. by apply prefix_length. }
  set (bytes := b :: d) in *. apply returns_bind.
  eapply returns_weaken; [apply (inflate_all_ok data code rest Hcodes ifuel z bytes k1 HI1)|]; try done.
  - etrans; [|exact Hpre]. rewrite Hp, app_assoc. by apply prefix_app_r.
  - lia.
  - intros [[err z']|] k2 (HI2 & Hp2 & Hr); [|apply returns_ret; split; [done|by left]].
    destruct Hr as (He' & Hpr' & (o & Hpd & Hc2) & Hend & Hmore).
    destruct (Z.eqb_spec err Z_STREAM_END) as [E|E].
    + apply returns_ret. split; [done|]. right. split; [done|]. exists o. rewrite Hc2, Hc1, <- Hpd.
      split_and!; [done|done|]. intros _. by apply Hend.
    + destruct (Hmore E) as [Hea Hne'].
      assert (eaten z' ++ pending k2 = eaten z ++ pending k) as Hall by (by rewrite Hea, Hp2, Hp, <- app_assoc).
      eapply returns_weaken; [apply (IH z' k2 HI2); [by rewrite Hall|done|done|done|]|].
      * rewrite Hp2. rewrite Hp, length_app in Hf. unfold bytes in Hf. cbn [length] in Hf. lia.
      * intros r k3 (HI3 & [->|(-> & o' & Hc3 & Hpo & Hcomp)]); (split; [done|]); [by left|right].
        split; [done|]. exists (o ++ o'). rewrite Hc3, Hc2, Hc1, <- !app_assoc. split; [done|].
        rewrite Hpd, <- app_assoc in Hpo, Hcomp. split; [done|]. by rewrite <- Hall.
Qed.

(** Both functions, from their initial streams. *)
Lemma do_compress_ok fuel ifuel k : I k -> Forall is_byte (pending k) -> (length (pending k) < fuel)%nat ->
  (deflate_bound (length (pending k)) < ifuel)%nat ->
  returns (do_compress fuel ifuel dst src) k (fun r k' => I k' /\
    (r = -1 \/ r = 0 /\ exists code, content k' = content k ++ code /\ codes (pending k) code)).
Proof using Type*.
  intros HI Hb Hf Hi. unfold do_compress. destruct deflateInit as [z|] eqn:Ez; [|apply returns_ret; split; [done|by left]].
  destruct (deflate_start z Ez) as (Hfed & Hem & Hfin).
  eapply returns_weaken; [apply (compress_loop_ok ifuel fuel z k HI Hfin); by rewrite ?Hfed|].
  intros r k' Hr. by rewrite Hfed, Hem in Hr.
Qed.

Lemma do_decompress_ok data code rest fuel ifuel k : codes data code -> I k -> pending k `prefix_of` code ++ rest ->
  (length (pending k) < fuel)%nat -> (length data < ifuel)%nat ->
  returns (do_decompress fuel ifuel dst src) k (fun r k' => I k' /\ (r = -1 \/ r = 0 /\
    exists o, content k' = content k ++ o /\ o `prefix_of` data /\ (code `prefix_of` pending k -> o = data))).
Proof using Type*.
  intros Hcodes HI Hpre Hf Hi. unfold do_decompress.
  destruct inflateInit as [z|] eqn:Ez; [|apply returns_ret; split; [done|by left]].
  destruct (inflate_start z Ez) as (Hea & Hpd).
  eapply returns_weaken; [apply (decompress_loop_ok data code rest ifuel Hcodes Hi fuel z k HI); rewrite ?Hea, ?Hpd; try done|].
  - by apply prefix_nil.
  - intros E. by apply (codes_nonempty data code).
  - by apply prefix_nil.
  - intros r k' Hr. by rewrite Hea, Hpd in Hr.
Qed.
End pipe.

(** ** In a directory *)

(** The files of the directory [dirfd], and the file and position of each open
    descriptor. *)
Class DirFs (K : Type) `{IoSys K, FdSys K, FsSys K, CreatSys K} (dirfd : Z)
    (files : K -> gmap cstr (list Z)) (fds : K -> gmap Z (cstr * nat)) := {
  dir_open_rd name k r k' : fs_openat_rd dirfd name k = (r, k') -> files k' = files k /\
    (r = -1 /\ fds k' = fds k \/
     0 <= r /\ fds k !! r = None /\ fds k' = <[r := (name, 0%nat)]> (fds k) /\ is_Some (files k !! name));
  dir_open_creat name k r k' : fs_openat_creat dirfd name k = (r, k') ->
    r = -1 /\ files k' = files k /\ fds k' = fds k \/
    0 <= r /\ fds k !! r = None /\ fds k' = <[r := (name, 0%nat)]> (fds k) /\
      files k' = <[name := default [] (files k !! name)]> (files k);
  dir_read fd n k r k' name off l : sys_read fd n k = (r, k') -> 0 < n -> fds k !! fd = Some (name, off) ->
    files k !! name = Some l -> files k' = files k /\
    match r with
    | None => fds k' = fds k
    | Some d => d = take (length d) (drop off l) /\ Z.of_nat (length d) <= n /\ (d = [] -> drop off l = []) /\
        fds k' = <[fd := (name, (off + length d)%nat)]> (fds k)
    end;
  dir_answers fd n k x : fds k !! fd = Some x -> read_waits fd n k = false;
  dir_write fd buf k r k' name off l : sys_write fd buf k = (r, k') -> fds k !! fd = Some (name, off) ->
    files k !! name = Some l ->
    r = -1 /\ files k' = files k /\ fds k' = fds k \/
    0 <= r <= Z.of_nat (length buf) /\ (buf <> [] -> 0 < r) /\
      files k' = <[name := take off l ++ take (Z.to_nat r) buf ++ drop (off + Z.to_nat r) l]> (files k) /\
      fds k' = <[fd := (name, (off + Z.to_nat r)%nat)]> (fds k);
  dir_unlink name k r k' : fs_unlinkat dirfd name k = (r, k') -> fds k' = fds k /\
    files k' = if (r : bool) then delete name (files k) else files k;
  dir_close fd k : files (fd_close fd k) = files k /\ fds (fd_close fd k) = delete fd (fds k);
}.

Section files.
Context {K : Type} `{DirFs K dirfd files fds}.

(** Copying from file [p], whose bytes are [data], over file [q], which held
    [old]; [k0] is the state before. *)
Record copying (src dst : Z) (p q : cstr) (data old : list Z) (k0 k : K) : Prop := {
  cp_src : exists i, fds k !! src = Some (p, i);
  cp_data : files k !! p = Some data;
  cp_dst : exists m, fds k !! dst = Some (q, length m) /\ files k !! q = Some (m ++ drop (length m) old);
  cp_others : forall n, n <> q -> files k !! n = files k0 !! n;
}.
Definition copy_pending (src : Z) (data : list Z) (k : K) : list Z :=
  match fds k !! src with Some (_, i) => drop i data | None => [] end.
Definition copy_content (dst : Z) (q : cstr) (k : K) : list Z :=
  match fds k !! dst, files k !! q with Some (_, n), Some l => take n l | _, _ => [] end.

Lemma copy_pipe src dst p q data old k0 : src <> dst -> p <> q ->
  Pipe K src dst (copying src dst p q data old k0) (copy_pending src data) (copy_content dst q).
Proof using All.
  intros Hne Hpq. constructor.
  - intros n k r k' [[i Hs] Hd (m & Hdst & Hq) Ho] E Hn.
    destruct (dir_read src n k r k' p i data E Hn Hs Hd) as [Hf Hr]. unfold copy_pending, copy_content.
    destruct r as [d|].
    + destruct Hr as (Hdd & Hl & Hnil & Hfds).
      assert (fds k' !! dst = fds k !! dst) as Hk by (by rewrite Hfds, lookup_insert_ne).
      rewrite Hf, Hk, Hfds, lookup_insert_eq, Hs. split_and!; [split|done| |done|done].
      * rewrite Hfds. eexists. by rewrite lookup_insert_eq.
      * by rewrite Hf.
      * exists m. by rewrite Hk, Hf.
      * intros x Hx. rewrite Hf. by apply Ho.
      * rewrite <- drop_drop. rewrite Hdd at 1. by rewrite take_drop.
    + rewrite Hf, Hr. split_and!; [split|done|done]; rewrite ?Hf, ?Hr; eauto.
  - intros buf k r k' [[i Hs] Hd (m & Hdst & Hq) Ho] E.
    destruct (dir_write dst buf k r k' q (length m) _ E Hdst Hq) as [(-> & Hf & Hfds)|(Hr & Hb & Hf & Hfds)];
      unfold copy_pending, copy_content.
    + rewrite Hf, Hfds. split_and!; [split|done|by left]; rewrite ?Hf, ?Hfds; eauto.
    + assert (take (length m) (m ++ drop (length m) old) = m) as Hm by apply take_app_length.
      assert (drop (length m + Z.to_nat r) (m ++ drop (length m) old) = drop (length m + Z.to_nat r) old) as Hdr
        by (by rewrite drop_app_add, drop_drop).
      rewrite Hm, Hdr in Hf. set (w := take (Z.to_nat r) buf) in *.
      assert (length w = Z.to_nat r) as Hw by (unfold w; rewrite length_take; lia).
      split_and!; [split| |right; split_and!; [lia..|done|]].
      * rewrite Hfds, lookup_insert_ne by done. eauto.
      * by rewrite Hf, lookup_insert_ne.
      * exists (m ++ w). rewrite Hfds, Hf, !lookup_insert_eq, length_app, Hw. by rewrite <- app_assoc.
      * intros x Hx. rewrite Hf, lookup_insert_ne by done. by apply Ho.
      * by rewrite Hfds, lookup_insert_ne.
      * rewrite Hfds, Hf, !lookup_insert_eq, Hdst, Hq, Hm, <- Hw, app_assoc, <- length_app. apply take_app_length.
Qed.

(** Opening the two files. *)
Lemma copy_starts src dst p q data k k1 k2 : p <> q -> files k !! p = Some data ->
  fs_openat_rd dirfd p k = (src, k1) -> 0 <= src -> fs_openat_creat dirfd q k1 = (dst, k2) -> 0 <= dst ->
  src <> dst /\ copying src dst p q data (default [] (files k !! q)) k k2 /\
  copy_pending src data k2 = data /\ copy_content dst q k2 = [] /\
  delete dst (delete src (fds k2)) = fds k.
Proof using All.
  intros Hpq Hp E1 Hs E2 Hd.
  destruct (dir_open_rd _ _ _ _ E1) as [Hf1 [[-> _]|(_ & Hn1 & Hd1 & _)]]; [lia|].
  destruct (dir_open_creat _ _ _ _ E2) as [(-> & _)|(_ & Hn2 & Hd2 & Hf2)]; [lia|].
  assert (src <> dst) as Hne by (intros ->; by rewrite Hd1, lookup_insert_eq in Hn2).
  rewrite Hd1, lookup_insert_ne in Hn2 by done. rewrite Hf1 in Hf2.
  split; [done|]. split; [split|split_and!].
  - rewrite Hd2, lookup_insert_ne, Hd1, lookup_insert_eq by done. eauto.
  - by rewrite Hf2, lookup_insert_ne.
  - exists []. rewrite Hd2, Hf2, !lookup_insert_eq. done.
  - intros n Hn. by rewrite Hf2, lookup_insert_ne.
  - unfold copy_pending. by rewrite Hd2, lookup_insert_ne, Hd1, lookup_insert_eq.
  - unfold copy_content. by rewrite Hd2, Hf2, !lookup_insert_eq.
  - rewrite Hd2, Hd1. rewrite (delete_insert_ne (<[src:=_]> (fds k))) by done.
    rewrite (delete_insert_id (fds k)) by done. by apply delete_insert_id.
Qed.

(** The destination when the copy is over. *)
Lemma copy_result src dst p q data old k0 k m : copying src dst p q data old k0 k ->
  copy_content dst q k = m -> files k !! q = Some (m ++ drop (length m) old).
Proof using All.
  intros [_ _ (m' & Hd & Hq) _] <-. unfold copy_content. by rewrite Hd, Hq, take_app_length.
Qed.

Context `{ZlibSpec}.
Definition gz_name (ckptfile : cstr) : cstr := snprintf XND_CKPTFILE_MAXLEN (ckptfile ++ cs XND_COMPRESSED_SUFFIX).

Lemma closes_eq fd (k : K) : 0 <= fd -> exists k', close_unless fd k = Ret tt k' /\ files k' = files k /\ fds k' = delete fd (fds k).
Proof using All.
  intros Hfd. unfold close_unless. rewrite (proj2 (Z.eqb_neq _ _)) by lia. exists (fd_close fd k). split; [done|]. apply dir_close.
Qed.

Lemma compress_bad_ok src dst (k : K) : 0 <= src ->
  returns (compress_bad src dst) k (fun r k' => r = -1 /\ files k' = files k).
Proof using All.
  intros Hs. unfold compress_bad. destruct (closes_eq src k Hs) as (k1 & E1 & Hf1 & _).
  eapply returns_step; [exact E1|]. unfold close_unless. destruct (dst =? -1).
  - eapply returns_step; [done|]. apply returns_ret. by split.
  - eapply returns_step; [done|]. apply returns_ret. split; [done|]. by rewrite (proj1 (dir_close dst k1)).
Qed.

(** From the files being open to the result: [body] is the copying. *)
Lemma copied_frame (body : Z -> Z -> M K Z) p q data (k : K) (fin : Z -> Z -> M K Z) (good : list Z -> Prop) :
  p <> q -> files k !! p = Some data ->
  (forall src dst k2, src <> dst -> copying src dst p q data (default [] (files k !! q)) k k2 ->
     copy_pending src data k2 = data -> copy_content dst q k2 = [] ->
     returns (body src dst) k2 (fun r k' => copying src dst p q data (default [] (files k !! q)) k k' /\
       (r = -1 \/ r = 0 /\ good (copy_content dst q k')))) ->
  (forall src dst k3, 0 <= src -> 0 <= dst -> returns (fin src dst) k3 (fun r k' => r = 0 /\
     (files k' = files k3 \/ files k' = delete p (files k3)))) ->
  returns (srcfd ← fcall (fs_openat_rd dirfd p);
    if srcfd <? 0 then compress_bad srcfd (-1) else
    dstfd ← fcall (fs_openat_creat dirfd q);
    if dstfd <? 0 then compress_bad srcfd dstfd else
    err ← body srcfd dstfd;
    if negb (err =? 0) then compress_bad srcfd dstfd else fin srcfd dstfd) k (fun r k' =>
    ((r = -1 /\ files k' !! p = Some data) \/
     (r = 0 /\ exists m, good m /\ files k' !! q = Some (m ++ drop (length m) (default [] (files k !! q))))) /\
    forall n, n <> p -> n <> q -> files k' !! n = files k !! n).
Proof using All.
  intros Hpq Hp Hbody Hfin. destruct (fs_openat_rd dirfd p k) as [src k1] eqn:E1.
  eapply (returns_step _ _ _ src k1); [unfold fcall; by rewrite E1|].
  pose proof (dir_open_rd _ _ _ _ E1) as [Hf1 Ho1]. destruct (Z.ltb_spec src 0).
  { destruct Ho1 as [[-> _]|]; [|lia]. apply returns_ret. rewrite Hf1. split; [by left|done]. }
  destruct (fs_openat_creat dirfd q k1) as [dst k2] eqn:E2.
  eapply (returns_step _ _ _ dst k2); [unfold fcall; by rewrite E2|].
  pose proof (dir_open_creat _ _ _ _ E2) as Ho2. destruct (Z.ltb_spec dst 0).
  { eapply returns_weaken; [by apply compress_bad_ok|]. intros r k' [-> Hf].
    destruct Ho2 as [(_ & Hf2 & _)|]; [|lia]. rewrite Hf, Hf2, Hf1. split; [by left|done]. }
  destruct (copy_starts src dst p q data k k1 k2 Hpq Hp E1 ltac:(done) E2 ltac:(done)) as (Hne & Hc & Hpd & Hct & _).
  apply returns_bind. eapply returns_weaken; [by apply Hbody|].
  intros err k3 [Hc3 [->|[-> Hg]]]; cbn [negb Z.eqb].
  - eapply returns_weaken; [by apply compress_bad_ok|]. intros r k' [-> Hf]. rewrite Hf. split; [left; split; [done|apply Hc3]|].
    intros n _ Hn. by apply Hc3.
  - eapply returns_weaken; [by apply Hfin|]. intros r k' [-> Hf]. split.
    + right. split; [done|]. pose proof (copy_result _ _ _ _ _ _ _ _ _ Hc3 eq_refl) as Hq. eexists. split; [exact Hg|].
      destruct Hf as [-> | ->]; [done|]. by rewrite lookup_delete_ne.
    + intros n Hnp Hnq. destruct Hf as [-> | ->]; [|rewrite lookup_delete_ne by done]; by apply Hc3.
Qed.

Lemma close_both src dst (k3 : K) : 0 <= src -> 0 <= dst ->
  returns (fclose src;; fclose dst;; mret 0) k3 (fun r k' => r = 0 /\ files k' = files k3).
Proof using All.
  intros _ _. eapply returns_step; [done|]. eapply returns_step; [done|]. apply returns_ret. split; [done|].
  by rewrite (proj1 (dir_close dst _)), (proj1 (dir_close src _)).
Qed.

Lemma compress_file_ok fuel ifuel name data (k : K) : name <> gz_name name -> files k !! name = Some data ->
  Forall is_byte data -> (length data < fuel)%nat -> (deflate_bound (length data) < ifuel)%nat ->
  returns (xnd_compress_ckpt fuel ifuel dirfd name) k (fun r k' =>
    (r = -1 /\ files k' !! name = Some data) \/
    (r = 0 /\ exists code, codes data code /\
       files k' !! gz_name name = Some (code ++ drop (length code) (default [] (files k !! gz_name name))))).
Proof using All.
  intros Hne Hf Hb Hfu Hif. unfold xnd_compress_ckpt.
  eapply returns_weaken; [eapply (copied_frame (fun src dst => do_compress fuel ifuel dst src) name (gz_name name) data k
    (fun src dst => fcall (fs_unlinkat dirfd name);; fclose src;; fclose dst;; mret 0) (codes data) Hne Hf)|by intros r k' [HR _] ].
  - intros src dst k2 Hsd Hc Hp Hct.
    pose proof (copy_pipe src dst name (gz_name name) data (default [] (files k !! gz_name name)) k Hsd Hne).
    eapply returns_weaken.
    + apply (do_compress_ok (I := copying src dst name (gz_name name) data (default [] (files k !! gz_name name)) k)
        (pending := copy_pending src data) (content := copy_content dst (gz_name name))); by rewrite ?Hp.
    + cbn. intros r k' [Hc' [->|(-> & code & Hm & Hcode)]]; (split; [done|]); [by left|right].
      rewrite Hct in Hm. rewrite Hp in Hcode. by rewrite Hm.
  - intros src dst k3 Hs Hd. destruct (fs_unlinkat dirfd name k3) as [gone k4] eqn:Eu.
    eapply (returns_step _ _ _ gone k4); [unfold fcall; by rewrite Eu|].
    destruct (dir_unlink _ _ _ _ Eu) as [_ Hf4]. eapply returns_weaken; [by apply close_both|].
    intros r k' [-> Hf']. split; [done|]. rewrite Hf', Hf4. destruct gone; [by right|by left].
Qed.

(** The other files stay as they are. *)
Lemma decompress_file_frame fuel ifuel name data code rest t (k : K) : name <> gz_name name -> codes data code ->
  files k !! gz_name name = Some t -> t `prefix_of` code ++ rest ->
  (length t < fuel)%nat -> (length data < ifuel)%nat ->
  returns (xnd_decompress_ckpt fuel ifuel dirfd name) k (fun r k' =>
    ((r = -1 /\ files k' !! gz_name name = Some t) \/
     (r = 0 /\ exists m, (m `prefix_of` data /\ (code `prefix_of` t -> m = data)) /\
       files k' !! name = Some (m ++ drop (length m) (default [] (files k !! name))))) /\
    forall n, n <> gz_name name -> n <> name -> files k' !! n = files k !! n).
Proof using All.
  intros Hne Hcodes Hf Hpre Hfu Hif. unfold xnd_decompress_ckpt.
  apply (copied_frame (fun src dst => do_decompress fuel ifuel dst src) (gz_name name) name t k
    (fun src dst => fclose src;; fclose dst;; mret 0)
    (fun m => m `prefix_of` data /\ (code `prefix_of` t -> m = data)) (not_eq_sym Hne) Hf).
  - intros src dst k2 Hsd Hc Hp Hct.
    pose proof (copy_pipe src dst (gz_name name) name t (default [] (files k !! name)) k Hsd (not_eq_sym Hne)).
    eapply returns_weaken.
    + apply (do_decompress_ok (I := copying src dst (gz_name name) name t (default [] (files k !! name)) k)
        (pending := copy_pending src t) (content := copy_content dst name) data code rest); by rewrite ?Hp.
    + cbn. intros r k' [Hc' [->|(-> & o & Hm & Ho & Hfull)]]; (split; [done|]); [by left|right].
      rewrite Hct in Hm. rewrite Hp in Hfull. by rewrite Hm.
  - intros src dst k3 Hs Hd. eapply returns_weaken; [by apply close_both|].
    intros r k' [-> Hf']. split; [done|]. by left.
Qed.

Lemma decompress_file_ok fuel ifuel name data code rest t (k : K) : name <> gz_name name -> codes data code ->
  files k !! gz_name name = Some t -> t `prefix_of` code ++ rest ->
  (length t < fuel)%nat -> (length data < ifuel)%nat ->
  returns (xnd_decompress_ckpt fuel ifuel dirfd name) k (fun r k' =>
    (r = -1 /\ files k' !! gz_name name = Some t) \/
    (r = 0 /\ exists m, (m `prefix_of` data /\ (code `prefix_of` t -> m = data)) /\
       files k' !! name = Some (m ++ drop (length m) (default [] (files k !! name))))).
Proof using All.
  intros Hne Hcodes Hf Hpre Hfu Hif. eapply returns_weaken; [by apply (decompress_file_frame fuel ifuel name data code rest t k)|].
  by intros r k' [HR _].
Qed.

(** C14. An image that was compressed, and later decompressed in a directory that
    holds the compressed file and no image, is the image again: each step
    returns, and returns 0 only with its file complete.  When compressing
    returns -1 the image is still there. *)
Theorem compressed_image_restored fuel ifuel name data (k : K) : name <> gz_name name ->
  files k !! name = Some data -> Forall is_byte data ->
  (length data < fuel)%nat -> (deflate_bound (length data) < ifuel)%nat ->
  returns (xnd_compress_ckpt fuel ifuel dirfd name) k (fun r k1 =>
    (r = -1 /\ files k1 !! name = Some data) \/
    (r = 0 /\ exists t, files k1 !! gz_name name = Some t /\
      forall fuel' ifuel' k2, files k2 !! gz_name name = Some t -> files k2 !! name = None ->
        (length t < fuel')%nat -> (length data < ifuel')%nat ->
        returns (xnd_decompress_ckpt fuel' ifuel' dirfd name) k2 (fun r' k3 =>
          r' = -1 \/ r' = 0 /\ files k3 !! name = Some data))).
Proof.
  intros Hne Hf Hb Hfu Hif. eapply returns_weaken; [by apply (compress_file_ok fuel ifuel name data k)|].
  intros r k1 [[-> Hr]|(-> & code & Hcode & Hq)]; [by left|right]. split; [done|]. eexists. split; [exact Hq|].
  intros fuel' ifuel' k2 Hq2 Hn2 Hf2 Hi2. eapply returns_weaken.
  - by apply (decompress_file_ok fuel' ifuel' name data code (drop (length code) (default [] (files k !! gz_name name))) _ k2 Hne Hcode Hq2).
  - cbn. intros r' k3 [[-> _]|(-> & m & [_ Hfull] & Hm)]; [by left|right]. split; [done|].
    rewrite Hm, Hn2. rewrite Hfull by (by apply prefix_app_r). cbn [default from_option]. by rewrite drop_nil, app_nil_r.
Qed.

(** The end of the compressed file counts as success wherever it comes: of a
    file that was cut short, [xnd_decompress_ckpt] makes a beginning of the
    image and returns 0, unless a call fails. *)
Theorem truncated_image_accepted fuel ifuel name data code t (k : K) : name <> gz_name name -> codes data code ->
  files k !! gz_name name = Some t -> t `prefix_of` code -> files k !! name = None ->
  (length t < fuel)%nat -> (length data < ifuel)%nat ->
  returns (xnd_decompress_ckpt fuel ifuel dirfd name) k (fun r k' =>
    r = -1 \/ r = 0 /\ exists m, m `prefix_of` data /\ files k' !! name = Some m).
Proof.
  intros Hne Hcodes Hf Hpre Hn Hfu Hif. eapply returns_weaken.
  - apply (decompress_file_ok fuel ifuel name data code [] t k Hne Hcodes Hf); [by rewrite app_nil_r|done|done].
  - cbn. intros r k' [[-> _]|(-> & m & [Hm _] & Hq)]; [by left|right]. split; [done|]. exists m. split; [done|].
    rewrite Hq, Hn. cbn [default from_option]. by rewrite drop_nil, app_nil_r.
Qed.
End files.
