(* ===== verification/CompressWorld.v ===== *)
(** A codec and a directory, for the witnesses of [CompressProps]. *)

From S2P Require Import Prelude Cstr Bytes Io CkptFile CkptImage Compress CompressProps.
Open Scope Z_scope.

(** ** A codec: the data and an end mark that is no byte *)

Definition mark : Z := 256.
Record dstream := DStream { ds_fed : list Z; ds_out : nat; ds_fin : bool }.
Definition ds_code (z : dstream) : list Z := ds_fed z ++ (if ds_fin z then [mark] else []).
Definition ds_pos (z : dstream) : nat := Nat.min (ds_out z) (length (ds_code z)).
Definition ds_deflate (z : dstream) (inp : list Z) (n : Z) (flush : bool) : zcall dstream :=
  let p := ds_pos z in
  let z := DStream (ds_fed z ++ inp) p (ds_fin z || flush) in
  let o := take (Z.to_nat n) (drop p (ds_code z)) in
  let z := DStream (ds_fed z) (p + length o) (ds_fin z) in
  ZCall (if ds_fin z && (ds_out z =? length (ds_code z))%nat then Z_STREAM_END else Z_OK) (length inp) o z.

(** The data of a code, and how much of an input belongs to it. *)
Fixpoint until (l : list Z) : list Z :=
  match l with [] => [] | x :: l => if x =? mark then [] else x :: until l end.
Fixpoint upto (l : list Z) : nat :=
  match l with [] => 0%nat | x :: l => if x =? mark then 1%nat else S (upto l) end.
Definition ended (l : list Z) : bool := existsb (Z.eqb mark) l.
Record istream := IStream { is_eaten : list Z; is_out : nat }.
Definition is_pos (z : istream) : nat := Nat.min (is_out z) (length (until (is_eaten z))).
Definition is_inflate (z : istream) (inp : list Z) (n : Z) : zcall istream :=
  let p := is_pos z in
  let used := if ended (is_eaten z) then 0%nat else upto inp in
  let eaten := is_eaten z ++ take used inp in
  let o := take (Z.to_nat n) (drop p (until eaten)) in
  ZCall (if ended eaten && (p + length o =? length (until eaten))%nat then Z_STREAM_END else Z_OK) used o
        (IStream eaten (p + length o)).

#[export] Instance mark_zlib : Zlib := {
  deflating := dstream; inflating := istream;
  deflateInit := Some (DStream [] 0 false); inflateInit := Some (IStream [] 0);
  deflate := ds_deflate; inflate := is_inflate;
}.

Lemma upto_le l : (upto l <= length l)%nat.
Proof. induction l as [|x l IH]; [done|]. cbn. destruct (x =? mark); lia. Qed.

Lemma until_app l r : until l `prefix_of` until (l ++ r).
Proof.
  induction l as [|x l IH]; cbn; [apply prefix_nil|]. destruct (x =? mark); [done|]. by apply prefix_cons.
Qed.

Lemma byte_not_mark x : is_byte x -> (x =? mark) = false.
Proof. unfold is_byte, mark. intros. apply Z.eqb_neq. lia. Qed.

Lemma ended_bytes l : Forall is_byte l -> ended l = false.
Proof.
  unfold ended. induction 1 as [|x l Hx _ IH]; [done|]. cbn [existsb]. rewrite Z.eqb_sym, byte_not_mark by done. apply IH.
Qed.
Lemma until_bytes l r : Forall is_byte l -> until (l ++ r) = l ++ until r.
Proof. induction 1 as [|x l Hx _ IH]; [done|]. cbn. by rewrite byte_not_mark, IH. Qed.

(** A prefix of a code is a prefix of the data, or the code. *)
Lemma code_prefix data e : Forall is_byte data -> e `prefix_of` data ++ [mark] ->
  (e `prefix_of` data /\ Forall is_byte e) \/ e = data ++ [mark].
Proof.
  intros Hb [r Hr]. destruct r as [|x r] using rev_ind; [right; by rewrite app_nil_r in Hr|left].
  rewrite app_assoc in Hr. apply app_inj_tail in Hr as [-> _].
  split; [by exists r|]. by apply Forall_app in Hb as [? _].
Qed.

Lemma upto_spec d rest inp : Forall is_byte d -> inp `prefix_of` d ++ mark :: rest ->
  (take (upto inp) inp = inp /\ upto inp = length inp /\ inp `prefix_of` d) \/ take (upto inp) inp = d ++ [mark].
Proof.
  intros Hb. revert inp. induction Hb as [|x d Hx _ IH]; intros inp Hp.
  - destruct inp as [|y inp]; [by left|]. apply prefix_cons_inv_1 in Hp as ->. right. cbn. done.
  - destruct inp as [|y inp]; [left; split_and!; [done..|apply prefix_nil]|].
    cbn in Hp. pose proof (prefix_cons_inv_1 _ _ _ _ Hp) as ->. apply prefix_cons_inv_2 in Hp.
    cbn [upto]. rewrite byte_not_mark by done. cbn [take length].
    destruct (IH inp Hp) as [(-> & -> & Hd)|E]; [left|right].
    + split_and!; [done..|by apply prefix_cons].
    + by rewrite E.
Qed.

Lemma ds_step z inp n flush : 0 < n -> (ds_fin z = true -> inp = [] /\ flush = true) ->
  take (ds_out (z_stream (ds_deflate z inp n flush))) (ds_code (z_stream (ds_deflate z inp n flush)))
    = take (ds_out z) (ds_code z) ++ z_out (ds_deflate z inp n flush).
Proof.
  intros Hn Hfin. unfold ds_deflate. cbn [z_stream z_out ds_out ds_fed ds_fin]. unfold ds_code. cbn [ds_fed ds_fin].
  set (e := (ds_fed z ++ inp) ++ _). set (c := ds_fed z ++ (if ds_fin z then [mark] else [])).
  assert (c `prefix_of` e) as [r He].
  { unfold c, e. destruct (ds_fin z).
    - destruct (Hfin eq_refl) as [-> ->]. by rewrite app_nil_r.
    - rewrite app_nil_r, <- app_assoc. by eexists. }
  assert (take (ds_out z) c = take (ds_pos z) e) as ->.
  { unfold ds_pos, ds_code. fold c. rewrite He. rewrite take_app_le by lia. by rewrite <- take_take, (take_ge c (length c)) by lia. }
  set (p := ds_pos z). set (o := take _ (drop p e)).
  assert (o = take (length o) (drop p e)) as Ho.
  { unfold o. rewrite length_take, <- take_take. by rewrite (take_ge (drop p e) (length _)). }
  rewrite Ho at 2. by rewrite take_take_drop.
Qed.

(** The laws of [ZlibSpec]. *)
Lemma ds_laws z inp n flush c : ds_deflate z inp n flush = c -> 0 < n ->
  (ds_fin z = true -> inp = [] /\ flush = true) -> Forall is_byte (ds_fed z ++ inp) ->
  z_err c <> Z_STREAM_ERROR /\ (z_used c <= length inp)%nat /\ Z.of_nat (length (z_out c)) <= n /\
  ds_fed (z_stream c) = ds_fed z ++ take (z_used c) inp /\
  take (ds_out (z_stream c)) (ds_code (z_stream c)) = take (ds_out z) (ds_code z) ++ z_out c /\
  ds_fin (z_stream c) = ds_fin z || flush /\
  (Z.of_nat (length (z_out c)) < n -> z_used c = length inp /\ (flush = true -> z_err c = Z_STREAM_END)) /\
  (z_err c = Z_STREAM_END ->
    take (ds_out (z_stream c)) (ds_code (z_stream c)) = ds_fed (z_stream c) ++ [mark] /\ Forall is_byte (ds_fed (z_stream c))).
Proof.
  intros <- Hn Hfin Hb. pose proof (ds_step z inp n flush Hn Hfin) as Hs.
  split_and!; try exact Hs; unfold ds_deflate; cbn [z_err z_used z_out z_stream ds_fed ds_fin ds_out].
  - destruct (_ && _); discriminate.
  - done.
  - rewrite length_take. lia.
  - by rewrite take_ge.
  - done.
  - intros Hl. split; [done|]. intros ->. rewrite orb_true_r. cbn [andb].
    rewrite (proj2 (Nat.eqb_eq _ _)); [done|]. rewrite length_take, length_drop in Hl |- *.
    unfold ds_pos, ds_code in *. cbn [ds_fed ds_fin] in *. rewrite orb_true_r in *. rewrite !length_app in *.
    destruct (ds_fin z); cbn [length] in *; lia.
  - destruct (_ && _) eqn:E; [|discriminate]. intros _. apply andb_true_iff in E as [Ef E]. apply Nat.eqb_eq in E.
    split; [|done]. rewrite take_ge by (unfold ds_code in *; cbn [ds_fed ds_fin] in *; lia).
    unfold ds_code. cbn [ds_fed ds_fin]. by rewrite Ef.
Qed.

Lemma is_laws z inp n c data rest : is_inflate z inp n = c -> 0 < n -> Forall is_byte data ->
  is_eaten z ++ inp `prefix_of` (data ++ [mark]) ++ rest -> is_eaten z `prefix_of` data ++ [mark] ->
  z_err c ∈ [Z_OK; Z_STREAM_END; Z_BUF_ERROR] /\ (z_used c <= length inp)%nat /\ Z.of_nat (length (z_out c)) <= n /\
  is_eaten (z_stream c) = is_eaten z ++ take (z_used c) inp /\ is_eaten (z_stream c) `prefix_of` data ++ [mark] /\
  take (is_out (z_stream c)) (until (is_eaten (z_stream c))) = take (is_out z) (until (is_eaten z)) ++ z_out c /\
  until (is_eaten (z_stream c)) `prefix_of` data /\
  (z_err c = Z_STREAM_END -> is_eaten (z_stream c) = data ++ [mark] /\
     take (is_out (z_stream c)) (until (is_eaten (z_stream c))) = data) /\
  (Z.of_nat (length (z_out c)) < n ->
    (z_used c = length inp \/ z_err c = Z_STREAM_END) /\ (is_eaten (z_stream c) = data ++ [mark] -> z_err c = Z_STREAM_END)).
Proof.
  intros <- Hn Hb Hp He. unfold is_inflate. cbn [z_err z_used z_out z_stream is_eaten is_out].
  set (used := if ended (is_eaten z) then 0%nat else upto inp). set (e := is_eaten z ++ take used inp).
  assert (until data = data /\ until (data ++ [mark]) = data) as [Hud Hudm].
  { split; [rewrite <- (app_nil_r data) at 1|]; rewrite until_bytes by done; cbn; by rewrite app_nil_r. }
  assert (ended (data ++ [mark]) = true) as Hendm by (unfold ended; by rewrite existsb_app, orb_true_r).
  assert ((e = data ++ [mark] /\ ended e = true /\ until e = data) \/
          (e `prefix_of` data /\ ended e = false /\ until e = e /\ used = length inp)) as He'.
  { unfold e, used. destruct (code_prefix data (is_eaten z) Hb He) as [[Hd Hdb]|Hd].
    - rewrite (ended_bytes _ Hdb). destruct Hd as [d2 Hd2]. rewrite Hd2, <- !app_assoc in Hp. apply prefix_app_inv in Hp.
      assert (Forall is_byte d2) as Hb2 by (rewrite Hd2 in Hb; by apply Forall_app in Hb as [_ ?]).
      destruct (upto_spec d2 rest inp Hb2 Hp) as [(Ht & Hl & Hpre)|Ht]; rewrite Ht.
      + right. assert (is_eaten z ++ inp `prefix_of` data) as Hx by (rewrite Hd2; by apply prefix_app).
        assert (Forall is_byte (is_eaten z ++ inp)) as Hxb.
        { destruct Hx as [y Hy]. rewrite Hy in Hb. by apply Forall_app in Hb as [? _]. }
        split_and!; [done|by apply ended_bytes| |done]. rewrite <- (app_nil_r (_ ++ inp)) at 1.
        rewrite until_bytes by done. cbn. by rewrite app_nil_r.
      + left. by rewrite app_assoc, <- Hd2.
    - left. rewrite Hd, Hendm. cbn [take]. by rewrite app_nil_r. }
  assert (until (is_eaten z) `prefix_of` until e) as [r Hr] by apply until_app.
  set (p := is_pos z). set (o := take _ (drop p (until e))).
  assert (o = take (length o) (drop p (until e))) as Ho.
  { unfold o. rewrite length_take, <- take_take. by rewrite (take_ge (drop p (until e)) (length _)). }
  assert (take (is_out z) (until (is_eaten z)) = take p (until e)) as Hpos.
  { unfold p, is_pos. rewrite Hr. rewrite take_app_le by lia. by rewrite <- take_take, (take_ge _ (length _)). }
  assert (p <= length (until e))%nat as Hple by (unfold p, is_pos; rewrite Hr, length_app; lia).
  assert (length o = Nat.min (Z.to_nat n) (length (until e) - p)) as Hlo by (unfold o; by rewrite length_take, length_drop).
  split_and!.
  - destruct (_ && _); [by right; left|by left].
  - unfold used. destruct (ended _); [lia|apply upto_le].
  - lia.
  - done.
  - destruct He' as [[-> _]|[? _]]; [done|by apply prefix_app_r].
  - rewrite Hpos. rewrite Ho at 2. by rewrite take_take_drop.
  - destruct He' as [(_ & _ & ->)|(? & _ & -> & _)]; [done|done].
  - destruct (_ && _) eqn:E; [|discriminate]. intros _. apply andb_true_iff in E as [Ef E]. apply Nat.eqb_eq in E.
    destruct He' as [(-> & _ & Hu)|(_ & Hx & _)]; [|congruence]. split; [done|]. rewrite Hu in *. apply take_ge. lia.
  - intros Hl. assert ((p + length o =? length (until e))%nat = true) as -> by (apply Nat.eqb_eq; lia).
    rewrite andb_true_r. destruct He' as [(Hec & -> & _)|(Hx & -> & _ & Hu)]; [by split; [right|]|].
    split; [by left|]. intros E. rewrite E in Hx. apply prefix_length in Hx. rewrite length_app in Hx. cbn in Hx. lia.
Qed.

#[export, refine] Instance mark_spec : ZlibSpec := {
  codes data code := code = data ++ [mark] /\ Forall is_byte data;
  fed := ds_fed; emitted z := take (ds_out z) (ds_code z); finishing := ds_fin;
  deflate_bound := S; eaten := is_eaten; produced z := take (is_out z) (until (is_eaten z));
}.
Proof.
  - by intros [|] code [-> _].
  - by intros z [= <-].
  - intros z inp n flush c. apply ds_laws.
  - intros z _. rewrite length_take. unfold ds_code. rewrite length_app. destruct (ds_fin z); cbn [length]; lia.
  - lia.
  - by intros z [= <-].
  - intros z inp n c data code rest Hc Hn [-> Hb] Hp He Hpr.
    destruct (is_laws z inp n c data rest Hc Hn Hb Hp He) as (H1 & H2 & H3 & H4 & H5 & H6 & H7 & H8 & H9).
    split_and!; try done. etrans; [apply prefix_take|done].
Defined.

(** ** A directory *)

Record zdir := ZDir { z_files : gmap cstr (list Z); z_fds : gmap Z (cstr * nat) }.
Definition zdir_open (name : cstr) (d : zdir) (files : gmap cstr (list Z)) : Z * zdir :=
  let r := Z.of_nat (size (z_fds d)) in
  match z_fds d !! r with
  | Some _ => (-1, d)
  | None => (r, ZDir files (<[r := (name, 0%nat)]> (z_fds d)))
  end.

#[export] Instance zdir_io : IoSys zdir := {
  sys_read fd n d :=
    match z_fds d !! fd with
    | Some (name, off) =>
      let l := take (Z.to_nat n) (drop off (default [] (z_files d !! name))) in
      (Some l, ZDir (z_files d) (<[fd := (name, (off + length l)%nat)]> (z_fds d)))
    | None => (None, d)
    end;
  read_waits _ _ _ := false;
  sys_write fd buf d :=
    match z_fds d !! fd with
    | Some (name, off) =>
      let l := default [] (z_files d !! name) in
      (Z.of_nat (length buf), ZDir (<[name := take off l ++ buf ++ drop (off + length buf) l]> (z_files d))
                                   (<[fd := (name, (off + length buf)%nat)]> (z_fds d)))
    | None => (-1, d)
    end;
}.
#[export] Instance zdir_fd : FdSys zdir := {
  fd_getfl _ d := (0, d);
  fd_dup2 _ new d := (new, d);
  fd_close fd d := ZDir (z_files d) (delete fd (z_fds d));
}.
#[export] Instance zdir_fs : FsSys zdir := {
  fs_access _ d := (true, d); fs_mkdir _ d := (true, d); fs_open_dir _ d := (5, d); fs_open_rd _ d := (-1, d);
  fs_mkdirat _ _ d := (true, d); fs_openat_excl _ _ d := (-1, d);
  fs_openat_rd _ name d := match z_files d !! name with Some _ => zdir_open name d (z_files d) | None => (-1, d) end;
  fs_faccessat _ name d := (bool_decide (is_Some (z_files d !! name)), d);
  fs_unlinkat _ name d := (true, ZDir (delete name (z_files d)) (z_fds d));
  fs_unlinkat_dir _ _ d := (true, d); fs_opendir _ d := (Some [], d); fs_closedir d := d; fs_unlink _ d := (true, d);
}.
#[export] Instance zdir_creat : CreatSys zdir := {
  fs_openat_creat _ name d := zdir_open name d (<[name := default [] (z_files d !! name)]> (z_files d));
}.

#[export] Instance zdir_laws : DirFs zdir 5 z_files z_fds.
Proof.
  constructor.
  - intros name d r d'. cbn. unfold zdir_open. destruct (z_files d !! name) eqn:Ef; [|naive_solver].
    destruct (z_fds d !! Z.of_nat _) eqn:E; intros [= <- <-]; [naive_solver|].
    split; [done|]. right. cbn. split_and!; [lia|done..].
  - intros name d r d'. cbn. unfold zdir_open.
    destruct (z_fds d !! Z.of_nat _) eqn:E; intros [= <- <-]; [by left|]. right. cbn. split_and!; [lia|done..].
  - intros fd n d r d' name off l. cbn. intros E Hn Hfd Hf. rewrite Hfd, Hf in E. cbn in E. injection E as <- <-.
    split; [done|]. rewrite length_take. split_and!; [|lia| |by cbn].
    + rewrite <- take_take. by rewrite (take_ge (drop off l) (length _)).
    + intros Hx. apply (f_equal length) in Hx. rewrite length_take in Hx. apply length_zero_iff_nil. cbn in Hx. lia.
  - done.
  - intros fd buf d r d' name off l. cbn. intros E Hfd Hf. rewrite Hfd, Hf in E. cbn in E. injection E as <- <-.
    right. cbn. rewrite Nat2Z.id, (take_ge buf) by lia. split_and!; try done; [lia|].
    destruct buf; [done|cbn; lia].
  - by intros name d r d' [= <- <-].
  - done.
Qed.

Definition image_name : cstr := cs "ckpt-7.xnd".
Definition image_dir : zdir := ZDir {[image_name := [1; 2; 3; 255]]} ∅.

Lemma compressed_image_restored_witness :
  returns (xnd_compress_ckpt 10 10 5 image_name) image_dir (fun r k1 =>
    (r = -1 /\ z_files k1 !! image_name = Some [1; 2; 3; 255]) \/
    (r = 0 /\ exists t, z_files k1 !! gz_name image_name = Some t /\
      forall fuel' ifuel' k2, z_files k2 !! gz_name image_name = Some t -> z_files k2 !! image_name = None ->
        (length t < fuel')%nat -> (length [1; 2; 3; 255] < ifuel')%nat ->
        returns (xnd_decompress_ckpt fuel' ifuel' 5 image_name) k2 (fun r' k3 =>
          r' = -1 \/ r' = 0 /\ z_files k3 !! image_name = Some [1; 2; 3; 255]))).
Proof.
  apply (compressed_image_restored (files := z_files) (fds := z_fds) 10 10 image_name [1; 2; 3; 255] image_dir);
    [discriminate|reflexivity| |cbn; lia|cbn; lia].
  repeat constructor; unfold is_byte; lia.
Defined.

Definition cut_dir : zdir := ZDir {[gz_name image_name := [1; 2]]} ∅.
Lemma truncated_image_accepted_witness :
  returns (xnd_decompress_ckpt 10 10 5 image_name) cut_dir (fun r k' =>
    r = -1 \/ r = 0 /\ exists m, m `prefix_of` [1; 2; 3; 255] /\ z_files k' !! image_name = Some m).
Proof.
  apply (truncated_image_accepted (files := z_files) (fds := z_fds) 10 10 image_name [1; 2; 3; 255]
    [1; 2; 3; 255; 256] [1; 2] cut_dir); [discriminate| |reflexivity| |reflexivity|cbn; lia|cbn; lia].
  - split; [reflexivity|]. repeat constructor; unfold is_byte; lia.
  - by exists [3; 255; 256].
Defined.

(** Both run: the image comes back, and half an image is accepted. *)
Example image_comes_back :
  match xnd_compress_ckpt 10 10 5 image_name image_dir with
  | Ret 0 k1 => match xnd_decompress_ckpt 10 10 5 image_name k1 with
                | Ret 0 k3 => z_files k3 !! image_name = Some [1; 2; 3; 255]
                | _ => False
                end
  | _ => False
  end.
Proof. vm_compute. reflexivity. Qed.
Example half_image_accepted :
  match xnd_decompress_ckpt 10 10 5 image_name cut_dir with
  | Ret 0 k3 => z_files k3 !! image_name = Some [1; 2]
  | _ => False
  end.
Proof. vm_compute. reflexivity. Qed.
