(* ===== verification/Print.v ===== *)
(** The image printer: [xnd/xnd_print.c].

    What the program prints is the list [q_out] of its lines, each with the
    values it shows: the text around the values, the lines without values and
    the sizes in larger units are left out, and so is the output of
    [xnd_error]. *)

From S2P Require Import Prelude Cstr Path Bytes Io CkptFile VmRegion CkptImage Compress.
From Stdlib Require Import Ascii.
Open Scope Z_scope.

Definition XND_EXIT_SUCCESS : Z := 0.
Definition XND_EXIT_FAILURE : Z := 222.
Definition EXIT_FAILURE : Z := 1.

(** [mach/vm_inherit.h], [mach/vm_region.h], [mach/vm_statistics.h] *)
Definition VM_INHERIT_SHARE : Z := 0.
Definition VM_INHERIT_DONATE_COPY : Z := 3.
Definition SM_COW : Z := 1.
Definition SM_PRIVATE : Z := 2.
Definition SM_EMPTY : Z := 3.
Definition SM_SHARED : Z := 4.
Definition SM_TRUESHARED : Z := 5.
Definition SM_PRIVATE_ALIASED : Z := 6.
Definition SM_SHARED_ALIASED : Z := 7.
Definition SM_LARGE_PAGE : Z := 8.
Definition VM_MEMORY_SBRK : Z := 5.
Definition VM_MEMORY_LIBDISPATCH : Z := 74.

(** [strstr]: where [needle] first is in [hay]. *)
Fixpoint strstr (hay needle : cstr) : option nat :=
  if bool_decide (take (length needle) hay = needle) then Some 0%nat else
  match hay with
  | [] => None
  | _ :: hay => S <$> strstr hay needle
  end.
Definition contains (hay needle : cstr) : bool := bool_decide (is_Some (strstr hay needle)).

(** ** Arguments and options *)

Definition ARG_IS_CKPT (arg : cstr) : bool := contains arg (cs ".xnd").
Definition ARG_IS_COMPRESSED_CKPT (arg : cstr) : bool := contains arg (cs XND_COMPRESSED_SUFFIX).
(** The comparisons take in the terminating NUL. *)
Definition ARG_IS_ALL (arg : cstr) : bool := bool_decide (arg = cs "-a") || bool_decide (arg = cs "--all").
Definition ARG_IS_REGIONS (arg : cstr) : bool := bool_decide (arg = cs "--regions").
Definition ARG_IS_REGION_INFO (arg : cstr) : bool := bool_decide (arg = cs "--region-info").
Definition ARG_IS_PRINT_CONTEXT (arg : cstr) : bool := bool_decide (arg = cs "--print-context").

Record print_options := POpts {
  PRINT_USER_CONTEXT : bool; PRINT_TEXT_REGIONS : bool; PRINT_DATA_REGIONS : bool;
  PRINT_HEAP_REGIONS : bool; PRINT_STACK_REGIONS : bool; PRINT_OTHER_REGIONS : bool
}.
Record vm_info_options := IOpts {
  REGION_START : bool; REGION_END : bool; REGION_SIZE : bool; REGION_PROTECTION : bool;
  REGION_SHARE_MODE : bool; REGION_USER_TAG : bool; REGION_INHERITANCE : bool
}.
Definition set_each_print_option (b : bool) : print_options := POpts b b b b b b.
Definition set_each_region_option (b : bool) (o : print_options) : print_options := POpts (PRINT_USER_CONTEXT o) b b b b b.
Definition set_each_vm_info_option (b : bool) : vm_info_options := IOpts b b b b b b b.

(** Nothing turns the other regions on, and nothing the tag. *)
Definition parse_region_options (options : cstr) (o : print_options) : print_options :=
  if contains options (cs "all") then set_each_region_option true o else
  POpts (PRINT_USER_CONTEXT o) (contains options (cs "text")) (contains options (cs "data"))
        (contains options (cs "heap")) (contains options (cs "stack")) false.
Definition parse_region_info_options (options : cstr) : vm_info_options :=
  if contains options (cs "all") then set_each_vm_info_option true else
  IOpts (contains options (cs "start")) (contains options (cs "end")) (contains options (cs "size"))
        (contains options (cs "prot")) (contains options (cs "mode")) false (contains options (cs "inherit")).

(** ** Names of attributes *)

Definition VM_PROT_STRING (p : Z) : cstr :=
  if p =? VM_PROT_NONE then cs "---"
  else if p =? VM_PROT_READ then cs "r--"
  else if p =? VM_PROT_WRITE then cs "-w-"
  else if p =? VM_PROT_EXECUTE then cs "--x"
  else if p =? Z.lor VM_PROT_READ VM_PROT_WRITE then cs "rw-"
  else if p =? Z.lor VM_PROT_READ VM_PROT_EXECUTE then cs "r-x"
  else if p =? Z.lor VM_PROT_WRITE VM_PROT_EXECUTE then cs "-wx"
  else if p =? VM_PROT_ALL then cs "rwx" else cs "???".

(** [None] is the trap. *)
Definition vm_inherit_string (r : xnd_vm_region) : option cstr :=
  if inherit r =? VM_INHERIT_SHARE then Some (cs "VM_INHERIT_SHARE")
  else if inherit r =? VM_INHERIT_COPY then Some (cs "VM_INHERIT_COPY")
  else if inherit r =? VM_INHERIT_NONE then Some (cs "VM_INHERIT_NONE")
  else if inherit r =? VM_INHERIT_DONATE_COPY then Some (cs "VM_INHERIT_DONATE_COPY") else None.
Definition vm_share_mode_string (r : xnd_vm_region) : option cstr :=
  if mode r =? SM_COW then Some (cs "SM_COW")
  else if mode r =? SM_PRIVATE then Some (cs "SM_PRIVATE")
  else if mode r =? SM_EMPTY then Some (cs "SM_EMPTY")
  else if mode r =? SM_SHARED then Some (cs "SM_SHARED")
  else if mode r =? SM_TRUESHARED then Some (cs "SM_TRUESHARED")
  else if mode r =? SM_PRIVATE_ALIASED then Some (cs "SM_PRIVATE_ALIASED")
  else if mode r =? SM_SHARED_ALIASED then Some (cs "SM_SHARED_ALIASED")
  else if mode r =? SM_LARGE_PAGE then Some (cs "SM_LARGE_PAGE") else None.
Definition tag_names : list (Z * string) :=
  [(VM_MEMORY_MALLOC, "VM_MEMORY_MALLOC"); (VM_MEMORY_MALLOC_SMALL, "VM_MEMORY_MALLOC_SMALL");
   (VM_MEMORY_MALLOC_LARGE, "VM_MEMORY_MALLOC_LARGE"); (VM_MEMORY_MALLOC_HUGE, "VM_MEMORY_MALLOC_HUGE");
   (VM_MEMORY_SBRK, "VM_MEMORY_SBRK"); (VM_MEMORY_REALLOC, "VM_MEMORY_REALLOC");
   (VM_MEMORY_MALLOC_TINY, "VM_MEMORY_MALLOC_TINY");
   (VM_MEMORY_MALLOC_LARGE_REUSABLE, "VM_MEMORY_MALLOC_LARGE_REUSABLE");
   (VM_MEMORY_MALLOC_LARGE_REUSED, "VM_MEMORY_MALLOC_LARGE_REUSED"); (VM_MEMORY_MALLOC_NANO, "VM_MEMORY_MALLOC_NANO");
   (VM_MEMORY_MALLOC_MEDIUM, "VM_MEMORY_MALLOC_MEDIUM"); (VM_MEMORY_MALLOC_PROB_GUARD, "VM_MEMORY_MALLOC_PROB_GUARD");
   (VM_MEMORY_STACK, "VM_MEMORY_STACK"); (VM_MEMORY_GUARD, "VM_MEMORY_GUARD");
   (VM_MEMORY_SHARED_PMAP, "VM_MEMORY_SHARED_PMAP"); (VM_MEMORY_DYLIB, "VM_MEMORY_DYLIB");
   (VM_MEMORY_DYLD, "VM_MEMORY_DYLD"); (VM_MEMORY_DYLD_MALLOC, "VM_MEMORY_DYLD_MALLOC");
   (VM_MEMORY_LIBDISPATCH, "VM_MEMORY_LIBDISPATCH"); (VM_MEMORY_RESTART_STACK, "VM_MEMORY_RESTART_STACK")]%string.
Definition vm_user_tag_string (r : xnd_vm_region) : cstr :=
  match List.find (fun x => tag r =? x.1) tag_names with Some (_, s) => cs s | None => cs "NIL" end.

Definition heap_tags : list Z :=
  [VM_MEMORY_MALLOC; VM_MEMORY_MALLOC_SMALL; VM_MEMORY_MALLOC_LARGE; VM_MEMORY_MALLOC_HUGE; VM_MEMORY_MALLOC_TINY;
   VM_MEMORY_MALLOC_LARGE_REUSABLE; VM_MEMORY_MALLOC_LARGE_REUSED; VM_MEMORY_MALLOC_NANO; VM_MEMORY_MALLOC_MEDIUM;
   VM_MEMORY_MALLOC_PROB_GUARD].
Definition other_tags : list Z :=
  [VM_MEMORY_SBRK; VM_MEMORY_REALLOC; VM_MEMORY_GUARD; VM_MEMORY_SHARED_PMAP; VM_MEMORY_DYLIB; VM_MEMORY_DYLD;
   VM_MEMORY_DYLD_MALLOC; VM_MEMORY_LIBDISPATCH].
Definition skip_vm_region (o : print_options) (r : xnd_vm_region) : bool :=
  if prot r =? VM_PROT_NONE then negb (PRINT_OTHER_REGIONS o)
  else if bool_decide (tag r ∈ heap_tags) then negb (PRINT_HEAP_REGIONS o)
  else if tag r =? VM_MEMORY_STACK then negb (PRINT_STACK_REGIONS o)
  else if bool_decide (tag r ∈ other_tags) then negb (PRINT_OTHER_REGIONS o)
  else if mode r =? SM_EMPTY then negb (PRINT_OTHER_REGIONS o)
  else if prot r =? Z.lor VM_PROT_EXECUTE VM_PROT_READ then negb (PRINT_TEXT_REGIONS o)
  else if (mode r =? SM_COW) || (mode r =? SM_PRIVATE) then negb (PRINT_DATA_REGIONS o)
  else negb (PRINT_OTHER_REGIONS o).

(** ** The program *)

Inductive print_line :=
  | PUsage
  | PHeader (magic : list Z) (numbers : list Z) (root : bool) (cache_start cache_end cache_size : Z) (uuid : cstr)
  | PTotal (nbyte : Z)
  | PRegion (i : Z) | PStart (v : Z) | PEnd (v : Z) | PSize (v : Z) | PProt (now max : cstr)
  | PMode (s : cstr) | PTag (s : cstr) | PInherit (s : cstr) | PDirty (n : Z) | PBytes (n : Z)
  | PX (i v : Z) | PD (i v : Z) | PFp (v : Z) | PLr (v : Z) | PSp (v : Z).

Class SeekSys (K : Type) := {
  (** [lseek(fd, off, SEEK_CUR)] *)
  lseek_by : Z -> Z -> K -> Z * K;
}.
(** [sizeof(ucontext_t)], and the registers of one: [__x[i]], the low half of
    [__v[i]], and the three [xnd/pac.h] reads. *)
Class UctxLayout := {
  sizeof_ucontext : Z;
  uctx_x : list Z -> Z -> Z;
  uctx_v : list Z -> Z -> Z;
  get_mcontext_fp : list Z -> Z;
  get_mcontext_lr : list Z -> Z;
  get_mcontext_sp : list Z -> Z;
}.

Record printer (K : Type) := Printer {
  q_out : list print_line; q_print : print_options; q_info : vm_info_options; q_k : K
}.
Arguments Printer {K}.
Arguments q_out {K}.
Arguments q_print {K}.
Arguments q_info {K}.
Arguments q_k {K}.

Section print.
Context `{VmParams, UuidLib, UctxLayout, Zlib} {K : Type} `{IoSys K, FdSys K, FsSys K, CreatSys K, SeekSys K}.
Abbreviation Q := (M (printer K)).

Definition put_qk (k : K) (s : printer K) : printer K := Printer (q_out s) (q_print s) (q_info s) k.
Definition say (l : print_line) (s : printer K) : printer K := Printer (q_out s ++ [l]) (q_print s) (q_info s) (q_k s).
Definition emit (l : print_line) : Q unit := modify (say l).
Definition on_io {A} (m : M K A) : Q A := fun s =>
  match m (q_k s) with
  | Ret a k => Ret a (put_qk k s)
  | Exit c k => Exit c (put_qk k s)
  | Abort k => Abort (put_qk k s)
  | Ub => Ub
  | NoFuel => NoFuel
  end.

(** *** Reading *)

Record ckpt_read := CkptRead { r_regions : list xnd_vm_region; r_uctx : option (list Z) }.

(** What follows a region in the image, as the printer has it. *)
Definition region_skip (r : xnd_vm_region) : Z :=
  if ONLY_RESTORE_DIRTY_PAGES r then (sizeof_page + VM_PAGE_SIZE) * pages_dirtied r else s64 (size r).
(** [todo] entries remain; [nr] is the length of the array of regions, and
    storing past it is out of bounds.  [readall] never returns a negative
    number, so an entry that is not all there is used as it is.  [None] is the
    label [bad]. *)
Fixpoint read_loop (todo : nat) (fd nr : Z) (acc : ckpt_read) : M K (option ckpt_read) :=
  match todo with
  | O => mret (Some acc)
  | S todo =>
    data ← readall fd sizeof_entry;
    if negb (Z.of_nat (length data) =? sizeof_entry) then ub else
    let e := fst (field_u 4 data) in
    if e =? entry_code XND_VM_REGION_ENTRY then
      if nr <=? Z.of_nat (length (r_regions acc)) then ub else
      data ← readall fd sizeof_region;
      if negb (Z.of_nat (length data) =? sizeof_region) then mret None else
      let r := region_of_bytes data in
      off ← kcall (lseek_by fd (region_skip r));
      xnd_assert (negb (off =? -1));;
      read_loop todo fd nr (CkptRead (r_regions acc ++ [r]) (r_uctx acc))
    else if e =? entry_code XND_UCONTEXT_ENTRY then
      data ← readall fd sizeof_ucontext;
      if negb (Z.of_nat (length data) =? sizeof_ucontext) then mret None else
      read_loop todo fd nr (CkptRead (r_regions acc) (Some data))
    else abort
  end.
Definition read_ckpt (fd : Z) (h : xnd_ckpt_header) : M K (option ckpt_read) :=
  r ← read_loop (Z.to_nat (h_entry_count h)) fd (h_region_count h) (CkptRead [] None);
  fclose fd;;
  mret r.

(** *** Printing *)

(** [%s] of the first field: the bytes up to a zero. *)
Fixpoint nonzero_prefix (l : list Z) : list Z :=
  match l with [] => [] | b :: l => if b =? 0 then [] else b :: nonzero_prefix l end.
Definition print_ckpt_header (h : xnd_ckpt_header) : Q unit :=
  let c := h_shared_cache_info h in
  emit (PHeader (nonzero_prefix (header_bytes h))
    [h_xnd_pid h; h_xnd_ppid h; h_xnd_pgid h; h_pid h; h_ppid h; h_pgid h; h_sid h; h_task_self h; h_host_self h;
     h_num_peers h; h_entry_count h; h_region_count h]
    (negb (h_is_root_of_tree h =? 0)) (sc_base c) (u64 (sc_base c + sc_size c)) (sc_size c) (uuid_unparse (sc_uuid c))).

(** The bytes a region takes in the image. *)
Definition region_total (r : xnd_vm_region) : Z :=
  if ONLY_RESTORE_DIRTY_PAGES r then u64 ((sizeof_page + VM_PAGE_SIZE) * pages_dirtied r + sizeof_region)
  else u64 (sizeof_region + size r).
Definition all_bytes (rs : list xnd_vm_region) : Z := foldl (fun n r => u64 (n + region_total r)) 0 rs.

Definition emit_if (b : bool) (l : print_line) : Q unit := if b then emit l else mret tt.
(** A name, or the trap. *)
Definition emit_name (b : bool) (name : option cstr) (l : cstr -> print_line) : Q unit :=
  if b then match name with Some s => emit (l s) | None => abort end else mret tt.
Definition print_region (i : Z) (r : xnd_vm_region) : Q unit :=
  o ← gets q_info;
  emit (PRegion i);;
  emit_if (REGION_START o) (PStart (start r));;
  emit_if (REGION_END o) (PEnd (u64 (start r + size r)));;
  emit_if (REGION_SIZE o) (PSize (size r));;
  emit_if (REGION_PROTECTION o) (PProt (VM_PROT_STRING (prot r)) (VM_PROT_STRING (max_prot r)));;
  emit_name (REGION_SHARE_MODE o) (vm_share_mode_string r) PMode;;
  emit_if (REGION_USER_TAG o) (PTag (vm_user_tag_string r));;
  emit_name (REGION_INHERITANCE o) (vm_inherit_string r) PInherit;;
  emit (PDirty (pages_dirtied r));;
  emit (PBytes (region_total r)).
Fixpoint print_each (i : Z) (rs : list xnd_vm_region) : Q unit :=
  match rs with
  | [] => mret tt
  | r :: rs =>
    o ← gets q_print;
    (if skip_vm_region o r then mret tt else print_region i r);;
    print_each (i + 1) rs
  end.
Definition print_vm_regions (rs : list xnd_vm_region) : Q unit :=
  emit (PTotal (all_bytes rs));;
  print_each 0 rs.

Fixpoint print_regs (line : Z -> Z -> print_line) (reg : Z -> Z) (l : list Z) : Q unit :=
  match l with [] => mret tt | i :: l => emit (line i (reg i));; print_regs line reg l end.
Definition print_user_context (uctx : list Z) : Q unit :=
  print_regs PX (uctx_x uctx) (seqZ 19 10);;
  print_regs PD (uctx_v uctx) (seqZ 8 8);;
  emit (PFp (get_mcontext_fp uctx));;
  emit (PLr (get_mcontext_lr uctx));;
  emit (PSp (get_mcontext_sp uctx)).

(** A header that is not all there, regions beyond those read and a context
    that was not read are uninitialised. *)
Definition print_checkpoint (fd : Z) : Q unit :=
  data ← on_io (readall fd sizeof_header);
  if negb (Z.of_nat (length data) =? sizeof_header) then ub else
  let h := header_of_bytes data in
  print_ckpt_header h;;
  r ← on_io (read_ckpt fd h);
  match r with
  | None => exit_with EXIT_FAILURE
  | Some r =>
    if negb (Z.of_nat (length (r_regions r)) =? h_region_count h) then ub else
    print_vm_regions (r_regions r);;
    o ← gets q_print;
    if PRINT_USER_CONTEXT o then match r_uctx r with Some u => print_user_context u | None => ub end else mret tt
  end.

(** *** [main] *)

Definition set_print (o : print_options) (s : printer K) : printer K := Printer (q_out s) o (q_info s) (q_k s).
Definition set_info (o : vm_info_options) (s : printer K) : printer K := Printer (q_out s) (q_print s) o (q_k s).
(** [argv[0] + len] *)
Definition arg_from (arg : cstr) (len : Z) : option cstr :=
  if len <=? strlen arg then Some (drop (Z.to_nat len) arg) else None.
(** [sizeof] counts the terminating NUL. *)
Definition sizeof_lit (s : string) : Z := strlen (cs s) + 1.

(** The loop: [ckpt], and whether the image is compressed.  Without an image
    among the arguments [ckpt] is empty. *)
Fixpoint print_args (args : list cstr) : Q (cstr * bool) :=
  match args with
  | [] => mret ([], false)
  | arg :: args =>
    if ARG_IS_CKPT arg then
      if PATH_MAX <=? strlen arg then ub else
      match strstr arg (cs XND_COMPRESSED_SUFFIX) with
      | Some i => mret (take i arg, true)
      | None => mret (arg, false)
      end
    else if ARG_IS_ALL arg then
      modify (set_print (set_each_print_option true));;
      modify (set_info (set_each_vm_info_option true));;
      print_args args
    else if ARG_IS_REGIONS arg then
      options ← deref (arg_from arg (sizeof_lit "--regions"));
      modify (fun s => set_print (parse_region_options options (q_print s)) s);;
      print_args args
    else if ARG_IS_REGION_INFO arg then
      options ← deref (arg_from arg (sizeof_lit "--region-info"));
      modify (set_info (parse_region_info_options options));;
      print_args args
    else if ARG_IS_PRINT_CONTEXT arg then
      modify (fun s => set_print (POpts (contains arg (cs "true")) (PRINT_TEXT_REGIONS (q_print s)) (PRINT_DATA_REGIONS (q_print s))
        (PRINT_HEAP_REGIONS (q_print s)) (PRINT_STACK_REGIONS (q_print s)) (PRINT_OTHER_REGIONS (q_print s))) s);;
      print_args args
    else emit PUsage;; exit_with XND_EXIT_SUCCESS
  end.

(** The label [bad] *)
Definition print_bad {A} (fd dirfd : Z) : Q A :=
  on_io (close_unless fd);; on_io (close_unless dirfd);; exit_with XND_EXIT_FAILURE.
Definition initial_options : print_options := set_each_print_option true.
Definition initial_info : vm_info_options := set_each_vm_info_option true.

(** [args] are those after the program's name; [junk] is what [dir] holds. *)
Definition print_main (fuel ifuel : nat) (junk : cstr) (args : list cstr) : Q unit :=
  if bool_decide (args = []) then emit PUsage;; exit_with 0 else
  '(ckpt, compressed) ← print_args args;
  let read dirfd :=
    there ← on_io (fcall (fs_access ckpt));
    xnd_assert there;;
    fd ← on_io (fcall (fs_open_rd ckpt));
    if fd <? 0 then print_bad fd dirfd else
    print_checkpoint fd;;
    exit_with XND_EXIT_SUCCESS in
  if (compressed : bool) then
    match xnd_path_dirname false PATH_MAX ckpt junk with
    | Ret _ dir =>
      dirfd ← on_io (fcall (fs_open_dir dir));
      if dirfd <? 0 then print_bad (-1) dirfd else
      err ← on_io (xnd_decompress_ckpt fuel ifuel dirfd ckpt);
      if negb (err =? 0) then print_bad (-1) dirfd else read dirfd
    | _ => ub
    end
  else read (-1).
End print.
