(* ===== verification/PrintProps.v ===== *)
(** The listing [Print] gives of an image: that of the header, regions and
    context the checkpoint wrote, unless a region whose dirty pages could have
    been saved alone was saved whole.

    A process with regions whose attributes have names is the witness. *)

From S2P Require Import Prelude Cstr Path Bytes Io Env Process CkptFile VmRegion CkptImage CkptStore CkptSpec CkptWrite CkptRead CkptProps.
From S2P Require Import Compress Print.
From Stdlib Require Import Ascii.
Open Scope Z_scope.

(** ** An open file *)

(** What the descriptor [fd] reads, and where it stands. *)
Class ImageFile (K : Type) `{IoSys K, SeekSys K} (fd : Z) (content : K -> list Z) (pos : K -> Z) := {
  img_read : forall n k d k', sys_read fd n k = (d, k') -> 0 < n -> 0 <= pos k -> exists data, d = Some data /\
    Z.of_nat (length data) <= n /\ data = take (length data) (drop (Z.to_nat (pos k)) (content k)) /\
    (data = [] -> drop (Z.to_nat (pos k)) (content k) = []) /\
    content k' = content k /\ pos k' = pos k + Z.of_nat (length data);
  img_answers : forall n k, read_waits fd n k = false;
  img_seek : forall off k r k', lseek_by fd off k = (r, k') -> 0 <= pos k + off ->
    r = pos k + off /\ content k' = content k /\ pos k' = pos k + off
}.

Section file.
Context {K : Type} `{!IoSys K, !SeekSys K} (fd : Z) (content : K -> list Z) (pos : K -> Z) `{!ImageFile K fd content pos}.

Definition rest (k : K) : list Z := drop (Z.to_nat (pos k)) (content k).
Record moved (n : Z) (k k' : K) : Prop := { mv_content : content k' = content k; mv_pos : pos k' = pos k + n }.

Lemma moved_rest n k k' bs tl : moved n k k' -> 0 <= pos k -> n = Z.of_nat (length bs) -> rest k = bs ++ tl -> rest k' = tl.
Proof.
  intros [Hc Hp] Hz0 -> Hr. unfold rest in *. rewrite Hc, Hp, Z2Nat.inj_add, Nat2Z.id by lia.
  rewrite <- drop_drop, Hr. apply drop_app_length.
Qed.
Lemma moved_trans n m k1 k2 k3 : moved n k1 k2 -> moved m k2 k3 -> moved (n + m) k1 k3.
Proof. intros [H1 H2] [H3 H4]. split; [congruence|lia]. Qed.

Lemma readall_loop_exact fuel n buf bs tl k : 0 <= pos k -> rest k = bs ++ tl -> 0 < Z.of_nat (length bs) ->
  n = Z.of_nat (length buf) + Z.of_nat (length bs) -> (length bs < fuel)%nat ->
  returns (readall_loop fuel fd n buf) k (fun d k' => d = buf ++ bs /\ moved (Z.of_nat (length bs)) k k').
Proof using Type*.
  revert buf bs k. induction fuel as [|fuel IH]; intros buf bs k Hz0 Hk Hbs Hn Hf; [lia|].
  unfold returns. cbn [readall_loop]. rewrite read_call_eq by apply img_answers.
  destruct (sys_read fd (n - Z.of_nat (length buf)) k) as [d k1] eqn:E.
  destruct (img_read _ _ _ _ E ltac:(lia) Hz0) as (data & -> & Hl & Hd & Hnil & Hc & Hp). fold (rest k) in Hd, Hnil.
  rewrite Hk in Hd, Hnil. destruct data as [|x data].
  { specialize (Hnil eq_refl). destruct bs; [cbn in Hbs; lia|done]. }
  set (dd := x :: data) in *. assert (length dd <= length bs)%nat as Hle by lia.
  rewrite take_app_le in Hd by done. rewrite length_app.
  destruct (Z.ltb_spec (Z.of_nat (length buf + length dd)) n) as [Hlt|Hge].
  - assert (rest k1 = drop (length dd) bs ++ tl) as Hk1.
    { eapply (moved_rest (Z.of_nat (length dd)) k k1 dd); [by split|done|done|]. rewrite Hk, app_assoc. f_equal.
      rewrite Hd at 1. by rewrite take_drop. }
    pose proof (IH (buf ++ dd) (drop (length dd) bs) k1 ltac:(lia) Hk1) as Hi. rewrite !length_app, !length_drop in Hi.
    assert (0 < length dd)%nat by (cbn; lia).
    apply returns_inv in Hi as (d & k' & -> & -> & Hm); [|lia|lia|lia].
    split.
    + rewrite <- app_assoc. f_equal. rewrite Hd at 1. apply take_drop.
    + replace (Z.of_nat (length bs)) with (Z.of_nat (length dd) + Z.of_nat (length bs - length dd)) by lia.
      eapply moved_trans; [|exact Hm]. by split.
  - assert (length dd = length bs) as Hll by lia. split.
    + f_equal. rewrite Hd, Hll. by rewrite take_ge.
    + rewrite <- Hll. by split.
Qed.
Lemma readall_exact n bs tl k : 0 <= pos k -> rest k = bs ++ tl -> n = Z.of_nat (length bs) -> 0 < n ->
  returns (readall fd n) k (fun d k' => d = bs /\ moved n k k' /\ rest k' = tl).
Proof using Type*.
  intros Hz0 Hk -> Hn. eapply returns_weaken; [apply (readall_loop_exact _ _ [] bs tl k Hz0 Hk); cbn; lia|].
  intros d k' [-> Hm]. split; [done|]. split; [done|]. by eapply moved_rest.
Qed.
(** At the end of the file nothing is read. *)
Lemma readall_end n k : 0 <= pos k -> rest k = [] -> 0 < n -> returns (readall fd n) k (fun d k' => d = []).
Proof using Type*.
  intros Hz0 Hk Hn. unfold readall, returns. cbn [readall_loop]. rewrite Z.sub_0_r, read_call_eq by apply img_answers.
  destruct (sys_read fd n k) as [d k1] eqn:E.
  destruct (img_read _ _ _ _ E Hn Hz0) as (data & -> & Hl & Hd & _). fold (rest k) in Hd. rewrite Hk, take_nil in Hd. by subst data.
Qed.
End file.

(** ** Images as lists of items *)

Inductive item := IRegion (r : xnd_vm_region) (contents : list Z) | IContext (uctx : list Z).
Definition item_bytes (i : item) : list Z :=
  match i with
  | IRegion r c => le_bytes 4 (entry_code XND_VM_REGION_ENTRY) ++ region_bytes r ++ c
  | IContext u => le_bytes 4 (entry_code XND_UCONTEXT_ENTRY) ++ u
  end.
Definition items_bytes (l : list item) : list Z := concat (item_bytes <$> l).
Fixpoint regions_of (l : list item) : list xnd_vm_region :=
  match l with [] => [] | IRegion r _ :: l => r :: regions_of l | IContext _ :: l => regions_of l end.
(** The last context, [u] if there is none. *)
Fixpoint context_of (u : option (list Z)) (l : list item) : option (list Z) :=
  match l with [] => u | IRegion _ _ :: l => context_of u l | IContext v :: l => context_of (Some v) l end.

Section listing.
Context `{!VmParams, !UuidLib, !UctxLayout, !Zlib} {K : Type} `{!IoSys K, !FdSys K, !FsSys K, !CreatSys K, !SeekSys K}.
Implicit Types (k : K) (s : printer K).

(** What the printer skips is what is there. *)
Definition item_ok (i : item) : Prop :=
  match i with
  | IRegion r c => region_fields r /\ region_skip r = Z.of_nat (length c)
  | IContext u => Z.of_nat (length u) = sizeof_ucontext
  end.

(** *** Reading *)
(** *** Lifting *)
Lemma on_io_returns {A} (m : M K A) s Q : returns m (q_k s) Q -> returns (on_io m) s (fun a s' => exists k, s' = put_qk k s /\ Q a k).
Proof. unfold returns, on_io. destruct (m (q_k s)); [|done..]. intros HQ. by eexists. Qed.

Section read.
Context (fd : Z) (content : K -> list Z) (pos : K -> Z) `{!ImageFile K fd content pos} (Hsz : 0 < sizeof_ucontext).
Abbreviation rest := (rest content pos).

Lemma entry_read e tl k : 0 <= pos k -> rest k = le_bytes 4 (entry_code e) ++ tl ->
  returns (readall fd sizeof_entry) k (fun d k' => (Z.of_nat (length d) =? sizeof_entry) = true /\
    fst (field_u 4 d) = entry_code e /\ 0 <= pos k' /\ rest k' = tl).
Proof using Type*.
  intros Hz0 Hk. eapply returns_weaken; [apply (readall_exact fd content pos sizeof_entry _ tl k Hz0 Hk); [by rewrite le_bytes_length|done]|].
  intros d k' (-> & [_ Hp] & Hr). split; [by rewrite le_bytes_length|]. split; [|split; [unfold sizeof_entry in Hp; lia|done] ].
  rewrite <- (app_nil_r (le_bytes _ _)), field_u_le by (by destruct e). done.
Qed.
Lemma read_loop_ok nr l : forall acc k tl, 0 <= pos k -> Forall item_ok l -> rest k = items_bytes l ++ tl ->
  Z.of_nat (length (r_regions acc) + length (regions_of l)) <= nr ->
  returns (read_loop (length l) fd nr acc) k (fun o k' =>
    o = Some (CkptRead (r_regions acc ++ regions_of l) (context_of (r_uctx acc) l))).
Proof using Type*.
  induction l as [|i l IH]; intros acc k tl Hz0 Hl Hk Hn; cbn [read_loop length regions_of context_of].
  { apply returns_ret. rewrite app_nil_r. by destruct acc. }
  apply Forall_cons in Hl as [Hi Hl]. change (items_bytes (i :: l)) with (item_bytes i ++ items_bytes l) in Hk.
  destruct i as [r c|u]; cbn [item_bytes] in Hk; rewrite <- !app_assoc in Hk; apply returns_bind;
    (eapply returns_weaken; [exact (entry_read _ _ k Hz0 Hk)|]); intros d k1 (-> & Hd & Hq1 & Hk1); cbn [negb]; cbv zeta; rewrite Hd.
  - destruct Hi as [Hf Hskip]. cbn [length regions_of] in Hn. cbn [entry_code Z.eqb]. rewrite (proj2 (Z.leb_gt _ _)) by lia.
    apply returns_bind. eapply returns_weaken; [apply (readall_exact fd content pos sizeof_region _ _ k1 Hq1 Hk1); [by rewrite region_bytes_length|done]|].
    intros d2 k2 (-> & [_ Hp2] & Hk2). rewrite region_bytes_length, Z.eqb_refl. cbn [negb].
    rewrite region_bytes_roundtrip by done. assert (0 <= pos k2) as Hq2 by (unfold sizeof_region in Hp2; lia).
    destruct (lseek_by fd (region_skip r) k2) as [off k3] eqn:E.
    assert (0 <= pos k2 + region_skip r) as Hsk by lia.
    destruct (img_seek _ _ _ _ E Hsk) as (-> & Hc3 & Hp3).
    eapply returns_step; [unfold kcall; by rewrite E|].
    eapply returns_step. { unfold xnd_assert. rewrite (proj2 (Z.eqb_neq _ _)) by lia. done. }
    eapply returns_weaken; [apply (IH _ k3 tl)|]; try done.
    + lia.
    + apply (moved_rest content pos (region_skip r) k2 k3 c); [by split|done|done|exact Hk2].
    + cbn [r_regions]. rewrite length_app. cbn [length]. lia.
    + cbn [r_regions r_uctx]. intros o k4 ->. by rewrite <- app_assoc.
  - cbn [entry_code Z.eqb]. apply returns_bind.
    eapply returns_weaken; [apply (readall_exact fd content pos sizeof_ucontext u _ k1 Hq1 Hk1); [by rewrite Hi|done]|].
    intros d2 k2 (-> & [_ Hp2] & Hk2). rewrite Hi, Z.eqb_refl. cbn [negb].
    eapply returns_weaken; [apply (IH _ k2 tl)|]; try done. lia.
Qed.
End read.

(** *** Printing *)

Definition shown (b : bool) (l : print_line) : list print_line := if b then [l] else [].
Definition header_line (h : xnd_ckpt_header) : print_line :=
  let c := h_shared_cache_info h in
  PHeader (nonzero_prefix (header_bytes h))
    [h_xnd_pid h; h_xnd_ppid h; h_xnd_pgid h; h_pid h; h_ppid h; h_pgid h; h_sid h; h_task_self h; h_host_self h;
     h_num_peers h; h_entry_count h; h_region_count h]
    (negb (h_is_root_of_tree h =? 0)) (sc_base c) (u64 (sc_base c + sc_size c)) (sc_size c) (uuid_unparse (sc_uuid c)).
(** The attributes that have names. *)
Definition named (r : xnd_vm_region) : Prop := 0 <= inherit r <= 3 /\ 1 <= mode r <= 8.
Definition mode_name (m : Z) : cstr :=
  nth (Z.to_nat m) [[]; cs "SM_COW"; cs "SM_PRIVATE"; cs "SM_EMPTY"; cs "SM_SHARED"; cs "SM_TRUESHARED";
                    cs "SM_PRIVATE_ALIASED"; cs "SM_SHARED_ALIASED"; cs "SM_LARGE_PAGE"] [].
Definition inherit_name (i : Z) : cstr :=
  nth (Z.to_nat i) [cs "VM_INHERIT_SHARE"; cs "VM_INHERIT_COPY"; cs "VM_INHERIT_NONE"; cs "VM_INHERIT_DONATE_COPY"] [].
Definition region_lines (o : vm_info_options) (i : Z) (r : xnd_vm_region) : list print_line :=
  [PRegion i] ++ shown (REGION_START o) (PStart (start r)) ++ shown (REGION_END o) (PEnd (u64 (start r + size r))) ++
  shown (REGION_SIZE o) (PSize (size r)) ++
  shown (REGION_PROTECTION o) (PProt (VM_PROT_STRING (prot r)) (VM_PROT_STRING (max_prot r))) ++
  shown (REGION_SHARE_MODE o) (PMode (mode_name (mode r))) ++ shown (REGION_USER_TAG o) (PTag (vm_user_tag_string r)) ++
  shown (REGION_INHERITANCE o) (PInherit (inherit_name (inherit r))) ++ [PDirty (pages_dirtied r); PBytes (region_total r)].
Definition regions_lines (p : print_options) (o : vm_info_options) (rs : list xnd_vm_region) : list print_line :=
  concat (imap (fun i r => if skip_vm_region p r then [] else region_lines o (Z.of_nat i) r) rs).
Definition context_lines (u : list Z) : list print_line :=
  ((fun i => PX i (uctx_x u i)) <$> seqZ 19 10) ++ ((fun i => PD i (uctx_v u i)) <$> seqZ 8 8) ++
  [PFp (get_mcontext_fp u); PLr (get_mcontext_lr u); PSp (get_mcontext_sp u)].
(** The listing of an image. *)
Definition image_lines (p : print_options) (o : vm_info_options) (h : xnd_ckpt_header) (rs : list xnd_vm_region)
    (u : option (list Z)) : list print_line :=
  header_line h :: PTotal (all_bytes rs) :: regions_lines p o rs ++
  (if PRINT_USER_CONTEXT p then default [] (context_lines <$> u) else []).

Definition says (l : list print_line) s : printer K := Printer (q_out s ++ l) (q_print s) (q_info s) (q_k s).
Lemma says_app a b s : says b (says a s) = says (a ++ b) s.
Proof. unfold says. cbn. by rewrite <- app_assoc. Qed.
Lemma says_none s : says [] s = s.
Proof. unfold says. rewrite app_nil_r. by destruct s. Qed.
Lemma emit_eq l s : emit l s = Ret tt (says [l] s).
Proof. done. Qed.
Lemma emit_if_eq b l s : emit_if b l s = Ret tt (says (shown b l) s).
Proof. destruct b; [done|]. cbn [shown]. by rewrite says_none. Qed.
Lemma emit_name_eq b name n l s : name = Some n -> emit_name b name l s = Ret tt (says (shown b (l n)) s).
Proof. intros ->. destruct b; [done|]. cbn [shown]. by rewrite says_none. Qed.
Lemma mode_named r : named r -> vm_share_mode_string r = Some (mode_name (mode r)).
Proof.
  intros [_ Hrng]. unfold vm_share_mode_string, mode_name.
  assert (mode r = 1 \/ mode r = 2 \/ mode r = 3 \/ mode r = 4 \/ mode r = 5 \/ mode r = 6 \/ mode r = 7 \/ mode r = 8) as Hm by lia.
  by decompose [or] Hm; match goal with E : mode r = _ |- _ => rewrite E end.
Qed.
Lemma inherit_named r : named r -> vm_inherit_string r = Some (inherit_name (inherit r)).
Proof.
  intros [Hrng _]. unfold vm_inherit_string, inherit_name.
  assert (inherit r = 0 \/ inherit r = 1 \/ inherit r = 2 \/ inherit r = 3) as Hm by lia.
  by decompose [or] Hm; match goal with E : inherit r = _ |- _ => rewrite E end.
Qed.
Ltac print_step := first
  [ rewrite (bind_ret _ _ _ _ _ (emit_eq _ _)) | rewrite (bind_ret _ _ _ _ _ (emit_if_eq _ _ _)) ]; rewrite ?says_app.
Lemma print_region_eq i r s : named r -> print_region i r s = Ret tt (says (region_lines (q_info s) i r) s).
Proof.
  intros Hn. unfold print_region. rewrite (bind_ret (gets q_info) _ s (q_info s) s eq_refl). set (o := q_info s).
  repeat print_step. rewrite (bind_ret _ _ _ _ _ (emit_name_eq _ _ _ PMode _ (mode_named r Hn))). rewrite says_app.
  repeat print_step. rewrite (bind_ret _ _ _ _ _ (emit_name_eq _ _ _ PInherit _ (inherit_named r Hn))). rewrite says_app.
  repeat print_step. rewrite emit_eq, says_app. unfold region_lines. by rewrite <- !app_assoc.
Qed.
Lemma print_each_eq rs : Forall named rs -> forall i s, print_each (Z.of_nat i) rs s =
  Ret tt (says (concat (imap (fun j r => if skip_vm_region (q_print s) r then [] else region_lines (q_info s) (Z.of_nat (i + j)) r) rs)) s).
Proof.
  induction 1 as [|r rs Hr _ IH]; intros i s; cbn [print_each imap concat]; [by rewrite says_none|].
  rewrite (bind_ret (gets q_print) _ s (q_print s) s eq_refl). replace (Z.of_nat i + 1) with (Z.of_nat (S i)) by lia. rewrite Nat.add_0_r.
  assert ((if skip_vm_region (q_print s) r then mret tt else print_region (Z.of_nat i) r) s =
    Ret tt (says (if skip_vm_region (q_print s) r then [] else region_lines (q_info s) (Z.of_nat i) r) s)) as E.
  { destruct (skip_vm_region _ _); [by rewrite says_none|by apply print_region_eq]. }
  rewrite (bind_ret _ _ _ _ _ E), IH, says_app. cbn [says q_print q_info]. do 4 f_equal.
  apply imap_ext. intros j r' _. cbn. by rewrite Nat.add_succ_r.
Qed.
Lemma print_regs_eq line reg l s : print_regs line reg l s = Ret tt (says ((fun i => line i (reg i)) <$> l) s).
Proof.
  revert s. induction l as [|i l IH]; intros s; [by rewrite says_none|]. cbn [print_regs fmap list_fmap].
  by rewrite (bind_ret _ _ _ _ _ (emit_eq _ _)), IH, says_app.
Qed.
Lemma print_user_context_eq u s : print_user_context u s = Ret tt (says (context_lines u) s).
Proof.
  unfold print_user_context. rewrite (bind_ret _ _ _ _ _ (print_regs_eq _ _ _ _)), (bind_ret _ _ _ _ _ (print_regs_eq _ _ _ _)), says_app.
  repeat print_step. rewrite emit_eq, says_app. unfold context_lines. by rewrite <- !app_assoc.
Qed.

Section image.
Context (fd : Z) (content : K -> list Z) (pos : K -> Z) `{!ImageFile K fd content pos} (Hsz : 0 < sizeof_ucontext).
Context (h : xnd_ckpt_header) (l : list item).
Context (Hh : header_fields h) (Hl : Forall item_ok l) (Hnamed : Forall named (regions_of l)).
Context (Hne : h_entry_count h = Z.of_nat (length l)) (Hnr : h_region_count h = Z.of_nat (length (regions_of l))).

Lemma header_fields_ok : header_ok h.
Proof using Hh. by destruct Hh. Qed.
Lemma print_checkpoint_ok s : content (q_k s) = header_bytes h ++ items_bytes l -> pos (q_k s) = 0 ->
  (PRINT_USER_CONTEXT (q_print s) = true -> is_Some (context_of None l)) ->
  returns (print_checkpoint fd) s (fun _ s' => exists k, s' =
    put_qk k (says (image_lines (q_print s) (q_info s) h (regions_of l) (context_of None l)) s)).
Proof using All.
  intros Hc Hp Hu. unfold print_checkpoint.
  assert (rest content pos (q_k s) = header_bytes h ++ items_bytes l) as Hr by (unfold rest; by rewrite Hp, Hc).
  apply returns_bind. eapply returns_weaken.
  { apply on_io_returns, (readall_exact fd content pos sizeof_header _ _ (q_k s) ltac:(lia) Hr); [|done].
    symmetry. apply header_bytes_length, header_fields_ok. }
  cbn beta. intros d s1 (k1 & -> & -> & [_ Hp1] & Hr1). rewrite header_bytes_length, Z.eqb_refl by apply header_fields_ok.
  cbn [negb]. rewrite header_roundtrip by done. cbv zeta. eapply returns_step; [apply emit_eq|].
  apply returns_bind. eapply returns_weaken.
  { apply (on_io_returns _ _ (fun o _ => o = Some (CkptRead (regions_of l) (context_of None l)))). cbn [q_k says put_qk]. unfold read_ckpt. rewrite Hne, Nat2Z.id. apply returns_bind.
    eapply returns_weaken; [apply (read_loop_ok fd content pos Hsz (h_region_count h) l (CkptRead [] None) k1 [])|].
    - unfold sizeof_header in Hp1. lia.
    - done.
    - by rewrite app_nil_r.
    - cbn [r_regions length]. lia.
    - cbn beta. intros o k2 ->. eapply returns_step; [reflexivity|]. apply returns_ret. reflexivity. }
  cbn beta. intros r s2 (k2 & -> & ->). cbn [r_regions r_uctx app]. rewrite (proj2 (Z.eqb_eq _ _) (eq_sym Hnr)). cbn [negb].
  apply (returns_step _ _ _ tt (says (PTotal (all_bytes (regions_of l)) :: regions_lines (q_print s) (q_info s) (regions_of l))
    (put_qk k2 (says [header_line h] s)))).
  { unfold print_vm_regions. rewrite (bind_ret _ _ _ _ _ (emit_eq _ _)), (print_each_eq _ Hnamed 0), says_app. done. }
  eapply returns_step; [reflexivity|]. cbn [q_print says put_qk]. unfold image_lines. destruct (PRINT_USER_CONTEXT (q_print s)).
  - destruct (Hu eq_refl) as [u Eu]. rewrite Eu. unfold returns. rewrite print_user_context_eq. exists k2.
    unfold says, put_qk. cbn. by rewrite <- !app_assoc.
  - apply returns_ret. exists k2. unfold says, put_qk. cbn. by rewrite <- !app_assoc, app_nil_r.
Qed.

(** [xnd_print] of the image alone. *)
Lemma print_main_ok fuel ifuel junk path s kp kr : ARG_IS_CKPT path = true -> ARG_IS_COMPRESSED_CKPT path = false -> strlen path < PATH_MAX ->
  fs_access path (q_k s) = (true, kp) -> fs_open_rd path kp = (fd, kr) -> 0 <= fd ->
  content kr = header_bytes h ++ items_bytes l -> pos kr = 0 -> is_Some (context_of None l) ->
  exists k, print_main fuel ifuel junk [path] s = Exit XND_EXIT_SUCCESS
    (put_qk k (says (image_lines (q_print s) (q_info s) h (regions_of l) (context_of None l)) s)).
Proof using All.
  intros Hc Hnc Hlen Ha Hop Hfd Hck Hpk Hu.
  assert (print_args [path] s = Ret (path, false) s) as Ea.
  { cbn [print_args]. rewrite Hc, (proj2 (Z.leb_gt _ _)) by done. unfold ARG_IS_COMPRESSED_CKPT, contains in Hnc.
    apply bool_decide_eq_false in Hnc. destruct (strstr path (cs XND_COMPRESSED_SUFFIX)); [by destruct Hnc|done]. }
  unfold print_main. rewrite bool_decide_false by done. rewrite (bind_ret _ _ _ _ _ Ea). cbv beta iota zeta.
  erewrite bind_ret; [|unfold on_io, fcall; by rewrite Ha]. rewrite (bind_ret _ _ _ tt (put_qk kp s)) by done.
  erewrite bind_ret; [|unfold on_io, fcall; cbn [q_k put_qk]; by rewrite Hop]. rewrite (proj2 (Z.ltb_ge _ _) Hfd).
  pose proof (print_checkpoint_ok (put_qk kr (put_qk kp s)) Hck Hpk (fun _ => Hu)) as Hpr.
  apply returns_inv in Hpr as ([] & s' & E & k & ->). exists k. rewrite (bind_ret _ _ _ _ _ E). done.
Qed.
End image.
End listing.

(** ** The image a checkpoint wrote *)

Section written.
Context `{!VmParams, !UctxLayout}.

Definition contents (w : view) (r : xnd_vm_region) : list Z :=
  if save_dirty_only r then List.flat_map (page_image w r) (dirty_offsets w r) else range (v_vm w) (start r) (size r).
Fixpoint items_of (w : view) (entries : list xnd_ckpt_entry) (regions : list xnd_vm_region) (uctx : list Z) : list item :=
  match entries, regions with
  | [], _ => []
  | XND_VM_REGION_ENTRY :: _, [] => []
  | XND_VM_REGION_ENTRY :: entries, r :: regions => IRegion (saved_region w r) (contents w r) :: items_of w entries regions uctx
  | _ :: entries, _ => IContext uctx :: items_of w entries regions uctx
  end.
Lemma items_of_image w uctx entries : forall regions, entries_ok entries regions ->
  let l := items_of w entries regions uctx in
  entries_image w entries regions uctx = items_bytes l /\ length l = length entries /\
  regions_of l = saved_region w <$> regions /\
  (forall u0, context_of u0 l = if bool_decide (XND_UCONTEXT_ENTRY ∈ entries) then Some uctx else u0).
Proof.
  induction entries as [|e entries IH]; intros regions Hok; cbn [entries_ok] in Hok.
  { by subst regions. }
  destruct e; [|done|].
  - destruct regions as [|r regions]; [done|]. destruct (IH regions Hok) as (E1 & E2 & E3 & E4).
    cbn [items_of entries_image length regions_of context_of fmap list_fmap]. rewrite E1, E2, E3. split; [|split; [done|split; [done|] ] ].
    + unfold items_bytes. cbn [fmap list_fmap concat item_bytes]. unfold region_image, contents. by rewrite <- !app_assoc.
    + intros u0. rewrite (bool_decide_ext (XND_UCONTEXT_ENTRY ∈ XND_VM_REGION_ENTRY :: entries) (XND_UCONTEXT_ENTRY ∈ entries))
        by (rewrite elem_of_cons; naive_solver). apply E4.
  - destruct (IH regions Hok) as (E1 & E2 & E3 & E4).
    cbn [items_of entries_image length regions_of context_of]. rewrite E1, E2, E3. split; [|split; [done|split; [done|] ] ].
    + unfold items_bytes. cbn [fmap list_fmap concat item_bytes]. by rewrite <- !app_assoc.
    + intros u0. rewrite E4, (bool_decide_true (XND_UCONTEXT_ENTRY ∈ XND_UCONTEXT_ENTRY :: _)) by (by left). by destruct (bool_decide _).
Qed.

(** A region whose dirty pages alone could be saved, and were. *)
Definition printable (r : xnd_vm_region) : Prop :=
  (ONLY_SAVE_DIRTY_PAGES r = true -> save_dirty_only r = true) /\ region_fields r /\ size r < 2 ^ 63 /\ named r.
Lemma contents_length w r : 0 < VM_PAGE_SIZE -> 0 <= size r -> size r / VM_PAGE_SIZE < 2 ^ 32 -> printable r ->
  region_skip (saved_region w r) = Z.of_nat (length (contents w r)).
Proof.
  intros Hps Hs Hp (Hd & Hf & Hz & _). unfold region_skip, contents, saved_region.
  assert (forall n b, ONLY_RESTORE_DIRTY_PAGES (with_dirty n b r) = ONLY_SAVE_DIRTY_PAGES r) as Ho by done.
  destruct (save_dirty_only r) eqn:E.
  - pose proof (proj1 (andb_true_iff _ _) E) as [Eo _]. rewrite Ho, Eo. cbn [pages_dirtied with_dirty].
    assert (forall l, length (List.flat_map (page_image w r) l) = (length l * (8 + Z.to_nat VM_PAGE_SIZE))%nat) as Hl.
    { induction l as [|o l IH]; [done|]. cbn [List.flat_map length]. rewrite length_app, IH. unfold page_image.
      rewrite length_app, le_bytes_length. pose proof (range_length (v_vm w) (start r + o) VM_PAGE_SIZE (Z.lt_le_incl _ _ Hps)). nia. }
    rewrite Hl. pose proof (Z.div_pos (size r) VM_PAGE_SIZE Hs Hps).
    assert (Z.of_nat (length (dirty_offsets w r)) <= size r / VM_PAGE_SIZE) as Hle.
    { unfold dirty_offsets, page_offsets. pose proof (List.filter_length_le (dirty_page w r) ((fun i => i * VM_PAGE_SIZE) <$> seqZ 0 (size r / VM_PAGE_SIZE))) as Hfl.
      rewrite length_fmap, length_seqZ in Hfl. lia. }
    rewrite wrapu_small by (unfold in_u; lia). unfold sizeof_page. nia.
  - destruct (ONLY_SAVE_DIRTY_PAGES r) eqn:Eo; [by specialize (Hd eq_refl)|]. unfold ONLY_SAVE_DIRTY_PAGES in Eo. rewrite Eo.
    rewrite range_length by lia. apply wraps_small; [done|]. unfold in_s. change (64 - 1) with 63. lia.
Qed.

Lemma written_items {K : Type} `{!IoSys K, !VmMem K} (fd : Z) `{!VmSpec K fd} w uctx entries : forall regions,
  Z.of_nat (length uctx) = sizeof_ucontext -> entries_ok entries regions -> Forall (region_ok w) regions -> Forall printable regions ->
  Forall item_ok (items_of w entries regions uctx) /\ Forall named (regions_of (items_of w entries regions uctx)).
Proof.
  intros regions Hu Hok Hr Hp. pose proof (page_size_pos (fd := fd)) as Hps. split.
  - revert regions Hok Hr Hp. induction entries as [|e es IH]; intros rs Hok Hr Hp; [constructor|].
    destruct e; [|done|].
    + destruct rs as [|r rs]; [done|]. apply Forall_cons in Hr as [Hr Hrs], Hp as [Hp Hps']. cbn [items_of]. constructor; [|by apply IH].
      split; [apply saved_region_fields, Hp|]. apply contents_length; [done| |apply Hr|done]. pose proof (ro_size _ _ Hr). lia.
    + cbn [items_of]. constructor; [done|by apply IH].
  - destruct (items_of_image w uctx entries regions Hok) as (_ & _ & -> & _). apply Forall_fmap. eapply Forall_impl; [exact Hp|].
    intros r (_ & _ & _ & Hm). unfold compose, named, saved_region in *. by destruct (save_dirty_only r), (ONLY_SAVE_DIRTY_PAGES r).
Qed.
End written.

(** C19. What an uncompressed checkpoint writes, [xnd_print] lists, if every
    region that could be saved by its dirty pages was ([printable]; one saved
    whole is misread, [whole_region_misread]): it prints the header, the regions
    as they were saved, less those the options leave out, and the bytes of the
    context as the printer's own layout names them, and ends with 0.  (That
    layout puts d8 to d15 where the restart does not read them.) *)
Theorem written_image_printed {K1 K2 : Type} `{!VmParams, !UuidLib, !UctxLayout, !Zlib}
    `{!IoSys K1, !VmMem K1, !FdSys K1, !FsSys K1, !CkptZlib K1} (fd : Z) `{!VmSpec K1 fd}
    `{!IoSys K2, !FdSys K2, !FsSys K2, !CreatSys K2, !SeekSys K2} (fdp : Z) (content : K2 -> list Z) (pos : K2 -> Z) `{!ImageFile K2 fdp content pos}
    h entries regions uctx (s : pstate K1) dirfd k2 fuel ifuel junk path (q : printer K2) :
  ckptfile_opens fd h s dirfd k2 -> env_use_zlib_compression (g_env s) = Ret false (g_env s) ->
  header_fields h -> h_entry_count h = Z.of_nat (length entries) -> h_region_count h = Z.of_nat (length regions) ->
  entries_ok entries regions -> XND_UCONTEXT_ENTRY ∈ entries ->
  Forall (region_ok (view_of k2)) regions -> Forall printable regions ->
  Z.of_nat (length uctx) = sizeof_ucontext -> uctx <> [] ->
  ARG_IS_CKPT path = true -> ARG_IS_COMPRESSED_CKPT path = false -> strlen path < PATH_MAX ->
  returns (write_ckpt h entries regions uctx) s (fun ret s' => ret = 0 /\ exists k3,
    g_k s' = fd_close fd (fd_close dirfd k3) /\
    forall kp kr, fs_access path (q_k q) = (true, kp) -> fs_open_rd path kp = (fdp, kr) -> 0 <= fdp ->
      content kr = v_file (view_of k3) -> pos kr = 0 ->
      exists k', print_main fuel ifuel junk [path] q = Exit XND_EXIT_SUCCESS (put_qk k'
        (says (image_lines (q_print q) (q_info q) h (saved_region (view_of k2) <$> regions) (Some uctx)) q))).
Proof.
  intros Ho Hz Hh Hn Hnr Hok Hin Hr Hp Hu Hun Hc Hnc Hl. destruct (header_fields_ok h Hh) as (L1 & L2 & L3).
  eapply returns_weaken; [apply (write_ckpt_ok fd h entries regions uctx s dirfd k2); try done|].
  intros ret s' [-> (k3 & -> & Hf)]. split; [done|]. exists k3. split; [done|].
  intros kp kr Ha Hop Hfd Hck Hpk.
  set (w := view_of k2) in *. set (l := items_of w entries regions uctx).
  destruct (items_of_image w uctx entries regions Hok) as (E1 & E2 & E3 & E4). fold l in E1, E2, E3, E4.
  destruct (written_items fd w uctx entries regions Hu Hok Hr Hp) as [Hitems Hnamed]. fold l in Hitems, Hnamed.
  rewrite E1 in Hf. assert (context_of None l = Some uctx) as Ec by (rewrite E4; by rewrite bool_decide_true).
  destruct (print_main_ok fdp content pos ltac:(rewrite <- Hu; by destruct uctx) h l Hh Hitems Hnamed ltac:(by rewrite E2)
    ltac:(by rewrite E3, length_fmap) fuel ifuel junk path q kp kr Hc Hnc Hl Ha Hop Hfd ltac:(by rewrite Hck) Hpk ltac:(by rewrite Ec)) as [k' Hk].
  exists k'. by rewrite Hk, E3, Ec.
Qed.

(** ** Where it fails *)

Section fails.
Context `{!VmParams, !UuidLib, !UctxLayout, !Zlib} {K : Type} `{!IoSys K, !FdSys K, !FsSys K, !CreatSys K, !SeekSys K}.
Context (fd : Z) (content : K -> list Z) (pos : K -> Z) `{!ImageFile K fd content pos}.
Implicit Types s : printer K.

(** The second entry, looked for after the end of the file. *)
Lemma past_end_ub h r c tl s : header_fields h -> h_entry_count h = 2 -> 1 <= h_region_count h -> region_fields r ->
  content (q_k s) = header_bytes h ++ item_bytes (IRegion r c) ++ tl -> pos (q_k s) = 0 ->
  Z.of_nat (length c) + Z.of_nat (length tl) <= region_skip r -> print_checkpoint fd s = Ub.
Proof using All.
  intros Hh Hne Hnr Hf Hc Hp Hover. unfold print_checkpoint.
  assert (rest content pos (q_k s) = header_bytes h ++ item_bytes (IRegion r c) ++ tl) as Hr by (unfold rest; by rewrite Hp, Hc).
  pose proof (readall_exact fd content pos sizeof_header _ _ (q_k s) ltac:(lia) Hr
    (eq_sym (header_bytes_length h (header_fields_ok h Hh))) eq_refl) as Hhd.
  apply returns_inv in Hhd as (d & k1 & E1 & -> & [Hc1 Hp1] & Hr1).
  rewrite (bind_ret _ _ s (header_bytes h) (put_qk k1 s)) by (unfold on_io; by rewrite E1).
  rewrite header_bytes_length, Z.eqb_refl by by apply header_fields_ok. cbn [negb]. rewrite header_roundtrip by done. cbv zeta.
  unfold print_ckpt_header. cbv zeta. rewrite (bind_ret _ _ _ _ _ (emit_eq _ _)).
  enough (read_ckpt fd h k1 = Ub) as E by (unfold mbind, M_bind, on_io; cbn [q_k says put_qk]; by rewrite E).
  unfold read_ckpt. enough (read_loop (Z.to_nat (h_entry_count h)) fd (h_region_count h) (CkptRead [] None) k1 = Ub) as E
    by (unfold mbind, M_bind; by rewrite E).
  rewrite Hne. change (Z.to_nat 2) with 2%nat. cbn [read_loop].
  cbn [item_bytes] in Hr1. rewrite <- !app_assoc in Hr1. assert (0 <= pos k1) as Hk1 by (unfold sizeof_header in Hp1; lia).
  pose proof (entry_read fd content pos XND_VM_REGION_ENTRY _ k1 Hk1 Hr1) as He.
  apply returns_inv in He as (d2 & k2 & E2 & Hd2 & Hd2' & Hk2 & Hr2). rewrite (bind_ret _ _ _ _ _ E2), Hd2. cbn [negb]. cbv zeta.
  rewrite Hd2'. cbn [entry_code Z.eqb r_regions length]. rewrite (proj2 (Z.leb_gt _ _)) by lia.
  pose proof (readall_exact fd content pos sizeof_region _ _ k2 Hk2 Hr2 (eq_sym (region_bytes_length r)) eq_refl) as Hrg.
  apply returns_inv in Hrg as (d3 & k3 & E3 & -> & [Hc3 Hp3] & Hr3). rewrite (bind_ret _ _ _ _ _ E3).
  rewrite region_bytes_length, Z.eqb_refl. cbn [negb]. rewrite region_bytes_roundtrip by done.
  destruct (lseek_by fd (region_skip r) k3) as [off k4] eqn:E4. assert (0 <= pos k3) as Hk3 by (unfold sizeof_region in Hp3; lia).
  assert (0 <= pos k3 + region_skip r) as Hsk by lia. destruct (img_seek _ _ _ _ E4 Hsk) as (-> & Hc4 & Hp4).
  erewrite bind_ret by (unfold kcall; by rewrite E4). rewrite (proj2 (Z.eqb_neq _ _)) by lia. rewrite (bind_ret _ _ _ tt k4) by done.
  assert (rest content pos k4 = []) as Hr4.
  { unfold rest in *. rewrite Hc4, Hp4, Z2Nat.inj_add, <- drop_drop, Hr3 by lia. apply drop_ge. rewrite length_app. lia. }
  pose proof (readall_end fd content pos sizeof_entry k4 ltac:(lia) Hr4 eq_refl) as Hend.
  apply returns_inv in Hend as (d5 & k5 & E5 & ->). by rewrite (bind_ret _ _ _ _ _ E5).
Qed.

(** C30. An image of one region, saved whole because most of its pages are dirty
    although it could have been saved by its dirty pages, when the dirty pages
    with their offsets would take at least as much room as the region and all that
    follows it in the file: the printer takes the region to have been saved
    by its dirty pages, goes past the end of the image, and uses an entry that it
    did not read.  (A skip that ends inside the context reads an entry that is
    none there, and mostly fails an assertion.) *)
Theorem whole_region_misread h r uctx w s : header_fields h -> h_entry_count h = 2 -> h_region_count h = 1 ->
  0 < VM_PAGE_SIZE -> 0 <= size r -> region_fields r -> ONLY_SAVE_DIRTY_PAGES r = true -> save_dirty_only r = false ->
  size r + sizeof_entry + Z.of_nat (length uctx) <= pages_dirtied r * (sizeof_page + VM_PAGE_SIZE) ->
  content (q_k s) = header_bytes h ++ entries_image w [XND_VM_REGION_ENTRY; XND_UCONTEXT_ENTRY] [r] uctx -> pos (q_k s) = 0 ->
  print_checkpoint fd s = Ub.
Proof.
  intros Hh Hne Hnr Hps Hs Hf Ho Hd Hover Hc Hp.
  apply (past_end_ub h (saved_region w r) (contents w r) (item_bytes (IContext uctx)) s Hh Hne); [lia|by apply saved_region_fields| |done|].
  - rewrite Hc. f_equal. cbn [entries_image item_bytes]. unfold region_image, contents. by rewrite app_nil_r, <- !app_assoc.
  - unfold contents, region_skip, saved_region. rewrite Hd, Ho. unfold ONLY_SAVE_DIRTY_PAGES in Ho.
    change (ONLY_RESTORE_DIRTY_PAGES (with_dirty (pages_dirtied r) false r)) with (ONLY_RESTORE_DIRTY_PAGES r). rewrite Ho.
    cbn [item_bytes pages_dirtied with_dirty]. rewrite range_length, length_app, le_bytes_length by lia. unfold sizeof_entry in Hover. lia.
Qed.

(** An option written as the help text says is no option. *)
Lemma refused_option fuel ifuel junk arg args s : ARG_IS_CKPT arg = false -> ARG_IS_ALL arg = false -> ARG_IS_REGIONS arg = false ->
  ARG_IS_REGION_INFO arg = false -> ARG_IS_PRINT_CONTEXT arg = false ->
  print_main fuel ifuel junk (arg :: args) s = Exit XND_EXIT_SUCCESS (says [PUsage] s).
Proof. intros A1 A2 A3 A4 A5. unfold print_main. cbn [print_args]. unfold mbind, M_bind. by rewrite A1, A2, A3, A4, A5. Qed.
Theorem documented_options_refused fuel ifuel junk opt v args s :
  opt ∈ [cs "--regions"; cs "--region-info"; cs "--print-context"] -> ARG_IS_CKPT (opt ++ cs "=" ++ v) = false ->
  print_main fuel ifuel junk ((opt ++ cs "=" ++ v) :: args) s = Exit XND_EXIT_SUCCESS (says [PUsage] s) /\
  (opt <> cs "--print-context" -> print_main fuel ifuel junk (opt :: args) s = Ub).
Proof.
  intros Ho Hc. rewrite !elem_of_cons, elem_of_nil in Ho. split.
  - destruct Ho as [-> |[-> |[-> |[] ] ] ]; (apply refused_option; [exact Hc|..]);
      unfold ARG_IS_ALL, ARG_IS_REGIONS, ARG_IS_REGION_INFO, ARG_IS_PRINT_CONTEXT; rewrite ?bool_decide_false by discriminate; done.
  - intros Hn. destruct Ho as [-> |[-> |[-> |[] ] ] ]; [reflexivity|reflexivity|done].
Qed.

(** A compressed image named without its directory is not found. *)
Lemma compressed_needs_directory fuel ifuel junk path ckpt i args s k : ARG_IS_CKPT path = true -> strlen path < PATH_MAX ->
  strstr path (cs XND_COMPRESSED_SUFFIX) = Some i -> take i path = ckpt -> strrchr ckpt slash = None ->
  fs_open_dir [] (q_k s) = (-1, k) ->
  print_main fuel ifuel junk (path :: args) s = Exit XND_EXIT_FAILURE (put_qk k s).
Proof.
  intros Hc Hl Hi <- Hs Hd. unfold print_main. rewrite bool_decide_false by done.
  rewrite (bind_ret _ _ s (take i path, true) s).
  2:{ cbn [print_args]. by rewrite Hc, (proj2 (Z.leb_gt _ _)), Hi by done. }
  cbv beta iota zeta. unfold xnd_path_dirname. rewrite Hs. cbn [orb]. change (PATH_MAX =? 0) with false. cbv iota.
  rewrite (bind_ret _ _ s (-1) (put_qk k s)) by (unfold on_io, fcall; by rewrite Hd). done.
Qed.
End fails.

(** ** An open image *)

(** An open image, and the process of [CkptWorld] with regions whose attributes
    have names, for the witnesses of the printer. *)
From S2P Require Import CkptWorld CompressWorld.

#[local] Existing Instance small_vm.
#[local] Existing Instance box_spec.

(** The bytes of a file and where its descriptor stands. *)
Record image := Image { i_bytes : list Z; i_pos : Z }.
Definition i_read (n : Z) (k : image) : option (list Z) * image :=
  let data := take (Z.to_nat n) (drop (Z.to_nat (i_pos k)) (i_bytes k)) in
  (Some data, Image (i_bytes k) (i_pos k + Z.of_nat (length data))).
#[local] Instance image_io : IoSys image := { sys_write _ _ k := (-1, k); sys_read _ n k := i_read n k; read_waits _ _ _ := false }.
#[local] Instance image_fd : FdSys image := { fd_getfl _ k := (0, k); fd_dup2 _ new k := (new, k); fd_close _ k := k }.
#[local] Instance image_fs : FsSys image := {
  fs_access _ k := (true, k); fs_mkdir _ k := (true, k); fs_open_dir _ k := (4, k); fs_open_rd _ k := (5, k);
  fs_mkdirat _ _ k := (true, k); fs_openat_excl _ _ k := (-1, k); fs_openat_rd _ _ k := (5, k);
  fs_faccessat _ _ k := (true, k); fs_unlinkat _ _ k := (true, k); fs_unlinkat_dir _ _ k := (true, k);
  fs_opendir _ k := (Some [], k); fs_closedir k := k; fs_unlink _ k := (true, k);
}.
#[local] Instance image_creat : CreatSys image := { fs_openat_creat _ _ k := (-1, k) }.
#[local] Instance image_seek : SeekSys image := { lseek_by _ off k := (i_pos k + off, Image (i_bytes k) (i_pos k + off)) }.
(** A context is five registers. *)
#[local] Instance five_registers : UctxLayout := {
  sizeof_ucontext := 5; uctx_x u i := nth (Z.to_nat (i - 19)) u 0; uctx_v u i := nth (Z.to_nat (i - 8)) u 0;
  get_mcontext_fp u := nth 0 u 0; get_mcontext_lr u := nth 1 u 0; get_mcontext_sp u := nth 2 u 0;
}.

#[local] Instance image_file : ImageFile image 5 i_bytes i_pos.
Proof.
  split.
  - intros n k d k' [= <- <-] Hn Hz. eexists. split; [done|]. cbn. rewrite length_take. split; [lia|]. split; [|split; [|done] ].
    + destruct (Nat.le_ge_cases (Z.to_nat n) (length (drop (Z.to_nat (i_pos k)) (i_bytes k)))).
      * by rewrite Nat.min_l.
      * rewrite Nat.min_r by done. by rewrite !take_ge by lia.
    + intros Ht. apply (f_equal length) in Ht. rewrite length_take in Ht. cbn in Ht.
      destruct (drop (Z.to_nat (i_pos k)) (i_bytes k)); [done|cbn in Ht; lia].
  - done.
  - by intros off k r k' [= <- <-] Hz.
Qed.

Definition opened (bytes : list Z) : printer image := Printer [] initial_options initial_info (Image bytes 0).

(** ** The process *)

Definition private (r : xnd_vm_region) : xnd_vm_region :=
  VmRegion (start r) (size r) (inherit r) (prot r) (max_prot r) 2 (tag r) (pages_dirtied r) (dirty_only r).
Definition named_regions : list xnd_vm_region := private <$> the_regions.

Lemma private_ok r v : region_ok v r -> region_ok v (private r).
Proof. by intros [? ? ? ? ? ? ? ? ?]. Qed.
Lemma named_regions_ok : Forall (region_ok (the_view 77 259 [] 0)) named_regions.
Proof. apply Forall_fmap. eapply Forall_impl; [apply Forall_forall, the_region_ok|]. intros r. apply private_ok. Qed.
Lemma named_regions_printable : Forall printable named_regions.
Proof.
  repeat (apply Forall_cons; split); [..|by apply Forall_nil];
    (split; [vm_compute; done|]; split; [split; vm_compute; (done || lia)|]; split; [done|]; split; vm_compute; (done || lia)).
Qed.

Lemma the_header_fields : header_fields the_header.
Proof. split; [done..| | |]; repeat constructor; unfold in_u, in_s; cbn; lia. Qed.
(** The file [write_ckpt] leaves. *)
Definition written : list Z :=
  match write_ckpt the_header the_entries named_regions the_uctx (process before) with
  | Ret _ s => v_file (b_view (g_k s))
  | _ => []
  end.

Lemma written_image_printed_witness :
  returns (write_ckpt the_header the_entries named_regions the_uctx) (process before) (fun ret s' => ret = 0 /\ exists k3,
    g_k s' = fd_close 6 (fd_close 5 k3) /\
    forall kp kr, fs_access (cs "ckpt-1000.xnd") (Image written 0) = (true, kp) ->
      fs_open_rd (cs "ckpt-1000.xnd") kp = (5, kr) -> 0 <= 5 -> i_bytes kr = v_file (view_of k3) -> i_pos kr = 0 ->
      exists k', print_main 0 0 [] [cs "ckpt-1000.xnd"] (opened written) = Exit XND_EXIT_SUCCESS (put_qk k'
        (says (image_lines initial_options initial_info the_header (saved_region (view_of created) <$> named_regions) (Some the_uctx))
              (opened written)))).
Proof.
  apply (written_image_printed 6 5 i_bytes i_pos the_header the_entries named_regions the_uctx (process before) 5 created 0 0 []
    (cs "ckpt-1000.xnd") (opened written));
    [exact the_file_opens|reflexivity|exact the_header_fields|reflexivity|reflexivity|done| |exact named_regions_ok|
     exact named_regions_printable|done..].
  unfold the_entries. set_solver.
Defined.

(** Computed: written and printed. *)
Example written_then_printed :
  print_main 0 0 [] [cs "ckpt-1000.xnd"] (opened written) = Exit 0 (Printer
    (image_lines initial_options initial_info the_header
      [VmRegion 100 8 1 2 3 2 30 2 false; VmRegion 200 12 1 3 7 2 7 1 true; VmRegion 1000 8 1 1 3 2 0 1 true] (Some the_uctx))
    initial_options initial_info (Image written (Z.of_nat (length written)))).
Proof. vm_compute. reflexivity. Qed.

(** ** A region saved whole *)

(** All ten pages of an allocator's region are dirty. *)
Definition r_small : xnd_vm_region := VmRegion 200 40 1 3 7 2 VM_MEMORY_MALLOC_SMALL 10 false.
Definition one_region : xnd_ckpt_header :=
  CkptHeader (magic_bytes ++ [0]) (replicate 16 0) 1000 0 1000 50 1 50 50 259 515 1 1 2 1
    (SharedCacheInfo 1000 1000 (replicate 16 7)).
Lemma one_region_fields : header_fields one_region.
Proof. split; [done..| | |]; repeat constructor; unfold in_u, in_s; cbn; lia. Qed.
Definition whole : list Z :=
  header_bytes one_region ++ entries_image (the_view 77 259 [] 0) [XND_VM_REGION_ENTRY; XND_UCONTEXT_ENTRY] [r_small] the_uctx.
Lemma whole_region_misread_witness : print_checkpoint 5 (opened whole) = Ub.
Proof.
  apply (whole_region_misread 5 i_bytes i_pos one_region r_small the_uctx (the_view 77 259 [] 0) (opened whole));
    [exact one_region_fields|done|done|done|done|split; vm_compute; (done || lia)|done..].
Defined.

(** [--regions=heap,stack], as the help text has it *)
Lemma documented_options_refused_witness :
  print_main 0 0 [] [cs "--regions" ++ cs "=" ++ cs "heap,stack"; cs "ckpt-1000.xnd"] (opened written) =
    Exit XND_EXIT_SUCCESS (says [PUsage] (opened written)) /\
  (cs "--regions" <> cs "--print-context" ->
   print_main 0 0 [] [cs "--regions"; cs "ckpt-1000.xnd"] (opened written) = Ub).
Proof.
  apply (documented_options_refused 0 0 [] (cs "--regions") (cs "heap,stack") [cs "ckpt-1000.xnd"] (opened written));
    [set_solver|reflexivity].
Defined.
