(* ===== verification/Log.v ===== *)
(** The log and what it says of the process: [xnd/util/log.c] and
    [xnd/util/debug.c].

    The text of a trace is what [dprintf] is given; of the functions that
    describe the process only the searches for the program's and the library's
    images are here, the rest being values the system gives, printed. *)

From S2P Require Import Prelude Cstr Path Env Io Process PidTable Print.
From Stdlib Require Import Ascii.
Open Scope Z_scope.

Definition XND_TRACING : Z := 3.
Definition XND_MAX_LOG_LEVEL : Z := XND_TRACING.
(** of the default build, DEVELOPMENT=1 *)
Definition XND_DEFAULT_LOG_LEVEL : Z := XND_TRACING.
Definition XND_TRACE_FD : Z := 253.

Class LogSys (K : Type) := {
  (** [open] with [O_WRONLY | O_CREAT | O_APPEND]; [dprintf] *)
  lg_open : cstr -> K -> Z * K;
  lg_dprintf : Z -> cstr -> K -> K;
  (** The names dyld gives the images of the process, where there are some *)
  lg_images : K -> list (option cstr);
}.
(** The statics *)
Record logger := Logger { log_fd : Z; log_level : Z; log_pid : Z }.
Definition no_log : logger := Logger (-1) XND_DEFAULT_LOG_LEVEL (-1).

Definition newline : ascii := "010"%char.
Definition start_len (pid_str : cstr) : Z := strlen (cs "| Start of log entry (pid: ) |") + strlen pid_str.
Definition end_len (pid_str : cstr) : Z := strlen (cs "|  End of log entry (pid: )  |") + strlen pid_str.
Definition pid_string (pid : Z) : cstr := snprintf 11 (show_d pid).

Section log.
Context {K : Type} `{FdSys K, PidOS K, LogSys K}.

Definition dprintf (fd : Z) (s : cstr) : M (pstate K) unit := on_k (fun k => Ret tt (lg_dprintf fd s k)).
Fixpoint print_dashes (fd : Z) (n : nat) : M (pstate K) unit :=
  match n with O => mret tt | S n => dprintf fd ["-"%char];; print_dashes fd n end.
(** [SET_LINE] *)
Definition set_line (fd len : Z) : M (pstate K) unit :=
  dprintf fd ["+"%char];; print_dashes fd (Z.to_nat (len - 2));; dprintf fd ["+"%char; newline].
Definition boxed (fd len : Z) (line : cstr) : M (pstate K) unit :=
  set_line fd len;; dprintf fd (line ++ [newline]);; set_line fd len.

Definition xnd_log_setup (l : logger) : M (pstate K) logger :=
  level_str ← on_env (getenv "XND_LOG_LEVEL");
  let log_level := match level_str with Some s => Z.min (atoi s) XND_MAX_LOG_LEVEL | None => log_level l end in
  if log_level <? XND_TRACING then mret (Logger (log_fd l) log_level (log_pid l)) else
  log_pid ← gets (fun s => _real_getpid (g_k s));
  fd ← on_k (fun k => let '(r, k) := lg_open (cs "xnd.log") k in Ret r k);
  if fd <? 0 then mret (Logger (log_fd l) log_level log_pid) else
  log_fd ← on_k (fun k => let '(r, k) := fd_dup2 fd XND_TRACE_FD k in Ret r k);
  on_k (fun k => Ret tt (fd_close fd k));;
  if log_fd <? 0 then mret (Logger log_fd log_level log_pid) else
  let pid_str := pid_string log_pid in
  boxed log_fd (start_len pid_str) (cs "| Start of log entry (pid: " ++ pid_str ++ cs ") |");;
  mret (Logger log_fd log_level log_pid).

Definition xnd_log_cleanup (l : logger) : M (pstate K) unit :=
  if (log_level l <? XND_TRACING) || (log_fd l <? 0) then mret tt else
  let pid_str := pid_string (log_pid l) in
  boxed (log_fd l) (end_len pid_str) (cs "|  End of log entry (pid: " ++ pid_str ++ cs ")  |");;
  on_k (fun k => Ret tt (fd_close (log_fd l) k)).

(** [xnd_trace], whatever the level: [s] starts with the place it is at. *)
Definition xnd_trace (s : cstr) : M (pstate K) unit := dprintf XND_TRACE_FD (s ++ [newline]).

(** ** [debug.c] *)

Fixpoint image_index (found : cstr -> bool) (images : list (option cstr)) (i : Z) : Z :=
  match images with
  | [] => -1
  | Some name :: images => if found name then i else image_index found images (i + 1)
  | None :: images => image_index found images (i + 1)
  end.
(** Without a program's name in the environment [strstr] gets a null pointer
    for the first image that has a name. *)
Definition main_image_index : M (pstate K) Z :=
  program ← on_env env_get_program_name;
  images ← gets (fun s => lg_images (g_k s));
  match program with
  | Some program => mret (image_index (fun name => contains name program || contains program name) images 0)
  | None => if existsb (fun o => match o with Some _ => true | None => false end) images then ub else mret (-1)
  end.
Definition libxnd_image_index : M (pstate K) Z :=
  images ← gets (fun s => lg_images (g_k s));
  mret (image_index (fun name => contains name (cs "libxnd.dylib")) images 0).
End log.

(** ** The searches *)

(** The first image that is found, or -1. *)
Lemma image_index_spec found images i : 0 <= i ->
  (image_index found images i = -1 /\ Forall (fun o => match o with Some name => found name = false | None => True end) images) \/
  exists n name, image_index found images i = i + Z.of_nat n /\ images !! n = Some (Some name) /\ found name = true /\
    Forall (fun o => match o with Some name => found name = false | None => True end) (take n images).
Proof.
  revert i. induction images as [|[name|] images IH]; intros i Hi; cbn [image_index]; [by left| |].
  - destruct (found name) eqn:E.
    + right. exists 0%nat, name. split; [lia|done].
    + destruct (IH (i + 1) ltac:(lia)) as [[-> Hf]|(n & name' & -> & Hn & Hfo & Hf)]; [left; split; [done|by constructor]|right].
      exists (S n), name'. split; [lia|]. split; [done|]. split; [done|]. by constructor.
  - destruct (IH (i + 1) ltac:(lia)) as [[-> Hf]|(n & name' & -> & Hn & Hfo & Hf)]; [left; split; [done|by constructor]|right].
    exists (S n), name'. split; [lia|]. split; [done|]. split; [done|]. by constructor.
Qed.

(** ** An entry of the log *)

(** What a log file open for appending, at [fd], is after [dprintf]; a copy of
    a descriptor appends to the same file. *)
Class LogFile (K : Type) `{FdSys K, LogSys K} (open_fds : K -> gset Z) (text : K -> cstr) := {
  lf_open k r k' : lg_open (cs "xnd.log") k = (r, k') -> text k' = text k /\
    (r = -1 /\ open_fds k' = open_fds k \/ 0 <= r /\ r ∉ open_fds k /\ open_fds k' = {[r]} ∪ open_fds k);
  lf_dup2 old new k r k' : fd_dup2 old new k = (r, k') -> old ∈ open_fds k -> text k' = text k /\
    (r = -1 /\ open_fds k' = open_fds k \/ r = new /\ open_fds k' = {[new]} ∪ open_fds k);
  lf_close fd k : text (fd_close fd k) = text k /\ open_fds (fd_close fd k) = open_fds k ∖ {[fd]};
  lf_dprintf fd s k : fd ∈ open_fds k -> text (lg_dprintf fd s k) = text k ++ s /\ open_fds (lg_dprintf fd s k) = open_fds k;
}.

Section entry.
Context {K : Type} `{LogFile K open_fds text, PidOS K}.

Lemma dprintf_ok fd line (s : pstate K) : fd ∈ open_fds (g_k s) ->
  returns (dprintf fd line) s (fun _ s' => text (g_k s') = text (g_k s) ++ line /\ open_fds (g_k s') = open_fds (g_k s)).
Proof using Type*. intros Hfd. by apply lf_dprintf. Qed.
(** One thing printed after another. *)
Lemma printed_bind (m m' : M (pstate K) unit) fd (l l' : cstr) s :
  (forall s, fd ∈ open_fds (g_k s) ->
     returns m s (fun _ s' => text (g_k s') = text (g_k s) ++ l /\ open_fds (g_k s') = open_fds (g_k s))) ->
  (forall s, fd ∈ open_fds (g_k s) ->
     returns m' s (fun _ s' => text (g_k s') = text (g_k s) ++ l' /\ open_fds (g_k s') = open_fds (g_k s))) ->
  fd ∈ open_fds (g_k s) ->
  returns (m;; m') s (fun _ s' => text (g_k s') = text (g_k s) ++ l ++ l' /\ open_fds (g_k s') = open_fds (g_k s)).
Proof using Type*.
  intros Hm Hm' Hfd. apply returns_bind. eapply returns_weaken; [by apply Hm|]. cbn. intros _ s1 [T1 O1].
  eapply returns_weaken; [apply Hm'; by rewrite O1|]. cbn. intros _ s2 [T2 O2]. by rewrite T2, O2, T1, O1, <- app_assoc.
Qed.
Lemma print_dashes_ok fd n (s : pstate K) : fd ∈ open_fds (g_k s) ->
  returns (print_dashes fd n) s (fun _ s' => text (g_k s') = text (g_k s) ++ replicate n "-"%char /\ open_fds (g_k s') = open_fds (g_k s)).
Proof using Type*.
  revert s. induction n as [|n IH]; intros s Hfd; cbn [print_dashes replicate].
  - apply returns_ret. by rewrite app_nil_r.
  - apply (printed_bind _ _ fd ["-"%char]); [intros; by apply dprintf_ok|done|done].
Qed.

(** What [SET_LINE] prints, and the three lines of a box. *)
Definition line_text (len : Z) : cstr := ["+"%char] ++ replicate (Z.to_nat (len - 2)) "-"%char ++ ["+"%char; newline].
Definition box_text (len : Z) (line : cstr) : cstr := line_text len ++ (line ++ [newline]) ++ line_text len.
Lemma set_line_ok fd len (s : pstate K) : fd ∈ open_fds (g_k s) ->
  returns (set_line fd len) s (fun _ s' => text (g_k s') = text (g_k s) ++ line_text len /\ open_fds (g_k s') = open_fds (g_k s)).
Proof using Type*.
  intros Hfd. unfold set_line, line_text. apply (printed_bind _ _ fd); [intros; by apply dprintf_ok| |done].
  intros s1 Hs1. apply (printed_bind _ _ fd); auto using dprintf_ok, print_dashes_ok.
Qed.
Lemma boxed_ok fd len line (s : pstate K) : fd ∈ open_fds (g_k s) ->
  returns (boxed fd len line) s (fun _ s' => text (g_k s') = text (g_k s) ++ box_text len line /\ open_fds (g_k s') = open_fds (g_k s)).
Proof using Type*.
  intros Hfd. unfold boxed, box_text. apply (printed_bind _ _ fd); [intros; by apply set_line_ok| |done].
  intros s1 Hs1. apply (printed_bind _ _ fd); auto using dprintf_ok, set_line_ok.
Qed.
(** All lines of a box have one length. *)
Lemma box_square pid : let p := pid_string pid in
  strlen (line_text (start_len p)) = strlen ((cs "| Start of log entry (pid: " ++ p ++ cs ") |") ++ [newline]) /\
  strlen (line_text (end_len p)) = strlen ((cs "|  End of log entry (pid: " ++ p ++ cs ")  |") ++ [newline]).
Proof using.
  intros p. pose proof (strlen_nonneg p). unfold line_text, start_len, end_len. rewrite !strlen_app.
  unfold strlen in *. rewrite ?length_replicate, ?length_app in *. split; cbn [length cs]; rewrite ?length_app; cbn; lia.
Qed.
End entry.
