(* ===== verification/FdTable.v ===== *)
(** The table of open descriptors: [xnd/fd_table.c].

    The table is an array of [MAXFILES] pointers to [struct fd_source]s in a
    heap; an index outside the array, and following a pointer to freed memory,
    are undefined.  [malloc] succeeds and gives the arbitrary contents
    [heap_src].  The kernel's descriptors are a parameter (class [FileOS]).
    Tracing is left out. *)

From S2P Require Import Prelude Cstr.
Open Scope Z_scope.

Abbreviation loc := positive.

Definition MAXFILES : Z := 512.
Definition PATH_MAX : Z := 1024.
Definition O_RDONLY : Z := 0.
Definition O_WRONLY : Z := 1.
Definition O_RDWR : Z := 2.
Definition O_NONBLOCK : Z := 4.
Definition O_APPEND : Z := 8.
Definition O_CREAT : Z := 512.
Definition O_TRUNC : Z := 1024.
Definition O_EXCL : Z := 2048.
Definition O_DIRECTORY : Z := 1048576.
Definition O_CLOEXEC : Z := 16777216.
Definition FD_CLOEXEC : Z := 1.

Inductive fd_state : Type := FD_STATE_NULL | FD_STATE_SAVED | FD_STATE_RESTORED.
#[global] Instance fd_state_eq_dec : EqDecision fd_state.
Proof. solve_decision. Defined.
Inductive fd_type : Type := FD_NULL | FD_INHERITED | FD_FILE | FD_DIRECTORY.
#[global] Instance fd_type_eq_dec : EqDecision fd_type.
Proof. solve_decision. Defined.

Record fd_source := FdSource {
  f_type : fd_type; f_state : fd_state; f_path : cstr; f_flags : Z; f_mode : Z;
  f_offset : Z; f_ref : Z; f_root : Z; f_dirp : Z
}.
Definition with_src_state (s : fd_state) (x : fd_source) : fd_source :=
  FdSource (f_type x) s (f_path x) (f_flags x) (f_mode x) (f_offset x) (f_ref x) (f_root x) (f_dirp x).
Definition with_flags (v : Z) (x : fd_source) : fd_source :=
  FdSource (f_type x) (f_state x) (f_path x) v (f_mode x) (f_offset x) (f_ref x) (f_root x) (f_dirp x).
Definition with_offset (v : Z) (x : fd_source) : fd_source :=
  FdSource (f_type x) (f_state x) (f_path x) (f_flags x) (f_mode x) v (f_ref x) (f_root x) (f_dirp x).
Definition with_ref (v : Z) (x : fd_source) : fd_source :=
  FdSource (f_type x) (f_state x) (f_path x) (f_flags x) (f_mode x) (f_offset x) v (f_root x) (f_dirp x).
Definition with_root_fd (v : Z) (x : fd_source) : fd_source :=
  FdSource (f_type x) (f_state x) (f_path x) (f_flags x) (f_mode x) (f_offset x) (f_ref x) v (f_dirp x).
Definition with_dir (v : Z) (x : fd_source) : fd_source :=
  FdSource FD_DIRECTORY (f_state x) (f_path x) (f_flags x) (f_mode x) (f_offset x) (f_ref x) (f_root x) v.

(** The calls of the kernel and of libc; -1, or another negative value, is
    their failure. *)
Class FileOS (K : Type) := {
  k_open : cstr -> Z -> Z -> K -> Z * K;
  k_dup2 : Z -> Z -> K -> Z * K;
  k_close : Z -> K -> Z * K;
  (** [lseek(fd, 0, SEEK_CUR)] and [lseek(fd, offset, SEEK_SET)] *)
  k_tell : Z -> K -> Z * K;
  k_seek : Z -> Z -> K -> Z * K;
  (** [fcntl] with [F_GETFL] and [F_GETFD] *)
  k_getfl : Z -> K -> Z * K;
  k_getfd : Z -> K -> Z * K;
  telldir : Z -> K -> Z * K;
  seekdir : Z -> Z -> K -> K;
  dirfd : Z -> Z;
}.

(** [struct fd_table] with the heap its pointers point into. *)
Record fdt (K : Type) := FdT {
  t_table : list (option loc); t_lock : bool; t_init : bool;
  t_heap : gmap loc fd_source; t_alloc : loc; t_k : K
}.
Arguments FdT {K}.
Arguments t_table {K}.
Arguments t_lock {K}.
Arguments t_init {K}.
Arguments t_heap {K}.
Arguments t_alloc {K}.
Arguments t_k {K}.

Section fd_table.
Context {K : Type} `{FileOS K} (heap_src : fd_source).
Implicit Types t : fdt K.

Definition put_slots (l : list (option loc)) t : fdt K := FdT l (t_lock t) (t_init t) (t_heap t) (t_alloc t) (t_k t).
Definition put_lock (b : bool) t : fdt K := FdT (t_table t) b (t_init t) (t_heap t) (t_alloc t) (t_k t).
Definition put_init (b : bool) t : fdt K := FdT (t_table t) (t_lock t) b (t_heap t) (t_alloc t) (t_k t).
Definition put_heap (h : gmap loc fd_source) t : fdt K := FdT (t_table t) (t_lock t) (t_init t) h (t_alloc t) (t_k t).
Definition put_tk (k : K) t : fdt K := FdT (t_table t) (t_lock t) (t_init t) (t_heap t) (t_alloc t) k.

Definition kern {A} (f : K -> A * K) : M (fdt K) A := fun t => let '(a, k) := f (t_k t) in Ret a (put_tk k t).

(** [table[fd]], and the assignment to it. *)
Definition slot (fd : Z) : M (fdt K) (option loc) :=
  if fd <? 0 then ub else l ← gets t_table; deref (l !! Z.to_nat fd).
Definition set_slot (fd : Z) (p : option loc) : M (fdt K) unit :=
  slot fd;; modify (fun t => put_slots (<[Z.to_nat fd := p]> (t_table t)) t).
(** [*p], and the assignment to fields of it. *)
Definition source (p : loc) : M (fdt K) fd_source := h ← gets t_heap; deref (h !! p).
Definition set_source (p : loc) (f : fd_source -> fd_source) : M (fdt K) unit :=
  x ← source p; modify (fun t => put_heap (<[p := f x]> (t_heap t)) t).
(** [table[fd]->...] *)
Definition source_at (fd : Z) : M (fdt K) fd_source := p ← slot fd; p ← deref p; source p.
Definition set_source_at (fd : Z) (f : fd_source -> fd_source) : M (fdt K) unit :=
  p ← slot fd; p ← deref p; set_source p f.

Definition malloc_source : M (fdt K) loc := fun t =>
  Ret (t_alloc t) (FdT (t_table t) (t_lock t) (t_init t) (<[t_alloc t := heap_src]> (t_heap t)) (Pos.succ (t_alloc t)) (t_k t)).
Definition free_source (p : loc) : M (fdt K) unit :=
  source p;; modify (fun t => put_heap (delete p (t_heap t)) t).

Definition lock : M (fdt K) unit := b ← gets t_lock; if (b : bool) then nofuel else modify (put_lock true).
Definition unlock : M (fdt K) unit := modify (put_lock false).

(** [src->ref++] and [src->ref--]: an [int]. *)
Definition ref_incr (fd : Z) : M (fdt K) unit :=
  x ← source_at fd;
  if f_ref x =? 2 ^ 31 - 1 then ub else set_source_at fd (with_ref (f_ref x + 1)).
Definition ref_decr (fd : Z) : M (fdt K) unit :=
  x ← source_at fd;
  if f_ref x =? - 2 ^ 31 then ub else set_source_at fd (with_ref (f_ref x - 1)).

(** ** Saving and restoring one descriptor *)

(** The close-on-exec bit of [src->flags], brought in line with the result of
    [F_GETFD]. *)
Definition merge_cloexec (ret flags : Z) : Z :=
  let in_flags := negb (Z.land flags O_CLOEXEC =? 0) in
  let in_fd := negb (Z.land ret FD_CLOEXEC =? 0) in
  if in_flags && negb in_fd then Z.ldiff flags O_CLOEXEC
  else if in_fd && negb in_flags then Z.lor flags O_CLOEXEC
  else flags.

Definition file_save (fd : Z) : M (fdt K) Z :=
  offset ← kern (k_tell fd);
  set_source_at fd (with_offset offset);;
  if offset <? 0 then mret (-1) else
  ret ← kern (k_getfl fd);
  if ret <? 0 then mret (-1) else
  set_source_at fd (fun x => with_flags (Z.lor (f_flags x) (Z.land ret (Z.lor O_APPEND O_NONBLOCK))) x);;
  ret ← kern (k_getfd fd);
  if ret <? 0 then mret (-1) else
  set_source_at fd (fun x => with_flags (merge_cloexec ret (f_flags x)) x);;
  set_source_at fd (fun x => with_flags (Z.ldiff (f_flags x) O_TRUNC) x);;
  set_source_at fd (fun x => with_flags (Z.ldiff (f_flags x) O_EXCL) x);;
  set_source_at fd (with_src_state FD_STATE_SAVED);;
  mret 0.

(** The descriptor reopened at its number; false when that fails. *)
Definition reopen (fd : Z) : M (fdt K) bool :=
  src ← source_at fd;
  ret ← kern (k_open (f_path src) (f_flags src) (f_mode src));
  if ret <? 0 then mret false
  else if negb (ret =? fd) then
    r ← kern (k_dup2 ret fd);
    if negb (r =? fd) then mret false else kern (k_close ret);; mret true
  else mret true.

Definition file_restore (fd : Z) : M (fdt K) Z :=
  ok ← reopen fd;
  if negb ok then mret (-1) else
  src ← source_at fd;
  r ← kern (k_seek fd (f_offset src));
  if negb (r =? f_offset src) then mret (-1) else
  set_source_at fd (with_root_fd fd);;
  set_source_at fd (with_src_state FD_STATE_RESTORED);;
  mret 0.

Definition dir_save (fd : Z) : M (fdt K) Z :=
  src ← source_at fd;
  tell ← kern (telldir (f_dirp src));
  if tell <? 0 then mret (-1) else
  set_source_at fd (with_offset tell);;
  ret ← kern (k_getfd fd);
  if ret <? 0 then mret (-1) else
  set_source_at fd (fun x => with_flags (merge_cloexec ret (f_flags x)) x);;
  set_source_at fd (with_src_state FD_STATE_SAVED);;
  mret 0.

Definition dir_restore (fd : Z) : M (fdt K) Z :=
  ok ← reopen fd;
  if negb ok then mret (-1) else
  src ← source_at fd;
  modify (fun t => put_tk (seekdir (f_dirp src) (f_offset src) (t_k t)) t);;
  set_source_at fd (with_root_fd fd);;
  set_source_at fd (with_src_state FD_STATE_RESTORED);;
  mret 0.

(** [fd_ops]: the entries of the other types are null pointers, or past the
    array's end. *)
Definition fd_ops_save (ty : fd_type) (fd : Z) : M (fdt K) Z :=
  match ty with FD_FILE => file_save fd | FD_DIRECTORY => dir_save fd | _ => ub end.
Definition fd_ops_restore (ty : fd_type) (fd : Z) : M (fdt K) Z :=
  match ty with FD_FILE => file_restore fd | FD_DIRECTORY => dir_restore fd | _ => ub end.

(** ** The table *)

(** [for (fd = from; fd < from + n; fd++)] *)
Fixpoint for_fds (n : nat) (from : Z) (body : Z -> M (fdt K) unit) : M (fdt K) unit :=
  match n with O => mret tt | S n => body from;; for_fds n (from + 1) body end.
Definition for_all_fds (body : Z -> M (fdt K) unit) : M (fdt K) unit := for_fds (Z.to_nat MAXFILES) 0 body.

Definition fd_table_init : M (fdt K) unit :=
  for_fds 3 0 (fun fd =>
    p ← malloc_source;
    set_slot fd (Some p);;
    set_source_at fd (fun x => FdSource FD_INHERITED FD_STATE_NULL (f_path x) (f_flags x) (f_mode x)
                                 (f_offset x) 1 fd (f_dirp x)));;
  modify (put_init true).

Definition fd_table_destroy : M (fdt K) unit :=
  lock;;
  for_all_fds (fun fd =>
    p ← slot fd;
    match p with
    | None => mret tt
    | Some p =>
      ref_decr fd;;
      x ← source_at fd;
      if f_ref x =? 0 then free_source p;; set_slot fd None else mret tt
    end);;
  unlock.

Definition fd_table_save : M (fdt K) unit :=
  for_all_fds (fun fd =>
    p ← slot fd;
    match p with
    | None => mret tt
    | Some p =>
      x ← source p;
      if bool_decide (f_type x = FD_INHERITED) then mret tt else
      if bool_decide (f_state x = FD_STATE_SAVED) then mret tt else
      fd_ops_save (f_type x) fd;; mret tt
    end).

Definition restore_inherited (fd : Z) : M (fdt K) unit :=
  p ← slot fd;
  match p with
  | None => mret tt
  | Some p =>
    x ← source p;
    if negb (bool_decide (f_type x = FD_INHERITED)) then mret tt else
    if negb (fd =? f_root x) then
      r ← kern (k_dup2 (f_root x) fd); (if negb (r =? fd) then abort else mret tt)
    else mret tt
  end.
Definition restore_opened (fd : Z) : M (fdt K) unit :=
  p ← slot fd;
  match p with
  | None => mret tt
  | Some p =>
    x ← source p;
    if bool_decide (f_type x = FD_INHERITED) then mret tt else
    if bool_decide (f_state x = FD_STATE_RESTORED) then
      r ← kern (k_dup2 (f_root x) fd); (if negb (r =? fd) then abort else mret tt)
    else
      ret ← fd_ops_restore (f_type x) fd; (if ret <? 0 then abort else mret tt)
  end.
Definition close_inherited (fd : Z) : M (fdt K) unit :=
  p ← slot fd;
  match p with None => kern (k_close fd);; mret tt | Some _ => mret tt end.

Definition fd_table_restore : M (fdt K) unit :=
  for_all_fds restore_inherited;;
  for_all_fds restore_opened;;
  for_fds 3 0 close_inherited.

(** [strncpy(dst, path, strlen(path) + 1)] into an array of [PATH_MAX]. *)
Definition copy_path (path : cstr) : M (fdt K) cstr := if strlen path <? PATH_MAX then mret path else ub.

Definition fd_table_open (fd : Z) (path : cstr) (flags mode : Z) : M (fdt K) unit :=
  init ← gets t_init;
  if negb init then mret tt else
  lock;;
  slot fd;;
  p ← malloc_source;
  set_slot fd (Some p);;
  path ← copy_path path;
  set_source_at fd (fun x => FdSource FD_FILE FD_STATE_NULL path flags mode (f_offset x) 1 (f_root x) (f_dirp x));;
  unlock.

Definition fd_table_opendir (dirp : Z) (path : cstr) : M (fdt K) unit :=
  init ← gets t_init;
  if negb init then mret tt else
  let fd := dirfd dirp in
  lock;;
  p ← slot fd;
  (match p with
   | Some _ => mret tt
   | None =>
     p ← malloc_source;
     set_slot fd (Some p);;
     path ← copy_path path;
     set_source_at fd (fun x => FdSource (f_type x) FD_STATE_NULL path (Z.lor O_RDONLY O_DIRECTORY) 0
                                  (f_offset x) 1 (f_root x) (f_dirp x))
   end);;
  set_source_at fd (with_dir dirp);;
  unlock.

(** [table[fd] == NULL || table[fd]->type == FD_NULL] *)
Definition untracked (fd : Z) : M (fdt K) bool :=
  p ← slot fd;
  match p with
  | None => mret true
  | Some p => x ← source p; mret (bool_decide (f_type x = FD_NULL))
  end.

Definition fd_table_dup (oldfd newfd : Z) : M (fdt K) unit :=
  init ← gets t_init;
  if negb init then mret tt else
  lock;;
  u ← untracked oldfd;
  if (u : bool) then unlock else
  p ← slot oldfd;
  set_slot newfd p;;
  ref_incr newfd;;
  unlock.

Definition fd_table_close (fd : Z) : M (fdt K) unit :=
  init ← gets t_init;
  if negb init then mret tt else
  lock;;
  u ← untracked fd;
  if (u : bool) then unlock else
  ref_decr fd;;
  x ← source_at fd;
  p ← slot fd;
  p ← deref p;
  (if f_ref x =? 0 then free_source p else mret tt);;
  set_slot fd None;;
  unlock.
End fd_table.
