(* ===== verification/FdProps.v ===== *)
(** Theorems on the descriptor table of [FdTable]: reference counts, and what
    saving and restoring the table does. *)

From S2P Require Import Prelude Cstr FdTable.
Open Scope Z_scope.

(** ** Loops and accesses *)
Section basics.
Context {K : Type}.
Implicit Types t : fdt K.

(** A loop over descriptors, by an invariant of the descriptor reached. *)
Lemma for_fds_rule (I : Z -> fdt K -> Prop) n from body t :
  I from t ->
  (forall fd t, from <= fd < from + Z.of_nat n -> I fd t -> returns (body fd) t (fun _ t' => I (fd + 1) t')) ->
  returns (for_fds n from body) t (fun _ t' => I (from + Z.of_nat n) t').
Proof.
  revert from t. induction n as [|n IH]; intros from t Hi Hb.
  - cbn [for_fds]. apply returns_ret. by rewrite Z.add_0_r.
  - cbn [for_fds]. apply returns_bind. eapply returns_weaken; [apply Hb; [lia|done]|].
    intros [] t1 H1. replace (from + Z.of_nat (S n)) with (from + 1 + Z.of_nat n) by lia.
    apply IH; [done|]. intros fd t2 Hr. apply Hb. lia.
Qed.

Definition in_table (fd : Z) : Prop := 0 <= fd < MAXFILES.
(** The pointer in a slot; [None] for an index outside the array. *)
Definition tget (fd : Z) t : option loc := t_table t !! Z.to_nat fd ≫= id.
Definition sized t : Prop := length (t_table t) = Z.to_nat MAXFILES.

Lemma slot_eq fd t : sized t -> in_table fd -> slot fd t = Ret (tget fd t) t.
Proof.
  unfold sized, in_table, slot, tget. intros Hl Hf. rewrite (proj2 (Z.ltb_ge _ _)) by lia.
  mrun. destruct (t_table t !! Z.to_nat fd) as [o|] eqn:E; [done|]. apply lookup_ge_None in E. lia.
Qed.
Lemma set_slot_eq fd p t : sized t -> in_table fd -> set_slot fd p t = Ret tt (put_slots (<[Z.to_nat fd := p]> (t_table t)) t).
Proof. intros Hl Hf. unfold set_slot. by rewrite (bind_ret _ _ _ _ _ (slot_eq fd t Hl Hf)). Qed.
Lemma source_eq p x t : t_heap t !! p = Some x -> source p t = Ret x t.
Proof. intros Hp. unfold source. mrun. by rewrite Hp. Qed.
Lemma set_source_eq p x f t : t_heap t !! p = Some x -> set_source p f t = Ret tt (put_heap (<[p := f x]> (t_heap t)) t).
Proof. intros Hp. unfold set_source. by rewrite (bind_ret _ _ _ _ _ (source_eq p x t Hp)). Qed.

(** A tracked descriptor and its source. *)
Definition at_slot (fd : Z) (p : loc) (x : fd_source) t : Prop := tget fd t = Some p /\ t_heap t !! p = Some x.
Lemma source_at_eq fd p x t : sized t -> in_table fd -> at_slot fd p x t -> source_at fd t = Ret x t.
Proof.
  intros Hl Hf [Hs Hx]. unfold source_at. rewrite (bind_ret _ _ _ _ _ (slot_eq fd t Hl Hf)), Hs.
  by apply source_eq.
Qed.
Lemma set_source_at_eq fd p x f t : sized t -> in_table fd -> at_slot fd p x t ->
  set_source_at fd f t = Ret tt (put_heap (<[p := f x]> (t_heap t)) t).
Proof.
  intros Hl Hf [Hs Hx]. unfold set_source_at. rewrite (bind_ret _ _ _ _ _ (slot_eq fd t Hl Hf)), Hs.
  by apply set_source_eq.
Qed.
Lemma at_slot_put fd p x y t : at_slot fd p x t -> at_slot fd p y (put_heap (<[p := y]> (t_heap t)) t).
Proof. intros [Hs _]. split; [done|]. apply lookup_insert_eq. Qed.
Lemma tget_set fd fd' p t : sized t -> in_table fd -> in_table fd' ->
  tget fd' (put_slots (<[Z.to_nat fd := p]> (t_table t)) t) = if decide (fd' = fd) then p else tget fd' t.
Proof.
  unfold sized, in_table, tget. intros Hl Hf Hf'. cbn [t_table put_slots]. case_decide as Hd.
  - subst. rewrite list_lookup_insert_eq by lia. done.
  - rewrite list_lookup_insert_ne by lia. done.
Qed.
End basics.

(** ** Reference counts *)

(** The number of slots that hold a pointer. *)
Fixpoint slots_of (p : loc) (l : list (option loc)) : Z :=
  match l with [] => 0 | o :: l => (if bool_decide (o = Some p) then 1 else 0) + slots_of p l end.

Lemma slots_of_nonneg p l : 0 <= slots_of p l.
Proof. induction l as [|o l IH]; cbn [slots_of]; [lia|]. case_bool_decide; lia. Qed.
Lemma slots_of_insert p l i o v : l !! i = Some o ->
  slots_of p (<[i := v]> l) = slots_of p l - (if bool_decide (o = Some p) then 1 else 0) +
                              (if bool_decide (v = Some p) then 1 else 0).
Proof.
  revert i. induction l as [|o' l IH]; intros [|i] Hi; try done.
  - injection Hi as ->. cbn. lia.
  - cbn. rewrite IH by done. lia.
Qed.
Lemma slots_of_pos p l i : l !! i = Some (Some p) -> 0 < slots_of p l.
Proof.
  revert i. induction l as [|o l IH]; intros [|i] Hi; try done; cbn [slots_of].
  - injection Hi as ->. rewrite bool_decide_eq_true_2 by done. pose proof (slots_of_nonneg p l). lia.
  - specialize (IH i Hi). case_bool_decide; lia.
Qed.
Lemma slots_of_zero p l : (forall i, l !! i <> Some (Some p)) -> slots_of p l = 0.
Proof.
  induction l as [|o l IH]; intros Hn; [done|]. cbn [slots_of]. rewrite bool_decide_eq_false_2.
  - rewrite IH; [done|]. intros i. apply (Hn (S i)).
  - intros ->. by apply (Hn 0%nat).
Qed.
Lemma slots_of_length p l : slots_of p l <= Z.of_nat (length l).
Proof. induction l as [|o l IH]; cbn [slots_of length]; [lia|]. case_bool_decide; lia. Qed.

Section refs.
Context {K : Type} `{FileOS K} (heap_src : fd_source).
Implicit Types t : fdt K.

(** Every tracked descriptor's source is allocated and counted at least as
    often as there are slots for it, at most [n] times; the table's lock is
    free. *)
Record wf (n : Z) t : Prop := {
  wf_sized : sized t;
  wf_lock : t_lock t = false;
  wf_init : t_init t = true;
  wf_fresh : forall p, (t_alloc t <= p)%positive -> t_heap t !! p = None;
  wf_live : forall i p, t_table t !! i = Some (Some p) -> is_Some (t_heap t !! p);
  wf_src : forall p x, t_heap t !! p = Some x -> slots_of p (t_table t) <= f_ref x <= n /\ f_type x <> FD_NULL
}.
(** No source is counted more often than it has slots. *)
Definition exact t : Prop := forall p x, t_heap t !! p = Some x -> f_ref x = slots_of p (t_table t) /\ 0 < f_ref x.

Lemma tget_lookup fd p t : sized t -> in_table fd -> tget fd t = p -> t_table t !! Z.to_nat fd = Some p.
Proof.
  unfold sized, in_table, tget. intros Hl Hf. destruct (t_table t !! Z.to_nat fd) as [o|] eqn:E.
  - cbn. by intros ->.
  - apply lookup_ge_None in E. lia.
Qed.
Lemma wf_at n t fd p : wf n t -> in_table fd -> tget fd t = Some p -> exists x, at_slot fd p x t /\ f_type x <> FD_NULL /\
  slots_of p (t_table t) <= f_ref x <= n /\ 0 < slots_of p (t_table t).
Proof.
  intros Hw Hf Hg. apply tget_lookup in Hg as Hl; [|apply Hw|done]. destruct (wf_live _ _ Hw _ _ Hl) as [x Hx].
  destruct (wf_src _ _ Hw _ _ Hx) as [Hr Ht]. exists x. split; [done|]. split; [done|]. split; [done|].
  by eapply slots_of_pos.
Qed.

Lemma wf_mono n m t : n <= m -> wf n t -> wf m t.
Proof.
  intros Hnm Hw. split; try apply Hw. intros p x Hx. destruct (wf_src _ _ Hw p x Hx). split; [lia|done].
Qed.
(** The table does not depend on the kernel. *)
Lemma wf_put_tk n k t : wf n t -> wf n (put_tk k t).
Proof. intros Hw. split; apply Hw. Qed.

Lemma lock_eq t : t_lock t = false -> lock t = Ret tt (put_lock true t).
Proof. intros Hl. unfold lock. mrun. by rewrite Hl. Qed.

(** *** The operations, as functions of the table and the heap *)
Definition opened (path : cstr) (flags mode : Z) : fd_source :=
  FdSource FD_FILE FD_STATE_NULL path flags mode (f_offset heap_src) 1 (f_root heap_src) (f_dirp heap_src).
Definition opened_dir (path : cstr) (dirp : Z) : fd_source :=
  FdSource FD_DIRECTORY FD_STATE_NULL path (Z.lor O_RDONLY O_DIRECTORY) 0 (f_offset heap_src) 1 (f_root heap_src) dirp.

Lemma put_lock_same t : t_lock t = false -> put_lock false (put_lock true t) = t.
Proof. destruct t. cbn. by intros ->. Qed.

Lemma fd_table_open_eq n fd path flags mode t :
  wf n t -> in_table fd -> strlen path < PATH_MAX ->
  fd_table_open heap_src fd path flags mode t =
    Ret tt (FdT (<[Z.to_nat fd := Some (t_alloc t)]> (t_table t)) false true
              (<[t_alloc t := opened path flags mode]> (t_heap t)) (Pos.succ (t_alloc t)) (t_k t)).
Proof.
  intros Hw Hf Hp. unfold fd_table_open. rewrite (bind_ret (gets t_init) _ t true t) by (unfold gets; by rewrite (wf_init _ _ Hw)).
  cbn [negb]. rewrite (bind_ret _ _ _ _ _ (lock_eq t (wf_lock _ _ Hw))).
  assert (sized (put_lock true t)) as Hs by apply Hw.
  rewrite (bind_ret _ _ _ _ _ (slot_eq fd _ Hs Hf)). erewrite bind_ret by reflexivity.
  match goal with |- (set_slot fd (Some ?p) ≫= _) ?s = _ => set (p0 := p); set (t1 := s) end.
  assert (sized t1) as Hs1 by apply Hw. rewrite (bind_ret _ _ _ _ _ (set_slot_eq fd (Some p0) t1 Hs1 Hf)).
  unfold copy_path. rewrite (proj2 (Z.ltb_lt _ _) Hp). erewrite bind_ret by reflexivity.
  match goal with |- (set_source_at fd ?f ≫= _) ?s = _ => set (t2 := s) end.
  assert (at_slot fd p0 heap_src t2) as Ha.
  { split; [|apply lookup_insert_eq]. unfold t2. rewrite tget_set by done. by rewrite decide_True. }
  assert (sized t2) as Hs2 by (unfold sized, t2; cbn; rewrite length_insert; apply Hw).
  rewrite (bind_ret _ _ _ _ _ (set_source_at_eq fd p0 heap_src _ t2 Hs2 Hf Ha)).
  unfold unlock, modify, t2, t1. cbn. rewrite insert_insert_eq, (wf_init _ _ Hw). done.
Qed.

Lemma untracked_eq n fd t b : wf n t -> in_table fd ->
  untracked fd (put_lock b t) = Ret (bool_decide (tget fd t = None)) (put_lock b t).
Proof.
  intros Hw Hf. unfold untracked. assert (sized (put_lock b t)) as Hs by apply Hw.
  rewrite (bind_ret _ _ _ _ _ (slot_eq fd _ Hs Hf)). change (tget fd (put_lock b t)) with (tget fd t).
  destruct (tget fd t) as [p|] eqn:E; [|done]. destruct (wf_at n t fd p Hw Hf E) as (x & [_ Hx] & Ht & _).
  rewrite (bind_ret _ _ (put_lock b t) x (put_lock b t)) by by apply source_eq.
  by rewrite (bool_decide_eq_false_2 (f_type x = _)).
Qed.

Lemma fd_table_dup_eq n oldfd newfd t :
  wf n t -> n < 2 ^ 31 - 1 -> in_table oldfd -> in_table newfd ->
  fd_table_dup oldfd newfd t =
    match tget oldfd t with
    | None => Ret tt t
    | Some p =>
      Ret tt (FdT (<[Z.to_nat newfd := Some p]> (t_table t)) false true
                (alter (fun x => with_ref (f_ref x + 1) x) p (t_heap t)) (t_alloc t) (t_k t))
    end.
Proof.
  intros Hw Hn Ho Hf. unfold fd_table_dup. rewrite (bind_ret (gets t_init) _ t true t) by (unfold gets; by rewrite (wf_init _ _ Hw)).
  cbn [negb]. rewrite (bind_ret _ _ _ _ _ (lock_eq t (wf_lock _ _ Hw))).
  rewrite (bind_ret _ _ _ _ _ (untracked_eq n oldfd t true Hw Ho)).
  destruct (tget oldfd t) as [p|] eqn:E.
  2:{ rewrite bool_decide_eq_true_2 by done. unfold unlock, modify. by rewrite put_lock_same by apply Hw. }
  rewrite bool_decide_eq_false_2 by done. assert (sized (put_lock true t)) as Hs by apply Hw.
  rewrite (bind_ret _ _ _ _ _ (slot_eq oldfd _ Hs Ho)). change (tget oldfd (put_lock true t)) with (tget oldfd t).
  rewrite E, (bind_ret _ _ _ _ _ (set_slot_eq newfd (Some p) _ Hs Hf)).
  destruct (wf_at n t oldfd p Hw Ho E) as (x & [_ Hx] & Ht & Hr & _).
  match goal with |- (ref_incr newfd ≫= _) ?s = _ => set (t2 := s) end.
  assert (at_slot newfd p x t2) as Ha by (split; [unfold t2; rewrite tget_set by done; by rewrite decide_True|done]).
  assert (sized t2) as Hs2 by (unfold sized, t2; cbn; rewrite length_insert; apply Hw).
  rewrite (bind_ret (ref_incr newfd) _ t2 tt (put_heap (<[p := with_ref (f_ref x + 1) x]> (t_heap t2)) t2)).
  2:{ unfold ref_incr. rewrite (bind_ret _ _ _ _ _ (source_at_eq newfd p x t2 Hs2 Hf Ha)).
      rewrite (proj2 (Z.eqb_neq _ _)) by lia. by rewrite (set_source_at_eq newfd p x _ t2 Hs2 Hf Ha). }
  unfold unlock, modify, t2, put_lock, put_heap, put_slots. cbn. rewrite (wf_init _ _ Hw). do 2 f_equal.
  apply map_eq. intros q. destruct (decide (q = p)) as [->|Hne].
  - by rewrite lookup_insert_eq, lookup_alter_eq, Hx.
  - by rewrite lookup_insert_ne, lookup_alter_ne by done.
Qed.

Lemma fd_table_close_eq n fd t :
  wf n t -> in_table fd ->
  fd_table_close fd t =
    match tget fd t with
    | None => Ret tt t
    | Some p =>
      Ret tt (FdT (<[Z.to_nat fd := None]> (t_table t)) false true
                (partial_alter (fun o => x ← o; if f_ref x =? 1 then None else Some (with_ref (f_ref x - 1) x)) p (t_heap t))
                (t_alloc t) (t_k t))
    end.
Proof.
  intros Hw Hf. unfold fd_table_close. rewrite (bind_ret (gets t_init) _ t true t) by (unfold gets; by rewrite (wf_init _ _ Hw)).
  cbn [negb]. rewrite (bind_ret _ _ _ _ _ (lock_eq t (wf_lock _ _ Hw))).
  rewrite (bind_ret _ _ _ _ _ (untracked_eq n fd t true Hw Hf)).
  destruct (tget fd t) as [p|] eqn:E.
  2:{ rewrite bool_decide_eq_true_2 by done. unfold unlock, modify. by rewrite put_lock_same by apply Hw. }
  rewrite bool_decide_eq_false_2 by done. set (t1 := put_lock true t). assert (sized t1) as Hs by apply Hw.
  destruct (wf_at n t fd p Hw Hf E) as (x & [Hg Hx] & Ht & Hr & Hpos). assert (at_slot fd p x t1) as Ha by done.
  set (t2 := put_heap (<[p := with_ref (f_ref x - 1) x]> (t_heap t1)) t1).
  rewrite (bind_ret (ref_decr fd) _ t1 tt t2).
  2:{ unfold ref_decr. rewrite (bind_ret _ _ _ _ _ (source_at_eq fd p x t1 Hs Hf Ha)).
      rewrite (proj2 (Z.eqb_neq _ _)) by lia. by rewrite (set_source_at_eq fd p x _ t1 Hs Hf Ha). }
  assert (sized t2) as Hs2 by apply Hw. assert (at_slot fd p (with_ref (f_ref x - 1) x) t2) as Ha2 by by eapply at_slot_put.
  rewrite (bind_ret _ _ _ _ _ (source_at_eq fd p _ t2 Hs2 Hf Ha2)).
  rewrite (bind_ret _ _ _ _ _ (slot_eq fd t2 Hs2 Hf)). change (tget fd t2) with (tget fd t). rewrite E.
  erewrite bind_ret by reflexivity. cbn [f_ref with_ref].
  set (h := partial_alter _ p (t_heap t)). set (t3 := put_heap h t1).
  rewrite (bind_ret _ _ t2 tt t3).
  - rewrite (bind_ret _ _ _ _ _ (set_slot_eq fd None t3 Hs Hf)). unfold unlock, modify, t3, t1, put_lock, put_heap, put_slots. cbn.
    by rewrite (wf_init _ _ Hw).
  - replace (f_ref x - 1 =? 0) with (f_ref x =? 1) by (destruct (Z.eqb_spec (f_ref x) 1), (Z.eqb_spec (f_ref x - 1) 0); lia).
    assert (h = if f_ref x =? 1 then delete p (t_heap t) else <[p := with_ref (f_ref x - 1) x]> (t_heap t)) as Eh.
    { apply map_eq. intros q. unfold h. destruct (decide (q = p)) as [->|Hne].
      - rewrite lookup_partial_alter_eq, Hx. cbn. destruct (f_ref x =? 1).
        + by rewrite lookup_delete_eq. + by rewrite lookup_insert_eq.
      - rewrite lookup_partial_alter_ne by done. destruct (f_ref x =? 1).
        + by rewrite lookup_delete_ne. + by rewrite lookup_insert_ne. }
    destruct (f_ref x =? 1).
    + unfold free_source. rewrite (bind_ret _ _ _ _ _ (source_eq p _ t2 (lookup_insert_eq _ _ _))).
      unfold modify, t3, t2. rewrite Eh. cbn [t_heap put_heap]. rewrite delete_insert_eq. done.
    + unfold t3. by rewrite Eh.
Qed.

Lemma fd_table_opendir_eq n dirp path t :
  wf n t -> in_table (dirfd dirp) -> strlen path < PATH_MAX ->
  fd_table_opendir heap_src dirp path t =
    match tget (dirfd dirp) t with
    | Some p => Ret tt (put_heap (alter (with_dir dirp) p (t_heap t)) t)
    | None => Ret tt (FdT (<[Z.to_nat (dirfd dirp) := Some (t_alloc t)]> (t_table t)) false true
                        (<[t_alloc t := opened_dir path dirp]> (t_heap t)) (Pos.succ (t_alloc t)) (t_k t))
    end.
Proof.
  intros Hw Hf Hp. unfold fd_table_opendir. rewrite (bind_ret (gets t_init) _ t true t) by (unfold gets; by rewrite (wf_init _ _ Hw)).
  cbn [negb]. rewrite (bind_ret _ _ _ _ _ (lock_eq t (wf_lock _ _ Hw))). set (fd := dirfd dirp) in *. set (t1 := put_lock true t).
  assert (sized t1) as Hs by apply Hw. rewrite (bind_ret _ _ _ _ _ (slot_eq fd t1 Hs Hf)). change (tget fd t1) with (tget fd t).
  destruct (tget fd t) as [p|] eqn:E.
  - erewrite bind_ret by reflexivity. destruct (wf_at n t fd p Hw Hf E) as (x & Ha & _).
    rewrite (bind_ret _ _ _ _ _ (set_source_at_eq fd p x _ t1 Hs Hf Ha)). unfold unlock, modify, t1, put_lock, put_heap. cbn.
    rewrite (wf_init _ _ Hw), (wf_lock _ _ Hw). do 2 f_equal. apply map_eq. intros q. destruct (decide (q = p)) as [->|Hne].
    + by rewrite lookup_insert_eq, lookup_alter_eq, (proj2 Ha).
    + by rewrite lookup_insert_ne, lookup_alter_ne by done.
  - set (t2 := FdT (<[Z.to_nat fd := Some (t_alloc t)]> (t_table t)) true true
        (<[t_alloc t := FdSource (f_type heap_src) FD_STATE_NULL path (Z.lor O_RDONLY O_DIRECTORY) 0 (f_offset heap_src) 1
             (f_root heap_src) (f_dirp heap_src)]> (t_heap t)) (Pos.succ (t_alloc t)) (t_k t)).
    assert (sized t2) as Hs2 by (unfold sized, t2; cbn; rewrite length_insert; apply Hw).
    rewrite (bind_ret _ _ t1 tt t2).
    2:{ erewrite bind_ret by reflexivity. match goal with |- (set_slot fd (Some ?p) ≫= _) ?s = _ => set (p0 := p); set (t3 := s) end.
        assert (sized t3) as Hs3 by apply Hw. rewrite (bind_ret _ _ _ _ _ (set_slot_eq fd (Some p0) t3 Hs3 Hf)).
        unfold copy_path. rewrite (proj2 (Z.ltb_lt _ _) Hp). erewrite bind_ret by reflexivity.
        match goal with |- set_source_at fd ?f ?s = _ => set (t4 := s) end.
        assert (at_slot fd p0 heap_src t4) as Ha.
        { split; [|apply lookup_insert_eq]. unfold t4. rewrite tget_set by done. by rewrite decide_True. }
        assert (sized t4) as Hs4 by (unfold sized, t4; cbn; rewrite length_insert; apply Hw).
        rewrite (set_source_at_eq fd p0 heap_src _ t4 Hs4 Hf Ha). unfold t4, t3, t2, put_heap, put_slots. cbn.
        by rewrite insert_insert_eq, (wf_init _ _ Hw). }
    assert (at_slot fd (t_alloc t) (FdSource (f_type heap_src) FD_STATE_NULL path (Z.lor O_RDONLY O_DIRECTORY) 0 (f_offset heap_src) 1
             (f_root heap_src) (f_dirp heap_src)) t2) as Ha.
    { split; [|apply lookup_insert_eq]. unfold tget, t2. cbn. rewrite list_lookup_insert_eq; [done|].
      rewrite (wf_sized _ _ Hw). unfold in_table in Hf. lia. }
    rewrite (bind_ret _ _ _ _ _ (set_source_at_eq fd _ _ _ t2 Hs2 Hf Ha)). unfold unlock, modify, t2, put_lock, put_heap. cbn.
    by rewrite insert_insert_eq.
Qed.

(** *** The counts *)

(** A slot given a new source. *)
Lemma wf_new n t fd x : 1 <= n -> wf n t -> in_table fd -> f_ref x = 1 -> f_type x <> FD_NULL ->
  wf n (FdT (<[Z.to_nat fd := Some (t_alloc t)]> (t_table t)) false true (<[t_alloc t := x]> (t_heap t)) (Pos.succ (t_alloc t)) (t_k t)) /\
  (exact t -> tget fd t = None ->
   exact (FdT (<[Z.to_nat fd := Some (t_alloc t)]> (t_table t)) false true (<[t_alloc t := x]> (t_heap t)) (Pos.succ (t_alloc t)) (t_k t))).
Proof.
  intros Hn Hw Hf Hr Ht. assert (slots_of (t_alloc t) (t_table t) = 0) as Hz.
  { apply slots_of_zero. intros i Hi. destruct (wf_live _ _ Hw _ _ Hi) as [y Hy]. by rewrite (wf_fresh _ _ Hw) in Hy by lia. }
  destruct (t_table t !! Z.to_nat fd) as [o|] eqn:Eo.
  2:{ apply lookup_ge_None in Eo. rewrite (wf_sized _ _ Hw) in Eo. unfold in_table in Hf. lia. }
  assert (forall q, q <> t_alloc t -> slots_of q (<[Z.to_nat fd := Some (t_alloc t)]> (t_table t)) <= slots_of q (t_table t) /\
            (o = None -> slots_of q (<[Z.to_nat fd := Some (t_alloc t)]> (t_table t)) = slots_of q (t_table t))) as Hq.
  { intros q Hne. rewrite (slots_of_insert _ _ _ o) by done. rewrite (bool_decide_eq_false_2 (Some (t_alloc t) = Some q)) by congruence.
    split; [case_bool_decide; lia|]. intros ->. rewrite bool_decide_eq_false_2 by done. lia. }
  assert (slots_of (t_alloc t) (<[Z.to_nat fd := Some (t_alloc t)]> (t_table t)) = 1) as H1.
  { rewrite (slots_of_insert _ _ _ o) by done. rewrite Hz, (bool_decide_eq_true_2 (Some _ = Some _)) by done.
    rewrite bool_decide_eq_false_2; [done|]. intros ->. apply slots_of_pos in Eo. lia. }
  split.
  - split; cbn [t_table t_lock t_init t_heap t_alloc]; try done.
    + unfold sized. cbn [t_table]. rewrite length_insert. apply Hw.
    + intros q Hq'. rewrite lookup_insert_ne by lia. apply (wf_fresh _ _ Hw). lia.
    + intros i q Hi. destruct (decide (q = t_alloc t)) as [->|Hne]; [rewrite lookup_insert_eq; by eexists|].
      rewrite lookup_insert_ne by done. destruct (decide (i = Z.to_nat fd)) as [->|Hi'].
      * rewrite list_lookup_insert_eq in Hi by (by eapply lookup_lt_Some). congruence.
      * rewrite list_lookup_insert_ne in Hi by done. by eapply wf_live.
    + intros q y Hy. destruct (decide (q = t_alloc t)) as [->|Hne].
      * rewrite lookup_insert_eq in Hy. injection Hy as <-. rewrite H1. split; [lia|done].
      * rewrite lookup_insert_ne in Hy by done. destruct (wf_src _ _ Hw _ _ Hy) as [Hr' Ht']. destruct (Hq q Hne). split; [lia|done].
  - intros He Hg. assert (o = None) as ->.
    { unfold tget in Hg. rewrite Eo in Hg. exact Hg. }
    intros q y. cbn [t_table t_heap]. intros Hy. destruct (decide (q = t_alloc t)) as [->|Hne].
    + rewrite lookup_insert_eq in Hy. injection Hy as <-. rewrite H1. lia.
    + rewrite lookup_insert_ne in Hy by done. destruct (He _ _ Hy) as [-> Hp]. destruct (Hq q Hne) as [_ ->]; done.
Qed.

(** The sources changed in nothing that is counted. *)
Lemma wf_alter n t p (f : fd_source -> fd_source) k :
  (forall x, f_ref (f x) = f_ref x) -> (forall x, f_type x <> FD_NULL -> f_type (f x) <> FD_NULL) ->
  (wf n t -> wf n (put_tk k (put_heap (alter f p (t_heap t)) t))) /\
  (exact t -> exact (put_tk k (put_heap (alter f p (t_heap t)) t))).
Proof.
  intros Hr Ht.
  assert (forall q y, alter f p (t_heap t) !! q = Some y -> exists x, t_heap t !! q = Some x /\ f_ref y = f_ref x /\
            (f_type x <> FD_NULL -> f_type y <> FD_NULL)) as Hback.
  { intros q y. destruct (decide (q = p)) as [->|Hne].
    - rewrite lookup_alter_eq. destruct (t_heap t !! p) as [x|]; [|done]. intros [= <-]. exists x. split; [done|]. split; [apply Hr|apply Ht].
    - rewrite lookup_alter_ne by done. intros Hy. by exists y. }
  split.
  - intros Hw. split; cbn [t_table t_lock t_init t_heap t_alloc put_tk put_heap]; try apply Hw.
    + intros q Hq. apply lookup_alter_None. by apply (wf_fresh _ _ Hw).
    + intros i q Hi. destruct (wf_live _ _ Hw _ _ Hi) as [x Hx]. destruct (decide (q = p)) as [->|Hne].
      * rewrite lookup_alter_eq, Hx. by eexists. * rewrite lookup_alter_ne by done. by eexists.
    + intros q y Hy. destruct (Hback _ _ Hy) as (x & Hx & -> & Hty). destruct (wf_src _ _ Hw _ _ Hx) as [? ?]. auto.
  - intros He q y Hy. destruct (Hback _ _ Hy) as (x & Hx & -> & _). by apply He.
Qed.

Lemma table_at t fd : sized t -> in_table fd -> t_table t !! Z.to_nat fd = Some (tget fd t).
Proof. intros Hl Hf. by apply tget_lookup. Qed.

(** A slot [fd] given the tracked source [p]. *)
Lemma wf_dup n t fd p : wf n t -> in_table fd -> is_Some (t_heap t !! p) ->
  let t' := FdT (<[Z.to_nat fd := Some p]> (t_table t)) false true
              (alter (fun x => with_ref (f_ref x + 1) x) p (t_heap t)) (t_alloc t) (t_k t) in
  wf (n + 1) t' /\ (exact t -> tget fd t = None -> exact t').
Proof.
  intros Hw Hf [xp Hxp] t'. pose proof (table_at t fd (wf_sized _ _ Hw) Hf) as Ho.
  assert (forall q, slots_of q (t_table t') = slots_of q (t_table t) - (if bool_decide (tget fd t = Some q) then 1 else 0) +
                      (if bool_decide (q = p) then 1 else 0)) as Hq.
  { intros q. cbn [t' t_table]. rewrite (slots_of_insert _ _ _ _ _ Ho). f_equal.
    destruct (decide (q = p)) as [->|]; [by rewrite !bool_decide_eq_true_2|by rewrite !bool_decide_eq_false_2 by congruence]. }
  assert (forall q y, t_heap t' !! q = Some y -> exists x, t_heap t !! q = Some x /\ f_type y = f_type x /\
            f_ref y = f_ref x + (if bool_decide (q = p) then 1 else 0)) as Hback.
  { intros q y. cbn [t' t_heap]. destruct (decide (q = p)) as [->|Hne].
    - rewrite lookup_alter_eq, Hxp. intros [= <-]. exists xp. by rewrite bool_decide_eq_true_2.
    - rewrite lookup_alter_ne by done. intros Hy. exists y. rewrite bool_decide_eq_false_2 by done. split; [done|]. split; [done|lia]. }
  split.
  - split; cbn [t' t_lock t_init t_alloc]; try done.
    + unfold sized, t'. cbn [t_table]. rewrite length_insert. apply Hw.
    + intros q Hq'. unfold t'. cbn [t_heap]. apply lookup_alter_None. by apply (wf_fresh _ _ Hw).
    + intros i q Hi. unfold t' in Hi |- *. cbn [t_heap t_table] in Hi |- *. assert (is_Some (t_heap t !! q)) as [x Hx].
      { destruct (decide (i = Z.to_nat fd)) as [->|Hi'].
        - rewrite list_lookup_insert_eq in Hi by (by eapply lookup_lt_Some). injection Hi as <-. by eexists.
        - rewrite list_lookup_insert_ne in Hi by done. by eapply wf_live. }
      destruct (decide (q = p)) as [->|Hne]; [rewrite lookup_alter_eq, Hx|rewrite lookup_alter_ne by done]; by eexists.
    + intros q y Hy. destruct (Hback _ _ Hy) as (x & Hx & -> & ->). destruct (wf_src _ _ Hw _ _ Hx) as [Hr Ht].
      fold t'. rewrite Hq. split; [|done]. do 2 case_bool_decide; lia.
  - intros He Hg q y Hy. destruct (Hback _ _ Hy) as (x & Hx & _ & ->). destruct (He _ _ Hx) as [-> Hp].
    fold t'. rewrite Hq, Hg. rewrite (bool_decide_eq_false_2 (None = _)) by done. case_bool_decide; lia.
Qed.

(** A tracked slot emptied. *)
Lemma wf_close n t fd p : wf n t -> in_table fd -> tget fd t = Some p ->
  let t' := FdT (<[Z.to_nat fd := None]> (t_table t)) false true
              (partial_alter (fun o => x ← o; if f_ref x =? 1 then None else Some (with_ref (f_ref x - 1) x)) p (t_heap t))
              (t_alloc t) (t_k t) in
  wf n t' /\ (exact t -> exact t').
Proof.
  intros Hw Hf Hg t'. pose proof (table_at t fd (wf_sized _ _ Hw) Hf) as Ho. rewrite Hg in Ho.
  destruct (wf_at n t fd p Hw Hf Hg) as (xp & [_ Hxp] & Htp & Hrp & Hpos).
  assert (forall q, slots_of q (t_table t') = slots_of q (t_table t) - (if bool_decide (q = p) then 1 else 0)) as Hq.
  { intros q. cbn [t' t_table]. rewrite (slots_of_insert _ _ _ _ _ Ho). rewrite (bool_decide_eq_false_2 (None = _)) by done.
    destruct (decide (q = p)) as [->|]; [rewrite !bool_decide_eq_true_2 by done|rewrite !bool_decide_eq_false_2 by congruence]; lia. }
  assert (forall q y, t_heap t' !! q = Some y -> exists x, t_heap t !! q = Some x /\ f_type y = f_type x /\
            f_ref y = f_ref x - (if bool_decide (q = p) then 1 else 0) /\ (q = p -> f_ref x <> 1)) as Hback.
  { intros q y. cbn [t' t_heap]. destruct (decide (q = p)) as [->|Hne].
    - rewrite lookup_partial_alter_eq, Hxp. cbn. destruct (Z.eqb_spec (f_ref xp) 1); [done|]. intros [= <-].
      exists xp. by rewrite bool_decide_eq_true_2.
    - rewrite lookup_partial_alter_ne by done. intros Hy. exists y. rewrite bool_decide_eq_false_2 by done.
      split; [done|]. split; [done|]. split; [lia|done]. }
  split.
  - split; cbn [t' t_lock t_init t_alloc]; try done.
    + unfold sized, t'. cbn [t_table]. rewrite length_insert. apply Hw.
    + intros q Hq'. unfold t'. cbn [t_heap]. destruct (decide (q = p)) as [->|Hne].
      * by rewrite (wf_fresh _ _ Hw) in Hxp. * rewrite lookup_partial_alter_ne by done. by apply (wf_fresh _ _ Hw).
    + intros i q Hi. unfold t' in Hi |- *. cbn [t_heap t_table] in Hi |- *. destruct (decide (i = Z.to_nat fd)) as [->|Hi'].
      { rewrite list_lookup_insert_eq in Hi by (by eapply lookup_lt_Some). discriminate. }
      assert (t_table t !! i = Some (Some q)) as Hi2 by by rewrite list_lookup_insert_ne in Hi.
      destruct (wf_live _ _ Hw _ _ Hi2) as [x Hx]. destruct (decide (q = p)) as [->|Hne].
      * rewrite lookup_partial_alter_eq, Hxp. cbn. destruct (Z.eqb_spec (f_ref xp) 1) as [H1|]; [|by eexists].
        specialize (Hq p). cbn [t' t_table] in Hq. rewrite (bool_decide_eq_true_2 (p = p)) in Hq by done. apply slots_of_pos in Hi. lia.
      * rewrite lookup_partial_alter_ne by done. by eexists.
    + intros q y Hy. destruct (Hback _ _ Hy) as (x & Hx & -> & -> & H1). destruct (wf_src _ _ Hw _ _ Hx) as [Hr Ht].
      fold t'. rewrite Hq. split; [|done]. case_bool_decide; lia.
  - intros He q y Hy. destruct (Hback _ _ Hy) as (x & Hx & _ & -> & H1). destruct (He _ _ Hx) as [He1 Hp].
    fold t'. rewrite Hq. rewrite <- He1. split; [done|]. case_bool_decide as Hqp; [|lia]. specialize (H1 Hqp). lia.
Qed.

(** *** Sequences of operations *)
Inductive fd_op : Type :=
  | OpOpen (fd : Z) (path : cstr) (flags mode : Z)
  | OpOpendir (dirp : Z) (path : cstr)
  | OpDup (oldfd newfd : Z)
  | OpClose (fd : Z).
Definition run_op (o : fd_op) : M (fdt K) unit :=
  match o with
  | OpOpen fd path flags mode => fd_table_open heap_src fd path flags mode
  | OpOpendir dirp path => fd_table_opendir heap_src dirp path
  | OpDup oldfd newfd => fd_table_dup oldfd newfd
  | OpClose fd => fd_table_close fd
  end.
Fixpoint run_ops (l : list fd_op) : M (fdt K) unit :=
  match l with [] => mret tt | o :: l => run_op o;; run_ops l end.

(** What the hooks pass: descriptors in the table and paths the kernel
    accepted. *)
Definition op_ok (o : fd_op) : Prop :=
  match o with
  | OpOpen fd path _ _ => in_table fd /\ strlen path < PATH_MAX
  | OpOpendir dirp path => in_table (dirfd dirp) /\ strlen path < PATH_MAX
  | OpDup oldfd newfd => in_table oldfd /\ in_table newfd
  | OpClose fd => in_table fd
  end.
(** The operation gives a descriptor that is not tracked yet. *)
Definition fresh_target (o : fd_op) t : Prop :=
  match o with OpOpen fd _ _ _ => tget fd t = None | OpDup _ newfd => tget newfd t = None | _ => True end.
Fixpoint fresh_targets (l : list fd_op) t : Prop :=
  match l with
  | [] => True
  | o :: l => fresh_target o t /\ forall t', run_op o t = Ret tt t' -> fresh_targets l t'
  end.

Lemma run_op_ok n o t : 1 <= n < 2 ^ 31 - 1 -> wf n t -> op_ok o ->
  returns (run_op o) t (fun _ t' => wf (n + 1) t' /\ (exact t -> fresh_target o t -> exact t')).
Proof.
  intros Hn Hw Ho. assert (forall t', wf n t' -> wf (n + 1) t') as Hmono by (intros t'; apply wf_mono; lia).
  destruct o as [fd path flags mode|dirp path|oldfd newfd|fd]; cbn [run_op op_ok] in *.
  - destruct Ho as [Hf Hp]. eapply returns_intro; [by eapply fd_table_open_eq|].
    destruct (wf_new n t fd (opened path flags mode)) as [H1 H2]; try done; [lia|]. split; [by apply Hmono|done].
  - destruct Ho as [Hf Hp]. eapply returns_weaken with (Q := fun _ t' => wf n t' /\ (exact t -> exact t')).
    2:{ intros [] t' [? ?]. auto. }
    unfold returns. rewrite (fd_table_opendir_eq n) by done. destruct (tget _ t) as [p|] eqn:E.
    + pose proof (wf_alter n t p (with_dir dirp) (t_k t)) as Ha. destruct Ha as [Ha1 Ha2]; try done.
      replace (put_heap (alter (with_dir dirp) p (t_heap t)) t) with (put_tk (t_k t) (put_heap (alter (with_dir dirp) p (t_heap t)) t))
        by (by destruct t). auto.
    + destruct (wf_new n t (dirfd dirp) (opened_dir path dirp)) as [H1 H2]; try done; [lia|]. auto.
  - destruct Ho as [Ho Hf]. unfold returns. rewrite (fd_table_dup_eq n) by (done || lia).
    destruct (tget oldfd t) as [p|] eqn:E; [|auto]. destruct (wf_at n t oldfd p Hw Ho E) as (x & [_ Hx] & _).
    apply (wf_dup n t newfd p Hw Hf). by eexists.
  - unfold returns. rewrite (fd_table_close_eq n) by done. destruct (tget fd t) as [p|] eqn:E; [|auto].
    destruct (wf_close n t fd p Hw Ho E) as [H1 H2]. auto.
Qed.

(** C31. Under open, opendir, dup and close the descriptor table's pointers stay
    good: from a table whose every slot points to an allocated source counted at
    least once per slot, no sequence of fewer than 2^31 - 2 of them, in any
    order, on descriptors below 512, follows a freed pointer or overflows a
    count, and each leaves the lock free and the table in that state.  If every
    descriptor given out was untracked then, the counts stay exact: a source is
    freed when its last descriptor is closed, and not before.
    ([fd_table_destroy] is not among them: it leaves slots that dangle,
    [FdWorld.destroy_dangles].) *)
Theorem fd_table_safe (l : list fd_op) t :
  wf 1 t -> Forall op_ok l -> Z.of_nat (length l) < 2 ^ 31 - 2 ->
  returns (run_ops l) t (fun _ t' => wf (1 + Z.of_nat (length l)) t' /\ (exact t -> fresh_targets l t -> exact t')).
Proof.
  intros Hw Ho Hl. assert (forall n, 1 <= n -> n + Z.of_nat (length l) < 2 ^ 31 - 1 -> wf n t ->
    returns (run_ops l) t (fun _ t' => wf (n + Z.of_nat (length l)) t' /\ (exact t -> fresh_targets l t -> exact t'))) as Hgen.
  2:{ apply Hgen; [lia|lia|done]. }
  clear Hw Hl. revert t. induction Ho as [|o l Ho Hall IH]; intros t n Hn1 Hn2 Hw; cbn [run_ops length] in *.
  - apply returns_ret. rewrite Z.add_0_r. auto.
  - pose proof (run_op_ok n o t ltac:(lia) Hw Ho) as Hr. apply returns_inv in Hr as ([] & t1 & Hrun & Hw1 & He1).
    eapply returns_step; [exact Hrun|]. eapply returns_weaken; [apply (IH t1 (n + 1)); [lia|lia|done]|].
    intros [] t2 [Hw2 He2]. split; [by replace (n + Z.of_nat (S (length l))) with (n + 1 + Z.of_nat (length l)) by lia|].
    intros He [Hf Hfs]. apply He2; [by apply He1|]. by apply Hfs.
Qed.

(** *** The empty table *)
Definition blank_table (k : K) : fdt K := FdT (replicate 512 None) false true ∅ 1%positive k.
Definition std_src (fd : Z) : fd_source :=
  FdSource FD_INHERITED FD_STATE_NULL (f_path heap_src) (f_flags heap_src) (f_mode heap_src) (f_offset heap_src) 1 fd (f_dirp heap_src).
Definition add_new (fd : Z) (x : fd_source) t : fdt K :=
  FdT (<[Z.to_nat fd := Some (t_alloc t)]> (t_table t)) false true (<[t_alloc t := x]> (t_heap t)) (Pos.succ (t_alloc t)) (t_k t).

Lemma fd_table_init_eq k :
  fd_table_init heap_src (put_init false (blank_table k)) =
    Ret tt (add_new 2 (std_src 2) (add_new 1 (std_src 1) (add_new 0 (std_src 0) (blank_table k)))).
Proof. vm_compute. reflexivity. Qed.

Lemma blank_wf k : wf 1 (blank_table k) /\ exact (blank_table k).
Proof.
  assert (forall i p, t_table (blank_table k) !! i <> Some (Some p)) as Hno.
  { intros i p Hi. cbn [t_table blank_table] in Hi. apply lookup_replicate in Hi as [? _]. discriminate. }
  split; [|by intros p x Hx].
  split; try done. intros i p Hi. by destruct (Hno i p).
Qed.

Lemma add_new_wf fd x t : wf 1 t /\ exact t -> in_table fd -> tget fd t = None -> f_ref x = 1 -> f_type x <> FD_NULL ->
  wf 1 (add_new fd x t) /\ exact (add_new fd x t).
Proof. intros [Hw He] Hf Hg Hr Ht. destruct (wf_new 1 t fd x) as [H1 H2]; try done. split; [done|]. by apply H2. Qed.

(** [fd_table_init] gives a table whose pointers are good and counts exact. *)
Lemma fd_table_init_wf k :
  returns (fd_table_init heap_src) (put_init false (blank_table k)) (fun _ t' => wf 1 t' /\ exact t').
Proof.
  unfold returns. rewrite fd_table_init_eq.
  repeat (apply add_new_wf; [|done|reflexivity|reflexivity|done]). apply blank_wf.
Qed.
End refs.
