(* ===== verification/FdRestore.v ===== *)
(** What restoring the descriptor table of [FdTable] does to the descriptors of
    a restarted process.

    The kernel's descriptors are seen through the class [FileSpec]: the open
    file description each descriptor refers to, and the path, flags and offset
    of a description. *)

From S2P Require Import Prelude Cstr FdTable FdProps.
Open Scope Z_scope.

(** ** The flags of an open file *)

Lemma flag_bit f n : 0 <= n -> negb (Z.land f (2 ^ n) =? 0) = Z.testbit f n.
Proof.
  intros Hn. destruct (Z.testbit f n) eqn:E.
  - apply negb_true_iff, Z.eqb_neq. intros H. apply (f_equal (fun z => Z.testbit z n)) in H.
    rewrite Z.land_spec, E, Z.pow2_bits_true, Z.bits_0 in H by done. done.
  - apply negb_false_iff, Z.eqb_eq, Z.bits_inj'. intros m Hm. rewrite Z.land_spec, Z.pow2_bits_eqb, Z.bits_0 by done.
    destruct (Z.eqb_spec n m) as [<-|]; [by rewrite E|apply andb_false_r].
Qed.
(** The status flags [fcntl] can change, and what a reopened file must not do
    again. *)
Definition O_STATUS : Z := Z.lor O_APPEND O_NONBLOCK.
Definition O_ONCE : Z := Z.lor O_TRUNC O_EXCL.
(** An equation of flag words, bit by bit. *)
Ltac flag_bits :=
  apply Z.bits_inj'; intros ? ?; unfold O_STATUS, O_ONCE;
  change O_APPEND with (2 ^ 3); change O_NONBLOCK with (2 ^ 2); change O_TRUNC with (2 ^ 10); change O_EXCL with (2 ^ 11);
  change O_CLOEXEC with (2 ^ 24);
  repeat first [rewrite Z.ldiff_spec | rewrite Z.land_spec | rewrite Z.lor_spec | rewrite Z.bits_0 | rewrite Z.pow2_bits_eqb by done];
  repeat match goal with
  | |- context [?a =? ?n] => is_var n; destruct (Z.eqb_spec a n); [subst n|]
  end; try done;
  repeat match goal with |- context [Z.testbit ?x ?n] => destruct (Z.testbit x n) end; try done.
Lemma merge_cloexec_eq ret f :
  merge_cloexec ret f = if negb (Z.land ret FD_CLOEXEC =? 0) then Z.lor f O_CLOEXEC else Z.ldiff f O_CLOEXEC.
Proof.
  unfold merge_cloexec. change O_CLOEXEC with (2 ^ 24). rewrite flag_bit by done. cbv zeta.
  generalize (negb (Z.land ret FD_CLOEXEC =? 0)). intros b. destruct (Z.testbit f 24) eqn:E, b; cbn; try done;
    apply Z.bits_inj'; intros m Hm; rewrite ?Z.lor_spec, ?Z.ldiff_spec, ?Z.pow2_bits_eqb by done;
    (destruct (Z.eqb_spec 24 m) as [Hm'|]; [subst m; by rewrite ?E|by destruct (Z.testbit f m)]).
Qed.

(** The flags [fl] a file is opened with again: those it was opened with, [fl0],
    and the status flags it has, [cur]; close-on-exec as its descriptor has it,
    [cx]. *)
Record file_flags (fl0 cur : Z) (cx : bool) (fl : Z) : Prop := {
  ff_status : Z.land fl O_STATUS = Z.land (Z.lor fl0 cur) O_STATUS;
  ff_cloexec : negb (Z.land fl O_CLOEXEC =? 0) = cx;
  ff_once : Z.land fl O_ONCE = 0;
  ff_others : Z.ldiff (Z.ldiff (Z.ldiff fl O_STATUS) O_ONCE) O_CLOEXEC = Z.ldiff (Z.ldiff (Z.ldiff fl0 O_STATUS) O_ONCE) O_CLOEXEC
}.
(** A directory's: only close-on-exec may change. *)
Record dir_flags (fl0 : Z) (cx : bool) (fl : Z) : Prop := {
  df_cloexec : negb (Z.land fl O_CLOEXEC =? 0) = cx;
  df_others : Z.ldiff fl O_CLOEXEC = Z.ldiff fl0 O_CLOEXEC
}.
Lemma merged_cloexec ret f : negb (Z.land (merge_cloexec ret f) O_CLOEXEC =? 0) = negb (Z.land ret FD_CLOEXEC =? 0).
Proof.
  rewrite merge_cloexec_eq. change O_CLOEXEC with (2 ^ 24). rewrite flag_bit by done.
  destruct (negb _); rewrite ?Z.lor_spec, ?Z.ldiff_spec, Z.pow2_bits_true by done; cbn; by rewrite ?orb_true_r, ?andb_false_r.
Qed.
Lemma file_flags_saved f r ret cur : Z.land r O_STATUS = Z.land cur O_STATUS ->
  file_flags f cur (negb (Z.land ret FD_CLOEXEC =? 0))
    (Z.ldiff (Z.ldiff (merge_cloexec ret (Z.lor f (Z.land r O_STATUS))) O_TRUNC) O_EXCL).
Proof.
  intros ->. split.
  - rewrite merge_cloexec_eq. destruct (negb _); flag_bits.
  - rewrite <- (merged_cloexec ret (Z.lor f (Z.land cur O_STATUS))). do 2 f_equal. flag_bits.
  - flag_bits.
  - rewrite merge_cloexec_eq. destruct (negb _); flag_bits.
Qed.
Lemma dir_flags_saved f ret : dir_flags f (negb (Z.land ret FD_CLOEXEC =? 0)) (merge_cloexec ret f).
Proof. split; [apply merged_cloexec|]. rewrite merge_cloexec_eq. destruct (negb _); flag_bits. Qed.

(** ** The kernel's descriptors *)

Class FileSpec (K : Type) `{FileOS K} := {
  v_fd : K -> Z -> option Z;
  v_desc : K -> Z -> cstr * Z * Z;
  (** close-on-exec, of a descriptor *)
  v_cloexec : K -> Z -> bool;
  (** opening this path with these flags succeeds *)
  openable : cstr -> Z -> Prop;
  spec_open : forall path flags mode k fd k', openable path flags -> k_open path flags mode k = (fd, k') ->
    0 <= fd /\ v_fd k fd = None /\ exists d, (forall i, v_fd k i <> Some d) /\
      (forall i, v_fd k' i = if decide (i = fd) then Some d else v_fd k i) /\
      (forall e, v_desc k' e = if decide (e = d) then (path, flags, 0) else v_desc k e);
  spec_dup2 : forall old new k d r k', v_fd k old = Some d -> k_dup2 old new k = (r, k') ->
    r = new /\ (forall i, v_fd k' i = if decide (i = new) then Some d else v_fd k i) /\
    (forall e, v_desc k' e = v_desc k e);
  spec_close : forall fd k r k', k_close fd k = (r, k') ->
    (forall i, v_fd k' i = if decide (i = fd) then None else v_fd k i) /\ (forall e, v_desc k' e = v_desc k e);
  spec_seek : forall fd off k d r k', v_fd k fd = Some d -> 0 <= off -> k_seek fd off k = (r, k') ->
    r = off /\ (forall i, v_fd k' i = v_fd k i) /\
    (forall e, v_desc k' e = if decide (e = d) then ((v_desc k d).1, off) else v_desc k e);
  (** only the directory's own description moves *)
  spec_seekdir : forall dirp off k, (forall i, v_fd (seekdir dirp off k) i = v_fd k i) /\
    (forall e, (v_desc (seekdir dirp off k) e).1 = (v_desc k e).1 /\
       (v_fd k (dirfd dirp) <> Some e -> v_desc (seekdir dirp off k) e = v_desc k e));
  (** on an open descriptor the queries succeed and change nothing *)
  spec_tell : forall fd k d r k', v_fd k fd = Some d -> k_tell fd k = (r, k') ->
    r = (v_desc k d).2 /\ 0 <= r /\ (forall i, v_fd k' i = v_fd k i) /\ (forall e, v_desc k' e = v_desc k e) /\
    (forall i, v_cloexec k' i = v_cloexec k i);
  spec_getfl : forall fd k d r k', v_fd k fd = Some d -> k_getfl fd k = (r, k') ->
    0 <= r /\ (forall i, v_fd k' i = v_fd k i) /\ (forall e, v_desc k' e = v_desc k e) /\
    (forall i, v_cloexec k' i = v_cloexec k i) /\ Z.land r O_STATUS = Z.land (v_desc k d).1.2 O_STATUS;
  spec_getfd : forall fd k d r k', v_fd k fd = Some d -> k_getfd fd k = (r, k') ->
    0 <= r /\ (forall i, v_fd k' i = v_fd k i) /\ (forall e, v_desc k' e = v_desc k e) /\
    (forall i, v_cloexec k' i = v_cloexec k i) /\ negb (Z.land r FD_CLOEXEC =? 0) = v_cloexec k fd;
  spec_telldir : forall dirp k r k', telldir dirp k = (r, k') ->
    0 <= r /\ (forall i, v_fd k' i = v_fd k i) /\ (forall e, v_desc k' e = v_desc k e) /\
    (forall i, v_cloexec k' i = v_cloexec k i);
}.

Lemma put_heap_same {K} (t : fdt K) k : put_tk k t = put_tk k (put_heap (t_heap t) t).
Proof. by destruct t. Qed.

Section restore.
Context {K : Type} `{FileSpec K}.
(** The table as the checkpoint saved it, in the restarted process. *)
Context (t0 : fdt K) (Hsz : sized t0).
Implicit Types (t : fdt K) (x : fd_source) (h : gmap loc fd_source).

Definition inherited (i : Z) x : Prop := in_table i /\ (exists p, at_slot i p x t0) /\ f_type x = FD_INHERITED.
Definition opened_at (i : Z) (p : loc) x : Prop := in_table i /\ at_slot i p x t0 /\ f_type x <> FD_INHERITED.

(** A table that can be restored. *)
Record restorable : Prop := {
  r_live : forall i p, in_table i -> tget i t0 = Some p -> is_Some (t_heap t0 !! p);
  r_type : forall i p x, opened_at i p x -> f_type x = FD_FILE \/ f_type x = FD_DIRECTORY;
  r_state : forall i p x, opened_at i p x -> f_state x <> FD_STATE_RESTORED;
  r_openable : forall i p x, opened_at i p x -> openable (f_path x) (f_flags x) /\ 0 <= f_offset x;
  (** an open directory's own descriptor is one of those it is tracked at *)
  r_dir : forall i p x, opened_at i p x -> f_type x = FD_DIRECTORY ->
    in_table (dirfd (f_dirp x)) /\ tget (dirfd (f_dirp x)) t0 = Some p;
  (** the inherited descriptors are copies of the three standard ones, and none
      of those has been replaced by another *)
  r_root : forall i x, inherited i x -> 0 <= f_root x < 3 /\ (i < 3 -> f_root x = i)
}.

(** The descriptors of the restarted process. *)
Definition desc_ok x (d : cstr * Z * Z) : Prop :=
  d.1 = (f_path x, f_flags x) /\ (f_type x = FD_FILE -> d.2 = f_offset x).

Record rebuilt (k0 k : K) : Prop := {
  b_inherited : forall i x, inherited i x -> v_fd k i = v_fd k0 (f_root x);
  b_opened : forall i p x, opened_at i p x -> exists d, v_fd k i = Some d /\ desc_ok x (v_desc k d);
  b_shared : forall i p x j q y, opened_at i p x -> opened_at j q y -> (v_fd k i = v_fd k j <-> p = q);
  b_closed : forall i, 0 <= i < 3 -> tget i t0 = None -> v_fd k i = None
}.

Context (Hr : restorable).

Lemma opened_same_source i j p x y : opened_at i p x -> in_table j -> at_slot j p y t0 -> opened_at j p x.
Proof. intros (_ & [_ Hx] & Ht) Hj [Hg _]. done. Qed.
Lemma opened_fun i p q x y : opened_at i p x -> opened_at i q y -> p = q /\ x = y.
Proof. intros (_ & [Hg Hx] & _) (_ & [Hg' Hx'] & _). rewrite Hg in Hg'. injection Hg' as <-. split; congruence. Qed.

(** *** The states of the loops *)
Definition state h k : fdt K := put_tk k (put_heap h t0).
Lemma slot_state fd h k : in_table fd -> slot fd (state h k) = Ret (tget fd t0) (state h k).
Proof. intros Hf. exact (slot_eq fd (state h k) Hsz Hf). Qed.
Lemma kern_state {A} (f : K -> A * K) h k a k' : f k = (a, k') -> kern f (state h k) = Ret a (state h k').
Proof. intros Hf. unfold kern. cbn [t_k state put_tk]. by rewrite Hf. Qed.
Lemma source_at_state fd p x h k : in_table fd -> tget fd t0 = Some p -> h !! p = Some x ->
  source_at fd (state h k) = Ret x (state h k).
Proof. intros Hf Hg Hx. exact (source_at_eq fd p x (state h k) Hsz Hf (conj Hg Hx)). Qed.
Lemma set_source_at_state fd p x f h k : in_table fd -> tget fd t0 = Some p -> h !! p = Some x ->
  set_source_at fd f (state h k) = Ret tt (state (<[p := f x]> h) k).
Proof. intros Hf Hg Hx. exact (set_source_at_eq fd p x f (state h k) Hsz Hf (conj Hg Hx)). Qed.

(** ** The inherited descriptors *)
Definition inv1 (k0 : K) (n : Z) t : Prop := exists k, t = state (t_heap t0) k /\
  (forall i, 0 <= i < 3 -> v_fd k i = v_fd k0 i) /\
  (forall i x, i < n -> inherited i x -> v_fd k i = v_fd k0 (f_root x)).

Lemma restore_inherited_ok k0 n t :
  (forall i, 0 <= i < 3 -> is_Some (v_fd k0 i)) -> in_table n -> inv1 k0 n t ->
  returns (restore_inherited n) t (fun _ t' => inv1 k0 (n + 1) t').
Proof.
  intros Hstd Hn (k & -> & H3 & Hi). unfold restore_inherited. eapply returns_step; [by apply slot_state|].
  assert (forall k', (forall i x, i = n -> inherited i x -> v_fd k' i = v_fd k0 (f_root x)) ->
            (forall i, i <> n -> v_fd k' i = v_fd k i) -> (forall i, 0 <= i < 3 -> v_fd k' i = v_fd k i) ->
            inv1 k0 (n + 1) (state (t_heap t0) k')) as Hend.
  { intros k' Hn' Ho H3'. exists k'. split; [done|]. split; [intros i ?; rewrite H3' by done; by apply H3|].
    intros i x Hlt Hix. destruct (decide (i = n)) as [|Hne]; [by apply Hn'|]. rewrite Ho by done. apply Hi; [lia|done]. }
  destruct (tget n t0) as [p|] eqn:Eg.
  2:{ apply returns_ret. apply Hend; [|done|done]. intros i x -> (_ & (p & [Hp _]) & _). congruence. }
  destruct (r_live Hr n p Hn Eg) as [x Hx].
  eapply returns_step; [by apply source_eq|]. case_bool_decide as Ht; cbn [negb].
  2:{ apply returns_ret. apply Hend; [|done|done]. intros i y -> (_ & (q & [Hq Hy]) & Hty). congruence. }
  assert (inherited n x) as Hin by (split; [done|]; split; [by exists p|done]).
  destruct (r_root Hr n x Hin) as [Hroot Hsmall].
  destruct (Z.eqb_spec n (f_root x)) as [Heq|Hne]; cbn [negb].
  - apply returns_ret. apply Hend; [|done|done]. intros i y -> (_ & (q & [Hq Hy]) & _).
    assert (y = x) as -> by congruence. rewrite <- Heq. apply H3. lia.
  - assert (3 <= n) as Hn3. { destruct (Z.ltb_spec n 3); [|lia]. rewrite Hsmall in Hne by done. done. }
    destruct (Hstd _ Hroot) as [d Hd]. destruct (k_dup2 (f_root x) n k) as [r k'] eqn:E.
    eapply returns_step; [by apply kern_state|].
    apply spec_dup2 with (d := d) in E as (-> & Hfd & _); [|by rewrite H3].
    rewrite Z.eqb_refl. cbn [negb]. apply returns_ret. apply Hend.
    + intros i y -> (_ & (q & [Hq Hy]) & _). assert (y = x) as -> by congruence. by rewrite Hfd, decide_True, Hd.
    + intros i Hi'. by rewrite Hfd, decide_False.
    + intros i Hi'. rewrite Hfd, decide_False; [done|lia].
Qed.

(** ** The opened ones *)
Definition rst (r : Z) x : fd_source := with_src_state FD_STATE_RESTORED (with_root_fd r x).

(** Descriptors below [n] are restored. *)
Record inv2 (k1 : K) (n : Z) t h (k : K) : Prop := {
  i_state : t = state h k;
  i_heap : forall p x, t_heap t0 !! p = Some x ->
    (exists r, r < n /\ opened_at r p x /\ h !! p = Some (rst r x)) \/
    ((forall r, r < n -> ~ opened_at r p x) /\ h !! p = Some x);
  i_inherited : forall i x, inherited i x -> is_Some (v_fd k1 i) /\ v_fd k i = v_fd k1 i;
  i_opened : forall i p x, i < n -> opened_at i p x -> exists d, v_fd k i = Some d /\ desc_ok x (v_desc k d);
  i_shared : forall i p x j, i < n -> opened_at i p x -> v_fd k j = v_fd k i <-> (j < n /\ opened_at j p x)
}.

Lemma not_inherited i p x y : opened_at i p x -> inherited i y -> False.
Proof. intros (_ & [Hg Hx] & Ht) (_ & (q & [Hg' Hy]) & Hty). congruence. Qed.

(** The kernel after slot [n] has been given a description [d] that only
    descriptors tracked at [p] have. *)
Lemma inv2_step k1 n p x h k h' k' d :
  inv2 k1 n (state h k) h k -> opened_at n p x ->
  (forall q y, q <> p -> t_heap t0 !! q = Some y -> h' !! q = h !! q) ->
  (exists r, r <= n /\ opened_at r p x /\ h' !! p = Some (rst r x)) ->
  (forall i, v_fd k' i = if decide (i = n) then Some d else v_fd k i) ->
  (forall j, j <> n -> v_fd k j = Some d <-> (j < n /\ opened_at j p x)) ->
  desc_ok x (v_desc k' d) ->
  (forall i e y, i < n -> opened_at i e y -> e <> p -> forall d', v_fd k i = Some d' -> v_desc k' d' = v_desc k d') ->
  inv2 k1 (n + 1) (state h' k') h' k'.
Proof.
  intros Hi Hop Hother (r & Hrn & Hro & Hrh) Hfd Hd Hdesc Hkeep.
  assert (forall i q y, i < n -> opened_at i q y -> v_fd k' i = v_fd k i) as Hlow.
  { intros i q y Hlt _. rewrite Hfd, decide_False; [done|lia]. }
  split; [done| | | |].
  - intros q y Hq. destruct (decide (q = p)) as [->|Hne].
    + assert (y = x) as ->. { destruct Hop as (_ & [_ Hx] & _). congruence. }
      left. exists r. split; [lia|done].
    + rewrite (Hother q y) by done. destruct (i_heap _ _ _ _ _ Hi q y Hq) as [(r' & H1 & H2 & H3)|[H1 H2]].
      * left. exists r'. split; [lia|done].
      * right. split; [|done]. intros r' Hr' Hop'. destruct (decide (r' = n)) as [->|].
        { destruct (opened_fun _ _ _ _ _ Hop Hop') as [E _]. congruence. } by apply (H1 r'); [lia|].
  - intros i y Hin. destruct (i_inherited _ _ _ _ _ Hi i y Hin) as [Hs He]. split; [done|].
    rewrite Hfd, decide_False; [done|]. intros ->. exact (not_inherited _ _ _ _ Hop Hin).
  - intros i q y Hlt Hop'. destruct (decide (i = n)) as [->|Hne].
    + destruct (opened_fun _ _ _ _ _ Hop Hop') as [<- <-]. exists d. split; [by rewrite Hfd, decide_True|done].
    + assert (i < n) as Hlt' by lia. destruct (i_opened _ _ _ _ _ Hi i q y Hlt' Hop') as (d' & Hd' & Hdo).
      exists d'. rewrite (Hlow i q y) by done. split; [done|]. destruct (decide (q = p)) as [->|Hqp].
      * assert (y = x) as -> by (destruct Hop as (_ & [_ Hx] & _), Hop' as (_ & [_ Hy] & _); congruence).
        assert (v_fd k i = Some d) as Hid by (apply Hd; done). rewrite Hid in Hd'. injection Hd' as <-. done.
      * rewrite (Hkeep i q y) by done. done.
  - intros i q y j Hlt Hop'. rewrite !Hfd. destruct (decide (i = n)) as [->|Hne].
    + destruct (opened_fun _ _ _ _ _ Hop Hop') as [<- <-]. destruct (decide (j = n)) as [->|Hjn].
      * split; [|done]. intros _. split; [lia|done].
      * rewrite Hd by done. split; intros [? ?]; (split; [lia|done]).
    + assert (i < n) as Hlt' by lia. pose proof (i_shared _ _ _ _ _ Hi i q y) as Hsh.
      destruct (decide (j = n)) as [->|Hjn].
      * split.
        -- intros Heq. symmetry in Heq. apply Hd in Heq as [_ Hip]; [|done].
           destruct (opened_fun _ _ _ _ _ Hip Hop') as [<- <-]. split; [lia|done].
        -- intros [_ Hnq]. destruct (opened_fun _ _ _ _ _ Hop Hnq) as [<- <-]. symmetry. apply Hd; done.
      * rewrite (Hsh j Hlt' Hop'). split; intros [? ?]; (split; [lia|done]).
Qed.

(** A descriptor reopened: a new description, at its number only. *)
Lemma reopen_ok n p x h k : opened_at n p x -> h !! p = Some x ->
  returns (reopen n) (state h k) (fun ok t' => ok = true /\ exists k' d, t' = state h k' /\
    (forall i, v_fd k' i = if decide (i = n) then Some d else v_fd k i) /\
    (forall i, v_fd k i <> Some d) /\
    (forall e, v_desc k' e = if decide (e = d) then (f_path x, f_flags x, 0) else v_desc k e)).
Proof.
  intros Hop Hx. pose proof Hop as (Hn & [Hg Hx0] & Ht). unfold reopen.
  destruct (r_openable Hr n p x ltac:(done)) as [Hopen _].
  eapply returns_step; [by apply (source_at_state n p x)|].
  destruct (k_open (f_path x) (f_flags x) (f_mode x) k) as [ret k1] eqn:E1.
  eapply returns_step; [by apply kern_state|].
  destruct (spec_open _ _ _ _ _ _ Hopen E1) as (Hret & Hnone & d & Hfresh & Hfd1 & Hdesc1).
  rewrite (proj2 (Z.ltb_ge ret 0)) by done. destruct (Z.eqb_spec ret n) as [->|Hne]; cbn [negb].
  - apply returns_ret. split; [done|]. by exists k1, d.
  - destruct (k_dup2 ret n k1) as [r k2] eqn:E2. eapply returns_step; [by apply kern_state|].
    apply spec_dup2 with (d := d) in E2 as (-> & Hfd2 & Hdesc2); [|by rewrite Hfd1, decide_True].
    rewrite Z.eqb_refl. cbn [negb]. destruct (k_close ret k2) as [r k3] eqn:E3.
    eapply returns_step; [by apply kern_state|]. destruct (spec_close _ _ _ _ E3) as [Hfd3 Hdesc3].
    apply returns_ret. split; [done|]. exists k3, d. split; [done|]. split; [|split; [done|]].
    + intros i. rewrite Hfd3, Hfd2, Hfd1. destruct (decide (i = ret)) as [->|]; [|done].
      rewrite (decide_False (P := ret = n)) by done. by rewrite Hnone.
    + intros e. by rewrite Hdesc3, Hdesc2, Hdesc1.
Qed.

(** The source after it has been restored at [n]. *)
Lemma mark_restored n p x h k : opened_at n p x -> h !! p = Some x ->
  (set_source_at n (with_root_fd n);; set_source_at n (with_src_state FD_STATE_RESTORED);; mret 0) (state h k) =
    Ret 0 (state (<[p := rst n x]> h) k).
Proof.
  intros (Hn & [Hg _] & _) Hx. rewrite (bind_ret _ _ _ _ _ (set_source_at_state n p x _ h k Hn Hg Hx)).
  rewrite (bind_ret _ _ _ _ _ (set_source_at_state n p _ _ _ k Hn Hg (lookup_insert_eq _ _ _))).
  by rewrite insert_insert_eq.
Qed.

(** The first descriptor of a source. *)
Lemma restore_first k1 n p x h k : inv2 k1 n (state h k) h k -> opened_at n p x -> h !! p = Some x ->
  (forall r, r < n -> ~ opened_at r p x) ->
  returns (fd_ops_restore (f_type x) n) (state h k) (fun ret t' => ret = 0 /\ exists h' k', inv2 k1 (n + 1) t' h' k').
Proof.
  intros Hi Hop Hx Hfirst.
  assert (forall k' k2 d,
      (forall i, v_fd k2 i = v_fd k' i) -> (forall i, v_fd k' i = if decide (i = n) then Some d else v_fd k i) ->
      (forall i, v_fd k i <> Some d) -> desc_ok x (v_desc k2 d) ->
      (forall i e y d', i < n -> opened_at i e y -> e <> p -> v_fd k i = Some d' -> v_desc k2 d' = v_desc k d') ->
      inv2 k1 (n + 1) (state (<[p := rst n x]> h) k2) (<[p := rst n x]> h) k2) as Hend.
  { intros k' k2 d Hk2 Hk' Hd Hdesc Hkeep. eapply inv2_step with (p := p) (x := x) (d := d); try done.
    - intros q y Hne _. by rewrite lookup_insert_ne.
    - exists n. split; [lia|]. split; [done|]. apply lookup_insert_eq.
    - intros i. by rewrite Hk2, Hk'.
    - intros j _. split; [intros Hj; by destruct (Hd j)|]. intros [Hlt Hj]. by destruct (Hfirst j).
    - intros i e y Hlt Hoi Hne d' Hd'. by eapply Hkeep. }
  destruct (r_openable Hr n p x Hop) as [_ Hoff].
  assert (in_table n /\ tget n t0 = Some p) as [Hn Hg] by (by destruct Hop as (? & [? _] & _)).
  destruct (r_type Hr n p x Hop) as [Ht|Ht]; rewrite Ht; cbn [fd_ops_restore];
    [unfold file_restore|unfold dir_restore]; apply returns_bind;
    (eapply returns_weaken; [by apply (reopen_ok n p x)|]); intros ok t1 (-> & k' & d & -> & Hk' & Hd & Hdesc); cbn [negb];
    (eapply returns_step; [by apply (source_at_state n p x)|]).
  - destruct (k_seek n (f_offset x) k') as [r k2] eqn:E. eapply returns_step; [by apply kern_state|].
    apply spec_seek with (d := d) in E as (-> & Hk2 & Hdesc2); [|by rewrite Hk', decide_True|done].
    rewrite Z.eqb_refl. cbn [negb]. unfold returns. rewrite (mark_restored n p x h k2 Hop Hx). split; [done|].
    exists (<[p := rst n x]> h), k2. apply (Hend k' k2 d Hk2 Hk' Hd).
    + rewrite Hdesc2, !Hdesc, !decide_True by done. by split.
    + intros i e y d' Hlt Hoi Hne Hd'. assert (d' <> d) by (intros ->; by apply (Hd i)).
      by rewrite Hdesc2, !decide_False, Hdesc, decide_False by done.
  - eapply returns_step; [reflexivity|]. set (k2 := seekdir (f_dirp x) (f_offset x) k').
    destruct (spec_seekdir (f_dirp x) (f_offset x) k') as [Hk2 Hdesc2]. fold k2 in Hk2, Hdesc2.
    change (put_tk _ (state h k')) with (state h k2).
    unfold returns. rewrite (mark_restored n p x h k2 Hop Hx). split; [done|].
    exists (<[p := rst n x]> h), k2. apply (Hend k' k2 d Hk2 Hk' Hd).
    + unfold desc_ok. destruct (Hdesc2 d) as [-> _]. rewrite Hdesc, decide_True by done. split; [done|]. by rewrite Ht.
    + intros i e y d' Hlt Hoi Hne Hd'. assert (d' <> d) as Hdd by (intros ->; by apply (Hd i)).
      destruct (Hdesc2 d') as [_ ->]; [by rewrite Hdesc, decide_False|]. rewrite Hk'.
      destruct (decide (dirfd (f_dirp x) = n)); [congruence|]. intros Hdir.
      destruct (r_dir Hr n p x Hop Ht) as [_ Hdp].
      assert (v_fd k (dirfd (f_dirp x)) = v_fd k i) as Hsame by congruence.
      apply (i_shared _ _ _ _ _ Hi i e y) in Hsame as [_ (_ & [Hde _] & _)]; [|done|done]. congruence.
Qed.

Lemma restore_opened_ok k1 n t : in_table n -> (exists h k, inv2 k1 n t h k) ->
  returns (restore_opened n) t (fun _ t' => exists h k, inv2 k1 (n + 1) t' h k).
Proof.
  intros Hn (h & k & Hi). pose proof (i_state _ _ _ _ _ Hi) as ->. unfold restore_opened.
  eapply returns_step; [by apply slot_state|].
  assert ((forall p x, ~ opened_at n p x) -> inv2 k1 (n + 1) (state h k) h k) as Hskip.
  { intros Hno. assert (forall i p x, opened_at i p x -> i < n + 1 <-> i < n) as Hlt.
    { intros i p x Hop. split; [|lia]. intros ?. destruct (decide (i = n)) as [->|]; [by destruct (Hno p x)|lia]. }
    split; [done| | | |].
    - intros p x Hx. destruct (i_heap _ _ _ _ _ Hi p x Hx) as [(r & ? & ? & ?)|[H1 H2]].
      + left. exists r. split; [lia|done]. + right. split; [|done]. intros r Hlr Hop. apply (H1 r); [|done]. by apply (Hlt r p x).
    - apply Hi.
    - intros i p x Hli Hop. apply (i_opened _ _ _ _ _ Hi i p x); [|done]. by apply (Hlt i p x).
    - intros i p x j Hli Hop. rewrite (i_shared _ _ _ _ _ Hi i p x j); [|by apply (Hlt i p x)|done].
      split; intros [? ?]; (split; [|done]); [lia|by apply (Hlt j p x)]. }
  destruct (tget n t0) as [p|] eqn:Eg.
  2:{ apply returns_ret. exists h, k. apply Hskip. intros p x (_ & [Hg _] & _). congruence. }
  destruct (r_live Hr n p Hn Eg) as [x Hx].
  destruct (i_heap _ _ _ _ _ Hi p x Hx) as [(r & Hrn & Hro & Hh)|[Hfirst Hh]];
    (eapply returns_step; [by apply source_eq|]).
  - assert (opened_at n p x) as Hop by (split; [done|]; split; [done|]; by destruct Hro as (_ & _ & ?)).
    rewrite (bool_decide_eq_false_2 (f_type _ = _)) by (by destruct Hop as (_ & _ & ?)).
    rewrite (bool_decide_eq_true_2 (f_state _ = _)) by done. cbn [f_root rst with_src_state with_root_fd].
    destruct (i_opened _ _ _ _ _ Hi r p x Hrn Hro) as (d & Hd & Hdesc).
    destruct (k_dup2 r n k) as [ret k'] eqn:E. eapply returns_step; [by apply kern_state|].
    apply spec_dup2 with (d := d) in E as (-> & Hk' & Hdesc'); [|done]. rewrite Z.eqb_refl. cbn [negb].
    apply returns_ret. exists h, k'. eapply inv2_step with (p := p) (x := x) (d := d); try done.
    + exists r. split; [lia|done].
    + intros j _. rewrite <- Hd. by apply (i_shared _ _ _ _ _ Hi r p x).
    + by rewrite Hdesc'.
  - case_bool_decide as Ht.
    { apply returns_ret. exists h, k. apply Hskip. intros q y (_ & [Hg Hy] & Hty). congruence. }
    assert (opened_at n p x) as Hop by done.
    rewrite bool_decide_eq_false_2 by by eapply (r_state Hr). apply returns_bind.
    eapply returns_weaken; [by apply (restore_first k1 n p x h k)|]. intros ret t' (-> & Hinv). cbn [Z.ltb Z.compare].
    by apply returns_ret.
Qed.

(** ** The whole table *)
Lemma fd_table_restore_ok k0 : (forall i, 0 <= i < 3 -> is_Some (v_fd k0 i)) ->
  returns fd_table_restore (put_tk k0 t0) (fun _ t' => rebuilt k0 (t_k t')).
Proof.
  intros Hstd. unfold fd_table_restore, for_all_fds. apply returns_bind.
  eapply returns_weaken; [apply (for_fds_rule (inv1 k0) (Z.to_nat MAXFILES) 0)|].
  { exists k0. split; [apply put_heap_same|]. split; [done|]. intros i x ? [[? _] _]. lia. }
  { intros fd t Hfd Hi. apply restore_inherited_ok; [done| |done]. unfold in_table, MAXFILES in *. lia. }
  intros [] t1 (k1 & -> & _ & Hinh). rewrite Z2Nat.id in Hinh by done. apply returns_bind.
  assert (forall i x, inherited i x -> v_fd k1 i = v_fd k0 (f_root x)) as Hin1.
  { intros i x Hix. apply Hinh; [|done]. destruct Hix as [[_ ?] _]. unfold MAXFILES in *. lia. }
  eapply returns_weaken; [apply (for_fds_rule (fun n t => exists h k, inv2 k1 n t h k) (Z.to_nat MAXFILES) 0)|].
  { exists (t_heap t0), k1. split; [done| | | |].
    - intros p x Hx. right. split; [|done]. intros r ? ([? _] & _). lia.
    - intros i x Hix. split; [|done]. rewrite (Hin1 i x Hix). apply Hstd. by destruct (r_root Hr i x Hix).
    - intros i p x ? ([? _] & _). lia. - intros i p x j ? ([? _] & _). lia. }
  { intros fd t Hfd Hi. apply restore_opened_ok; [|done]. unfold in_table, MAXFILES in *. lia. }
  intros [] t2 (h & k & Hi). pose proof (i_state _ _ _ _ _ Hi) as ->. rewrite Z2Nat.id in Hi by done.
  assert (forall i p x, opened_at i p x -> i < 0 + MAXFILES) as Hall by (intros i p x ([_ ?] & _); lia).
  set (I := fun n t => exists k', t = state h k' /\ (forall e, v_desc k' e = v_desc k e) /\
    (forall i, (in_table i -> tget i t0 <> None) -> v_fd k' i = v_fd k i) /\
    (forall i, 0 <= i < n -> tget i t0 = None -> v_fd k' i = None) /\
    (forall i, v_fd k' i = v_fd k i \/ v_fd k' i = None)).
  eapply returns_weaken; [apply (for_fds_rule I 3 0)|].
  { exists k. split; [done|]. split; [done|]. split; [done|]. split; [intros; lia|by left]. }
  { intros fd t Hfd (k' & -> & H1 & H2 & H3 & H4). assert (in_table fd) as Hf by (unfold in_table, MAXFILES; lia).
    unfold close_inherited. eapply returns_step; [by apply slot_state|]. destruct (tget fd t0) as [p|] eqn:Eg.
    - apply returns_ret. exists k'. split; [done|]. split; [done|]. split; [done|]. split; [|done].
      intros i Hi' Hno. apply H3; [|done]. destruct (decide (i = fd)) as [->|]; [congruence|lia].
    - destruct (k_close fd k') as [r k''] eqn:E. eapply returns_step; [by apply kern_state|].
      destruct (spec_close _ _ _ _ E) as [Hk Hd]. apply returns_ret. exists k''. split; [done|].
      split; [intros e; by rewrite Hd|]. split; [|split].
      + intros i Hi'. rewrite Hk, decide_False; [by apply H2|]. intros ->. by apply Hi'.
      + intros i Hi' Hno. rewrite Hk. destruct (decide (i = fd)); [done|]. apply H3; [lia|done].
      + intros i. rewrite Hk. destruct (decide (i = fd)); [by right|apply H4]. }
  intros [] t3 (k' & -> & H1 & H2 & H3 & H4). cbn [t_k state put_tk].
  assert (forall i p x, opened_at i p x -> v_fd k' i = v_fd k i) as Hop.
  { intros i p x (Hi' & [Hg _] & _). apply H2. intros _. congruence. }
  split.
  - intros i x Hix. rewrite H2. 2:{ intros _. destruct Hix as (_ & (p & [Hg _]) & _). congruence. }
    destruct (i_inherited _ _ _ _ _ Hi i x Hix) as [_ ->]. by apply Hin1.
  - intros i p x Hox. destruct (i_opened _ _ _ _ _ Hi i p x) as (d & Hd & Hdesc); [by eapply Hall|done|].
    exists d. rewrite (Hop i p x), H1 by done. done.
  - intros i p x j q y Hox Hoy. rewrite (Hop i p x), (Hop j q y) by done.
    split.
    + intros He. apply (i_shared _ _ _ _ _ Hi j q y i) in He as [_ Hij]; [|by eapply Hall|done].
      by destruct (opened_fun _ _ _ _ _ Hox Hij).
    + intros ->. symmetry. apply (i_shared _ _ _ _ _ Hi i q x j); [by eapply Hall|done|].
      split; [by eapply Hall|]. assert (x = y) as -> by (destruct Hox as (_ & [_ ?] & _), Hoy as (_ & [_ ?] & _); congruence). done.
  - intros i Hi' Hno. apply H3; [lia|done].
Qed.
End restore.

(** ** Saving *)
Section save.
Context {K : Type} `{FileSpec K}.
(** The table when the checkpoint begins. *)
Context (t0 : fdt K) (Hsz : sized t0).
Implicit Types (t : fdt K) (x : fd_source) (h : gmap loc fd_source).

(** The table knows the process's descriptors. *)
Record tracks : Prop := {
  k_live : forall i p, in_table i -> tget i t0 = Some p -> is_Some (t_heap t0 !! p);
  k_type : forall i p x, opened_at t0 i p x -> f_type x = FD_FILE \/ f_type x = FD_DIRECTORY;
  k_desc : forall i p x, opened_at t0 i p x -> exists d, v_fd (t_k t0) i = Some d /\
    forall j y, opened_at t0 j p y -> v_fd (t_k t0) j = Some d;
  k_path : forall i p x flags, opened_at t0 i p x -> openable (f_path x) flags;
  k_dir : forall i p x, opened_at t0 i p x -> f_type x = FD_DIRECTORY ->
    in_table (dirfd (f_dirp x)) /\ tget (dirfd (f_dirp x)) t0 = Some p;
  k_root : forall i x, inherited t0 i x -> 0 <= f_root x < 3 /\ (i < 3 -> f_root x = i)
}.
Context (Hk : tracks).

Definition same_src x x' : Prop :=
  f_type x' = f_type x /\ f_path x' = f_path x /\ f_ref x' = f_ref x /\ f_root x' = f_root x /\
  f_dirp x' = f_dirp x /\ f_mode x' = f_mode x.
(** The kernel is as it was. *)
Definition same_view (k : K) : Prop :=
  (forall i, v_fd k i = v_fd (t_k t0) i) /\ (forall e, v_desc k e = v_desc (t_k t0) e) /\
  (forall i, v_cloexec k i = v_cloexec (t_k t0) i).
Definition saved_at (i : Z) x x' : Prop :=
  same_src x x' /\ f_state x' = FD_STATE_SAVED /\ 0 <= f_offset x' /\
  (f_type x = FD_FILE -> exists d, v_fd (t_k t0) i = Some d /\ f_offset x' = (v_desc (t_k t0) d).2).
(** The flags [fl] a source is opened with again, saved at its descriptor
    [i]. *)
Definition flags_at (i : Z) x (fl : Z) : Prop :=
  if bool_decide (f_type x = FD_FILE)
  then exists d, v_fd (t_k t0) i = Some d /\ file_flags (f_flags x) (v_desc (t_k t0) d).1.2 (v_cloexec (t_k t0) i) fl
  else dir_flags (f_flags x) (v_cloexec (t_k t0) i) fl.
(** The lowest descriptor of a source, at which it is saved. *)
Definition first_at (i : Z) (p : loc) x : Prop := opened_at t0 i p x /\ forall j, j < i -> ~ opened_at t0 j p x.

Lemma same_view_next k k' : same_view k -> (forall i, v_fd k' i = v_fd k i) -> (forall e, v_desc k' e = v_desc k e) ->
  (forall i, v_cloexec k' i = v_cloexec k i) -> same_view k'.
Proof. intros (H1 & H2 & H5) H3 H4 H6. split_and!; intros ?; by rewrite ?H3, ?H4, ?H6. Qed.

(** One descriptor saved. *)
Lemma save_one n p x h k : opened_at t0 n p x -> h !! p = Some x -> same_view k ->
  returns (fd_ops_save (f_type x) n) (state t0 h k) (fun _ t' => exists x' k', t' = state t0 (<[p := x']> h) k' /\
    saved_at n x x' /\ flags_at n x (f_flags x') /\ same_view k').
Proof.
  intros Hop Hx Hv. assert (in_table n /\ tget n t0 = Some p) as [Hn Hg] by (by destruct Hop as (? & [? _] & _)).
  destruct (k_desc Hk n p x Hop) as (d & Hd & _).
  assert (forall f k1 y, set_source_at n f (state t0 (<[p := y]> h) k1) = Ret tt (state t0 (<[p := f y]> h) k1)) as Hset.
  { intros f k1 y. rewrite (set_source_at_state t0 Hsz n p y f _ k1 Hn Hg (lookup_insert_eq _ _ _)). by rewrite insert_insert_eq. }
  assert (forall k1, same_view k1 -> v_fd k1 n = Some d) as Hd1 by (intros k1 [H1 _]; by rewrite H1).
  destruct (k_type Hk n p x Hop) as [Ht|Ht]; rewrite Ht; cbn [fd_ops_save].
  - unfold flags_at. rewrite bool_decide_eq_true_2 by done. unfold file_save. destruct (k_tell n k) as [off k1] eqn:E1. eapply returns_step; [by apply kern_state|].
    destruct (spec_tell _ _ d _ _ (Hd1 _ Hv) E1) as (Hoff & Hpos & H1 & H2 & H1c). assert (same_view k1) as Hv1 by by eapply same_view_next.
    eapply returns_step; [by apply (set_source_at_state t0 Hsz n p x)|]. rewrite (proj2 (Z.ltb_ge _ _) Hpos).
    destruct (k_getfl n k1) as [r k2] eqn:E2. eapply returns_step; [by apply kern_state|].
    destruct (spec_getfl _ _ d _ _ (Hd1 _ Hv1) E2) as (Hr & H3 & H4 & H3c & Hfl). assert (same_view k2) as Hv2 by by eapply same_view_next.
    rewrite (proj2 (Z.ltb_ge _ _) Hr). eapply returns_step; [apply Hset|].
    destruct (k_getfd n k2) as [r' k3] eqn:E3. eapply returns_step; [by apply kern_state|].
    destruct (spec_getfd _ _ d _ _ (Hd1 _ Hv2) E3) as (Hr' & H5 & H6 & H5c & Hfd). assert (same_view k3) as Hv3 by by eapply same_view_next.
    rewrite (proj2 (Z.ltb_ge _ _) Hr'). do 4 (eapply returns_step; [apply Hset|]). apply returns_ret.
    eexists _, k3. split; [reflexivity|]. split; [|split; [|done]].
    + split; [by repeat split|]. split; [done|]. split; [done|].
      intros _. exists d. split; [done|]. destruct Hv as (_ & Hv & _). rewrite <- Hv. exact Hoff.
    + exists d. split; [done|]. cbn [f_flags with_src_state with_flags with_offset].
      destruct Hv1 as (_ & Hv1 & _), Hv2 as (_ & _ & Hv2). rewrite <- Hv2, <- Hfd. apply file_flags_saved. by rewrite <- Hv1.
  - unfold flags_at. rewrite bool_decide_eq_false_2 by congruence. unfold dir_save. eapply returns_step; [by apply (source_at_state t0 Hsz n p x)|].
    destruct (telldir (f_dirp x) k) as [off k1] eqn:E1. eapply returns_step; [by apply kern_state|].
    destruct (spec_telldir _ _ _ _ E1) as (Hpos & H1 & H2 & H1c). assert (same_view k1) as Hv1 by by eapply same_view_next.
    rewrite (proj2 (Z.ltb_ge _ _) Hpos). eapply returns_step; [by apply (set_source_at_state t0 Hsz n p x)|].
    destruct (k_getfd n k1) as [r' k2] eqn:E2. eapply returns_step; [by apply kern_state|].
    destruct (spec_getfd _ _ d _ _ (Hd1 _ Hv1) E2) as (Hr' & H3 & H4 & H3c & Hfd). assert (same_view k2) as Hv2 by by eapply same_view_next.
    rewrite (proj2 (Z.ltb_ge _ _) Hr'). do 2 (eapply returns_step; [apply Hset|]). apply returns_ret.
    eexists _, k2. split; [reflexivity|]. split; [|split; [|done]].
    + split; [by repeat split|]. split; [done|]. split; [done|]. congruence.
    + cbn [f_flags with_src_state with_flags with_offset]. destruct Hv1 as (_ & _ & Hv1). rewrite <- Hv1, <- Hfd. apply dir_flags_saved.
Qed.

(** Descriptors below [n] are saved. *)
Definition inv_save (n : Z) t : Prop := exists h k, t = state t0 h k /\ same_view k /\
  forall p x, t_heap t0 !! p = Some x ->
    (exists r x', r < n /\ first_at r p x /\ h !! p = Some x' /\ saved_at r x x' /\ flags_at r x (f_flags x')) \/
    ((forall r, r < n -> ~ opened_at t0 r p x) /\ h !! p = Some x).

Lemma save_slot n t : (forall i p x, opened_at t0 i p x -> f_state x <> FD_STATE_SAVED) -> in_table n -> inv_save n t ->
  returns (p ← slot n;
    match p with
    | None => mret tt
    | Some p =>
      x ← source p;
      if bool_decide (f_type x = FD_INHERITED) then mret tt else
      if bool_decide (f_state x = FD_STATE_SAVED) then mret tt else
      fd_ops_save (f_type x) n;; mret tt
    end) t (fun _ t' => inv_save (n + 1) t').
Proof.
  intros Hnew Hn (h & k & -> & Hv & Hh). eapply returns_step; [by apply slot_state|].
  assert ((forall p x, opened_at t0 n p x -> exists r, r < n /\ opened_at t0 r p x) -> inv_save (n + 1) (state t0 h k)) as Hskip.
  { intros Hno. exists h, k. split; [done|]. split; [done|]. intros p x Hx. destruct (Hh p x Hx) as [(r & x' & ? & ?)|[H1 H2]].
    - left. exists r, x'. split; [lia|done].
    - right. split; [|done]. intros r Hr Hop. destruct (decide (r = n)) as [->|]; [|by apply (H1 r); [lia|]].
      destruct (Hno p x Hop) as (r & Hrn & Hro). by apply (H1 r). }
  destruct (tget n t0) as [p|] eqn:Eg.
  2:{ apply returns_ret, Hskip. intros p x (_ & [Hg _] & _). congruence. }
  destruct (k_live Hk n p Hn Eg) as [x Hx].
  destruct (Hh p x Hx) as [(r & x' & Hrn & [Hro _] & Hhp & Hs & _)|[Hfirst Hhp]]; (eapply returns_step; [by apply source_eq|]).
  - destruct Hs as ((Hty & _) & Hst & _). rewrite (bool_decide_eq_false_2 (f_type x' = _)).
    2:{ rewrite Hty. by destruct Hro as (_ & _ & ?). }
    rewrite bool_decide_eq_true_2 by done. apply returns_ret, Hskip. intros q y (_ & [Hg Hy] & _).
    exists r. split; [done|]. assert (q = p) as -> by congruence. assert (y = x) as -> by congruence. done.
  - case_bool_decide as Ht.
    { apply returns_ret, Hskip. intros q y (_ & [Hg Hy] & Hty). congruence. }
    assert (opened_at t0 n p x) as Hop by done. rewrite bool_decide_eq_false_2 by by eapply Hnew.
    apply returns_bind. eapply returns_weaken; [by apply (save_one n p x h k)|].
    intros _ t' (x' & k' & -> & Hs & Hfl & Hv'). apply returns_ret. exists (<[p := x']> h), k'. split; [done|]. split; [done|].
    intros q y Hy. destruct (decide (q = p)) as [->|Hne].
    + assert (y = x) as -> by congruence. left. exists n, x'. split; [lia|]. split; [by split|]. split; [apply lookup_insert_eq|done].
    + rewrite lookup_insert_ne by done. destruct (Hh q y Hy) as [(r & y' & ? & ?)|[H1 H2]].
      * left. exists r, y'. split; [lia|done].
      * right. split; [|done]. intros r Hr Hop'. destruct (decide (r = n)) as [->|]; [|by apply (H1 r); [lia|]].
        destruct (opened_fun t0 _ _ _ _ _ Hop Hop') as [E _]. congruence.
Qed.

(** The table after [fd_table_save]. *)
Definition saved_table t : Prop := exists h k, t = state t0 h k /\ same_view k /\
  (forall p x, t_heap t0 !! p = Some x -> exists x', h !! p = Some x' /\ same_src x x' /\
     ((forall i, ~ opened_at t0 i p x) -> x' = x) /\
     forall i, opened_at t0 i p x -> saved_at i x x' /\ exists r, first_at r p x /\ flags_at r x (f_flags x')).

Lemma fd_table_save_ok : (forall i p x, opened_at t0 i p x -> f_state x <> FD_STATE_SAVED) ->
  returns fd_table_save t0 (fun _ t' => saved_table t').
Proof.
  intros Hnew. unfold fd_table_save, for_all_fds.
  eapply returns_weaken; [apply (for_fds_rule inv_save (Z.to_nat MAXFILES) 0)|].
  { exists (t_heap t0), (t_k t0). split; [by destruct t0|]. split; [by split|]. intros p x Hx. right. split; [|done].
    intros r ? ([? _] & _). lia. }
  { intros fd t Hfd Hi. apply save_slot; [done| |done]. unfold in_table, MAXFILES in *. lia. }
  intros _ t (h & k & -> & Hv & Hh). rewrite Z2Nat.id in Hh by done. exists h, k. split; [done|]. split; [done|].
  intros p x Hx. destruct (Hh p x Hx) as [(r & x' & Hr & [Hro Hlow] & Hhp & Hs & Hfl)|[Hno Hhp]].
  - exists x'. split; [done|]. split; [apply Hs|]. split; [intros Hn; by destruct (Hn r)|]. intros i Hoi.
    split; [|by exists r]. destruct Hs as (H1 & H2 & H3 & H4). split; [done|]. split; [done|]. split; [done|]. intros Ht.
    destruct (H4 Ht) as (d & Hd & Ho). exists d. split; [|done]. destruct (k_desc Hk r p x Hro) as (d' & Hd' & Hall).
    rewrite Hd' in Hd. injection Hd as ->. by eapply Hall.
  - exists x. split; [done|]. split; [by repeat split|]. split; [done|]. intros i Hoi. destruct (Hno i); [|done].
    destruct Hoi as ([_ ?] & _). lia.
Qed.

Lemma saved_opened t i p x' : saved_table t -> opened_at t i p x' ->
  exists x, opened_at t0 i p x /\ saved_at i x x' /\ exists r, first_at r p x /\ flags_at r x (f_flags x').
Proof.
  intros (h & k & -> & _ & Hh) (Hi & [Hg Hx'] & Ht). destruct (k_live Hk i p Hi Hg) as [x Hx].
  destruct (Hh p x Hx) as (x1 & Hx1 & Hs & _ & Hsv). assert (x1 = x') as -> by (cbn in Hx'; congruence).
  assert (opened_at t0 i p x) as Hop by (split; [done|]; split; [done|]; by destruct Hs as [<- _]).
  exists x. split; [done|]. by apply Hsv.
Qed.
Lemma saved_inherited t i x' : saved_table t -> inherited t i x' ->
  exists x, inherited t0 i x /\ f_root x' = f_root x.
Proof.
  intros (h & k & -> & _ & Hh) (Hi & (p & [Hg Hx']) & Ht). destruct (k_live Hk i p Hi Hg) as [x Hx].
  destruct (Hh p x Hx) as (x1 & Hx1 & Hs & _). assert (x1 = x') as -> by (cbn in Hx'; congruence).
  destruct Hs as (H1 & _ & _ & H2 & _). exists x. split; [|done]. split; [done|]. split; [by exists p|congruence].
Qed.

Lemma saved_restorable t : saved_table t -> restorable t.
Proof.
  intros Hs. split.
  - intros i p Hi Hg. destruct Hs as (h & k & -> & _ & Hh). destruct (k_live Hk i p Hi Hg) as [x Hx].
    destruct (Hh p x Hx) as (x' & Hx' & _). cbn. by rewrite Hx'.
  - intros i p x' Ho. destruct (saved_opened t i p x' Hs Ho) as (x & Hox & ((-> & _) & _) & _). by eapply (k_type Hk).
  - intros i p x' Ho. destruct (saved_opened t i p x' Hs Ho) as (x & _ & (_ & -> & _) & _). done.
  - intros i p x' Ho. destruct (saved_opened t i p x' Hs Ho) as (x & Hox & ((_ & -> & _) & _ & Hoff & _) & _).
    split; [by eapply (k_path Hk)|done].
  - intros i p x' Ho Ht. destruct (saved_opened t i p x' Hs Ho) as (x & Hox & ((Hty & _ & _ & _ & -> & _) & _) & _).
    destruct (k_dir Hk i p x Hox ltac:(congruence)) as [? Hg]. split; [done|]. by destruct Hs as (h & k & -> & _).
  - intros i x' Hin. destruct (saved_inherited t i x' Hs Hin) as (x & Hix & ->). by apply (k_root Hk).
Qed.

(** The tracked descriptors of the restarted process are those of the
    checkpointed one: copies of the standard ones where they were inherited,
    files reopened by path at the same offset with their flags, and two
    descriptors share an open file exactly when they did. *)
Record same_descriptors (k0 k : K) : Prop := {
  s_inherited : forall i x, inherited t0 i x -> v_fd k i = v_fd k0 (f_root x);
  s_opened : forall i p x, opened_at t0 i p x -> exists d, v_fd k i = Some d /\ (v_desc k d).1.1 = f_path x;
  s_offset : forall i p x, opened_at t0 i p x -> f_type x = FD_FILE -> exists d d0,
    v_fd k i = Some d /\ v_fd (t_k t0) i = Some d0 /\ (v_desc k d).2 = (v_desc (t_k t0) d0).2;
  s_flags : forall i p x, opened_at t0 i p x -> exists d r,
    v_fd k i = Some d /\ first_at r p x /\ flags_at r x (v_desc k d).1.2;
  s_shared : forall i p x j q y, opened_at t0 i p x -> opened_at t0 j q y -> (v_fd k i = v_fd k j <-> p = q);
  s_closed : forall i, 0 <= i < 3 -> tget i t0 = None -> v_fd k i = None
}.

Lemma opened_saved t i p x : saved_table t -> opened_at t0 i p x -> exists x', opened_at t i p x' /\ saved_at i x x' /\
  exists r, first_at r p x /\ flags_at r x (f_flags x').
Proof.
  intros (h & k & -> & _ & Hh) Hop. pose proof Hop as (Hi & [Hg Hx] & Ht).
  destruct (Hh p x Hx) as (x' & Hx' & Hs & _ & Hsv). exists x'. split; [|by apply Hsv].
  split; [done|]. split; [done|]. by destruct Hs as [-> _].
Qed.

(** Restoring a saved table in a new process. *)
Lemma saved_table_restores t1 k0 : saved_table t1 -> (forall i, 0 <= i < 3 -> is_Some (v_fd k0 i)) ->
  returns fd_table_restore (put_tk k0 t1) (fun _ t2 => same_descriptors k0 (t_k t2)).
Proof.
  intros Hs Hstd.
  assert (sized t1) as Hsz1 by (by destruct Hs as (h & k & -> & _)).
  eapply returns_weaken; [apply (fd_table_restore_ok t1 Hsz1); [by apply saved_restorable|done]|].
  intros [] t2 [B1 B2 B3 B4]. split.
  - intros i x Hin. pose proof Hin as (Hi & (p & [Hg Hx]) & Ht).
    assert (exists x', inherited t1 i x' /\ f_root x' = f_root x) as (x' & Hix & <-); [|by apply B1].
    destruct Hs as (h & k & -> & _ & Hh). destruct (Hh p x Hx) as (x' & Hx' & (H1 & _ & _ & H2 & _) & _).
    exists x'. split; [|done]. split; [done|]. split; [by exists p|congruence].
  - intros i p x Ho. destruct (opened_saved t1 i p x Hs Ho) as (x' & Ho' & ((_ & Hp & _) & _) & _).
    destruct (B2 _ _ _ Ho') as (d & Hd & [Hdesc _]). exists d. split; [done|]. by rewrite Hdesc.
  - intros i p x Ho Ht. destruct (opened_saved t1 i p x Hs Ho) as (x' & Ho' & ((Hty & _) & _ & _ & Hoff) & _).
    destruct (B2 _ _ _ Ho') as (d & Hd & [_ Hdesc]). destruct (Hoff Ht) as (d0 & Hd0 & Ho0). exists d, d0.
    split; [done|]. split; [done|]. rewrite Hdesc by congruence. done.
  - intros i p x Ho. destruct (opened_saved t1 i p x Hs Ho) as (x' & Ho' & _ & r & Hlow & Hfl).
    destruct (B2 _ _ _ Ho') as (d & Hd & [Hdesc _]). exists d, r. split; [done|]. split; [done|]. by rewrite Hdesc.
  - intros i p x j q y Ho1 Ho2. destruct (opened_saved t1 i p x Hs Ho1) as (x' & Ho1' & _).
    destruct (opened_saved t1 j q y Hs Ho2) as (y' & Ho2' & _). by eapply B3.
  - intros i Hi Hg. apply B4; [done|]. by destruct Hs as (h & k & -> & _).
Qed.


(** The second checkpoint of a process saves no descriptor: the sources
    stay FD_STATE_SAVED after the first one, and [fd_table_save] skips those,
    so whatever the process has read, written or sought since then, the
    offsets it will be restored to are those of the first checkpoint. *)
Theorem second_save_stale : (forall i p x, opened_at t0 i p x -> f_state x <> FD_STATE_SAVED) ->
  returns fd_table_save t0 (fun _ t1 => forall k, fd_table_save (put_tk k t1) = Ret tt (put_tk k t1)).
Proof.
  intros Hnew. eapply returns_weaken; [by apply fd_table_save_ok|]. intros [] t1 Hs k.
  assert (sized (put_tk k t1)) as Hsz1 by (by destruct Hs as (h & k1 & -> & _)).
  assert (forall i p x', in_table i -> at_slot i p x' t1 -> f_type x' = FD_INHERITED \/ f_state x' = FD_STATE_SAVED) as Hst.
  { intros i p x' Hi Ha. destruct (decide (f_type x' = FD_INHERITED)) as [|Ht]; [by left|right].
    destruct (saved_opened t1 i p x' Hs) as (x & _ & (_ & Hx & _) & _); [done|exact Hx]. }
  assert (forall i p, in_table i -> tget i t1 = Some p -> is_Some (t_heap t1 !! p)) as Hlive by apply (saved_restorable t1 Hs).
  assert (returns fd_table_save (put_tk k t1) (fun _ t' => t' = put_tk k t1)) as Hr.
  2:{ unfold returns in Hr. destruct (fd_table_save (put_tk k t1)) as [[] t'|? ?|?| |]; try done. by subst. }
  unfold fd_table_save, for_all_fds. apply (for_fds_rule (fun _ t' => t' = put_tk k t1)); [done|].
  intros fd t Hfd ->. assert (in_table fd) as Hf by (unfold in_table, MAXFILES in *; lia).
  eapply returns_step; [by apply slot_eq|]. change (tget fd (put_tk k t1)) with (tget fd t1).
  destruct (tget fd t1) as [p|] eqn:Eg; [|by apply returns_ret]. destruct (Hlive fd p Hf Eg) as [x Hx].
  eapply returns_step; [by apply source_eq|].
  destruct (Hst fd p x Hf (conj Eg Hx)) as [Hty|Hsv].
  - rewrite (bool_decide_eq_true_2 (f_type x = _)) by done. by apply returns_ret.
  - rewrite (bool_decide_eq_true_2 (f_state x = _)) by done. case_bool_decide; by apply returns_ret.
Qed.
End save.
