(* ===== verification/FdWorld.v ===== *)
(** A concrete kernel for the descriptor table of [FdTable], the witnesses of
    the theorems of [FdProps] and [FdRestore] on it, and what the table gets
    wrong. *)

From S2P Require Import Prelude Cstr FdTable FdProps FdRestore.
Open Scope Z_scope.

(** The description of each descriptor, each description, and the descriptors
    that are close-on-exec. *)
Record files := Files { fs_fds : gmap Z Z; fs_desc : Z -> cstr * Z * Z; fs_cloexec : gset Z }.

Definition above (l : list Z) : Z := 1 + foldr Z.max 0 l.
Lemma above_spec l z : z ∈ l -> z < above l.
Proof.
  unfold above. induction l as [|y l IH]; [by intros ?%elem_of_nil|].
  intros [->|Hz]%elem_of_cons; cbn [foldr]; [lia|]. specialize (IH Hz). lia.
Qed.
Lemma above_pos l : 0 < above l.
Proof. unfold above. induction l as [|y l IH]; cbn [foldr]; lia. Qed.

(** The lowest descriptor that is free, and a description nothing refers to. *)
Definition free_fd (m : gmap Z Z) : Z :=
  match List.find (fun i => bool_decide (m !! i = None)) (seqZ 0 64) with
  | Some i => i
  | None => above (map_to_list m).*1
  end.
Definition new_desc (m : gmap Z Z) : Z := above (map_to_list m).*2.

Lemma free_fd_spec m : 0 <= free_fd m /\ m !! free_fd m = None.
Proof.
  unfold free_fd. destruct (List.find _ _) as [i|] eqn:E.
  - apply find_Some_elem in E as [Hi He]. apply elem_of_seqZ in Hi. apply bool_decide_eq_true_1 in He. split; [lia|done].
  - split; [pose proof (above_pos (map_to_list m).*1); lia|]. apply eq_None_not_Some. intros [d Hd].
    apply elem_of_map_to_list in Hd. apply (list_elem_of_fmap_2 fst) in Hd. cbn in Hd. apply above_spec in Hd. lia.
Qed.
Lemma new_desc_spec m i : m !! i <> Some (new_desc m).
Proof.
  intros Hd. apply elem_of_map_to_list in Hd. apply (list_elem_of_fmap_2 snd) in Hd. cbn in Hd.
  apply above_spec in Hd. unfold new_desc in Hd. lia.
Qed.

(** A directory stream is named by its descriptor. *)
#[export] Instance files_os : FileOS files := {
  k_open path flags mode k :=
    let '(fd, d) := (free_fd (fs_fds k), new_desc (fs_fds k)) in
    (fd, Files (<[fd := d]> (fs_fds k)) (fun e => if decide (e = d) then (path, flags, 0) else fs_desc k e)
      (if negb (Z.land flags O_CLOEXEC =? 0) then {[fd]} ∪ fs_cloexec k else fs_cloexec k));
  k_dup2 old new k :=
    match fs_fds k !! old with Some d => (new, Files (<[new := d]> (fs_fds k)) (fs_desc k) (fs_cloexec k ∖ {[new]})) | None => (-1, k) end;
  k_close fd k := (0, Files (delete fd (fs_fds k)) (fs_desc k) (fs_cloexec k ∖ {[fd]}));
  k_tell fd k := (match fs_fds k !! fd with Some d => Z.max 0 (fs_desc k d).2 | None => -1 end, k);
  k_seek fd off k :=
    match fs_fds k !! fd with
    | Some d => (off, Files (fs_fds k) (fun e => if decide (e = d) then ((fs_desc k d).1, off) else fs_desc k e) (fs_cloexec k))
    | None => (-1, k)
    end;
  (** the access mode and the status flags *)
  k_getfl fd k := (match fs_fds k !! fd with Some d => Z.land (fs_desc k d).1.2 (Z.lor 3 O_STATUS) | None => -1 end, k);
  k_getfd fd k := (match fs_fds k !! fd with Some d => if decide (fd ∈ fs_cloexec k) then FD_CLOEXEC else 0 | None => -1 end, k);
  telldir _ k := (7, k);
  seekdir _ _ k := k;
  dirfd dirp := dirp
}.
#[export] Instance files_spec : FileSpec files.
Proof.
  refine {| v_fd := fun k i => fs_fds k !! i; v_desc := fun k d => ((fs_desc k d).1, Z.max 0 (fs_desc k d).2);
            v_cloexec := fun k i => bool_decide (i ∈ fs_cloexec k); openable := fun _ _ => True |}.
  - intros path flags mode [m ds cx] fd k' _ [= <- <-]. cbn. destruct (free_fd_spec m) as [H1 H2]. split; [done|]. split; [done|].
    exists (new_desc m). split; [apply new_desc_spec|]. split; intros i.
    + case_decide; subst; [by rewrite lookup_insert_eq|by rewrite lookup_insert_ne].
    + by case_decide.
  - intros old new [m ds cx] d r k' Hd. cbn in *. rewrite Hd. intros [= <- <-]. split; [done|]. split; [|done].
    intros i. cbn. case_decide; subst; [by rewrite lookup_insert_eq|by rewrite lookup_insert_ne].
  - intros fd [m ds cx] r k' [= <- <-]. split; [|done]. intros i. cbn.
    case_decide; subst; [by rewrite lookup_delete_eq|by rewrite lookup_delete_ne].
  - intros fd off [m ds cx] d r k' Hd Hoff. cbn in *. rewrite Hd. intros [= <- <-]. split; [done|]. split; [done|].
    intros e. cbn. case_decide; [|done]. cbn. f_equal. lia.
  - intros dirp off k. done.
  - intros fd [m ds cx] d r k' Hd. cbn in *. rewrite Hd. intros [= <- <-]. split; [done|]. split; [lia|done].
  - intros fd [m ds cx] d r k' Hd. cbn in *. rewrite Hd. intros [= <- <-]. split; [apply Z.land_nonneg; by right|].
    do 3 (split; [done|]). cbn. rewrite <- Z.land_assoc. done.
  - intros fd [m ds cx] d r k' Hd. cbn in *. rewrite Hd. intros [= <- <-]. case_decide as Hc; cbn.
    + by rewrite bool_decide_eq_true_2.
    + by rewrite bool_decide_eq_false_2.
  - intros dirp k r k' [= <- <-]. done.
Defined.

(** The kernel at the start of a process: three standard descriptors. *)
Definition std : files := Files {[0 := 100; 1 := 101; 2 := 102]} (fun _ => ([], O_RDWR, 0)) ∅.
Definition garbage : fd_source := FdSource FD_NULL FD_STATE_RESTORED (cs "junk") 77 77 77 77 77 77.
Definition blank (k : files) : fdt files := put_init false (blank_table k).
Definition fd_after {A} (m : M (fdt files) A) (t : fdt files) : fdt files := match m t with Ret _ t' => t' | _ => t end.
Definition started : fdt files := fd_after (fd_table_init garbage) (blank std).

(** A file opened at 3, which has become close-on-exec and appends, and
    duplicated to 4; the standard output at 5; a directory at 6; the standard
    input closed. *)
Definition the_ops : list fd_op :=
  [OpOpen 3 (cs "data") (Z.lor O_RDWR O_CREAT) 438; OpDup 3 4; OpDup 1 5; OpOpendir 6 (cs "dir"); OpClose 0].
Definition at_work : fdt files :=
  put_tk (Files {[1 := 101; 2 := 102; 3 := 7; 4 := 7; 5 := 101; 6 := 8]}
            (fun d => if decide (d = 7) then (cs "data", Z.lor O_RDWR O_APPEND, 4096) else (cs "dir", O_RDONLY, 0)) {[3]})
         (fd_after (run_ops garbage the_ops) started).

(** ** Checking a table by its tracked descriptors *)
Definition tracked (t : fdt files) : list (Z * loc * fd_source) :=
  omap (fun i => p ← tget i t; x ← t_heap t !! p; Some (i, p, x)) (seqZ 0 MAXFILES).
Lemma tracked_spec t i p x : in_table i -> at_slot i p x t -> (i, p, x) ∈ tracked t.
Proof.
  intros Hi [Hg Hx]. apply list_elem_of_omap. exists i. split; [apply elem_of_seqZ; unfold in_table in Hi; lia|].
  rewrite Hg. cbn. by rewrite Hx.
Qed.
Definition tracked_at_work : list (Z * loc * fd_source) := Eval vm_compute in tracked at_work.
Lemma tracked_at_work_eq : tracked at_work = tracked_at_work.
Proof. vm_compute. reflexivity. Qed.
Lemma at_work_cases i p x : in_table i -> at_slot i p x at_work -> (i, p, x) ∈ tracked_at_work.
Proof. rewrite <- tracked_at_work_eq. apply tracked_spec. Qed.
Lemma at_work_opened i p x : opened_at at_work i p x ->
  (i = 3 \/ i = 4) /\ p = 4%positive /\ x = FdSource FD_FILE FD_STATE_NULL (cs "data") 514 438 77 2 77 77 \/
  i = 6 /\ p = 5%positive /\ x = FdSource FD_DIRECTORY FD_STATE_NULL (cs "dir") 1048576 0 77 1 77 6.
Proof.
  intros (Hi & Ha & Ht). apply at_work_cases in Ha; [|done]. unfold tracked_at_work in Ha.
  repeat (apply elem_of_cons in Ha as [[= -> -> ->]|Ha]; [first [by destruct Ht | by left; auto | by right; auto]|]).
  by apply elem_of_nil in Ha.
Qed.
Lemma at_work_inherited i x : inherited at_work i x -> (i = 1 \/ i = 2 \/ i = 5) /\ f_root x = (if i =? 2 then 2 else 1).
Proof.
  intros (Hi & (p & Ha) & Ht). apply at_work_cases in Ha; [|done]. unfold tracked_at_work in Ha.
  repeat (apply elem_of_cons in Ha as [[= -> -> ->]|Ha]; [first [discriminate Ht | by split; auto]|]).
  by apply elem_of_nil in Ha.
Qed.

Lemma at_work_live i p : in_table i -> tget i at_work = Some p -> is_Some (t_heap at_work !! p).
Proof.
  intros Hi Hg.
  assert (List.forallb (fun i => match tget i at_work with Some p => bool_decide (is_Some (t_heap at_work !! p)) | None => true end)
            (seqZ 0 MAXFILES) = true) as Hall by (vm_compute; reflexivity).
  rewrite List.forallb_forall in Hall. specialize (Hall i). rewrite Hg in Hall.
  assert (List.In i (seqZ 0 MAXFILES)) as Hin by (apply list_elem_of_In, elem_of_seqZ; unfold in_table in Hi; lia).
  specialize (Hall Hin). by apply bool_decide_eq_true in Hall.
Qed.

Lemma at_work_tracks : tracks at_work.
Proof.
  split.
  - apply at_work_live.
  - intros i p x Ho. destruct (at_work_opened i p x Ho) as [(_ & _ & ->)|(_ & _ & ->)]; auto.
  - intros i p x Ho. destruct (at_work_opened i p x Ho) as [([-> | ->] & -> & ->)|(-> & -> & ->)];
      [exists 7|exists 7|exists 8]; (split; [reflexivity|]); intros j y Hj;
      destruct (at_work_opened j _ y Hj) as [([-> | ->] & ? & ->)|(-> & ? & ->)]; first [reflexivity|discriminate].
  - done.
  - intros i p x Ho. destruct (at_work_opened i p x Ho) as [(_ & -> & ->)|(_ & -> & ->)]; [done|]. intros _.
    split; [done|]. reflexivity.
  - intros i x Hin. destruct (at_work_inherited i x Hin) as [[->|[->| ->]] ->]; cbn; lia.
Qed.


(** The descriptors of the restarted process, evaluated. *)
Example restarted_descriptors :
  let t1 := fd_after fd_table_save at_work in
  let k := t_k (fd_after fd_table_restore (put_tk std t1)) in
  (fs_fds k !! 0, fs_fds k !! 1, fs_fds k !! 5) = (None, Some 101, Some 101) /\
  (fs_fds k !! 3 = fs_fds k !! 4) /\ (fs_desc k <$> fs_fds k !! 4) = Some (cs "data", Z.lor (Z.lor (Z.lor O_RDWR O_CREAT) O_APPEND) O_CLOEXEC, 4096).
Proof. vm_compute. done. Qed.

Lemma started_wf : wf 1 started /\ exact started.
Proof.
  pose proof (fd_table_init_wf garbage std) as Hi. apply returns_inv in Hi as ([] & t & Hrun & Hw).
  unfold started, fd_after, blank. rewrite Hrun. exact Hw.
Qed.

Lemma fd_table_safe_witness :
  returns (run_ops garbage the_ops) started (fun _ t' => wf 6 t' /\ (exact started -> fresh_targets garbage the_ops started -> exact t')).
Proof.
  apply (fd_table_safe garbage the_ops started); [apply started_wf| |reflexivity].
  repeat (apply Forall_cons; split; [vm_compute; repeat split; discriminate|]). constructor.
Defined.

Lemma second_save_stale_witness :
  returns fd_table_save at_work (fun _ t1 => forall k : files, fd_table_save (put_tk k t1) = Ret tt (put_tk k t1)).
Proof.
  apply (second_save_stale at_work).
  - vm_compute. reflexivity.
  - exact at_work_tracks.
  - intros i p x Ho. destruct (at_work_opened i p x Ho) as [(_ & _ & ->)|(_ & _ & ->)]; discriminate.
Defined.

(** ** What the table gets wrong *)

(** A descriptor duplicated over a tracked one leaves the old source counted:
    closing the descriptor does not free it.  So does [dup2(fd, fd)]. *)
Example dup_over_leaks :
  let t := fd_after (run_ops garbage [OpOpen 3 (cs "a") 0 0; OpOpen 4 (cs "b") 0 0; OpDup 3 4; OpClose 3; OpClose 4]) started in
  tget 3 t = None /\ tget 4 t = None /\ (f_path <$> t_heap t !! 5%positive) = Some (cs "b").
Proof. vm_compute. done. Qed.
Example dup_self_leaks :
  let t := fd_after (run_ops garbage [OpOpen 3 (cs "a") 0 0; OpDup 3 3; OpClose 3]) started in
  tget 3 t = None /\ (f_ref <$> t_heap t !! 4%positive) = Some 1.
Proof. vm_compute. done. Qed.

(** A descriptor the table does not track duplicated over a tracked one leaves
    the old source in the slot: the restarted process has the old file there. *)
Example dup_untracked_stale :
  let t := fd_after (run_ops garbage [OpOpen 3 (cs "a") 0 0; OpDup 9 3]) started in
  (tget 3 t ≫= fun p => f_path <$> t_heap t !! p) = Some (cs "a").
Proof. vm_compute. done. Qed.

(** Standard output and error exchanged through a spare descriptor: the
    restarted process has its standard error at both. *)
Example swapped_standard :
  let t := fd_after (run_ops garbage [OpDup 1 3; OpDup 2 1; OpDup 3 2; OpClose 3]) started in
  let k := t_k (fd_after fd_table_restore (put_tk std (fd_after fd_table_save t))) in
  (fs_fds k !! 1, fs_fds k !! 2) = (Some 102, Some 102).
Proof. vm_compute. done. Qed.

(** Destroying the table leaves dangling pointers to a shared source. *)
Example destroy_dangles :
  let t := fd_after fd_table_destroy (fd_after (run_ops garbage [OpDup 1 3]) started) in
  tget 1 t = Some 2%positive /\ t_heap t !! 2%positive = None /\ fd_table_destroy t = Ub.
Proof. vm_compute. done. Qed.
