(* ===== verification/FileHooks.v ===== *)
(** The interposed file functions: [xnd/wrappers/file_wrappers.c].

    They run in a process ([Process]) whose kernel state is that of the
    descriptor table of [FdTable].  The functions they replace are a parameter
    (class [FileCalls]); a [FILE *] or [DIR *] is an integer, 0 when null.  A
    variable argument that was not passed is not read by what uses it. *)

From S2P Require Import Prelude Cstr Process FdTable FdProps.
Import Stdlib.Strings.Ascii.
Open Scope Z_scope.

Definition F_DUPFD : Z := 0.
Definition F_DUPFD_CLOEXEC : Z := 67.
Definition AT_FDCWD : Z := -2.
Definition EOF : Z := -1.

(** The return value and errno, where it is set. *)
Class FileCalls (K : Type) := {
  openat : Z -> cstr -> Z -> Z -> K -> (Z * option Z) * K;
  close : Z -> K -> (Z * option Z) * K;
  dup : Z -> K -> (Z * option Z) * K;
  dup2 : Z -> Z -> K -> (Z * option Z) * K;
  fcntl : Z -> Z -> Z -> K -> (Z * option Z) * K;
  (** [fcntl(fd, F_GETPATH, buf)] *)
  getpath : Z -> K -> (option cstr * option Z) * K;
  fopen : cstr -> cstr -> K -> (Z * option Z) * K;
  fclose : Z -> K -> (Z * option Z) * K;
  (** the path is null for a change of mode *)
  freopen : option cstr -> cstr -> Z -> K -> (Z * option Z) * K;
  fileno : Z -> K -> Z;
  opendir : cstr -> K -> (Z * option Z) * K;
  fdopendir : Z -> K -> (Z * option Z) * K;
  closedir : Z -> K -> (Z * option Z) * K;
  readdir : Z -> K -> (Z * option Z) * K;
  readdir_r : Z -> Z -> Z -> K -> (Z * option Z) * K;
  libc_telldir : Z -> K -> (Z * option Z) * K;
  libc_seekdir : Z -> Z -> K -> (unit * option Z) * K;
  rewinddir : Z -> K -> (unit * option Z) * K;
}.

(** [mode_to_oflag]; [None] is the trap. *)
Definition has_char (c : ascii) (mode : cstr) : bool := bool_decide (c ∈ mode).
Definition mode_to_oflag (mode : cstr) : option Z :=
  let rw (other : Z) := if has_char "+" mode then O_RDWR else other in
  flags ← match head mode with
          | Some "r"%char => Some (rw O_RDONLY)
          | Some "w"%char => Some (Z.lor (Z.lor O_CREAT O_TRUNC) (rw O_WRONLY))
          | Some "a"%char => Some (Z.lor (Z.lor O_CREAT O_APPEND) (rw O_WRONLY))
          | _ => None
          end;
  Some (if has_char "e" mode then Z.lor flags O_CLOEXEC
        else if has_char "x" mode then Z.lor flags O_EXCL else flags).

Section hooks.
Context {K : Type} `{FileOS K} `{FileCalls K} (heap_src : fd_source).
Abbreviation P := (pstate (fdt K)).

(** A call of the kernel under the table, and an operation of the table. *)
Definition sys {A} (f : K -> (A * option Z) * K) : M P A :=
  call (fun t => let '(r, k) := f (t_k t) in (r, put_tk k t)).
Definition on_table (m : M (fdt K) unit) : M P unit := on_k m.

Definition __openat_hook (dirfd : Z) (path : cstr) (flags arg : Z) : M P Z :=
  let mode := if negb (Z.land flags O_CREAT =? 0) then u16 arg else 0 in
  skip ← XND_SKIP_INTERPOSE;
  if skip : bool then sys (openat dirfd path flags mode) else
  unsafe_enter;;
  retval ← sys (openat dirfd path flags mode);
  (if negb (retval =? -1) then on_table (fd_table_open heap_src retval path flags mode) else mret tt);;
  unsafe_exit;;
  mret retval.
Definition __open_hook (path : cstr) (flags arg : Z) : M P Z :=
  let mode := if negb (Z.land flags O_CREAT =? 0) then u16 arg else 0 in
  __openat_hook AT_FDCWD path flags mode.
Definition __creat_hook (path : cstr) (mode : Z) : M P Z :=
  __openat_hook AT_FDCWD path (Z.lor (Z.lor O_CREAT O_TRUNC) O_WRONLY) mode.

Definition __close_hook (fd : Z) : M P Z :=
  skip ← XND_SKIP_INTERPOSE;
  if skip : bool then sys (close fd) else
  unsafe_enter;;
  retval ← sys (close fd);
  (if negb (retval =? -1) then on_table (fd_table_close fd) else mret tt);;
  unsafe_exit;;
  mret retval.

Definition __dup_hook (oldfd : Z) : M P Z :=
  skip ← XND_SKIP_INTERPOSE;
  if skip : bool then sys (dup oldfd) else
  unsafe_enter;;
  newfd ← sys (dup oldfd);
  (if negb (newfd =? -1) then on_table (fd_table_dup oldfd newfd) else mret tt);;
  unsafe_exit;;
  mret newfd.
Definition __dup2_hook (oldfd newfd : Z) : M P Z :=
  skip ← XND_SKIP_INTERPOSE;
  if skip : bool then sys (dup2 oldfd newfd) else
  unsafe_enter;;
  retval ← sys (dup2 oldfd newfd);
  (if negb (retval =? -1) then xnd_assert (retval =? newfd);; on_table (fd_table_dup oldfd newfd) else mret tt);;
  unsafe_exit;;
  mret retval.

Definition __fcntl_hook (fd cmd arg : Z) : M P Z :=
  skip ← XND_SKIP_INTERPOSE;
  if skip : bool then sys (fcntl fd cmd arg) else
  unsafe_enter;;
  ret ← sys (fcntl fd cmd arg);
  (if negb (ret =? -1) && ((cmd =? F_DUPFD) || (cmd =? F_DUPFD_CLOEXEC))
   then on_table (fd_table_dup fd ret) else mret tt);;
  unsafe_exit;;
  mret ret.

Definition __fopen_hook (path mode : cstr) : M P Z :=
  skip ← XND_SKIP_INTERPOSE;
  if skip : bool then sys (fopen path mode) else
  unsafe_enter;;
  stream ← sys (fopen path mode);
  (if negb (stream =? 0) then
     flags ← (match mode_to_oflag mode with Some flags => mret flags | None => abort end);
     k ← gets g_k;
     on_table (fd_table_open heap_src (fileno stream (t_k k)) path flags 438)
   else mret tt);;
  unsafe_exit;;
  mret stream.

Definition __fclose_hook (stream : Z) : M P Z :=
  skip ← XND_SKIP_INTERPOSE;
  if skip : bool then sys (fclose stream) else
  unsafe_enter;;
  k ← gets g_k;
  let fd := fileno stream (t_k k) in
  ret ← sys (fclose stream);
  (if negb (ret =? EOF) then on_table (fd_table_close fd) else mret tt);;
  unsafe_exit;;
  mret ret.

(** A null path is replaced by the file's before the call. *)
Definition __freopen_hook (path : option cstr) (mode : cstr) (oldfp : Z) : M P Z :=
  skip ← XND_SKIP_INTERPOSE;
  if skip : bool then sys (freopen path mode oldfp) else
  unsafe_enter;;
  k ← gets g_k;
  let oldfd := fileno oldfp (t_k k) in
  path ← (match path with
          | Some path => mret path
          | None => buf ← sys (getpath oldfd); mret (default [] buf)
          end);
  newfp ← sys (freopen (Some path) mode oldfp);
  (if negb (newfp =? 0) then
     k ← gets g_k;
     let newfd := fileno newfp (t_k k) in
     oflag ← (match mode_to_oflag mode with Some flags => mret flags | None => abort end);
     (if negb (newfd =? oldfd) then on_table (fd_table_close oldfd) else mret tt);;
     on_table (fd_table_close newfd);;
     on_table (fd_table_open heap_src newfd path oflag 438)
   else mret tt);;
  unsafe_exit;;
  mret newfp.

Definition __opendir_hook (path : cstr) : M P Z :=
  skip ← XND_SKIP_INTERPOSE;
  if skip : bool then sys (opendir path) else
  unsafe_enter;;
  dirp ← sys (opendir path);
  (if negb (dirp =? 0) then on_table (fd_table_opendir heap_src dirp path) else mret tt);;
  unsafe_exit;;
  mret dirp.
Definition __fdopendir_hook (fd : Z) : M P Z :=
  skip ← XND_SKIP_INTERPOSE;
  if skip : bool then sys (fdopendir fd) else
  buf ← sys (getpath fd);
  let path := default [] buf in
  unsafe_enter;;
  dirp ← sys (fdopendir fd);
  (if negb (dirp =? 0) then on_table (fd_table_opendir heap_src dirp path) else mret tt);;
  unsafe_exit;;
  mret dirp.
Definition __closedir_hook (dirp : Z) : M P Z :=
  skip ← XND_SKIP_INTERPOSE;
  if skip : bool then sys (closedir dirp) else
  let fd := dirfd dirp in
  unsafe_enter;;
  ret ← sys (closedir dirp);
  (if ret =? 0 then on_table (fd_table_close fd) else mret tt);;
  unsafe_exit;;
  mret ret.

(** The other hooks only keep the thread out of a checkpoint. *)
Definition shielded {A} (f : K -> (A * option Z) * K) : M P A :=
  skip ← XND_SKIP_INTERPOSE;
  if skip : bool then sys f else
  unsafe_enter;;
  ret ← sys f;
  unsafe_exit;;
  mret ret.
Definition __readdir_hook (dirp : Z) : M P Z := shielded (readdir dirp).
Definition __readdir_r_hook (dirp entry result : Z) : M P Z := shielded (readdir_r dirp entry result).
Definition __telldir_hook (dirp : Z) : M P Z := shielded (libc_telldir dirp).
Definition __seekdir_hook (dirp loc : Z) : M P unit := shielded (libc_seekdir dirp loc).
Definition __rewinddir_hook (dirp : Z) : M P unit := shielded (rewinddir dirp).
End hooks.

(** What the kernel's answers are assumed to be: descriptors below the table's
    size (the limit a process starts with) and paths it accepts. *)
Class FileCallsOk (K : Type) `{FileOS K, FileCalls K} := {
  ok_openat : forall dirfd path flags mode k, let r := (openat dirfd path flags mode k).1.1 in
    r = -1 \/ (in_table r /\ strlen path < PATH_MAX);
  ok_close : forall fd k, (close fd k).1.1 = -1 \/ in_table fd;
  ok_dup : forall oldfd k, let r := (dup oldfd k).1.1 in r = -1 \/ (in_table oldfd /\ in_table r);
  ok_dup2 : forall oldfd newfd k, let r := (dup2 oldfd newfd k).1.1 in
    r = -1 \/ (r = newfd /\ in_table oldfd /\ in_table newfd);
  ok_opendir : forall path k, let r := (opendir path k).1.1 in r = 0 \/ (in_table (dirfd r) /\ strlen path < PATH_MAX);
  ok_closedir : forall dirp k, (closedir dirp k).1.1 = 0 -> in_table (dirfd dirp);
}.

Section hooks_ok.
Context {K : Type} `{FileOS K, FileCalls K, !FileCallsOk K} (heap_src : fd_source).
Implicit Types (s : pstate (fdt K)) (t : fdt K).

(** The process but for the table, the kernel and errno. *)
Definition same_process s s' : Prop :=
  g_pids s' = g_pids s /\ g_ids s' = g_ids s /\ g_client s' = g_client s /\ g_table s' = g_table s /\
  g_self s' = g_self s /\ g_lib s' = g_lib s /\ g_env s' = g_env s.

Lemma on_table_eq m s t' : m (g_k s) = Ret tt t' -> on_table m s = Ret tt (put_k t' s).
Proof. intros Hm. unfold on_table, on_k. by rewrite Hm. Qed.

(** The common shape of the hooks. *)
Lemma hooked_ok {A} s (c : K -> (A * option Z) * K) (after : A -> M (pstate (fdt K)) unit) (Q : A -> fdt K -> Prop) :
  self_ok (g_self s) ->
  (forall s1 k', g_k s1 = put_tk k' (g_k s) ->
     exists t', after (c (t_k (g_k s))).1.1 s1 = Ret tt (put_k t' s1) /\ Q (c (t_k (g_k s))).1.1 t') ->
  returns (unsafe_enter;; r ← sys c; after r;; unsafe_exit;; mret r) s (fun r s' => Q r (g_k s') /\ same_process s s').
Proof.
  intros Hself Hafter. eapply returns_step; [by apply unsafe_enter_spec|].
  set (s0 := put_self (entered (g_self s)) s).
  assert (exists e, sys c s0 = Ret (c (t_k (g_k s))).1.1 (match e with
            | Some e => put_errno e (put_k (put_tk (c (t_k (g_k s))).2 (g_k s)) s0)
            | None => put_k (put_tk (c (t_k (g_k s))).2 (g_k s)) s0 end)) as [e Hsys].
  { unfold sys, call. cbn [g_k s0 put_self]. destruct (c (t_k (g_k s))) as [[r e] k']. cbn. by exists e. }
  eapply returns_step; [exact Hsys|].
  set (s1 := match e with Some e => _ | None => _ end).
  destruct (Hafter s1 (c (t_k (g_k s))).2) as (t' & Hrun & HQ). { unfold s1. by destruct e. }
  eapply returns_step; [exact Hrun|].
  eapply returns_step; [apply (unsafe_exit_spec _ (g_self s)); [done|]; unfold s1; by destruct e|].
  apply returns_ret. split; [done|]. unfold s1. destruct e; by repeat split.
Qed.

(** An operation of the table on the state a hook calls it in. *)
Lemma table_op n o s s1 k' : 1 <= n < 2 ^ 31 - 1 -> wf n (g_k s) -> op_ok o -> g_k s1 = put_tk k' (g_k s) ->
  exists t', on_table (run_op heap_src o) s1 = Ret tt (put_k t' s1) /\ wf (n + 1) t' /\ run_op heap_src o (put_tk k' (g_k s)) = Ret tt t'.
Proof.
  intros Hn Hw Ho Hs1. assert (wf n (put_tk k' (g_k s))) as Hw' by by apply wf_put_tk.
  pose proof (run_op_ok heap_src n o _ Hn Hw' Ho) as Hr. apply returns_inv in Hr as ([] & t' & Hrun & Hwf & _).
  exists t'. split; [|done]. apply on_table_eq. by rewrite Hs1.
Qed.
Lemma no_op n s s1 k' : wf n (g_k s) -> g_k s1 = put_tk k' (g_k s) ->
  exists t', (mret tt : M (pstate (fdt K)) unit) s1 = Ret tt (put_k t' s1) /\ wf (n + 1) t' /\ t' = put_tk k' (g_k s).
Proof.
  intros Hw Hs1. exists (g_k s1). split; [by destruct s1|]. rewrite Hs1. split; [|done].
  apply wf_put_tk. by apply (wf_mono n); [lia|].
Qed.

(** The descriptors but [fd] are tracked as they were. *)
Definition others_kept (fd : Z) t t' : Prop := forall i, in_table i -> i <> fd -> tget i t' = tget i t.
Lemma others_set fd p t t' : sized t -> in_table fd -> t_table t' = <[Z.to_nat fd := p]> (t_table t) ->
  tget fd t' = p /\ others_kept fd t t'.
Proof.
  intros Hs Hf Ht. assert (forall i, tget i t' = tget i (put_slots (<[Z.to_nat fd := p]> (t_table t)) t)) as E.
  { intros i. unfold tget. cbn. by rewrite Ht. }
  split; [by rewrite E, tget_set, decide_True|]. intros i Hi Hne. by rewrite E, tget_set, decide_False.
Qed.

Lemma openat_hook_ok n dirfd path flags arg s :
  1 <= n < 2 ^ 31 - 1 -> interposing s -> self_ok (g_self s) -> wf n (g_k s) ->
  returns (__openat_hook heap_src dirfd path flags arg) s (fun fd s' => same_process s s' /\ wf (n + 1) (g_k s') /\
    others_kept fd (g_k s) (g_k s') /\
    (fd <> -1 -> exists p, at_slot fd p (opened heap_src path flags (if negb (Z.land flags O_CREAT =? 0) then u16 arg else 0)) (g_k s'))).
Proof.
  intros Hn Hi Hself Hw. unfold __openat_hook. set (mode := if negb _ then _ else _).
  eapply returns_step; [by apply skip_false|]. cbv iota.
  eapply returns_weaken; [apply (hooked_ok s (openat dirfd path flags mode) _ (fun fd t' => wf (n + 1) t' /\
    others_kept fd (g_k s) t' /\ (fd <> -1 -> exists p, at_slot fd p (opened heap_src path flags mode) t'))); [done|]|].
  2:{ intros fd s' [(? & ? & ?) ?]. auto. }
  intros s1 k' Hs1. pose proof (ok_openat dirfd path flags mode (t_k (g_k s))) as Hr. cbn zeta in Hr.
  set (r := (openat dirfd path flags mode (t_k (g_k s))).1.1) in *. destruct (Z.eqb_spec r (-1)) as [E|E]; cbn [negb].
  - destruct (no_op n s s1 k' Hw Hs1) as (t' & H1 & H2 & ->). by eexists.
  - destruct Hr as [|[Hf Hp]]; [done|].
    destruct (table_op n (OpOpen r path flags mode) s s1 k' Hn Hw (conj Hf Hp) Hs1) as (t' & H1 & H2 & H3).
    exists t'. split; [done|]. split; [done|]. cbn [run_op] in H3.
    assert (wf n (put_tk k' (g_k s))) as Hw' by by apply wf_put_tk.
    rewrite (fd_table_open_eq heap_src n r path flags mode _ Hw' Hf Hp) in H3. injection H3 as <-.
    set (t' := FdT _ _ _ _ _ _). destruct (others_set r (Some (t_alloc (g_k s))) (g_k s) t' (wf_sized _ _ Hw) Hf eq_refl) as [Hg Ho].
    split; [exact Ho|]. intros _. exists (t_alloc (g_k s)). split; [exact Hg|apply lookup_insert_eq].
Qed.

Lemma close_op n fd s k' t' : wf n (g_k s) -> in_table fd -> fd_table_close fd (put_tk k' (g_k s)) = Ret tt t' ->
  tget fd t' = None /\ others_kept fd (g_k s) t'.
Proof.
  intros Hw Hf Hc. assert (wf n (put_tk k' (g_k s))) as Hw' by by apply wf_put_tk.
  rewrite (fd_table_close_eq n fd _ Hw' Hf) in Hc. destruct (tget fd (put_tk k' (g_k s))) eqn:E; injection Hc as <-; [|done].
  by apply (others_set fd None (g_k s)); [apply Hw| |].
Qed.
Lemma close_hook_ok n fd s :
  1 <= n < 2 ^ 31 - 1 -> interposing s -> self_ok (g_self s) -> wf n (g_k s) ->
  returns (__close_hook fd) s (fun ret s' => same_process s s' /\ wf (n + 1) (g_k s') /\
    others_kept (if ret =? -1 then -1 else fd) (g_k s) (g_k s') /\ (ret <> -1 -> tget fd (g_k s') = None)).
Proof.
  intros Hn Hi Hself Hw. unfold __close_hook. eapply returns_step; [by apply skip_false|]. cbv iota.
  eapply returns_weaken; [apply (hooked_ok s (close fd) _ (fun ret t' => wf (n + 1) t' /\
    others_kept (if ret =? -1 then -1 else fd) (g_k s) t' /\ (ret <> -1 -> tget fd t' = None))); [done|]|].
  2:{ intros ret s' [(? & ? & ?) ?]. auto. }
  intros s1 k' Hs1. pose proof (ok_close fd (t_k (g_k s))) as Hr.
  set (r := (close fd (t_k (g_k s))).1.1) in *. destruct (Z.eqb_spec r (-1)) as [E|E]; cbn [negb].
  - destruct (no_op n s s1 k' Hw Hs1) as (t' & H1 & H2 & ->). by eexists.
  - destruct Hr as [|Hf]; [done|]. destruct (table_op n (OpClose fd) s s1 k' Hn Hw Hf Hs1) as (t' & H1 & H2 & H3).
    exists t'. split; [done|]. split; [done|]. by destruct (close_op n fd s k' t' Hw Hf H3).
Qed.

(** The slot of a duplicate: the source of the original, or, of an original
    that is not tracked, what it was. *)
Definition duplicated (oldfd newfd : Z) t : option loc :=
  match tget oldfd t with Some p => Some p | None => tget newfd t end.
Lemma dup_op n oldfd newfd s k' t' : wf n (g_k s) -> n < 2 ^ 31 - 1 -> in_table oldfd -> in_table newfd ->
  fd_table_dup oldfd newfd (put_tk k' (g_k s)) = Ret tt t' ->
  tget newfd t' = duplicated oldfd newfd (g_k s) /\ others_kept newfd (g_k s) t'.
Proof.
  intros Hw Hn Ho Hf Hd. assert (wf n (put_tk k' (g_k s))) as Hw' by by apply wf_put_tk. unfold duplicated.
  rewrite (fd_table_dup_eq n oldfd newfd _ Hw' Hn Ho Hf) in Hd. change (tget oldfd (put_tk k' (g_k s))) with (tget oldfd (g_k s)) in Hd.
  destruct (tget oldfd (g_k s)) eqn:E; injection Hd as <-; [|done].
  by apply (others_set newfd (Some _) (g_k s)); [apply Hw| |].
Qed.
Lemma dup_hook_ok n oldfd s :
  1 <= n < 2 ^ 31 - 1 -> interposing s -> self_ok (g_self s) -> wf n (g_k s) ->
  returns (__dup_hook oldfd) s (fun fd s' => same_process s s' /\ wf (n + 1) (g_k s') /\ others_kept fd (g_k s) (g_k s') /\
    (fd <> -1 -> tget fd (g_k s') = duplicated oldfd fd (g_k s))).
Proof.
  intros Hn Hi Hself Hw. unfold __dup_hook. eapply returns_step; [by apply skip_false|]. cbv iota.
  eapply returns_weaken; [apply (hooked_ok s (dup oldfd) _ (fun fd t' => wf (n + 1) t' /\ others_kept fd (g_k s) t' /\
    (fd <> -1 -> tget fd t' = duplicated oldfd fd (g_k s)))); [done|]|].
  2:{ intros ret s' [(? & ? & ?) ?]. auto. }
  intros s1 k' Hs1. pose proof (ok_dup oldfd (t_k (g_k s))) as Hr. cbn zeta in Hr.
  set (r := (dup oldfd (t_k (g_k s))).1.1) in *. destruct (Z.eqb_spec r (-1)) as [E|E]; cbn [negb].
  - destruct (no_op n s s1 k' Hw Hs1) as (t' & H1 & H2 & ->). by eexists.
  - destruct Hr as [|[Ho Hf]]; [done|]. destruct (table_op n (OpDup oldfd r) s s1 k' Hn Hw (conj Ho Hf) Hs1) as (t' & H1 & H2 & H3).
    exists t'. split; [done|]. split; [done|]. by destruct (dup_op n oldfd r s k' t' Hw (proj2 Hn) Ho Hf H3).
Qed.
Lemma dup2_hook_ok n oldfd newfd s :
  1 <= n < 2 ^ 31 - 1 -> interposing s -> self_ok (g_self s) -> wf n (g_k s) ->
  returns (__dup2_hook oldfd newfd) s (fun fd s' => same_process s s' /\ wf (n + 1) (g_k s') /\ others_kept fd (g_k s) (g_k s') /\
    (fd <> -1 -> fd = newfd /\ tget fd (g_k s') = duplicated oldfd fd (g_k s))).
Proof.
  intros Hn Hi Hself Hw. unfold __dup2_hook. eapply returns_step; [by apply skip_false|]. cbv iota.
  eapply returns_weaken; [apply (hooked_ok s (dup2 oldfd newfd) _ (fun fd t' => wf (n + 1) t' /\ others_kept fd (g_k s) t' /\
    (fd <> -1 -> fd = newfd /\ tget fd t' = duplicated oldfd fd (g_k s)))); [done|]|].
  2:{ intros ret s' [(? & ? & ?) ?]. auto. }
  intros s1 k' Hs1. pose proof (ok_dup2 oldfd newfd (t_k (g_k s))) as Hr. cbn zeta in Hr.
  set (r := (dup2 oldfd newfd (t_k (g_k s))).1.1) in *. destruct (Z.eqb_spec r (-1)) as [E|E]; cbn [negb].
  - destruct (no_op n s s1 k' Hw Hs1) as (t' & H1 & H2 & ->). by eexists.
  - destruct Hr as [|(Er & Ho & Hf)]; [done|].
    destruct (table_op n (OpDup oldfd newfd) s s1 k' Hn Hw (conj Ho Hf) Hs1) as (t' & H1 & H2 & H3).
    exists t'. rewrite Er, Z.eqb_refl. rewrite (bind_ret (xnd_assert true) _ s1 tt s1) by done.
    split; [done|]. split; [done|]. destruct (dup_op n oldfd newfd s k' t' Hw (proj2 Hn) Ho Hf H3) as [Hd Hk]. split; [exact Hk|]. by intros _.
Qed.

(** C34. The hooks of [openat], [close], [dup] and [dup2], each called by itself:
    by a thread that may call one, in a process with a good table, it returns,
    gives the thread back its state and leaves the table good.  What the call
    opened is tracked with its path, flags and mode, what it closed is not
    tracked, and a duplicate of a tracked descriptor is tracked as the same
    open file; a duplicate of one that is not tracked keeps the slot it had,
    stale as it may be.  Every other slot is as it was, all of them when the
    call fails. *)
Theorem file_hooks_track n s (dirfd fd oldfd newfd : Z) (path : cstr) (flags arg : Z) :
  1 <= n < 2 ^ 31 - 1 -> interposing s -> self_ok (g_self s) -> wf n (g_k s) ->
  let mode := if negb (Z.land flags O_CREAT =? 0) then u16 arg else 0 in
  returns (__openat_hook heap_src dirfd path flags arg) s (fun fd s' => same_process s s' /\ wf (n + 1) (g_k s') /\
    others_kept fd (g_k s) (g_k s') /\
    (fd <> -1 -> exists p, at_slot fd p (opened heap_src path flags mode) (g_k s'))) /\
  returns (__close_hook fd) s (fun ret s' => same_process s s' /\ wf (n + 1) (g_k s') /\
    others_kept (if ret =? -1 then -1 else fd) (g_k s) (g_k s') /\ (ret <> -1 -> tget fd (g_k s') = None)) /\
  returns (__dup_hook oldfd) s (fun fd s' => same_process s s' /\ wf (n + 1) (g_k s') /\ others_kept fd (g_k s) (g_k s') /\
    (fd <> -1 -> tget fd (g_k s') = duplicated oldfd fd (g_k s))) /\
  returns (__dup2_hook oldfd newfd) s (fun fd s' => same_process s s' /\ wf (n + 1) (g_k s') /\ others_kept fd (g_k s) (g_k s') /\
    (fd <> -1 -> fd = newfd /\ tget fd (g_k s') = duplicated oldfd fd (g_k s))).
Proof.
  intros Hn Hi Hself Hw mode. split; [by apply openat_hook_ok|]. split; [by apply close_hook_ok|].
  split; [by apply dup_hook_ok|by apply dup2_hook_ok].
Qed.
End hooks_ok.
