(* ===== verification/FileWorld.v ===== *)
(** Two threads in the file hooks of [FileHooks] at once, and a concrete kernel
    for the hooks.

    A hook is not atomic: it calls the kernel first and the table after it, and
    only the table's operations are under a lock.  A thread is the list of
    those steps it has left. *)

From S2P Require Import Prelude Cstr Process FdTable FdProps FileHooks FdRestore FdWorld.
Open Scope Z_scope.

Section threads.
Context {K : Type} `{FileOS K, FileCalls K} (heap_src : fd_source).
Implicit Types t : fdt K.

(** The steps of [__close_hook] and [__openat_hook]. *)
Inductive action : Type :=
  | CallClose (fd : Z)
  | TrackClose (fd : Z)
  | CallOpen (path : cstr) (flags mode : Z)
  | TrackOpen (path : cstr) (flags mode : Z).
Definition close_steps (fd : Z) : list action := [CallClose fd; TrackClose fd].
Definition open_steps (path : cstr) (flags mode : Z) : list action := [CallOpen path flags mode; TrackOpen path flags mode].

(** A step; [ret] is the return value the thread got from the kernel. *)
Definition act (a : action) (ret : Z) : M (fdt K) Z :=
  match a with
  | CallClose fd => kern (fun k => let '(r, _, k) := close fd k in (r, k))
  | TrackClose fd => (if negb (ret =? -1) then fd_table_close fd else mret tt);; mret ret
  | CallOpen path flags mode => kern (fun k => let '(r, _, k) := openat AT_FDCWD path flags mode k in (r, k))
  | TrackOpen path flags mode => (if negb (ret =? -1) then fd_table_open heap_src ret path flags mode else mret tt);; mret ret
  end.

Record thread := Thread { todo : list action; got : Z }.
Record threads := Threads { shared : fdt K; first : thread; second : thread }.

Inductive step : threads -> threads -> Prop :=
  | step_first t t' a l r r' th : act a r t = Ret r' t' ->
      step (Threads t (Thread (a :: l) r) th) (Threads t' (Thread l r') th)
  | step_second t t' a l r r' th : act a r t = Ret r' t' ->
      step (Threads t th (Thread (a :: l) r)) (Threads t' th (Thread l r')).

Lemma step_any a b c : step a b -> reach step b c -> reach step a c.
Proof. intros Hab Hbc. eapply reach_trans; [|exact Hbc]. eapply reach_snoc; [apply reach_refl|exact Hab]. Qed.

Lemma tget_opened t fd x : sized t -> in_table fd ->
  tget fd (FdT (<[Z.to_nat fd := Some (t_alloc t)]> (t_table t)) false true (<[t_alloc t := x]> (t_heap t)) (Pos.succ (t_alloc t)) (t_k t)) =
    Some (t_alloc t).
Proof.
  intros Hs Hf. unfold tget. cbn. rewrite list_lookup_insert_eq; [done|]. unfold sized in Hs. unfold in_table in Hf. lia.
Qed.
Lemma tget_closed t fd h : sized t -> in_table fd ->
  tget fd (FdT (<[Z.to_nat fd := None]> (t_table t)) false true h (t_alloc t) (t_k t)) = None.
Proof.
  intros Hs Hf. unfold tget. cbn. rewrite list_lookup_insert_eq; [done|]. unfold sized in Hs. unfold in_table in Hf. lia.
Qed.

(** A close and an open race: while one thread closes a tracked descriptor
    and another opens a file that gets its number, the threads can end, each
    having run its hook to the end, with the new file open but its descriptor
    not in the table, so it is lost at a restart; run one after the other they
    leave it tracked. *)
Theorem close_open_race (t : fdt K) (fd : Z) (path : cstr) (flags mode : Z) (k1 k2 : K) (e1 e2 : option Z) :
  wf 1 t -> in_table fd -> strlen path < PATH_MAX ->
  close fd (t_k t) = (0, e1, k1) -> openat AT_FDCWD path flags mode k1 = (fd, e2, k2) ->
  let start := Threads t (Thread (close_steps fd) (-1)) (Thread (open_steps path flags mode) (-1)) in
  (exists t', reach step start (Threads t' (Thread [] 0) (Thread [] fd)) /\ t_k t' = k2 /\ tget fd t' = None) /\
  (exists t', reach step start (Threads t' (Thread [] 0) (Thread [] fd)) /\ t_k t' = k2 /\ tget fd t' <> None).
Proof.
  intros Hw Hf Hp Hclose Hopen start.
  assert (fd =? -1 = false) as Hfd by (apply Z.eqb_neq; unfold in_table in Hf; lia).
  assert (forall r, act (CallClose fd) r t = Ret 0 (put_tk k1 t)) as A1 by (intros r; cbn [act]; unfold kern; by rewrite Hclose).
  assert (forall r t', t_k t' = k1 -> act (CallOpen path flags mode) r t' = Ret fd (put_tk k2 t')) as A2
    by (intros r t' Hk; cbn [act]; unfold kern; by rewrite Hk, Hopen).
  assert (forall n t', wf n t' -> exists t2, act (TrackClose fd) 0 t' = Ret 0 t2 /\ t_k t2 = t_k t' /\ tget fd t2 = None /\ wf n t2) as A3.
  { intros n t' Hw'. cbn [act Z.eqb negb]. pose proof (fd_table_close_eq n fd t' Hw' Hf) as Hc.
    destruct (tget fd t') as [p|] eqn:E.
    - eexists. rewrite (bind_ret _ _ _ _ _ Hc). split; [reflexivity|]. split; [done|].
      split; [by apply tget_closed; [apply Hw'|]|]. by apply (wf_close n t' fd p).
    - exists t'. by rewrite (bind_ret _ _ _ _ _ Hc). }
  assert (forall n t', 1 <= n -> wf n t' -> exists t2, act (TrackOpen path flags mode) fd t' = Ret fd t2 /\ t_k t2 = t_k t' /\
            tget fd t2 <> None /\ wf n t2) as A4.
  { intros n t' Hn Hw'. cbn [act]. rewrite Hfd. cbn [negb].
    rewrite (bind_ret _ _ _ _ _ (fd_table_open_eq heap_src n fd path flags mode t' Hw' Hf Hp)). eexists. split; [reflexivity|].
    split; [done|]. split; [by rewrite tget_opened; [|apply Hw'|]|]. by apply (wf_new n t' fd). }
  split.
  - destruct (A4 1 (put_tk k2 (put_tk k1 t))) as (t3 & E3 & K3 & _ & W3); [lia|by do 2 apply wf_put_tk|].
    destruct (A3 1 t3 W3) as (t4 & E4 & K4 & G4 & _). exists t4. split; [|split; [by rewrite K4, K3|done]].
    eapply step_any; [apply step_first, A1|]. eapply step_any; [by apply step_second, A2|].
    eapply step_any; [apply step_second, E3|]. eapply step_any; [apply step_first, E4|]. apply reach_refl.
  - destruct (A3 1 (put_tk k1 t)) as (t2 & E2 & K2 & _ & W2); [by apply wf_put_tk|].
    destruct (A4 1 (put_tk k2 t2)) as (t4 & E4 & K4 & G4 & _); [lia|by apply wf_put_tk|].
    exists t4. split; [|split; [by rewrite K4|done]].
    eapply step_any; [apply step_first, A1|]. eapply step_any; [apply step_first, E2|].
    eapply step_any; [by apply step_second, A2|]. eapply step_any; [apply step_second, E4|]. apply reach_refl.
Qed.
End threads.

(** ** The kernel of [FdWorld] *)
Definition opened_by (path : cstr) (flags mode : Z) (k : files) : (Z * option Z) * files :=
  if (free_fd (fs_fds k) <? MAXFILES) && (strlen path <? PATH_MAX)
  then let '(fd, k) := k_open path flags mode k in (fd, None, k) else (-1, Some 24, k).
Definition has_fd (fd : Z) (k : files) : bool :=
  (0 <=? fd) && (fd <? MAXFILES) && bool_decide (is_Some (fs_fds k !! fd)).
#[export] Instance files_calls : FileCalls files := {
  openat _ path flags mode k := opened_by path flags mode k;
  close fd k := if has_fd fd k then (0, None, (k_close fd k).2) else (-1, Some 9, k);
  dup fd k :=
    if has_fd fd k && (free_fd (fs_fds k) <? MAXFILES) then
      let '(r, k) := k_dup2 fd (free_fd (fs_fds k)) k in (r, None, k) else (-1, Some 9, k);
  dup2 old new k :=
    if has_fd old k && (0 <=? new) && (new <? MAXFILES) then
      let '(r, k) := k_dup2 old new k in (r, None, k) else (-1, Some 9, k);
  fcntl _ _ _ k := (0, None, k);
  getpath _ k := (None, Some 9, k);
  fopen path _ k := opened_by path O_RDWR 0 k;
  fclose fd k := if has_fd fd k then (0, None, (k_close fd k).2) else (-1, Some 9, k);
  freopen _ _ fd k := (fd, None, k);
  fileno fp _ := fp;
  opendir _ k := (0, Some 2, k);
  fdopendir _ k := (0, Some 9, k);
  closedir _ k := (-1, Some 9, k);
  readdir _ k := (0, None, k);
  readdir_r _ _ _ k := (0, None, k);
  libc_telldir _ k := (0, None, k);
  libc_seekdir _ _ k := (tt, None, k);
  rewinddir _ k := (tt, None, k)
}.
Lemma has_fd_spec fd k : has_fd fd k = true -> in_table fd /\ is_Some (fs_fds k !! fd).
Proof.
  unfold has_fd, in_table. intros [[H1 H2]%andb_true_iff H3%bool_decide_eq_true]%andb_true_iff. split; [lia|done].
Qed.
#[export] Instance files_calls_ok : FileCallsOk files.
Proof.
  split.
  - intros dirfd path flags mode k. cbn. unfold opened_by.
    destruct (andb _ _) eqn:E; [right|by left]. apply andb_true_iff in E as [E1 E2].
    cbn. destruct (free_fd_spec (fs_fds k)) as [H1 _]. unfold in_table. lia.
  - intros fd k. cbn. destruct (has_fd fd k) eqn:E; [right|by left]. by apply has_fd_spec in E as [? _].
  - intros fd k. cbn. destruct (andb _ _) eqn:E; [|by left]. apply andb_true_iff in E as [[E1 [d Hd]]%has_fd_spec E2].
    rewrite Hd. right. split; [done|]. cbn. destruct (free_fd_spec (fs_fds k)) as [H1 _]. unfold in_table. lia.
  - intros old new k. cbn. destruct (andb _ _) eqn:E; [|by left].
    apply andb_true_iff in E as [[[E1 [d Hd]]%has_fd_spec E2]%andb_true_iff E3].
    rewrite Hd. right. split; [done|]. split; [done|]. unfold in_table. lia.
  - intros path k. by left.
  - done.
Defined.

Definition running : pstate (fdt files) :=
  PState (Pids 2 4711 1 4242) (Ids 1001 1000 1001 [] 0 0 true) (Client (-1) (-1) (-1) false) (VTable ∅ false)
    (Some (Thr ST_RUNNING 0)) (Lib XND_RUNNING true) 0 (Env.EnvState ∅ (-1)) started.

Lemma file_hooks_track_witness :
  returns (__openat_hook garbage AT_FDCWD (cs "out") 513 420) running (fun fd s' => same_process running s' /\ wf 2 (g_k s') /\
    others_kept fd (g_k running) (g_k s') /\ (fd <> -1 -> exists p, at_slot fd p (opened garbage (cs "out") 513 420) (g_k s'))).
Proof.
  refine (proj1 (file_hooks_track garbage 1 running AT_FDCWD 1 1 1 (cs "out") 513 420 _ _ _ _)).
  - lia.
  - by split.
  - right. exists ST_RUNNING, 0. split; [done|]. split; [lia|]. by left.
  - apply started_wf.
Defined.

(** One descriptor open and tracked at 3. *)
Definition with_three : fdt files :=
  put_tk (Files {[0 := 100; 1 := 101; 2 := 102; 3 := 7]} (fun _ => (cs "old", 0, 0)) ∅)
    (fd_after (fd_table_open garbage 3 (cs "old") 0 0) started).
Lemma with_three_wf : wf 1 with_three.
Proof.
  apply wf_put_tk. unfold fd_after. rewrite (fd_table_open_eq garbage 1 3 (cs "old") 0 0 started); [|apply started_wf|done|done].
  apply (wf_new 1 started 3); [lia|apply started_wf|done|done|done].
Defined.

Lemma close_open_race_witness :
  let k1 := (k_close 3 (t_k with_three)).2 in let k2 := (k_open (cs "new") 0 0 k1).2 in
  let start := Threads with_three (Thread (close_steps 3) (-1)) (Thread (open_steps (cs "new") 0 0) (-1)) in
  (exists t', reach (step garbage) start (Threads t' (Thread [] 0) (Thread [] 3)) /\ t_k t' = k2 /\ tget 3 t' = None) /\
  (exists t', reach (step garbage) start (Threads t' (Thread [] 0) (Thread [] 3)) /\ t_k t' = k2 /\ tget 3 t' <> None).
Proof.
  refine (close_open_race garbage with_three 3 (cs "new") 0 0 _ _ None None with_three_wf _ _ _ _).
  - done.
  - done.
  - vm_compute. reflexivity.
  - vm_compute. reflexivity.
Defined.
