(* ===== verification/SigHooks.v ===== *)
(** Signals: [xnd/wrappers/signal_wrappers.c], [__xnd_sigaction] of
    [xnd/platform/signal.c], and the signal state of a thread
    ([thread_save_sig_state] and [thread_restore_sig_state] of
    [xnd/thread_info.c]).

    A handler is its address, a signal set its bits.  The kernel's system calls
    are parameters. *)

From S2P Require Import Prelude Cstr Env.
Open Scope Z_scope.

Definition SIG_DFL : Z := 0.
Definition SIG_IGN : Z := 1.
Definition SIG_ERR : Z := -1.
Definition SIG_BLOCK : Z := 1.
Definition SIG_UNBLOCK : Z := 2.
Definition SIG_SETMASK : Z := 3.
Definition EINVAL : Z := 22.
Definition SS_ONSTACK : Z := 1.
Definition SS_DISABLE : Z := 4.
Definition SA_VALIDATE_SIGRETURN_FROM_SIGTRAMP : Z := 0x0400.

Record sigaction := Sigaction { sa_handler : Z; sa_mask : Z; sa_flags : Z }.
(** The kernel's [struct __sigaction] has the trampoline too. *)
Record ksigaction := Ksigaction { ksa : sigaction; sa_tramp : Z }.
Record stack_t := Stack { ss_sp : Z; ss_size : Z; ss_flags : Z }.
Definition no_action : sigaction := Sigaction 0 0 0.

Definition sigismember (set sig : Z) : bool := Z.testbit set (sig - 1).
Definition sigaddset (set sig : Z) : Z := Z.lor set (Z.shiftl 1 (sig - 1)).
Definition sigdelset (set sig : Z) : Z := Z.ldiff set (Z.shiftl 1 (sig - 1)).

(** The system call [__sigaction], libc's [sigaction] and [signal],
    [pthread_sigmask] (an error number) and [sigaltstack]; a call that fails
    returns an arbitrary old value. *)
Class SigCalls (K : Type) := {
  sys_sigaction : Z -> option ksigaction -> K -> (Z * ksigaction) * K;
  libc_sigaction : Z -> option sigaction -> K -> (Z * sigaction) * K;
  libc_signal : Z -> Z -> K -> Z * K;
  pthread_sigmask : Z -> option Z -> K -> (Z * Z) * K;
  sigaltstack : option stack_t -> K -> (Z * stack_t) * K
}.

Section signals.
Context {K : Type} `{SigCalls K}.
(** The addresses of [thread_sighandler] and [__xnd_sigtramp]. *)
Context (thread_sighandler xnd_sigtramp : Z).

(** [last_ckpt_sig], [sa_table], the environment, the calling thread's
    [sigblocked] and [ss], [errno], the kernel. *)
Record sigs := Sigs {
  last_ckpt_sig : Z;
  sa_table : list sigaction;
  s_env : env_state;
  sigblocked : Z;
  alt_stack : stack_t;
  s_errno : Z;
  s_k : K
}.
Implicit Types s : sigs.
Definition put_last (v : Z) s := Sigs v (sa_table s) (s_env s) (sigblocked s) (alt_stack s) (s_errno s) (s_k s).
Definition put_sa (l : list sigaction) s := Sigs (last_ckpt_sig s) l (s_env s) (sigblocked s) (alt_stack s) (s_errno s) (s_k s).
Definition put_senv (e : env_state) s := Sigs (last_ckpt_sig s) (sa_table s) e (sigblocked s) (alt_stack s) (s_errno s) (s_k s).
Definition put_blocked (v : Z) s := Sigs (last_ckpt_sig s) (sa_table s) (s_env s) v (alt_stack s) (s_errno s) (s_k s).
Definition put_ss (x : stack_t) s := Sigs (last_ckpt_sig s) (sa_table s) (s_env s) (sigblocked s) x (s_errno s) (s_k s).
Definition put_serrno (v : Z) s := Sigs (last_ckpt_sig s) (sa_table s) (s_env s) (sigblocked s) (alt_stack s) v (s_k s).
Definition put_sk (k : K) s := Sigs (last_ckpt_sig s) (sa_table s) (s_env s) (sigblocked s) (alt_stack s) (s_errno s) k.

Definition kcall {A} (f : K -> A * K) : M sigs A := fun s => let '(a, k) := f (s_k s) in Ret a (put_sk k s).
Definition ckpt_signal : M sigs Z := fun s =>
  match env_get_ckpt_signal (s_env s) with
  | Ret v e => Ret v (put_senv e s)
  | Exit c e => Exit c (put_senv e s)
  | Abort e => Abort (put_senv e s)
  | Ub => Ub
  | NoFuel => NoFuel
  end.

(** The result and, when it is 0, [*oact]. *)
Definition __xnd_sigaction (sig : Z) (act : option sigaction) : M sigs (Z * sigaction) :=
  if (sig <=? 0) || (NSIG <=? sig) then modify (put_serrno EINVAL);; mret (-1, no_action) else
  if (match act with Some _ => true | None => false end) && ((sig =? SIGSTOP) || (sig =? SIGKILL))
  then modify (put_serrno EINVAL);; mret (-1, no_action) else
  '(ret, osv) ← kcall (sys_sigaction sig (
    match act with
    | Some a => Some (Ksigaction (Sigaction (sa_handler a) (sa_mask a)
                        (Z.ldiff (sa_flags a) SA_VALIDATE_SIGRETURN_FROM_SIGTRAMP)) xnd_sigtramp)
    | None => None
    end));
  mret (ret, ksa osv).

(** [sa_table[sig]] *)
Definition entry (sig : Z) : M sigs sigaction :=
  t ← gets sa_table; if sig <? 0 then ub else deref (t !! Z.to_nat sig).
Definition set_entry (sig : Z) (a : sigaction) : M sigs unit :=
  entry sig;; modify (fun s => put_sa (<[Z.to_nat sig := a]> (sa_table s)) s).

Definition illegal (sig : Z) : bool := (sig <=? 0) || (NSIG <=? sig) || (sig =? SIGKILL) || (sig =? SIGSTOP).
(** [ckpt_sa->sa_sigaction] made [thread_sighandler] *)
Definition fix_ckpt_entry (ckpt_sig : Z) : M sigs unit :=
  a ← entry ckpt_sig;
  if negb (sa_handler a =? thread_sighandler)
  then set_entry ckpt_sig (Sigaction thread_sighandler (sa_mask a) (sa_flags a)) else mret tt.

Definition save_one (sig : Z) : M sigs unit :=
  if (sig =? SIGKILL) || (sig =? SIGSTOP) then mret tt else
  '(ret, old) ← __xnd_sigaction sig None;
  set_entry sig (if ret =? 0 then old else no_action).
Definition restore_one (sig : Z) : M sigs unit :=
  if (sig =? SIGKILL) || (sig =? SIGSTOP) then mret tt else
  a ← entry sig;
  __xnd_sigaction sig (Some a);;
  mret tt.
(** [for (sig = from; sig < from + n; sig++)] *)
Fixpoint for_sigs (n : nat) (from : Z) (body : Z -> M sigs unit) : M sigs unit :=
  match n with O => mret tt | S n => body from;; for_sigs n (from + 1) body end.
Definition all_sigs : (Z -> M sigs unit) -> M sigs unit := for_sigs (Z.to_nat (NSIG - 1)) 1.

Definition sig_state_save : M sigs unit :=
  ckpt_sig ← ckpt_signal;
  if illegal ckpt_sig then abort else
  all_sigs save_one;;
  fix_ckpt_entry ckpt_sig;;
  modify (put_last ckpt_sig).

Definition sig_state_restore : M sigs unit :=
  ckpt_sig ← ckpt_signal;
  last ← gets last_ckpt_sig;
  if negb (ckpt_sig =? last) then abort else
  if illegal ckpt_sig then abort else
  fix_ckpt_entry ckpt_sig;;
  all_sigs restore_one.

(** The hooks return what the caller gets; [*oact] is the second component. *)
Definition __signal_hook (sig handler : Z) : M sigs Z :=
  reserved ← ckpt_signal;
  if sig =? reserved then mret SIG_ERR else
  if (handler =? SIG_DFL) || (handler =? SIG_IGN) then kcall (libc_signal sig handler) else
  '(ret, _) ← __xnd_sigaction sig (Some (Sigaction handler 0 0));
  mret (if negb (ret =? 0) then SIG_ERR else 0).

Definition __sigaction_hook (sig : Z) (act : option sigaction) : M sigs (Z * sigaction) :=
  match act with
  | None => kcall (libc_sigaction sig None)
  | Some a =>
    reserved ← ckpt_signal;
    if sig =? reserved then mret (-1, no_action) else
    if (sa_handler a =? SIG_DFL) || (sa_handler a =? SIG_IGN) then kcall (libc_sigaction sig (Some a))
    else __xnd_sigaction sig (Some a)
  end.

Definition __pthread_sigmask_hook (how : Z) (set : option Z) : M sigs (Z * Z) :=
  reserved ← ckpt_signal;
  match set with
  | None => kcall (pthread_sigmask how None)
  | Some set =>
    let clean :=
      if (how =? SIG_BLOCK) || (how =? SIG_SETMASK)
      then if sigismember set reserved then sigdelset set reserved else set
      else set in
    kcall (pthread_sigmask how (Some clean))
  end.
Definition __sigprocmask_hook : Z -> option Z -> M sigs (Z * Z) := __pthread_sigmask_hook.

(** ** The signal state of a thread *)

(** The checkpoint thread blocks the checkpoint signal. *)
Definition ckpt_blocked (is_ckpt : bool) (ckpt_sig set : Z) : Z :=
  if is_ckpt && negb (sigismember set ckpt_sig) then sigaddset set ckpt_sig else set.

Definition thread_save_sig_state (is_ckpt : bool) : M sigs unit :=
  ckpt_sig ← ckpt_signal;
  '(err, old) ← kcall (pthread_sigmask SIG_SETMASK None);
  let blocked := if negb (err =? 0) then 0 else old in
  modify (put_blocked (ckpt_blocked is_ckpt ckpt_sig blocked));;
  '(ret, old) ← kcall (sigaltstack None);
  modify (fun s => put_ss (if negb (ret =? 0) then Stack (ss_sp (alt_stack s)) (ss_size (alt_stack s)) SS_DISABLE else old) s).

Definition thread_restore_sig_state (is_ckpt : bool) : M sigs unit :=
  ckpt_sig ← ckpt_signal;
  modify (fun s => put_blocked (ckpt_blocked is_ckpt ckpt_sig (sigblocked s)) s);;
  blocked ← gets sigblocked;
  kcall (pthread_sigmask SIG_SETMASK (Some blocked));;
  ss ← gets alt_stack;
  if (ss_sp ss =? 0) || negb (Z.land (ss_flags ss) SS_DISABLE =? 0) then mret tt else
  modify (put_ss (Stack (ss_sp ss) (ss_size ss) (Z.ldiff (ss_flags ss) SS_ONSTACK)));;
  ss ← gets alt_stack;
  kcall (sigaltstack (Some ss));;
  mret tt.
End signals.
