(* ===== verification/SigProps.v ===== *)
(** The signal functions of [SigHooks] against the documented behaviour of the
    system calls: dispositions and masks survive a restart, and the program
    cannot take the checkpoint signal away. *)

From S2P Require Import Prelude Cstr Env SigHooks.
Open Scope Z_scope.

Definition no_trap (act : option ksigaction) (sig : Z) : Prop := act <> None -> sig <> SIGKILL /\ sig <> SIGSTOP.
(** The effect of [how]; another [how] is an error. *)
Definition masked (how old set : Z) : Z :=
  if how =? SIG_BLOCK then Z.lor old set
  else if how =? SIG_UNBLOCK then Z.ldiff old set
  else if how =? SIG_SETMASK then set else old.

(** The dispositions of the process and the mask and alternate stack of the
    calling thread, as the manual pages have the calls change them. *)
Class SigSpec (K : Type) `{SigCalls K} := {
  disp : K -> Z -> ksigaction;
  kmask : K -> Z;
  kstack : K -> stack_t;
  spec_sigaction sig act k : 0 < sig < NSIG -> no_trap act sig ->
    let '(r, k') := sys_sigaction sig act k in
    r = (0, disp k sig) /\
    (forall j, disp k' j = match act with Some a => if j =? sig then a else disp k j | None => disp k j end) /\
    kmask k' = kmask k /\ kstack k' = kstack k;
  spec_libc_sigaction sig act k :
    let '(r, k') := libc_sigaction sig act k in
    (forall j, j <> sig \/ act = None -> disp k' j = disp k j) /\ kmask k' = kmask k;
  spec_libc_signal sig h k :
    let '(r, k') := libc_signal sig h k in (forall j, j <> sig -> disp k' j = disp k j) /\ kmask k' = kmask k;
  spec_sigmask how set k :
    let '(r, k') := pthread_sigmask how set k in
    (set = None \/ how = SIG_SETMASK -> r = (0, kmask k)) /\
    kmask k' = match set with Some v => masked how (kmask k) v | None => kmask k end /\
    (forall j, disp k' j = disp k j) /\ kstack k' = kstack k;
  spec_altstack x k :
    match x with None => True | Some _ => Z.land (ss_flags (kstack k)) SS_ONSTACK = 0 end ->
    let '(r, k') := sigaltstack x k in
    r = (0, kstack k) /\ kstack k' = match x with Some x => x | None => kstack k end /\ kmask k' = kmask k
}.

Section props.
Context {K : Type} `{SigSpec K} (thread_sighandler xnd_sigtramp : Z).
Implicit Types s : sigs (K:=K).
Notation save := (sig_state_save thread_sighandler xnd_sigtramp).
Notation restore := (sig_state_restore thread_sighandler xnd_sigtramp).

(** The checkpoint signal as every call of [env_get_ckpt_signal] gives it. *)
Definition reserved (c : Z) s : Prop := env_get_ckpt_signal (s_env s) = Ret c (s_env s) /\ valid_sig c.
Lemma ckpt_signal_eq c s : reserved c s -> ckpt_signal s = Ret c s.
Proof. intros [He _]. unfold ckpt_signal. rewrite He. by destruct s. Qed.
Lemma legal c : valid_sig c -> illegal c = false.
Proof. unfold valid_sig, illegal. intros ([? ?] & ? & ?). rewrite !orb_false_iff. split; [split; [split|]|]; lia. Qed.

Lemma for_sigs_rule (I : Z -> sigs (K:=K) -> Prop) body n from s :
  I from s -> (forall i s, from <= i < from + Z.of_nat n -> I i s -> returns (body i) s (fun _ => I (i + 1))) ->
  returns (for_sigs n from body) s (fun _ => I (from + Z.of_nat n)).
Proof.
  revert from s. induction n as [|n IH]; intros from s Hi Hb.
  - rewrite Z.add_0_r. by apply returns_ret.
  - cbn [for_sigs]. apply returns_bind. eapply returns_weaken; [apply Hb; [lia|done]|]. intros [] s' Hi'.
    replace (from + Z.of_nat (S n)) with (from + 1 + Z.of_nat n) by lia. apply IH; [done|].
    intros i s1 Hr. apply Hb. lia.
Qed.

(** What [__xnd_sigaction] installs. *)
Definition installed (a : sigaction) : ksigaction :=
  Ksigaction (Sigaction (sa_handler a) (sa_mask a) (Z.ldiff (sa_flags a) SA_VALIDATE_SIGRETURN_FROM_SIGTRAMP)) xnd_sigtramp.

Lemma xnd_sigaction_ok sig act s : 0 < sig < NSIG -> (act <> None -> sig <> SIGKILL /\ sig <> SIGSTOP) ->
  returns (__xnd_sigaction xnd_sigtramp sig act) s (fun r s' => r = (0, ksa (disp (s_k s) sig)) /\
    (exists k', s' = put_sk k' s /\ kmask k' = kmask (s_k s) /\
      forall j, disp k' j = match act with Some a => if j =? sig then installed a else disp (s_k s) j | None => disp (s_k s) j end)).
Proof.
  intros Hs Hn. unfold __xnd_sigaction.
  assert ((sig <=? 0) || (NSIG <=? sig) = false) as -> by lia.
  assert ((match act with Some _ => true | None => false end) && ((sig =? SIGSTOP) || (sig =? SIGKILL)) = false) as ->.
  { destruct act; [|done]. specialize (Hn ltac:(done)). lia. }
  set (kact := match act with Some _ => _ | None => _ end).
  pose proof (spec_sigaction sig kact (s_k s) Hs) as Hsp.
  assert (no_trap kact sig) as Ht by (unfold no_trap, kact; destruct act; [intros _; by apply Hn|done]).
  specialize (Hsp Ht). destruct (sys_sigaction sig kact (s_k s)) as [r k'] eqn:E. destruct Hsp as (-> & Hd & Hm & _).
  eapply returns_step; [unfold kcall; rewrite E; reflexivity|]. apply returns_ret. split; [done|].
  exists k'. split; [done|]. split; [done|]. intros j. rewrite Hd. unfold kact. by destruct act.
Qed.
Lemma xnd_sigaction_any sig act s :
  returns (__xnd_sigaction xnd_sigtramp sig act) s (fun _ s' => s_env s' = s_env s /\
    kmask (s_k s') = kmask (s_k s) /\ forall j, j <> sig -> disp (s_k s') j = disp (s_k s) j).
Proof.
  destruct (decide (0 < sig < NSIG)) as [Hs|Hs].
  - destruct (decide (act <> None -> sig <> SIGKILL /\ sig <> SIGSTOP)) as [Hn|Hn].
    + eapply returns_weaken; [by apply xnd_sigaction_ok|]. intros _ s' (_ & k' & -> & Hm & Hd). split; [done|].
      split; [done|]. intros j Hj. cbn. rewrite Hd. destruct act; [|done]. by rewrite (proj2 (Z.eqb_neq _ _)).
    + unfold __xnd_sigaction. assert ((sig <=? 0) || (NSIG <=? sig) = false) as -> by lia.
      destruct act; [|by destruct Hn]. assert ((sig =? SIGSTOP) || (sig =? SIGKILL) = true) as Hx.
      { destruct (Z.eqb_spec sig SIGSTOP); [done|]. destruct (Z.eqb_spec sig SIGKILL); [done|]. by destruct Hn. }
      rewrite Hx. done.
  - unfold __xnd_sigaction. assert ((sig <=? 0) || (NSIG <=? sig) = true) as -> by (unfold NSIG in *; lia). done.
Qed.

Lemma entry_eq sig s a : 0 <= sig -> sa_table s !! Z.to_nat sig = Some a -> entry sig s = Ret a s.
Proof.
  intros Hs Ha. unfold entry. rewrite (bind_ret (gets sa_table) _ s (sa_table s) s) by done.
  rewrite (proj2 (Z.ltb_ge _ _)) by done. unfold deref. by rewrite Ha.
Qed.
Lemma set_entry_eq sig s a a' : 0 <= sig -> sa_table s !! Z.to_nat sig = Some a ->
  set_entry sig a' s = Ret tt (put_sa (<[Z.to_nat sig := a']> (sa_table s)) s).
Proof. intros Hs Ha. unfold set_entry. by rewrite (bind_ret _ _ _ _ _ (entry_eq sig s a Hs Ha)). Qed.
Lemma fix_ckpt_entry_eq c s a : 0 <= c -> sa_table s !! Z.to_nat c = Some a ->
  fix_ckpt_entry thread_sighandler c s =
    Ret tt (put_sa (<[Z.to_nat c := Sigaction thread_sighandler (sa_mask a) (sa_flags a)]> (sa_table s)) s).
Proof.
  intros Hc Ha. unfold fix_ckpt_entry. rewrite (bind_ret _ _ _ _ _ (entry_eq c s a Hc Ha)).
  destruct (Z.eqb_spec (sa_handler a) thread_sighandler) as [<-|]; cbn [negb]; [|by eapply set_entry_eq].
  assert (Sigaction (sa_handler a) (sa_mask a) (sa_flags a) = a) as -> by by destruct a.
  rewrite list_insert_id by done. by destruct s.
Qed.

(** ** Saving and restoring every disposition *)

(** The table after the signals below [i] are saved. *)
Definition saving (k : K) (e : env_state) (b : Z) (ss : stack_t) (last er : Z) (i : Z) s : Prop :=
  exists l k', s = Sigs last l e b ss er k' /\ length l = Z.to_nat NSIG /\ (forall j, disp k' j = disp k j) /\
    forall j, 0 < j < i -> j <> SIGKILL -> j <> SIGSTOP -> l !! Z.to_nat j = Some (ksa (disp k j)).
Definition the_action (c : Z) (k : K) (j : Z) : sigaction :=
  let a := ksa (disp k j) in if j =? c then Sigaction thread_sighandler (sa_mask a) (sa_flags a) else a.

Lemma save_all s : length (sa_table s) = Z.to_nat NSIG ->
  returns (all_sigs (save_one xnd_sigtramp)) s (fun _ s' =>
    saving (s_k s) (s_env s) (sigblocked s) (alt_stack s) (last_ckpt_sig s) (s_errno s) NSIG s').
Proof.
  intros Hl. unfold all_sigs. eapply returns_weaken.
  - apply (for_sigs_rule (fun i => saving (s_k s) (s_env s) (sigblocked s) (alt_stack s) (last_ckpt_sig s) (s_errno s) i)).
    + exists (sa_table s), (s_k s). split; [by destruct s|]. split; [done|]. split; [done|]. lia.
    + intros i s1 Hi (l & k1 & -> & Hl1 & Hd1 & Ht). unfold save_one.
      assert (0 < i < NSIG) as Hi' by (unfold NSIG in *; lia).
      destruct (Z.eqb_spec i SIGKILL); cbn [orb]; [|destruct (Z.eqb_spec i SIGSTOP)].
      1-2: apply returns_ret; exists l, k1; split; [done|]; split; [done|]; split; [done|]; intros j Hj H9 H17; apply Ht; [lia|done|done].
      apply returns_bind. eapply returns_weaken; [by apply xnd_sigaction_ok|].
      intros [r old] s2 ([= -> ->] & k2 & -> & Hm & Hd2). cbn [Z.eqb].
      destruct (lookup_lt_is_Some_2 l (Z.to_nat i)) as [a0 Ha0]; [unfold NSIG in *; lia|].
      eapply returns_intro; [eapply set_entry_eq; [lia|exact Ha0]|]. eexists _, k2. split; [done|].
      split; [by rewrite length_insert|]. split; [intros j; rewrite Hd2; apply Hd1|].
      intros j Hj H9 H17. cbn. destruct (decide (j = i)) as [->|Hne].
      * rewrite list_lookup_insert_eq by (rewrite Hl1; unfold NSIG in *; lia). by rewrite Hd1.
      * rewrite list_lookup_insert_ne by lia. apply Ht; [lia|done|done].
  - cbn beta. intros _ s' Hs'. exact Hs'.
Qed.

Lemma sig_state_save_ok c s : reserved c s -> length (sa_table s) = Z.to_nat NSIG ->
  returns save s (fun _ s1 => reserved c s1 /\ last_ckpt_sig s1 = c /\ length (sa_table s1) = Z.to_nat NSIG /\
    forall j, valid_sig j -> sa_table s1 !! Z.to_nat j = Some (the_action c (s_k s) j)).
Proof.
  intros Hr Hl. pose proof Hr as [He Hv]. unfold sig_state_save. eapply returns_step; [by apply ckpt_signal_eq|].
  rewrite (legal c Hv). apply returns_bind. eapply returns_weaken; [by apply save_all|].
  intros [] s1 (l & k1 & -> & Hl1 & Hd1 & Ht). destruct Hv as (Hc & H9 & H17).
  eapply returns_step; [eapply fix_ckpt_entry_eq; [lia|]; cbn; apply Ht; [lia|done|done]|].
  eapply returns_intro; [reflexivity|]. split; [done|]. split; [done|]. split; [cbn; by rewrite length_insert|].
  intros j (Hj & J9 & J17). cbn. unfold the_action. destruct (Z.eqb_spec j c) as [->|Hne].
  - rewrite list_lookup_insert_eq by (rewrite Hl1; lia). done.
  - rewrite list_lookup_insert_ne by lia. by apply Ht.
Qed.

Lemma restore_all s c k : length (sa_table s) = Z.to_nat NSIG ->
  (forall j, valid_sig j -> sa_table s !! Z.to_nat j = Some (the_action c k j)) ->
  returns (all_sigs (restore_one xnd_sigtramp)) s (fun _ s' => kmask (s_k s') = kmask (s_k s) /\
    forall j, valid_sig j -> disp (s_k s') j = installed (the_action c k j)).
Proof.
  intros Hl Ht. unfold all_sigs. eapply returns_weaken.
  - apply (for_sigs_rule (fun i s' => exists k', s' = put_sk k' s /\ kmask k' = kmask (s_k s) /\
      forall j, valid_sig j -> j < i -> disp k' j = installed (the_action c k j))).
    + exists (s_k s). split; [by destruct s|]. split; [done|]. intros j [? _] ?. lia.
    + intros i s1 Hi (k1 & -> & Hm1 & Hd1). unfold restore_one. assert (0 < i < NSIG) as Hi' by (unfold NSIG in *; lia).
      destruct (Z.eqb_spec i SIGKILL); cbn [orb]; [|destruct (Z.eqb_spec i SIGSTOP)].
      1-2: apply returns_ret; exists k1; split; [done|]; split; [done|]; intros j (J1 & J9 & J17) Hj; apply Hd1; [done|lia].
      assert (valid_sig i) as Hvi by done. eapply returns_step; [eapply entry_eq; [lia|]; cbn; by apply Ht|].
      apply returns_bind. eapply returns_weaken; [by apply xnd_sigaction_ok|].
      intros [r old] s2 (_ & k2 & -> & Hm2 & Hd2). apply returns_ret. exists k2. split; [done|].
      split; [by rewrite Hm2|]. intros j Hj Hlt. rewrite Hd2. cbn. destruct (Z.eqb_spec j i) as [->|Hne]; [done|].
      apply Hd1; [done|lia].
  - cbn beta. intros _ s' (k' & -> & Hm & Hd). split; [done|]. intros j Hj. apply Hd; [done|]. destruct Hj as [? _]. unfold NSIG in *. lia.
Qed.

(** Restoring the table of dispositions [k] had. *)
Lemma sig_state_restore_ok c k s : reserved c s -> last_ckpt_sig s = c -> length (sa_table s) = Z.to_nat NSIG ->
  (forall j, valid_sig j -> sa_table s !! Z.to_nat j = Some (the_action c k j)) ->
  returns restore s (fun _ s' => forall j, valid_sig j -> disp (s_k s') j = installed (the_action c k j)).
Proof.
  intros Hr Hlast Hl Ht. pose proof Hr as [_ Hv]. unfold sig_state_restore.
  eapply returns_step; [by apply ckpt_signal_eq|]. eapply returns_step; [reflexivity|].
  rewrite Hlast, Z.eqb_refl, (legal c Hv). cbn [negb].
  assert (sa_table s !! Z.to_nat c = Some (the_action c k c)) as Hc by by apply Ht.
  eapply returns_step; [eapply fix_ckpt_entry_eq; [destruct Hv; lia|exact Hc]|].
  eapply returns_weaken; [apply (restore_all _ c k)|intros _ s3 [_ Hd]; exact Hd].
  - cbn. by rewrite length_insert.
  - intros j Hj. cbn. destruct (decide (j = c)) as [->|Hne].
    + rewrite list_lookup_insert_eq by (rewrite Hl; destruct Hv; lia). unfold the_action. by rewrite Z.eqb_refl.
    + rewrite list_lookup_insert_ne by (destruct Hj, Hv; lia). by apply Ht.
Qed.

(** C12. Every signal disposition survives a restart: after [sig_state_save]
    before the checkpoint and [sig_state_restore] in any other process, each
    signal that can have one has the handler, mask and flags it had, run
    through xnd's trampoline, and the checkpoint signal has
    [thread_sighandler]. *)
Theorem sig_state_roundtrip c s : reserved c s -> length (sa_table s) = Z.to_nat NSIG ->
  returns save s (fun _ s1 => forall k2, returns restore (put_sk k2 s1) (fun _ s3 =>
    forall j, valid_sig j -> disp (s_k s3) j = installed (the_action c (s_k s) j))).
Proof.
  intros Hr Hl. eapply returns_weaken; [by apply (sig_state_save_ok c)|].
  intros _ s1 (Hr1 & Hlast & Hl1 & Ht) k2. by apply sig_state_restore_ok.
Qed.

(** ** The checkpoint signal cannot be taken away *)

Definition protected (c : Z) s : Prop :=
  reserved c s /\ sa_handler (ksa (disp (s_k s) c)) = thread_sighandler /\ sigismember (kmask (s_k s)) c = false.
Lemma protected_same c s s' : protected c s -> s_env s' = s_env s -> kmask (s_k s') = kmask (s_k s) ->
  disp (s_k s') c = disp (s_k s) c -> protected c s'.
Proof. unfold protected, reserved. intros (? & ? & ?) -> -> ->. done. Qed.
Lemma sigdelset_out set c : 0 < c -> sigismember (sigdelset set c) c = false.
Proof.
  intros Hc. unfold sigismember, sigdelset. rewrite Z.ldiff_spec, Z.shiftl_spec by lia.
  rewrite Z.sub_diag. cbn. by rewrite andb_false_r.
Qed.
Lemma masked_out how old set c : sigismember old c = false ->
  (how = SIG_BLOCK \/ how = SIG_SETMASK -> sigismember set c = false) -> sigismember (masked how old set) c = false.
Proof.
  unfold masked, sigismember. intros Ho Hs. destruct (Z.eqb_spec how SIG_BLOCK) as [->|].
  - by rewrite Z.lor_spec, Ho, Hs by auto.
  - destruct (Z.eqb_spec how SIG_UNBLOCK); [by rewrite Z.ldiff_spec, Ho|].
    destruct (Z.eqb_spec how SIG_SETMASK) as [->|]; [|done]. auto.
Qed.

(** The mask of a handler is not filtered: while a handler that was installed
    with a full mask runs, the kernel has the checkpoint signal blocked. *)
Theorem handler_mask_unfiltered c s sig a : reserved c s -> sig <> c -> 0 < sig < NSIG -> sig <> SIGKILL -> sig <> SIGSTOP ->
  sa_handler a <> SIG_DFL -> sa_handler a <> SIG_IGN ->
  returns (__sigaction_hook xnd_sigtramp sig (Some a)) s (fun _ s' => sa_mask (ksa (disp (s_k s') sig)) = sa_mask a).
Proof.
  intros Hr Hne Hs Hk1 Hk2 Hh1 Hh2. unfold __sigaction_hook. eapply returns_step; [by apply (ckpt_signal_eq c)|].
  rewrite (proj2 (Z.eqb_neq _ _)), (proj2 (Z.eqb_neq _ _) Hh1), (proj2 (Z.eqb_neq _ _) Hh2) by done. cbn [orb].
  eapply returns_weaken; [by apply xnd_sigaction_ok|]. intros r s' (_ & k' & -> & _ & Hd). cbn [s_k put_sk].
  by rewrite Hd, Z.eqb_refl.
Qed.

(** C20. [signal], [sigaction] and [sigprocmask] ([pthread_sigmask]), as the
    program is given them, keep the checkpoint signal: from a state in which its
    handler is [thread_sighandler] and the calling thread's mask leaves it out,
    whatever signal, handler, action or set they are called with, each returns in
    such a state.  The mask a handler runs with is not theirs to filter
    ([handler_mask_unfiltered]). *)
Theorem ckpt_signal_protected c s (sig handler how : Z) (act : option sigaction) (set : option Z) : protected c s ->
  returns (__signal_hook xnd_sigtramp sig handler) s (fun _ s' => protected c s') /\
  returns (__sigaction_hook xnd_sigtramp sig act) s (fun _ s' => protected c s') /\
  returns (__sigprocmask_hook how set) s (fun _ s' => protected c s').
Proof.
  intros Hp. pose proof Hp as (Hr & Hh & Hm). pose proof (ckpt_signal_eq c s Hr) as Hck. pose proof Hr as [_ [Hc _]].
  split; [|split].
  - unfold __signal_hook. eapply returns_step; [exact Hck|]. destruct (Z.eqb_spec sig c) as [|Hne]; [done|].
    destruct (orb _ _).
    + pose proof (spec_libc_signal sig handler (s_k s)) as Hsp. unfold returns, kcall.
      destruct (libc_signal sig handler (s_k s)) as [r k']. destruct Hsp as [Hd Hk].
      apply (protected_same c s); [done|done|done|]. by apply Hd.
    + apply returns_bind. eapply returns_weaken; [apply xnd_sigaction_any|]. intros [r old] s' (He & Hk & Hd).
      apply returns_ret. apply (protected_same c s); auto.
  - unfold __sigaction_hook. destruct act as [a|].
    + eapply returns_step; [exact Hck|]. destruct (Z.eqb_spec sig c) as [|Hne]; [done|]. destruct (orb _ _).
      * pose proof (spec_libc_sigaction sig (Some a) (s_k s)) as Hsp. unfold returns, kcall.
        destruct (libc_sigaction sig (Some a) (s_k s)) as [r k']. destruct Hsp as [Hd Hk].
        apply (protected_same c s); [done|done|done|]. apply Hd. by left.
      * eapply returns_weaken; [apply xnd_sigaction_any|]. intros r s' (He & Hk & Hd). apply (protected_same c s); auto.
    + pose proof (spec_libc_sigaction sig None (s_k s)) as Hsp. unfold returns, kcall.
      destruct (libc_sigaction sig None (s_k s)) as [r k']. destruct Hsp as [Hd Hk].
      apply (protected_same c s); [done|done|done|]. apply Hd. by right.
  - unfold __sigprocmask_hook, __pthread_sigmask_hook. eapply returns_step; [exact Hck|].
    assert (forall x, match x with Some v => how = SIG_BLOCK \/ how = SIG_SETMASK -> sigismember v c = false | None => True end ->
      returns (kcall (pthread_sigmask how x)) s (fun _ s' => protected c s')) as Hx.
    { intros x Hx. pose proof (spec_sigmask how x (s_k s)) as Hsp. unfold returns, kcall.
      destruct (pthread_sigmask how x (s_k s)) as [r k']. destruct Hsp as (_ & Hk & Hd & _). unfold protected, reserved in *.
      cbn. rewrite Hk, Hd. split; [done|]. split; [done|]. destruct x; [|done]. by apply masked_out. }
    destruct set as [v|]; [|by apply Hx]. apply Hx. intros Hhow.
    assert ((how =? SIG_BLOCK) || (how =? SIG_SETMASK) = true) as -> by (destruct Hhow as [-> | ->]; done).
    destruct (sigismember v c) eqn:E; [|done]. apply sigdelset_out. lia.
Qed.

(** ** The signal state of a thread *)

(** A thread's signal mask and alternate stack survive a restart; the
    checkpoint thread ends with the checkpoint signal blocked. *)
Theorem thread_sig_roundtrip is_ckpt c s : reserved c s ->
  returns (thread_save_sig_state is_ckpt) s (fun _ s1 =>
    forall k2, Z.land (ss_flags (kstack k2)) SS_ONSTACK = 0 ->
    returns (thread_restore_sig_state is_ckpt) (put_sk k2 s1) (fun _ s3 =>
      kmask (s_k s3) = ckpt_blocked is_ckpt c (kmask (s_k s)) /\
      let ss := kstack (s_k s) in
      kstack (s_k s3) = if (ss_sp ss =? 0) || negb (Z.land (ss_flags ss) SS_DISABLE =? 0) then kstack k2
                        else Stack (ss_sp ss) (ss_size ss) (Z.ldiff (ss_flags ss) SS_ONSTACK))).
Proof.
  intros Hr. unfold thread_save_sig_state. eapply returns_step; [by apply ckpt_signal_eq|].
  pose proof (spec_sigmask SIG_SETMASK None (s_k s)) as Hm. destruct (pthread_sigmask SIG_SETMASK None (s_k s)) as [r k1] eqn:E1.
  destruct Hm as (Hm1 & Hm2 & _ & Hm4). rewrite (Hm1 (or_introl eq_refl)) in E1.
  eapply returns_step; [unfold kcall; rewrite E1; reflexivity|]. cbn [negb Z.eqb]. eapply returns_step; [reflexivity|].
  cbn [s_k put_sk put_blocked]. pose proof (spec_altstack None k1 I) as Ha. destruct (sigaltstack None k1) as [r2 k1'] eqn:E2.
  destruct Ha as (-> & _ & _). eapply returns_step; [unfold kcall; cbn; rewrite E2; reflexivity|]. cbn [negb Z.eqb].
  eapply returns_intro; [reflexivity|]. intros k2 Hon. rewrite Hm4. unfold thread_restore_sig_state.
  set (s1 := put_sk k2 _). set (b := ckpt_blocked is_ckpt c (kmask (s_k s))) in *.
  assert (ckpt_blocked is_ckpt c b = b) as Hb.
  { unfold b, ckpt_blocked. destruct is_ckpt; [|done]. cbn [andb]. destruct (sigismember (kmask (s_k s)) c) eqn:E; cbn [negb].
    - by rewrite E.
    - assert (sigismember (sigaddset (kmask (s_k s)) c) c = true) as ->; [|done].
      destruct Hr as [_ [Hc _]]. unfold sigismember, sigaddset. rewrite Z.lor_spec, Z.shiftl_spec by lia.
      by rewrite Z.sub_diag, orb_true_r. }
  eapply returns_step; [apply (ckpt_signal_eq c s1); exact Hr|]. eapply returns_step; [reflexivity|].
  change (sigblocked s1) with b. rewrite Hb. eapply returns_step; [reflexivity|]. cbn [sigblocked put_blocked].
  pose proof (spec_sigmask SIG_SETMASK (Some b) k2) as Hm'. destruct (pthread_sigmask SIG_SETMASK (Some b) k2) as [r3 k3] eqn:E3.
  destruct Hm' as (_ & Hk3 & _ & Hst3). change (masked SIG_SETMASK (kmask k2) b) with b in Hk3.
  eapply returns_step; [unfold kcall; cbn; rewrite E3; reflexivity|]. eapply returns_step; [reflexivity|].
  cbn [alt_stack put_sk put_blocked put_ss s1]. destruct (orb _ _); [by apply returns_ret|].
  eapply returns_step; [reflexivity|]. eapply returns_step; [reflexivity|]. cbn [alt_stack put_ss].
  set (x := Stack _ _ _). pose proof (spec_altstack (Some x) k3) as Ha'. rewrite Hst3 in Ha'. specialize (Ha' Hon).
  destruct (sigaltstack (Some x) k3) as [r4 k4] eqn:E4. destruct Ha' as (_ & Hx4 & Hm4').
  eapply returns_step; [unfold kcall; cbn; rewrite E4; reflexivity|]. apply returns_ret. cbn. by rewrite Hm4', Hx4.
Qed.
End props.
