(* ===== verification/SigWorld.v ===== *)
(** A concrete kernel for [SigHooks] and [SigProps]: dispositions, mask and
    alternate stack of one thread, with the calls of the manual pages.  The
    theorems of [SigProps] are applied to it, in a program that handles
    SIGUSR1, blocks two signals and has an alternate stack. *)

From S2P Require Import Prelude Cstr Env SigHooks SigProps.
Open Scope Z_scope.

Record kernel := Kernel { k_disp : Z -> ksigaction; k_mask : Z; k_stack : stack_t }.
Definition LIBC_SIGTRAMP : Z := 0x1900.

Definition trapped (sig : Z) : bool := (sig =? SIGKILL) || (sig =? SIGSTOP).
Definition change_disp (sig : Z) (act : option ksigaction) (k : kernel) : kernel :=
  match act with
  | Some a => Kernel (fun j => if j =? sig then a else k_disp k j) (k_mask k) (k_stack k)
  | None => k
  end.
Definition k_sigaction (sig : Z) (act : option ksigaction) (k : kernel) : (Z * ksigaction) * kernel :=
  if match act with Some _ => trapped sig | None => false end then ((EINVAL, k_disp k sig), k)
  else ((0, k_disp k sig), change_disp sig act k).
Definition k_libc_sigaction (sig : Z) (act : option sigaction) (k : kernel) : (Z * sigaction) * kernel :=
  let '((r, old), k') := k_sigaction sig ((fun a => Ksigaction a LIBC_SIGTRAMP) <$> act) k in ((r, ksa old), k').
Definition k_libc_signal (sig h : Z) (k : kernel) : Z * kernel :=
  let '((_, old), k') := k_sigaction sig (Some (Ksigaction (Sigaction h 0 0) LIBC_SIGTRAMP)) k in (sa_handler (ksa old), k').
Definition k_sigmask (how : Z) (set : option Z) (k : kernel) : (Z * Z) * kernel :=
  match set with
  | None => ((0, k_mask k), k)
  | Some v => ((if (1 <=? how) && (how <=? 3) then 0 else EINVAL, k_mask k),
               Kernel (k_disp k) (masked how (k_mask k) v) (k_stack k))
  end.
Definition k_altstack (x : option stack_t) (k : kernel) : (Z * stack_t) * kernel :=
  match x with
  | None => ((0, k_stack k), k)
  | Some x => if Z.land (ss_flags (k_stack k)) SS_ONSTACK =? 0 then ((0, k_stack k), Kernel (k_disp k) (k_mask k) x)
              else ((-1, k_stack k), k)
  end.

#[export] Instance kernel_calls : SigCalls kernel := {
  sys_sigaction := k_sigaction;
  libc_sigaction := k_libc_sigaction;
  libc_signal := k_libc_signal;
  pthread_sigmask := k_sigmask;
  sigaltstack := k_altstack
}.

#[export] Program Instance kernel_spec : SigSpec kernel := {
  disp := k_disp;
  kmask := k_mask;
  kstack := k_stack
}.
Next Obligation.
  intros sig act k Hs Hn. cbn. unfold k_sigaction, trapped.
  assert (match act with Some _ => (sig =? SIGKILL) || (sig =? SIGSTOP) | None => false end = false) as ->.
  { unfold no_trap in Hn. destruct act; [|done]. specialize (Hn ltac:(done)). lia. }
  by destruct act.
Qed.
Next Obligation.
  intros sig act k. cbn. unfold k_libc_sigaction, k_sigaction. destruct act as [a|]; cbn; [|done].
  destruct (trapped sig); cbn; [done|]. split; [|done]. intros j [Hj|]; [|done]. by rewrite (proj2 (Z.eqb_neq _ _)).
Qed.
Next Obligation.
  intros sig h k. cbn. unfold k_libc_signal, k_sigaction. destruct (trapped sig); cbn; [done|].
  split; [|done]. intros j Hj. by rewrite (proj2 (Z.eqb_neq _ _)).
Qed.
Next Obligation.
  intros how [v|] k; cbn; [|done]. split; [|done]. intros [|Hh]; [done|]. by rewrite Hh.
Qed.
Next Obligation. intros [x|] k; cbn; [|done]. intros ->. done. Qed.

(** SIGUSR2 is the checkpoint signal (31), handled at 0x7000; SIGUSR1 (30) is
    handled by the program. *)
Definition handler_at : Z := 0x7000.
Definition tramp_at : Z := 0x7100.
Definition start : kernel := Kernel
  (fun j => Ksigaction (if j =? 31 then Sigaction handler_at 0 64 else if j =? 30 then Sigaction 0x8000 6 66 else no_action) tramp_at)
  (Z.shiftl 1 1 + Z.shiftl 1 13) (Stack 0x100000 0x8000 0).
Definition program : sigs (K:=kernel) :=
  Sigs (-1) (repeat no_action 32) (EnvState ∅ 31) 0 (Stack 0 0 0) 0 start.
(** The new process has its own dispositions. *)
Definition fresh : kernel := Kernel (fun _ => Ksigaction no_action 0) 0 (Stack 0 0 SS_DISABLE).

Lemma program_reserved : reserved 31 program.
Proof. split; [reflexivity|]. unfold valid_sig, NSIG, SIGKILL, SIGSTOP. lia. Qed.

Lemma sig_state_roundtrip_witness :
  returns (sig_state_save handler_at tramp_at) program (fun _ s1 =>
    forall k2, returns (sig_state_restore handler_at tramp_at) (put_sk k2 s1) (fun _ s3 =>
    forall j, valid_sig j -> disp (s_k s3) j = installed tramp_at (the_action handler_at 31 (s_k program) j))).
Proof. exact (sig_state_roundtrip handler_at tramp_at 31 program program_reserved (eq_refl 32%nat)). Defined.

Lemma ckpt_signal_protected_witness :
  protected handler_at 31 program /\
  returns (__signal_hook tramp_at 31 SIG_IGN) program (fun _ s' => protected handler_at 31 s') /\
  returns (__sigaction_hook tramp_at 31 (Some no_action)) program (fun _ s' => protected handler_at 31 s') /\
  returns (__sigprocmask_hook SIG_SETMASK (Some (2 ^ 32 - 1))) program (fun _ s' => protected handler_at 31 s').
Proof.
  assert (protected handler_at 31 program) as Hp by (split; [apply program_reserved | split; reflexivity]).
  split; [exact Hp|].
  apply (ckpt_signal_protected handler_at tramp_at 31 program 31 SIG_IGN SIG_SETMASK (Some no_action) (Some (2 ^ 32 - 1)) Hp).
Defined.

Lemma thread_sig_roundtrip_witness :
  returns (thread_save_sig_state true) program (fun _ s1 =>
    forall k2, Z.land (ss_flags (kstack k2)) SS_ONSTACK = 0 ->
    returns (thread_restore_sig_state true) (put_sk k2 s1) (fun _ s3 =>
      kmask (s_k s3) = ckpt_blocked true 31 (kmask (s_k program)) /\
      let ss := kstack (s_k program) in
      kstack (s_k s3) = if (ss_sp ss =? 0) || negb (Z.land (ss_flags ss) SS_DISABLE =? 0) then kstack k2
                        else Stack (ss_sp ss) (ss_size ss) (Z.ldiff (ss_flags ss) SS_ONSTACK))).
Proof. exact (thread_sig_roundtrip true 31 program program_reserved). Defined.

(** A handler of SIGUSR1 (30) that runs with everything blocked. *)
Lemma handler_mask_unfiltered_witness :
  returns (__sigaction_hook tramp_at 30 (Some (Sigaction 0x9000 (2 ^ 32 - 1) 0))) program
    (fun _ s' => sigismember (sa_mask (ksa (disp (s_k s') 30))) 31 = true).
Proof.
  eapply returns_weaken; [apply (handler_mask_unfiltered tramp_at 31 program 30); [apply program_reserved|done..]|].
  intros r s' ->. reflexivity.
Defined.

(** What the program gets for an attempt on the checkpoint signal. *)
Example reserved_signal : (match __signal_hook tramp_at 31 0x9000 program with Ret r _ => r | _ => 0 end) = SIG_ERR.
Proof. reflexivity. Qed.
(** [sigaction] fails on it without setting [errno]. *)
Example reserved_no_errno :
  match __sigaction_hook tramp_at 31 (Some no_action) program with Ret (r, _) s' => (r, s_errno s') | _ => (0, 0) end = (-1, 0).
Proof. reflexivity. Qed.
(** The previous handler, 0x8000, is not returned. *)
Example signal_returns_zero : match __signal_hook tramp_at 30 0x9000 program with Ret r _ => r | _ => 1 end = 0.
Proof. reflexivity. Qed.
Example mask_cleaned :
  match __sigprocmask_hook SIG_SETMASK (Some (2 ^ 32 - 1)) program with Ret _ s' => sigismember (k_mask (s_k s')) 31 | _ => true end = false.
Proof. reflexivity. Qed.
