(* ===== verification/Pac.v ===== *)
(** Pointer authentication: [xnd/pac.c] and [xnd/pac.h].

    A signed return address carries a code in its upper bits that depends on a
    key of the process and on a modifier, the stack pointer at the function's
    entry.  The keys of a restarted process are others, so before a thread goes
    on every signed return address on its stack is stripped and signed again.

    Memory is a map from addresses to 64-bit words; the processor's
    instructions are parameters. *)

From S2P Require Import Prelude.
Open Scope Z_scope.

Abbreviation mem := (gmap Z Z).
Definition load (a : Z) : M mem Z := m ← get; deref (m !! a).
Definition store (a v : Z) : M mem unit := m ← get; deref (m !! a);; put (<[a := v]> m).

Definition PTRAUTH_BIT_MASK : Z := 0xFF7F800000000000.
Definition PTRAUTH_SIGNED (p : Z) : bool := negb (Z.land p PTRAUTH_BIT_MASK =? 0).

(** [xpaci] strips, [pacib] signs with the process's B key, and [autib] gives
    the pointer back or faults. *)
Class Pac := {
  xpaci : Z -> Z;
  pacib : Z -> Z -> Z;
  autib : Z -> Z -> option Z
}.
Class PacOk `{Pac} := {
  autib_pacib p md : autib (pacib (xpaci p) md) md = Some (xpaci p)
}.

Section pac.
Context `{Pac}.

(** A frame is two words: the caller's frame and the return address. *)
Fixpoint signed_frame (fuel : nat) (fp : Z) : M mem Z :=
  if fp =? 0 then mret 0 else
  match fuel with
  | O => nofuel
  | S fuel =>
    lr ← load (fp + 8);
    if PTRAUTH_SIGNED lr then mret fp else (fp ← load fp; signed_frame fuel fp)
  end.
Definition first_signed_frame : nat -> Z -> M mem Z := signed_frame.
Definition next_signed_frame (fuel : nat) (fp : Z) : M mem Z :=
  if fp =? 0 then mret 0 else (fp ← load fp; signed_frame fuel fp).

Fixpoint resign_loop (fuel : nat) (fp : Z) : M mem unit :=
  if fp =? 0 then mret tt else
  match fuel with
  | O => nofuel
  | S fuel =>
    let sp := u64 (fp + 0x10) in
    lr ← load (fp + 8);
    xnd_assert (PTRAUTH_SIGNED lr);;
    store (fp + 8) (xpaci lr);;
    lr ← load (fp + 8);
    store (fp + 8) (pacib lr sp);;
    fp ← next_signed_frame fuel fp;
    resign_loop fuel fp
  end.
Definition ptrauth_resign_frames (fuel : nat) (fp : Z) : M mem unit :=
  fp ← first_signed_frame fuel fp; resign_loop fuel fp.

(** The registers of a [ucontext_t] these functions use. *)
Record uctx := Uctx { uc_lr : Z; uc_fp : Z }.
Definition ptrauth_strip_uctx (u : uctx) : uctx :=
  if PTRAUTH_SIGNED (uc_lr u) then Uctx (xpaci (uc_lr u)) (uc_fp u) else u.
Definition ptrauth_patch_siguctx (u : uctx) : uctx :=
  if PTRAUTH_SIGNED (uc_lr u) then Uctx (pacib (xpaci (uc_lr u)) (u64 (uc_fp u + 0x10))) (uc_fp u) else u.

(** ** What re-signing does *)

(** The frames from [fp]: older frames are at higher addresses. *)
Inductive stack (m : mem) : Z -> list Z -> Prop :=
  | stack_end : stack m 0 []
  | stack_frame fp next lr fs : fp <> 0 -> m !! fp = Some next -> m !! (fp + 8) = Some lr ->
      Forall (fun f => fp + 16 <= f) fs -> stack m next fs -> stack m fp (fp :: fs).

(** The reference: each frame's return address, signed again if it was. *)
Definition resigned (fp lr : Z) : Z := if PTRAUTH_SIGNED lr then pacib (xpaci lr) (u64 (fp + 16)) else lr.
Definition resign_all (fs : list Z) (m : mem) : mem :=
  foldl (fun m fp => alter (resigned fp) (fp + 8) m) m fs.

Lemma load_eq a m v : m !! a = Some v -> load a m = Ret v m.
Proof. intros Ha. unfold load, get, deref, mbind, M_bind. by rewrite Ha. Qed.
Lemma store_eq a v v0 m : m !! a = Some v0 -> store a v m = Ret tt (<[a := v]> m).
Proof. intros Ha. unfold store, get, deref, put, mbind, M_bind, mret, M_ret. by rewrite Ha. Qed.

(** Changing return addresses at or below a frame leaves the older frames. *)
Lemma stack_insert m fp fs a v : stack m fp fs -> Forall (fun f => a < f) fs -> stack (<[a := v]> m) fp fs.
Proof.
  induction 1 as [|fp next lr fs Hn H1 H2 Hf Hs IH]; intros Hlt; [constructor|].
  apply Forall_cons in Hlt as [Hlt Hlts]. apply (stack_frame _ fp next lr fs); [done| | |done|by apply IH].
  - by rewrite lookup_insert_ne by lia.
  - by rewrite lookup_insert_ne by lia.
Qed.

(** The walk stops at the first signed frame, having passed unsigned ones. *)
Lemma signed_frame_eq m fp fs fuel : stack m fp fs -> (length fs < fuel)%nat ->
  exists pre fs' fp', fs = pre ++ fs' /\ signed_frame fuel fp m = Ret fp' m /\ stack m fp' fs' /\
    Forall (fun f => exists lr, m !! (f + 8) = Some lr /\ PTRAUTH_SIGNED lr = false) pre /\
    (fs' = [] \/ exists lr, m !! (fp' + 8) = Some lr /\ PTRAUTH_SIGNED lr = true).
Proof.
  intros Hs. revert fuel. induction Hs as [|fp next lr fs Hn H1 H2 Hf Hs IH]; intros fuel Hfuel.
  - exists [], [], 0. destruct fuel; (split; [done|]; split; [done|]; split; [constructor|]; split; [done|by left]).
  - destruct fuel as [|fuel]; [cbn in Hfuel; lia|]. cbn [signed_frame]. rewrite (proj2 (Z.eqb_neq _ _)) by done.
    rewrite (bind_ret _ _ _ _ _ (load_eq _ _ _ H2)). destruct (PTRAUTH_SIGNED lr) eqn:E.
    + exists [], (fp :: fs), fp. split; [done|]. split; [done|]. split; [by econstructor|]. split; [done|]. right. by exists lr.
    + rewrite (bind_ret _ _ _ _ _ (load_eq _ _ _ H1)).
      destruct (IH fuel ltac:(cbn in Hfuel; lia)) as (pre & fs' & fp' & -> & Hr & Hs' & Hp & Hc).
      exists (fp :: pre), fs', fp'. split; [done|]. split; [done|]. split; [done|]. split; [|done].
      constructor; [by exists lr|done].
Qed.

Lemma resign_all_unsigned pre m : Forall (fun f => exists lr, m !! (f + 8) = Some lr /\ PTRAUTH_SIGNED lr = false) pre ->
  resign_all pre m = m.
Proof.
  induction 1 as [|f pre (lr & Hlr & E) Hp IH]; [done|]. unfold resign_all in *. cbn [foldl].
  assert (alter (resigned f) (f + 8) m = m) as Ha; [|by rewrite Ha].
  apply map_eq. intros a. destruct (decide (a = f + 8)) as [->|].
  - rewrite lookup_alter_eq, Hlr. cbn. unfold resigned. by rewrite E.
  - by rewrite lookup_alter_ne.
Qed.
Lemma resign_all_app a b m : resign_all (a ++ b) m = resign_all b (resign_all a m).
Proof. apply foldl_app. Qed.

Lemma stack_tail m fp fs pre fs' : stack m fp fs -> fs = pre ++ fs' -> Forall (fun f => Forall (fun g => f + 16 <= g) fs') pre.
Proof.
  intros Hs. revert pre. induction Hs as [|fp next lr fs Hn H1 H2 Hf Hs IH]; intros pre Heq.
  - by destruct pre.
  - destruct pre as [|f pre]; [constructor|]. injection Heq as <- ->. constructor; [|by apply IH].
    by apply Forall_app in Hf as [_ ?].
Qed.

Lemma resign_loop_eq n m fp fs fuel : (length fs <= n)%nat -> stack m fp fs -> (length fs < fuel)%nat ->
  (fs = [] \/ exists lr, m !! (fp + 8) = Some lr /\ PTRAUTH_SIGNED lr = true) ->
  resign_loop fuel fp m = Ret tt (resign_all fs m).
Proof.
  revert m fp fs fuel. induction n as [|n IH]; intros m fp fs fuel Hn Hs Hfuel Hc.
  - destruct fs; [|cbn in Hn; lia]. inversion Hs; subst. by destruct fuel.
  - destruct Hs as [|fp next lr fs Hne H1 H2 Hf Hs]; [by destruct fuel|].
    destruct Hc as [|(lr' & Hlr & Hsg)]; [done|]. assert (lr' = lr) as -> by congruence.
    destruct fuel as [|fuel]; [cbn in Hfuel; lia|]. cbn [resign_loop]. rewrite (proj2 (Z.eqb_neq _ _)) by done.
    rewrite (bind_ret _ _ _ _ _ (load_eq _ _ _ H2)). rewrite Hsg. rewrite (bind_ret (xnd_assert true) _ m tt m) by done.
    rewrite (bind_ret _ _ _ _ _ (store_eq _ _ _ _ H2)).
    rewrite (bind_ret _ _ _ _ _ (load_eq (fp + 8) (<[fp + 8 := xpaci lr]> m) (xpaci lr) (lookup_insert_eq _ _ _))).
    rewrite (bind_ret _ _ _ _ _ (store_eq (fp + 8) _ (xpaci lr) (<[fp + 8 := xpaci lr]> m) (lookup_insert_eq _ _ _))).
    rewrite insert_insert_eq. set (v := pacib (xpaci lr) (u64 (fp + 16))).
    assert (<[fp + 8 := v]> m = alter (resigned fp) (fp + 8) m) as Hm.
    { apply map_eq. intros a. destruct (decide (a = fp + 8)) as [->|].
      - rewrite lookup_insert_eq, lookup_alter_eq, H2. cbn. unfold resigned. by rewrite Hsg.
      - by rewrite lookup_insert_ne, lookup_alter_ne. }
    set (m1 := <[fp + 8 := v]> m) in *.
    assert (stack m1 next fs) as Hs1.
    { apply stack_insert; [done|]. eapply Forall_impl; [exact Hf|]. cbn. lia. }
    unfold next_signed_frame. rewrite (proj2 (Z.eqb_neq _ _)) by done.
    rewrite (bind_assoc (load fp)). rewrite (bind_ret (load fp) _ m1 next m1) by (apply load_eq; unfold m1; by rewrite lookup_insert_ne by lia).
    destruct (signed_frame_eq m1 next fs fuel Hs1 ltac:(cbn in Hfuel; lia)) as (pre & fs' & fp' & -> & Hr & Hs' & Hp & Hc').
    rewrite (bind_ret _ _ _ _ _ Hr). cbn in Hn, Hfuel. rewrite length_app in Hn, Hfuel.
    rewrite (IH m1 fp' fs' fuel) by (done || lia).
    unfold resign_all at 2. cbn [foldl]. rewrite <- Hm. change (foldl _ m1 (pre ++ fs')) with (resign_all (pre ++ fs') m1).
    rewrite resign_all_app. by rewrite (resign_all_unsigned pre m1 Hp).
Qed.

Lemma ptrauth_resign_frames_eq m fp fs fuel : stack m fp fs -> (length fs < fuel)%nat ->
  ptrauth_resign_frames fuel fp m = Ret tt (resign_all fs m).
Proof.
  intros Hs Hf. unfold ptrauth_resign_frames, first_signed_frame.
  destruct (signed_frame_eq m fp fs fuel Hs Hf) as (pre & fs' & fp' & -> & Hr & Hs' & Hp & Hc).
  rewrite (bind_ret _ _ _ _ _ Hr). rewrite length_app in Hf.
  rewrite (resign_loop_eq (length fs') m fp' fs' fuel) by (done || lia).
  rewrite resign_all_app. by rewrite (resign_all_unsigned pre m Hp).
Qed.

(** Re-signing a stack returns, and is the reference that signs each frame's
    return address again if it was signed and leaves the rest of memory: the
    two nested walks over signed frames visit each of them once. *)
Theorem resign_frames_equiv m fp fs fuel : stack m fp fs -> (length fs < fuel)%nat ->
  ptrauth_resign_frames fuel fp m = Ret tt (resign_all fs m).
Proof. apply ptrauth_resign_frames_eq. Qed.

Lemma resign_all_other fs m a : (forall f, f ∈ fs -> a <> f + 8) -> resign_all fs m !! a = m !! a.
Proof.
  revert m. induction fs as [|f fs IH]; intros m Ha; [done|]. unfold resign_all in *. cbn [foldl].
  rewrite IH by (intros g Hg; apply Ha; by apply list_elem_of_further).
  apply lookup_alter_ne. intros E. by apply (Ha f); [apply list_elem_of_here|].
Qed.
Lemma resign_all_frame m fp fs f lr : stack m fp fs -> f ∈ fs -> m !! (f + 8) = Some lr ->
  resign_all fs m !! (f + 8) = Some (resigned f lr).
Proof.
  intros Hs Hf Hlr. apply list_elem_of_split in Hf as (pre & post & ->). rewrite resign_all_app.
  assert (resign_all pre m !! (f + 8) = Some lr) as Hpre.
  { rewrite resign_all_other; [done|]. intros g Hg. pose proof (stack_tail m fp _ pre (f :: post) Hs eq_refl) as Ht.
    rewrite Forall_forall in Ht. specialize (Ht g Hg). apply Forall_cons in Ht as [? _]. lia. }
  unfold resign_all at 1. cbn [foldl]. change (resign_all post (alter (resigned f) (f + 8) (resign_all pre m)) !! (f + 8) = Some (resigned f lr)).
  rewrite resign_all_other; [by rewrite lookup_alter_eq, Hpre|].
  intros g Hg. pose proof (stack_tail m fp _ (pre ++ [f]) post Hs ltac:(by rewrite <- app_assoc)) as Ht.
  rewrite Forall_forall in Ht. specialize (Ht f ltac:(set_solver)). rewrite Forall_forall in Ht. specialize (Ht g Hg). lia.
Qed.
Lemma stack_frame_lookup m fp fs f : stack m fp fs -> f ∈ fs -> exists lr, m !! (f + 8) = Some lr.
Proof.
  induction 1 as [|fp next lr fs Hn H1 H2 Hf Hs IH]; [by intros []%not_elem_of_nil|].
  intros [->|Hi]%elem_of_cons; [by exists lr|by apply IH].
Qed.

(** Every frame's return address authenticates, and the rest of memory is as
    it was. *)
Lemma resign_all_authenticates `{!PacOk} m fp fs : stack m fp fs -> let m' := resign_all fs m in
  (forall f, f ∈ fs -> exists lr lr', m !! (f + 8) = Some lr /\ m' !! (f + 8) = Some lr' /\
     if PTRAUTH_SIGNED lr then autib lr' (u64 (f + 16)) = Some (xpaci lr) else lr' = lr) /\
  (forall a, (forall f, f ∈ fs -> a <> f + 8) -> m' !! a = m !! a).
Proof.
  intros Hs m'. split; [|intros a Ha; by apply resign_all_other].
  intros f Hin. destruct (stack_frame_lookup m fp fs f Hs Hin) as [lr Hlr]. exists lr, (resigned f lr). split; [done|].
  split; [by apply (resign_all_frame m fp)|]. unfold resigned. destruct (PTRAUTH_SIGNED lr); [apply autib_pacib|done].
Qed.

(** C24. In the restarted process every return address that was signed
    authenticates, with the modifier its function will use, to the address the
    function was called from; unsigned ones and the rest of memory are as they
    were. *)
Theorem restarted_frames_authenticate `{!PacOk} m fp fs fuel : stack m fp fs -> (length fs < fuel)%nat ->
  returns (ptrauth_resign_frames fuel fp) m (fun _ m' =>
    (forall f, f ∈ fs -> exists lr lr', m !! (f + 8) = Some lr /\ m' !! (f + 8) = Some lr' /\
       if PTRAUTH_SIGNED lr then autib lr' (u64 (f + 16)) = Some (xpaci lr) else lr' = lr) /\
    (forall a, (forall f, f ∈ fs -> a <> f + 8) -> m' !! a = m !! a)).
Proof.
  intros Hs Hf. eapply returns_intro; [by apply ptrauth_resign_frames_eq|]. by apply (resign_all_authenticates m fp).
Qed.
End pac.

(** ** A processor and a stack *)

#[export] Instance a_pac : Pac := {
  xpaci p := Z.ldiff p PTRAUTH_BIT_MASK;
  pacib p md := Z.lor p (Z.land (Z.lor (2 ^ 63) (Z.shiftl md 48)) PTRAUTH_BIT_MASK);
  autib p md :=
    let q := Z.ldiff p PTRAUTH_BIT_MASK in
    if p =? Z.lor q (Z.land (Z.lor (2 ^ 63) (Z.shiftl md 48)) PTRAUTH_BIT_MASK) then Some q else None
}.
Lemma strip_signed p x : Z.ldiff (Z.lor (Z.ldiff p PTRAUTH_BIT_MASK) (Z.land x PTRAUTH_BIT_MASK)) PTRAUTH_BIT_MASK = Z.ldiff p PTRAUTH_BIT_MASK.
Proof.
  apply Z.bits_inj'. intros n Hn. rewrite !Z.ldiff_spec, Z.lor_spec, Z.ldiff_spec, Z.land_spec.
  by destruct (Z.testbit p n), (Z.testbit x n), (Z.testbit PTRAUTH_BIT_MASK n).
Qed.
#[export] Instance a_pac_ok : PacOk.
Proof. split. intros p md. unfold autib, pacib, xpaci, a_pac. by rewrite strip_signed, Z.eqb_refl. Defined.

(** Three frames, the second's return address unsigned. *)
Definition a_stack : mem := list_to_map [
  (0x1000, 0x1040); (0x1008, 0x8012000100003f00);
  (0x1040, 0x1080); (0x1048, 0x100004000);
  (0x1080, 0); (0x1088, 0x9000000100005000)].
Definition a_frames : list Z := [0x1000; 0x1040; 0x1080].
Lemma a_stack_ok : stack a_stack 0x1000 a_frames.
Proof. repeat (eapply stack_frame; [done|reflexivity|reflexivity|repeat constructor; lia|]). constructor. Defined.

Lemma resign_frames_equiv_witness : ptrauth_resign_frames 4 0x1000 a_stack = Ret tt (resign_all a_frames a_stack).
Proof. apply (resign_frames_equiv a_stack 0x1000 a_frames 4 a_stack_ok). cbn. lia. Defined.
Lemma restarted_frames_authenticate_witness :
  returns (ptrauth_resign_frames 4 0x1000) a_stack (fun _ m' =>
    (forall f, f ∈ a_frames -> exists lr lr', a_stack !! (f + 8) = Some lr /\ m' !! (f + 8) = Some lr' /\
       if PTRAUTH_SIGNED lr then autib lr' (u64 (f + 16)) = Some (xpaci lr) else lr' = lr) /\
    (forall a, (forall f, f ∈ a_frames -> a <> f + 8) -> m' !! a = a_stack !! a)).
Proof. apply (restarted_frames_authenticate a_stack 0x1000 a_frames 4 a_stack_ok). cbn. lia. Defined.
Example resigned_first : resign_all a_frames a_stack !! 0x1008 = Some 0x9010000100003f00.
Proof. vm_compute. reflexivity. Qed.
