(* ===== verification/Context.v ===== *)
(** Going back to a saved context: [xnd/platform/ucontext/], an assembly
    routine and the function around it, with the register accessors of
    [xnd/pac.h], [thread_restore_context] of [xnd/thread_info.c], and the raw
    traps of [xnd/mach_trap.c].

    A machine context is its bytes; the routine is the list of its
    instructions, run on a register file.  It does not come back to its
    caller: it returns to the saved link register. *)

From S2P Require Import Prelude Bytes Pac.
Open Scope Z_scope.

(** ** [asm_help.h], the offsets used *)
Definition MCONTEXT_OFFSET_X19_X20 : Z := 168.
Definition MCONTEXT_OFFSET_X21_X22 : Z := 184.
Definition MCONTEXT_OFFSET_X23_X24 : Z := 200.
Definition MCONTEXT_OFFSET_X25_X26 : Z := 216.
Definition MCONTEXT_OFFSET_X27_X28 : Z := 232.
Definition MCONTEXT_OFFSET_FP_LR : Z := 248.
Definition MCONTEXT_OFFSET_SP : Z := 264.
(** [MCONTEXT_OFFSET_D0] to [MCONTEXT_OFFSET_D15] *)
Definition MCONTEXT_OFFSET_D : list Z := [296; 312; 328; 344; 360; 376; 392; 408; 424; 440; 456; 472; 488; 504; 520; 536].

(** The structures of the system: the general registers [__ss.__x] from 16 on,
    [__fp], [__lr] and [__sp] after them, and 16 bytes for each [__ns.__v]. *)
Definition ss_x (i : Z) : Z := 16 + 8 * i.
Definition ss_fp : Z := 248.
Definition ss_lr : Z := 256.
Definition ss_sp : Z := 264.
Definition ns_v (i : Z) : Z := 288 + 16 * i.
Definition sizeof_mcontext : Z := 816.

Definition word (m : list Z) (off : Z) : Z := le_val (take 8 (drop (Z.to_nat off) m)).
Definition put_word (off v : Z) (m : list Z) : list Z := take (Z.to_nat off) m ++ le_bytes 8 v ++ drop (Z.to_nat off + 8) m.

(** ** [_setcontext.s] *)

(** [x]: the general registers, of which 29 is [fp] and 30 [lr]; [d]: the
    lower halves of the vector registers *)
Record cpu := Cpu { x : Z -> Z; sp : Z; d : Z -> Z; pc : Z }.
Definition upd (f : Z -> Z) (i v j : Z) : Z := if j =? i then v else f j.
Definition set_x (i v : Z) (c : cpu) : cpu := Cpu (upd (x c) i v) (sp c) (d c) (pc c).
Definition set_sp (v : Z) (c : cpu) : cpu := Cpu (x c) v (d c) (pc c).
Definition set_d (i v : Z) (c : cpu) : cpu := Cpu (x c) (sp c) (upd (d c) i v) (pc c).
Definition set_pc (v : Z) (c : cpu) : cpu := Cpu (x c) (sp c) (d c) v.
Definition fp : Z := 29.
Definition lr : Z := 30.

(** Loads are from [x0], the context. *)
Inductive instr :=
  | Ldp (rt1 rt2 off : Z)
  | Ldr (rt off : Z)
  | LdrD (rt off : Z)
  | Mov (rd rn : Z)
  | MovSp (rn : Z)
  | MovXzr (rd : Z)
  | RetLr.
Definition _xnd_setcontext : list instr :=
  [Ldp 19 20 MCONTEXT_OFFSET_X19_X20; Ldp 21 22 MCONTEXT_OFFSET_X21_X22; Ldp 23 24 MCONTEXT_OFFSET_X23_X24;
   Ldp 25 26 MCONTEXT_OFFSET_X25_X26; Ldp 27 28 MCONTEXT_OFFSET_X27_X28;
   Ldp 10 11 MCONTEXT_OFFSET_FP_LR; Ldr 12 MCONTEXT_OFFSET_SP;
   Mov fp 10; Mov lr 11; MovSp 12] ++
  imap (fun i off => LdrD (Z.of_nat i) off) MCONTEXT_OFFSET_D ++
  [MovXzr 0; RetLr].

(** [None] is a load past the context. *)
Definition load_word (m : list Z) (off : Z) : option Z :=
  if Z.of_nat (length m) <? off + 8 then None else Some (word m off).
Definition exec (m : list Z) (i : instr) : M cpu unit :=
  match i with
  | Ldp rt1 rt2 off => v ← deref (load_word m off); w ← deref (load_word m (off + 8)); modify (fun c => set_x rt2 w (set_x rt1 v c))
  | Ldr rt off => v ← deref (load_word m off); modify (set_x rt v)
  | LdrD rt off => v ← deref (load_word m off); modify (set_d rt v)
  | Mov rd rn => modify (fun c => set_x rd (x c rn) c)
  | MovSp rn => modify (fun c => set_sp (x c rn) c)
  | MovXzr rd => modify (set_x rd 0)
  | RetLr => modify (fun c => set_pc (x c lr) c)
  end.
Fixpoint run (m : list Z) (l : list instr) : M cpu unit :=
  match l with [] => mret tt | i :: l => exec m i;; run m l end.

(** ** [setcontext.c], [pac.h] *)
Section setcontext.
Context `{Pac}.

Definition get_ucontext_lr (m : list Z) : Z := word m ss_lr.
Definition get_ucontext_fp (m : list Z) : Z := word m ss_fp.
Definition get_ucontext_sp (m : list Z) : Z := word m ss_sp.
Definition set_ucontext_lr (v : Z) (m : list Z) : list Z := put_word ss_lr v m.

(** [ptrauth_strip_uctx] of [Pac] on the context itself *)
Definition strip_uctx (m : list Z) : list Z :=
  let u := ptrauth_strip_uctx (Uctx (get_ucontext_lr m) (get_ucontext_fp m)) in
  if PTRAUTH_SIGNED (get_ucontext_lr m) then set_ucontext_lr (uc_lr u) m else m.
Definition xnd_setcontext (uctx : list Z) : M cpu unit := run (strip_uctx uctx) _xnd_setcontext.

(** The machine of a restarted thread: its stack and its registers.  The
    context is in the thread's descriptor. *)
Definition on_stack {A} (m : M mem A) : M (mem * cpu) A := fun s =>
  match m s.1 with
  | Ret a k => Ret a (k, s.2) | Exit e k => Exit e (k, s.2) | Abort k => Abort (k, s.2) | Ub => Ub | NoFuel => NoFuel
  end.
Definition on_cpu {A} (m : M cpu A) : M (mem * cpu) A := fun s =>
  match m s.2 with
  | Ret a c => Ret a (s.1, c) | Exit e c => Exit e (s.1, c) | Abort c => Abort (s.1, c) | Ub => Ub | NoFuel => NoFuel
  end.
Definition thread_restore_context (fuel : nat) (uctx : list Z) : M (mem * cpu) unit :=
  on_stack (ptrauth_resign_frames fuel (get_ucontext_fp uctx));; on_cpu (xnd_setcontext uctx).
End setcontext.

(** ** [mach_trap.c] *)

Definition VM_ALLOCATE_TRAP : Z := 10.
Definition VM_DEALLOCATE_TRAP : Z := 12.
Definition VM_PROTECT_TRAP : Z := 14.
(** [svc #0x80]: [x0] and on, [x16]; the result is [x0]. *)
Class Svc (K : Type) := svc : list Z -> Z -> K -> Z * K.
Section traps.
Context {K : Type} `{Svc K}.
Definition trap (args : list Z) (x16 : Z) : M K Z := fun k => let '(x0, k) := svc args x16 k in Ret (s32 x0) k.
Definition __vm_allocate_trap (target addr size flags : Z) : M K Z :=
  trap [u64 target; addr; u64 size; u64 flags] (u64 (- VM_ALLOCATE_TRAP)).
Definition __vm_deallocate_trap (target address size : Z) : M K Z :=
  trap [u64 target; u64 address; u64 size] (u64 (- VM_DEALLOCATE_TRAP)).
Definition __vm_protect_trap (target address size set_maximum new_prot : Z) : M K Z :=
  trap [u64 target; u64 address; u64 size; u64 set_maximum; u64 new_prot] (u64 (- VM_PROTECT_TRAP)).
End traps.

(** ** What is installed *)

Lemma word_put_same m off v : 0 <= off -> off + 8 <= Z.of_nat (length m) -> word (put_word off v m) off = u64 v.
Proof.
  intros H1 H2. unfold word, put_word. rewrite drop_app_length' by (rewrite length_take; lia).
  rewrite take_app_length' by (by rewrite le_bytes_length). by rewrite le_val_bytes.
Qed.
Lemma put_word_length off v m : 0 <= off -> off + 8 <= Z.of_nat (length m) -> length (put_word off v m) = length m.
Proof. intros H1 H2. unfold put_word. rewrite !length_app, le_bytes_length, length_take, length_drop. lia. Qed.
Lemma word_put_other m off v a : 0 <= off -> off + 8 <= Z.of_nat (length m) -> 0 <= a -> a + 8 <= off \/ off + 8 <= a ->
  word (put_word off v m) a = word m a.
Proof.
  intros H1 H2 Ha [Hlt|Hge]; unfold word, put_word; f_equal.
  - rewrite drop_app_le by (rewrite length_take; lia). rewrite take_app_le by (rewrite length_drop, length_take; lia).
    rewrite skipn_firstn_comm, take_take. f_equal. lia.
  - rewrite drop_app_ge by (rewrite length_take; lia). rewrite length_take, drop_app_ge by (rewrite le_bytes_length; lia).
    rewrite le_bytes_length, drop_drop. do 2 f_equal. lia.
Qed.

(** An instruction whose loads are in the context, as a function. *)
Definition fits (i : instr) : Prop :=
  match i with Ldp _ _ off => 0 <= off /\ off + 16 <= sizeof_mcontext | Ldr _ off | LdrD _ off => 0 <= off /\ off + 8 <= sizeof_mcontext | _ => True end.
Definition step (m : list Z) (c : cpu) (i : instr) : cpu :=
  match i with
  | Ldp rt1 rt2 off => set_x rt2 (word m (off + 8)) (set_x rt1 (word m off) c)
  | Ldr rt off => set_x rt (word m off) c
  | LdrD rt off => set_d rt (word m off) c
  | Mov rd rn => set_x rd (x c rn) c
  | MovSp rn => set_sp (x c rn) c
  | MovXzr rd => set_x rd 0 c
  | RetLr => set_pc (x c lr) c
  end.
Lemma run_eq m l c : Z.of_nat (length m) = sizeof_mcontext -> Forall fits l -> run m l c = Ret tt (foldl (step m) c l).
Proof.
  intros Hl Hf. revert c. induction Hf as [|i l Hi Hf IH]; intros c; [done|]. cbn [run foldl].
  rewrite (bind_ret _ _ c tt (step m c i)); [apply IH|].
  assert (forall off, off + 8 <= sizeof_mcontext -> load_word m off = Some (word m off)) as Hw.
  { intros off Ho. unfold load_word. by rewrite (proj2 (Z.ltb_ge _ _)) by lia. }
  destruct i; try done; cbn in Hi; cbn [exec]; rewrite !Hw by (unfold sizeof_mcontext in *; lia); done.
Qed.
Lemma setcontext_fits : Forall fits _xnd_setcontext.
Proof. repeat (constructor; [try done; cbn; unfold sizeof_mcontext; try (split; by vm_compute)|]). constructor. Qed.

(** The registers a function must find as they were when what it called
    returns, and the values of a context they come from. *)
Definition callee_saved : list Z := seqZ 19 10.
Record installed (m : list Z) (link : Z) (c c' : cpu) : Prop := {
  i_pc : pc c' = link;
  i_result : x c' 0 = 0;
  i_saved i : i ∈ callee_saved -> x c' i = word m (ss_x i);
  i_fp : x c' fp = get_ucontext_fp m;
  i_lr : x c' lr = link;
  i_sp : sp c' = get_ucontext_sp m;
  i_d i : 0 <= i < 16 -> d c' i = word m (ns_v i + 8);
  i_others i : i ∉ [0; 10; 11; 12; fp; lr] ++ callee_saved -> x c' i = x c i;
  i_vector i : 16 <= i -> d c' i = d c i
}.

Lemma upd_eq f i v : upd f i v i = v.
Proof. unfold upd. by rewrite Z.eqb_refl. Qed.
Lemma upd_ne f i v j : j <> i -> upd f i v j = f j.
Proof. intros Hn. unfold upd. by rewrite (proj2 (Z.eqb_neq _ _)). Qed.

Lemma run_installed m c : Z.of_nat (length m) = sizeof_mcontext -> returns (run m _xnd_setcontext) c (fun _ c' => installed m (word m ss_lr) c c').
Proof.
  intros Hl. eapply returns_intro; [by apply run_eq, setcontext_fits|]. split; try reflexivity.
  - intros i Hi. unfold callee_saved in Hi. cbn in Hi. repeat (apply elem_of_cons in Hi as [->|Hi]; [reflexivity|]). by apply elem_of_nil in Hi.
  - intros i Hi. assert (i ∈ seqZ 0 16) as Hin by (apply elem_of_seqZ; lia). cbn in Hin.
    repeat (apply elem_of_cons in Hin as [->|Hin]; [reflexivity|]). by apply elem_of_nil in Hin.
  - intros i Hi. assert (forall j, j ∈ [0; 10; 11; 12; fp; lr] ++ callee_saved -> i <> j) as Hn by (intros j Hj ->; done).
    cbn. rewrite !upd_ne; [done|apply Hn, (bool_decide_unpack _); by vm_compute..].
  - intros i Hi. cbn. by rewrite !upd_ne by lia.
Qed.

Section resume.
Context `{Pac} (xpaci_u64 : forall p, in_u 64 p -> in_u 64 (xpaci p)).

(** What the link register is without a signature. *)
Definition stripped (p : Z) : Z := if PTRAUTH_SIGNED p then xpaci p else p.

(** What [getcontext] leaves of the registers [c] of its caller, to which it
    returns at [ret]: the link register may be signed, and the system's
    [getcontext] puts the 64 bits of each of [d8] to [d15] into the upper half
    of that register's [__ns.__v]. *)
Record saved (c : cpu) (ret : Z) (m : list Z) : Prop := {
  s_size : Z.of_nat (length m) = sizeof_mcontext;
  s_bytes : Forall is_byte m;
  s_saved i : i ∈ callee_saved -> word m (ss_x i) = x c i;
  s_fp : get_ucontext_fp m = x c fp;
  s_sp : get_ucontext_sp m = sp c;
  s_lr : stripped (get_ucontext_lr m) = ret;
  s_d i : 8 <= i < 16 -> word m (ns_v i + 8) = d c i
}.

Lemma word_u64 m off : Forall is_byte m -> in_u 64 (word m off).
Proof.
  intros Hb. unfold word. assert (Forall is_byte (take 8 (drop (Z.to_nat off) m))) as Ht by (by apply Forall_take, Forall_drop).
  pose proof (le_val_range _ Ht) as Hr. rewrite length_take in Hr.
  assert (2 ^ (8 * Z.of_nat (Nat.min 8 (length (drop (Z.to_nat off) m)))) <= 2 ^ 64) by (apply Z.pow_le_mono_r; lia). unfold in_u. lia.
Qed.
Lemma strip_uctx_ok m : Z.of_nat (length m) = sizeof_mcontext -> Forall is_byte m ->
  Z.of_nat (length (strip_uctx m)) = sizeof_mcontext /\ word (strip_uctx m) ss_lr = stripped (get_ucontext_lr m) /\
  forall off, 0 <= off -> off + 8 <= ss_lr \/ ss_lr + 8 <= off -> word (strip_uctx m) off = word m off.
Proof using All.
  intros Hl Hb. unfold strip_uctx, stripped, ptrauth_strip_uctx. cbn [uc_lr]. unfold sizeof_mcontext, ss_lr in *.
  destruct (PTRAUTH_SIGNED (get_ucontext_lr m)); [|done]. cbn [uc_lr]. unfold set_ucontext_lr.
  split; [by rewrite put_word_length by (unfold ss_lr; lia)|]. split.
  - unfold ss_lr. rewrite word_put_same by lia. apply wrapu_small, xpaci_u64, word_u64, Hb.
  - intros off H0 Ho. unfold ss_lr. by rewrite word_put_other by lia.
Qed.

(** The routine and the function around it, of one context. *)
Lemma setcontext_resumes c ret m c0 : saved c ret m ->
  returns (xnd_setcontext m) c0 (fun _ c' => pc c' = ret /\ x c' 0 = 0 /\ sp c' = sp c /\ x c' fp = x c fp /\
    (forall i, i ∈ callee_saved -> x c' i = x c i) /\ (forall i, 8 <= i < 16 -> d c' i = d c i)).
Proof.
  intros [Hl Hb Hs Hfp Hsp Hlr Hd]. destruct (strip_uctx_ok m Hl Hb) as (Hl' & Hw & Ho).
  eapply returns_weaken; [by apply run_installed|]. intros u c' [Ipc Ires Is Ifp _ Isp Id _ _].
  split; [by rewrite Ipc, Hw|]. split; [done|]. split; [rewrite Isp, <- Hsp; apply Ho; unfold ss_sp, ss_lr; lia|].
  split; [rewrite Ifp, <- Hfp; apply Ho; unfold ss_fp, ss_lr; lia|]. split.
  - intros i Hi. rewrite Is, <- Hs by done. apply elem_of_seqZ in Hi. apply Ho; unfold ss_x, ss_lr; lia.
  - intros i Hi. rewrite Id, <- (Hd i Hi) by lia. apply Ho; unfold ns_v, ss_lr; lia.
Qed.

(** C13. Going back to a saved context, in the process it was saved in or in
    another that has its memory: every return address on the saved stack is
    signed for where it is, so that no return of the thread faults, and the
    rest of memory is unchanged; the function that called [getcontext] goes on
    at its return address with the result 0 and with its stack, its frame and
    every register it may rely on as it left them, whether or not the saved
    link register was signed.  That d8 to d15 were saved in the upper halves of
    the vector registers of the context is libplatform's [getcontext], not the
    offsets of this program ([saved]). *)
Theorem context_resumed `{!PacOk} c ret uctx m fs fuel c0 : saved c ret uctx -> stack m (x c fp) fs -> (length fs < fuel)%nat ->
  returns (thread_restore_context fuel uctx) (m, c0) (fun _ '(m', c') =>
    (forall f, f ∈ fs -> exists lr lr', m !! (f + 8) = Some lr /\ m' !! (f + 8) = Some lr' /\
       if PTRAUTH_SIGNED lr then autib lr' (u64 (f + 16)) = Some (xpaci lr) else lr' = lr) /\
    (forall a, (forall f, f ∈ fs -> a <> f + 8) -> m' !! a = m !! a) /\
    pc c' = ret /\ x c' 0 = 0 /\ sp c' = sp c /\ x c' fp = x c fp /\
    (forall i, i ∈ callee_saved -> x c' i = x c i) /\ (forall i, 8 <= i < 16 -> d c' i = d c i)).
Proof.
  intros Hc Hs Hf. unfold thread_restore_context. rewrite (s_fp _ _ _ Hc).
  eapply returns_step; [unfold on_stack; cbn [fst snd]; by rewrite (ptrauth_resign_frames_eq m (x c fp) fs fuel Hs Hf)|].
  pose proof (setcontext_resumes c ret uctx c0 Hc) as Hx. unfold returns, on_cpu in *. cbn [fst snd].
  destruct (xnd_setcontext uctx c0) as [u c'| | | |]; try done.
  destruct (resign_all_authenticates m (x c fp) fs Hs) as [Ha Ho]. by split.
Qed.

(** The routine takes the registers [d8] to [d15] from the upper halves of the
    vector registers of the structure, whatever their lower halves hold. *)
Lemma upper_halves_installed m c0 : Z.of_nat (length m) = sizeof_mcontext -> Forall is_byte m ->
  returns (xnd_setcontext m) c0 (fun _ c' => forall i, 8 <= i < 16 -> d c' i = word m (ns_v i + 8)).
Proof.
  intros Hl Hb. destruct (strip_uctx_ok m Hl Hb) as (Hl' & _ & Ho). eapply returns_weaken; [by apply run_installed|].
  intros u c' Hi i Hr. rewrite (i_d _ _ _ _ Hi) by lia. apply Ho; unfold ns_v, ss_lr; lia.
Qed.
End resume.

(** ** A context *)

(** Registers that hold their numbers, and a context with them whose link
    register is signed. *)
Definition a_cpu : cpu := Cpu (fun i => i) 0x1000 (fun i => 100 + i) 0.
Definition a_context : list Z :=
  foldl (fun m ov => put_word ov.1 ov.2 m) (replicate 816 0)
    (((fun i => (ss_x i, i)) <$> seqZ 19 10) ++ [(ss_fp, 29); (ss_lr, 0x8012000100003f00); (ss_sp, 0x1000)] ++
     ((fun i => (ns_v i + 8, 100 + i)) <$> seqZ 8 8)).
Lemma a_context_saved : saved a_cpu 0x100003f00 a_context.
Proof.
  split; try (vm_compute; reflexivity).
  - assert (forallb (fun b => (0 <=? b) && (b <? 256)) a_context = true) as Hc by (vm_compute; reflexivity).
    apply Forall_forall. intros b Hin. pose proof (proj1 (forallb_forall _ _) Hc b (proj1 (list_elem_of_In _ _) Hin)) as Hb. cbv beta in Hb. unfold is_byte. lia.
  - intros i Hi. unfold callee_saved in Hi. cbn in Hi. repeat (apply elem_of_cons in Hi as [->|Hi]; [vm_compute; reflexivity|]). by apply elem_of_nil in Hi.
  - intros i Hi. assert (i ∈ seqZ 8 8) as Hin by (apply elem_of_seqZ; lia). cbn in Hin.
    repeat (apply elem_of_cons in Hin as [->|Hin]; [vm_compute; reflexivity|]). by apply elem_of_nil in Hin.
Qed.
Lemma a_xpaci_u64 p : in_u 64 p -> in_u 64 (xpaci p).
Proof.
  unfold in_u, xpaci, a_pac. intros Hp. assert (Z.ldiff p PTRAUTH_BIT_MASK = Z.ldiff p PTRAUTH_BIT_MASK mod 2 ^ 64) as ->.
  { rewrite <- Z.land_ones by lia. rewrite <- (Z.mod_small p (2 ^ 64)) at 1 by lia. rewrite <- Z.land_ones by lia. apply Z.bits_inj'. intros n _.
    rewrite !Z.ldiff_spec, !Z.land_spec, Z.ldiff_spec. by destruct (Z.testbit p n), (Z.testbit (Z.ones 64) n), (Z.testbit PTRAUTH_BIT_MASK n). }
  apply Z.mod_pos_bound. lia.
Qed.
(** Two frames, the older one's return address unsigned. *)
Definition two_frames : mem := list_to_map [(29, 0x1040); (37, 0x8012000100003f00); (0x1040, 0); (0x1048, 0x100004000)].
Lemma two_frames_ok : stack two_frames 29 [29; 0x1040].
Proof. repeat (eapply stack_frame; [done|reflexivity|reflexivity|repeat constructor; lia|]). constructor. Qed.
Lemma context_resumed_witness :
  returns (thread_restore_context 3 a_context) (two_frames, Cpu (fun _ => 7) 7 (fun _ => 7) 7) (fun _ '(m', c') =>
    (forall f, f ∈ [29; 0x1040] -> exists lr lr', two_frames !! (f + 8) = Some lr /\ m' !! (f + 8) = Some lr' /\
       if PTRAUTH_SIGNED lr then autib lr' (u64 (f + 16)) = Some (xpaci lr) else lr' = lr) /\
    (forall a, (forall f, f ∈ [29; 0x1040] -> a <> f + 8) -> m' !! a = two_frames !! a) /\
    pc c' = 0x100003f00 /\ x c' 0 = 0 /\ sp c' = 0x1000 /\ x c' fp = 29 /\
    (forall i, i ∈ callee_saved -> x c' i = i) /\ (forall i, 8 <= i < 16 -> d c' i = 100 + i)).
Proof.
  exact (context_resumed a_xpaci_u64 a_cpu 0x100003f00 a_context two_frames [29; 0x1040] 3 (Cpu (fun _ => 7) 7 (fun _ => 7) 7)
    a_context_saved two_frames_ok ltac:(cbn; lia)).
Defined.
