(* ===== verification/Tls.v ===== *)
(** Thread-local storage across a restart: [xnd/tls.c], the slot macros of
    [xnd/tls.h], and [thread_save_tls] and [thread_restore_tls] of
    [xnd/thread_info.c].

    The register [TPIDRRO_EL0] holds the address of the thread's slots and
    cannot be written; a restarted thread has another.  Memory is a map from
    addresses to 64-bit words, as in [Pac]. *)

From S2P Require Import Prelude Pac.
Open Scope Z_scope.

Definition TSD_THREAD_SELF : Z := 0.
Definition TSD_XND_FLAG : Z := 6.
Definition TSD_PTR_MUNGE : Z := 7.
Definition TSD_XND_INIT : Z := 0x5203090.
Definition TSD_XND_FINI : Z := 0x20471120.
Definition PTHREAD_TLS_OFFSET : Z := 0xE0.
(** [TLS_PTHREAD_OFFSET + PTHREAD_CLEANUP_HANDLER_OFFSET] *)
Definition TLS_CLEANUP_HANDLER_OFFSET : Z := 8 - PTHREAD_TLS_OFFSET.
Definition PTHREAD_TSD_END : Z := 768.

(** What one thread sees: its register, memory, the static
    [_pthread_ptr_munge_token], and its descriptor's [tls]. *)
Record tls_state := TlsState { tpidrro : Z; words : mem; munge_token : Z; saved_tls : Z }.
Implicit Types s : tls_state.
Definition put_words (m : mem) s := TlsState (tpidrro s) m (munge_token s) (saved_tls s).
Definition put_token (v : Z) s := TlsState (tpidrro s) (words s) v (saved_tls s).
Definition put_saved (v : Z) s := TlsState (tpidrro s) (words s) (munge_token s) v.

Definition on_words {A} (c : M mem A) : M tls_state A := fun s =>
  match c (words s) with
  | Ret a m => Ret a (put_words m s)
  | Exit c m => Exit c (put_words m s)
  | Abort m => Abort (put_words m s)
  | Ub => Ub
  | NoFuel => NoFuel
  end.
Definition rd (a : Z) : M tls_state Z := on_words (load a).
Definition wr (a v : Z) : M tls_state unit := on_words (store a v).

Definition slot_at (tls slot : Z) : Z := tls + 8 * slot.
Definition get_tls_slot (slot : Z) : M tls_state Z := tls ← gets tpidrro; rd (slot_at tls slot).
Definition set_tls_slot (slot v : Z) : M tls_state unit := tls ← gets tpidrro; wr (slot_at tls slot) v.
Definition set_thread_cleanup_stack (tls handler : Z) : M tls_state unit := wr (tls + TLS_CLEANUP_HANDLER_OFFSET) handler.

Definition xnd_tlv_init : M tls_state unit := set_tls_slot TSD_XND_FLAG TSD_XND_INIT.
Definition xnd_tlv_fini : M tls_state unit := set_tls_slot TSD_XND_FLAG TSD_XND_FINI.
Definition xnd_tlv_ok : M tls_state bool := v ← get_tls_slot TSD_XND_FLAG; mret (v =? TSD_XND_INIT).

(** [pthread_self] returns [self]. *)
Definition thread_ptr_munge_save (self : Z) : M tls_state Z :=
  tsd_self ← get_tls_slot TSD_THREAD_SELF;
  if negb (self =? tsd_self) then mret (-1) else
  sig ← rd self;
  let munge := Z.lxor self sig in
  tsd_munge ← get_tls_slot TSD_PTR_MUNGE;
  if negb (munge =? tsd_munge) then mret (-1) else
  modify (put_token munge);;
  mret 0.

Definition thread_ptr_munge_fixup : M tls_state unit :=
  self ← get_tls_slot TSD_THREAD_SELF;
  sig ← rd self;
  token ← gets munge_token;
  (if negb (Z.lxor sig token =? self) then wr self (Z.lxor self token) else mret tt);;
  munge ← get_tls_slot TSD_PTR_MUNGE;
  if negb (munge =? token) then set_tls_slot TSD_PTR_MUNGE token else mret tt.

(** [for (slot = from; slot < from + n; slot++) dst[slot] = src[slot]] *)
Fixpoint copy_slots (n : nat) (slot src dst : Z) : M tls_state unit :=
  match n with
  | O => mret tt
  | S n => v ← rd (slot_at src slot); wr (slot_at dst slot) v;; copy_slots n (slot + 1) src dst
  end.
Definition copy_tsd : Z -> Z -> M tls_state unit := copy_slots (Z.to_nat (PTHREAD_TSD_END - 20)) 20.

(** [is_ckpt]: the calling thread is the checkpoint thread. *)
Definition thread_save_tls (is_ckpt : bool) : M tls_state unit :=
  tls ← gets tpidrro;
  if negb is_ckpt then modify (put_saved tls) else
  old ← gets saved_tls;
  if old =? 0 then modify (put_saved tls) else
  copy_tsd tls old.
Definition thread_restore_tls : M tls_state unit :=
  tls ← gets tpidrro;
  set_thread_cleanup_stack tls 0;;
  src ← gets saved_tls;
  copy_tsd src tls.

(** ** Lemmas *)

Lemma rd_eq a v s : words s !! a = Some v -> rd a s = Ret v s.
Proof. intros H. unfold rd, on_words. rewrite (load_eq _ _ _ H). by destruct s. Qed.
Lemma wr_eq a v v0 s : words s !! a = Some v0 -> wr a v s = Ret tt (put_words (<[a := v]> (words s)) s).
Proof. intros H. unfold wr, on_words. by rewrite (store_eq _ _ _ _ H). Qed.
Lemma get_slot_eq k v s : words s !! slot_at (tpidrro s) k = Some v -> get_tls_slot k s = Ret v s.
Proof. intros H. unfold get_tls_slot. rewrite (bind_ret (gets tpidrro) _ s (tpidrro s) s) by done. by apply rd_eq. Qed.
Lemma set_tls_slot_eq k v v0 s : words s !! slot_at (tpidrro s) k = Some v0 ->
  set_tls_slot k v s = Ret tt (put_words (<[slot_at (tpidrro s) k := v]> (words s)) s).
Proof. intros H. unfold set_tls_slot. rewrite (bind_ret (gets tpidrro) _ s (tpidrro s) s) by done. by eapply wr_eq. Qed.

(** The slots [from] to [from + n] of a buffer. *)
Definition slots (m : mem) (tls from : Z) (n : nat) : Prop :=
  forall k, from <= k < from + Z.of_nat n -> is_Some (m !! slot_at tls k).
Definition within_slots (tls from : Z) (n : nat) (a : Z) : Prop := exists k, from <= k < from + Z.of_nat n /\ a = slot_at tls k.
Definition disjoint_slots (src dst : Z) (n : nat) (from : Z) : Prop :=
  src = dst \/ forall k k', from <= k < from + Z.of_nat n -> from <= k' < from + Z.of_nat n -> slot_at src k <> slot_at dst k'.

Lemma copy_slots_ok n from src dst s : slots (words s) src from n -> slots (words s) dst from n -> disjoint_slots src dst n from ->
  exists m, copy_slots n from src dst s = Ret tt (put_words m s) /\
    (forall k, from <= k < from + Z.of_nat n -> m !! slot_at dst k = words s !! slot_at src k) /\
    (forall a, ~ within_slots dst from n a -> m !! a = words s !! a) /\
    (forall a, is_Some (words s !! a) -> is_Some (m !! a)).
Proof.
  revert from s. induction n as [|n IH]; intros from s Hs Hd Hdis.
  - exists (words s). split; [by destruct s|]. split; [lia|]. done.
  - destruct (Hs from ltac:(lia)) as [v Hv]. destruct (Hd from ltac:(lia)) as [v0 Hv0].
    cbn [copy_slots]. rewrite (bind_ret _ _ _ _ _ (rd_eq _ _ _ Hv)), (bind_ret _ _ _ _ _ (wr_eq _ v _ _ Hv0)).
    set (m1 := <[slot_at dst from := v]> (words s)).
    assert (forall a, is_Some (words s !! a) -> is_Some (m1 !! a)) as Hm1.
    { intros a Ha. unfold m1. destruct (decide (slot_at dst from = a)) as [->|]; [rewrite lookup_insert_eq; by eexists|by rewrite lookup_insert_ne]. }
    assert (forall k, from < k < from + Z.of_nat (S n) -> m1 !! slot_at src k = words s !! slot_at src k) as Hsrc.
    { intros k Hk. unfold m1. destruct Hdis as [<-|Hdis].
      - rewrite lookup_insert_ne; [done|]. unfold slot_at. lia.
      - rewrite lookup_insert_ne; [done|]. intros E. apply (Hdis k from); [lia|lia|done]. }
    destruct (IH (from + 1) (put_words m1 s)) as (m & Hm & H1 & H2 & H3).
    + intros k Hk. cbn. apply Hm1, Hs. lia.
    + intros k Hk. cbn. apply Hm1, Hd. lia.
    + destruct Hdis as [->|Hdis]; [by left|right]. intros k k' Hk Hk'. apply Hdis; lia.
    + exists m. split; [by rewrite Hm|]. cbn [words put_words] in H1, H2, H3. split; [|split].
      * intros k Hk. destruct (decide (k = from)) as [->|Hne].
        -- rewrite H2; [unfold m1; by rewrite lookup_insert_eq|]. intros (k' & Hk' & E). unfold slot_at in E. lia.
        -- rewrite H1 by lia. apply Hsrc. lia.
      * intros a Ha. rewrite H2.
        -- unfold m1. rewrite lookup_insert_ne; [done|]. intros <-. apply Ha. exists from. split; [lia|done].
        -- intros (k & Hk & ->). apply Ha. exists k. split; [lia|done].
      * intros a Ha. by apply H3, Hm1.
Qed.

(** ** The pointer-munge token *)

(** What libpthread checks of a thread: its descriptor's signature is the
    token's, and its munge slot is the token. *)
Record munged s (self token : Z) : Prop := {
  mg_self : words s !! slot_at (tpidrro s) TSD_THREAD_SELF = Some self;
  mg_sig : words s !! self = Some (Z.lxor self token);
  mg_slot : words s !! slot_at (tpidrro s) TSD_PTR_MUNGE = Some token
}.
Lemma lxor_twice a b : Z.lxor a (Z.lxor a b) = b.
Proof. by rewrite <- Z.lxor_assoc, Z.lxor_nilpotent. Qed.
Lemma munge_save_ok s self token : munged s self token -> thread_ptr_munge_save self s = Ret 0 (put_token token s).
Proof.
  intros [H0 H1 H7]. unfold thread_ptr_munge_save. erewrite bind_ret by by apply get_slot_eq.
  rewrite Z.eqb_refl. cbn [negb]. erewrite bind_ret by by apply rd_eq. erewrite bind_ret by by apply get_slot_eq.
  by rewrite lxor_twice, Z.eqb_refl.
Qed.
Lemma munge_fixup_ok s self sig munge :
  words s !! slot_at (tpidrro s) TSD_THREAD_SELF = Some self -> self = tpidrro s - PTHREAD_TLS_OFFSET ->
  words s !! self = Some sig -> words s !! slot_at (tpidrro s) TSD_PTR_MUNGE = Some munge ->
  returns thread_ptr_munge_fixup s (fun _ s' => munged s' self (munge_token s) /\ munge_token s' = munge_token s /\
    forall a, a <> self -> a <> slot_at (tpidrro s) TSD_PTR_MUNGE -> words s' !! a = words s !! a).
Proof.
  intros H0 Hself Hsig Hm. unfold thread_ptr_munge_fixup.
  assert (slot_at (tpidrro s) TSD_THREAD_SELF <> self /\ slot_at (tpidrro s) TSD_PTR_MUNGE <> self) as [Hn0 Hn7].
  { unfold slot_at, TSD_THREAD_SELF, TSD_PTR_MUNGE, PTHREAD_TLS_OFFSET in *. lia. }
  eapply returns_step; [by apply get_slot_eq|]. eapply returns_step; [by apply rd_eq|].
  eapply returns_step; [done|]. set (token := munge_token s).
  set (m1 := <[self := Z.lxor self token]> (words s)).
  eapply (returns_step _ _ _ tt (put_words m1 s)).
  { destruct (Z.eqb_spec (Z.lxor sig token) self) as [E|E]; cbn [negb].
    - assert (sig = Z.lxor self token) as -> by by rewrite <- E, Z.lxor_assoc, Z.lxor_nilpotent, Z.lxor_0_r.
      unfold m1. rewrite insert_id by done. by destruct s.
    - by eapply wr_eq. }
  eapply returns_step; [apply (get_slot_eq TSD_PTR_MUNGE munge); cbn; unfold m1; by rewrite lookup_insert_ne|].
  set (s2 := put_words (<[slot_at (tpidrro s) TSD_PTR_MUNGE := token]> m1) s).
  eapply (returns_intro _ _ _ tt s2).
  { destruct (Z.eqb_spec munge token) as [E|E]; cbn [negb].
    - unfold s2. rewrite insert_id; [done|]. unfold m1. rewrite lookup_insert_ne by done. congruence.
    - apply (set_tls_slot_eq _ _ munge (put_words m1 s)). cbn. unfold m1. by rewrite lookup_insert_ne. }
  split; [split|split; [done|] ]; cbn; unfold m1.
  - rewrite lookup_insert_ne by (unfold slot_at, TSD_PTR_MUNGE, TSD_THREAD_SELF; lia). by rewrite lookup_insert_ne.
  - rewrite lookup_insert_ne by done. apply lookup_insert_eq.
  - apply lookup_insert_eq.
  - intros a H1 H2. by rewrite !lookup_insert_ne.
Qed.

(** After the fix-up libpthread's checks of the restarted checkpoint thread
    pass again: whatever signature and token the new process had, its
    signature is the one the saved token gives, its munge slot is the token,
    so that saving at the next checkpoint succeeds with the same token; two
    words of memory have changed at most. *)
Theorem munge_fixup_restores s self sig munge :
  words s !! slot_at (tpidrro s) TSD_THREAD_SELF = Some self -> self = tpidrro s - PTHREAD_TLS_OFFSET ->
  words s !! self = Some sig -> words s !! slot_at (tpidrro s) TSD_PTR_MUNGE = Some munge ->
  returns thread_ptr_munge_fixup s (fun _ s' =>
    returns (thread_ptr_munge_save self) s' (fun r s'' => r = 0 /\ s'' = s') /\ munge_token s' = munge_token s /\
    words s' !! self = Some (Z.lxor self (munge_token s)) /\
    forall a, a <> self -> a <> slot_at (tpidrro s) TSD_PTR_MUNGE -> words s' !! a = words s !! a).
Proof.
  intros H0 Hself Hsig Hm. eapply returns_weaken; [by eapply munge_fixup_ok|]. intros _ s' (Hs & Ht & Ha).
  split; [|by split; [|split; [apply Hs|] ] ]. eapply returns_intro; [by apply munge_save_ok|].
  split; [done|]. rewrite <- Ht. by destruct s'.
Qed.

(** ** The slots *)

Definition TSD : nat := Z.to_nat (PTHREAD_TSD_END - 20).
Definition usable (m : mem) (tls : Z) : Prop := slots m tls 20 TSD.
Definition apart (a b : Z) : Prop := disjoint_slots a b TSD 20.
(** The thread in the restarted process: another register, and the memory of
    the image where the descriptor's [tls] points. *)
Definition restarted s s' : Prop :=
  saved_tls s' = saved_tls s /\
  (forall k, 20 <= k < PTHREAD_TSD_END -> words s' !! slot_at (saved_tls s) k = words s !! slot_at (saved_tls s) k) /\
  usable (words s') (tpidrro s') /\ apart (saved_tls s) (tpidrro s') /\
  is_Some (words s' !! (tpidrro s' + TLS_CLEANUP_HANDLER_OFFSET)) /\
  (forall k, 20 <= k < PTHREAD_TSD_END -> slot_at (saved_tls s) k <> tpidrro s' + TLS_CLEANUP_HANDLER_OFFSET).

Lemma thread_save_tls_ok is_ckpt s : usable (words s) (tpidrro s) ->
  (is_ckpt = true -> saved_tls s <> 0 -> usable (words s) (saved_tls s) /\ apart (tpidrro s) (saved_tls s)) ->
  returns (thread_save_tls is_ckpt) s (fun _ s1 => usable (words s1) (saved_tls s1) /\
    forall k, 20 <= k < PTHREAD_TSD_END -> words s1 !! slot_at (saved_tls s1) k = words s !! slot_at (tpidrro s) k).
Proof.
  intros Hu Hold. unfold thread_save_tls. eapply returns_step; [done|]. destruct is_ckpt; cbn [negb]; [|by apply returns_ret].
  eapply returns_step; [done|]. destruct (Z.eqb_spec (saved_tls s) 0) as [|Hne]; [done|].
  destruct (Hold eq_refl Hne) as [Ho Ha]. destruct (copy_slots_ok TSD 20 (tpidrro s) (saved_tls s) s Hu Ho Ha) as (m & Hm & H1 & _ & H3).
  eapply returns_intro; [exact Hm|]. split.
  - intros k Hk. apply H3. by apply Ho.
  - intros k Hk. apply H1. unfold TSD, PTHREAD_TSD_END in *. lia.
Qed.

(** C22. The slots 20 to 767 of a thread's local storage survive a restart: in
    the restarted thread they hold what they held when they were saved, wherever
    the new storage is.  The stack of clean-up handlers is empty, and no other
    word changes: the slots 0 to 19, errno's among them, stay those of the new
    thread.  That holds at every generation of the checkpoint thread, which goes
    on saving into the storage of its first. *)
Theorem tls_survives is_ckpt s : usable (words s) (tpidrro s) ->
  (is_ckpt = true -> saved_tls s <> 0 -> usable (words s) (saved_tls s) /\ apart (tpidrro s) (saved_tls s)) ->
  returns (thread_save_tls is_ckpt) s (fun _ s1 => forall s2, restarted s1 s2 ->
    returns thread_restore_tls s2 (fun _ s3 =>
      (forall k, 20 <= k < PTHREAD_TSD_END -> words s3 !! slot_at (tpidrro s2) k = words s !! slot_at (tpidrro s) k) /\
      words s3 !! (tpidrro s2 + TLS_CLEANUP_HANDLER_OFFSET) = Some 0 /\
      forall a, ~ within_slots (tpidrro s2) 20 TSD a -> a <> tpidrro s2 + TLS_CLEANUP_HANDLER_OFFSET -> words s3 !! a = words s2 !! a)).
Proof.
  intros Hu Hold. eapply returns_weaken; [by apply thread_save_tls_ok|]. intros _ s1 [Hu1 Hk1] s2 (R1 & R2 & R3 & R4 & [h R5] & R6).
  unfold thread_restore_tls. eapply returns_step; [done|]. eapply returns_step; [by eapply wr_eq|].
  eapply returns_step; [done|]. set (cl := tpidrro s2 + TLS_CLEANUP_HANDLER_OFFSET) in *.
  set (s2' := put_words (<[cl := 0]> (words s2)) s2). 
  change (saved_tls s2') with (saved_tls s2). rewrite R1.
  assert (forall a, is_Some (words s2 !! a) -> is_Some (words s2' !! a)) as Hs.
  { intros a Ha. cbn. destruct (decide (cl = a)) as [->|]; [rewrite lookup_insert_eq; by eexists|by rewrite lookup_insert_ne]. }
  destruct (copy_slots_ok TSD 20 (saved_tls s1) (tpidrro s2) s2') as (m & Hm & H1 & H2 & _).
  - intros k Hk. apply Hs. assert (20 <= k < PTHREAD_TSD_END) as Hk' by (unfold TSD, PTHREAD_TSD_END in *; lia).
    rewrite (R2 k Hk'). by apply Hu1.
  - intros k Hk. by apply Hs, R3.
  - exact R4.
  - eapply returns_intro; [exact Hm|]. split; [|split].
    + intros k Hk. cbn [words put_words]. rewrite (H1 k) by (unfold TSD, PTHREAD_TSD_END in *; lia).
      cbn. rewrite lookup_insert_ne by (intros E; by apply (R6 k Hk)). rewrite (R2 k Hk). by apply Hk1.
    + cbn [words put_words]. rewrite H2; [cbn; apply lookup_insert_eq|].
      intros (k & Hk & E). unfold cl, slot_at, TLS_CLEANUP_HANDLER_OFFSET, PTHREAD_TLS_OFFSET in E. lia.
    + intros a Ha Hc. cbn [words put_words]. rewrite H2 by done. cbn. by rewrite lookup_insert_ne.
Qed.

(** ** Concrete threads *)

Definition munge_state : tls_state :=
  TlsState 0x2000E0 (list_to_map [(0x2000E0, 0x200000); (0x200000, 0x1234); (0x200118, 0x77)]) 0xABCD 0.
Lemma munge_fixup_restores_witness :
  returns thread_ptr_munge_fixup munge_state (fun _ s' =>
    returns (thread_ptr_munge_save 0x200000) s' (fun r s'' => r = 0 /\ s'' = s') /\ munge_token s' = munge_token munge_state /\
    words s' !! 0x200000 = Some (Z.lxor 0x200000 (munge_token munge_state)) /\
    forall a, a <> 0x200000 -> a <> slot_at (tpidrro munge_state) TSD_PTR_MUNGE -> words s' !! a = words munge_state !! a).
Proof. by apply (munge_fixup_restores munge_state 0x200000 0x1234 0x77). Defined.

(** [n] words from [lo] on, each holding [f] of its address. *)
Definition filled (lo : Z) (n : nat) (f : Z -> Z) : mem := list_to_map ((fun k => (lo + 8 * Z.of_nat k, f (lo + 8 * Z.of_nat k))) <$> seq 0 n).
Lemma filled_Some lo n f k : 0 <= k < Z.of_nat n -> is_Some (filled lo n f !! (lo + 8 * k)).
Proof.
  intros Hk. destruct (filled lo n f !! (lo + 8 * k)) as [v|] eqn:E; [by eexists|].
  apply not_elem_of_list_to_map_2 in E. destruct E. rewrite <- list_fmap_compose. apply list_elem_of_fmap.
  exists (Z.to_nat k). cbn. split; [by rewrite Z2Nat.id by lia|]. apply elem_of_seq. lia.
Qed.
Lemma filled_None lo n f a : (a < lo \/ lo + 8 * Z.of_nat n <= a) -> filled lo n f !! a = None.
Proof.
  intros Ha. unfold filled. apply not_elem_of_list_to_map_1. rewrite <- list_fmap_compose.
  intros (k & E & Hk)%list_elem_of_fmap. cbn in E. apply elem_of_seq in Hk. lia.
Qed.
Definition image_words : mem := filled 0x100000 800 (fun a => a + 1).
Definition fresh_words : mem := filled 0x200000 800 (fun _ => 0).
Definition old_thread : tls_state := TlsState 0x1000E0 image_words 0 0.
(** The image's memory, and the new thread's storage. *)
Definition new_thread : tls_state :=
  TlsState 0x2000E0 (image_words ∪ fresh_words) 0 0x1000E0.
Lemma old_usable : usable (words old_thread) 0x1000E0.
Proof.
  intros k Hk. assert (slot_at 0x1000E0 k = 0x100000 + 8 * (k + 28)) as -> by (unfold slot_at; lia).
  apply filled_Some. unfold TSD, PTHREAD_TSD_END in Hk. lia.
Defined.
Lemma new_restarted : restarted (put_saved 0x1000E0 old_thread) new_thread.
Proof.
  assert (forall j, 0 <= j < 800 -> is_Some (words new_thread !! (0x200000 + 8 * j))) as Hnew.
  { intros j Hj. change (words new_thread) with (image_words ∪ fresh_words).
    rewrite lookup_union_r by (apply filled_None; lia). apply filled_Some. lia. }
  split; [exact (eq_refl 0x1000E0)|]. split; [|split; [|split; [|split]]].
  - intros k Hk. change (words new_thread) with (image_words ∪ fresh_words). apply lookup_union_l. apply filled_None.
    change (saved_tls (put_saved 0x1000E0 old_thread)) with 0x1000E0. unfold slot_at, PTHREAD_TSD_END in *. lia.
  - intros k Hk. assert (slot_at (tpidrro new_thread) k = 0x200000 + 8 * (k + 28)) as -> by (unfold slot_at; change (tpidrro new_thread) with 0x2000E0; lia).
    apply Hnew. unfold TSD, PTHREAD_TSD_END in Hk. lia.
  - right. intros k k' Hk Hk'. unfold slot_at, TSD, PTHREAD_TSD_END in *.
    change (saved_tls (put_saved 0x1000E0 old_thread)) with 0x1000E0. change (tpidrro new_thread) with 0x2000E0. lia.
  - assert (tpidrro new_thread + TLS_CLEANUP_HANDLER_OFFSET = 0x200000 + 8 * 1) as -> by reflexivity. apply Hnew. lia.
  - intros k Hk. unfold slot_at, TLS_CLEANUP_HANDLER_OFFSET, PTHREAD_TLS_OFFSET, PTHREAD_TSD_END in *.
    change (saved_tls (put_saved 0x1000E0 old_thread)) with 0x1000E0. change (tpidrro new_thread) with 0x2000E0. lia.
Defined.
Lemma tls_survives_witness :
  restarted (put_saved 0x1000E0 old_thread) new_thread /\
  returns (thread_save_tls false) old_thread (fun _ s1 => forall s2, restarted s1 s2 ->
    returns thread_restore_tls s2 (fun _ s3 =>
      (forall k, 20 <= k < PTHREAD_TSD_END -> words s3 !! slot_at (tpidrro s2) k = words old_thread !! slot_at (tpidrro old_thread) k) /\
      words s3 !! (tpidrro s2 + TLS_CLEANUP_HANDLER_OFFSET) = Some 0 /\
      forall a, ~ within_slots (tpidrro s2) 20 TSD a -> a <> tpidrro s2 + TLS_CLEANUP_HANDLER_OFFSET -> words s3 !! a = words s2 !! a)).
Proof. split; [exact new_restarted|]. apply (tls_survives false old_thread); [exact old_usable|done]. Defined.
