(* ===== verification/PthreadHooks.v ===== *)
(** The other thread functions of [xnd/wrappers/pthread_wrappers.c] and the
    functions of [xnd/wrappers/stdlib_wrappers.c].

    The program never sees libpthread's [pthread_t], which a restart changes:
    a thread's handle is the address of its descriptor with a mark in the
    upper bits, and the hooks replace it by the descriptor's [self].  Creating,
    joining and leaving threads is in [Threads].  The functions replaced are
    parameters. *)

From S2P Require Import Prelude Cstr Env Process Pac.
Open Scope Z_scope.

Definition PTHREAD_MAGIC : Z := 0x7770000000000000.
Definition PTHREAD_TAG_MASK : Z := 0xFFF0000000000000.
Definition ESRCH : Z := 3.
Definition EINVAL : Z := 22.

(** [~PTHREAD_TAG_MASK] has the lower 52 bits. *)
Definition encode_pthread (th : Z) : Z := Z.lor th PTHREAD_MAGIC.
Definition decode_pthread (p : Z) : Z := Z.land p (Z.ones 52).
Definition validate_pthread (p : Z) : bool := Z.land PTHREAD_TAG_MASK p =? PTHREAD_MAGIC.

(** The functions of libpthread that are given a thread, with their other
    arguments; [getschedparam]'s outputs are part of its result. *)
Inductive thread_call : Type :=
  | kill (sig : Z)
  | detach
  | setschedparam (policy param : Z)
  | getschedparam
  | get_stackaddr
  | get_stacksize
  | cancel.
Class PthreadCalls (K : Type) := {
  on_thread : thread_call -> Z -> K -> ((Z * list Z) * option Z) * K;
  real_self : K -> Z
}.

(** The descriptors' [self], [myself] and [_main_thread] (0 for null), and the
    kernel. *)
Record threads (K : Type) := ThreadsOf { th_self : gmap Z Z; myself : Z; _main_thread : Z; th_k : K }.
Arguments ThreadsOf {K}.
Arguments th_self {K}.
Arguments myself {K}.
Arguments _main_thread {K}.
Arguments th_k {K}.

Section pthread.
Context {K : Type} `{PthreadCalls K}.
Abbreviation P := (pstate (threads K)).

Definition thread_self_or_null : M P Z := gets (fun s => myself (g_k s)).
Definition main_thread : M P Z :=
  m ← gets (fun s => _main_thread (g_k s)); xnd_assert (negb (m =? 0));; mret m.
(** [th->self] *)
Definition self_of (th : Z) : M P Z := m ← gets (fun s => th_self (g_k s)); deref (m !! th).
Definition pthread_call (f : thread_call) (p : Z) : M P (Z * list Z) :=
  call (fun t => let '(r, k) := on_thread f p (th_k t) in (r, ThreadsOf (th_self t) (myself t) (_main_thread t) k)).

Definition shielded (f : thread_call) (th : Z) : M P (Z * list Z) :=
  unsafe_enter;;
  p ← self_of th;
  err ← pthread_call f p;
  unsafe_exit;;
  mret err.
(** A handle that is not one gives [ESRCH]. *)
Definition with_handle (p : Z) (f : Z -> M P (Z * list Z)) : M P (Z * list Z) :=
  if negb (validate_pthread p) then mret (ESRCH, []) else f (decode_pthread p).

Definition __pthread_self_hook : M P Z :=
  l ← gets g_lib;
  if negb (tlv_ok l) then gets (fun s => real_self (th_k (g_k s))) else
  self ← thread_self_or_null;
  if self =? 0 then abort else mret (encode_pthread self).
Definition __pthread_equal_hook (p1 p2 : Z) : Z :=
  if negb (validate_pthread p1) || negb (validate_pthread p2) then 0 else Z.b2z (p1 =? p2).
Definition __pthread_kill_hook (p sig : Z) : M P (Z * list Z) :=
  if negb (validate_pthread p) then mret (ESRCH, []) else
  ckpt_sig ← on_env env_get_ckpt_signal;
  if sig =? ckpt_sig then mret (EINVAL, []) else
  shielded (kill sig) (decode_pthread p).
Definition __pthread_detach_hook (p : Z) : M P (Z * list Z) := with_handle p (shielded detach).
Definition __pthread_setschedparam_hook (p policy param : Z) : M P (Z * list Z) :=
  with_handle p (shielded (setschedparam policy param)).
Definition __pthread_getschedparam_hook (p : Z) : M P (Z * list Z) := with_handle p (shielded getschedparam).
(** Asking about the caller's own or the main thread takes no lock. *)
Definition stack_hook (f : thread_call) (p : Z) : M P (Z * list Z) :=
  with_handle p (fun th =>
    self ← thread_self_or_null;
    own ← (if th =? self then mret true else m ← main_thread; mret (th =? m));
    if own : bool then p ← self_of th; pthread_call f p else shielded f th).
Definition __pthread_get_stackaddr_np_hook : Z -> M P (Z * list Z) := stack_hook get_stackaddr.
Definition __pthread_get_stacksize_np_hook : Z -> M P (Z * list Z) := stack_hook get_stacksize.
Definition __pthread_cancel_hook (p : Z) : M P (Z * list Z) := with_handle p (shielded cancel).
Definition __pthread_main_thread_np_hook : M P Z := m ← main_thread; mret (encode_pthread m).
Definition __pthread_main_np_hook : M P Z :=
  m ← main_thread; p ← self_of m;
  real ← gets (fun s => real_self (th_k (g_k s)));
  mret (Z.b2z (real =? p)).
End pthread.

(** ** [stdlib_wrappers.c] *)

(** Allocation and random numbers; a call returns its value and, for
    [arc4random_buf], the bytes. *)
Inductive libc_fn : Type :=
  | Calloc (count size : Z) | Free (ptr : Z) | Malloc (size : Z) | Realloc (ptr size : Z) | Reallocf (ptr size : Z)
  | Valloc (size : Z) | Aligned_alloc (align size : Z)
  | Arc4random | Arc4random_buf (nbyte : Z) | Arc4random_uniform (upper : Z).
Class LibcCalls (K : Type) := { libc_call : libc_fn -> K -> ((Z * list Z) * option Z) * K }.

Section stdlib.
Context {K : Type} `{LibcCalls K}.
Abbreviation P := (pstate K).

Definition libc_hook (f : libc_fn) : M P (Z * list Z) :=
  skip ← XND_SKIP_INTERPOSE;
  if skip : bool then call (libc_call f) else
  unsafe_enter;;
  retval ← call (libc_call f);
  unsafe_exit;;
  mret retval.
Definition __calloc_hook (count size : Z) : M P (Z * list Z) := libc_hook (Calloc count size).
Definition __free_hook (ptr : Z) : M P (Z * list Z) := libc_hook (Free ptr).
Definition __malloc_hook (size : Z) : M P (Z * list Z) := libc_hook (Malloc size).
Definition __realloc_hook (ptr size : Z) : M P (Z * list Z) := libc_hook (Realloc ptr size).
Definition __reallocf_hook (ptr size : Z) : M P (Z * list Z) := libc_hook (Reallocf ptr size).
Definition __valloc_hook (size : Z) : M P (Z * list Z) := libc_hook (Valloc size).
Definition __aligned_alloc_hook (align size : Z) : M P (Z * list Z) := libc_hook (Aligned_alloc align size).
Definition __arc4random_hook : M P (Z * list Z) := libc_hook Arc4random.
Definition __arc4random_buf_hook (nbyte : Z) : M P (Z * list Z) := libc_hook (Arc4random_buf nbyte).
Definition __arc4random_uniform_hook (upper : Z) : M P (Z * list Z) := libc_hook (Arc4random_uniform upper).
End stdlib.

(** [exit] and [abort] authenticate the pointer [__cleanup], at address
    [cleanup], with its address and a constant. *)
Definition CLEANUP_PTRAUTH_DISCRIMINATOR : Z := 0x211B.
Section cleanup.
Context `{Pac} (cleanup : Z).
Definition cleanup_modifier : Z := Z.lor cleanup (u64 (Z.shiftl CLEANUP_PTRAUTH_DISCRIMINATOR 48)).
Definition ptrauth_check_cleanup_ptr : M mem unit :=
  p ← load cleanup;
  if PTRAUTH_SIGNED p then store cleanup (pacib (xpaci p) cleanup_modifier) else mret tt.
Definition __exit_hook (status : Z) : M mem unit := ptrauth_check_cleanup_ptr;; exit_with status.
Definition __abort_hook : M mem unit := ptrauth_check_cleanup_ptr;; abort.
End cleanup.

(** ** Handles *)

(** An address of a user process, below the mark. *)
Definition user_address (th : Z) : Prop := 0 <= th < 2 ^ 52.

Lemma magic_bits n : 0 <= n < 52 -> Z.testbit PTHREAD_MAGIC n = false.
Proof.
  intros Hn. replace PTHREAD_MAGIC with (Z.shiftl 0x777 52) by done. apply Z.shiftl_spec_low. lia.
Qed.
Lemma user_bits th n : user_address th -> 52 <= n -> Z.testbit th n = false.
Proof.
  intros [H0 H1] Hn. destruct (decide (th = 0)) as [->|]; [apply Z.bits_0|]. apply Z.bits_above_log2; [done|].
  apply Z.lt_le_trans with 52; [|done]. apply Z.log2_lt_pow2; lia.
Qed.
Lemma decode_encode th : user_address th -> decode_pthread (encode_pthread th) = th.
Proof.
  intros Ht. apply Z.bits_inj'. intros n Hn. unfold decode_pthread, encode_pthread.
  rewrite Z.land_spec, Z.lor_spec, Z.testbit_ones_nonneg by lia. destruct (Z.ltb_spec n 52).
  - by rewrite magic_bits, orb_false_r, andb_true_r by lia.
  - rewrite andb_false_r. symmetry. by apply user_bits.
Qed.
Lemma validate_encode th : user_address th -> validate_pthread (encode_pthread th) = true.
Proof.
  intros Ht. unfold validate_pthread, encode_pthread. apply Z.eqb_eq. rewrite Z.land_lor_distr_r.
  replace (Z.land PTHREAD_TAG_MASK PTHREAD_MAGIC) with PTHREAD_MAGIC by done.
  replace (Z.land PTHREAD_TAG_MASK th) with 0; [done|]. symmetry. apply Z.bits_inj'. intros n Hn. rewrite Z.land_spec, Z.bits_0.
  replace PTHREAD_TAG_MASK with (Z.shiftl 0xFFF 52) by done. destruct (Z.lt_ge_cases n 52).
  - by rewrite Z.shiftl_spec_low.
  - by rewrite (user_bits th), andb_false_r.
Qed.
Lemma encode_decode p : in_u 64 p -> validate_pthread p = true -> user_address (decode_pthread p) /\ encode_pthread (decode_pthread p) = p.
Proof.
  intros [H0 H1] Hv. unfold validate_pthread in Hv. apply Z.eqb_eq in Hv. unfold decode_pthread, encode_pthread.
  split; [unfold user_address; rewrite Z.land_ones by lia; apply Z.mod_pos_bound; lia|].
  apply Z.bits_inj'. intros n Hn. rewrite Z.lor_spec, Z.land_spec, Z.testbit_ones_nonneg by lia.
  rewrite <- Hv, Z.land_spec. replace PTHREAD_TAG_MASK with (Z.shiftl (Z.ones 12) 52) by done. destruct (Z.ltb_spec n 52).
  - rewrite Z.shiftl_spec_low by lia. by rewrite andb_true_r, orb_false_r.
  - rewrite Z.shiftl_spec, Z.testbit_ones_nonneg by lia. rewrite andb_false_r. cbn [orb]. destruct (Z.ltb_spec (n - 52) 12); [done|].
    cbn [andb]. symmetry. destruct (decide (p = 0)) as [->|]; [apply Z.bits_0|]. apply Z.bits_above_log2; [done|].
    apply Z.lt_le_trans with 64; [|lia]. apply Z.log2_lt_pow2; lia.
Qed.

(** C36. A handle stands for one thread: the handle of a descriptor is valid
    and gives the descriptor back, every 64-bit value that counts as a handle
    is the handle of one descriptor, and two handles are equal exactly when
    they are those of one thread.  No address libpthread itself could have
    handed out is taken for a handle. *)
Theorem handles_sound (th th' p : Z) : user_address th -> user_address th' -> in_u 64 p ->
  decode_pthread (encode_pthread th) = th /\ validate_pthread (encode_pthread th) = true /\
  (validate_pthread p = true <-> exists t, user_address t /\ p = encode_pthread t) /\
  (__pthread_equal_hook (encode_pthread th) (encode_pthread th') = 1 <-> th = th') /\
  validate_pthread th = false.
Proof.
  intros Ht Ht' Hp. split; [by apply decode_encode|]. split; [by apply validate_encode|]. split; [|split].
  - split.
    + intros Hv. destruct (encode_decode p Hp Hv) as [H1 H2]. by exists (decode_pthread p).
    + intros (t & H1 & ->). by apply validate_encode.
  - unfold __pthread_equal_hook. rewrite !validate_encode by done. cbn [negb orb].
    destruct (Z.eqb_spec (encode_pthread th) (encode_pthread th')) as [E|E]; cbn; [|split; [done|by intros ->]].
    split; [|done]. intros _. by rewrite <- (decode_encode th), E, decode_encode.
  - unfold validate_pthread. apply Z.eqb_neq. intros E.
    assert (Z.testbit (Z.land PTHREAD_TAG_MASK th) 52 = true) as Hb by by rewrite E.
    rewrite Z.land_spec, (user_bits th), andb_false_r in Hb by (done || lia). done.
Qed.
Lemma handles_sound_witness :
  decode_pthread (encode_pthread 0x600000004000) = 0x600000004000 /\ validate_pthread (encode_pthread 0x600000004000) = true /\
  (validate_pthread 0x7770600000004000 = true <-> exists t, user_address t /\ 0x7770600000004000 = encode_pthread t) /\
  (__pthread_equal_hook (encode_pthread 0x600000004000) (encode_pthread 0x600000008000) = 1 <-> 0x600000004000 = 0x600000008000) /\
  validate_pthread 0x600000004000 = false.
Proof. apply (handles_sound 0x600000004000 0x600000008000 0x7770600000004000); unfold user_address, in_u; lia. Defined.

(** ** What the hooks do *)

Section props.
Context {K : Type}.

(** A call inside an unsafe section of its own leaves what the call leaves. *)
Lemma unsafe_call {A} (f : K -> (A * option Z) * K) (s : pstate K) : self_ok (g_self s) ->
  (unsafe_enter;; r ← call f; unsafe_exit;; mret r) s = call f s.
Proof.
  intros Hs. rewrite (bind_ret _ _ _ _ _ (unsafe_enter_spec s Hs)). set (s1 := put_self (entered (g_self s)) s).
  unfold call. unfold mbind at 1, M_bind at 1. change (g_k s1) with (g_k s). destruct (f (g_k s)) as [[r e] k].
  erewrite bind_ret by (apply (unsafe_exit_spec _ (g_self s)); [done|by destruct e]). unfold mret, M_ret. f_equal. by destruct e, s.
Qed.
End props.

Section pthread_props.
Context {K : Type} `{PthreadCalls K}.
Implicit Types s : pstate (threads K).

Lemma self_of_eq th p s : th_self (g_k s) !! th = Some p -> self_of th s = Ret p s.
Proof. intros Hp. unfold self_of, mbind, M_bind, gets, deref. by rewrite Hp. Qed.
Lemma shielded_eq f th p s : self_ok (g_self s) -> th_self (g_k s) !! th = Some p -> shielded f th s = pthread_call f p s.
Proof.
  intros Hs Hp. unfold shielded. rewrite (bind_ret _ _ _ _ _ (unsafe_enter_spec s Hs)).
  rewrite (bind_ret _ _ _ _ _ (self_of_eq th p (put_self (entered (g_self s)) s) Hp)).
  pose proof (unsafe_call (fun t => let '(r, k) := on_thread f p (th_k t) in (r, ThreadsOf (th_self t) (myself t) (_main_thread t) k)) s Hs) as Hc.
  by rewrite (bind_ret _ _ _ _ _ (unsafe_enter_spec s Hs)) in Hc.
Qed.
Lemma with_handle_eq th f s : user_address th -> with_handle (encode_pthread th) f s = f th s.
Proof. intros Ht. unfold with_handle. by rewrite validate_encode, decode_encode. Qed.

(** C27. On the handle of a thread a hook makes the one call it replaces, with
    the handle libpthread has for that thread now, and returns its result;
    except that the checkpoint signal cannot be sent.  What is not a handle
    gives [ESRCH] without a call. *)
Theorem thread_hooks_translate (s : pstate (threads K)) (th p c bad sig policy param : Z) :
  self_ok (g_self s) -> user_address th -> th_self (g_k s) !! th = Some p -> _main_thread (g_k s) <> 0 ->
  env_get_ckpt_signal (g_env s) = Ret c (g_env s) -> validate_pthread bad = false ->
  let h := encode_pthread th in
  __pthread_kill_hook h sig s = (if sig =? c then Ret (EINVAL, []) s else pthread_call (kill sig) p s) /\
  __pthread_detach_hook h s = pthread_call detach p s /\
  __pthread_setschedparam_hook h policy param s = pthread_call (setschedparam policy param) p s /\
  __pthread_getschedparam_hook h s = pthread_call getschedparam p s /\
  __pthread_get_stackaddr_np_hook h s = pthread_call get_stackaddr p s /\
  __pthread_get_stacksize_np_hook h s = pthread_call get_stacksize p s /\
  __pthread_cancel_hook h s = pthread_call cancel p s /\
  __pthread_kill_hook bad sig s = Ret (ESRCH, []) s /\ forall f, with_handle bad f s = Ret (ESRCH, []) s.
Proof.
  intros Hs Ht Hp Hm Hc Hb h.
  assert (forall f, stack_hook f h s = pthread_call f p s) as Hst.
  { intros f. unfold stack_hook, h. rewrite with_handle_eq by done. rewrite (bind_ret thread_self_or_null _ _ (myself (g_k s)) s) by done.
    assert (exists own, (if th =? myself (g_k s) then mret true else m ← main_thread; mret (th =? m)) s = Ret own s) as [own Hown].
    { destruct (th =? myself (g_k s)); [by eexists|]. unfold main_thread, mbind, M_bind, gets. rewrite (proj2 (Z.eqb_neq _ _)) by done. by eexists. }
    rewrite (bind_ret _ _ _ _ _ Hown). destruct own; [by rewrite (bind_ret _ _ _ _ _ (self_of_eq th p s Hp))|by apply shielded_eq]. }
  assert (forall f, with_handle h (shielded f) s = pthread_call f p s) as Hw by (intros f; unfold h; rewrite with_handle_eq by done; by apply shielded_eq).
  repeat split; try apply Hw; try apply Hst.
  - unfold __pthread_kill_hook, h. rewrite validate_encode, decode_encode by done. cbn [negb].
    rewrite (bind_ret (on_env env_get_ckpt_signal) _ s c s) by (unfold on_env; rewrite Hc; by destruct s).
    destruct (sig =? c); [done|]. by apply shielded_eq.
  - unfold __pthread_kill_hook. by rewrite Hb.
  - intros f. unfold with_handle. by rewrite Hb.
Qed.
End pthread_props.

(** The allocation and random-number hooks are the functions they
    replace: whatever the state of the library, they return what those return
    and leave what those leave, with the calling thread in as many unsafe
    sections as before. *)
Theorem libc_hooks_transparent {K : Type} `{LibcCalls K} (f : libc_fn) (s : pstate K) : self_ok (g_self s) ->
  libc_hook f s = call (libc_call f) s.
Proof.
  intros Hs. unfold libc_hook. unfold XND_SKIP_INTERPOSE. rewrite (bind_assoc (gets g_lib)).
  rewrite (bind_ret (gets g_lib) _ s (g_lib s) s) by done. cbn. destruct (negb _ || _); [done|]. by apply unsafe_call.
Qed.

(** The cleanup pointer authenticates in the restarted process. *)
Lemma cleanup_authenticates `{PacOk} cleanup m p : m !! cleanup = Some p ->
  ptrauth_check_cleanup_ptr cleanup m = Ret tt (if PTRAUTH_SIGNED p then <[cleanup := pacib (xpaci p) (cleanup_modifier cleanup)]> m else m) /\
  (PTRAUTH_SIGNED p = true -> autib (pacib (xpaci p) (cleanup_modifier cleanup)) (cleanup_modifier cleanup) = Some (xpaci p)).
Proof.
  intros Hp. split; [|intros _; apply autib_pacib]. unfold ptrauth_check_cleanup_ptr. rewrite (bind_ret _ _ _ _ _ (load_eq cleanup m p Hp)).
  destruct (PTRAUTH_SIGNED p); [|done]. by eapply store_eq.
Qed.

(** ** A concrete process *)

(** A kernel that records the calls it gets. *)
#[export] Instance list_calls : PthreadCalls (list (thread_call * Z)) := {
  on_thread f p k := (((0, []), None), k ++ [(f, p)]);
  real_self _ := 0x16f000
}.
#[export] Instance count_calls : LibcCalls nat := { libc_call f k := (((Z.of_nat k, []), None), S k) }.
Definition a_running {K} (k : K) : pstate K :=
  PState (Pids 1 1 0 0) (Ids 0 0 0 [] 0 0 false) (Client 0 0 0 false) (VTable ∅ false) (Some (Thr ST_RUNNING 0))
    (Lib XND_RUNNING true) 0 (EnvState ∅ 31) k.
Definition a_thread {K} (k : K) : pstate (threads K) :=
  a_running (ThreadsOf {[0x600000004000 := 0x16f000; 0x600000008000 := 0x170000]} 0x600000004000 0x600000004000 k).
Lemma thread_hooks_translate_witness :
  let s := a_thread (@nil (thread_call * Z)) in let h := encode_pthread 0x600000008000 in
  __pthread_kill_hook h 30 s = (if 30 =? 31 then Ret (EINVAL, []) s else pthread_call (kill 30) 0x170000 s) /\
  __pthread_detach_hook h s = pthread_call detach 0x170000 s /\
  __pthread_setschedparam_hook h 1 5 s = pthread_call (setschedparam 1 5) 0x170000 s /\
  __pthread_getschedparam_hook h s = pthread_call getschedparam 0x170000 s /\
  __pthread_get_stackaddr_np_hook h s = pthread_call get_stackaddr 0x170000 s /\
  __pthread_get_stacksize_np_hook h s = pthread_call get_stacksize 0x170000 s /\
  __pthread_cancel_hook h s = pthread_call cancel 0x170000 s /\
  __pthread_kill_hook 0x170000 30 s = Ret (ESRCH, []) s /\ forall f, with_handle 0x170000 f s = Ret (ESRCH, []) s.
Proof.
  apply (thread_hooks_translate (a_thread []) 0x600000008000 0x170000 31 0x170000 30 1 5).
  - right. exists ST_RUNNING, 0. split; [reflexivity|]. split; [lia|]. left. split; reflexivity.
  - unfold user_address. lia.
  - vm_compute. reflexivity.
  - cbn. lia.
  - reflexivity.
  - reflexivity.
Defined.
Lemma libc_hooks_transparent_witness :
  libc_hook (Malloc 64) (a_running 7%nat) = Ret (7, []) (a_running 8%nat).
Proof.
  refine (eq_trans (libc_hooks_transparent (Malloc 64) (a_running 7%nat) _) _); [|reflexivity].
  right. exists ST_RUNNING, 0. split; [reflexivity|]. split; [lia|]. left. split; reflexivity.
Defined.
(** The stack address of what is not a handle is the error number. *)
Example stackaddr_of_nothing : match __pthread_get_stackaddr_np_hook 0x170000 (a_thread (@nil (thread_call * Z))) with Ret (a, _) _ => a | _ => 0 end = 3.
Proof. reflexivity. Qed.
(** Before a thread has its flag it is given libpthread's handle, which is not
    equal to itself. *)
Example raw_handle_unequal : __pthread_equal_hook 0x16f000 0x16f000 = 0.
Proof. reflexivity. Qed.
