(* ===== verification/Threads.v ===== *)
(** The threads of a process and how a checkpoint stops them:
    [xnd/thread_info.c] with the thread functions of
    [xnd/wrappers/pthread_wrappers.c].

    A process is the shared state of its threads (thread list, barrier,
    descriptors) and, for each thread, the statement it executes next.  One
    step of a thread is one access to what the threads share: an atomic load,
    a compare-and-swap, taking or releasing a mutex, a call of the kernel.
    [step] gives the result of a step; a thread that cannot take it, because a
    mutex is held or it spins, is [NoFuel].  A condition variable may wake a
    waiter at any time, so waiting is releasing the mutex and testing again
    once it is free; the signals and broadcasts themselves change nothing.

    The counters are C [int]s that count threads of one process, of which the
    kernel allows a few thousand, and are written without their wrap-around.
    Saving and restoring a thread's context is recording the place in the
    program the signal interrupted. *)

From S2P Require Import Prelude Process.
Open Scope Z_scope.

(** ** The state *)

(** A thread descriptor is known by its address. *)
Definition tid : Type := nat.

Inductive who : Type := CKPT | THREAD (i : tid).
#[global] Instance who_eq_dec : EqDecision who.
Proof. solve_decision. Defined.

(** What a thread does in an unsafe section: [__pthread_create_hook] before
    and after [pthread_create], [__pthread_join_hook], another hook. *)
Inductive hook : Type := HOther | HCreate | HCreated (n : tid) | HJoin (j : tid).

(** Where a thread is in its own code: [thread_start], the program, the
    compare-and-swap loop of [unsafe_enter], an unsafe section, [thread_exit],
    the first half of [__pthread_join_hook]. *)
Inductive place : Type :=
  | Starting
  | Listed
  | Running
  | Entering (k : hook)
  | Inside (k : hook)
  | ExitLock
  | ExitSet
  | ExitUnlock
  | JoinLock (j : tid)
  | JoinTest (j : tid)
  | Dead.

(** Where it is in [thread_sighandler] or [thread_restart], most of it in
    [thread_barrier]. *)
Inductive stop : Type :=
  | Signaled      (* about to swap ST_SIGNALED for ST_SUSPINPROG *)
  | Saving        (* saving thread-local storage, signal state and context *)
  | Saved         (* about to swap ST_SUSPINPROG for ST_SUSPENDED *)
  | Locking       (* taking ckpt_mtx, or waiting in the first loop *)
  | TestSuspend   (* testing for XND_SUSPINPROG *)
  | Arriving      (* counting itself *)
  | TestCkpt      (* testing for XND_CKPTINPROG *)
  | Relocking     (* waiting in the second loop *)
  | Leaving       (* releasing ckpt_mtx *)
  | Resuming.     (* about to swap ST_SUSPENDED for ST_RUNNING *)

(** What follows the barrier: the interrupted code, or the saved context. *)
Inductive after : Type := Return (back : place) | Context.

Inductive thread_pc : Type := At (p : place) | Stop (s : stop) (a : after) | Restarting.
#[global] Instance hook_eq_dec : EqDecision hook.
Proof. solve_decision. Defined.
#[global] Instance place_eq_dec : EqDecision place.
Proof. solve_decision. Defined.
#[global] Instance stop_eq_dec : EqDecision stop.
Proof. solve_decision. Defined.
#[global] Instance after_eq_dec : EqDecision after.
Proof. solve_decision. Defined.
#[global] Instance thread_pc_eq_dec : EqDecision thread_pc.
Proof. solve_decision. Defined.

Record thread_info := ThreadInfo {
  t_state : thread_state;
  t_depth : Z;
  t_exiting : bool;
  t_joined : bool;
  t_lock : option who;
  t_saved : option place;   (* uctx *)
  t_pending : bool;         (* the checkpoint signal *)
  t_pc : thread_pc
}.
Definition with_state (s : thread_state) t := ThreadInfo s (t_depth t) (t_exiting t) (t_joined t) (t_lock t) (t_saved t) (t_pending t) (t_pc t).
Definition with_depth (d : Z) t := ThreadInfo (t_state t) d (t_exiting t) (t_joined t) (t_lock t) (t_saved t) (t_pending t) (t_pc t).
Definition with_exiting t := ThreadInfo (t_state t) (t_depth t) true (t_joined t) (t_lock t) (t_saved t) (t_pending t) (t_pc t).
Definition with_joined t := ThreadInfo (t_state t) (t_depth t) (t_exiting t) true (t_lock t) (t_saved t) (t_pending t) (t_pc t).
Definition with_lock (l : option who) t := ThreadInfo (t_state t) (t_depth t) (t_exiting t) (t_joined t) l (t_saved t) (t_pending t) (t_pc t).
Definition with_saved (p : place) t := ThreadInfo (t_state t) (t_depth t) (t_exiting t) (t_joined t) (t_lock t) (Some p) (t_pending t) (t_pc t).
Definition with_pending (b : bool) t := ThreadInfo (t_state t) (t_depth t) (t_exiting t) (t_joined t) (t_lock t) (t_saved t) b (t_pc t).
Definition goto (c : thread_pc) t := ThreadInfo (t_state t) (t_depth t) (t_exiting t) (t_joined t) (t_lock t) (t_saved t) (t_pending t) c.

(** Where the checkpoint thread is.  A scan carries the descriptors left, the
    number suspended and whether to scan again; the waiting loop the numbers
    [exiting] and [killed]; the barrier whether this is a restart. *)
Inductive ckpt_pc : Type :=
  | CWaiting | CPending | CSuspend | CReset
  | CLockMtx | CLockList
  | CScan (l : list tid) (n : Z) (r : bool)
  | CRemove (i : tid) (l : list tid) (n : Z) (r : bool)
  | CThLock (i : tid) (l : list tid) (n : Z) (r : bool)
  | CTrySignal (i : tid) (l : list tid) (n : Z) (r : bool)
  | CKill (i : tid) (l : list tid) (n : Z) (r : bool)
  | CIsSignaled (i : tid) (l : list tid) (n : Z) (r : bool)
  | CProbe (i : tid) (l : list tid) (n : Z) (r : bool)
  | CIsSuspended (i : tid) (l : list tid) (n : Z) (r : bool)
  | CIsInProg (i : tid) (l : list tid) (n : Z) (r : bool)
  | CIsUnsafe (i : tid) (l : list tid) (n : Z) (r : bool)
  | CIsEmbryo (i : tid) (l : list tid) (n : Z) (r : bool)
  | CThUnlock (i : tid) (l : list tid) (n : Z) (r : bool)
  | CUnlockMtx (n : Z) (r : bool)
  | CUnlockList (n : Z) (r : bool)
  | CWLock
  | CWScan (l : list tid) (e k : Z)
  | CWAssert (i : tid) (l : list tid) (e k : Z)
  | CWAssert2 (i : tid) (l : list tid) (e k : Z)
  | CWJoined (i : tid) (l : list tid) (e k : Z)
  | CWProbe (i : tid) (l : list tid) (e k : Z)
  | CWUnlock (e k : Z)
  | CArrLock (b : bool) | CArrSet (b : bool) | CArrTest (b : bool) | CArrRelock (b : bool)
  | CWrite | CRestored
  | CRelLock | CRelSet | CRelUnlock
  | CRestList | CRestMtx | CRestZero | CRestCreate (l : list tid) | CRestUnlock.

Record process := Proc {
  w_lib : xnd_state;
  w_list : list tid;                 (* thread_list *)
  w_zombies : list tid;              (* zombie_list *)
  w_threads : gmap tid thread_info;  (* the descriptors *)
  w_list_mtx : option who;
  w_ckpt_mtx : option who;
  w_arrived : Z;                     (* threads_arrived *)
  w_expected : Z;                    (* threads_expected *)
  w_pc : ckpt_pc
}.

Implicit Types w : process.
Implicit Types t : thread_info.

Definition set_lib (s : xnd_state) w :=
  Proc s (w_list w) (w_zombies w) (w_threads w) (w_list_mtx w) (w_ckpt_mtx w) (w_arrived w) (w_expected w) (w_pc w).
Definition set_list (l : list tid) w :=
  Proc (w_lib w) l (w_zombies w) (w_threads w) (w_list_mtx w) (w_ckpt_mtx w) (w_arrived w) (w_expected w) (w_pc w).
Definition set_zombies (l : list tid) w :=
  Proc (w_lib w) (w_list w) l (w_threads w) (w_list_mtx w) (w_ckpt_mtx w) (w_arrived w) (w_expected w) (w_pc w).
Definition set_threads (m : gmap tid thread_info) w :=
  Proc (w_lib w) (w_list w) (w_zombies w) m (w_list_mtx w) (w_ckpt_mtx w) (w_arrived w) (w_expected w) (w_pc w).
Definition set_list_mtx (o : option who) w :=
  Proc (w_lib w) (w_list w) (w_zombies w) (w_threads w) o (w_ckpt_mtx w) (w_arrived w) (w_expected w) (w_pc w).
Definition set_ckpt_mtx (o : option who) w :=
  Proc (w_lib w) (w_list w) (w_zombies w) (w_threads w) (w_list_mtx w) o (w_arrived w) (w_expected w) (w_pc w).
Definition set_arrived (n : Z) w :=
  Proc (w_lib w) (w_list w) (w_zombies w) (w_threads w) (w_list_mtx w) (w_ckpt_mtx w) n (w_expected w) (w_pc w).
Definition set_expected (n : Z) w :=
  Proc (w_lib w) (w_list w) (w_zombies w) (w_threads w) (w_list_mtx w) (w_ckpt_mtx w) (w_arrived w) n (w_pc w).
Definition set_pc (c : ckpt_pc) w :=
  Proc (w_lib w) (w_list w) (w_zombies w) (w_threads w) (w_list_mtx w) (w_ckpt_mtx w) (w_arrived w) (w_expected w) c.
Definition set_thread (i : tid) t w := set_threads (<[i := t]> (w_threads w)) w.

(** ** The threads of the program *)

Definition is_state (s : thread_state) t : bool := bool_decide (t_state t = s).

(** [thread_state_cas] *)
Definition thread_state_cas (expected desired : thread_state) t : option thread_info :=
  if is_state expected t then Some (with_state desired t) else None.

(** [calloc] and the initialization of [thread_init] *)
Definition thread_init : thread_info := ThreadInfo ST_EMBRYO 0 false false None None false (At Starting).

(** [unsafe_enter] up to its loop, of a thread that may be suspended *)
Definition enter (k : hook) t : thread_info :=
  goto (At (if t_depth t =? 0 then Entering k else Inside k)) (with_depth (u32 (t_depth t + 1)) t).
(** [unsafe_exit] *)
Definition leave t : thread_info :=
  let t := with_depth (u32 (t_depth t - 1)) t in
  goto (At Running) (if t_depth t =? 0 then default t (thread_state_cas ST_UNSAFE ST_RUNNING t) else t).

(** A step of thread [i] in its own code. *)
Definition place_step (i : tid) t (p : place) w : outcome process unit :=
  match p with
  | Starting =>   (* thread_list_add *)
    if decide (w_list_mtx w = None)
    then Ret tt (set_list (i :: w_list w) (set_thread i (goto (At Listed) t) w)) else NoFuel
  | Listed =>     (* the rest of thread_start *)
    if decide (t_lock t = None)
    then Ret tt (set_thread i (goto (At Running) (with_state ST_RUNNING t)) w) else NoFuel
  | Running => NoFuel
  | Entering k =>
    match thread_state_cas ST_RUNNING ST_UNSAFE t with
    | Some t => Ret tt (set_thread i (goto (At (Inside k)) t) w)
    | None => NoFuel
    end
  | Inside HOther => Ret tt (set_thread i (leave t) w)
  | Inside HCreate => NoFuel
  | Inside (HCreated n) =>
    match w_threads w !! n with
    | None => Ub
    | Some tn =>
      if decide (t_lock tn = None) then
        if is_state ST_EMBRYO tn then NoFuel else Ret tt (set_thread i (goto (At (Inside HOther)) t) w)
      else NoFuel
    end
  | Inside (HJoin j) =>
    match w_threads w !! j with
    | None => Ub
    | Some tj =>
      if decide (t_pc tj = At Dead)
      then Ret tt (set_thread i (goto (At (Inside HOther)) t) (set_thread j (with_joined tj) w)) else NoFuel
    end
  | ExitLock =>
    if decide (t_lock t = None)
    then Ret tt (set_thread i (goto (At ExitSet) (with_lock (Some (THREAD i)) t)) w) else NoFuel
  | ExitSet => Ret tt (set_thread i (goto (At ExitUnlock) (with_exiting t)) w)
  | ExitUnlock => Ret tt (set_thread i (goto (At Running) (with_lock None t)) w)
  | JoinLock j =>
    match w_threads w !! j with
    | None => Ub
    | Some tj =>
      if decide (t_lock tj = None)
      then Ret tt (set_thread i (goto (At (JoinTest j)) t) (set_thread j (with_lock (Some (THREAD i)) tj) w)) else NoFuel
    end
  | JoinTest j =>
    match w_threads w !! j with
    | None => Ub
    | Some tj =>
      Ret tt (set_thread i (if t_exiting tj then enter (HJoin j) t else goto (At (JoinLock j)) t)
                (set_thread j (with_lock None tj) w))
    end
  | Dead => NoFuel
  end.

(** [xnd_assert(thread_state_cas(...))] and what follows *)
Definition cas_or_abort (i : tid) t (expected desired : thread_state) (next : thread_pc) w : outcome process unit :=
  match thread_state_cas expected desired t with
  | Some t => Ret tt (set_thread i (goto next t) w)
  | None => Abort w
  end.

(** A step of thread [i] in the signal handler, or in the barrier. *)
Definition stop_step (i : tid) t (s : stop) (a : after) w : outcome process unit :=
  let next s w := Ret tt (set_thread i (goto (Stop s a) t) w) in
  match s with
  | Signaled => cas_or_abort i t ST_SIGNALED ST_SUSPINPROG (Stop Saving a) w
  | Saving =>
    Ret tt (set_thread i (goto (Stop Saved a) (match a with Return p => with_saved p t | Context => t end)) w)
  | Saved => cas_or_abort i t ST_SUSPINPROG ST_SUSPENDED (Stop Locking a) w
  | Locking =>
    if decide (w_ckpt_mtx w = None) then next TestSuspend (set_ckpt_mtx (Some (THREAD i)) w) else NoFuel
  | TestSuspend =>
    if bool_decide (w_lib w = XND_SUSPINPROG) then next Locking (set_ckpt_mtx None w) else next Arriving w
  | Arriving => next TestCkpt (set_arrived (w_arrived w + 1) w)
  | TestCkpt =>
    if bool_decide (w_lib w = XND_CKPTINPROG) then next Relocking (set_ckpt_mtx None w) else next Leaving w
  | Relocking =>
    if decide (w_ckpt_mtx w = None) then next TestCkpt (set_ckpt_mtx (Some (THREAD i)) w) else NoFuel
  | Leaving =>
    let w := set_ckpt_mtx None w in
    match a with
    | Return p => next Resuming w
    | Context =>
      match t_saved t with Some p => Ret tt (set_thread i (goto (At p) t) w) | None => Ub end
    end
  | Resuming =>
    match a with
    | Return p => cas_or_abort i t ST_SUSPENDED ST_RUNNING (At p) w
    | Context => NoFuel
    end
  end.

(** The next step of thread [i]. *)
Definition thread_step (i : tid) w : outcome process unit :=
  match w_threads w !! i with
  | None => NoFuel
  | Some t =>
    match t_pc t with
    | At p => place_step i t p w
    | Stop s a => stop_step i t s a w
    | Restarting => Ret tt (set_thread i (goto (Stop Locking Context) (with_state ST_RUNNING t)) w)
    end
  end.

(** What the program decides: a running thread calls a hook, exits, joins, and
    ends once it exits; a thread creating one gets a descriptor [n] from the
    allocator. *)
Definition when_at (i : tid) (p : place) w (f : thread_info -> outcome process unit) : outcome process unit :=
  match w_threads w !! i with
  | Some t => if decide (t_pc t = At p) then f t else NoFuel
  | None => NoFuel
  end.
Definition call_hook (i : tid) (create : bool) w :=
  when_at i Running w (fun t => Ret tt (set_thread i (enter (if create then HCreate else HOther) t) w)).
Definition call_exit (i : tid) w := when_at i Running w (fun t => Ret tt (set_thread i (goto (At ExitLock) t) w)).
Definition call_join (i j : tid) w :=
  when_at i Running w (fun t => if decide (i = j) then NoFuel else Ret tt (set_thread i (goto (At (JoinLock j)) t) w)).
Definition finish (i : tid) w :=
  when_at i Running w (fun t => if t_exiting t then Ret tt (set_thread i (goto (At Dead) t) w) else NoFuel).
Definition spawn (i n : tid) w :=
  when_at i (Inside HCreate) w (fun t =>
    if decide (w_threads w !! n = None)
    then Ret tt (set_thread i (goto (At (Inside (HCreated n))) t) (set_thread n thread_init w)) else NoFuel).

(** The delivery of the checkpoint signal. *)
Definition deliver (i : tid) w : outcome process unit :=
  match w_threads w !! i with
  | Some t =>
    match t_pc t with
    | At Dead => NoFuel
    | At p => if t_pending t then Ret tt (set_thread i (goto (Stop Signaled (Return p)) (with_pending false t)) w) else NoFuel
    | _ => NoFuel
    end
  | None => NoFuel
  end.

(** ** The checkpoint thread *)

(** [thread_list_remove] of descriptor [i]: a joined thread's is freed
    ([thread_reap]), another's kept on the zombie list. *)
Definition thread_list_remove (i : tid) w : process :=
  let w' := set_list (filter (fun j => j <> i) (w_list w)) w in
  match w_threads w !! i with
  | Some t => if t_joined t then set_threads (delete i (w_threads w)) w' else set_zombies (i :: w_zombies w) w'
  | None => w'
  end.

(** [zombie_list_filter] *)
Definition is_joined w (i : tid) : bool := from_option t_joined false (w_threads w !! i).
Definition zombie_list_filter w : process :=
  set_zombies (filter (fun i => is_joined w i = false) (w_zombies w))
    (set_threads (filter (fun it => ~ (it.1 ∈ w_zombies w /\ t_joined it.2 = true)) (w_threads w)) w).

(** A load of the state of descriptor [i]; a freed one is undefined. *)
Definition with_thread (i : tid) w (f : thread_info -> outcome process unit) : outcome process unit :=
  match w_threads w !! i with Some t => f t | None => Ub end.
Definition load_state (i : tid) (s : thread_state) w (yes no : ckpt_pc) : outcome process unit :=
  with_thread i w (fun t => Ret tt (set_pc (if is_state s t then yes else no) w)).
(** [pthread_kill]: [ESRCH] of a thread that has ended. *)
Definition esrch t : bool := bool_decide (t_pc t = At Dead).

(** A step of [suspend_threads]. *)
Definition scan_step w : outcome process unit :=
  match w_pc w with
  | CScan [] n r => Ret tt (set_pc (CUnlockMtx n r) w)
  | CScan (i :: l) n r =>
    with_thread i w (fun t =>
      if is_state ST_CKPT_THREAD t then Abort w else
      Ret tt (set_pc (if t_exiting t then CScan l n r else if t_joined t then CRemove i l n r else CThLock i l n r) w))
  | CRemove i l n r => Ret tt (set_pc (CScan l n r) (thread_list_remove i w))
  | CThLock i l n r =>
    with_thread i w (fun t =>
      if decide (t_lock t = None)
      then Ret tt (set_pc (CTrySignal i l n r) (set_thread i (with_lock (Some CKPT) t) w)) else NoFuel)
  | CTrySignal i l n r =>
    with_thread i w (fun t =>
      match thread_state_cas ST_RUNNING ST_SIGNALED t with
      | Some t => Ret tt (set_pc (CKill i l n r) (set_thread i t w))
      | None => Ret tt (set_pc (CIsSignaled i l n r) w)
      end)
  | CKill i l n r =>
    with_thread i w (fun t =>
      if esrch t then Ret tt (set_pc (CRemove i l n r) (set_thread i (with_lock None t) w))
      else Ret tt (set_pc (CThUnlock i l n true) (set_thread i (with_pending true t) w)))
  | CIsSignaled i l n r => load_state i ST_SIGNALED w (CProbe i l n r) (CIsSuspended i l n r)
  | CProbe i l n r =>
    with_thread i w (fun t =>
      if esrch t then Ret tt (set_pc (CRemove i l n r) (set_thread i (with_lock None t) w))
      else Ret tt (set_pc (CThUnlock i l n true) w))
  | CIsSuspended i l n r => load_state i ST_SUSPENDED w (CThUnlock i l (n + 1) r) (CIsInProg i l n r)
  | CIsInProg i l n r => load_state i ST_SUSPINPROG w (CThUnlock i l (n + 1) r) (CIsUnsafe i l n r)
  | CIsUnsafe i l n r => load_state i ST_UNSAFE w (CThUnlock i l n true) (CIsEmbryo i l n r)
  | CIsEmbryo i l n r => load_state i ST_EMBRYO w (CThUnlock i l n true) (CThUnlock i l n r)
  | CThUnlock i l n r =>
    with_thread i w (fun t => Ret tt (set_pc (CScan l n r) (set_thread i (with_lock None t) w)))
  | CUnlockMtx n r => Ret tt (set_pc (CUnlockList n r) (set_ckpt_mtx None w))
  | CUnlockList n r =>
    let w := set_list_mtx None w in
    Ret tt (if (r : bool) then set_pc CLockMtx w else set_pc CWLock (set_expected n w))
  | _ => NoFuel
  end.

(** A step of [wait_for_exiting_threads]. *)
Definition wait_step w : outcome process unit :=
  match w_pc w with
  | CWLock =>
    if decide (w_list_mtx w = None)
    then Ret tt (set_pc (CWScan (w_list w) 0 0) (set_list_mtx (Some CKPT) w)) else NoFuel
  | CWScan [] e k => Ret tt (set_pc (CWUnlock e k) w)
  | CWScan (i :: l) e k =>
    with_thread i w (fun t => Ret tt (set_pc (
      if negb (t_joined t || t_exiting t) then CWAssert i l e k
      else if t_joined t then CWJoined i l e k else CWProbe i l (e + 1) k) w))
  | CWAssert i l e k => load_state i ST_SUSPENDED w (CWScan l e k) (CWAssert2 i l e k)
  | CWAssert2 i l e k =>
    with_thread i w (fun t => if is_state ST_SUSPINPROG t then Ret tt (set_pc (CWScan l e k) w) else Abort w)
  | CWJoined i l e k => Ret tt (set_pc (CWScan l e k) (thread_list_remove i w))
  | CWProbe i l e k =>
    with_thread i w (fun t =>
      if esrch t then Ret tt (set_pc (CWScan l e (k + 1)) (thread_list_remove i w))
      else Ret tt (set_pc (CWScan l e k) w))
  | CWUnlock e k =>
    Ret tt (set_pc (if e =? k then CArrLock false else CWLock) (set_list_mtx None w))
  | _ => NoFuel
  end.

(** A step of [restore_threads]. *)
Definition restore_step w : outcome process unit :=
  match w_pc w with
  | CRestList =>
    if decide (w_list_mtx w = None) then Ret tt (set_pc CRestMtx (set_list_mtx (Some CKPT) w)) else NoFuel
  | CRestMtx =>
    if decide (w_ckpt_mtx w = None) then Ret tt (set_pc CRestZero (set_ckpt_mtx (Some CKPT) w)) else NoFuel
  | CRestZero => Ret tt (set_pc (CRestCreate (w_list w)) (set_expected 0 (set_arrived 0 w)))
  | CRestCreate (i :: l) =>
    with_thread i w (fun t =>
      Ret tt (set_pc (CRestCreate l) (set_expected (w_expected w + 1) (set_thread i (goto Restarting t) w))))
  | CRestCreate [] => Ret tt (set_pc CRestUnlock (set_list_mtx None w))
  | CRestUnlock => Ret tt (set_pc (CArrLock true) (set_ckpt_mtx None w))
  | _ => NoFuel
  end.

(** The next step of the checkpoint thread in [ckpt_thread_work] once a
    request has come. *)
Definition ckpt_step w : outcome process unit :=
  match w_pc w with
  | CWaiting => NoFuel
  | CPending => Ret tt (set_pc CSuspend w)
  | CSuspend => Ret tt (set_pc CReset (set_lib XND_SUSPINPROG w))
  | CReset => Ret tt (set_pc CLockMtx (set_arrived 0 w))
  | CLockMtx =>
    if decide (w_ckpt_mtx w = None) then Ret tt (set_pc CLockList (set_ckpt_mtx (Some CKPT) w)) else NoFuel
  | CLockList =>
    if decide (w_list_mtx w = None)
    then Ret tt (set_pc (CScan (w_list w) 0 false) (set_list_mtx (Some CKPT) w)) else NoFuel
  (* barrier_arrival_wait *)
  | CArrLock b =>
    if decide (w_ckpt_mtx w = None) then Ret tt (set_pc (CArrSet b) (set_ckpt_mtx (Some CKPT) w)) else NoFuel
  | CArrSet b => Ret tt (set_pc (CArrTest b) (set_lib XND_CKPTINPROG w))
  | CArrTest b =>
    Ret tt (set_pc (if w_arrived w <? w_expected w then CArrRelock b else if b then CRestored else CWrite)
              (set_ckpt_mtx None w))
  | CArrRelock b =>
    if decide (w_ckpt_mtx w = None) then Ret tt (set_pc (CArrTest b) (set_ckpt_mtx (Some CKPT) w)) else NoFuel
  | CWrite => Ret tt (set_pc CRelLock w)
  | CRestored => Ret tt (set_pc CRelLock (zombie_list_filter w))
  (* barrier_release *)
  | CRelLock =>
    if decide (w_ckpt_mtx w = None) then Ret tt (set_pc CRelSet (set_ckpt_mtx (Some CKPT) w)) else NoFuel
  | CRelSet => Ret tt (set_pc CRelUnlock (set_lib XND_RUNNING w))
  | CRelUnlock => Ret tt (set_pc CWaiting (set_ckpt_mtx None w))
  | CScan _ _ _ | CRemove _ _ _ _ | CThLock _ _ _ _ | CTrySignal _ _ _ _ | CKill _ _ _ _ | CIsSignaled _ _ _ _
  | CProbe _ _ _ _ | CIsSuspended _ _ _ _ | CIsInProg _ _ _ _ | CIsUnsafe _ _ _ _ | CIsEmbryo _ _ _ _
  | CThUnlock _ _ _ _ | CUnlockMtx _ _ | CUnlockList _ _ => scan_step w
  | CWLock | CWScan _ _ _ | CWAssert _ _ _ _ | CWAssert2 _ _ _ _ | CWJoined _ _ _ _ | CWProbe _ _ _ _
  | CWUnlock _ _ => wait_step w
  | CRestList | CRestMtx | CRestZero | CRestCreate _ | CRestUnlock => restore_step w
  end.

(** [ckpt_thread_wait] returns: a request came from the coordinator. *)
Definition request w : outcome process unit :=
  match w_pc w with CWaiting => Ret tt (set_pc CPending (set_lib XND_CKPT_PENDING w)) | _ => NoFuel end.

(** The process killed while its image is complete, and restarted from it: the
    descriptors are as they were, and no thread but the checkpoint thread
    exists. *)
Definition restart w : outcome process unit :=
  match w_pc w with
  | CWrite => Ret tt (set_pc CRestList (set_threads ((fun t => goto (At Dead) (with_pending false t)) <$> w_threads w) w))
  | _ => NoFuel
  end.

(** ** Interleaving *)

Inductive action : Type :=
  | Ckpt
  | Thread (i : tid)
  | Hook (i : tid) (create : bool)
  | Spawn (i n : tid)
  | Exit (i : tid)
  | Join (i j : tid)
  | Finish (i : tid)
  | Deliver (i : tid)
  | Request
  | Restart.
#[global] Instance action_eq_dec : EqDecision action.
Proof. solve_decision. Defined.

Definition do (a : action) : M process unit := fun w =>
  match a with
  | Ckpt => ckpt_step w
  | Thread i => thread_step i w
  | Hook i b => call_hook i b w
  | Spawn i n => spawn i n w
  | Exit i => call_exit i w
  | Join i j => call_join i j w
  | Finish i => finish i w
  | Deliver i => deliver i w
  | Request => request w
  | Restart => restart w
  end.

(** A sequence of steps. *)
Fixpoint run (l : list action) : M process unit :=
  match l with [] => mret tt | a :: l => do a;; run l end.

Definition step w w' : Prop := exists a, do a w = Ret tt w'.
(** A step within one checkpoint: no request and no restart. *)
Definition within w w' : Prop := exists a, a <> Request /\ a <> Restart /\ do a w = Ret tt w'.
