(* ===== verification/ThreadsSafe.v ===== *)
(** What the suspension of [Threads] guarantees: an invariant of one
    checkpoint, kept by every step of every thread. *)

From S2P Require Import Prelude Process Threads.
Open Scope Z_scope.

Implicit Types w : process.
Implicit Types t : thread_info.

(** ** Predicates of one thread *)

Definition dead t : Prop := t_pc t = At Dead.
Definition stopped t : Prop := match t_pc t with Stop _ _ => True | _ => False end.
Definition settled t : Prop := dead t \/ stopped t.
(** No further than the first loop of the barrier. *)
Definition low (s : stop) : Prop :=
  match s with Signaled | Saving | Saved | Locking | TestSuspend => True | _ => False end.
Definition below t : Prop := match t_pc t with Stop s _ => low s | _ => True end.
(** Not past the second loop. *)
Definition gated t : Prop := match t_pc t with Stop Leaving _ | Stop Resuming _ => False | _ => True end.
(** In the second loop, counted. *)
Definition arrived t : Prop := match t_pc t with Stop TestCkpt _ | Stop Relocking _ => True | _ => False end.
#[global] Instance arrived_dec t : Decision (arrived t).
Proof. unfold arrived. destruct (t_pc t) as [|[]|]; apply _. Defined.
(** Asked to enter the handler, and the signal not yet sent. *)
Definition asked t : Prop := dead t \/ (~ stopped t /\ t_state t = ST_SIGNALED /\ t_pending t = false).
(** Outside the handler and not asked to enter it. *)
Definition quiet t : Prop := ~ stopped t /\ (dead t \/ t_state t <> ST_SIGNALED).

(** The places a signal can interrupt, and the unsafe depth there. *)
Definition place_ok (p : place) t : Prop :=
  match p with
  | Starting | Listed => t_state t = ST_EMBRYO /\ t_depth t = 0
  | Inside _ => t_state t = ST_UNSAFE /\ t_depth t = 1
  | Dead => True
  | Entering _ => (t_state t = ST_RUNNING \/ t_state t = ST_SIGNALED) /\ t_depth t = 1
  | _ => (t_state t = ST_RUNNING \/ t_state t = ST_SIGNALED) /\ t_depth t = 0
  end.
Definition interrupted (p : place) t : Prop :=
  match p with
  | Starting | Listed | Inside _ | Dead => False
  | Entering _ => t_depth t = 1
  | _ => t_depth t = 0
  end.
Definition stop_state (s : stop) : thread_state :=
  match s with Signaled => ST_SIGNALED | Saving | Saved => ST_SUSPINPROG | _ => ST_SUSPENDED end.
Definition pc_ok t : Prop :=
  match t_pc t with
  | At p => place_ok p t /\ (p <> Dead -> t_pending t = true -> t_state t = ST_SIGNALED)
  | Stop s (Return p) =>
    interrupted p t /\ t_state t = stop_state s /\ t_pending t = false /\
    match s with Signaled | Saving => True | _ => t_saved t = Some p end
  | _ => False
  end.
Definition thread_ok t : Prop := pc_ok t /\ (t_joined t = true -> dead t).

(** ** The invariant *)

Record core w : Prop := {
  core_thread : forall i t, w_threads w !! i = Some t -> thread_ok t;
  core_listed : forall i t, w_threads w !! i = Some t -> t_pc t <> At Dead -> t_pc t <> At Starting -> i ∈ w_list w;
  core_starting : forall i t, w_threads w !! i = Some t -> t_pc t = At Starting ->
    exists c tc, w_threads w !! c = Some tc /\ t_pc tc = At (Inside (HCreated i));
  core_exists : forall i, i ∈ w_list w -> is_Some (w_threads w !! i)
}.

Definition every (P : thread_info -> Prop) w : Prop := forall i t, w_threads w !! i = Some t -> P t.
Definition at_gate w : gmap tid thread_info := filter (fun it => arrived it.2) (w_threads w).

Definition suspending w : Prop := w_lib w = XND_SUSPINPROG /\ w_arrived w = 0 /\ every below w.
Definition held w : Prop :=
  w_lib w = XND_CKPTINPROG /\ every settled w /\ every gated w /\ w_arrived w = Z.of_nat (size (at_gate w)).
(** The descriptors a pass of the waiting loop has dealt with: all that are
    listed but those still to come. *)
Definition passed (rest : list tid) w : Prop :=
  forall j t, j ∈ w_list w -> j ∉ rest -> w_threads w !! j = Some t -> settled t.
Definition waiting (rest : list tid) (e k : Z) w : Prop :=
  suspending w /\ w_list_mtx w = Some CKPT /\ k <= e /\ (e = k -> passed rest w).
Definition dead_at (i : tid) w : Prop := exists t, w_threads w !! i = Some t /\ dead t.
Definition asked_at (i : tid) w : Prop := exists t, w_threads w !! i = Some t /\ asked t.

Definition phase (c : ckpt_pc) w : Prop :=
  match c with
  | CPending | CSuspend => w_lib w = XND_CKPT_PENDING /\ every quiet w
  | CReset => w_lib w = XND_SUSPINPROG /\ every quiet w
  | CRemove i _ _ _ => suspending w /\ dead_at i w
  | CKill i _ _ _ => suspending w /\ asked_at i w
  | CWScan l e k => waiting l e k w
  | CWAssert i l e k | CWAssert2 i l e k => waiting (i :: l) e k w
  | CWJoined i l e k => waiting (i :: l) e k w /\ dead_at i w
  | CWProbe i l e k => waiting (i :: l) (e - 1) k w
  | CWUnlock e k => waiting [] e k w
  | CArrLock false | CArrSet false => suspending w /\ every settled w
  | CArrTest false | CArrRelock false => held w
  | CWrite | CRelLock | CRelSet => held w /\ w_expected w <= w_arrived w
  | CRelUnlock | CWaiting => True
  | CArrLock true | CArrSet true | CArrTest true | CArrRelock true | CRestored
  | CRestList | CRestMtx | CRestZero | CRestCreate _ | CRestUnlock => False
  | _ => suspending w
  end.
Definition inv w : Prop := core w /\ phase (w_pc w) w.

(** ** One descriptor changes *)

Lemma lookup_set_thread i t w j : w_threads (set_thread i t w) !! j = if decide (i = j) then Some t else w_threads w !! j.
Proof. cbn. destruct (decide (i = j)) as [->|]; [apply lookup_insert_eq|by apply lookup_insert_ne]. Qed.

Lemma every_set P i t w : every P w -> P t -> every P (set_thread i t w).
Proof. intros Hw Ht j t'. rewrite lookup_set_thread. case_decide; [by intros [= <-]|apply Hw]. Qed.

Lemma core_move i t t' w :
  core w -> w_threads w !! i = Some t -> thread_ok t' ->
  (t_pc t' <> At Dead -> t_pc t' <> At Starting -> i ∈ w_list w) ->
  (t_pc t' = At Starting -> t_pc t = At Starting) ->
  (forall n, t_pc t = At (Inside (HCreated n)) -> t_pc t' = t_pc t \/ forall tn, w_threads w !! n = Some tn -> t_pc tn <> At Starting) ->
  core (set_thread i t' w).
Proof.
  intros [H1 H2 H3 H4] Ht Hok Hl Hs Hc. split.
  - by apply every_set.
  - intros j tj. rewrite lookup_set_thread. case_decide as E; [subst; intros [= <-]; apply Hl|apply H2].
  - intros j tj. rewrite lookup_set_thread. intros Hj Hst.
    assert (exists t0, w_threads w !! j = Some t0 /\ t_pc t0 = At Starting) as (t0 & Hj0 & Hst0).
    { case_decide; [|by exists tj]. subst. injection Hj as <-. exists t. split; [done|by apply Hs]. }
    destruct (H3 j t0 Hj0 Hst0) as (c & tc & Hc1 & Hc2).
    destruct (decide (i = c)) as [->|Hne].
    + assert (tc = t) as -> by congruence. exists c, t'. rewrite lookup_set_thread, decide_True by done. split; [done|].
      destruct (Hc j Hc2) as [->|Hn]; [done|]. by destruct (Hn _ Hj0).
    + exists c, tc. rewrite lookup_set_thread, decide_False by done. done.
  - intros j Hj. rewrite lookup_set_thread. case_decide; [done|by apply H4].
Qed.

(** What a step of the program's threads does to a descriptor, as far as the
    phases are concerned. *)
Record evolves (lib : xnd_state) t t' : Prop := {
  ev_dead : dead t -> dead t';
  ev_quiet : quiet t -> quiet t';
  ev_asked : asked t -> asked t';
  ev_suspending : lib = XND_SUSPINPROG -> below t -> (stopped t -> stopped t') /\ below t';
  ev_held : lib = XND_CKPTINPROG -> stopped t -> gated t -> stopped t' /\ gated t' /\ (arrived t -> arrived t')
}.
Lemma ev_settled lib t t' : evolves lib t t' -> lib = XND_SUSPINPROG -> below t -> settled t -> settled t'.
Proof. intros [H1 _ _ H3 _] Hl Hb [Hd|Hs]; [left; auto|right; by apply H3]. Qed.

Definition counted t : Z := match t_pc t with Stop TestCkpt _ | Stop Relocking _ => 1 | _ => 0 end.
Lemma counted_arrived t : counted t = if decide (arrived t) then 1 else 0.
Proof. unfold counted, arrived. case_decide as H; destruct (t_pc t) as [|[]|]; naive_solver. Qed.
Lemma at_gate_set i t t' w : w_threads w !! i = Some t ->
  Z.of_nat (size (at_gate (set_thread i t' w))) = Z.of_nat (size (at_gate w)) + counted t' - counted t.
Proof.
  intros Ht. rewrite !counted_arrived. unfold at_gate. cbn. set (m := w_threads w) in *.
  assert (m = <[i := t]> (delete i m)) as Hm by (by rewrite insert_delete_id).
  set (d := delete i m) in *. assert (d !! i = None) as Hd by apply lookup_delete_eq.
  assert (forall x, Z.of_nat (size (filter (fun it : tid * thread_info => arrived it.2) (<[i := x]> d))) =
    Z.of_nat (size (filter (fun it : tid * thread_info => arrived it.2) d)) + (if decide (arrived x) then 1 else 0)) as Hx.
  { intros x. assert (filter (fun it : tid * thread_info => arrived it.2) d !! i = None) as Hf.
    { apply map_lookup_filter_None. by left. }
    case_decide as Ex.
    - rewrite map_filter_insert_True by done. rewrite map_size_insert_None by done. lia.
    - rewrite map_filter_insert_False by done. rewrite delete_id by done. lia. }
  rewrite Hm. rewrite insert_insert_eq. rewrite !Hx. lia.
Qed.

Section move.
Variables (i : tid) (t t' : thread_info) (m : option who) (n : Z) (w : process).
Hypothesis Ht : w_threads w !! i = Some t.
Hypothesis Hev : evolves (w_lib w) t t'.
Hypothesis Hlow : below t -> w_lib w = XND_SUSPINPROG -> n = w_arrived w.
Hypothesis Hgate : w_lib w = XND_CKPTINPROG -> settled t -> gated t -> n = w_arrived w + counted t' - counted t.
Let w' : process := set_arrived n (set_ckpt_mtx m (set_thread i t' w)).

Lemma every_move (P : thread_info -> Prop) : (P t -> P t') -> every P w -> every P w'.
Proof. intros HP Hw. apply (every_set P i t' w Hw). apply HP. by apply (Hw i). Qed.
Lemma suspending_move : suspending w -> suspending w'.
Proof.
  intros (H1 & H2 & H3). split; [done|]. split.
  - cbn. rewrite Hlow; [done|by apply (H3 i)|done].
  - apply every_move; [|done]. intros Hb. by apply (ev_suspending _ _ _ Hev).
Qed.
Lemma held_move : held w -> held w'.
Proof.
  intros (H1 & H2 & H3 & H4). pose proof (H2 i t Ht) as Hs. pose proof (H3 i t Ht) as Hg.
  assert (settled t' /\ gated t') as [Hs' Hg'].
  { destruct Hs as [Hd|Hs].
    - pose proof (ev_dead _ _ _ Hev Hd) as Hd'. split; [by left|]. unfold gated. by rewrite Hd'.
    - destruct (ev_held _ _ _ Hev H1 Hs Hg) as (? & ? & _). split; [by right|done]. }
  split; [done|]. split; [by apply every_move|]. split; [by apply every_move|].
  cbn. rewrite (Hgate H1 Hs Hg). change (at_gate w') with (at_gate (set_thread i t' w)).
  rewrite (at_gate_set i t) by done. lia.
Qed.
Lemma passed_move l : suspending w -> passed l w -> passed l w'.
Proof.
  intros (Hl & _ & Hb) Hp j tj Hj Hr. change (w_threads w') with (w_threads (set_thread i t' w)).
  rewrite lookup_set_thread. case_decide as E; [|by apply (Hp j)]. intros [= <-]. subst j.
  apply (ev_settled (w_lib w) t); [done|done|by apply (Hb i)|]. by apply (Hp i).
Qed.
Lemma waiting_move l e k : waiting l e k w -> waiting l e k w'.
Proof.
  intros (H1 & H2 & H3 & H4). split; [by apply suspending_move|]. split; [done|]. split; [done|].
  intros He. apply passed_move; auto.
Qed.
Lemma dead_at_move j : dead_at j w -> dead_at j w'.
Proof.
  intros (tj & Hj & Hd). unfold dead_at. change (w_threads w') with (w_threads (set_thread i t' w)).
  rewrite lookup_set_thread. case_decide as E; [|by exists tj]. exists t'. split; [done|].
  subst j. assert (tj = t) as -> by congruence. by apply (ev_dead _ _ _ Hev).
Qed.
Lemma asked_at_move j : asked_at j w -> asked_at j w'.
Proof.
  intros (tj & Hj & Hd). unfold asked_at. change (w_threads w') with (w_threads (set_thread i t' w)).
  rewrite lookup_set_thread. case_decide as E; [|by exists tj]. exists t'. split; [done|].
  subst j. assert (tj = t) as -> by congruence. by apply (ev_asked _ _ _ Hev).
Qed.
Lemma held_arrived : held w -> w_arrived w <= w_arrived w'.
Proof.
  intros (H1 & H2 & H3 & _). pose proof (H2 i t Ht) as Hs. pose proof (H3 i t Ht) as Hg.
  cbn. rewrite (Hgate H1 Hs Hg). rewrite !counted_arrived. destruct (decide (arrived t)) as [Ha|]; [|case_decide; lia].
  rewrite decide_True; [lia|]. destruct Hs as [Hd|Hs]; [unfold arrived in Ha; rewrite Hd in Ha; done|].
  by apply (ev_held _ _ _ Hev H1 Hs Hg).
Qed.
Lemma phase_move c : phase c w -> phase c w'.
Proof.
  pose proof suspending_move as Hs. pose proof held_move as Hh. pose proof waiting_move as Hw.
  pose proof dead_at_move as Hd. pose proof asked_at_move as Hk. pose proof (every_move quiet (ev_quiet _ _ _ Hev)) as Hq.
  pose proof held_arrived as Ha.
  assert (suspending w /\ every settled w -> suspending w' /\ every settled w') as Hse.
  { intros [H1 H2]. split; [by apply Hs|]. revert H2. apply every_move. destruct H1 as (Hl & _ & Hb).
    by apply (ev_settled _ _ _ Hev Hl), (Hb i). }
  assert (held w /\ w_expected w <= w_arrived w -> held w' /\ w_expected w' <= w_arrived w') as Hhe.
  { intros [H1 H2]. split; [by apply Hh|]. specialize (Ha H1). change (w_expected w') with (w_expected w). lia. }
  destruct c as [| | | | | | | | | | | | | | | | | | | | | | | | | | |[]|[]|[]|[]| | | | | | | | | |];
    cbn [phase]; auto; intros [? ?]; auto.
Qed.
Lemma inv_move : inv w -> thread_ok t' ->
  (t_pc t' <> At Dead -> t_pc t' <> At Starting -> i ∈ w_list w) ->
  (t_pc t' = At Starting -> t_pc t = At Starting) ->
  (forall n, t_pc t = At (Inside (HCreated n)) -> t_pc t' = t_pc t \/ forall tn, w_threads w !! n = Some tn -> t_pc tn <> At Starting) ->
  inv w'.
Proof.
  intros [Hc Hp] Hok Hl Hs Hn. split; [|by apply phase_move].
  pose proof (core_move i t t' w Hc Ht Hok Hl Hs Hn) as [C1 C2 C3 C4]. split; done.
Qed.
End move.

(** ** The steps of the program's threads *)

Lemma is_state_spec s t : is_state s t = true <-> t_state t = s.
Proof. apply bool_decide_eq_true. Qed.
Lemma cas_Some s d t t' : thread_state_cas s d t = Some t' -> t_state t = s /\ t' = with_state d t.
Proof. unfold thread_state_cas. destruct (is_state s t) eqn:E; [|done]. apply is_state_spec in E. by intros [= <-]. Qed.

Ltac pcs := unfold thread_ok, pc_ok, quiet, settled, stopped, below, gated, arrived, counted, dead, place_ok,
  interrupted, stop_state, low in *; cbn in *.

(** A step at place [i] that touches neither the barrier's mutex nor its count. *)
Lemma inv_local i t t' w : inv w -> w_threads w !! i = Some t ->
  (thread_ok t -> thread_ok t' /\ evolves (w_lib w) t t' /\ counted t' = counted t) ->
  t_pc t <> At Dead -> t_pc t <> At Starting -> t_pc t' <> At Starting ->
  (forall n, t_pc t = At (Inside (HCreated n)) -> t_pc t' = t_pc t \/ forall tn, w_threads w !! n = Some tn -> t_pc tn <> At Starting) ->
  inv (set_thread i t' w).
Proof.
  intros Hi Ht Hok Hd Hs Hs' Hn. pose proof (core_thread _ (proj1 Hi) i t Ht) as Hto.
  destruct (Hok Hto) as (Hto' & Hev & Hcount).
  apply (inv_move i t t' (w_ckpt_mtx w) (w_arrived w) w); try done.
  - intros. lia.
  - intros. by apply (core_listed _ (proj1 Hi) i t).
Qed.
Lemma live_ok i t p w : inv w -> w_threads w !! i = Some t -> t_pc t = At p -> p <> Dead ->
  place_ok p t /\ (t_pending t = true -> t_state t = ST_SIGNALED) /\ t_joined t = false.
Proof.
  intros [Hc _] Ht Hp Hd. destruct (core_thread _ Hc i t Ht) as [Hk Hj]. unfold pc_ok in Hk. rewrite Hp in Hk.
  destruct Hk as [H1 H2]. split; [done|]. split; [auto|]. destruct (t_joined t) eqn:E; [|done].
  unfold dead in Hj. rewrite Hp in Hj. specialize (Hj eq_refl). congruence.
Qed.
(** A lock taken or released, or the pending flag of the dead: nothing the
    invariant speaks of. *)
Lemma inv_lock i t l w : inv w -> w_threads w !! i = Some t -> inv (set_thread i (with_lock l t) w).
Proof.
  intros Hi Ht. pose proof (core_thread _ (proj1 Hi) i t Ht) as Hto.
  apply (inv_move i t _ (w_ckpt_mtx w) (w_arrived w) w); try done.
  - intros. change (counted (with_lock l t)) with (counted t). lia.
  - cbn. intros. by apply (core_listed _ (proj1 Hi) i t).
  - by left.
Qed.
Lemma counted_place t p : t_pc t = At p -> counted t = 0.
Proof. unfold counted. by intros ->. Qed.
(** From place to place. *)
Lemma evolves_place lib t t' p p' : t_pc t = At p -> p <> Dead -> t_pc t' = At p' ->
  (t_state t = ST_SIGNALED <-> t_state t' = ST_SIGNALED) -> t_pending t' = t_pending t -> evolves lib t t'.
Proof.
  intros Hp Hd Hp' Hs Hpe. split; unfold quiet, asked, stopped, below, gated, dead; rewrite Hp, Hp', ?Hpe; try done; naive_solver.
Qed.
Lemma inv_place i t t' p p' w : inv w -> w_threads w !! i = Some t ->
  t_pc t = At p -> p <> Dead -> p <> Starting -> t_pc t' = At p' -> p' <> Starting ->
  (place_ok p t -> place_ok p' t') -> (place_ok p t -> t_state t = ST_SIGNALED <-> t_state t' = ST_SIGNALED) ->
  t_pending t' = t_pending t -> t_joined t' = t_joined t ->
  (forall n, p = Inside (HCreated n) -> forall tn, w_threads w !! n = Some tn -> t_pc tn <> At Starting) ->
  inv (set_thread i t' w).
Proof.
  intros Hi Ht Hp Hd Hs Hp' Hs' Hok Hst Hpe Hj Hn.
  destruct (live_ok i t p w Hi Ht Hp Hd) as (H1 & H2 & H3).
  apply (inv_local i t); [done|done| |congruence|congruence|congruence|].
  - intros _. split; [|split].
    + split; [unfold pc_ok; rewrite Hp', Hpe|by rewrite Hj, H3]. split; [auto|]. intros _ E. apply Hst; auto.
    + by apply (evolves_place _ _ _ p p'); auto.
    + by rewrite (counted_place t p), (counted_place t' p').
  - rewrite Hp. intros n [= ->]. right. by apply Hn.
Qed.
Lemma live_at i t p w : inv w -> w_threads w !! i = Some t -> t_pc t = At p -> p <> Dead -> place_ok p t.
Proof. intros ? ? ? ?. by eapply (live_ok i t p w). Qed.
Lemma enter_at k t : t_depth t = 0 -> enter k t = goto (At (Entering k)) (with_depth 1 t).
Proof. intros H. unfold enter. by rewrite H. Qed.
Lemma leave_at t : t_depth t = 1 -> t_state t = ST_UNSAFE -> leave t = goto (At Running) (with_state ST_RUNNING (with_depth 0 t)).
Proof. destruct t. cbn. by intros -> ->. Qed.

Lemma when_at_inv i p w f w' : when_at i p w f = Ret tt w' ->
  exists t, w_threads w !! i = Some t /\ t_pc t = At p /\ f t = Ret tt w'.
Proof. unfold when_at. destruct (w_threads w !! i) as [t|] eqn:Ht; [|done]. case_decide; [|done]. by exists t. Qed.

Lemma call_hook_inv i b w w' : inv w -> call_hook i b w = Ret tt w' -> inv w'.
Proof.
  intros Hi (t & Ht & Hp & [= <-])%when_at_inv. pose proof (live_at i t _ w Hi Ht Hp ltac:(done)) as [Hs Hd].
  rewrite enter_at by done. eapply (inv_place i t _ Running); done || auto.
Qed.
Lemma call_exit_inv i w w' : inv w -> call_exit i w = Ret tt w' -> inv w'.
Proof.
  intros Hi (t & Ht & Hp & [= <-])%when_at_inv. eapply (inv_place i t _ Running); done || auto.
Qed.
Lemma call_join_inv i j w w' : inv w -> call_join i j w = Ret tt w' -> inv w'.
Proof.
  intros Hi (t & Ht & Hp & H)%when_at_inv. case_decide; [done|]. injection H as <-.
  eapply (inv_place i t _ Running); done || auto.
Qed.
Lemma finish_inv i w w' : inv w -> finish i w = Ret tt w' -> inv w'.
Proof.
  intros Hi (t & Ht & Hp & H)%when_at_inv. destruct (t_exiting t); [|done]. injection H as <-.
  eapply (inv_place i t _ Running); done || auto.
Qed.
(** A new descriptor. *)
Lemma inv_new i t n w : inv w -> w_threads w !! i = Some t -> t_pc t = At (Inside (HCreated n)) ->
  w_threads w !! n = None -> inv (set_thread n thread_init w).
Proof.
  intros [[C1 C2 C3 C4] Hp] Ht Hpc Hn.
  assert (forall P : thread_info -> Prop, P thread_init -> every P w -> every P (set_thread n thread_init w)) as He.
  { intros P HP Hw. by apply every_set. }
  assert (~ every settled w) as Hns.
  { intros Hw. specialize (Hw i t Ht). unfold settled, dead, stopped in Hw. rewrite Hpc in Hw. naive_solver. }
  split; [split|].
  - apply He; [|done]. split; [|done]. split; done.
  - intros j tj. rewrite lookup_set_thread. case_decide; [intros [= <-]; done|apply C2].
  - intros j tj. rewrite lookup_set_thread. case_decide as E.
    + intros [= <-] _. subst j. exists i, t. rewrite lookup_set_thread. by rewrite decide_False by congruence.
    + intros Hj Hst. destruct (C3 j tj Hj Hst) as (c & tc & Hc & Hcp). exists c, tc.
      rewrite lookup_set_thread. by rewrite decide_False by congruence.
  - intros j Hj. rewrite lookup_set_thread. case_decide; [done|by apply C4].
  - assert (suspending w -> suspending (set_thread n thread_init w)) as Hs.
    { intros (H1 & H2 & H3). split; [done|]. split; [done|]. by apply He. }
    assert (forall l e k, waiting l e k w -> waiting l e k (set_thread n thread_init w)) as Hw.
    { intros l e k (H1 & H2 & H3 & H4). split; [auto|]. split; [done|]. split; [done|]. intros E j tj Hj Hr.
      rewrite lookup_set_thread. case_decide; [|by apply (H4 E j tj)]. subst j.
      destruct (C4 n Hj) as [x Hx]. congruence. }
    assert (forall j, dead_at j w -> dead_at j (set_thread n thread_init w)) as Hd.
    { intros j (tj & Hj & Hdj). exists tj. rewrite lookup_set_thread. by rewrite decide_False by congruence. }
    assert (forall j, asked_at j w -> asked_at j (set_thread n thread_init w)) as Hk.
    { intros j (tj & Hj & Hdj). exists tj. rewrite lookup_set_thread. by rewrite decide_False by congruence. }
    assert (every quiet w -> every quiet (set_thread n thread_init w)) as Hq.
    { apply He. split; [by intros []|by right]. }
    assert (forall P, (held w -> P)) as Hh by (by intros P (_ & ? & _)).
    cbn. destruct (w_pc w) as [| | | | | | | | | | | | | | | | | | | | | | | | | | |[]|[]|[]|[]| | | | | | | | | |];
      cbn [phase] in *; auto; destruct Hp as [? ?]; auto.
    all: by apply Hh.
Qed.
Lemma set_thread_comm i j a b w : i <> j -> set_thread i a (set_thread j b w) = set_thread j b (set_thread i a w).
Proof. intros H. unfold set_thread, set_threads. cbn. by rewrite insert_insert_ne. Qed.
Lemma set_thread_twice i a b w : set_thread i a (set_thread i b w) = set_thread i a w.
Proof. unfold set_thread, set_threads. cbn. by rewrite insert_insert_eq. Qed.
Lemma spawn_inv i n w w' : inv w -> spawn i n w = Ret tt w' -> inv w'.
Proof.
  intros Hi (t & Ht & Hp & H)%when_at_inv. case_decide as Hn; [|done]. injection H as <-.
  assert (i <> n) as Hne by congruence. rewrite set_thread_comm by done.
  eapply (inv_new i); [eapply (inv_place i t _ (Inside HCreate)); try done; auto| | |].
  - rewrite lookup_set_thread. by rewrite decide_True.
  - done.
  - rewrite lookup_set_thread. by rewrite decide_False.
Qed.

Lemma inv_list i w : inv w -> is_Some (w_threads w !! i) -> w_list_mtx w = None -> inv (set_list (i :: w_list w) w).
Proof.
  intros [[C1 C2 C3 C4] Hp] Hex Hm. split; [split|].
  - done.
  - intros j tj Hj H1 H2. apply list_elem_of_further. by apply (C2 j tj).
  - done.
  - intros j Hj. cbn in Hj. apply elem_of_cons in Hj as [->|Hj]; [done|by apply C4].
  - assert (forall l e k P, waiting l e k w -> P) as Hw by (intros l e k P (_ & ? & _); congruence).
    cbn. destruct (w_pc w) as [| | | | | | | | | | | | | | | | | | | | | | | | | | |[]|[]|[]|[]| | | | | | | | | |];
      cbn [phase] in *; auto; try (by eapply Hw); destruct Hp as [? ?]; by eapply Hw.
Qed.
Lemma place_step_inv i t p w w' : inv w -> w_threads w !! i = Some t -> t_pc t = At p ->
  place_step i t p w = Ret tt w' -> inv w'.
Proof.
  intros Hi Ht Hp H. assert (p <> Dead) as Hd by (by intros ->).
  pose proof (live_ok i t p w Hi Ht Hp Hd) as (Hok & Hpe & Hj).
  destruct p as [| | |k|[| |n|j]| | | |j|j|]; cbn in H; try done.
  - case_decide as Hm; [|done]. injection H as <-.
    assert (inv (set_list (i :: w_list w) w)) as Hi' by (apply inv_list; [done|by eexists|done]).
    apply (inv_move i t _ (w_ckpt_mtx w) (w_arrived w) (set_list (i :: w_list w) w)); try done.
    + by apply (evolves_place _ _ _ Starting Listed).
    + intros. rewrite (counted_place t Starting), (counted_place _ Listed) by done. cbn. lia.
    + split; [split; [done|auto]|]. cbn. by rewrite Hj.
    + intros _ _. apply list_elem_of_here.
    + rewrite Hp. done.
  - case_decide as Hm; [|done]. injection H as <-.
    eapply (inv_place i t _ Listed); try done.
    + intros [? ?]. split; [by left|done].
    + intros [? ?]. cbn. split; congruence.
  - destruct (thread_state_cas ST_RUNNING ST_UNSAFE t) as [t1|] eqn:E; [|done]. injection H as <-.
    apply cas_Some in E as [Hst ->]. eapply (inv_place i t _ (Entering k)); try done.
    + by intros [_ ?].
    + intros _. cbn. split; congruence.
  - injection H as <-. rewrite leave_at by apply Hok. eapply (inv_place i t _ (Inside HOther)); try done.
    + intros _. split; [by left|done].
    + intros [? ?]. cbn. split; congruence.
  - destruct (w_threads w !! n) as [tn|] eqn:Hn; [|done]. case_decide; [|done].
    destruct (is_state ST_EMBRYO tn) eqn:Es; [done|]. injection H as <-.
    eapply (inv_place i t _ (Inside (HCreated n))); try done.
    intros n' [= <-] tn' Htn' Hst. assert (tn' = tn) as -> by congruence.
    destruct (live_ok n tn Starting w Hi Hn Hst) as [[He _] _]; [done|]. apply is_state_spec in He. congruence.
  - destruct (w_threads w !! j) as [tj|] eqn:Hjt; [|done]. case_decide as Hdj; [|done]. injection H as <-.
    assert (i <> j) as Hne by congruence. rewrite set_thread_comm by done.
    pose proof (core_thread _ (proj1 Hi) j tj Hjt) as [Hkj _].
    assert (inv (set_thread i (goto (At (Inside HOther)) t) w)) as Hi1.
    { eapply (inv_place i t _ (Inside (HJoin j))); done || auto. }
    apply (inv_move j tj _ (w_ckpt_mtx w) (w_arrived w) (set_thread i (goto (At (Inside HOther)) t) w)); try done.
    + rewrite lookup_set_thread. by rewrite decide_False.
    + intros. change (counted (with_joined tj)) with (counted tj). cbn. lia.
    + cbn. by left.
  - case_decide; [|done]. injection H as <-. eapply (inv_place i t _ ExitLock); done || auto.
  - injection H as <-. eapply (inv_place i t _ ExitSet); done || auto.
  - injection H as <-. eapply (inv_place i t _ ExitUnlock); done || auto.
  - destruct (w_threads w !! j) as [tj|] eqn:Hjt; [|done]. case_decide as Hdj; [|done]. injection H as <-.
    destruct (decide (i = j)) as [->|Hne].
    + rewrite set_thread_twice. eapply (inv_place j t _ (JoinLock j)); done || auto.
    + rewrite set_thread_comm by done. apply (inv_lock j); [|rewrite lookup_set_thread; by rewrite decide_False].
      eapply (inv_place i t _ (JoinLock j)); done || auto.
  - destruct (w_threads w !! j) as [tj|] eqn:Hjt; [|done]. injection H as <-.
    assert (inv (set_thread i (if t_exiting tj then enter (HJoin j) t else goto (At (JoinLock j)) t) w)) as Hi1.
    { destruct (t_exiting tj).
      - rewrite enter_at by apply Hok. eapply (inv_place i t _ (JoinTest j)); done || auto. by intros [? _].
      - eapply (inv_place i t _ (JoinTest j)); done || auto. }
    destruct (decide (i = j)) as [->|Hne]; [by rewrite set_thread_twice|].
    rewrite set_thread_comm by done. apply (inv_lock j); [done|]. rewrite lookup_set_thread. by rewrite decide_False.
Qed.
(** From one point of the handler to the next. *)
Lemma inv_stop i t t' s s' p m n w : inv w -> w_threads w !! i = Some t ->
  t_pc t = Stop s (Return p) -> t_pc t' = Stop s' (Return p) ->
  t_depth t' = t_depth t -> t_pending t' = t_pending t -> t_joined t' = t_joined t -> t_state t' = stop_state s' ->
  (match s with Signaled | Saving => True | _ => t_saved t = Some p end ->
   match s' with Signaled | Saving => True | _ => t_saved t' = Some p end) ->
  (w_lib w = XND_SUSPINPROG -> low s -> low s' /\ n = w_arrived w) ->
  (w_lib w = XND_CKPTINPROG -> gated t -> gated t' /\ (arrived t -> arrived t') /\ n = w_arrived w + counted t' - counted t) ->
  inv (set_arrived n (set_ckpt_mtx m (set_thread i t' w))).
Proof.
  intros Hi Ht Hp Hp' Hd Hpe Hj Hst Hsa Hlow Hheld.
  destruct (core_thread _ (proj1 Hi) i t Ht) as [Hok Hjo]. unfold pc_ok in Hok. rewrite Hp in Hok.
  destruct Hok as (H1 & H2 & H3 & H4).
  assert (below t = low s) as Hb by (unfold below; by rewrite Hp).
  assert (below t' = low s') as Hb' by (unfold below; by rewrite Hp').
  assert (stopped t') as Hs' by (unfold stopped; by rewrite Hp').
  apply (inv_move i t t' m n w); try done.
  - split; rewrite ?Hb, ?Hb'; try done.
    + unfold dead. rewrite Hp. done.
    + intros [Hns _]. destruct Hns. unfold stopped. by rewrite Hp.
    + intros [Hx|[Hns _]]; [unfold dead in Hx; congruence|]. destruct Hns. unfold stopped. by rewrite Hp.
    + intros Hl Hx. split; [done|]. by apply Hlow.
    + intros Hl _ Hg. destruct (Hheld Hl Hg) as (? & ? & _). done.
  - rewrite Hb. intros Hx Hl. by apply Hlow.
  - intros Hl _ Hg. by apply Hheld.
  - split.
    + unfold pc_ok. rewrite Hp'. split; [|split; [done|split; [congruence|by apply Hsa]]]. destruct p; cbn in H1 |- *; done || congruence.
    + unfold dead in *. rewrite Hj. intros E. specialize (Hjo E). congruence.
  - intros _ _. apply (core_listed _ (proj1 Hi) i t Ht); by rewrite Hp.
  - by rewrite Hp'.
  - by rewrite Hp.
Qed.
Lemma cas_or_abort_inv i t s d next w w' : cas_or_abort i t s d next w = Ret tt w' ->
  t_state t = s /\ w' = set_thread i (goto next (with_state d t)) w.
Proof.
  unfold cas_or_abort. destruct (thread_state_cas s d t) eqn:E; [|done]. apply cas_Some in E as [H ->]. by intros [= <-].
Qed.
Ltac stop_done :=
  try done;
  match goal with
  | |- _ -> low _ -> _ => let E := fresh in intros E; first [by intros [] | congruence]
  | |- _ -> gated _ -> _ =>
    let E := fresh in let G := fresh in
    intros E G; unfold gated in G; cbn in G;
    first [done | congruence | split; [done|]; split; [done|cbn; lia]]
  | _ => idtac
  end.

Lemma stop_step_inv i t s p w w' : inv w -> w_threads w !! i = Some t -> t_pc t = Stop s (Return p) ->
  stop_step i t s (Return p) w = Ret tt w' -> inv w'.
Proof.
  intros Hi Ht Hp H. pose proof (core_thread _ (proj1 Hi) i t Ht) as [Hok Hjo]. unfold pc_ok in Hok. rewrite Hp in Hok.
  destruct t as [st de ex jo lo sa pe pc]. cbn in Hp. subst pc. cbn in Hok. destruct Hok as (H1 & H2 & H3 & H4).
  pose (keep := fun t' s' m n => inv_stop i _ t' s s' p m n w Hi Ht eq_refl).
  destruct s; cbn in H, H2, H4.
  - apply cas_or_abort_inv in H as [_ ->]. apply (keep _ Saving (w_ckpt_mtx w) (w_arrived w)); stop_done.
  - injection H as <-. apply (keep _ Saved (w_ckpt_mtx w) (w_arrived w)); stop_done.
  - apply cas_or_abort_inv in H as [_ ->]. apply (keep _ Locking (w_ckpt_mtx w) (w_arrived w)); stop_done.
  - case_decide; [|done]. injection H as <-. apply (keep _ TestSuspend (Some (THREAD i)) (w_arrived w)); stop_done.
  - case_bool_decide as Hl; injection H as <-.
    + apply (keep _ Locking None (w_arrived w)); stop_done.
    + apply (keep _ Arriving (w_ckpt_mtx w) (w_arrived w)); stop_done.
  - injection H as <-. apply (keep _ TestCkpt (w_ckpt_mtx w) (w_arrived w + 1)); stop_done.
  - case_bool_decide as Hl; injection H as <-.
    + apply (keep _ Relocking None (w_arrived w)); stop_done.
    + apply (keep _ Leaving (w_ckpt_mtx w) (w_arrived w)); stop_done.
  - case_decide; [|done]. injection H as <-. apply (keep _ TestCkpt (Some (THREAD i)) (w_arrived w)); stop_done.
  - injection H as <-. apply (keep _ Resuming None (w_arrived w)); stop_done.
  - apply cas_or_abort_inv in H as [_ ->].
    apply (inv_move i _ _ (w_ckpt_mtx w) (w_arrived w) w Ht); try done.
    + split; try done; [by intros [[] _]|by intros [|[[] _]]].
    + split; [|intros E; specialize (Hjo E); done].
      unfold pc_ok. cbn. split; [|congruence]. destruct p; cbn in H1 |- *; try done; auto.
    + intros _ _. by apply (core_listed _ (proj1 Hi) i _ Ht).
    + cbn. intros [= ->]. done.
Qed.

Lemma deliver_inv i w w' : inv w -> deliver i w = Ret tt w' -> inv w'.
Proof.
  intros Hi. unfold deliver. destruct (w_threads w !! i) as [t|] eqn:Ht; [|done].
  destruct t as [st de ex jo lo sa pe pc]. cbn. destruct pc as [p| |]; try done.
  intros H. assert (p <> Dead) as Hd by (by intros ->).
  assert (pe = true /\ w' = set_thread i (ThreadInfo st de ex jo lo sa false (Stop Signaled (Return p))) w) as [-> ->].
  { destruct p, pe; try done; injection H as <-; done. }
  destruct (live_ok i _ p w Hi Ht eq_refl Hd) as (H1 & H2 & H3). specialize (H2 eq_refl). cbn in H2, H3. subst st jo.
  apply (inv_move i _ _ (w_ckpt_mtx w) (w_arrived w) w Ht); try done.
  - split; try done; unfold quiet, asked, dead; cbn; naive_solver.
  - intros. cbn. lia.
  - split; [|done]. unfold pc_ok. cbn. split; [|done]. destruct p; cbn in *; naive_solver.
  - intros _ _. apply (core_listed _ (proj1 Hi) i _ Ht); cbn; [congruence|].
    intros [= ->]. cbn in H1. naive_solver.
  - cbn. intros n [= ->]. cbn in H1. naive_solver.
Qed.

(** Every step of the program's threads keeps the invariant. *)
Lemma thread_step_inv i w w' : inv w -> thread_step i w = Ret tt w' -> inv w'.
Proof.
  intros Hi. unfold thread_step. destruct (w_threads w !! i) as [t|] eqn:Ht; [|done].
  pose proof (core_thread _ (proj1 Hi) i t Ht) as [Hok _]. unfold pc_ok in Hok.
  destruct (t_pc t) as [p|s [p|]|] eqn:Hp; try done.
  - by apply place_step_inv.
  - by apply stop_step_inv.
Qed.

(** ** The steps of the checkpoint thread *)

Lemma core_same w w' : w_threads w' = w_threads w -> w_list w' = w_list w -> core w -> core w'.
Proof. intros H1 H2 [C1 C2 C3 C4]. split; rewrite ?H1, ?H2; done. Qed.
Lemma suspending_same w w' : w_threads w' = w_threads w -> w_lib w' = w_lib w -> w_arrived w' = w_arrived w ->
  suspending w -> suspending w'.
Proof. unfold suspending, every. by intros -> -> ->. Qed.
Lemma suspending_set i t w : suspending w -> below t -> suspending (set_thread i t w).
Proof. intros (H1 & H2 & H3) Hb. split; [done|]. split; [done|]. by apply every_set. Qed.
Lemma waiting_same l e k w w' : w_threads w' = w_threads w -> w_lib w' = w_lib w -> w_arrived w' = w_arrived w ->
  w_list w' = w_list w -> w_list_mtx w' = w_list_mtx w -> waiting l e k w -> waiting l e k w'.
Proof. unfold waiting, passed, suspending, every. by intros -> -> -> -> ->. Qed.

(** A descriptor the scan changes: its lock, its state, its signal. *)
Lemma core_scan i t t' w : core w -> w_threads w !! i = Some t -> t_pc t' = t_pc t -> thread_ok t' -> core (set_thread i t' w).
Proof.
  intros Hc Ht Hp Hok. apply (core_move i t); try done; rewrite Hp; auto. apply (core_listed _ Hc i t Ht).
Qed.
Lemma thread_lock l t : thread_ok t -> thread_ok (with_lock l t).
Proof. done. Qed.
Lemma stopped_state i t w : core w -> w_threads w !! i = Some t -> t_state t = ST_SUSPENDED \/ t_state t = ST_SUSPINPROG -> settled t.
Proof.
  intros Hc Ht Hs. destruct (core_thread _ Hc i t Ht) as [Hok _]. unfold pc_ok, settled, dead, stopped in *.
  destruct (t_pc t) as [p| |]; [|by right|done]. left. destruct Hok as [Hok _]. destruct p; cbn in Hok; naive_solver congruence.
Qed.
Lemma below_pc t t' : t_pc t' = t_pc t -> below t -> below t'.
Proof. unfold below. by intros ->. Qed.

(** A descriptor taken off the list, freed or kept as a zombie. *)
Lemma remove_threads i w j t : w_threads (thread_list_remove i w) !! j = Some t -> w_threads w !! j = Some t.
Proof.
  unfold thread_list_remove. destruct (w_threads w !! i) as [ti|]; [|done]. destruct (t_joined ti); [|done].
  cbn. by intros [? ?]%lookup_delete_Some.
Qed.
Lemma remove_list i w j : j ∈ w_list (thread_list_remove i w) <-> j ∈ w_list w /\ j <> i.
Proof.
  assert (w_list (thread_list_remove i w) = filter (fun j => j <> i) (w_list w)) as ->.
  { unfold thread_list_remove. destruct (w_threads w !! i) as [ti|]; [|done]. by destruct (t_joined ti). }
  rewrite list_elem_of_filter. tauto.
Qed.
Lemma remove_kept i w j : j <> i -> w_threads (thread_list_remove i w) !! j = w_threads w !! j.
Proof.
  intros H. unfold thread_list_remove. destruct (w_threads w !! i) as [ti|]; [|done].
  destruct (t_joined ti); [|done]. cbn. by apply lookup_delete_ne.
Qed.
Lemma remove_rest i w : let w' := thread_list_remove i w in
  w_lib w' = w_lib w /\ w_arrived w' = w_arrived w /\ w_list_mtx w' = w_list_mtx w.
Proof. unfold thread_list_remove. destruct (w_threads w !! i) as [ti|]; [|done]. by destruct (t_joined ti). Qed.
Lemma core_remove i w : core w -> dead_at i w -> core (thread_list_remove i w).
Proof.
  intros [C1 C2 C3 C4] (ti & Hti & Hd). split.
  - intros j t Hj. by apply (C1 j), (remove_threads i).
  - intros j t Hj%remove_threads H1 H2. apply remove_list. split; [by apply (C2 j t)|]. intros ->.
    unfold dead in Hd. congruence.
  - intros j t Hj%remove_threads Hs. destruct (C3 j t Hj Hs) as (c & tc & Hc & Hpc). exists c, tc.
    split; [|done]. rewrite remove_kept; [done|]. intros ->. unfold dead in Hd. congruence.
  - intros j [Hj Hn]%remove_list. rewrite remove_kept by done. by apply C4.
Qed.
Lemma suspending_remove i w : suspending w -> suspending (thread_list_remove i w).
Proof.
  intros (H1 & H2 & H3). destruct (remove_rest i w) as (E1 & E2 & _). split; [by rewrite E1|]. split; [by rewrite E2|].
  intros j t Hj%remove_threads. by apply (H3 j).
Qed.
Lemma passed_remove i l w : passed (i :: l) w -> passed l (thread_list_remove i w).
Proof.
  intros Hp j t [Hj Hn]%remove_list Hr Ht%remove_threads. apply (Hp j t); [done| |done].
  intros [?|?]%elem_of_cons; done.
Qed.

Lemma place_signaled p t : t_state t = ST_RUNNING -> place_ok p t -> place_ok p (with_state ST_SIGNALED t).
Proof. intros H. destruct p; cbn; rewrite ?H; try done; intros [H1 H2]; try congruence; split; auto. Qed.
Lemma scan_step_inv w w' : inv w -> scan_step w = Ret tt w' -> inv w'.
Proof.
  intros [Hc Hp]. unfold scan_step, load_state, with_thread.
  assert (forall c w1, w_threads w1 = w_threads w -> w_list w1 = w_list w -> w_lib w1 = w_lib w -> w_arrived w1 = w_arrived w ->
    suspending w -> (suspending (set_pc c w1) -> phase c (set_pc c w1)) -> inv (set_pc c w1)) as Hsame.
  { intros c w1 E1 E2 E3 E4 Hs Hph. split; [by apply (core_same w)|]. apply Hph. by apply (suspending_same w). }
  assert (forall c i t t', suspending w -> w_threads w !! i = Some t -> t_pc t' = t_pc t -> (thread_ok t -> thread_ok t') ->
    (suspending (set_pc c (set_thread i t' w)) -> phase c (set_pc c (set_thread i t' w))) -> inv (set_pc c (set_thread i t' w))) as Hset.
  { intros c i t t' Hs Ht Hpc Hok Hph. pose proof (core_thread _ Hc i t Ht) as Hto. split.
    - apply (core_same (set_thread i t' w)); [done|done|]. apply (core_scan i t); auto.
    - apply Hph. apply (suspending_same (set_thread i t' w)); [done..|]. apply suspending_set; [done|].
      apply (below_pc t); [done|]. by apply (proj2 (proj2 Hs) i). }
  assert (forall i t, w_threads w !! i = Some t -> esrch t = true -> dead t) as Hes by (intros i t _; apply bool_decide_eq_true).
  destruct (w_pc w) as [| | | | | |[|i l] n r|i l n r|i l n r|i l n r|i l n r|i l n r|i l n r|i l n r|i l n r|i l n r|i l n r|i l n r|n r|n r| | | | | | | | | | | | | | | | | | | | |];
    cbn [phase] in Hp; try done.
  - intros [= <-]. by apply Hsame.
  - destruct (w_threads w !! i) as [t|] eqn:Ht; [|done]. destruct (is_state _ t); [done|]. intros [= <-].
    destruct (t_exiting t); [by apply Hsame|]. destruct (t_joined t) eqn:Ej; [|by apply Hsame].
    apply Hsame; try done. intros Hs. split; [done|]. exists t. split; [done|]. by apply (core_thread _ Hc i t Ht).
  - intros [= <-]. destruct Hp as [Hs Hd]. split.
    + apply (core_same (thread_list_remove i w)); [done|done|]. by apply core_remove.
    + apply (suspending_same (thread_list_remove i w)); [done..|]. by apply suspending_remove.
  - destruct (w_threads w !! i) as [t|] eqn:Ht; [|done]. case_decide; [|done]. intros [= <-]. by apply (Hset _ i t).
  - destruct (w_threads w !! i) as [t|] eqn:Ht; [|done].
    destruct (thread_state_cas ST_RUNNING ST_SIGNALED t) as [t1|] eqn:E; intros [= <-]; [|by apply Hsame].
    apply cas_Some in E as [Hst ->]. pose proof (core_thread _ Hc i t Ht) as [Hok Hj]. unfold pc_ok in Hok.
    apply (Hset _ i t); try done.
    + intros _. split; [|done]. unfold pc_ok. cbn. destruct (t_pc t) as [p|s [p|]|]; try done.
      * destruct Hok as [Hok _]. split; [by apply place_signaled|done].
      * destruct Hok as (_ & Hx & _). destruct s; cbn in Hx; congruence.
    + intros Hs. split; [done|]. exists (with_state ST_SIGNALED t). split; [by apply lookup_insert_eq|].
      unfold asked, dead, stopped. cbn. destruct (t_pc t) as [p|s [p|]|]; try done.
      * destruct (decide (p = Dead)) as [->|Hd]; [by left|]. right. destruct Hok as [_ Hok].
        destruct (t_pending t); [|split; [by intros []|done]]. specialize (Hok Hd eq_refl). congruence.
      * destruct Hok as (_ & Hx & _). destruct s; cbn in Hx; congruence.
  - destruct Hp as [Hs (ta & Hta & Ha)]. destruct (w_threads w !! i) as [t|] eqn:Ht; [|done]. injection Hta as <-.
    destruct (esrch t) eqn:Ed; intros [= <-].
    + apply (Hset _ i t); try done. intros Hs'. split; [done|]. exists (with_lock None t).
      split; [by apply lookup_insert_eq|]. by apply (Hes i t).
    + apply (Hset _ i t); try done. unfold esrch in Ed. apply bool_decide_eq_false in Ed.
      destruct Ha as [Ha|(Hns & Hst & _)]; [done|]. intros [Hok Hj]. split; [|done]. unfold pc_ok in *. cbn.
      unfold stopped in Hns. destruct (t_pc t) as [p|s [p|]|]; try done. split; [apply Hok|done].
  - destruct (w_threads w !! i) as [t|] eqn:Ht; [|done]. intros [= <-]. destruct (is_state _ t); by apply Hsame.
  - destruct (w_threads w !! i) as [t|] eqn:Ht; [|done]. destruct (esrch t) eqn:Ed; intros [= <-]; [|by apply Hsame].
    apply (Hset _ i t); try done. intros Hs'. split; [done|]. exists (with_lock None t).
    split; [by apply lookup_insert_eq|]. by apply (Hes i t).
  - destruct (w_threads w !! i) as [t|] eqn:Ht; [|done]. intros [= <-]. destruct (is_state _ t); by apply Hsame.
  - destruct (w_threads w !! i) as [t|] eqn:Ht; [|done]. intros [= <-]. destruct (is_state _ t); by apply Hsame.
  - destruct (w_threads w !! i) as [t|] eqn:Ht; [|done]. intros [= <-]. destruct (is_state _ t); by apply Hsame.
  - destruct (w_threads w !! i) as [t|] eqn:Ht; [|done]. intros [= <-]. destruct (is_state _ t); by apply Hsame.
  - destruct (w_threads w !! i) as [t|] eqn:Ht; [|done]. intros [= <-]. by apply (Hset _ i t).
  - intros [= <-]. by apply Hsame.
  - intros [= <-]. destruct r; by apply Hsame.
Qed.

Lemma waiting_remove i l e k w : waiting (i :: l) e k w -> waiting l e k (thread_list_remove i w).
Proof.
  intros (H1 & H2 & H3 & H4). destruct (remove_rest i w) as (_ & _ & E). split; [by apply suspending_remove|].
  split; [by rewrite E|]. split; [done|]. intros He. apply passed_remove; auto.
Qed.
Lemma waiting_settled i l e k w t : waiting (i :: l) e k w -> w_threads w !! i = Some t -> settled t -> waiting l e k w.
Proof.
  intros (H1 & H2 & H3 & H4) Ht Hs. split; [done|]. split; [done|]. split; [done|]. intros He j tj Hj Hr Htj.
  destruct (decide (j = i)) as [->|Hn]; [congruence|]. apply (H4 He j tj); [done| |done].
  intros [?|?]%elem_of_cons; done.
Qed.
(** After a pass that found every exiting thread dead, no thread runs: one
    still to be listed would need the thread that created it. *)
Lemma all_settled w : core w -> passed [] w -> every settled w.
Proof.
  intros [C1 C2 C3 C4] Hp i t Ht. destruct (decide (t_pc t = At Dead)) as [|Hd]; [by left|].
  destruct (decide (t_pc t = At Starting)) as [Hs|Hs].
  - exfalso. destruct (C3 i t Ht Hs) as (c & tc & Hc & Hpc).
    assert (c ∈ w_list w) as Hl by (apply (C2 c tc Hc); rewrite Hpc; done).
    pose proof (Hp c tc Hl ltac:(apply not_elem_of_nil) Hc) as Hx. unfold settled, dead, stopped in Hx. rewrite Hpc in Hx.
    naive_solver.
  - apply (Hp i t); [by apply (C2 i t)|apply not_elem_of_nil|done].
Qed.

Lemma wait_step_inv w w' : inv w -> wait_step w = Ret tt w' -> inv w'.
Proof.
  intros [Hc Hp]. unfold wait_step, load_state, with_thread.
  assert (forall l e k c, waiting l e k w -> (waiting l e k (set_pc c w) -> phase c (set_pc c w)) -> inv (set_pc c w)) as Hsame.
  { intros l e k c Hs Hph. split; [by apply (core_same w)|]. apply Hph. by apply (waiting_same l e k w). }
  assert (forall l e k c i, waiting (i :: l) e k w -> dead_at i w ->
    (waiting l e k (set_pc c (thread_list_remove i w)) -> phase c (set_pc c (thread_list_remove i w))) ->
    inv (set_pc c (thread_list_remove i w))) as Hrem.
  { intros l e k c i Hs Hd Hph. split.
    - apply (core_same (thread_list_remove i w)); [done|done|]. by apply core_remove.
    - apply Hph. apply (waiting_same l e k (thread_list_remove i w)); [done..|]. by apply waiting_remove. }
  destruct (w_pc w) as [| | | | | |?|?|?|?|?|?|?|?|?|?|?|?|?|?| |[|i l] e k|i l e k|i l e k|i l e k|i l e k|e k| | | | | | | | | | | | | |];
    cbn [phase] in Hp; try done.
  - case_decide; [|done]. intros [= <-]. split; [by apply (core_same w)|].
    split; [by apply (suspending_same w)|]. split; [done|]. split; [done|]. intros _ j t Hj []. done.
  - intros [= <-]. by apply (Hsame [] e k).
  - destruct (w_threads w !! i) as [t|] eqn:Ht; [|done]. intros [= <-].
    destruct (t_joined t) eqn:Ej; cbn [orb negb].
    + apply (Hsame (i :: l) e k); [done|]. intros Hw. split; [done|]. exists t. split; [done|].
      by apply (core_thread _ Hc i t Ht).
    + destruct (t_exiting t); cbn [negb]; [|by apply (Hsame (i :: l) e k)].
      apply (Hsame (i :: l) e k); [done|]. cbn [phase]. by rewrite Z.add_simpl_r.
  - destruct (w_threads w !! i) as [t|] eqn:Ht; [|done]. intros [= <-]. destruct (is_state _ t) eqn:Es.
    + apply is_state_spec in Es. apply (Hsame l e k); [|done]. apply (waiting_settled i l e k w t Hp Ht).
      apply (stopped_state i t w Hc Ht). by left.
    + by apply (Hsame (i :: l) e k).
  - destruct (w_threads w !! i) as [t|] eqn:Ht; [|done]. destruct (is_state _ t) eqn:Es; [|done]. intros [= <-].
    apply is_state_spec in Es. apply (Hsame l e k); [|done]. apply (waiting_settled i l e k w t Hp Ht).
    apply (stopped_state i t w Hc Ht). by right.
  - intros [= <-]. destruct Hp as [Hw Hd]. by apply (Hrem l e k).
  - destruct (w_threads w !! i) as [t|] eqn:Ht; [|done]. destruct (esrch t) eqn:Ed; intros [= <-].
    + apply bool_decide_eq_true in Ed. apply (Hrem l (e - 1) k); [done|by exists t|].
      intros (H1 & H2 & H3 & H4). split; [done|]. split; [done|]. split; [lia|]. intros He. apply H4. lia.
    + destruct Hp as (H1 & H2 & H3 & H4). split; [by apply (core_same w)|].
      split; [by apply (suspending_same w)|]. split; [done|]. split; [lia|]. intros He. lia.
  - intros [= <-]. destruct Hp as (H1 & H2 & H3 & H4). split; [by apply (core_same w)|].
    destruct (Z.eqb_spec e k) as [He|He]; cbn [phase].
    + split; [by apply (suspending_same w)|]. intros j t Hj. by apply (all_settled w Hc (H4 He) j).
    + by apply (suspending_same w).
Qed.

Lemma gate_empty w : every below w -> size (at_gate w) = 0%nat.
Proof.
  intros Hb. assert (at_gate w = ∅) as ->; [|apply map_size_empty]. apply map_empty. intros j. apply map_lookup_filter_None.
  destruct (w_threads w !! j) as [t|] eqn:Hj; [|by left]. right. intros t' [= <-] Ha. specialize (Hb j t Hj).
  unfold below in Hb. cbn in Ha. unfold arrived in Ha. destruct (t_pc t) as [|[]|]; done.
Qed.
Lemma held_same w w' : w_threads w' = w_threads w -> w_lib w' = w_lib w -> w_arrived w' = w_arrived w -> held w -> held w'.
Proof. unfold held, every, at_gate. by intros -> -> ->. Qed.

Lemma ckpt_step_inv w w' : inv w -> ckpt_step w = Ret tt w' -> inv w'.
Proof.
  intros Hi. pose proof Hi as [Hc Hp]. pose proof (scan_step_inv w w' Hi) as Hscan. pose proof (wait_step_inv w w' Hi) as Hwait.
  unfold ckpt_step.
  assert (forall c w1, w_threads w1 = w_threads w -> w_list w1 = w_list w -> phase c (set_pc c w1) -> inv (set_pc c w1)) as Hsame.
  { intros c w1 E1 E2 Hph. split; [by apply (core_same w)|done]. }
  destruct (w_pc w) as [| | | | | |?|?|?|?|?|?|?|?|?|?|?|?|?|?| |?|?|?|?|?|?|[]|[]|[]|[]| | | | | | | | | |];
    cbn [phase] in Hp; try done.
  - intros [= <-]. by apply Hsame.
  - intros [= <-]. destruct Hp. by apply Hsame.
  - intros [= <-]. apply Hsame; [done..|]. destruct Hp as [Hl Hq]. split; [done|]. split; [done|].
    intros j t Hj. destruct (Hq j t Hj) as [Hn _]. unfold below, stopped in *. by destruct (t_pc t).
  - case_decide; [|done]. intros [= <-]. apply Hsame; [done..|]. by apply (suspending_same w).
  - case_decide; [|done]. intros [= <-]. apply Hsame; [done..|]. by apply (suspending_same w).
  - case_decide; [|done]. intros [= <-]. apply Hsame; [done..|]. destruct Hp. split; [by apply (suspending_same w)|done].
  - intros [= <-]. apply Hsame; [done..|]. destruct Hp as ((H1 & H2 & H3) & H4). split; [done|]. split; [done|].
    split.
    + intros j t Hj. specialize (H3 j t Hj). unfold below, gated in *. by destruct (t_pc t) as [|[]|].
    + change (w_arrived w = Z.of_nat (size (at_gate w))). by rewrite gate_empty.
  - intros [= <-]. destruct (Z.ltb_spec (w_arrived w) (w_expected w)); by apply Hsame.
  - case_decide; [|done]. intros [= <-]. apply Hsame; [done..|]. by apply (held_same w).
  - intros [= <-]. apply Hsame; [done..|]. destruct Hp. split; [by apply (held_same w)|done].
  - case_decide; [|done]. intros [= <-]. apply Hsame; [done..|]. destruct Hp. split; [by apply (held_same w)|done].
  - intros [= <-]. by apply Hsame.
  - intros [= <-]. by apply Hsame.
Qed.

Lemma within_inv w w' : inv w -> within w w' -> inv w'.
Proof.
  intros Hi (a & Ha1 & Ha2 & H). destruct a; cbn in H; try done.
  - by apply (ckpt_step_inv w).
  - by apply (thread_step_inv i w).
  - by apply (call_hook_inv i create w).
  - by apply (spawn_inv i n w).
  - by apply (call_exit_inv i w).
  - by apply (call_join_inv i j w).
  - by apply (finish_inv i w).
  - by apply (deliver_inv i w).
Qed.

(** ** What holds while the image is written *)

(** A process as a checkpoint finds it: its threads anywhere in their own
    code, none of them in the handler or asked to enter it, every one listed
    but those whose creator still waits for them. *)
Definition round_start w : Prop :=
  w_pc w = CPending /\ w_lib w = XND_CKPT_PENDING /\ core w /\ every quiet w.

Definition live w : gmap tid thread_info := filter (fun it => t_pc it.2 <> At Dead) (w_threads w).

Lemma gate_live w : at_gate w ⊆ live w.
Proof.
  apply map_subseteq_spec. intros i t [Ht Ha]%map_lookup_filter_Some. apply map_lookup_filter_Some. split; [done|].
  cbn in *. unfold arrived in Ha. by destruct (t_pc t).
Qed.
(** When as many have arrived as there are threads, all have. *)
Lemma all_arrived w i t : Z.of_nat (size (live w)) <= Z.of_nat (size (at_gate w)) ->
  w_threads w !! i = Some t -> t_pc t <> At Dead -> arrived t.
Proof.
  intros Hs Ht Hd. pose proof (map_subseteq_size_eq _ _ (gate_live w) ltac:(lia)) as He.
  assert (live w !! i = Some t) as Hl by (by apply map_lookup_filter_Some).
  rewrite <- He in Hl. by apply map_lookup_filter_Some in Hl as [_ ?].
Qed.

Lemma written_held w0 w : round_start w0 -> reach within w0 w -> w_pc w = CWrite -> core w /\ held w /\ w_expected w <= w_arrived w.
Proof.
  intros (Hp & Hl & Hc & Hq) Hr Hw. assert (inv w) as [Hcw Hph].
  { apply (reach_invariant within inv w0); [|apply within_inv|done]. split; [done|]. by rewrite Hp. }
  rewrite Hw in Hph. done.
Qed.

(** C5. In a checkpoint that starts with no thread still in the handler of the
    one before ([round_start]: the first checkpoint, and each that is asked for
    after every thread has left the barrier), no thread of the program runs
    while the image is written, however the steps of the threads interleave:
    each is dead or in the handler, inside the signal's interruption of its own
    code, and the barrier keeps it there.  At least as many wait in the barrier as the suspension counted; if it
    counted every thread, all wait there with their context saved.  A checkpoint
    that starts with a thread still in the handler may write its image while
    that thread runs ([ThreadsWorld.second_round_image]). *)
Theorem image_written_alone w0 w : round_start w0 -> reach within w0 w -> w_pc w = CWrite ->
  w_lib w = XND_CKPTINPROG /\
  (forall i t, w_threads w !! i = Some t -> t_pc t <> At Dead ->
    exists s p, t_pc t = Stop s (Return p) /\ s <> Leaving /\ s <> Resuming) /\
  w_expected w <= Z.of_nat (size (at_gate w)) /\
  (w_expected w = Z.of_nat (size (live w)) ->
   forall i t, w_threads w !! i = Some t -> t_pc t <> At Dead ->
     arrived t /\ t_state t = ST_SUSPENDED /\ exists s p, t_pc t = Stop s (Return p) /\ t_saved t = Some p).
Proof.
  intros H0 Hr Hw. destruct (written_held w0 w H0 Hr Hw) as (Hc & (H1 & H2 & H3 & H4) & H5).
  split; [done|]. split; [|split; [lia|]].
  - intros i t Ht Hd. destruct (H2 i t Ht) as [?|Hs]; [done|]. pose proof (H3 i t Ht) as Hg.
    destruct (core_thread _ Hc i t Ht) as [Hok _]. unfold pc_ok, stopped, gated in *.
    destruct (t_pc t) as [|s [p|]|]; try done. exists s, p. destruct s; done.
  - intros He i t Ht Hd. assert (arrived t) as Ha by (apply (all_arrived w i); [lia|done|done]).
    split; [done|]. destruct (core_thread _ Hc i t Ht) as [Hok _]. unfold pc_ok, arrived in *.
    destruct (t_pc t) as [|s [p|]|]; try done. destruct Hok as (_ & Hs & _ & Hsa).
    destruct s; try done; (split; [done|by eexists _, p]).
Qed.
