(* ===== verification/ThreadsHang.v ===== *)
(** How the suspension of [Threads] goes wrong: the interleavings that hang a
    checkpoint, or write the image while a thread still runs its handler. *)

From S2P Require Import Prelude Process Threads ThreadsSafe.
Open Scope Z_scope.

Implicit Types w : process.
Implicit Types t : thread_info.

(** ** What a step of the program's threads leaves alone *)

(** Outside the handler with no signal on its way, or past the barrier's
    count: the thread does not arrive at this barrier any more. *)
Definition spent t : Prop :=
  match t_pc t with
  | At _ => t_pending t = false
  | Stop (TestCkpt | Relocking | Leaving | Resuming) (Return _) => t_pending t = false
  | _ => False
  end.
Record drifts (lib : xnd_state) t t' : Prop := {
  dr_exiting : t_exiting t = true -> t_exiting t' = true;
  dr_stopped : lib = XND_SUSPINPROG -> below t -> stopped t -> stopped t';
  dr_spent : spent t -> spent t'
}.
Record frame w w' : Prop := {
  fr_pc : w_pc w' = w_pc w;
  fr_lib : w_lib w' = w_lib w;
  fr_expected : w_expected w' = w_expected w;
  fr_arrived : w_arrived w' = w_arrived w \/ exists i t a, w_threads w !! i = Some t /\ t_pc t = Stop Arriving a;
  fr_list : forall i, i ∈ w_list w -> i ∈ w_list w';
  fr_old : forall i t, w_threads w !! i = Some t -> exists t', w_threads w' !! i = Some t' /\ drifts (w_lib w) t t';
  fr_new : forall i t', w_threads w' !! i = Some t' -> w_threads w !! i = None -> t' = thread_init
}.

Lemma drifts_refl lib t : drifts lib t t.
Proof. by split. Qed.
Lemma drifts_place lib t t' p p' : t_pc t = At p -> t_pc t' = At p' -> t_exiting t' = t_exiting t -> t_pending t' = t_pending t ->
  drifts lib t t'.
Proof. intros H1 H2 H3 H4. split; unfold stopped, spent; rewrite ?H1, ?H2, ?H3, ?H4; done. Qed.

(** One descriptor, and whatever the step does to the mutex. *)
Lemma frame_set i t t' m w : w_threads w !! i = Some t -> drifts (w_lib w) t t' ->
  frame w (set_ckpt_mtx m (set_thread i t' w)).
Proof.
  intros Ht Hd. split; try done; [by left| |].
  - intros j tj Hj. cbn [w_threads set_ckpt_mtx]. rewrite lookup_set_thread. case_decide as E.
    + subst j. exists t'. split; [done|]. congruence.
    + exists tj. split; [done|apply drifts_refl].
  - intros j tj. cbn [w_threads set_ckpt_mtx]. rewrite lookup_set_thread. case_decide; congruence.
Qed.
Lemma frame_one i t t' w : w_threads w !! i = Some t -> drifts (w_lib w) t t' -> frame w (set_thread i t' w).
Proof. apply (frame_set i t t' (w_ckpt_mtx w)). Qed.
Lemma frame_two i j ti ti' tj tj' w : w_threads w !! i = Some ti -> w_threads w !! j = Some tj ->
  drifts (w_lib w) ti ti' -> drifts (w_lib w) tj tj' ->
  frame w (set_thread i ti' (set_thread j tj' w)).
Proof.
  intros Hi Hj Hdi Hdj. split; try done; [by left| |].
  - intros x tx Hx. rewrite !lookup_set_thread. repeat case_decide; subst.
    + exists ti'. split; [done|]. congruence.
    + exists tj'. split; [done|]. congruence.
    + exists tx. split; [done|apply drifts_refl].
  - intros x tx. rewrite !lookup_set_thread. repeat case_decide; congruence.
Qed.

Lemma place_step_frame i t p w w' : w_threads w !! i = Some t -> t_pc t = At p ->
  place_step i t p w = Ret tt w' -> frame w w'.
Proof.
  intros Ht Hp H.
  assert (forall t' p', t_pc t' = At p' -> t_exiting t' = t_exiting t -> t_pending t' = t_pending t -> drifts (w_lib w) t t') as Hd.
  { intros t' p' H1 H2 H3. by apply (drifts_place _ _ _ p p'). }
  assert (forall k, t_exiting (enter k t) = t_exiting t /\ t_pending (enter k t) = t_pending t) as He by done.
  destruct p as [| | |k|[| |n|j]| | | |j|j|]; cbn in H; try done.
  - case_decide; [|done]. injection H as <-.
    assert (frame w (set_thread i (goto (At Listed) t) w)) as [F1 F2 F3 F4 F5 F6 F7] by (eapply frame_one; [done|by eapply Hd]).
    split; try done. intros j Hj. by apply list_elem_of_further.
  - case_decide; [|done]. injection H as <-. eapply frame_one; [done|by eapply Hd].
  - destruct (thread_state_cas _ _ t) as [t1|] eqn:E; [|done]. apply cas_Some in E as [_ ->]. injection H as <-.
    eapply frame_one; [done|by eapply Hd].
  - injection H as <-. eapply frame_one; [done|]. unfold leave.
    case_match; [unfold thread_state_cas; case_match|]; by eapply Hd.
  - destruct (w_threads w !! n); [|done]. case_decide; [|done]. case_match; [done|]. injection H as <-.
    eapply frame_one; [done|by eapply Hd].
  - destruct (w_threads w !! j) as [tj|] eqn:Hj; [|done]. case_decide; [|done]. injection H as <-.
    eapply frame_two; [done|done|by eapply Hd|by split].
  - case_decide; [|done]. injection H as <-. eapply frame_one; [done|by eapply Hd].
  - injection H as <-. eapply frame_one; [done|]. split; unfold stopped, spent; cbn; rewrite ?Hp; done.
  - injection H as <-. eapply frame_one; [done|by eapply Hd].
  - destruct (w_threads w !! j) as [tj|] eqn:Hj; [|done]. case_decide; [|done]. injection H as <-.
    eapply frame_two; [done|done|by eapply Hd|by split].
  - destruct (w_threads w !! j) as [tj|] eqn:Hj; [|done]. injection H as <-.
    eapply frame_two; [done|done| |by split]. destruct (t_exiting tj); [|by eapply Hd].
    unfold enter. by eapply Hd.
Qed.
Lemma frame_cas i t s d next w w' : w_threads w !! i = Some t -> drifts (w_lib w) t (goto next (with_state d t)) ->
  cas_or_abort i t s d next w = Ret tt w' -> frame w w'.
Proof. intros Ht Hd H. apply cas_or_abort_inv in H as [_ ->]. by apply (frame_one i t). Qed.
Lemma stop_step_frame i t s p w w' : w_threads w !! i = Some t -> t_pc t = Stop s (Return p) ->
  stop_step i t s (Return p) w = Ret tt w' -> frame w w'.
Proof.
  intros Ht Hp H. destruct t as [st de ex jo lo sa pe pc]. cbn in Hp. subst pc.
  destruct s; cbn in H.
  - eapply frame_cas; [done| |done]. by split.
  - injection H as <-. apply (frame_one i _ _ _ Ht). by split.
  - eapply frame_cas; [done| |done]. by split.
  - case_decide; [|done]. injection H as <-. apply (frame_set i _ _ _ _ Ht). by split.
  - case_bool_decide; injection H as <-; [apply (frame_set i _ _ _ _ Ht)|apply (frame_one i _ _ _ Ht)]; by split.
  - injection H as <-. assert (frame w (set_thread i (goto (Stop TestCkpt (Return p)) (ThreadInfo st de ex jo lo sa pe (Stop Arriving (Return p)))) w)) as [F1 F2 F3 F4 F5 F6 F7].
    { apply (frame_one i _ _ _ Ht). by split. }
    split; try done. right. by eexists i, _, _.
  - case_bool_decide; injection H as <-; [apply (frame_set i _ _ _ _ Ht)|apply (frame_one i _ _ _ Ht)]; by split.
  - case_decide; [|done]. injection H as <-. apply (frame_set i _ _ _ _ Ht). by split.
  - injection H as <-. apply (frame_set i _ _ _ _ Ht). by split.
  - eapply frame_cas; [done| |done]. by split.
Qed.

(** No thread is coming back from an image. *)
Definition ordinary t : Prop := match t_pc t with At _ | Stop _ (Return _) => True | _ => False end.
Definition of_program (a : action) : Prop := match a with Ckpt | Request | Restart => False | _ => True end.

Lemma program_frame a w w' : every ordinary w -> of_program a -> do a w = Ret tt w' -> frame w w'.
Proof.
  intros Ho Ha H.
  assert (forall i t t' p, w_threads w !! i = Some t -> t_pc t = At Running -> t_pc t' = At p -> t_exiting t' = t_exiting t ->
    t_pending t' = t_pending t -> frame w (set_thread i t' w)) as Hrun.
  { intros i t t' p Ht Hp H1 H2 H3. apply (frame_one i t); [done|]. by apply (drifts_place _ _ _ Running p). }
  destruct a as [|i|i b|i n|i|i j|i|i| |]; cbn in H; try done.
  - unfold thread_step in H. destruct (w_threads w !! i) as [t|] eqn:Ht; [|done].
    pose proof (Ho i t Ht) as Hi. unfold ordinary in Hi. destruct (t_pc t) as [p|s [p|]|] eqn:Hp; try done.
    + by apply (place_step_frame i t p).
    + by apply (stop_step_frame i t s p).
  - apply when_at_inv in H as (t & Ht & Hp & [= <-]). unfold enter. by eapply Hrun.
  - apply when_at_inv in H as (t & Ht & Hp & H). case_decide as Hn; [|done]. injection H as <-.
    assert (i <> n) as Hne by congruence. split; try done; [by left| |].
    + intros x tx Hx. rewrite !lookup_set_thread. repeat case_decide; subst; try congruence.
      * eexists. split; [done|]. assert (tx = t) as -> by congruence. eapply drifts_place; done.
      * eexists. split; [done|apply drifts_refl].
    + intros x tx. rewrite !lookup_set_thread. repeat case_decide; congruence.
  - apply when_at_inv in H as (t & Ht & Hp & [= <-]). by eapply Hrun.
  - apply when_at_inv in H as (t & Ht & Hp & H). case_decide; [done|]. injection H as <-. by eapply Hrun.
  - apply when_at_inv in H as (t & Ht & Hp & H). destruct (t_exiting t) eqn:E; [|done]. injection H as <-. by eapply Hrun.
  - unfold deliver in H. destruct (w_threads w !! i) as [t|] eqn:Ht; [|done].
    destruct t as [st de ex jo lo sa pe [p| |]]; try done; cbn in H.
    assert (pe = true /\ w' = set_thread i (ThreadInfo st de ex jo lo sa false (Stop Signaled (Return p))) w) as [-> ->].
    { destruct p, pe; try done; injection H as <-; done. }
    apply (frame_one i _ _ _ Ht). split; unfold stopped, spent; cbn; done.
Qed.

(** ** A thread interrupted while it exits *)

Definition in_wait (c : ckpt_pc) : Prop :=
  match c with
  | CWLock | CWScan _ _ _ | CWAssert _ _ _ _ | CWAssert2 _ _ _ _ | CWJoined _ _ _ _ | CWProbe _ _ _ _ | CWUnlock _ _ => True
  | _ => False
  end.
(** The pass has still to meet descriptor [i], or has counted it alive. *)
Definition meets (i : tid) (c : ckpt_pc) : Prop :=
  match c with
  | CWLock => True
  | CWScan l e k => i ∈ l \/ k < e
  | CWAssert j l e k | CWAssert2 j l e k | CWJoined j l e k => j <> i /\ (i ∈ l \/ k < e)
  | CWProbe j l e k => j = i \/ i ∈ l \/ k < e - 1
  | CWUnlock e k => k < e
  | _ => False
  end.
Definition hung (i : tid) w : Prop :=
  inv w /\ i ∈ w_list w /\ (exists t, w_threads w !! i = Some t /\ t_exiting t = true /\ stopped t) /\ meets i (w_pc w).

Lemma inv_ordinary w : inv w -> every ordinary w.
Proof.
  intros [Hc _] i t Ht. destruct (core_thread _ Hc i t Ht) as [Hok _]. unfold pc_ok, ordinary in *.
  by destruct (t_pc t) as [|s [|]|].
Qed.
Lemma meets_suspending i w : inv w -> meets i (w_pc w) -> suspending w.
Proof. intros [_ Hp] Hm. destruct (w_pc w); try done; cbn in Hp; apply Hp. Qed.
Lemma stopped_dead t : stopped t -> ~ dead t.
Proof. unfold stopped, dead. by destruct (t_pc t). Qed.

Lemma hung_wait_step i w w' : hung i w -> wait_step w = Ret tt w' -> hung i w'.
Proof.
  intros (Hi & Hl & (t & Ht & Hex & Hst) & Hm) H. pose proof (wait_step_inv w w' Hi H) as Hi'.
  pose proof (stopped_dead t Hst) as Hnd. pose proof Hi as [Hc Hp].
  assert (t_joined t = false) as Hj.
  { destruct (t_joined t) eqn:E; [|done]. destruct (core_thread _ Hc i t Ht) as [_ Hjd]. by destruct (Hnd (Hjd E)). }
  assert (forall j, j <> i -> i ∈ w_list (thread_list_remove j w) /\ w_threads (thread_list_remove j w) !! i = Some t) as Hrem.
  { intros j Hn. split; [by apply remove_list|]. by rewrite remove_kept. }
  split; [done|]. clear Hi'. unfold wait_step, load_state, with_thread in H.
  destruct (w_pc w) as [| | | | | |?|?|?|?|?|?|?|?|?|?|?|?|?|?| |[|j l] e k|j l e k|j l e k|j l e k|j l e k|e k| | | | | | | | | | | | | |];
    cbn [meets phase] in Hm, Hp; try done.
  - case_decide; [|done]. injection H as <-. split; [done|]. split; [by exists t|]. by left.
  - injection H as <-. split; [done|]. split; [by exists t|]. destruct Hm as [[]%not_elem_of_nil|Hm]. done.
  - destruct (w_threads w !! j) as [tj|] eqn:Htj; [|done]. injection H as <-. split; [done|]. split; [by exists t|].
    destruct (decide (j = i)) as [->|Hn].
    + assert (tj = t) as -> by congruence. rewrite Hj, Hex. cbn. by left.
    + assert (i ∈ l \/ k < e) as Hm' by (destruct Hm as [[?|?]%elem_of_cons|?]; [congruence|by left|by right]).
      destruct (t_joined tj), (t_exiting tj); cbn; try (by split). right. destruct Hm'; [by left|right; lia].
  - destruct (w_threads w !! j) as [tj|] eqn:Htj; [|done]. injection H as <-. split; [done|]. split; [by exists t|].
    destruct (is_state _ tj); [apply Hm|done].
  - destruct (w_threads w !! j) as [tj|] eqn:Htj; [|done]. destruct (is_state _ tj); [|done]. injection H as <-.
    split; [done|]. split; [by exists t|]. apply Hm.
  - injection H as <-. destruct Hm as [Hn Hm]. destruct (Hrem j Hn). split; [done|]. split; [by exists t|]. done.
  - destruct (w_threads w !! j) as [tj|] eqn:Htj; [|done]. destruct Hp as (_ & _ & Hke & _).
    destruct (esrch tj) eqn:Ed; injection H as <-.
    + apply bool_decide_eq_true in Ed. assert (j <> i) as Hn by (intros ->; congruence). destruct (Hrem j Hn).
      split; [done|]. split; [by exists t|]. destruct Hm as [?|[?|?]]; [done|by left|right; lia].
    + split; [done|]. split; [by exists t|]. destruct Hm as [?|[?|?]]; [right; lia|by left|right; lia].
  - injection H as <-. split; [done|]. split; [by exists t|]. cbn. rewrite (proj2 (Z.eqb_neq e k)) by lia. done.
Qed.

Lemma hung_step i w w' : hung i w -> step w w' -> hung i w'.
Proof.
  intros Hh (a & H). pose proof Hh as (Hi & Hl & (t & Ht & Hex & Hst) & Hm).
  assert (of_program a \/ a = Ckpt) as [Ha| ->].
  { destruct a; try (by left); [by right| |]; cbn in H; unfold request, restart in H; destruct (w_pc w); done. }
  - pose proof (program_frame a w w' (inv_ordinary w Hi) Ha H) as [F1 F2 F3 F4 F5 F6 F7].
    pose proof (meets_suspending i w Hi Hm) as (Hs & _ & Hb).
    assert (within w w') as Hw by (exists a; split; [by intros ->|split; [by intros ->|done]]).
    split; [by apply (within_inv w)|]. split; [auto|]. split; [|by rewrite F1].
    destruct (F6 i t Ht) as (t' & Ht' & [D1 D2 _]). exists t'. split; [done|]. split; [auto|].
    apply D2; [done|by apply (Hb i)|done].
  - apply (hung_wait_step i w); [done|]. cbn in H. unfold ckpt_step in H. destruct (w_pc w); done.
Qed.

(** C38. A thread that the checkpoint signal interrupts while it exits hangs the
    checkpoint for ever: the checkpoint thread waits for it to end, and it
    waits in the handler for the checkpoint thread. *)
Theorem exiting_thread_hangs w (i : tid) t : inv w -> w_pc w = CWLock ->
  i ∈ w_list w -> w_threads w !! i = Some t -> t_exiting t = true -> stopped t ->
  forall w', reach step w w' -> in_wait (w_pc w') /\ exists t', w_threads w' !! i = Some t' /\ stopped t'.
Proof.
  intros Hi Hp Hl Ht Hex Hst w' Hr. assert (hung i w') as (_ & _ & (t' & Ht' & _ & Hst') & Hm).
  { apply (reach_invariant step (hung i) w); [|apply hung_step|done]. split; [done|]. split; [done|].
    split; [by exists t|]. by rewrite Hp. }
  split; [|by exists t']. by destruct (w_pc w').
Qed.

(** ** A thread that leaves the barrier late *)

Definition stuck (x : Z * Z) w : Prop :=
  (w_pc w = CArrTest false \/ w_pc w = CArrRelock false) /\ every spent w /\
  (w_arrived w, w_expected w) = x.
Lemma spent_ordinary t : spent t -> ordinary t.
Proof. unfold spent, ordinary. by destruct (t_pc t) as [|[] [|]|]. Qed.
Lemma stuck_step x w w' : x.1 < x.2 -> stuck x w -> step w w' -> stuck x w'.
Proof.
  intros Hlt (Hp & Hs & Hx) (a & H). assert (of_program a \/ a = Ckpt) as [Ha| ->].
  { destruct a; try (by left); [by right| |]; cbn in H; unfold request, restart in H; destruct Hp as [Hp|Hp]; by rewrite Hp in H. }
  - assert (every ordinary w) as Ho by (intros i t Ht; apply spent_ordinary; by apply (Hs i)).
    pose proof (program_frame a w w' Ho Ha H) as [F1 F2 F3 F4 F5 F6 F7].
    split; [by rewrite F1|]. split.
    + intros i t' Ht'. destruct (w_threads w !! i) as [t|] eqn:Ht; [|by rewrite (F7 i t' Ht' Ht)].
      destruct (F6 i t Ht) as (t2 & Ht2 & [_ _ D3]). assert (t' = t2) as -> by congruence. by apply D3, (Hs i).
    + rewrite F3. destruct F4 as [->|(i & t & b & Ht & Hpc)]; [done|]. pose proof (Hs i t Ht) as Hsp.
      unfold spent in Hsp. by rewrite Hpc in Hsp.
  - subst x. cbn in H, Hlt. unfold ckpt_step in H. destruct Hp as [Hp|Hp]; rewrite Hp in H.
    + rewrite (proj2 (Z.ltb_lt _ _) Hlt) in H. injection H as <-. split; [by right|done].
    + case_decide; [|done]. injection H as <-. split; [by left|done].
Qed.

(** The checkpoint thread waits for ever for a thread the suspension counted
    but that will not come to the barrier: one still in state [ST_SUSPENDED]
    from the previous checkpoint, on its way out of the barrier. *)
Theorem late_thread_hangs w : w_pc w = CArrRelock false -> every spent w -> w_arrived w < w_expected w ->
  forall w', reach step w w' -> (w_pc w' = CArrTest false \/ w_pc w' = CArrRelock false) /\ w_arrived w' < w_expected w'.
Proof.
  intros Hp Hs Hlt w' Hr. assert (stuck (w_arrived w, w_expected w) w') as (H1 & _ & [= -> ->]); [|done].
  apply (reach_invariant step (stuck (w_arrived w, w_expected w)) w); [|intros ? ?; by apply stuck_step|done].
  split; [by right|done].
Qed.
