(* ===== verification/ThreadsRestart.v ===== *)
(** The restart of [Threads]: every thread of the image is created again and
    gathers in the barrier before any runs. *)

From S2P Require Import Prelude Process Threads ThreadsSafe.
Open Scope Z_scope.

Implicit Types w : process.
Implicit Types t : thread_info.

(** An image a process can be restarted from: the listed threads have saved
    their contexts, and no mutex of the library is held in it. *)
Definition restartable w : Prop :=
  w_pc w = CWrite /\ w_lib w = XND_CKPTINPROG /\ w_list_mtx w = None /\ w_ckpt_mtx w = None /\
  NoDup (w_list w) /\
  (forall i, i ∈ w_list w -> i ∉ w_zombies w /\ exists t p, w_threads w !! i = Some t /\ t_saved t = Some p).

(** A step before the barrier is released. *)
Definition restoring w w' : Prop := within w w' /\ w_pc w <> CRelUnlock.

(** A step of the way home: one of the checkpoint thread, or one of a thread in
    the handler; no thread takes a step of its own code. *)
Definition in_handler t : Prop := match t_pc t with At _ => False | _ => True end.
Definition homeward w w' : Prop :=
  ckpt_step w = Ret tt w' \/ exists i t, w_threads w !! i = Some t /\ in_handler t /\ thread_step i w = Ret tt w'.

(** Just created, the barrier's mutex still held. *)
Definition early t : Prop :=
  match t_pc t with Restarting => True | Stop Locking Context => t_state t = ST_RUNNING | _ => False end.
(** Created, and not past the barrier. *)
Definition back t : Prop :=
  match t_pc t with
  | Restarting => True
  | Stop (Locking | TestSuspend | Arriving | TestCkpt | Relocking) Context => t_state t = ST_RUNNING
  | _ => False
  end.
(** The holder of [ckpt_mtx]: a thread that is at one of these statements, or
    the checkpoint thread at one of those. *)
Definition holds t : Prop := match t_pc t with Stop (TestSuspend | Arriving | TestCkpt) _ => True | _ => False end.
Definition ckpt_holds (c : ckpt_pc) : Prop :=
  match c with
  | CRestZero | CRestCreate _ | CRestUnlock | CArrSet _ | CArrTest _ | CRelSet | CRelUnlock => True
  | _ => False
  end.
Definition holders w : Prop :=
  match w_ckpt_mtx w with
  | None => True
  | Some CKPT => ckpt_holds (w_pc w)
  | Some (THREAD i) => exists t, w_threads w !! i = Some t /\ holds t
  end /\
  match w_pc w with CRestMtx | CRestZero | CRestCreate _ => True | _ => w_list_mtx w = None end.

Section restart.
Variable image : process.
Hypothesis Himage : restartable image.
Abbreviation L := (w_list image).

(** The descriptors of [l] are as [P], the others have no thread; contexts are
    the image's. *)
Definition created (l : list tid) (P : thread_info -> Prop) w : Prop :=
  forall i t, w_threads w !! i = Some t -> ((i ∈ l /\ P t) \/ (i ∉ l /\ dead t)) /\
    exists t0, w_threads image !! i = Some t0 /\ t_saved t = t_saved t0.
Definition listed w : Prop :=
  w_list w = L /\ (forall i, i ∈ L -> i ∉ w_zombies w) /\ (forall i, i ∈ L -> is_Some (w_threads w !! i)).
Definition gathered w : Prop :=
  w_expected w = Z.of_nat (length L) /\ w_arrived w = Z.of_nat (size (at_gate w)) /\ created L back w.
Definition stage (c : ckpt_pc) w : Prop :=
  match c with
  | CRestList | CRestMtx => created [] early w
  | CRestZero => w_ckpt_mtx w = Some CKPT /\ created [] early w
  | CRestCreate l => w_ckpt_mtx w = Some CKPT /\ w_arrived w = 0 /\
      exists d, L = d ++ l /\ w_expected w = Z.of_nat (length d) /\ created d early w
  | CRestUnlock => w_ckpt_mtx w = Some CKPT /\ w_arrived w = 0 /\ w_expected w = Z.of_nat (length L) /\ created L early w
  | CArrLock true | CArrSet true | CArrTest true | CArrRelock true => gathered w
  | CRestored | CRelLock | CRelSet => gathered w /\ w_expected w <= w_arrived w
  | _ => False
  end.
Definition rinv w : Prop :=
  (w_pc w = CRelUnlock /\ w_lib w = XND_RUNNING /\ listed w /\ gathered w /\ w_expected w <= w_arrived w)
  \/ (w_lib w = XND_CKPTINPROG /\ listed w /\ stage (w_pc w) w).

Lemma early_back t : early t -> back t /\ ~ arrived t.
Proof. unfold early, back, arrived. destruct (t_pc t) as [|[] []|]; naive_solver. Qed.
Lemma created_weaken l (P Q : thread_info -> Prop) w : (forall t, P t -> Q t) -> created l P w -> created l Q w.
Proof. intros H Hc i t Hi. destruct (Hc i t Hi) as [[[? ?]|?] ?]; (split; [|done]); [left; auto|by right]. Qed.
Lemma created_set l (P : thread_info -> Prop) i t t' w : created l P w -> w_threads w !! i = Some t -> i ∈ l -> P t' ->
  t_saved t' = t_saved t -> created l P (set_thread i t' w).
Proof.
  intros Hc Ht Hl HP Hs j tj. rewrite lookup_set_thread. case_decide as E; [|apply Hc]. intros [= <-]. subst j.
  split; [by left|]. rewrite Hs. by apply (Hc i t).
Qed.
Lemma listed_set i t w : listed w -> listed (set_thread i t w).
Proof.
  intros (H1 & H2 & H3). split; [done|]. split; [done|]. intros j Hj. rewrite lookup_set_thread.
  case_decide; [done|by apply H3].
Qed.

(** A thread moves between its creation and the barrier. *)
Lemma gathered_move i t t' m n w : gathered w -> w_threads w !! i = Some t -> back t -> back t' ->
  t_saved t' = t_saved t -> n = w_arrived w + counted t' - counted t ->
  gathered (set_arrived n (set_ckpt_mtx m (set_thread i t' w))) /\ (counted t <= counted t' -> w_arrived w <= n).
Proof.
  intros (H1 & H2 & H3) Ht Hb Hb' Hs Hn. split; [|lia]. split; [done|]. split.
  - cbn. rewrite Hn. change (at_gate _) with (at_gate (set_thread i t' w)). rewrite (at_gate_set i t) by done. lia.
  - destruct (H3 i t Ht) as [[[Hl _]|[_ Hd]] _]; [|unfold back, dead in *; by rewrite Hd in Hb].
    apply (created_set L back i t t' w H3 Ht Hl Hb' Hs).
Qed.

#[local] Ltac finish := first [done | cbn; lia | intros; congruence | by left | by right; left | by right; right].
(** The step of such a thread. *)
Lemma back_step i t w w' : w_lib w = XND_CKPTINPROG -> w_threads w !! i = Some t -> back t -> thread_step i w = Ret tt w' ->
  exists t' m n, w' = set_arrived n (set_ckpt_mtx m (set_thread i t' w)) /\ back t' /\ t_saved t' = t_saved t /\
    n = w_arrived w + counted t' - counted t /\ counted t <= counted t' /\
    (w_ckpt_mtx w = Some CKPT -> early t -> early t' /\ m = w_ckpt_mtx w /\ n = w_arrived w) /\
    ((m = Some (THREAD i) /\ holds t') \/ m = None \/ (m = w_ckpt_mtx w /\ (holds t -> holds t'))).
Proof.
  intros Hl Ht Hb H. unfold thread_step in H. rewrite Ht in H. destruct t as [st de ex jo lo sa pe pc].
  pose (old := w_ckpt_mtx w). pose (cnt := w_arrived w).
  unfold back in Hb. destruct pc as [|s [|]|]; cbn in Hb, H; try done; [by destruct s|destruct s; cbn in H; try done|].
  - case_decide as Hm; [|done]. injection H as <-. eexists _, (Some (THREAD i)), cnt.
    split_and!; finish.
  - rewrite bool_decide_eq_false_2 in H by congruence. injection H as <-. eexists _, old, cnt.
    split_and!; finish.
  - injection H as <-. eexists _, old, (cnt + 1). split_and!; finish.
  - rewrite bool_decide_eq_true_2 in H by congruence. injection H as <-. eexists _, None, cnt.
    split_and!; finish.
  - case_decide as Hm; [|done]. injection H as <-. eexists _, (Some (THREAD i)), cnt.
    split_and!; finish.
  - injection H as <-. eexists _, old, cnt. split_and!; finish.
Qed.

Lemma created_pc l (P : thread_info -> Prop) w i t : (forall t, P t -> back t) -> created l P w -> w_threads w !! i = Some t ->
  back t /\ P t /\ i ∈ l \/ dead t.
Proof. intros HP Hc Ht. destruct (Hc i t Ht) as [[[Hl H]|[_ H]] _]; [left; auto|by right]. Qed.
(** Whichever stage: a thread that exists has been created by the restart. *)
Lemma stage_thread w i t : stage (w_pc w) w -> w_threads w !! i = Some t -> w_pc w <> CRelUnlock -> back t \/ dead t.
Proof.
  intros Hs Ht Hp. assert (forall t, early t -> back t) as He by (intros ?; apply early_back).
  assert (forall l (P : thread_info -> Prop), (forall t, P t -> back t) -> created l P w -> back t \/ dead t) as Hc.
  { intros l P HP Hc. destruct (created_pc l P w i t HP Hc Ht) as [(? & _)|?]; [by left|by right]. }
  destruct (w_pc w) as [| | | | | |?|?|?|?|?|?|?|?|?|?|?|?|?|?| |?|?|?|?|?|?|[]|[]|[]|[]| | | | | | | | |?|];
    cbn [stage] in Hs; try done.
  all: try (destruct Hs as (_ & _ & Hs); by eapply (Hc L back)).
  all: try (destruct Hs as [(_ & _ & Hs) _]; by eapply (Hc L back)).
  - by eapply (Hc [] early).
  - by eapply (Hc [] early).
  - by eapply (Hc [] early), Hs.
  - destruct Hs as (_ & _ & d & _ & _ & Hs). by eapply (Hc d early).
  - by eapply (Hc L early), Hs.
Qed.

Lemma created_early l i t t' w : created l early w -> w_threads w !! i = Some t -> back t -> early t' -> t_saved t' = t_saved t ->
  created l early (set_thread i t' w).
Proof.
  intros Hc Ht Hb He Hs. apply (created_set l early i t); try done.
  destruct (Hc i t Ht) as [[[? _]|[_ Hd]] _]; [done|]. unfold back, dead in *. by rewrite Hd in Hb.
Qed.
Lemma early_back_thread l i t w : created l early w -> w_threads w !! i = Some t -> back t -> early t.
Proof.
  intros Hc Ht Hb. destruct (Hc i t Ht) as [[[_ ?]|[_ Hd]] _]; [done|]. unfold back, dead in *. by rewrite Hd in Hb.
Qed.
Lemma created_nil_back i t w : created [] early w -> w_threads w !! i = Some t -> ~ back t.
Proof.
  intros Hc Ht Hb. destruct (Hc i t Ht) as [[[[]%not_elem_of_nil _]|[_ Hd]] _]. unfold back, dead in *. by rewrite Hd in Hb.
Qed.

Lemma stage_thread_step i w w' : w_lib w = XND_CKPTINPROG -> w_pc w <> CRelUnlock -> stage (w_pc w) w ->
  thread_step i w = Ret tt w' ->
  w_lib w' = w_lib w /\ w_pc w' = w_pc w /\ (listed w -> listed w') /\ stage (w_pc w) w'.
Proof.
  intros Hl Hp Hs H. destruct (w_threads w !! i) as [t|] eqn:Ht; [|unfold thread_step in H; by rewrite Ht in H].
  destruct (stage_thread w i t Hs Ht Hp) as [Hb|Hd]; [|unfold thread_step in H; by rewrite Ht, Hd in H].
  destruct (back_step i t w w' Hl Ht Hb H) as (t' & m & n & -> & Hb' & Hsa & Hn & Hcnt & Hearly & _).
  split; [done|]. split; [done|]. split; [apply (listed_set i t')|]. clear H.
  set (w' := set_arrived n (set_ckpt_mtx m (set_thread i t' w))).
  assert (gathered w -> gathered w') as Hg by (intros Hg; by apply (gathered_move i t t' m n w)).
  assert (gathered w /\ w_expected w <= w_arrived w -> gathered w' /\ w_expected w' <= w_arrived w') as Hge.
  { intros [G1 G2]. split; [auto|]. change (w_expected w <= n). lia. }
  assert (created [] early w -> False) as Hnil by (intros Hc; by eapply created_nil_back).
  destruct (w_pc w) as [| | | | | |?|?|?|?|?|?|?|?|?|?|?|?|?|?| |?|?|?|?|?|?|[]|[]|[]|[]| | | | | | | | |?|];
    cbn [stage] in Hs |- *; try done; auto.
  - destruct Hs as [_ Hs]. by destruct (Hnil Hs).
  - destruct Hs as (H1 & H2 & d & H3 & H4 & H5). destruct (Hearly H1 (early_back_thread d i t w H5 Ht Hb)) as (E1 & E2 & E3).
    split; [by cbn; rewrite E2|]. split; [by cbn; rewrite E3|]. exists d. split; [done|]. split; [done|].
    by apply (created_early d i t t' w).
  - destruct Hs as (H1 & H2 & H3 & H4). destruct (Hearly H1 (early_back_thread L i t w H4 Ht Hb)) as (E1 & E2 & E3).
    split; [by cbn; rewrite E2|]. split; [by cbn; rewrite E3|]. split; [done|]. by apply (created_early L i t t' w).
Qed.

Lemma early_gate_empty l w : created l early w -> size (at_gate w) = 0%nat.
Proof.
  intros Hc. apply gate_empty. intros i t Ht. destruct (Hc i t Ht) as [[[_ H]|[_ H]] _]; unfold early, dead, below in *.
  - by destruct (t_pc t) as [|[] []|].
  - by rewrite H.
Qed.
(** Freeing the joined zombies touches no listed thread. *)
Lemma gathered_filter w : listed w -> gathered w -> gathered (zombie_list_filter w) /\ (forall i, i ∈ L -> is_Some (w_threads (zombie_list_filter w) !! i)).
Proof.
  intros (H1 & H2 & H3) (G1 & G2 & G3).
  assert (forall i t, i ∈ L -> w_threads w !! i = Some t -> w_threads (zombie_list_filter w) !! i = Some t) as Hkeep.
  { intros i t Hi Ht. cbn. apply map_lookup_filter_Some. split; [done|]. intros [Hx _]. cbn in Hx. by apply (H2 i Hi). }
  assert (forall i t, w_threads (zombie_list_filter w) !! i = Some t -> w_threads w !! i = Some t) as Hback.
  { intros i t Ht. cbn in Ht. by apply map_lookup_filter_Some in Ht as [? _]. }
  split; [|intros i Hi; destruct (H3 i Hi) as [t Ht]; exists t; auto].
  split; [done|]. split; [|intros i t Ht%Hback; by apply G3].
  change (w_arrived (zombie_list_filter w)) with (w_arrived w). rewrite G2.
  assert (at_gate (zombie_list_filter w) = at_gate w) as ->; [|done].
  apply map_eq. intros i. apply option_eq. intros t. unfold at_gate. rewrite !map_lookup_filter_Some. split.
  - intros [Ht Ha]. split; [by apply Hback|done].
  - intros [Ht Ha]. split; [|done]. apply Hkeep; [|done]. destruct (G3 i t Ht) as [[[? _]|[_ Hd]] _]; [done|].
    unfold dead in Hd. cbn in Ha. unfold arrived in Ha. by rewrite Hd in Ha.
Qed.

Lemma stage_ckpt_step w w' : w_lib w = XND_CKPTINPROG -> listed w -> w_pc w <> CRelUnlock -> stage (w_pc w) w ->
  ckpt_step w = Ret tt w' -> rinv w'.
Proof.
  intros Hl Hli Hp Hs H. pose proof Himage as (_ & _ & _ & _ & Hnd & _). unfold ckpt_step in H.
  destruct (w_pc w) as [| | | | | |?|?|?|?|?|?|?|?|?|?|?|?|?|?| |?|?|?|?|?|?|[]|[]|[]|[]| | | | | | | | |l|] eqn:Epc;
    cbn [stage] in Hs; try done; unfold restore_step, with_thread in H; rewrite ?Epc in H.
  - case_decide; [|done]. injection H as <-. right. done.
  - injection H as <-. right. done.
  - destruct (Z.ltb_spec (w_arrived w) (w_expected w)) as [Hlt|Hge]; injection H as <-; right; done.
  - case_decide; [|done]. injection H as <-. right. done.
  - injection H as <-. right. destruct Hs as [Hg Hle]. destruct (gathered_filter w Hli Hg) as [Hg' Hex].
    split; [done|]. split; [|by split]. destruct Hli as (H1 & H2 & H3). split; [done|]. split; [|done].
    intros i Hi [_ Hz]%list_elem_of_filter. by apply (H2 i).
  - case_decide; [|done]. injection H as <-. right. done.
  - injection H as <-. left. destruct Hs as [Hg Hle]. done.
  - case_decide; [|done]. injection H as <-. right. done.
  - case_decide; [|done]. injection H as <-. right. done.
  - injection H as <-. right. destruct Hs as [H1 H2]. split; [done|]. split; [done|]. split; [done|]. split; [done|].
    exists []. split; [symmetry; apply Hli|]. split; [done|]. done.
  - destruct Hs as (H1 & H2 & d & H3 & H4 & H5). destruct l as [|i l].
    + injection H as <-. right. split; [done|]. split; [done|]. split; [done|]. split; [done|].
      rewrite app_nil_r in H3. subst d. done.
    + destruct (w_threads w !! i) as [t|] eqn:Ht; [|done]. injection H as <-. right. split; [done|].
      split; [by apply (listed_set i (goto Restarting t) w)|]. split; [done|]. split; [done|]. exists (d ++ [i]).
      split; [by rewrite H3, <- app_assoc|]. split; [cbn; rewrite H4, length_app; cbn; lia|].
      intros j tj Hj. change (w_threads (set_thread i (goto Restarting t) w) !! j = Some tj) in Hj.
      rewrite lookup_set_thread in Hj. case_decide as E.
      * injection Hj as <-. subst j. split; [left; split; [set_solver|done]|]. by apply (H5 i t).
      * destruct (H5 j tj Hj) as [[[? ?]|[? ?]] ?]; (split; [|done]); [left|right]; (split; [set_solver|done]).
  - destruct Hs as (H1 & H2 & H3 & H4). injection H as <-. right. split; [done|]. split; [done|].
    split; [done|]. split.
    + cbn. rewrite H2. change (at_gate _) with (at_gate w). by rewrite (early_gate_empty L).
    + apply (created_weaken L early back); [apply early_back|done].
Qed.

(** Only the checkpoint thread, and threads that have been created, move. *)
Lemma restoring_inv w w' : stage (w_pc w) w -> restoring w w' -> ckpt_step w = Ret tt w' \/ exists i, thread_step i w = Ret tt w'.
Proof.
  intros Hs [(a & Ha1 & Ha2 & H) Hn].
  assert (forall i p f, when_at i p w f = Ret tt w' -> p = Dead) as Hwhen.
  { intros i p f (t & Ht & Hp & _)%when_at_inv. destruct (stage_thread w i t Hs Ht Hn) as [Hb|Hd].
    - unfold back in Hb. by rewrite Hp in Hb.
    - unfold dead in Hd. congruence. }
  destruct a; cbn in H; try done; try (by apply Hwhen in H); [by left|by right; exists i|].
  unfold deliver in H. destruct (w_threads w !! i) as [t|] eqn:Ht; [|done].
  destruct (stage_thread w i t Hs Ht Hn) as [Hb|Hd].
  - unfold back in Hb. by destruct (t_pc t).
  - unfold dead in Hd. by rewrite Hd in H.
Qed.
Lemma rinv_step w w' : rinv w -> restoring w w' -> rinv w'.
Proof.
  intros [[Hp _]|(Hl & Hli & Hs)] Hst; [by destruct (proj2 Hst)|]. pose proof (proj2 Hst) as Hn.
  destruct (restoring_inv w w' Hs Hst) as [H|[i H]]; [by apply (stage_ckpt_step w)|].
  destruct (stage_thread_step i w w' Hl Hn Hs H) as (E1 & E2 & E3 & E4). right. rewrite E1, E2. auto.
Qed.
Lemma rinv_start w : restart image = Ret tt w -> rinv w.
Proof.
  destruct Himage as (Hp & Hl & Hm1 & Hm2 & Hnd & Hex). unfold restart. rewrite Hp. intros [= <-]. right. split; [done|].
  split; [split; [done|split]|].
  - intros i Hi. by apply Hex.
  - intros i Hi. destruct (Hex i Hi) as (_ & t & p & Ht & _). cbn. rewrite lookup_fmap, Ht. by eexists.
  - intros i t Hi. cbn in Hi. rewrite lookup_fmap in Hi. destruct (w_threads image !! i) as [t0|] eqn:Ht; [|done].
    injection Hi as <-. split; [right; split; [apply not_elem_of_nil|done]|]. by exists t0.
Qed.


(** The mutexes. *)
Lemma holders_ckpt_step w w' : w_lib w = XND_CKPTINPROG -> listed w -> w_pc w <> CRelUnlock -> stage (w_pc w) w ->
  holders w -> ckpt_step w = Ret tt w' -> holders w'.
Proof.
  intros Hl Hli Hp Hs [Hm Hlm] H. unfold ckpt_step in H. unfold holders in *.
  destruct (w_pc w) as [| | | | | |?|?|?|?|?|?|?|?|?|?|?|?|?|?| |?|?|?|?|?|?|[]|[]|[]|[]| | | | | | | | |l|] eqn:Epc;
    cbn [stage] in Hs; try done; unfold restore_step, with_thread in H; rewrite ?Epc in H.
  - case_decide; [|done]. by injection H as <-.
  - by injection H as <-.
  - destruct (w_arrived w <? w_expected w); by injection H as <-.
  - case_decide; [|done]. by injection H as <-.
  - injection H as <-. split; [|done]. cbn. destruct (w_ckpt_mtx w) as [[|i]|]; [done| |done].
    destruct Hm as (t & Ht & Hh). exists t. split; [|done]. apply map_lookup_filter_Some. split; [done|]. cbn.
    intros [Hz _]. destruct Hli as (_ & H2 & _). apply (H2 i); [|done].
    destruct Hs as [(_ & _ & Hc) _]. destruct (Hc i t Ht) as [[[? _]|[_ Hd]] _]; [done|].
    unfold dead, holds in *. by rewrite Hd in Hh.
  - case_decide; [|done]. by injection H as <-.
  - injection H as <-. split; [|done]. cbn. destruct (w_ckpt_mtx w) as [[|i]|]; done.
  - case_decide; [|done]. injection H as <-. split; [|done]. cbn. by destruct (w_ckpt_mtx w) as [[|i]|].
  - case_decide; [|done]. by injection H as <-.
  - injection H as <-. split; [|done]. cbn. by destruct Hs as [-> _].
  - destruct Hs as (Hc & _). destruct l as [|i l].
    + injection H as <-. split; [|done]. cbn. by rewrite Hc.
    + destruct (w_threads w !! i) as [t|] eqn:Ht; [|done]. injection H as <-. split; [|done]. cbn. by rewrite Hc.
  - by injection H as <-.
Qed.
Lemma holders_thread_step i w w' : w_lib w = XND_CKPTINPROG -> w_pc w <> CRelUnlock -> stage (w_pc w) w ->
  holders w -> thread_step i w = Ret tt w' -> holders w'.
Proof.
  intros Hl Hp Hs [Hm Hlm] H. destruct (w_threads w !! i) as [t|] eqn:Ht; [|unfold thread_step in H; by rewrite Ht in H].
  destruct (stage_thread w i t Hs Ht Hp) as [Hb|Hd]; [|unfold thread_step in H; by rewrite Ht, Hd in H].
  destruct (back_step i t w w' Hl Ht Hb H) as (t' & m & n & -> & _ & _ & _ & _ & _ & Hh). split; [|done].
  change (w_ckpt_mtx _) with m. change (w_pc (set_arrived _ _)) with (w_pc w).
  change (w_threads (set_arrived _ _)) with (<[i := t']> (w_threads w)).
  destruct Hh as [[-> Hh]|[->|[-> Hh]]]; [|done|].
  - exists t'. split; [apply lookup_insert_eq|done].
  - destruct (w_ckpt_mtx w) as [[|j]|]; [done| |done]. destruct Hm as (tj & Hj & Hhj).
    destruct (decide (i = j)) as [->|Hne].
    + exists t'. split; [apply lookup_insert_eq|]. apply Hh. congruence.
    + exists tj. split; [by rewrite lookup_insert_ne|done].
Qed.

(** What every state a restart passes through satisfies. *)
Definition restarting w : Prop := rinv w /\ holders w.
Lemma restarting_step w w' : restarting w -> restoring w w' -> restarting w'.
Proof.
  intros [Hr Hh] Hst. split; [by eapply rinv_step|].
  destruct Hr as [[Hp _]|(Hl & Hli & Hs)]; [by destruct (proj2 Hst)|]. pose proof (proj2 Hst) as Hn.
  destruct (restoring_inv w w' Hs Hst) as [H|[i H]]; [by apply (holders_ckpt_step w)|by apply (holders_thread_step i w)].
Qed.
Lemma restarting_start w : restart image = Ret tt w -> restarting w.
Proof.
  intros H. split; [by apply rinv_start|]. destruct Himage as (Hp & Hl & Hm1 & Hm2 & _).
  unfold restart in H. rewrite Hp in H. injection H as <-. split; cbn; [by rewrite Hm2|done].
Qed.

Lemma all_at_gate w i : gathered w -> w_expected w <= w_arrived w -> i ∈ L -> exists t, w_threads w !! i = Some t /\ arrived t.
Proof.
  intros (G1 & G2 & G3) Hle Hi. destruct Himage as (_ & _ & _ & _ & Hnd & _).
  assert (dom (at_gate w) ⊆ (list_to_set L : gset tid)) as Hsub.
  { intros j [t [Ht Ha]%map_lookup_filter_Some]%elem_of_dom. apply elem_of_list_to_set.
    destruct (G3 j t Ht) as [[[? _]|[_ Hd]] _]; [done|]. unfold dead in Hd. cbn in Ha. unfold arrived in Ha. by rewrite Hd in Ha. }
  assert (dom (at_gate w) ≡ (list_to_set L : gset tid)) as Heq.
  { apply set_subseteq_size_equiv; [done|]. rewrite size_list_to_set, size_dom by done. lia. }
  assert (i ∈ dom (at_gate w)) as Hin by (rewrite Heq; by apply elem_of_list_to_set).
  apply elem_of_dom in Hin as [t [Ht Ha]%map_lookup_filter_Some]. by exists t.
Qed.

(** ** Completing the restart *)

Lemma homeward_within w w' : homeward w w' -> within w w'.
Proof. intros [H|(i & t & _ & _ & H)]; [by exists Ckpt|by exists (Thread i)]. Qed.
(** Such a step before the barrier is released. *)
Definition homing w w' : Prop := homeward w w' /\ w_pc w <> CRelUnlock.

(** From [w] the restart can go on to a state where [P] holds. *)
Definition can (P : process -> Prop) w : Prop := exists w', reach homeward w w' /\ restarting w' /\ P w'.
Lemma can_here (P : process -> Prop) w : restarting w -> P w -> can P w.
Proof. intros Hw HP. exists w. split; [constructor|done]. Qed.
Lemma can_then (P Q : process -> Prop) w : can P w -> (forall w', restarting w' -> P w' -> can Q w') -> can Q w.
Proof.
  intros (w1 & Hr1 & Hw1 & HP) HQ. destruct (HQ w1 Hw1 HP) as (w2 & Hr2 & Hw2 & HQ2). exists w2.
  split; [by eapply reach_trans|done].
Qed.
Lemma can_step (P : process -> Prop) w w1 : restarting w -> homing w w1 -> (restarting w1 -> can P w1) -> can P w.
Proof.
  intros Hw Hst HP. eapply (can_then (fun w' => w' = w1)); [|by intros w' Hw' ->; apply HP].
  destruct Hst as [Hst Hn]. exists w1. split; [by eapply reach_snoc; [constructor|]|]. split; [|done].
  eapply restarting_step; [done|]. split; [by apply homeward_within|done].
Qed.
Lemma ckpt_homing w w1 : w_pc w <> CRelUnlock -> ckpt_step w = Ret tt w1 -> homing w w1.
Proof. intros Hn H. split; [by left|done]. Qed.
Lemma back_in_handler t : back t -> in_handler t.
Proof. unfold back, in_handler. by destruct (t_pc t). Qed.
Lemma thread_homing i t w w1 : w_pc w <> CRelUnlock -> w_threads w !! i = Some t -> back t -> thread_step i w = Ret tt w1 -> homing w w1.
Proof. intros Hn Ht Hb H. split; [|done]. right. exists i, t. split; [done|]. split; [by apply back_in_handler|done]. Qed.

(** The steps a thread has before the second loop of the barrier; each can be
    taken, the lock of [ckpt_mtx] when it is free. *)
Definition togo t : nat :=
  match t_pc t with
  | Restarting => 5 | Stop Locking _ => 4 | Stop TestSuspend _ => 3 | Stop Arriving _ => 2 | Stop TestCkpt _ => 1 | _ => 0
  end.
Lemma togo_step i t w : w_lib w = XND_CKPTINPROG -> w_threads w !! i = Some t -> back t -> (togo t <> 0)%nat ->
  ((4 <= togo t)%nat -> w_ckpt_mtx w = None) ->
  exists w' t', thread_step i w = Ret tt w' /\ w_pc w' = w_pc w /\ w_threads w' = <[i := t']> (w_threads w) /\
    back t' /\ S (togo t') = togo t /\ ((4 <= togo t')%nat -> w_ckpt_mtx w' = None) /\
    (togo t' = 0%nat -> w_ckpt_mtx w' = None).
Proof.
  intros Hl Ht Hb H0 Hm. unfold thread_step. rewrite Ht. destruct t as [st de ex jo lo sa pe pc]. unfold back, togo in *.
  destruct pc as [|s [|]|]; cbn in *; try done; [by destruct s|destruct s; cbn in *; try done|].
  - rewrite decide_True by (apply Hm; lia). eexists _, _. split_and!; try done; cbn; intros; lia.
  - rewrite bool_decide_eq_false_2 by congruence. eexists _, _. split_and!; try done; cbn; intros; lia.
  - eexists _, _. split_and!; try done; cbn; intros; lia.
  - rewrite bool_decide_eq_true_2 by congruence. eexists _, _. split_and!; done.
  - eexists _, _. split_and!; try done; cbn; intros; try lia. apply Hm. lia.
Qed.
Lemma restarting_lib w : restarting w -> w_pc w <> CRelUnlock -> w_lib w = XND_CKPTINPROG /\ listed w /\ stage (w_pc w) w.
Proof. by intros [[[? _]|?] _] Hn. Qed.

(** A thread goes to the second loop, and leaves [ckpt_mtx] free. *)
Definition driven (i : tid) w w' : Prop :=
  w_pc w' = w_pc w /\ w_ckpt_mtx w' = None /\ (exists t, w_threads w' !! i = Some t /\ arrived t) /\
  forall j, j <> i -> w_threads w' !! j = w_threads w !! j.
Lemma drive i n : forall t w, restarting w -> w_pc w <> CRelUnlock -> w_threads w !! i = Some t -> back t -> togo t = n ->
  ((4 <= n)%nat -> w_ckpt_mtx w = None) -> (n = 0%nat -> w_ckpt_mtx w = None) -> can (driven i w) w.
Proof.
  induction n as [|n IH]; intros t w Hw Hp Ht Hb Hn H4 H0.
  - apply can_here; [done|]. split; [done|]. split; [by apply H0|]. split; [|done]. exists t. split; [done|].
    unfold back, togo, arrived in *. by destruct (t_pc t) as [|[] []|].
  - destruct (restarting_lib w Hw Hp) as (Hl & _ & _).
    destruct (togo_step i t w Hl Ht Hb) as (w1 & t1 & Hst & Hp1 & Ht1 & Hb1 & Hn1 & H41 & H01); [lia|by rewrite Hn|].
    eapply can_step; [done|by eapply thread_homing|]. intros Hw1.
    eapply can_then; [apply (IH t1 w1); try done; [congruence|by rewrite Ht1, lookup_insert_eq|lia|
      intros ?; apply H41; lia|intros ?; apply H01; lia]|].
    intros w2 Hw2 (E1 & E2 & E3 & E4). apply can_here; [done|]. split; [congruence|]. split; [done|]. split; [done|].
    intros j Hj. rewrite E4, Ht1 by done. by apply lookup_insert_ne.
Qed.

(** Whoever holds [ckpt_mtx], the checkpoint thread apart, releases it. *)
Definition freed w w' : Prop :=
  w_pc w' = w_pc w /\ w_ckpt_mtx w' = None /\
  forall j t, w_threads w !! j = Some t -> arrived t -> exists t', w_threads w' !! j = Some t' /\ arrived t'.
Lemma free_mtx w : restarting w -> w_pc w <> CRelUnlock -> ~ ckpt_holds (w_pc w) -> can (freed w) w.
Proof.
  intros Hw Hp Hc. destruct (w_ckpt_mtx w) as [[|i]|] eqn:Hm.
  - destruct Hw as [_ [Hh _]]. by rewrite Hm in Hh.
  - pose proof Hw as [_ [Hh _]]. rewrite Hm in Hh. destruct Hh as (t & Ht & Hh).
    destruct (restarting_lib w Hw Hp) as (_ & _ & Hs). destruct (stage_thread w i t Hs Ht Hp) as [Hb|Hd].
    2:{ unfold dead, holds in *. by rewrite Hd in Hh. }
    eapply can_then; [apply (drive i (togo t) t w); try done; unfold holds, back, togo in *;
      destruct (t_pc t) as [|[] []|]; try done; intros; lia|].
    intros w' Hw' (E1 & E2 & (ti & Hi & Hai) & E4). apply can_here; [done|]. split; [done|]. split; [done|].
    intros j tj Hj Haj. destruct (decide (j = i)) as [->|Hne]; [by exists ti|]. exists tj. by rewrite E4.
  - apply can_here; [done|]. split; [done|]. split; [done|]. intros j t Hj Ha. by exists t.
Qed.
(** The checkpoint thread takes it. *)
Lemma can_take (P : process -> Prop) c w : restarting w -> c <> CRelUnlock -> ~ ckpt_holds c -> w_pc w = c ->
  (forall w', w_pc w' = c -> w_ckpt_mtx w' = None -> exists w2, ckpt_step w' = Ret tt w2) ->
  (forall w' w2, restarting w' -> w_pc w' = c -> ckpt_step w' = Ret tt w2 -> restarting w2 -> can P w2) -> can P w.
Proof.
  intros Hw Hn Hc Hp Hstep HP. eapply can_then; [apply free_mtx; [done|by rewrite Hp|by rewrite Hp]|].
  intros w1 Hw1 (E1 & E2 & _). destruct (Hstep w1) as [w2 H2]; [congruence|done|].
  eapply can_step; [done|eapply ckpt_homing; [congruence|exact H2]|]. apply (HP w1 w2); [done|congruence|done].
Qed.

(** All gather. *)
Lemma can_gather w : restarting w -> w_pc w = CArrRelock true ->
  can (fun w' => w_pc w' = CArrRelock true /\ w_ckpt_mtx w' = None /\
    forall i, i ∈ L -> exists t, w_threads w' !! i = Some t /\ arrived t) w.
Proof.
  intros Hw Hp. eapply can_then; [apply free_mtx; [done|by rewrite Hp|rewrite Hp; by intros []]|]. clear Hw.
  intros w1 Hw1 (E1 & E2 & _). rewrite Hp in E1. clear w Hp.
  assert (forall l, l ⊆ L -> can (fun w' => w_pc w' = CArrRelock true /\ w_ckpt_mtx w' = None /\
    forall i, i ∈ l -> exists t, w_threads w' !! i = Some t /\ arrived t) w1) as Hall; [|by apply Hall].
  induction l as [|i l IH]; intros Hsub.
  - apply can_here; [done|]. split; [done|]. split; [done|]. intros i []%not_elem_of_nil.
  - eapply can_then; [apply IH; set_solver|]. intros w2 Hw2 (Hp2 & Hm2 & Ha2).
    assert (w_pc w2 <> CRelUnlock) as Hn2 by congruence.
    destruct (restarting_lib w2 Hw2 Hn2) as (_ & Hli & Hs). destruct (proj2 (proj2 Hli) i) as [t Ht]; [set_solver|].
    assert (back t) as Hb.
    { rewrite Hp2 in Hs. destruct Hs as (_ & _ & Hc). destruct (Hc i t Ht) as [[[_ ?]|[Hn _]] _]; [done|set_solver]. }
    eapply can_then; [by apply (drive i (togo t) t w2)|]. intros w3 Hw3 (E3 & E4 & E5 & E6).
    apply can_here; [done|]. split; [congruence|]. split; [done|].
    intros j Hj. destruct (decide (j = i)) as [->|Hne]; [done|]. rewrite E6 by done. apply Ha2. set_solver.
Qed.
Lemma gathered_full w : gathered w -> (forall i, i ∈ L -> exists t, w_threads w !! i = Some t /\ arrived t) -> w_expected w <= w_arrived w.
Proof.
  intros (G1 & G2 & _) Ha. rewrite G1, G2. destruct Himage as (_ & _ & _ & _ & Hnd & _).
  rewrite <- (size_list_to_set (C := gset tid) L Hnd), <- size_dom. apply inj_le, subseteq_size.
  intros i Hi%elem_of_list_to_set. destruct (Ha i Hi) as (t & Ht & Hat). apply elem_of_dom. exists t.
  by apply map_lookup_filter_Some.
Qed.

(** The checkpoint thread's way to the release, backwards. *)
Definition released_at w : Prop := w_pc w = CRelUnlock.
#[local] Ltac ckpt_goes H := unfold ckpt_step, restore_step, with_thread; rewrite H.
#[local] Ltac goes_on IH := eapply can_step; [done|eapply ckpt_homing; [congruence|]|intros; by apply IH].

Lemma can_relset w : restarting w -> w_pc w = CRelSet -> can released_at w.
Proof. intros Hw Hp. eapply can_step; [done|apply ckpt_homing; [congruence|by ckpt_goes Hp]|]. intros Hw1. by apply can_here. Qed.
Lemma can_rellock w : restarting w -> w_pc w = CRelLock -> can released_at w.
Proof.
  intros Hw Hp. apply (can_take _ CRelLock); try done; [by intros []| |].
  - intros w' Hp' Hm. eexists. ckpt_goes Hp'. by rewrite decide_True.
  - intros w' w2 Hw' Hp' Hst Hw2. apply can_relset; [done|]. revert Hst. ckpt_goes Hp'. case_decide; [|done]. by intros [= <-].
Qed.
Lemma can_restored w : restarting w -> w_pc w = CRestored -> can released_at w.
Proof.
  intros Hw Hp. eapply can_step; [done|apply ckpt_homing; [congruence|by ckpt_goes Hp]|]. intros Hw1. by apply can_rellock.
Qed.
Lemma can_relock w : restarting w -> w_pc w = CArrRelock true -> can released_at w.
Proof.
  intros Hw Hp. eapply can_then; [by apply can_gather|]. intros w1 Hw1 (Hp1 & Hm1 & Ha1).
  destruct (restarting_lib w1 Hw1 ltac:(congruence)) as (_ & _ & Hs). rewrite Hp1 in Hs.
  pose proof (gathered_full w1 Hs Ha1) as Hle.
  eapply can_step; [done|apply ckpt_homing; [congruence|ckpt_goes Hp1; by rewrite decide_True]|]. intros Hw2.
  eapply can_step; [done|apply ckpt_homing; [done|by cbn; rewrite (proj2 (Z.ltb_ge _ _) Hle)]|]. intros Hw3. by apply can_restored.
Qed.
Lemma can_arrtest w : restarting w -> w_pc w = CArrTest true -> can released_at w.
Proof.
  intros Hw Hp. eapply can_step; [done|apply ckpt_homing; [congruence|by ckpt_goes Hp]|]. intros Hw1.
  destruct (w_arrived w <? w_expected w); [by apply can_relock|by apply can_restored].
Qed.
Lemma can_arrset w : restarting w -> w_pc w = CArrSet true -> can released_at w.
Proof.
  intros Hw Hp. eapply can_step; [done|apply ckpt_homing; [congruence|by ckpt_goes Hp]|]. intros Hw1. by apply can_arrtest.
Qed.
Lemma can_arrlock w : restarting w -> w_pc w = CArrLock true -> can released_at w.
Proof.
  intros Hw Hp. apply (can_take _ (CArrLock true)); try done; [by intros []| |].
  - intros w' Hp' Hm. eexists. ckpt_goes Hp'. by rewrite decide_True.
  - intros w' w2 Hw' Hp' Hst Hw2. apply can_arrset; [done|]. revert Hst. ckpt_goes Hp'. case_decide; [|done]. by intros [= <-].
Qed.
Lemma can_restunlock w : restarting w -> w_pc w = CRestUnlock -> can released_at w.
Proof.
  intros Hw Hp. eapply can_step; [done|apply ckpt_homing; [congruence|by ckpt_goes Hp]|]. intros Hw1. by apply can_arrlock.
Qed.
Lemma can_restcreate l : forall w, restarting w -> w_pc w = CRestCreate l -> can released_at w.
Proof.
  induction l as [|i l IH]; intros w Hw Hp.
  - eapply can_step; [done|apply ckpt_homing; [congruence|by ckpt_goes Hp]|]. intros Hw1. by apply can_restunlock.
  - destruct (restarting_lib w Hw ltac:(congruence)) as (_ & (_ & _ & Hex) & Hs). rewrite Hp in Hs.
    destruct Hs as (_ & _ & d & Hd & _). destruct (Hex i) as [t Ht]; [rewrite Hd; set_solver|].
    eapply can_step; [done|apply ckpt_homing; [congruence|ckpt_goes Hp; by rewrite Ht]|]. intros Hw1. by apply IH.
Qed.
Lemma can_restzero w : restarting w -> w_pc w = CRestZero -> can released_at w.
Proof.
  intros Hw Hp. eapply can_step; [done|apply ckpt_homing; [congruence|by ckpt_goes Hp]|]. intros Hw1. by eapply can_restcreate.
Qed.
Lemma can_restmtx w : restarting w -> w_pc w = CRestMtx -> can released_at w.
Proof.
  intros Hw Hp. apply (can_take _ CRestMtx); try done; [by intros []| |].
  - intros w' Hp' Hm. eexists. ckpt_goes Hp'. by rewrite decide_True.
  - intros w' w2 Hw' Hp' Hst Hw2. apply can_restzero; [done|]. revert Hst. ckpt_goes Hp'. case_decide; [|done]. by intros [= <-].
Qed.
Lemma can_restlist w : restarting w -> w_pc w = CRestList -> can released_at w.
Proof.
  intros Hw Hp. pose proof Hw as [_ [_ Hlm]]. rewrite Hp in Hlm.
  eapply can_step; [done|apply ckpt_homing; [congruence|ckpt_goes Hp; by rewrite decide_True]|]. intros Hw1. by apply can_restmtx.
Qed.
(** The barrier can be released, from wherever the restart is. *)
Lemma can_release w : restarting w -> can released_at w.
Proof.
  intros Hw. pose proof Hw as [[[Hp _]|(_ & _ & Hs)] _]; [by apply can_here|]. 
  destruct (w_pc w) as [| | | | | |?|?|?|?|?|?|?|?|?|?|?|?|?|?| |?|?|?|?|?|?|[]|[]|[]|[]| | | | | | | | |l|] eqn:Hp;
    cbn [stage] in Hs; try done;
    eauto using can_here, can_relset, can_rellock, can_restored, can_relock, can_arrtest, can_arrset, can_arrlock,
      can_restunlock, can_restcreate, can_restzero, can_restmtx, can_restlist.
Qed.

(** *** Leaving the barrier *)

Lemma homeward_thread i t w w' : w_threads w !! i = Some t -> in_handler t -> thread_step i w = Ret tt w' -> homeward w w'.
Proof. intros Ht Hi H. right. by exists i, t. Qed.

(** What is not the threads' own, with the barrier's mutex free. *)
Definition apart w w' : Prop :=
  w_pc w' = w_pc w /\ w_lib w' = w_lib w /\ w_list w' = w_list w /\ w_list_mtx w' = w_list_mtx w /\ w_ckpt_mtx w' = None.
Lemma apart_trans w1 w2 w3 : apart w1 w2 -> apart w2 w3 -> apart w1 w3.
Proof. intros (? & ? & ? & ? & ?) (? & ? & ? & ? & ?). split_and!; congruence. Qed.

(** A thread that has arrived goes from the released barrier to the place its
    context holds. *)
Lemma leave_gate i t p w : w_lib w = XND_RUNNING -> w_threads w !! i = Some t -> t_pc t = Stop TestCkpt Context ->
  t_saved t = Some p ->
  exists w', reach homeward w w' /\ apart w w' /\ w_threads w' = <[i := goto (At p) t]> (w_threads w).
Proof.
  intros Hl Ht Hp Hs. destruct t as [st de ex jo lo sa pe pc]. cbn in Hp, Hs. subst sa pc. eexists. split.
  - eapply reach_snoc; [eapply reach_snoc; [constructor|]|].
    + eapply (homeward_thread i); [exact Ht|done|]. unfold thread_step. rewrite Ht. cbn. rewrite bool_decide_eq_false_2 by congruence. reflexivity.
    + eapply (homeward_thread i); [apply lookup_insert_eq|done|]. unfold thread_step. rewrite lookup_set_thread, decide_True by done. reflexivity.
  - split; [done|]. cbn. by rewrite insert_insert_eq.
Qed.
Lemma leave_barrier i t p w : w_lib w = XND_RUNNING -> w_ckpt_mtx w = None -> w_threads w !! i = Some t ->
  back t -> arrived t -> t_saved t = Some p ->
  exists w', reach homeward w w' /\ apart w w' /\ w_threads w' = <[i := goto (At p) t]> (w_threads w).
Proof.
  intros Hl Hm Ht Hb Ha Hs. destruct (t_pc t) as [|s a|] eqn:Hp; [by unfold arrived in Ha; rewrite Hp in Ha| |by unfold arrived in Ha; rewrite Hp in Ha].
  unfold back, arrived in *. rewrite Hp in Hb, Ha. destruct s; try done; destruct a; try done; [by apply leave_gate|].
  assert (thread_step i w = Ret tt (set_ckpt_mtx (Some (THREAD i)) (set_thread i (goto (Stop TestCkpt Context) t) w))) as Hst.
  { unfold thread_step. rewrite Ht, Hp. cbn. by rewrite decide_True. }
  destruct (leave_gate i (goto (Stop TestCkpt Context) t) p (set_ckpt_mtx (Some (THREAD i)) (set_thread i (goto (Stop TestCkpt Context) t) w)))
    as (w' & Hr & Hap & Hth); [done|apply lookup_insert_eq|done|done|].
  exists w'. split; [eapply reach_trans; [eapply reach_snoc; [constructor|by apply (homeward_thread i t); [|apply back_in_handler; unfold back; rewrite Hp|]]|done]|].
  split; [exact Hap|]. rewrite Hth. cbn. by rewrite insert_insert_eq.
Qed.
Lemma leave_all l : forall w, NoDup l -> w_lib w = XND_RUNNING -> w_ckpt_mtx w = None ->
  (forall i, i ∈ l -> exists t p, w_threads w !! i = Some t /\ back t /\ arrived t /\ t_saved t = Some p) ->
  exists w', reach homeward w w' /\ apart w w' /\
    (forall i t p, i ∈ l -> w_threads w !! i = Some t -> t_saved t = Some p -> w_threads w' !! i = Some (goto (At p) t)) /\
    (forall i, i ∉ l -> w_threads w' !! i = w_threads w !! i).
Proof.
  induction l as [|i l IH]; intros w Hnd Hl Hm Hex.
  - exists w. split; [constructor|]. split; [done|]. split; [intros i t p []%not_elem_of_nil|done].
  - apply NoDup_cons in Hnd as [Hi Hnd]. destruct (Hex i) as (t & p & Ht & Hb & Ha & Hs); [set_solver|].
    destruct (leave_barrier i t p w) as (w1 & Hr1 & Hap1 & Hth1); [done..|].
    destruct (IH w1) as (w2 & Hr2 & Hap2 & Hin & Hout); [done|destruct Hap1 as (_ & -> & _); done|by destruct Hap1 as (_ & _ & _ & _ & ->)| |].
    { intros j Hj. destruct (Hex j) as (tj & pj & Htj & Hrest); [set_solver|]. exists tj, pj.
      split; [|done]. rewrite Hth1, lookup_insert_ne; [done|]. by intros ->. }
    exists w2. split; [by eapply reach_trans|]. split; [by eapply apart_trans|]. split.
    + intros j tj pj [->|Hj]%elem_of_cons Htj Hsj.
      * rewrite Hout, Hth1, lookup_insert_eq by done. congruence.
      * apply Hin; [done| |done]. rewrite Hth1, lookup_insert_ne; [done|]. by intros ->.
    + intros j Hj. rewrite Hout, Hth1 by set_solver. apply lookup_insert_ne. set_solver.
Qed.

(** What a completed restart leaves: the library running, its mutexes free, and
    each listed thread at the place its context in the image holds. *)
Definition resumed w : Prop :=
  w_pc w = CWaiting /\ w_lib w = XND_RUNNING /\ w_list w = L /\ w_list_mtx w = None /\ w_ckpt_mtx w = None /\
  (forall i, i ∈ L -> exists t t0 p, w_threads w !! i = Some t /\ w_threads image !! i = Some t0 /\
     t_saved t0 = Some p /\ t_pc t = At p /\ t_state t = ST_RUNNING /\ t_saved t = Some p) /\
  (forall i t, i ∉ L -> w_threads w !! i = Some t -> dead t).

Lemma released_resumes w : restarting w -> released_at w -> exists w', reach homeward w w' /\ resumed w'.
Proof.
  unfold released_at. intros [[(Hp & Hl & Hli & Hg & Hle)|(_ & _ & Hs)] [_ Hlm]] Hrel; [|by rewrite Hrel in Hs].
  rewrite Hp in Hlm. destruct Himage as (_ & _ & _ & _ & Hnd & Hz). set (w1 := set_pc CWaiting (set_ckpt_mtx None w)).
  pose proof Hg as (_ & _ & Hc).
  assert (forall i, i ∈ L -> exists t t0 p, w_threads w !! i = Some t /\ back t /\ arrived t /\ t_saved t = Some p /\
    w_threads image !! i = Some t0 /\ t_saved t0 = Some p) as Hall.
  { intros i Hi. destruct (all_at_gate w i Hg Hle Hi) as (t & Ht & Ha). destruct (Hc i t Ht) as [Hb (t0 & Ht0 & Hsv)].
    destruct (Hz i Hi) as (_ & t1 & p & Ht1 & Hp1). assert (t1 = t0) as -> by congruence.
    exists t, t0, p. destruct Hb as [[_ Hb]|[? _]]; [|done]. split_and!; congruence. }
  destruct (leave_all L w1) as (w2 & Hr & (E1 & E2 & E3 & E4 & E5) & Hin & Hout); [done|done|done| |].
  { intros i Hi. destruct (Hall i Hi) as (t & t0 & p & Ht & Hb & Ha & Hs & _). by exists t, p. }
  exists w2. split.
  - eapply reach_trans; [eapply reach_snoc; [constructor|]|exact Hr]. left. unfold ckpt_step. by rewrite Hp.
  - split_and!; [done|by rewrite E2|by rewrite E3; apply Hli|by rewrite E4|done| |].
    + intros i Hi. destruct (Hall i Hi) as (t & t0 & p & Ht & Hb & Ha & Hs & Ht0 & Hp0).
      exists (goto (At p) t), t0, p. split; [by apply Hin|]. split_and!; try done.
      unfold back, arrived in *. cbn. destruct (t_pc t) as [|[] []|]; done.
    + intros i t Hi. rewrite Hout by done. intros Ht. by destruct (Hc i t Ht) as [[[? _]|[_ ?]] _].
Qed.
(** The restart can always be completed. *)
Lemma can_resume w : restarting w -> exists w', reach homeward w w' /\ resumed w'.
Proof.
  intros Hw. destruct (can_release w Hw) as (w1 & Hr1 & Hw1 & H1). destruct (released_resumes w1 Hw1 H1) as (w2 & Hr2 & H2).
  exists w2. split; [|done]. by eapply reach_trans.
Qed.
End restart.

