(* ===== verification/ThreadsWorld.v ===== *)
(** Concrete processes of [Threads], their schedules and the witnesses. *)

From S2P Require Import Prelude Process Threads ThreadsSafe ThreadsHang ThreadsRestart.
Open Scope Z_scope.
#[local] Arguments Thread _%_nat_scope.
#[local] Arguments Deliver _%_nat_scope.
#[local] Arguments Exit _%_nat_scope.
#[local] Arguments Join (_ _)%_nat_scope.

(** ** Schedules *)

Definition times (n : nat) (a : action) : list action := replicate n a.

Lemma run_reach l w w' : run l w = Ret tt w' -> reach step w w'.
Proof.
  revert w. induction l as [|a l IH]; intros w H; [injection H as <-; constructor|].
  cbn [run] in H. apply bind_inv in H as ([] & w1 & H1 & H2).
  eapply reach_trans; [eapply reach_snoc; [constructor|by exists a]|by apply IH].
Qed.
Lemma run_within l w w' : Forall (fun a => a <> Request /\ a <> Restart) l -> run l w = Ret tt w' -> reach within w w'.
Proof.
  intros Hl. revert w. induction Hl as [|a l [Ha1 Ha2] Hl IH]; intros w H; [injection H as <-; constructor|].
  cbn [run] in H. apply bind_inv in H as ([] & w1 & H1 & H2).
  eapply reach_trans; [eapply reach_snoc; [constructor|by exists a]|by apply IH].
Qed.
Definition allowed (a : action) : bool := match a with Request | Restart => false | _ => true end.
Lemma allowed_within l : forallb allowed l = true -> Forall (fun a => a <> Request /\ a <> Restart) l.
Proof.
  intros H. apply Forall_forall. intros a Ha%list_elem_of_In. apply (proj1 (List.forallb_forall _ _) H) in Ha.
  by destruct a.
Qed.

(** A thread in its own code, and a process of such threads at a request. *)
Definition running : thread_info := ThreadInfo ST_RUNNING 0 false false None None false (At Running).
Definition process_of (ids : list tid) : process :=
  Proc XND_CKPT_PENDING ids [] (list_to_map ((fun i => (i, running)) <$> ids)) None None 0 0 CPending.


Definition to_scan : list action := times 5 Ckpt.
(** One pass that signals two running threads. *)
Definition signal_both : list action := to_scan ++ times 10 Ckpt ++ times 3 Ckpt.
Definition race : list action :=
  signal_both ++ [Deliver 1; Thread 1; Thread 1; Deliver 2; Thread 2] ++
  times 7 Ckpt ++ [Thread 1] ++ times 4 Ckpt ++ times 7 Ckpt ++ times 3 Ckpt ++
  times 8 Ckpt ++ times 3 Ckpt ++ times 4 (Thread 1) ++ times 2 Ckpt.

Definition ran (l : list action) (w : process) : process := match run l w with Ret _ w' => w' | _ => w end.
Lemma process_of_start ids : NoDup ids -> round_start (process_of ids).
Proof.
  intros Hnd. assert (forall i t, w_threads (process_of ids) !! i = Some t -> i ∈ ids /\ t = running) as H.
  { intros i t Hi. cbn in Hi. apply elem_of_list_to_map_2 in Hi. apply list_elem_of_fmap in Hi as (j & [= -> ->] & Hj). done. }
  split; [done|]. split; [done|]. split; [split|].
  - intros i t [_ ->]%H. split; [|done]. split; [split; [by left|done]|done].
  - intros i t [Hi _]%H _ _. done.
  - intros i t [_ ->]%H. done.
  - intros i Hi. exists running. cbn. apply elem_of_list_to_map_1.
    + rewrite <- list_fmap_compose. rewrite (list_fmap_ext _ id) by done. by rewrite list_fmap_id.
    + apply list_elem_of_fmap. by exists i.
  - intros i t [_ ->]%H. split; [by intros []|by right].
Qed.

(** ** The image written while a handler runs *)

(** The scan of [suspend_threads] loads a thread's state once for each
    state it tests for, so a thread that goes from [ST_SUSPINPROG] to
    [ST_SUSPENDED] between two loads is not counted, although it arrives at
    the barrier.  In a process of two threads it then stands in for the other:
    the image is written while that thread has not saved its context. *)
Theorem image_races_handler : exists w t, reach within (process_of [1; 2]%nat) w /\ w_pc w = CWrite /\
  w_threads w !! 2%nat = Some t /\ t_state t = ST_SUSPINPROG /\ t_pc t = Stop Saving (Return Running) /\ t_saved t = None.
Proof.
  eexists _, _. split; [apply (run_within race); [by apply allowed_within|by vm_compute]|]. by vm_compute.
Qed.

(** Without that race the same two threads wait in the barrier. *)
Definition suspended_both : list action :=
  signal_both ++ [Deliver 1; Thread 1; Thread 1; Thread 1; Deliver 2; Thread 2; Thread 2; Thread 2] ++
  times 2 Ckpt ++ times 12 Ckpt ++ times 3 Ckpt ++ times 7 Ckpt ++ times 3 Ckpt ++ times 4 (Thread 1) ++ times 4 (Thread 2) ++ times 2 Ckpt.

Lemma image_written_alone_witness : let w := ran suspended_both (process_of [1; 2]%nat) in
  w_lib w = XND_CKPTINPROG /\
  (forall i t, w_threads w !! i = Some t -> t_pc t <> At Dead ->
    exists s p, t_pc t = Stop s (Return p) /\ s <> Leaving /\ s <> Resuming) /\
  w_expected w <= Z.of_nat (size (at_gate w)) /\
  (w_expected w = Z.of_nat (size (live w)) ->
   forall i t, w_threads w !! i = Some t -> t_pc t <> At Dead ->
     arrived t /\ t_state t = ST_SUSPENDED /\ exists s p, t_pc t = Stop s (Return p) /\ t_saved t = Some p).
Proof.
  refine (image_written_alone (process_of [1; 2]%nat) _ _ _ _).
  - apply process_of_start. repeat constructor; set_solver.
  - apply (run_within suspended_both); [by apply allowed_within|by vm_compute].
  - by vm_compute.
Defined.

(** A second checkpoint that starts before a thread has left the handler: it is
    not a [round_start].  The thread was missed by the first count, arrives in
    the second checkpoint before it asks for anyone, is counted as suspended
    because it has not yet swapped its state back, and runs its own code while
    the image is written. *)
Definition second_round : list action :=
  to_scan ++ times 8 Ckpt ++ [Deliver 1; Thread 1; Thread 1] ++ times 7 Ckpt ++ [Thread 1] ++ times 7 Ckpt ++ times 5 Ckpt ++
  times 3 Ckpt ++ times 4 Ckpt ++ times 2 (Thread 1) ++ [Request] ++ times 3 Ckpt ++ times 3 (Thread 1) ++
  times 10 Ckpt ++ times 5 Ckpt ++ times 4 Ckpt ++ [Thread 1].
Lemma second_round_image : exists w t, reach step (process_of [1]%nat) w /\ w_pc w = CWrite /\
  w_threads w !! 1%nat = Some t /\ t_pc t = At Running.
Proof. eexists _, _. split; [apply (run_reach second_round); by vm_compute|]. by vm_compute. Qed.

(** ** A thread signalled while it exits *)

Definition exits : list action :=
  to_scan ++ times 5 Ckpt ++ times 3 Ckpt ++ [Exit 1] ++ times 3 (Thread 1) ++ [Deliver 1] ++ times 3 (Thread 1) ++ times 6 Ckpt.
Lemma exiting_thread_hangs_witness :
  w_pc (ran exits (process_of [1]%nat)) = CWLock /\
  forall w', reach step (ran exits (process_of [1]%nat)) w' -> in_wait (w_pc w') /\ exists t', w_threads w' !! 1%nat = Some t' /\ stopped t'.
Proof.
  split; [by vm_compute|]. refine (exiting_thread_hangs _ 1%nat (ThreadInfo ST_SUSPENDED 0 true false None (Some Running) false (Stop Locking (Return Running))) _ _ _ _ _ _).
  - apply (reach_invariant within inv (process_of [1]%nat)).
    + destruct (process_of_start [1]%nat) as (Hp & Hl & Hc & Hq); [repeat constructor; set_solver|]. split; [done|]. split; done.
    + apply within_inv.
    + apply (run_within exits); [by apply allowed_within|by vm_compute].
  - by vm_compute.
  - assert (w_list (ran exits (process_of [1]%nat)) = [1]%nat) as -> by by vm_compute. apply list_elem_of_here.
  - by vm_compute.
  - done.
  - done.
Defined.

(** ** A second checkpoint before the threads have left the first *)

Definition again : list action :=
  to_scan ++ times 5 Ckpt ++ times 3 Ckpt ++ [Deliver 1] ++ times 3 (Thread 1) ++
  times 2 Ckpt ++ times 6 Ckpt ++ times 3 Ckpt ++ times 5 Ckpt ++ times 3 Ckpt ++ times 4 (Thread 1) ++ times 2 Ckpt ++
  times 4 Ckpt ++ [Request] ++ to_scan ++ times 6 Ckpt ++ times 3 Ckpt ++ times 5 Ckpt ++ times 4 (Thread 1) ++ times 3 Ckpt.
Lemma again_reached : reach step (process_of [1]%nat) (ran again (process_of [1]%nat)).
Proof. apply (run_reach again). by vm_compute. Qed.
Lemma late_thread_hangs_witness :
  w_pc (ran again (process_of [1]%nat)) = CArrRelock false /\
  forall w', reach step (ran again (process_of [1]%nat)) w' -> (w_pc w' = CArrTest false \/ w_pc w' = CArrRelock false) /\ w_arrived w' < w_expected w'.
Proof.
  split; [by vm_compute|]. refine (late_thread_hangs _ _ _ _).
  - by vm_compute.
  - assert (w_threads (ran again (process_of [1]%nat)) = {[1%nat := ThreadInfo ST_RUNNING 0 false false None (Some Running) false (At Running)]}) as H by by vm_compute.
    intros i t Ht. rewrite H in Ht. by apply lookup_singleton_Some in Ht as [_ <-].
  - by vm_compute.
Defined.

(** ** A thread signalled while it holds another's lock *)

Definition joins : list action :=
  to_scan ++ times 10 Ckpt ++ times 3 Ckpt ++ [Join 1 2; Thread 1; Deliver 1] ++ times 3 (Thread 1) ++
  [Deliver 2] ++ times 3 (Thread 2) ++ times 3 Ckpt.
Definition joiner : thread_info := ThreadInfo ST_SUSPENDED 0 false false None (Some (JoinTest 2%nat)) false (Stop Locking (Return (JoinTest 2%nat))).
Definition joinee : thread_info := ThreadInfo ST_SUSPENDED 0 false false (Some (THREAD 1%nat)) (Some Running) false (Stop Locking (Return Running)).
Lemma joins_threads : w_threads (ran joins (process_of [2; 1]%nat)) = {[2%nat := joinee; 1%nat := joiner]}.
Proof. by vm_compute. Qed.

(** [__pthread_join_hook] locks the other thread's descriptor outside any
    unsafe section.  A thread interrupted there keeps the lock in the handler,
    the scan waits for the lock holding [ckpt_mtx], and the handler waits for
    [ckpt_mtx]: a deadlock of all three threads. *)
Theorem join_deadlock : exists w, reach within (process_of [2; 1]%nat) w /\ w_pc w = CThLock 2%nat [1%nat] 0 false /\
  w_ckpt_mtx w = Some CKPT /\ forall a w', do a w <> Ret tt w'.
Proof.
  exists (ran joins (process_of [2; 1]%nat)). split; [|split; [by vm_compute|split; [by vm_compute|]]].
  - apply (run_within joins); [by apply allowed_within|by vm_compute].
  - pose proof joins_threads as Ht.
    assert (w_ckpt_mtx (ran joins (process_of [2; 1]%nat)) = Some CKPT) as Hm by (vm_compute; reflexivity).
    assert (ckpt_step (ran joins (process_of [2; 1]%nat)) = NoFuel) as Hck by (vm_compute; reflexivity).
    assert (request (ran joins (process_of [2; 1]%nat)) = NoFuel) as Hrq by (vm_compute; reflexivity).
    assert (restart (ran joins (process_of [2; 1]%nat)) = NoFuel) as Hrs by (vm_compute; reflexivity).
    revert Ht Hm Hck Hrq Hrs. generalize (ran joins (process_of [2; 1]%nat)) as w. intros w Ht Hm Hck Hrq Hrs a w' H.
    assert (forall i t, w_threads w !! i = Some t -> exists p, t_pc t = Stop Locking (Return p)) as Hpc.
    { intros i t Hi. rewrite Ht in Hi. apply lookup_insert_Some in Hi as [[<- <-]|[_ Hi]]; [by eexists|].
      apply lookup_singleton_Some in Hi as [<- <-]. by eexists. }
    assert (forall i p f, when_at i p w f = Ret tt w' -> t_pc joiner = At p) as Hwhen.
    { intros i p f (t & Hi & Hp & _)%when_at_inv. destruct (Hpc i t Hi). congruence. }
    destruct a; unfold do in H; try congruence; try (apply Hwhen in H; done).
    + unfold thread_step in H. destruct (w_threads w !! i) as [t|] eqn:Hi; [|done]. destruct (Hpc i t Hi) as [p Hp].
      rewrite Hp in H. cbn in H. by rewrite Hm in H.
    + unfold deliver in H. destruct (w_threads w !! i) as [t|] eqn:Hi; [|done]. destruct (Hpc i t Hi) as [p Hp].
      by rewrite Hp in H.
Qed.

(** ** A restart *)

Fixpoint restores (l : list action) (w : process) : bool :=
  match l with
  | [] => true
  | a :: l => allowed a && (match w_pc w with CRelUnlock => false | _ => true end) &&
      match do a w with Ret _ w => restores l w | _ => false end
  end.
Lemma restores_reach l w : restores l w = true -> reach restoring w (ran l w).
Proof.
  revert w. induction l as [|a l IH]; intros w H; [constructor|]. cbn [restores] in H.
  apply andb_true_iff in H as [[H1 H2]%andb_true_iff H3]. destruct (do a w) as [[] w1| | | |] eqn:E; try done.
  assert (ran (a :: l) w = ran l w1 \/ ran l w1 = w1) as Hran.
  { unfold ran. cbn [run]. rewrite (bind_ret _ _ _ _ _ E). destruct (run l w1); auto. }
  assert (exists w2, run l w1 = Ret tt w2) as [w2 Hw2].
  { clear Hran IH E. revert w1 H3. induction l as [|b l IH]; intros w1 H3; [by eexists|]. cbn [restores] in H3.
    apply andb_true_iff in H3 as [_ H3]. destruct (do b w1) as [[] w2| | | |] eqn:E; try done.
    cbn [run]. rewrite (bind_ret _ _ _ _ _ E). by apply IH. }
  assert (ran (a :: l) w = ran l w1) as ->.
  { unfold ran. cbn [run]. rewrite (bind_ret _ _ _ _ _ E). by rewrite Hw2. }
  eapply reach_trans; [eapply reach_snoc; [constructor|]|by apply IH]. split.
  - exists a. split; [by intros ->|split; [by intros ->|done]].
  - intros Hp. by rewrite Hp in H2.
Qed.

Definition the_image : process := ran suspended_both (process_of [1; 2]%nat).
Definition restarts : list action := times 7 Ckpt ++ times 3 Ckpt ++ times 5 (Thread 1) ++ times 5 (Thread 2) ++ times 2 Ckpt.
Example restarted_barrier : w_pc (ran restarts (ran [Restart] the_image)) = CRestored.
Proof. by vm_compute. Qed.
