(* ===== verification/Restart.v ===== *)
(** Rebuilding the processes of a computation: [xnd/xnd_restart.h] and
    [xnd/xnd_restart.cpp].

    The restart program reads the headers of all images and recreates the
    process tree: it forks a process per image, orphans those that had no
    parent in the computation, gives each its place in sessions and process
    groups, and has it become [xnd_restart_internal] on its image.

    A target is known by its index in the vector [targets], which stands for
    its pointer.  A forked child runs until it has become another program or
    has exited before its parent goes on; the processes share nothing but the
    process ids, so any other order only renumbers them. *)

From S2P Require Import Prelude CkptFile.
Open Scope Z_scope.

Definition XND_EXIT_FAILURE : Z := 222.

(** ** Targets and the graph of children *)

Record xnd_restart_target := Target { header : xnd_ckpt_header }.
Definition pid (t : xnd_restart_target) : Z := h_pid (header t).
Definition ppid (t : xnd_restart_target) : Z := h_ppid (header t).
Definition sid (t : xnd_restart_target) : Z := h_sid (header t).
Definition pgid (t : xnd_restart_target) : Z := h_pgid (header t).
(** The constructor asserts that the header has the target's own id. *)
Definition xnd_pid (t : xnd_restart_target) : Z := h_xnd_pid (header t).
Definition xnd_ppid (t : xnd_restart_target) : Z := h_xnd_ppid (header t).
Definition was_not_orphan (t : xnd_restart_target) : bool := negb (ppid t =? 1).
Definition was_root_of_tree (t : xnd_restart_target) : bool := negb (h_is_root_of_tree (header t) =? 0).
Definition was_group_leader (t : xnd_restart_target) : bool := pid t =? pgid t.
Definition was_group_leader_of (t other : xnd_restart_target) : bool := pid t =? pgid other.
Definition was_session_leader (t : xnd_restart_target) : bool := pid t =? sid t.
Definition was_session_leader_of (t other : xnd_restart_target) : bool := pid t =? sid other.
Definition was_child_of (t other : xnd_restart_target) : bool := xnd_ppid t =? xnd_pid other.
Definition was_parent_of (t other : xnd_restart_target) : bool := xnd_pid t =? xnd_ppid other.

Section restart.
Context (targets : list xnd_restart_target).

(** [f] of the targets at two pointers. *)
Definition at2 (f : xnd_restart_target -> xnd_restart_target -> bool) (i j : nat) : bool :=
  match targets !! i, targets !! j with Some t, Some u => f t u | _, _ => false end.
Definition at1 (f : xnd_restart_target -> bool) (i : nat) : bool :=
  match targets !! i with Some t => f t | None => false end.
Definition all_targets : list nat := seq 0 (length targets).

(** The constructor: [_map] and [_indegree]. *)
Record xnd_restart_dag := Dag { _indegree : gmap nat Z; _map : gmap nat (list nat) }.
Definition push_child (t : nat) (m : gmap nat (list nat)) (c : nat) : gmap nat (list nat) :=
  if bool_decide (t = c) then m
  else if at2 was_child_of c t then <[t := default [] (m !! t) ++ [c]]> m else m.
Definition count_child (m : gmap nat Z) (c : nat) : gmap nat Z := <[c := default 0 (m !! c) + 1]> m.
Definition dag : xnd_restart_dag :=
  let ind := foldl (fun m t => <[t := 0]> m) ∅ all_targets in
  let map := foldl (fun m t => foldl (push_child t) m all_targets) ∅ all_targets in
  Dag (map_fold (fun _ children m => foldl count_child m children) ind map) map.
Definition indegree_of (t : nat) : Z := default 0 (_indegree dag !! t).
Definition children_of (t : nat) : list nat := default [] (_map dag !! t).

(** ** Processes *)

(** What a process runs: this program, or the image of a target; or it has
    exited and was not waited for. *)
Inductive life : Type := Restarting | Became (t : nat) | Zombie.
Record kproc := Kproc { p_ppid : Z; p_pgid : Z; p_sid : Z; p_life : life }.
(** The calling process and all processes. *)
Record kern := Kern { me : Z; procs : gmap Z kproc }.
Implicit Types k : kern.

(** [fork]'s choice of a process id, or that it fails; whether [posix_spawn]
    of a target's image succeeds. *)
Context (new_pid : gmap Z kproc -> option Z) (spawn_ok : nat -> bool).

Definition self_proc : M kern kproc := k ← get; deref (procs k !! me k).
Definition set_self (q : kproc) : M kern unit := modify (fun k => Kern (me k) (<[me k := q]> (procs k))).
Definition getpid : M kern Z := gets me.
Definition getsid0 : M kern Z := p_sid <$> self_proc.
Definition getpgrp : M kern Z := p_pgid <$> self_proc.

(** The end of process [p]: its children have init for a parent. *)
Definition reparent (p : Z) (q : kproc) : kproc :=
  if p_ppid q =? p then Kproc 1 (p_pgid q) (p_sid q) (p_life q) else q.
Definition ended (p : Z) (m : gmap Z kproc) : gmap Z kproc :=
  match m !! p with
  | Some q => <[p := Kproc (p_ppid q) (p_pgid q) (p_sid q) Zombie]> (reparent p <$> m)
  | None => m
  end.
Definition fork (child : M kern unit) : M kern Z := fun k =>
  match new_pid (procs k), procs k !! me k with
  | None, _ => Ret (-1) k
  | Some p, None => Ub
  | Some p, Some q =>
    match child (Kern p (<[p := Kproc (me k) (p_pgid q) (p_sid q) Restarting]> (procs k))) with
    | Ret _ k' => Ret p (Kern (me k) (procs k'))
    | Exit _ k' | Abort k' => Ret p (Kern (me k) (ended p (procs k')))
    | Ub => Ub
    | NoFuel => NoFuel
    end
  end.
(** [waitpid(child, nullptr, 0)]; a child that is alive is waited for. *)
Definition waitpid (child : Z) : M kern Z := fun k =>
  match procs k !! child with
  | Some q =>
    if negb (p_ppid q =? me k) then Ret (-1) k else
    match p_life q with Zombie => Ret child (Kern (me k) (delete child (procs k))) | _ => NoFuel end
  | None => Ret (-1) k
  end.
(** It fails when the caller's id is that of a process group. *)
Definition setsid : M kern Z :=
  k ← get;
  q ← self_proc;
  if existsb (fun pq => p_pgid pq.2 =? me k) (map_to_list (procs k)) then mret (-1) else
  set_self (Kproc (p_ppid q) (me k) (me k) (p_life q));; mret (me k).
(** [setpgid(0, 0)] fails for a session leader. *)
Definition setpgid00 : M kern Z :=
  k ← get;
  q ← self_proc;
  if p_sid q =? me k then mret (-1) else
  set_self (Kproc (p_ppid q) (me k) (p_sid q) (p_life q));; mret 0.

(** ** Creating the processes *)

Definition exec_restart (t : nat) : M kern unit :=
  if spawn_ok t then q ← self_proc; set_self (Kproc (p_ppid q) (p_pgid q) (p_sid q) (Became t))
  else exit_with XND_EXIT_FAILURE.

(** [process t create_roots] is [t->create_process(create_roots)]. *)
Section create.
Context (process : nat -> bool -> M kern unit) (independent_roots : list nat).

Definition create_child (t : nat) : M kern unit :=
  r ← fork (process t false);
  if r =? -1 then exit_with XND_EXIT_FAILURE else mret tt.
Definition create_orphan (create_roots : bool) (t : nat) : M kern unit :=
  child ← fork (r ← fork (process t create_roots);
                if r =? -1 then exit_with XND_EXIT_FAILURE else exit_with 0);
  if child =? -1 then exit_with XND_EXIT_FAILURE else
  r ← waitpid child;
  xnd_assert (r =? child).

Fixpoint for_each (f : nat -> M kern unit) (l : list nat) : M kern unit :=
  match l with [] => mret tt | t :: l => f t;; for_each f l end.

Definition before_leading (self child : nat) : M kern unit :=
  xnd_assert (negb (bool_decide (child = self)));;
  if at2 was_session_leader_of self child then mret tt
  else if at2 was_group_leader_of self child then mret tt
  else create_child child.
Definition lead (self : nat) : M kern unit :=
  p ← getpid;
  if at1 was_session_leader self then
    s ← getsid0;
    if negb (p =? s) then g ← getpgrp; xnd_assert (negb (p =? g));; setsid;; mret tt else mret tt
  else if at1 was_group_leader self then
    g ← getpgrp;
    if negb (p =? g) then setpgid00;; mret tt else mret tt
  else mret tt.
Definition child_or_orphan (self t : nat) : M kern unit :=
  if at2 was_parent_of self t then create_child t
  else if at1 was_root_of_tree t then create_orphan false t else mret tt.
Definition after_leading (self t : nat) : M kern unit :=
  if bool_decide (t = self) then mret tt
  else if at2 was_session_leader_of self t then child_or_orphan self t
  else if at2 was_group_leader_of self t then child_or_orphan self t
  else mret tt.

Definition create_process_body (self : nat) (create_roots : bool) : M kern unit :=
  (if create_roots
   then for_each (fun ir => if bool_decide (ir = self) then mret tt else create_orphan false ir) independent_roots
   else mret tt);;
  for_each (before_leading self) (children_of self);;
  lead self;;
  for_each (after_leading self) all_targets;;
  exec_restart self.
End create.

(** The fuel bounds how deep processes create processes. *)
Fixpoint create_process (fuel : nat) (independent_roots : list nat) (self : nat) (create_roots : bool) : M kern unit :=
  match fuel with
  | O => nofuel
  | S fuel => create_process_body (create_process fuel independent_roots) independent_roots self create_roots
  end.

(** ** [process_targets] *)

(** The assertions about [t], and whether it is an independent root. *)
Definition independent_root (t : nat) : M kern bool :=
  if negb (indegree_of t =? 0) then xnd_assert (negb (at1 was_root_of_tree t));; mret false else
  xnd_assert (at1 was_root_of_tree t);;
  mret (match List.find (fun s => negb (bool_decide (s = t)) && at2 was_session_leader_of s t) all_targets with
        | None => true
        | Some _ => false
        end).
Fixpoint find_roots (l : list nat) : M kern (list nat) :=
  match l with
  | [] => mret []
  | t :: l => b ← independent_root t; r ← find_roots l; mret (if (b : bool) then t :: r else r)
  end.

Definition process_targets (fuel : nat) : M kern unit :=
  independent_roots ← find_roots all_targets;
  xnd_assert (negb (bool_decide (independent_roots = [])));;
  match List.find (at1 was_not_orphan) independent_roots with
  | Some ir => create_process fuel independent_roots ir true
  | None =>
    r ← deref (independent_roots !! 0%nat);
    create_orphan (create_process fuel independent_roots) true r;;
    ub
  end.
End restart.
