(* ===== verification/RestartTree.v ===== *)
(** The tree of processes a restart creates, apart from the kernel: which
    process creates which in what order, and that a computation's processes
    are created once each, with the parents, sessions and groups they had. *)

From S2P Require Import Prelude CkptFile Restart.
Open Scope Z_scope.

(** ** Creators *)

(** The graph of children of [Restart], and which process creates which: each
    target has at most one creator, older than itself. *)

Section graph.
Context (targets : list xnd_restart_target).
Notation at2 := (at2 targets).
Notation at1 := (at1 targets).
Notation all := (all_targets targets).

Definition parent (i j : nat) : Prop := at2 was_parent_of i j = true.
Definition leads_session (i j : nat) : Prop := at2 was_session_leader_of i j = true.
Definition leads_group (i j : nat) : Prop := at2 was_group_leader_of i j = true.
Definition root (i : nat) : Prop := at1 was_root_of_tree i = true.

Lemma elem_of_all i : i ∈ all <-> (i < length targets)%nat.
Proof. unfold all_targets. rewrite elem_of_seq. lia. Qed.
Lemma NoDup_all : NoDup all.
Proof. apply NoDup_seq. Qed.
Lemma at2_in f i j : at2 f i j = true -> i ∈ all /\ j ∈ all.
Proof.
  unfold Restart.at2. intros H. destruct (targets !! i) eqn:E1; [|done]. destruct (targets !! j) eqn:E2; [|done].
  rewrite !elem_of_all. split; by eapply lookup_lt_Some.
Qed.
Lemma at1_in f i : at1 f i = true -> i ∈ all.
Proof.
  unfold Restart.at1. intros H. destruct (targets !! i) eqn:E1; [|done]. rewrite elem_of_all. by eapply lookup_lt_Some.
Qed.
Lemma child_of_parent i j : at2 was_child_of j i = at2 was_parent_of i j.
Proof.
  unfold Restart.at2, was_child_of, was_parent_of. destruct (targets !! i), (targets !! j); try done. apply Z.eqb_sym.
Qed.
Lemma leader_self i : at2 was_session_leader_of i i = at1 was_session_leader i /\ at2 was_group_leader_of i i = at1 was_group_leader i.
Proof. unfold Restart.at2, Restart.at1. by destruct (targets !! i). Qed.

(** ** The constructor of the graph *)

Definition is_child (t c : nat) : bool := negb (bool_decide (t = c)) && at2 was_parent_of t c.
Lemma push_child_other t m c t' : t' <> t -> push_child targets t m c !! t' = m !! t'.
Proof. intros Hn. unfold push_child. case_bool_decide; [done|]. destruct (at2 _ _ _); [|done]. by rewrite lookup_insert_ne. Qed.
Lemma push_children t m l :
  default [] (foldl (push_child targets t) m l !! t) = default [] (m !! t) ++ List.filter (is_child t) l /\
  forall t', t' <> t -> foldl (push_child targets t) m l !! t' = m !! t'.
Proof.
  revert m. induction l as [|c l IH]; intros m; [by rewrite app_nil_r|]. cbn [foldl List.filter].
  destruct (IH (push_child targets t m c)) as [-> H2]. split; [|intros t' Ht; by rewrite H2, push_child_other].
  unfold push_child, is_child. case_bool_decide; cbn [negb andb]; [done|]. rewrite child_of_parent.
  destruct (at2 was_parent_of t c); [|done]. rewrite lookup_insert_eq. cbn. by rewrite <- app_assoc.
Qed.
Lemma child_map ts l m t : NoDup ts ->
  default [] (foldl (fun m t => foldl (push_child targets t) m l) m ts !! t) =
  default [] (m !! t) ++ (if decide (t ∈ ts) then List.filter (is_child t) l else []).
Proof.
  revert m. induction ts as [|u ts IH]; intros m Hnd.
  - cbn. by rewrite app_nil_r.
  - apply NoDup_cons in Hnd as [Hu Hnd]. cbn [foldl]. rewrite IH by done. destruct (push_children u m l) as [H1 H2].
    destruct (decide (t = u)) as [->|Hn].
    + rewrite H1. rewrite (decide_False (P := u ∈ ts)) by done. rewrite (decide_True (P := u ∈ u :: ts)) by apply list_elem_of_here. by rewrite app_nil_r.
    + rewrite H2 by done. f_equal. apply decide_ext. rewrite elem_of_cons. naive_solver.
Qed.
Lemma children_of_eq t : t ∈ all -> children_of targets t = List.filter (is_child t) all.
Proof.
  intros Ht. unfold children_of, dag. cbn [_map]. rewrite child_map by apply NoDup_all.
  rewrite lookup_empty, decide_True by done. done.
Qed.

Lemma count_children l m c : (forall x, 0 <= default 0 (m !! x)) ->
  (default 0 (foldl count_child m l !! c) = 0 <-> default 0 (m !! c) = 0 /\ c ∉ l) /\
  (forall x, 0 <= default 0 (foldl count_child m l !! x)).
Proof.
  revert m. induction l as [|d l IH]; intros m Hm; [set_solver|]. cbn [foldl].
  destruct (IH (count_child m d)) as [H1 H2].
  { intros x. unfold count_child. destruct (decide (x = d)) as [->|]; [rewrite lookup_insert_eq; specialize (Hm d); cbn; lia|by rewrite lookup_insert_ne]. }
  split; [|done]. rewrite H1. unfold count_child. destruct (decide (c = d)) as [->|Hn].
  - rewrite lookup_insert_eq. specialize (Hm d). cbn. split; [lia|set_solver].
  - rewrite lookup_insert_ne by done. set_solver.
Qed.
Lemma zeros ts (m : gmap nat Z) : (forall x, default 0 (m !! x) = 0) -> forall x, default 0 (foldl (fun m t => <[t := 0]> m) m ts !! x) = 0.
Proof.
  revert m. induction ts as [|u ts IH]; intros m Hm x; [done|]. cbn [foldl]. apply IH. intros y.
  destruct (decide (y = u)) as [->|]; [by rewrite lookup_insert_eq|by rewrite lookup_insert_ne].
Qed.
Lemma indegree_fold (ind : gmap nat Z) (mp : gmap nat (list nat)) c : (forall x, default 0 (ind !! x) = 0) ->
  (default 0 (map_fold (fun _ children m => foldl count_child m children) ind mp !! c) = 0 <->
   forall t l, mp !! t = Some l -> c ∉ l).
Proof.
  intros Hi. set (f := fun _ : nat => _).
  enough ((default 0 (map_fold f ind mp !! c) = 0 <-> forall t l, mp !! t = Some l -> c ∉ l) /\
    forall x, 0 <= default 0 (map_fold f ind mp !! x)) as [? _] by done.
  apply (map_fold_weak_ind (fun r mp => (default 0 (r !! c) = 0 <-> forall t l, mp !! t = Some l -> c ∉ l) /\ forall x, 0 <= default 0 (r !! x))).
  - split; [|intros x; rewrite Hi; lia]. rewrite Hi. by split.
  - intros t l m r Hm [IH1 IH2]. unfold f. destruct (count_children l r c IH2) as [-> H2]. split; [|done]. rewrite IH1. split.
    + intros [H3 H4] u l' [[<- <-]|[_ Hu]]%lookup_insert_Some; [done|by eapply H3].
    + intros H3. split; [|apply (H3 t); by rewrite lookup_insert_eq]. intros u l' Hu. apply (H3 u).
      rewrite lookup_insert_ne; [done|]. intros ->. congruence.
Qed.
Lemma indegree_of_eq c : c ∈ all -> indegree_of targets c = 0 <-> forall i, i <> c -> ~ parent i c.
Proof.
  intros Hc. unfold indegree_of, dag. cbn [_indegree]. rewrite indegree_fold by (apply zeros; intros x; by rewrite lookup_empty). split.
  - intros H i Hn Hp. pose proof (at2_in _ _ _ Hp) as [Hi _]. pose proof (child_map all all ∅ i NoDup_all) as Hm.
    rewrite decide_True, lookup_empty in Hm by done. cbn [default app] in Hm.
    destruct (foldl _ _ _ !! i) as [l|] eqn:E; cbn in Hm.
    + apply (H i l E). rewrite Hm. apply list_elem_of_In, List.filter_In. split; [by apply list_elem_of_In|].
      unfold is_child. rewrite bool_decide_eq_false_2 by done. exact Hp.
    + assert (c ∈ ([] : list nat)) as []%not_elem_of_nil. rewrite Hm. apply list_elem_of_In, List.filter_In. split; [by apply list_elem_of_In|].
      unfold is_child. rewrite bool_decide_eq_false_2 by done. exact Hp.
  - intros H t l Hl Hin. pose proof (child_map all all ∅ t NoDup_all) as Hm. rewrite Hl, lookup_empty in Hm. cbn [default app] in Hm.
    case_decide as Ht; cbn in Hm; subst l; [|by apply not_elem_of_nil in Hin]. apply list_elem_of_In, List.filter_In in Hin as [_ Hin].
    unfold is_child in Hin. apply andb_true_iff in Hin as [Hn Hp]. case_bool_decide; [done|]. by apply (H t).
Qed.
End graph.

(** ** The tree *)

Section tree.
Context (targets : list xnd_restart_target).
Notation at2 := (at2 targets).
Notation at1 := (at1 targets).
Notation all := (all_targets targets).
Notation parent := (parent targets).
Notation leads_session := (leads_session targets).
Notation leads_group := (leads_group targets).
Notation root := (root targets).

(** What the processes of one computation have in common: ids are unique, a
    process is younger than its parent and than the leader of its session,
    roots are the processes without a parent, and no root is in a process
    group that another process of the computation leads, unless that one
    leads its session too. *)
Record computation : Prop := {
  c_pid i j ti tj : targets !! i = Some ti -> targets !! j = Some tj -> pid ti = pid tj -> i = j;
  c_xnd_pid i j ti tj : targets !! i = Some ti -> targets !! j = Some tj -> xnd_pid ti = xnd_pid tj -> i = j;
  c_parent i j ti tj : targets !! i = Some ti -> targets !! j = Some tj -> parent i j -> xnd_pid ti < xnd_pid tj;
  c_leader i j ti tj : targets !! i = Some ti -> targets !! j = Some tj -> i <> j -> leads_session i j -> xnd_pid ti < xnd_pid tj;
  c_root j : j ∈ all -> root j <-> forall i, ~ parent i j;
  c_group i j : root j -> leads_group i j -> i = j \/ leads_session i j
}.

(** [i] creates [j]. *)
Definition makes (i j : nat) : bool :=
  negb (bool_decide (i = j)) && (at2 was_parent_of i j || (at1 was_root_of_tree j && at2 was_session_leader_of i j)).
Definition creator (j : nat) : option nat := List.find (fun i => makes i j) all.

(** The targets a process creates before and after it takes its place in a
    session or group, with whether they are orphaned. *)
Definition child_first (i j : nat) : bool := is_child targets i j && negb (at2 was_session_leader_of i j) && negb (at2 was_group_leader_of i j).
Definition child_later (i j : nat) : bool :=
  negb (bool_decide (j = i)) && (at2 was_session_leader_of i j || at2 was_group_leader_of i j) &&
  (at2 was_parent_of i j || at1 was_root_of_tree j).
Definition first_kids (i : nat) : list (nat * bool) := (fun j => (j, false)) <$> List.filter (child_first i) all.
Definition later_kids (i : nat) : list (nat * bool) := (fun j => (j, negb (at2 was_parent_of i j))) <$> List.filter (child_later i) all.

(** Group and session of process [p] of target [i] once it has taken its place. *)
Definition place_of (i : nat) (p pg sd : Z) : Z * Z :=
  if at1 was_session_leader i then (p, p) else if at1 was_group_leader i then (p, sd) else (pg, sd).

(** [made i p pp pg sd l]: process [p], with parent [pp], forked in group [pg]
    and session [sd] to become target [i], and the processes below it. *)
Inductive made : nat -> Z -> Z -> Z -> Z -> list (Z * kproc) -> Prop :=
  | made_intro i p pp pg sd pg' sd' l1 l2 : i ∈ all -> place_of i p pg sd = (pg', sd') ->
      made_all p pg sd (first_kids i) l1 -> made_all p pg' sd' (later_kids i) l2 ->
      made i p pp pg sd ((p, Kproc pp pg' sd' (Became i)) :: l2 ++ l1)
with made_all : Z -> Z -> Z -> list (nat * bool) -> list (Z * kproc) -> Prop :=
  | made_nil p pg sd : made_all p pg sd [] []
  | made_cons p pg sd i (o : bool) ks q l1 l2 : made i q (if o then 1 else p) pg sd l1 -> made_all p pg sd ks l2 ->
      made_all p pg sd ((i, o) :: ks) (l2 ++ l1).
Scheme made_ind2 := Induction for made Sort Prop
  with made_all_ind2 := Induction for made_all Sort Prop.
Combined Scheme made_mut from made_ind2, made_all_ind2.

(** ** Each target has at most one creator *)

Context (Hc : computation).

Lemma parent_unique i i' j : parent i j -> parent i' j -> i = i'.
Proof.
  unfold RestartTree.parent, Restart.at2. destruct (targets !! i) eqn:E1, (targets !! j) eqn:E2, (targets !! i') eqn:E3; try done.
  unfold was_parent_of. intros H1%Z.eqb_eq H2%Z.eqb_eq. by apply (c_xnd_pid Hc i i' _ _ E1 E3); lia.
Qed.
Lemma session_unique i i' j : leads_session i j -> leads_session i' j -> i = i'.
Proof.
  unfold RestartTree.leads_session, Restart.at2. destruct (targets !! i) eqn:E1, (targets !! j) eqn:E2, (targets !! i') eqn:E3; try done.
  unfold was_session_leader_of. intros H1%Z.eqb_eq H2%Z.eqb_eq. by apply (c_pid Hc i i' _ _ E1 E3); lia.
Qed.
Lemma group_unique i i' j : leads_group i j -> leads_group i' j -> i = i'.
Proof.
  unfold RestartTree.leads_group, Restart.at2. destruct (targets !! i) eqn:E1, (targets !! j) eqn:E2, (targets !! i') eqn:E3; try done.
  unfold was_group_leader_of. intros H1%Z.eqb_eq H2%Z.eqb_eq. by apply (c_pid Hc i i' _ _ E1 E3); lia.
Qed.
Lemma parent_not_root i j : parent i j -> ~ root j.
Proof. intros Hp Hr. pose proof (at1_in _ _ _ Hr) as Hj. apply (proj1 (c_root Hc j Hj) Hr i Hp). Qed.
Lemma parent_neq i j : parent i j -> i <> j.
Proof.
  intros Hp ->. pose proof Hp as Hp'. unfold RestartTree.parent, Restart.at2 in Hp'.
  destruct (targets !! j) eqn:E; [|done]. pose proof (c_parent Hc j j _ _ E E Hp). lia.
Qed.

Lemma makes_spec i j : makes i j = true <-> parent i j \/ (i <> j /\ root j /\ leads_session i j).
Proof.
  unfold makes, RestartTree.parent, RestartTree.root, RestartTree.leads_session. rewrite andb_true_iff, orb_true_iff, andb_true_iff.
  case_bool_decide as E; cbn; [|naive_solver]. subst j. split; [naive_solver|]. intros [H|H]; [|naive_solver].
  by destruct (parent_neq i i H).
Qed.
Lemma makes_in i j : makes i j = true -> i ∈ all /\ j ∈ all.
Proof. rewrite makes_spec. intros [H|(_ & _ & H)]; by eapply at2_in. Qed.
Lemma makes_unique i i' j : makes i j = true -> makes i' j = true -> i = i'.
Proof.
  rewrite !makes_spec. intros [H1|(_ & H1 & H2)] [H3|(_ & H3 & H4)].
  - by eapply parent_unique.
  - by destruct (parent_not_root i j H1).
  - by destruct (parent_not_root i' j H3).
  - by eapply session_unique.
Qed.
Lemma creator_spec i j : creator j = Some i <-> makes i j = true.
Proof.
  unfold creator. split; [intros H; by apply find_Some_elem in H as [_ ?]|]. intros H.
  destruct (List.find _ all) as [i'|] eqn:E.
  - apply find_Some_elem in E as [_ E]. by rewrite (makes_unique i i' j H E).
  - rewrite find_None_elem in E. pose proof (makes_in i j H) as [Hi _]. by rewrite (E i Hi) in H.
Qed.
Lemma makes_older i j : makes i j = true -> exists ti tj, targets !! i = Some ti /\ targets !! j = Some tj /\ xnd_pid ti < xnd_pid tj.
Proof.
  intros Hm. pose proof (makes_in i j Hm) as [[ti Hi]%elem_of_all%lookup_lt_is_Some_2 [tj Hj]%elem_of_all%lookup_lt_is_Some_2].
  exists ti, tj. split; [done|]. split; [done|]. apply makes_spec in Hm as [Hp|(Hn & _ & Hs)].
  - by apply (c_parent Hc i j).
  - by apply (c_leader Hc i j).
Qed.

(** The two phases create each target [i] makes once. *)
Lemma kids_split i j : makes i j = true <-> child_first i j = true /\ child_later i j = false \/ child_first i j = false /\ child_later i j = true.
Proof.
  rewrite makes_spec. unfold child_first, child_later, is_child.
  assert (forall b, Restart.at2 targets was_parent_of i j = b -> parent i j <-> b = true) as Hp by (intros b <-; done).
  assert (root j <-> at1 was_root_of_tree j = true) as Hr by done.
  assert (leads_session i j <-> at2 was_session_leader_of i j = true) as Hs by done.
  assert (at2 was_group_leader_of i j = true -> root j -> i = j \/ leads_session i j) as Hg by (intros; by apply (c_group Hc)).
  pose proof (parent_neq i j) as Hn. pose proof (parent_not_root i j) as Hnr. specialize (Hp _ eq_refl).
  rewrite (bool_decide_ext (j = i) (i = j)) by naive_solver.
  destruct (bool_decide_reflect (i = j)); cbn [negb andb]; [naive_solver|].
  destruct (at2 was_parent_of i j), (at2 was_session_leader_of i j), (at2 was_group_leader_of i j), (at1 was_root_of_tree j);
    cbn [negb andb orb] in *; naive_solver.
Qed.

(** ** Every target is created once *)

Definition becomes (z : nat) (pq : Z * kproc) : bool := match p_life pq.2 with Became i => bool_decide (i = z) | _ => false end.
Definition copies (z : nat) (l : list (Z * kproc)) : nat := length (List.filter (becomes z) l).
Definition hit (i z : nat) : nat := if bool_decide (i = z) then 1%nat else 0%nat.
Definition asked (z : nat) (ks : list (nat * bool)) : nat := length (List.filter (fun k => bool_decide (k.1 = z)) ks).
(** How many processes there are that create [z]. *)
Definition creators (z : nat) (l : list (Z * kproc)) : nat := from_option (fun c => copies c l) 0%nat (creator z).

Lemma copies_app z l1 l2 : copies z (l1 ++ l2) = (copies z l1 + copies z l2)%nat.
Proof. unfold copies. by rewrite List.filter_app, length_app. Qed.
Lemma copies_cons z p pp pg sd i l : copies z ((p, Kproc pp pg sd (Became i)) :: l) = (hit i z + copies z l)%nat.
Proof. unfold copies, hit. cbn. by case_bool_decide. Qed.
Lemma asked_cons z i o ks : asked z ((i, o) :: ks) = (hit i z + asked z ks)%nat.
Proof. unfold asked, hit. cbn. by case_bool_decide. Qed.
Lemma creators_app z l1 l2 : creators z (l1 ++ l2) = (creators z l1 + creators z l2)%nat.
Proof. unfold creators. destruct (creator z); cbn; [apply copies_app|done]. Qed.

Lemma asked_filter f g z l : NoDup l -> asked z ((fun j => (j, g j)) <$> List.filter f l) = if decide (z ∈ l) then Nat.b2n (f z) else 0%nat.
Proof.
  unfold asked. induction l as [|x l IH]; intros Hnd; [done|]. apply NoDup_cons in Hnd as [Hx Hnd]. cbn [List.filter].
  assert (length (List.filter (fun k => bool_decide (k.1 = z)) ((fun j => (j, g j)) <$> (if f x then x :: List.filter f l else List.filter f l))) =
    ((if f x then hit x z else 0) + length (List.filter (fun k : nat * bool => bool_decide (k.1 = z)) ((fun j => (j, g j)) <$> List.filter f l)))%nat) as ->.
  { destruct (f x); [|done]. unfold hit. cbn. by case_bool_decide. }
  rewrite IH by done. unfold hit. case_bool_decide as E.
  - subst z. rewrite (decide_False (P := x ∈ l)) by done. rewrite decide_True by apply list_elem_of_here. by destruct (f x).
  - replace (if f x then 0%nat else 0%nat) with 0%nat by by destruct (f x). apply decide_ext. rewrite elem_of_cons. naive_solver.
Qed.
Lemma asked_kids i z : z ∈ all -> (asked z (first_kids i) + asked z (later_kids i))%nat = Nat.b2n (makes i z).
Proof.
  intros Hz. unfold first_kids, later_kids. rewrite !asked_filter by apply NoDup_all. rewrite !decide_True by done.
  destruct (makes i z) eqn:E.
  - apply kids_split in E as [[-> ->]|[-> ->]]; done.
  - destruct (child_first i z) eqn:E1, (child_later i z) eqn:E2; try done.
    + exfalso. unfold child_first, child_later, is_child in *. destruct (at2 was_session_leader_of i z), (at2 was_group_leader_of i z);
        cbn in *; rewrite ?andb_false_r in *; done.
    + by rewrite (proj2 (kids_split i z)) in E by auto.
    + by rewrite (proj2 (kids_split i z)) in E by auto.
Qed.

Lemma copies_made :
  (forall i p pp pg sd l, made i p pp pg sd l -> forall z, z ∈ all -> copies z l = (hit i z + creators z l)%nat) /\
  (forall p pg sd ks l, made_all p pg sd ks l -> forall z, z ∈ all -> copies z l = (asked z ks + creators z l)%nat).
Proof.
  apply made_mut.
  - intros i p pp pg sd pg' sd' l1 l2 Hi _ _ IH1 _ IH2 z Hz. rewrite copies_cons, copies_app, (IH1 z Hz), (IH2 z Hz).
    pose proof (asked_kids i z Hz) as Hk. unfold creators. destruct (creator z) as [c|] eqn:E; cbn [from_option].
    + rewrite copies_cons, copies_app. apply creator_spec in E. destruct (decide (i = c)) as [->|Ei].
      * rewrite E in Hk. cbn in Hk. assert (hit c c = 1%nat) by (unfold hit; by rewrite bool_decide_eq_true_2). lia.
      * assert (hit i c = 0%nat) by (unfold hit; by rewrite bool_decide_eq_false_2). destruct (makes i z) eqn:Em; [by destruct Ei; eapply makes_unique|]. cbn in Hk. lia.
    + destruct (makes i z) eqn:Em; [by apply creator_spec in Em; rewrite E in Em|]. cbn in Hk. lia.
  - intros p pg sd z Hz. unfold creators. by destruct (creator z).
  - intros p pg sd i o ks q l1 l2 _ IH1 _ IH2 z Hz. rewrite copies_app, (IH1 z Hz), (IH2 z Hz), asked_cons, creators_app. lia.
Qed.

(** How many targets are older, and how many younger. *)
Definition xnd_pid_lt (i j : nat) : bool := at2 (fun t u => xnd_pid t <? xnd_pid u) i j.
Definition older (i : nat) : nat := length (List.filter (fun j => xnd_pid_lt j i) all).
Definition younger (i : nat) : nat := length (List.filter (fun j => xnd_pid_lt i j) all).

Lemma filter_lt {A} (f g : A -> bool) l x : (forall y, f y = true -> g y = true) -> x ∈ l -> f x = false -> g x = true ->
  (length (List.filter f l) < length (List.filter g l))%nat.
Proof.
  intros Hfg Hx Hf Hg. assert (forall l', (length (List.filter f l') <= length (List.filter g l'))%nat) as Hle.
  { induction l' as [|y l' IH]; [done|]. cbn [List.filter]. specialize (Hfg y). destruct (f y), (g y); cbn; lia. }
  induction l as [|y l IH]; [by apply not_elem_of_nil in Hx|]. apply elem_of_cons in Hx as [->|Hx]; cbn [List.filter].
  - rewrite Hf, Hg. cbn. specialize (Hle l). lia.
  - specialize (IH Hx). specialize (Hfg y). destruct (f y), (g y); cbn; lia.
Qed.
Lemma xnd_pid_lt_spec i j ti tj : targets !! i = Some ti -> targets !! j = Some tj -> xnd_pid_lt i j = true <-> xnd_pid ti < xnd_pid tj.
Proof. intros Hi Hj. unfold xnd_pid_lt, Restart.at2. rewrite Hi, Hj. apply Z.ltb_lt. Qed.
Lemma xnd_pid_lt_trans i j k : xnd_pid_lt i j = true -> xnd_pid_lt j k = true -> xnd_pid_lt i k = true.
Proof.
  unfold xnd_pid_lt, Restart.at2. destruct (targets !! i), (targets !! j), (targets !! k); try done. rewrite !Z.ltb_lt. lia.
Qed.
Lemma xnd_pid_lt_irrefl i : xnd_pid_lt i i = false.
Proof. unfold xnd_pid_lt, Restart.at2. destruct (targets !! i); [|done]. apply Z.ltb_irrefl. Qed.
Lemma makes_order i j : makes i j = true -> (older i < older j)%nat /\ (younger j < younger i)%nat.
Proof.
  intros Hm. destruct (makes_older i j Hm) as (ti & tj & Hi & Hj & Hlt). pose proof (makes_in i j Hm) as [Hi' Hj'].
  pose proof (proj2 (xnd_pid_lt_spec i j ti tj Hi Hj) Hlt) as Hx. split.
  - apply (filter_lt _ _ _ i); [|done|by apply xnd_pid_lt_irrefl|done]. intros y Hy. by eapply xnd_pid_lt_trans.
  - apply (filter_lt _ _ _ j); [|done|by apply xnd_pid_lt_irrefl|done]. intros y Hy. by eapply xnd_pid_lt_trans.
Qed.

(** Processes that are the targets without a creator, once each, and
    everything below them are each target once. *)
Lemma copies_one l : (forall z, z ∈ all -> copies z l = ((if creator z then 0 else 1) + creators z l)%nat) ->
  forall z, z ∈ all -> copies z l = 1%nat.
Proof.
  intros Hl z. induction (well_founded_ltof _ older z) as [z _ IH]. unfold ltof in IH. intros Hz.
  rewrite Hl by done. unfold creators. destruct (creator z) as [c|] eqn:E; [|done]. apply creator_spec in E. cbn.
  apply IH; [exact (proj1 (makes_order c z E))|exact (proj1 (makes_in c z E))].
Qed.

(** ** Each process has the place its target had *)

(** Process [x] leads what [z] led. *)
Definition leads_as (x : Z) (q : kproc) (z : nat) : Prop :=
  (at1 was_session_leader z = true -> p_sid q = x /\ p_pgid q = x) /\ (at1 was_group_leader z = true -> p_pgid q = x).
(** It is where it was forked, with parent [pp], if it led nothing. *)
Definition inherits (pp pg sd : Z) (q : kproc) (z : nat) : Prop :=
  p_ppid q = pp /\ (at1 was_session_leader z = false -> p_sid q = sd /\ (at1 was_group_leader z = false -> p_pgid q = pg)).
(** Its creator is process [x'] of target [c], and leads it as [c] led [z]. *)
Definition follows (x' : Z) (c : nat) (q : kproc) (z : nat) : Prop :=
  makes c z = true /\ p_ppid q = (if at2 was_parent_of c z then x' else 1) /\
  (at1 was_session_leader c = true -> leads_session c z -> p_sid q = x') /\
  (at1 was_group_leader c = true -> leads_group c z -> at1 was_session_leader z = false -> p_pgid q = x').
Definition below (l : list (Z * kproc)) (q : kproc) (z : nat) : Prop :=
  exists x' q' c, (x', q') ∈ l /\ p_life q' = Became c /\ follows x' c q z.

Lemma below_mono l l' q z : l ⊆ l' -> below l q z -> below l' q z.
Proof. intros Hl (x' & q' & c & Hin & H). exists x', q', c. split; [by apply Hl|done]. Qed.

(** A created target that its creator led was not a leader itself. *)
Lemma led_not_leader c z : c <> z -> (leads_session c z -> at1 was_session_leader z = false) /\ (leads_group c z -> at1 was_group_leader z = false).
Proof.
  intros Hn. destruct (leader_self targets z) as [H1 H2]. split; intros Hl; apply not_true_is_false; [rewrite <- H1|rewrite <- H2]; intros Hz; apply Hn.
  - by eapply session_unique.
  - by eapply group_unique.
Qed.
Lemma kid_makes i z : ((z, false) ∈ first_kids i -> makes i z = true /\ at2 was_parent_of i z = true /\ ~ leads_session i z /\ ~ leads_group i z) /\
  forall o, (z, o) ∈ later_kids i -> makes i z = true /\ o = negb (at2 was_parent_of i z).
Proof.
  split.
  - intros (z' & [= <-] & Hz)%list_elem_of_fmap. apply list_elem_of_In, List.filter_In in Hz as [_ Hz]. unfold child_first, is_child in Hz.
    rewrite !andb_true_iff, !negb_true_iff in Hz. destruct Hz as [[[_ Hp] Hs] Hg]. split; [apply makes_spec; by left|].
    unfold RestartTree.leads_session, RestartTree.leads_group. by rewrite Hs, Hg.
  - intros o (z' & [= <- ->] & Hz)%list_elem_of_fmap. apply list_elem_of_In, List.filter_In in Hz as [_ Hz]. split; [|done].
    apply kids_split. right. split; [|done]. unfold child_first, child_later, is_child in *.
    destruct (at2 was_session_leader_of i z), (at2 was_group_leader_of i z); cbn in *; rewrite ?andb_false_r in *; done.
Qed.
Lemma kids_follow i p pg sd pg' sd' q z (o : bool) : place_of i p pg sd = (pg', sd') ->
  ((z, o) ∈ first_kids i -> inherits (if o then 1 else p) pg sd q z -> follows p i q z) /\
  ((z, o) ∈ later_kids i -> inherits (if o then 1 else p) pg' sd' q z -> follows p i q z).
Proof.
  intros Hpl. split; intros Hk (Hpp & Hin).
  - assert (o = false) as -> by by apply list_elem_of_fmap in Hk as (? & [= _ ->] & _).
    apply kid_makes in Hk as (Hm & Hp & Hs & Hg). split; [done|]. rewrite Hp. by split.
  - apply kid_makes in Hk as [Hm ->]. split; [done|]. rewrite Hpp.
    assert (i <> z) as Hn by (intros ->; unfold makes in Hm; by rewrite bool_decide_eq_true_2 in Hm).
    destruct (led_not_leader i z Hn) as [H1 H2]. unfold place_of in Hpl.
    split; [by destruct (at2 was_parent_of i z)|]. split.
    + intros Hi Hz. rewrite Hi in Hpl. injection Hpl as <- <-. by apply Hin, H1.
    + intros Hi Hz Hns. destruct (Hin Hns) as [_ Hg]. rewrite (Hg (H2 Hz)). rewrite Hi in Hpl. destruct (at1 was_session_leader i); by injection Hpl as <- <-.
Qed.

Lemma made_places :
  (forall i p pp pg sd l, made i p pp pg sd l -> forall x q, (x, q) ∈ l -> exists z, p_life q = Became z /\ z ∈ all /\ leads_as x q z /\
     ((x = p /\ z = i /\ inherits pp pg sd q z) \/ below l q z)) /\
  (forall p pg sd ks l, made_all p pg sd ks l -> forall x q, (x, q) ∈ l -> exists z, p_life q = Became z /\ z ∈ all /\ leads_as x q z /\
     ((exists o : bool, (z, o) ∈ ks /\ inherits (if o then 1 else p) pg sd q z) \/ below l q z)).
Proof.
  apply made_mut.
  - intros i p pp pg sd pg' sd' l1 l2 Hi Hpl _ IH1 _ IH2 x q [Hx|[Hx|Hx]%elem_of_app]%elem_of_cons.
    + injection Hx as -> ->. exists i. cbn. split; [done|]. split; [done|]. unfold place_of in Hpl.
      split; [split|left; split; [done|split; [done|split; [done|]]]]; cbn.
      * intros E. rewrite E in Hpl. by injection Hpl as <- <-.
      * intros E. rewrite E in Hpl. destruct (at1 was_session_leader i); by injection Hpl as <- <-.
      * intros E. rewrite E in Hpl. destruct (at1 was_group_leader i); by injection Hpl as <- <-.
    + destruct (IH2 x q Hx) as (z & Hz & Ha & Hl & [(o & Hk & Hin)|Hb]); exists z; (split; [done|]; split; [done|]; split; [done|]); right.
      * exists p, (Kproc pp pg' sd' (Became i)), i. split; [apply list_elem_of_here|]. split; [done|]. exact (proj2 (kids_follow i p pg sd pg' sd' q z o Hpl) Hk Hin).
      * apply (below_mono l2); [set_solver|done].
    + destruct (IH1 x q Hx) as (z & Hz & Ha & Hl & [(o & Hk & Hin)|Hb]); exists z; (split; [done|]; split; [done|]; split; [done|]); right.
      * exists p, (Kproc pp pg' sd' (Became i)), i. split; [apply list_elem_of_here|]. split; [done|]. exact (proj1 (kids_follow i p pg sd pg' sd' q z o Hpl) Hk Hin).
      * apply (below_mono l1); [set_solver|done].
  - intros p pg sd x q []%not_elem_of_nil.
  - intros p pg sd i o ks p' l1 l2 _ IH1 _ IH2 x q [Hx|Hx]%elem_of_app.
    + destruct (IH2 x q Hx) as (z & Hz & Ha & Hl & [(o' & Hk & Hin)|Hb]); exists z; (split; [done|]; split; [done|]; split; [done|]).
      * left. exists o'. split; [by apply list_elem_of_further|done].
      * right. apply (below_mono l2); [set_solver|done].
    + destruct (IH1 x q Hx) as (z & Hz & Ha & Hl & [(-> & -> & Hin)|Hb]); eexists; (split; [done|]; split; [done|]; split; [done|]).
      * left. exists o. split; [apply list_elem_of_here|done].
      * right. apply (below_mono l1); [set_solver|done].
Qed.
End tree.
