(* ===== verification/RestartRun.v ===== *)
(** The run of [process_targets] on the kernel of [Restart]: it returns with
    exactly the processes of the tree of [RestartTree]. *)

From S2P Require Import Prelude CkptFile Restart RestartTree.
Open Scope Z_scope.

(** ** Processes added to the kernel's *)

Abbreviation pmap := (gmap Z kproc).
Fixpoint over (l : list (Z * kproc)) (m : pmap) : pmap := match l with [] => m | (p, q) :: l => <[p := q]> (over l m) end.
Lemma over_app l1 l2 m : over (l1 ++ l2) m = over l1 (over l2 m).
Proof. induction l1 as [|[p q] l1 IH]; [done|]. cbn. by rewrite IH. Qed.
Lemma over_out l m p : p ∉ l.*1 -> over l m !! p = m !! p.
Proof.
  induction l as [|[x q] l IH]; [done|]. cbn. intros [Hn Hp]%not_elem_of_cons. by rewrite lookup_insert_ne, IH.
Qed.
Lemma over_in l m p q : NoDup l.*1 -> (p, q) ∈ l -> over l m !! p = Some q.
Proof.
  induction l as [|[x y] l IH]; [by intros _ ?%not_elem_of_nil|]. cbn. intros [Hx Hnd]%NoDup_cons [[= <- <-]|Hin]%elem_of_cons; [by rewrite lookup_insert_eq|].
  rewrite lookup_insert_ne; [by apply IH|]. intros ->. apply Hx, list_elem_of_fmap. by exists (p, q).
Qed.
Lemma over_inv l m p q : over l m !! p = Some q -> (p, q) ∈ l \/ m !! p = Some q.
Proof.
  induction l as [|[x y] l IH]; cbn; [by right|]. intros [[<- <-]|[_ H]]%lookup_insert_Some; [left; apply list_elem_of_here|].
  destruct (IH H); [left; by apply list_elem_of_further|by right].
Qed.
Lemma over_insert l m p q : p ∉ l.*1 -> over l (<[p := q]> m) = <[p := q]> (over l m).
Proof.
  induction l as [|[x y] l IH]; [done|]. cbn. intros [Hn Hp]%not_elem_of_cons. rewrite IH by done. by apply insert_insert_ne.
Qed.

(** No process, group or session has the id, and none the parent. *)
Definition unused (p : Z) (m : pmap) : Prop :=
  1 < p /\ m !! p = None /\ forall x q, m !! x = Some q -> p_ppid q <> p /\ p_pgid q <> p /\ p_sid q <> p.
(** No group or session has it. *)
Definition lone (p : Z) (m : pmap) : Prop := forall x q, m !! x = Some q -> p_pgid q <> p /\ p_sid q <> p.
(** New processes have ids of their own. *)
Definition fresh (l : list (Z * kproc)) (m : pmap) : Prop := NoDup l.*1 /\ forall p, p ∈ l.*1 -> m !! p = None.

Lemma fresh_app l1 l2 m : fresh l1 m -> fresh l2 (over l1 m) -> fresh (l2 ++ l1) m.
Proof.
  intros [N1 F1] [N2 F2]. assert (forall p, p ∈ l2.*1 -> p ∉ l1.*1) as Hd.
  { intros p Hp [[x q] [-> Hx]]%list_elem_of_fmap. pose proof (F2 x Hp) as Hn. by rewrite (over_in l1 m x q) in Hn. }
  split.
  - rewrite fmap_app. apply NoDup_app. split; [done|]. split; [|done]. intros p Hp. by apply Hd.
  - intros p Hp. rewrite fmap_app in Hp. apply elem_of_app in Hp as [Hp|Hp]; [|by apply F1].
    pose proof (F2 p Hp) as H2. by rewrite over_out in H2 by by apply Hd.
Qed.

(** ** What [fork] can count on *)

(** It finds an id that no process, group or session has. *)
Definition forks (new_pid : pmap -> option Z) : Prop := forall m, exists p, new_pid m = Some p /\ unused p m.

Section run.
Context (targets : list xnd_restart_target) (new_pid : pmap -> option Z) (spawn_ok : nat -> bool).
Context (Hf : forks new_pid) (Hs : forall i, spawn_ok i = true).
Notation at2 := (at2 targets).
Notation at1 := (at1 targets).
Notation all := (all_targets targets).
Notation made := (made targets).
Notation made_all := (made_all targets).

(** The ids in the processes of a tree are those it was forked with, or its own. *)
Lemma made_ids :
  (forall i p pp pg sd l, made i p pp pg sd l -> exists q l', l = (p, q) :: l' /\ p_ppid q = pp /\
     (forall x y, (x, y) ∈ l -> p_pgid y = pg \/ p_pgid y ∈ l.*1) /\ (forall x y, (x, y) ∈ l -> p_sid y = sd \/ p_sid y ∈ l.*1) /\
     (forall x y, (x, y) ∈ l' -> p_ppid y = 1 \/ p_ppid y ∈ l.*1)) /\
  (forall p pg sd ks l, made_all p pg sd ks l ->
     (forall x y, (x, y) ∈ l -> p_pgid y = pg \/ p_pgid y ∈ l.*1) /\ (forall x y, (x, y) ∈ l -> p_sid y = sd \/ p_sid y ∈ l.*1) /\
     (forall x y, (x, y) ∈ l -> p_ppid y = 1 \/ p_ppid y = p \/ p_ppid y ∈ l.*1)).
Proof.
  apply made_mut.
  - intros i p pp pg sd pg' sd' l1 l2 Hi Hpl _ (A1 & B1 & C1) _ (A2 & B2 & C2). eexists _, _. split; [done|]. split; [done|].
    assert (pg' = pg \/ pg' = p) as Hpg by (unfold place_of in Hpl; repeat case_match; naive_solver).
    assert (sd' = sd \/ sd' = p) as Hsd by (unfold place_of in Hpl; repeat case_match; naive_solver).
    cbn [fmap list_fmap fst]. rewrite fmap_app. split; [|split].
    + intros x y [[= -> ->]|[Hx|Hx]%elem_of_app]%elem_of_cons; [cbn; set_solver|destruct (A2 x y Hx); set_solver|destruct (A1 x y Hx); set_solver].
    + intros x y [[= -> ->]|[Hx|Hx]%elem_of_app]%elem_of_cons; [cbn; set_solver|destruct (B2 x y Hx); set_solver|destruct (B1 x y Hx); set_solver].
    + intros x y [Hx|Hx]%elem_of_app; [destruct (C2 x y Hx) as [|[|]]; set_solver|destruct (C1 x y Hx) as [|[|]]; set_solver].
  - intros p pg sd. split; [|split]; intros x y []%not_elem_of_nil.
  - intros p pg sd i o ks q l1 l2 _ (y1 & l' & -> & D1 & A1 & B1 & C1) _ (A2 & B2 & C2). rewrite fmap_app. split; [|split]; intros x y [Hx|Hx]%elem_of_app.
    + destruct (A2 x y Hx); set_solver.
    + destruct (A1 x y Hx); set_solver.
    + destruct (B2 x y Hx); set_solver.
    + destruct (B1 x y Hx); set_solver.
    + destruct (C2 x y Hx) as [|[|]]; set_solver.
    + apply elem_of_cons in Hx as [[= -> ->]|Hx]; [rewrite D1; destruct o; auto|destruct (C1 x y Hx); set_solver].
Qed.
(** The parent a tree is under is that of its first process only. *)
Lemma made_reparent i p pp pg sd l : made i p pp pg sd l ->
  exists pg' sd' l', l = (p, Kproc pp pg' sd' (Became i)) :: l' /\ forall pp', made i p pp' pg sd ((p, Kproc pp' pg' sd' (Became i)) :: l').
Proof.
  intros H. inversion H as [i' p' pp0 pg0 sd0 pg' sd' l1 l2 Hi Hpl H1 H2]; subst. eexists _, _, _. split; [done|]. intros pp'. by eapply made_intro.
Qed.

(** What [create_process] does in a process that was just forked. *)
Definition creates (process : nat -> bool -> M kern unit) (i : nat) : Prop :=
  forall p m pp pg sd, m !! p = Some (Kproc pp pg sd Restarting) -> lone p m -> 1 < p ->
  exists l, made i p pp pg sd ((p, (Kproc pp (place_of targets i p pg sd).1 (place_of targets i p pg sd).2 (Became i))) :: l) /\
    fresh l m /\ p ∉ l.*1 /\
    process i false (Kern p m) = Ret tt (Kern p (over ((p, Kproc pp (place_of targets i p pg sd).1 (place_of targets i p pg sd).2 (Became i)) :: l) m)).

(** [fork] of a process that creates target [i]. *)
Lemma fork_creates process i k q : creates process i -> procs k !! me k = Some q -> 
  exists c l, made i c (me k) (p_pgid q) (p_sid q) l /\ fresh l (procs k) /\ fork new_pid (process i false) k = Ret c (Kern (me k) (over l (procs k))) /\ 1 < c.
Proof.
  intros Hp Hq. destruct (Hf (procs k)) as (c & Hn & Hc). destruct Hc as (Hc1 & Hc2 & Hc3).
  assert (me k <> c) as Hne by congruence.
  set (m := <[c := Kproc (me k) (p_pgid q) (p_sid q) Restarting]> (procs k)).
  destruct (Hp c m (me k) (p_pgid q) (p_sid q)) as (l & Hm & [Hnd Hl] & Hcl & Hr).
  - apply lookup_insert_eq.
  - intros x y [[<- <-]|[_ Hx]]%lookup_insert_Some; cbn; [by destruct (Hc3 _ _ Hq) as (_ & ? & ?)|by destruct (Hc3 x y Hx) as (_ & ? & ?)].
  - done.
  - eexists c, _. split; [exact Hm|]. split.
    + split; [cbn; by apply NoDup_cons|]. cbn. intros x [->|Hx]%elem_of_cons; [done|]. by apply Hl, lookup_insert_None in Hx as [? _].
    + split; [|done]. unfold fork. rewrite Hn, Hq. fold m. rewrite Hr. cbn [procs]. f_equal. f_equal. cbn [over]. unfold m. rewrite over_insert by done. apply insert_insert_eq.
Qed.

Lemma create_child_made process i k q : creates process i -> procs k !! me k = Some q ->
  exists c l, made i c (me k) (p_pgid q) (p_sid q) l /\ fresh l (procs k) /\
    create_child new_pid process i k = Ret tt (Kern (me k) (over l (procs k))).
Proof.
  intros Hp Hq. destruct (fork_creates process i k q Hp Hq) as (c & l & Hm & Hfr & Hr & Hc). exists c, l. split; [done|]. split; [done|].
  unfold create_child. rewrite (bind_ret _ _ _ _ _ Hr). by rewrite (proj2 (Z.eqb_neq _ _)) by lia.
Qed.

Lemma reparent_over d l m : reparent d <$> over l m = over ((fun pq => (pq.1, reparent d pq.2)) <$> l) (reparent d <$> m).
Proof. induction l as [|[p q] l IH]; [done|]. cbn. by rewrite fmap_insert, IH. Qed.
Lemma reparent_same d q : p_ppid q <> d -> reparent d q = q.
Proof. intros Hn. unfold reparent. by rewrite (proj2 (Z.eqb_neq _ _)). Qed.
Lemma reparent_unused d m : unused d m -> reparent d <$> m = m.
Proof.
  intros (_ & _ & H). apply map_eq. intros x. rewrite lookup_fmap. destruct (m !! x) as [q|] eqn:E; [|done]. cbn.
  by rewrite reparent_same by apply (H x q E).
Qed.

(** An orphan's intermediate process leaves no trace. *)
Lemma create_orphan_made process i k q : creates process i -> procs k !! me k = Some q -> 
  exists c l, made i c 1 (p_pgid q) (p_sid q) l /\ fresh l (procs k) /\
    create_orphan new_pid process false i k = Ret tt (Kern (me k) (over l (procs k))).
Proof.
  intros Hp Hq. destruct (Hf (procs k)) as (d & Hn & Hd). pose proof Hd as (Hd1 & Hd2 & Hd3).
  assert (me k <> d) as Hne by congruence. set (q1 := Kproc (me k) (p_pgid q) (p_sid q) Restarting).
  destruct (fork_creates process i (Kern d (<[d := q1]> (procs k))) q1 Hp (lookup_insert_eq _ _ _)) as (c & l & Hm & [Hnd Hl] & Hr & Hc).
  cbn [me procs p_pgid p_sid q1] in Hm, Hl, Hr. fold q1 in Hl, Hr.
  assert (d ∉ l.*1) as Hdl by (intros Hx; pose proof (Hl d Hx) as Hx'; by rewrite lookup_insert_eq in Hx').
  destruct (made_reparent i c d _ _ l Hm) as (pg' & sd' & l' & -> & Hre).
  destruct (proj1 made_ids _ _ _ _ _ _ Hm) as (y0 & l0 & [= <- <-] & _ & _ & _ & Hpp).
  exists c, ((c, Kproc 1 pg' sd' (Became i)) :: l'). split; [apply Hre|]. split.
  { split; [exact Hnd|]. intros x Hx. by apply Hl, lookup_insert_None in Hx as [? _]. }
  set (l := (c, Kproc d pg' sd' (Became i)) :: l') in *. set (l1 := (c, Kproc 1 pg' sd' (Became i)) :: l') in *.
  assert ((fun pq => (pq.1, reparent d pq.2)) <$> l = l1) as Hrl.
  { unfold l, l1. rewrite fmap_cons. f_equal; [unfold reparent; cbn; by rewrite Z.eqb_refl|].
    rewrite (list_fmap_ext _ id); [by rewrite list_fmap_id|]. intros j [x y] Hj. apply list_elem_of_lookup_2 in Hj. cbn.
    rewrite reparent_same; [done|]. intros E. destruct (Hpp x y Hj) as [Hx|Hx]; [lia|]. rewrite E in Hx. by apply Hdl. }
  assert (reparent d <$> over l (<[d := q1]> (procs k)) = <[d := q1]> (over l1 (procs k))) as Hrp.
  { rewrite reparent_over, Hrl, fmap_insert, reparent_unused by done. rewrite (reparent_same d q1) by done. by apply over_insert. }
  unfold create_orphan. assert (fork new_pid (r ← fork new_pid (process i false); if r =? -1 then exit_with XND_EXIT_FAILURE else exit_with 0) k =
    Ret d (Kern (me k) (<[d := Kproc (me k) (p_pgid q) (p_sid q) Zombie]> (over l1 (procs k))))) as Hfk.
  { unfold fork at 1. rewrite Hn, Hq. fold q1. rewrite (bind_ret _ _ _ _ _ Hr). rewrite (proj2 (Z.eqb_neq _ _)) by lia.
    cbn [exit_with procs]. f_equal. f_equal. unfold ended. rewrite (over_out l) by done. rewrite lookup_insert_eq, Hrp. apply insert_insert_eq. }
  rewrite (bind_ret _ _ _ _ _ Hfk). rewrite (proj2 (Z.eqb_neq _ _)) by lia.
  assert (waitpid d (Kern (me k) (<[d := Kproc (me k) (p_pgid q) (p_sid q) Zombie]> (over l1 (procs k)))) = Ret d (Kern (me k) (over l1 (procs k)))) as Hw.
  { unfold waitpid. cbn [procs me]. rewrite lookup_insert_eq. cbn [p_ppid p_life]. rewrite Z.eqb_refl. cbn [negb]. f_equal. f_equal.
    apply delete_insert_id. by rewrite over_out. }
  rewrite (bind_ret _ _ _ _ _ Hw). by rewrite Z.eqb_refl.
Qed.

(** A loop that creates some of the targets. *)
Definition does (process : nat -> bool -> M kern unit) (a : option bool) (i : nat) : M kern unit :=
  match a with
  | None => mret tt
  | Some false => create_child new_pid process i
  | Some true => create_orphan new_pid process false i
  end.
Definition kids_of (act : nat -> option bool) (l : list nat) : list (nat * bool) := omap (fun i => (fun o => (i, o)) <$> act i) l.

Lemma for_each_made process act f l q p m : (forall i, i ∈ l -> f i = does process (act i) i) ->
  (forall i o, i ∈ l -> act i = Some o -> creates process i) -> m !! p = Some q ->
  exists l', made_all p (p_pgid q) (p_sid q) (kids_of act l) l' /\ fresh l' m /\ for_each f l (Kern p m) = Ret tt (Kern p (over l' m)).
Proof.
  intros Hact Hcr. revert m. induction l as [|i l IH]; intros m Hq.
  { exists []. split; [constructor|]. split; [|done]. split; [constructor|intros x []%not_elem_of_nil]. }
  assert (i ∈ i :: l) as Hi by apply list_elem_of_here.
  assert (forall j, j ∈ l -> j ∈ i :: l) as Hsub by (intros; by apply list_elem_of_further).
  cbn [for_each kids_of omap list_omap]. rewrite (Hact i Hi). unfold does. fold (kids_of act l). destruct (act i) as [o|] eqn:E; cbn [fmap option_fmap option_map].
  - assert (exists c l1, made i c (if o then 1 else p) (p_pgid q) (p_sid q) l1 /\ fresh l1 m /\
      (if o then create_orphan new_pid process false i else create_child new_pid process i) (Kern p m) = Ret tt (Kern p (over l1 m))) as (c & l1 & H1 & H2 & H3).
    { destruct o; [apply (create_orphan_made process i (Kern p m) q)|apply (create_child_made process i (Kern p m) q)]; try done; by apply (Hcr i _ Hi E). }
    replace (match o with true => _ | false => _ end) with (if o then create_orphan new_pid process false i else create_child new_pid process i) by by destruct o.
    rewrite (bind_ret _ _ _ _ _ H3). destruct (IH (ltac:(auto)) ltac:(eauto) (over l1 m)) as (l2 & H4 & H5 & H6).
    { rewrite over_out; [done|]. intros Hx. destruct H2 as [_ H2]. specialize (H2 p Hx). congruence. }
    exists (l2 ++ l1). split; [by eapply made_cons|]. split; [by apply fresh_app|]. by rewrite H6, over_app.
  - rewrite (bind_ret _ _ (Kern p m) tt (Kern p m)) by done. apply IH; eauto.
Qed.

(** ** The phases of [create_process] *)

Lemma at_self {A} (f : kproc -> A) p m q : m !! p = Some q -> (f <$> self_proc) (Kern p m) = Ret (f q) (Kern p m).
Proof. intros Hq. unfold self_proc, fmap, M_fmap, mbind, M_bind, get, deref. cbn. by rewrite Hq. Qed.
Lemma set_self_eq p m q : set_self q (Kern p m) = Ret tt (Kern p (<[p := q]> m)).
Proof. done. Qed.

Lemma setsid_eq p m pp pg sd lf : m !! p = Some (Kproc pp pg sd lf) -> lone p m ->
  setsid (Kern p m) = Ret p (Kern p (<[p := Kproc pp p p lf]> m)).
Proof.
  intros Hq Hl. unfold setsid, self_proc, mbind, M_bind, get, deref. cbn [procs me]. rewrite Hq. cbn [mret M_ret].
  assert (existsb (fun pq => p_pgid pq.2 =? p) (map_to_list m) = false) as ->; [|done].
  apply not_true_is_false. intros ([x y] & Hx & E%Z.eqb_eq)%existsb_exists. apply list_elem_of_In, elem_of_map_to_list in Hx.
  by destruct (Hl x y Hx).
Qed.
Lemma setpgid_eq p m pp pg sd lf : m !! p = Some (Kproc pp pg sd lf) -> lone p m ->
  setpgid00 (Kern p m) = Ret 0 (Kern p (<[p := Kproc pp p sd lf]> m)).
Proof.
  intros Hq Hl. unfold setpgid00, self_proc, mbind, M_bind, get, deref. cbn [procs me]. rewrite Hq. cbn [mret M_ret p_sid].
  destruct (Hl p _ Hq) as [_ Hn]. cbn in Hn. by rewrite (proj2 (Z.eqb_neq _ _)) by done.
Qed.
Lemma lead_eq i p m pp pg sd : m !! p = Some (Kproc pp pg sd Restarting) -> lone p m ->
  lead targets i (Kern p m) = Ret tt (Kern p (<[p := Kproc pp (place_of targets i p pg sd).1 (place_of targets i p pg sd).2 Restarting]> m)).
Proof.
  intros Hq Hl. destruct (Hl p _ Hq) as [Hg Hsd]. cbn in Hg, Hsd. unfold lead, place_of.
  rewrite (bind_ret getpid _ _ p (Kern p m)) by done. destruct (at1 was_session_leader i); [|destruct (at1 was_group_leader i)]; cbn [fst snd].
  - unfold getsid0. rewrite (bind_ret _ _ _ _ _ (at_self p_sid p m _ Hq)). cbn [p_sid]. rewrite (proj2 (Z.eqb_neq p sd)) by done. cbn [negb].
    unfold getpgrp. rewrite (bind_ret _ _ _ _ _ (at_self p_pgid p m _ Hq)). cbn [p_pgid]. rewrite (proj2 (Z.eqb_neq p pg)) by done. cbn [negb xnd_assert].
    rewrite (bind_ret (mret tt) _ _ tt (Kern p m)) by done. by rewrite (bind_ret _ _ _ _ _ (setsid_eq p m _ _ _ _ Hq Hl)).
  - unfold getpgrp. rewrite (bind_ret _ _ _ _ _ (at_self p_pgid p m _ Hq)). cbn [p_pgid]. rewrite (proj2 (Z.eqb_neq p pg)) by done. cbn [negb].
    by rewrite (bind_ret _ _ _ _ _ (setpgid_eq p m _ _ _ _ Hq Hl)).
  - by rewrite insert_id.
Qed.
Lemma exec_eq i p m pp pg sd lf : m !! p = Some (Kproc pp pg sd lf) ->
  exec_restart spawn_ok i (Kern p m) = Ret tt (Kern p (<[p := Kproc pp pg sd (Became i)]> m)).
Proof.
  intros Hq. unfold exec_restart. rewrite Hs. unfold self_proc, mbind, M_bind, get, deref. cbn [procs me]. by rewrite Hq.
Qed.

Definition first_act (i j : nat) : option bool := if at2 was_session_leader_of i j then None else if at2 was_group_leader_of i j then None else Some false.
Definition later_act (i j : nat) : option bool :=
  if bool_decide (j = i) then None
  else if at2 was_session_leader_of i j || at2 was_group_leader_of i j
       then if at2 was_parent_of i j then Some false else if at1 was_root_of_tree j then Some true else None
       else None.
Definition roots_act (i j : nat) : option bool := if bool_decide (j = i) then None else Some true.

Lemma first_kids_eq i : i ∈ all -> kids_of (first_act i) (children_of targets i) = first_kids targets i.
Proof.
  intros Hi. rewrite children_of_eq by done. unfold kids_of, first_kids, first_act, child_first. generalize all as l. induction l as [|j l IH]; [done|].
  cbn [List.filter]. destruct (is_child targets i j); cbn [andb]; [|exact IH]. cbn [omap list_omap]. rewrite IH.
  destruct (at2 was_session_leader_of i j), (at2 was_group_leader_of i j); done.
Qed.
Lemma later_kids_eq i : kids_of (later_act i) all = later_kids targets i.
Proof.
  unfold kids_of, later_kids, later_act, child_later. generalize all as l. induction l as [|j l IH]; [done|].
  cbn [List.filter omap list_omap]. rewrite IH. case_bool_decide; cbn [negb andb]; [done|].
  destruct (at2 was_session_leader_of i j || at2 was_group_leader_of i j); cbn [andb]; [|done].
  destruct (at2 was_parent_of i j) eqn:E; cbn; [by rewrite E|]. destruct (at1 was_root_of_tree j); cbn; [by rewrite E|done].
Qed.

Lemma lone_over p m l pg sd : lone p m -> fresh l m -> is_Some (m !! p) -> pg <> p -> sd <> p ->
  (forall x y, (x, y) ∈ l -> p_pgid y = pg \/ p_pgid y ∈ l.*1) -> (forall x y, (x, y) ∈ l -> p_sid y = sd \/ p_sid y ∈ l.*1) -> lone p (over l m).
Proof.
  intros Hl [_ Hfr] [q Hq] Hg Hd A B x y Hx. assert (p ∉ l.*1) as Hp by (intros Hx'; specialize (Hfr p Hx'); congruence).
  destruct (over_inv l m x y Hx) as [Hin|Hin]; [|by apply (Hl x)].
  split; intros E; [destruct (A x y Hin)|destruct (B x y Hin)]; congruence.
Qed.

Definition root_kids (i : nat) (roots : list nat) (b : bool) : list (nat * bool) := if b then kids_of (roots_act i) roots else [].
Definition final (i : nat) (p pp pg sd : Z) : kproc :=
  Kproc pp (place_of targets i p pg sd).1 (place_of targets i p pg sd).2 (Became i).

Lemma body_made process roots i (b : bool) p m pp pg sd : i ∈ all ->
  (forall j, j ∈ children_of targets i -> creates process j) -> (forall j o, later_act i j = Some o -> creates process j) ->
  (b = true -> forall j, j ∈ roots -> j <> i -> creates process j) ->
  m !! p = Some (Kproc pp pg sd Restarting) -> lone p m ->
  exists l0 l, made_all p pg sd (root_kids i roots b) l0 /\ made i p pp pg sd ((p, final i p pp pg sd) :: l) /\ fresh (l ++ l0) m /\
    create_process_body targets new_pid spawn_ok process roots i b (Kern p m) =
      Ret tt (Kern p (over ((p, final i p pp pg sd) :: l ++ l0) m)).
Proof.
  intros Hi Hk1 Hk2 Hk0 Hq Hl. destruct (Hl p _ Hq) as [Hg Hsd]. cbn in Hg, Hsd. unfold create_process_body.
  assert (exists l0, made_all p pg sd (root_kids i roots b) l0 /\ fresh l0 m /\
    (if b then for_each (fun ir => if bool_decide (ir = i) then mret tt else create_orphan new_pid process false ir) roots else mret tt) (Kern p m) =
      Ret tt (Kern p (over l0 m))) as (l0 & M0 & F0 & R0).
  { destruct b; [|exists []; split; [constructor|]; split; [split; [constructor|intros x []%not_elem_of_nil]|done]].
    apply (for_each_made process (roots_act i) _ roots (Kproc pp pg sd Restarting)); [| |done].
    - intros j _. unfold roots_act. by case_bool_decide.
    - intros j o Hj. unfold roots_act. case_bool_decide; [done|]. intros _. by apply Hk0. }
  rewrite (bind_ret _ _ _ _ _ R0). assert (is_Some (m !! p)) as Hqs by by eexists.
  assert (forall l', fresh l' m -> p ∉ l'.*1) as Hout by (intros l' [_ H] Hx; specialize (H p Hx); congruence).
  destruct (for_each_made process (first_act i) (before_leading targets new_pid process i) (children_of targets i) (Kproc pp pg sd Restarting) p (over l0 m))
    as (l1 & M1 & F1 & R1); [| |by rewrite over_out by auto|].
  { intros j Hj. rewrite children_of_eq in Hj by done. apply list_elem_of_In, List.filter_In in Hj as [_ Hj]. unfold is_child in Hj.
    apply andb_true_iff in Hj as [Hj _]. unfold before_leading, first_act. rewrite (bool_decide_ext (j = i) (i = j)) by naive_solver. rewrite Hj.
    by destruct (at2 was_session_leader_of i j), (at2 was_group_leader_of i j). }
  { intros j o Hj _. by apply Hk1. }
  rewrite first_kids_eq in M1 by done. rewrite (bind_ret _ _ _ _ _ R1). pose proof (fresh_app _ _ _ F0 F1) as F01. rewrite <- over_app in R1 |- *.
  set (m1 := over (l1 ++ l0) m) in *.
  assert (m1 !! p = Some (Kproc pp pg sd Restarting)) as Hq1 by (unfold m1; by rewrite over_out by auto).
  assert (lone p m1) as Hl1.
  { destruct (proj2 made_ids _ _ _ _ _ M0) as (A0 & B0 & _). destruct (proj2 made_ids _ _ _ _ _ M1) as (A1 & B1 & _).
    unfold m1. rewrite over_app. eapply lone_over; [|exact F1| |exact Hg|exact Hsd|exact A1|exact B1].
    - eapply lone_over; [done|exact F0|done|exact Hg|exact Hsd|exact A0|exact B0].
    - by rewrite over_out by auto. }
  rewrite (bind_ret _ _ _ _ _ (lead_eq i p m1 pp pg sd Hq1 Hl1)). destruct (place_of targets i p pg sd) as [pg' sd'] eqn:Hpl.
  unfold final. rewrite Hpl. cbn [fst snd]. set (q' := Kproc pp pg' sd' Restarting).
  destruct (for_each_made process (later_act i) (after_leading targets new_pid process i) all q' p (<[p := q']> m1)) as (l2 & M2 & F2 & R2);
    [| |apply lookup_insert_eq|].
  { intros j _. unfold after_leading, later_act, child_or_orphan. case_bool_decide; [done|].
    destruct (at2 was_session_leader_of i j), (at2 was_group_leader_of i j); cbn [orb]; try done;
      destruct (at2 was_parent_of i j); try done; by destruct (at1 was_root_of_tree j). }
  { intros j o _. apply Hk2. }
  rewrite later_kids_eq in M2. rewrite (bind_ret _ _ _ _ _ R2).
  assert (p ∉ l2.*1) as Hp2 by (intros Hx; destruct F2 as [_ F2]; pose proof (F2 p Hx) as Hx'; by rewrite lookup_insert_eq in Hx').
  rewrite over_insert by done. rewrite (exec_eq i p _ pp pg' sd' Restarting) by apply lookup_insert_eq. rewrite insert_insert_eq.
  unfold m1. rewrite <- over_app. exists l0, (l2 ++ l1). split; [done|]. split; [by eapply made_intro|].
  assert (fresh l2 m1) as F2'.
  { destruct F2 as [N2 F2]. split; [done|]. intros x Hx. by apply F2, lookup_insert_None in Hx as [? _]. }
  rewrite <- app_assoc. split; [by apply fresh_app|]. by rewrite app_assoc.
Qed.

Section computation.
Context (Hc : computation targets).
Notation process n roots := (create_process targets new_pid spawn_ok n roots).

Lemma create_creates n roots i : i ∈ all -> (younger targets i < n)%nat -> creates (process n roots) i.
Proof.
  revert i. induction n as [|n IH]; intros i Hi Hn; [lia|]. intros p m pp pg sd Hq Hl Hp.
  assert (forall j, makes targets i j = true -> creates (process n roots) j) as Hk.
  { intros j Hj. apply IH; [exact (proj2 (makes_in targets Hc i j Hj))|]. pose proof (makes_order targets Hc i j Hj). lia. }
  destruct (body_made (process n roots) roots i false p m pp pg sd Hi) as (l0 & l & M0 & M & F & R); [| |done|done|done|].
  - intros j Hj. apply Hk. rewrite children_of_eq in Hj by done. apply list_elem_of_In, List.filter_In in Hj as [_ Hj].
    apply (makes_spec targets Hc). left. by apply andb_true_iff in Hj as [_ ?].
  - intros j o Hj. apply Hk. assert ((j, o) ∈ kids_of (later_act i) all) as Hin.
    { apply list_elem_of_omap. exists j. split; [|by rewrite Hj]. apply elem_of_all. unfold later_act in Hj. case_bool_decide; [done|].
      destruct (at2 was_session_leader_of i j) eqn:E1; [by apply at2_in in E1 as [_ ?%elem_of_all]|].
      destruct (at2 was_group_leader_of i j) eqn:E2; [by apply at2_in in E2 as [_ ?%elem_of_all]|done]. }
    rewrite later_kids_eq in Hin. exact (proj1 (proj2 (kid_makes targets Hc i j) o Hin)).
  - inversion M0; subst l0. rewrite app_nil_r in *. exists l. split; [exact M|]. split; [done|]. split; [|exact R].
    intros Hx. destruct F as [_ F]. specialize (F p Hx). congruence.
Qed.

(** ** The roots *)

Definition no_creator (i : nat) : bool := match creator targets i with None => true | Some _ => false end.
Lemma independent_root_eq t k : t ∈ all -> independent_root targets t k = Ret (no_creator t) k.
Proof.
  intros Ht. unfold independent_root, no_creator. pose proof (indegree_of_eq targets t Ht) as Hin. pose proof (c_root targets Hc t Ht) as Hr.
  destruct (Z.eqb_spec (indegree_of targets t) 0) as [E|E]; cbn [negb].
  - assert (root targets t) as Hrt.
    { apply Hr. intros i Hp. apply (proj1 Hin E i); [by eapply parent_neq|done]. }
    pose proof Hrt as Hrt'. unfold root in Hrt'. rewrite Hrt'. cbn [xnd_assert]. rewrite (bind_ret (mret tt) _ k tt k) by done.
    destruct (creator targets t) as [c|] eqn:Ec.
    + apply (creator_spec targets Hc) in Ec. apply (makes_spec targets Hc) in Ec as [Hp|(Hn & _ & Hsl)]; [by apply Hr in Hp|].
      destruct (List.find _ _) eqn:Ef; [done|]. rewrite find_None_elem in Ef. unfold leads_session in Hsl.
      specialize (Ef c (proj1 (at2_in _ _ _ _ Hsl))). rewrite Hsl, bool_decide_eq_false_2 in Ef by done. done.
    + destruct (List.find _ _) as [s|] eqn:Ef; [|done]. apply find_Some_elem in Ef as [_ [Hn Hsl]%andb_true_iff].
      assert (creator targets t = Some s) as E'; [|by rewrite E' in Ec]. apply (creator_spec targets Hc), (makes_spec targets Hc). right.
      case_bool_decide; [done|]. by split.
  - assert (exists i, parent targets i t) as [i Hp].
    { destruct (creator targets t) as [c|] eqn:Ec.
      - apply (creator_spec targets Hc), (makes_spec targets Hc) in Ec as [Hp|(_ & Hrt & _)]; [by exists c|].
        destruct E. apply Hin. intros i _ Hp. by apply (proj1 Hr Hrt i).
      - destruct E. apply Hin. intros i _ Hp. assert (creator targets t = Some i) as E'; [|by rewrite E' in Ec].
        apply (creator_spec targets Hc), (makes_spec targets Hc). by left. }
    assert (creator targets t = Some i) as -> by (apply (creator_spec targets Hc), (makes_spec targets Hc); by left).
    pose proof (parent_not_root targets Hc i t Hp) as Hn. unfold root in Hn. apply not_true_is_false in Hn. rewrite Hn. done.
Qed.
Lemma find_roots_eq l k : (forall t, t ∈ l -> t ∈ all) -> find_roots targets l k = Ret (List.filter no_creator l) k.
Proof.
  induction l as [|t l IH]; intros Hl; [done|]. cbn [find_roots].
  rewrite (bind_ret _ _ _ _ _ (independent_root_eq t k (Hl t (list_elem_of_here _ _)))).
  rewrite (bind_ret _ _ _ _ _ (IH (fun t H => Hl t (list_elem_of_further _ _ _ H)))). cbn [List.filter]. by destruct (no_creator t).
Qed.
Definition roots : list nat := List.filter no_creator all.
Lemma elem_of_roots t : t ∈ roots <-> t ∈ all /\ creator targets t = None.
Proof.
  unfold roots. rewrite list_elem_of_In, List.filter_In, <- list_elem_of_In. unfold no_creator. destruct (creator targets t); naive_solver.
Qed.

Lemma younger_length i : i ∈ all -> (younger targets i < length targets)%nat.
Proof.
  intros Hi. unfold younger. rewrite <- (length_seq (length targets) 0). fold (all_targets targets).
  assert (List.filter (fun _ => true) all = all) as Ha by (generalize all as l; induction l as [|x l IH]; [done|]; cbn; by rewrite IH).
  rewrite <- Ha at 2. apply (filter_lt _ _ _ i); [done|done|apply xnd_pid_lt_irrefl|done].
Qed.

(** The run: the processes of the tree, with the tree of the first root in
    the calling process. *)
Lemma process_targets_made first k q0 : List.find (at1 was_not_orphan) roots = Some first ->
  procs k !! me k = Some q0 -> p_life q0 = Restarting -> lone (me k) (procs k) ->
  exists l0 l, made_all (me k) (p_pgid q0) (p_sid q0) (root_kids first roots true) l0 /\
    made first (me k) (p_ppid q0) (p_pgid q0) (p_sid q0) l /\ NoDup (l ++ l0).*1 /\
    (forall p, p ∈ (l ++ l0).*1 -> p = me k \/ procs k !! p = None) /\
    process_targets targets new_pid spawn_ok (S (length targets)) k = Ret tt (Kern (me k) (over (l ++ l0) (procs k))).
Proof.
  intros Hfi Hq Hlf Hl. pose proof (find_Some_elem _ _ _ Hfi) as [[Ha Hcr]%elem_of_roots _].
  destruct q0 as [pp pg sd lf]. cbn in Hlf. subst lf. cbn [p_pgid p_sid p_ppid].
  destruct (body_made (process (length targets) roots) roots first true (me k) (procs k) pp pg sd Ha) as (l0 & l & M0 & M & [Fn F] & R); [| | |done|done|].
  - intros j Hj. rewrite children_of_eq in Hj by done. apply list_elem_of_In, List.filter_In in Hj as [Hj _]. apply list_elem_of_In in Hj.
    apply create_creates; [done|by apply younger_length].
  - intros j o Hj. assert (j ∈ all) as Hja.
    { unfold later_act in Hj. case_bool_decide; [done|]. destruct (at2 was_session_leader_of first j) eqn:E1; [by apply at2_in in E1 as [_ ?]|].
      destruct (at2 was_group_leader_of first j) eqn:E2; [by apply at2_in in E2 as [_ ?]|done]. }
    apply create_creates; [done|by apply younger_length].
  - intros _ j [Hj _]%elem_of_roots _. apply create_creates; [done|by apply younger_length].
  - exists l0, ((me k, final first (me k) pp pg sd) :: l). split; [done|]. split; [done|]. cbn [app fmap list_fmap fst].
    assert (me k ∉ (l ++ l0).*1) as Hme by (intros Hx; specialize (F _ Hx); congruence).
    split; [by apply NoDup_cons|]. split; [intros p [->|Hp]%elem_of_cons; [by left|right; by apply F]|].
    unfold process_targets. rewrite (bind_ret _ _ _ _ _ (find_roots_eq all k (fun t H => H))). fold roots.
    rewrite (bind_ret _ _ k tt k).
    2:{ destruct roots eqn:Er; [|done]. done. }
    rewrite Hfi. destruct k as [p m]. exact R.
Qed.
End computation.
End run.
