(* ===== verification/Rebuild.v ===== *)
(** The theorems about [process_targets] of [Restart]: what a restart rebuilds,
    and computations it does not rebuild.  A concrete kernel gives every fork
    the next id. *)

From S2P Require Import Prelude CkptFile Restart RestartTree RestartRun.
Open Scope Z_scope.

Section rebuild.
Context (targets : list xnd_restart_target) (new_pid : pmap -> option Z) (spawn_ok : nat -> bool).
Notation at2 := (at2 targets).
Notation at1 := (at1 targets).
Notation all := (all_targets targets).

(** Process [q] of target [z] is where the target was.  [place] gives the
    process of each target, [first] is the target the calling process, [q0]
    before, becomes. *)
Record restored (place : nat -> Z) (first : nat) (q0 : kproc) (z : nat) (q : kproc) : Prop := {
  r_image : p_life q = Became z;
  r_parent c : parent targets c z -> p_ppid q = place c;
  r_orphan : root targets z -> p_ppid q = if decide (z = first) then p_ppid q0 else 1;
  r_leads_session : at1 was_session_leader z = true -> p_sid q = place z /\ p_pgid q = place z;
  r_leads_group : at1 was_group_leader z = true -> p_pgid q = place z;
  r_session c : at1 was_session_leader c = true -> leads_session targets c z -> parent targets c z \/ root targets z -> p_sid q = place c;
  r_group c : at1 was_group_leader c = true -> leads_group targets c z -> parent targets c z \/ root targets z ->
    at1 was_session_leader z = false -> p_pgid q = place c
}.

(** The process of target [z] among those created. *)
Definition place_in (l : list (Z * kproc)) (z : nat) : Z :=
  match List.find (becomes z) l with Some pq => pq.1 | None => 0 end.
Lemma becomes_spec z p q : becomes z (p, q) = true <-> p_life q = Became z.
Proof. unfold becomes. cbn. destruct (p_life q); try done. rewrite bool_decide_eq_true. naive_solver. Qed.
Lemma copies_find l z : copies z l = 1%nat -> exists q, (place_in l z, q) ∈ l /\ p_life q = Became z.
Proof.
  intros H. unfold place_in. destruct (List.find (becomes z) l) as [[p q]|] eqn:E.
  - apply find_Some_elem in E as [Hin Hb]. exists q. split; [done|]. by apply becomes_spec in Hb.
  - unfold copies in H. destruct (List.filter (becomes z) l) as [|x r] eqn:Ef; [done|].
    assert (x ∈ List.filter (becomes z) l) as Hx by (rewrite Ef; apply list_elem_of_here).
    apply list_elem_of_In, List.filter_In in Hx as [Hx Hb]. rewrite find_None_elem in E. rewrite E in Hb; [done|]. by apply list_elem_of_In.
Qed.
Lemma copies_unique l z p q : copies z l = 1%nat -> (p, q) ∈ l -> p_life q = Became z -> p = place_in l z.
Proof.
  intros H Hin Hb. destruct (copies_find l z H) as (q' & Hin' & Hb'). unfold copies in H.
  destruct (List.filter (becomes z) l) as [|x [|y r]] eqn:Ef; try done.
  assert (forall y, y ∈ l -> becomes z y = true -> y = x) as Hx.
  { intros y Hy Hby. assert (y ∈ List.filter (becomes z) l) as Hyf by (apply list_elem_of_In, List.filter_In; split; [by apply list_elem_of_In|done]).
    rewrite Ef in Hyf. by apply list_elem_of_singleton in Hyf. }
  pose proof (Hx (p, q) Hin (proj2 (becomes_spec z p q) Hb)) as E1.
  pose proof (Hx (place_in l z, q') Hin' (proj2 (becomes_spec z (place_in l z) q') Hb')) as E2. congruence.
Qed.

Section computation.
Context (Hc : computation targets).
Notation roots := (roots targets).

(** The calling process's tree and the trees of the other roots are together
    each target once. *)
Lemma root_kids_eq first : root_kids first roots true =
  (fun j => (j, true)) <$> List.filter (fun j => no_creator targets j && negb (bool_decide (j = first))) all.
Proof.
  unfold root_kids, kids_of, roots_act, RestartRun.roots. generalize all as l. induction l as [|j l IH]; [done|]. cbn [List.filter].
  destruct (no_creator targets j); cbn [andb]; [|exact IH]. cbn [omap list_omap]. rewrite IH. by case_bool_decide.
Qed.
Lemma trees_once first p pp pg sd l l0 : first ∈ roots -> made targets first p pp pg sd l ->
  made_all targets p pg sd (root_kids first roots true) l0 -> forall z, z ∈ all -> copies z (l ++ l0) = 1%nat.
Proof.
  intros [Ha Hf]%elem_of_roots M M0. apply (copies_one targets Hc). intros z Hz.
  rewrite copies_app, (proj1 (copies_made targets Hc) _ _ _ _ _ _ M z Hz), (proj2 (copies_made targets Hc) _ _ _ _ _ M0 z Hz), creators_app.
  rewrite root_kids_eq, (asked_filter (fun j => no_creator targets j && negb (bool_decide (j = first))) (fun _ => true)) by apply NoDup_all.
  rewrite decide_True by done. unfold no_creator, hit. destruct (decide (first = z)) as [<-|Hn].
  - rewrite Hf, !bool_decide_eq_true_2 by done. cbn. lia.
  - rewrite !bool_decide_eq_false_2 by done. destruct (creator targets z); cbn; lia.
Qed.

(** Every created process is where its target was. *)
Lemma trees_restored first p q0 l l0 z q : first ∈ roots -> made targets first p (p_ppid q0) (p_pgid q0) (p_sid q0) l ->
  made_all targets p (p_pgid q0) (p_sid q0) (root_kids first roots true) l0 ->
  (forall z, z ∈ all -> copies z (l ++ l0) = 1%nat) -> (place_in (l ++ l0) z, q) ∈ l ++ l0 -> p_life q = Became z ->
  restored (place_in (l ++ l0)) first q0 z q.
Proof.
  intros Hfr M M0 H1 Hin Hz. pose proof Hfr as [Hfa Hfc]%elem_of_roots.
  assert (leads_as targets (place_in (l ++ l0) z) q z /\
    ((creator targets z = None /\ p_ppid q = if decide (z = first) then p_ppid q0 else 1) \/
     exists c, follows targets (place_in (l ++ l0) c) c q z)) as [Hl Hwhere].
  { assert (forall l', l' ⊆ l ++ l0 -> below targets l' q z -> exists c, follows targets (place_in (l ++ l0) c) c q z) as Hb.
    { intros l' Hl' (x' & q' & c & Hx & Hlc & Hf). exists c. assert (c ∈ all) as Hca by (destruct Hf as [Hm _]; exact (proj1 (makes_in targets Hc c z Hm))).
      by rewrite <- (copies_unique _ _ _ _ (H1 c Hca) (Hl' _ Hx) Hlc). }
    apply elem_of_app in Hin as [Hin|Hin].
    - destruct (proj1 (made_places targets Hc) _ _ _ _ _ _ M _ _ Hin) as (z' & Hz' & _ & Hl & Hw). assert (z' = z) as -> by congruence.
      split; [done|]. destruct Hw as [(_ & -> & Hi & _)|Hw]; [left; split; [done|]; by rewrite decide_True|right; apply (Hb l); [set_solver|done]].
    - destruct (proj2 (made_places targets Hc) _ _ _ _ _ M0 _ _ Hin) as (z' & Hz' & _ & Hl & Hw). assert (z' = z) as -> by congruence.
      split; [done|]. destruct Hw as [(o & Hk & Hi & _)|Hw]; [|right; apply (Hb l0); [set_solver|done]]. left.
      rewrite root_kids_eq in Hk. apply list_elem_of_fmap in Hk as (z' & [= -> ->] & Hk). apply list_elem_of_In, List.filter_In in Hk as [_ Hk].
      apply andb_true_iff in Hk as [Hk Hn]. case_bool_decide; [done|]. rewrite decide_False by done. split; [|done]. unfold no_creator in Hk. by destruct (creator targets z'). }
  assert (forall c, makes targets c z = true -> follows targets (place_in (l ++ l0) c) c q z) as Hfol.
  { intros c Hm. destruct Hwhere as [[Hn _]|(c' & Hf)]; [apply (creator_spec targets Hc) in Hm; by rewrite Hn in Hm|].
    by rewrite (makes_unique targets Hc c c' z Hm (proj1 Hf)). }
  destruct Hl as [Hls Hlg]. split; [done| | |done|done| |].
  - intros c Hp. destruct (Hfol c) as (_ & -> & _); [apply (makes_spec targets Hc); by left|]. unfold parent in Hp. by rewrite Hp.
  - intros Hr. destruct Hwhere as [[_ ?]|(c & Hm & -> & _)]; [done|]. rewrite decide_False.
    + destruct (at2 was_parent_of c z) eqn:E; [|done]. by destruct (parent_not_root targets Hc c z E).
    + intros ->. apply (creator_spec targets Hc) in Hm. by rewrite Hfc in Hm.
  - intros c Hlc Hcz Hpr. destruct (decide (c = z)) as [->|Hn]; [by apply Hls|].
    destruct (Hfol c) as (_ & _ & Hf & _); [|by apply Hf]. apply (makes_spec targets Hc). destruct Hpr as [|Hpr]; [by left|right; by split].
  - intros c Hlc Hcz Hpr Hns. destruct (decide (c = z)) as [->|Hn]; [by apply Hlg|].
    destruct (Hfol c) as (_ & _ & _ & Hf); [|by apply Hf]. apply (makes_spec targets Hc). destruct Hpr as [|Hpr]; [by left|right].
    split; [done|]. split; [done|]. destruct (c_group targets Hc c z Hpr Hcz); done.
Qed.
End computation.

(** The processes after a restart from [k], whose calling process [q0] becomes
    [first]. *)
Definition rebuilt_from (first : nat) (k : kern) (q0 : kproc) (k' : kern) : Prop :=
  exists place : nat -> Z,
    place first = me k /\
  (forall i, (i < length targets)%nat -> exists q, procs k' !! place i = Some q /\ restored place first q0 i q) /\
  (forall i j, (i < length targets)%nat -> (j < length targets)%nat -> place i = place j -> i = j) /\
  (forall i, (i < length targets)%nat -> place i = me k \/ procs k !! place i = None) /\
  (forall p, (forall i, (i < length targets)%nat -> p <> place i) -> procs k' !! p = procs k !! p).
Lemma targets_rebuilt first k q0 : computation targets -> forks new_pid -> (forall i, spawn_ok i = true) ->
  List.find (at1 was_not_orphan) (roots targets) = Some first ->
  procs k !! me k = Some q0 -> p_life q0 = Restarting -> lone (me k) (procs k) ->
  returns (process_targets targets new_pid spawn_ok (S (length targets))) k (fun _ k' => rebuilt_from first k q0 k').
Proof.
  intros Hc Hf Hs Hfi Hq Hlf Hl.
  destruct (process_targets_made targets new_pid spawn_ok Hf Hs Hc first k q0 Hfi Hq Hlf Hl) as (l0 & l & M0 & M & Hnd & Hfr & Hr).
  pose proof (find_Some_elem _ _ _ Hfi) as [Hroot _].
  pose proof (trees_once Hc first _ _ _ _ l l0 Hroot M M0) as H1. set (L := l ++ l0) in *.
  eapply returns_intro; [exact Hr|]. cbn [procs]. exists (place_in L).
  assert (forall i, (i < length targets)%nat -> exists q, (place_in L i, q) ∈ L /\ p_life q = Became i) as Hpl.
  { intros i Hi. apply copies_find, H1. by apply elem_of_all. }
  split; [|split; [|split; [|split]]].
  - destruct (made_reparent _ _ _ _ _ _ _ M) as (pg' & sd' & l' & -> & _). symmetry.
    apply (copies_unique L first (me k) (Kproc (p_ppid q0) pg' sd' (Became first))); [by apply H1; apply elem_of_roots in Hroot as [? _]|apply list_elem_of_here|done].
  - intros i Hi. destruct (Hpl i Hi) as (q & Hin & Hz). exists q. split; [by apply over_in|]. by eapply trees_restored.
  - intros i j Hi Hj E. destruct (Hpl i Hi) as (q & Hin & Hz). destruct (Hpl j Hj) as (q' & Hin' & Hz'). rewrite E in Hin.
    pose proof (over_in L ∅ _ _ Hnd Hin) as E1. rewrite (over_in L ∅ _ _ Hnd Hin') in E1. congruence.
  - intros i Hi. destruct (Hpl i Hi) as (q & Hin & _). apply Hfr, list_elem_of_fmap. by eexists (_, _).
  - intros p Hp. apply over_out. intros [[x q] [-> Hin]]%list_elem_of_fmap. cbn in Hp.
    destruct (elem_of_app l l0 (x, q)) as [Ha _]. destruct (Ha Hin) as [Hin'|Hin'].
    + destruct (proj1 (made_places targets Hc) _ _ _ _ _ _ M _ _ Hin') as (z & Hz & Hza & _). apply (Hp z); [by apply elem_of_all|].
      by apply (copies_unique L z x q); [apply H1| |].
    + destruct (proj2 (made_places targets Hc) _ _ _ _ _ M0 _ _ Hin') as (z & Hz & Hza & _). apply (Hp z); [by apply elem_of_all|].
      by apply (copies_unique L z x q); [apply H1| |].
Qed.


(** When every root of a computation was an orphan, a daemon for example,
    the program does not return from [process_targets]: the process that
    created the first root runs into [unreachable()]. *)
Theorem orphans_never_return fuel k : computation targets -> List.find (at1 was_not_orphan) (roots targets) = None ->
  forall a k', process_targets targets new_pid spawn_ok fuel k <> Ret a k'.
Proof.
  intros Hc Hf a k'. unfold process_targets. rewrite (bind_ret _ _ _ _ _ (find_roots_eq targets Hc all k (fun t H => H))). fold (roots targets).
  intros (u & k1 & _ & H)%bind_inv. rewrite Hf in H. apply bind_inv in H as (r & k2 & _ & H). by apply bind_inv in H as (? & ? & _ & ?).
Qed.
End rebuild.

(** ** A kernel *)

(** The next process id is above every id in use. *)
Definition ids (pq : Z * kproc) : list Z := [pq.1; p_ppid pq.2; p_pgid pq.2; p_sid pq.2].
Definition next_pid (m : pmap) : option Z := Some (foldr Z.max 100 (map_to_list m ≫= ids) + 1).
Lemma max_above l x : x ∈ l -> x <= foldr Z.max 100 l.
Proof. induction l as [|y l IH]; [by intros ?%not_elem_of_nil|]. cbn. intros [->|Hx]%elem_of_cons; [lia|]. specialize (IH Hx). lia. Qed.
Lemma max_min l : 100 <= foldr Z.max 100 l.
Proof. induction l as [|y l IH]; cbn; lia. Qed.
Lemma next_pid_forks : forks next_pid.
Proof.
  intros m. eexists. split; [done|]. set (l := map_to_list m ≫= ids).
  assert (forall x q, m !! x = Some q -> forall y, y ∈ ids (x, q) -> y <= foldr Z.max 100 l) as Hl.
  { intros x q Hx y Hy. apply max_above, list_elem_of_bind. exists (x, q). split; [done|]. by apply elem_of_map_to_list. }
  pose proof (max_min l). split; [lia|]. split.
  - destruct (m !! _) as [q|] eqn:E; [|done]. specialize (Hl _ q E _ (list_elem_of_here _ _)). cbn in Hl. lia.
  - intros x q Hx. pose proof (Hl x q Hx (p_ppid q) ltac:(cbn; set_solver)). pose proof (Hl x q Hx (p_pgid q) ltac:(cbn; set_solver)).
    pose proof (Hl x q Hx (p_sid q) ltac:(cbn; set_solver)). lia.
Qed.

(** A target from its ids: [xnd_pid], [xnd_ppid], [pid], [ppid], [pgid],
    [sid], and whether it was a root. *)
Definition image_of (xp xpp p pp pg si root : Z) : xnd_restart_target :=
  Target (CkptHeader [] [] xp xpp 0 p pp pg si 0 0 0 root 0 0 (SharedCacheInfo 0 0 [])).
(** The restart program is process 600, a child of 599. *)
Definition restarting : kern := Kern 600 {[600 := Kproc 599 599 400 Restarting; 599 := Kproc 400 599 400 Restarting]}.
(** Parent, group, session and image of every process but 599. *)
Definition rebuilt (targets : list xnd_restart_target) : list (Z * kproc) :=
  match process_targets targets next_pid (fun _ => true) (S (length targets)) restarting with
  | Ret _ k => map_to_list (delete 599 (procs k))
  | _ => []
  end.

(** A session leader, its child leading a group, that one's child in the
    group, an orphan of the session, and a daemon. *)
Definition session : list xnd_restart_target :=
  [image_of 1 0 500 400 500 500 1; image_of 2 1 501 500 501 500 0; image_of 3 2 502 501 501 500 0;
   image_of 5 4 504 1 500 500 1; image_of 6 4 505 1 505 505 1].
Ltac each_target i := destruct i as [|[|[|[|[|i]]]]].
Lemma session_computation : computation session.
Proof.
  split.
  1-4: intros i j ti tj Hi Hj; each_target i; each_target j; cbn in Hi, Hj; simplify_eq; vm_compute; congruence.
  - intros j Hj%elem_of_all. change (length session) with 5%nat in Hj. unfold root, parent. each_target j; [| | | | |exfalso; lia].
    1,4,5: split; [|done]; intros _ i; each_target i; by vm_compute.
    + split; [done|]. intros H. by destruct (H 0%nat).
    + split; [done|]. intros H. by destruct (H 1%nat).
  - intros i j Hr Hl. unfold root, leads_group, leads_session in *. pose proof (at2_in _ _ _ _ Hl) as [Hi%elem_of_all Hj%elem_of_all].
    change (length session) with 5%nat in *. each_target i; [| | | | |exfalso; lia]; each_target j; try (exfalso; lia);
      vm_compute in Hr, Hl |- *; auto; done.
Qed.

(** The daemon 602, the group leader 603 and its child 604, the orphan 606. *)
Example session_rebuilt : rebuilt session =
  [(603, Kproc 600 603 600 (Became 1)); (606, Kproc 1 600 600 (Became 3)); (602, Kproc 1 602 602 (Became 4));
   (604, Kproc 603 603 600 (Became 2)); (600, Kproc 599 600 600 (Became 0))].
Proof. vm_compute. reflexivity. Qed.

(** ** Computations that are not rebuilt *)

Definition daemon : list xnd_restart_target := [image_of 1 7 500 1 500 500 1].
Lemma daemon_computation : computation daemon.
Proof.
  split.
  1-4: intros i j ti tj Hi Hj; destruct i as [|i], j as [|j]; cbn in Hi, Hj; simplify_eq; vm_compute; congruence.
  - intros j Hj%elem_of_all. change (length daemon) with 1%nat in Hj. destruct j as [|j]; [|exfalso; lia]. unfold root, parent.
    split; [|done]. intros _ i. destruct i; by vm_compute.
  - intros i j Hr Hl. unfold root, leads_group, leads_session in *. pose proof (at2_in _ _ _ _ Hl) as [Hi%elem_of_all Hj%elem_of_all].
    change (length daemon) with 1%nat in *. left. lia.
Qed.
Lemma orphans_never_return_witness :
  process_targets daemon next_pid (fun _ => true) 2 restarting = Ub /\
  forall a k', process_targets daemon next_pid (fun _ => true) 2 restarting <> Ret a k'.
Proof.
  split; [vm_compute; reflexivity|].
  apply (orphans_never_return daemon next_pid (fun _ => true) 2 restarting); [apply daemon_computation | vm_compute; reflexivity].
Defined.

(** Two programs that a shell, which is not part of the computation, started
    in one process group, the first of which leads it. *)
Definition pipeline : list xnd_restart_target := [image_of 1 0 500 400 500 400 1; image_of 2 0 501 400 500 400 1].
(** The second of two programs in a pipeline comes back twice: once as an
    independent root, once more as a root in the group the first one led. *)
Theorem pipeline_twice : exists p p' q q', p <> p' /\ (p, q) ∈ rebuilt pipeline /\ (p', q') ∈ rebuilt pipeline /\
  p_life q = Became 1 /\ p_life q' = Became 1.
Proof.
  exists 602, 604, (Kproc 1 599 400 (Became 1)), (Kproc 1 600 400 (Became 1)). split; [done|].
  assert (rebuilt pipeline = [(602, Kproc 1 599 400 (Became 1)); (604, Kproc 1 600 400 (Became 1)); (600, Kproc 599 600 400 (Became 0))]) as -> by (vm_compute; reflexivity).
  split; [apply list_elem_of_here|]. split; [apply list_elem_of_further, list_elem_of_here|done].
Qed.

(** A session leader, its child that called [setsid] after forking the third,
    which stayed in the first session. *)
Definition late_leader : list xnd_restart_target := [image_of 1 0 500 400 500 500 1; image_of 2 1 501 500 501 501 0; image_of 3 2 502 501 500 500 0].
(** The third comes back in the restart program's session. *)
Example late_leader_session : rebuilt late_leader =
  [(601, Kproc 600 601 601 (Became 1)); (602, Kproc 601 599 400 (Became 2)); (600, Kproc 599 600 600 (Became 0))].
Proof. vm_compute. reflexivity. Qed.

(** A session leader with two children in the group of the first of them. *)
Definition job : list xnd_restart_target := [image_of 1 0 500 400 500 500 1; image_of 2 1 501 500 501 500 0; image_of 3 1 502 500 501 500 0].
(** The second child comes back in its parent's group. *)
Example job_group : rebuilt job =
  [(601, Kproc 600 601 600 (Became 1)); (602, Kproc 600 600 600 (Became 2)); (600, Kproc 599 600 600 (Became 0))].
Proof. vm_compute. reflexivity. Qed.
