(* ===== verification/RestartInternal.v ===== *)
(** The two ends of a checkpoint: [xnd_checkpoint] of [xnd/xnd_lib.c], which
    saves the address space and the checkpoint thread's context, and
    [xnd/xnd_restart_internal.c], the program a process of a restarted
    computation begins as, with [ckpt_vm_remove_xnd_guard] of
    [xnd/vm_restore.c].

    [exit] ends the program; that [xnd_setcontext] does not return is written
    as the result, the context it installs. *)

From S2P Require Import Prelude Cstr Bytes Io Env Process PidTable Pac CkptFile VmRegion CkptImage CkptRestore.
Open Scope Z_scope.

Definition XND_EXIT_FAILURE : Z := 222.
Definition VM_FLAGS_PURGABLE : Z := 2.

(** ** [xnd_checkpoint]

    [buf] is what the array of regions on the stack holds, [fuel] bounds the
    walk of the address space. *)
Section checkpoint.
Context `{VmParams} {K : Type} `{IoSys K, VmMem K, VmWalk K, FdSys K, FsSys K, UuidLib, CkptZlib K, PidOS K, DyldSys K}.

Definition entries_of (nr_regions : nat) : list xnd_ckpt_entry :=
  replicate nr_regions XND_VM_REGION_ENTRY ++ [XND_UCONTEXT_ENTRY].
Definition xnd_checkpoint (fuel : nat) (buf : list bool) (uctx : list Z) : M (pstate K) unit :=
  regions ← on_k (ckpt_vm_save_regions fuel buf);
  let nr_regions := Z.of_nat (length regions) in
  if XND_CKPT_VM_REGION_MAX <? nr_regions then mret tt else
  i ← gets g_ids;
  header ← on_k (xnd_ckptfile_write_header nr_regions (nr_regions + 1) (xnd_uuid i) (xnd_pid i) (xnd_ppid i) (xnd_pgid i)
                   (num_peers i) (is_root_of_tree i));
  write_ckpt header (entries_of (length regions)) regions uctx;;
  mret tt.
End checkpoint.

(** ** [xnd_restart_internal.c] *)

(** [mach_vm_deallocate] and [mach_vm_map] of the purgable stack, with their
    success; the addresses the build sets; what the system's headers make of a
    [ucontext_t]: its size, its copy with [uc_mcontext] set, and the frame
    pointer in it. *)
Class RestartSys (K : Type) := {
  vm_deallocate : Z -> Z -> K -> bool * K;
  vm_map_stack : Z -> Z -> Z -> K -> bool * K;
  XND_GUARD_ADDR : Z;
  XND_GUARD_SIZE : Z;
  XND_RESTART_STACK : Z;
  sizeof_ucontext : Z;
  fix_mcontext : list Z -> list Z;
  get_ucontext_fp : list Z -> Z
}.
(** The process's memory as 64-bit words, as [Pac] sees it. *)
Class Words (K : Type) := { k_words : K -> mem; put_words : mem -> K -> K }.

Section restart.
Context `{VmParams} {K : Type} `{IoSys K, VmMem K, VmWalk K, FdSys K, FsSys K, RestartSys K, Words K, Pac}.
(** How far the walks go. *)
Context (fuel : nat).

Definition on_words {A} (m : M mem A) : M K A := fun k =>
  match m (k_words k) with
  | Ret a w => Ret a (put_words w k)
  | Exit c w => Exit c (put_words w k)
  | Abort w => Abort (put_words w k)
  | Ub => Ub
  | NoFuel => NoFuel
  end.

Definition ckpt_vm_remove_xnd_guard : M K Z :=
  ok ← kcall (vm_deallocate XND_GUARD_ADDR XND_GUARD_SIZE); mret (if (ok : bool) then 0 else -1).

(** The loop of [RESTART_PAUSE_WHILE] ends when a debugger clears the flag. *)
Definition restart (restart_pause : bool) (fd : Z) : M K (list Z) :=
  ckpt_vm_mark_regions fuel;;
  data ← sys_readall fd sizeof_header;
  if negb (Z.of_nat (length data) =? sizeof_header) then exit_with XND_EXIT_FAILURE else
  let header := header_of_bytes data in
  if negb (magic_ok (h_magic header)) then exit_with XND_EXIT_FAILURE else
  (if restart_pause then nofuel else mret tt);;
  ret ← read_ckpt sizeof_ucontext fix_mcontext fd header;
  match ret with
  | None => exit_with XND_EXIT_FAILURE
  | Some c =>
    uctx ← deref (in_uctx c);
    on_words (ptrauth_resign_frames fuel (get_ucontext_fp uctx));;
    mret uctx
  end.

Definition jump (restart_pause : bool) (fd : Z) : M K (list Z) :=
  ok ← kcall (vm_map_stack XND_RESTART_STACK (1024 * 1024) (Z.lor (Z.lor VM_FLAGS_FIXED VM_FLAGS_PURGABLE) (VM_MAKE_TAG VM_MEMORY_RESTART_STACK)));
  if negb ok then exit_with XND_EXIT_FAILURE else restart restart_pause fd.

(** [strncmp(p, "--pause", sizeof("--pause"))] compares the NUL too. *)
Definition strstr (s sub : cstr) : bool :=
  existsb (fun i => bool_decide (take (length sub) (drop i s) = sub)) (seq 0 (S (length s))).
Fixpoint parse_args (argv : list cstr) (pause : bool) (ckptfile : option cstr) : M K (bool * option cstr) :=
  match argv with
  | [] => mret (pause, ckptfile)
  | p :: argv =>
    if bool_decide (p = cs "--pause") then parse_args argv true ckptfile else
    ok ← (if strstr p (cs ".xnd") then kcall (fs_access p) else mret false);
    if (ok : bool) then parse_args argv pause (Some p) else exit_with XND_EXIT_FAILURE
  end.
(** [argv] without the program's name. *)
Definition main (argv : list cstr) : M K (list Z) :=
  '(pause, ckptfile) ← parse_args argv false None;
  match ckptfile with
  | None => exit_with XND_EXIT_FAILURE
  | Some ckptfile =>
    '(ubc_addr, ubc_size) ← ckpt_vm_find_ubc_region fuel;
    if (0 <? ubc_addr) && (ubc_addr <? DYLD_SHARED_CACHE_BASE) then
      xnd_assert (PAGEZERO_END <=? ubc_addr);; exit_with XND_EXIT_FAILURE
    else
    err ← ckpt_vm_remove_xnd_guard;
    if err <? 0 then exit_with XND_EXIT_FAILURE else
    fd ← kcall (fs_open_rd ckptfile);
    if fd <? 0 then exit_with XND_EXIT_FAILURE else jump pause fd
  end.
End restart.
