(* ===== verification/Cycle.v ===== *)
(** A checkpoint and the restart from it, end to end: what [xnd_checkpoint]
    writes, [xnd_restart_internal] turns back into the process.

    The checkpointed process and the restarting one have kernels of their own,
    [K1] and [K2]; only the bytes of the image pass from one to the other.

    A process with a stack of two frames is the witness. *)

From S2P Require Import Prelude Cstr Bytes Io Env Process PidTable Pac CkptFile VmRegion CkptImage CkptRestore CkptSpec CkptWrite CkptRead.
From S2P Require Import CkptProps CkptStore VmLayout RestartInternal.
Open Scope Z_scope.

(** ** The restarting process

    Its address space has no submaps: a list of regions with their tags. *)
Abbreviation span := (Z * Z * Z)%type.
Definition span_end (r : span) : Z := r.1.1 + r.1.2.
Fixpoint flat (lo : Z) (rs : list span) : Prop :=
  match rs with [] => True | r :: rs => lo <= r.1.1 /\ 0 < r.1.2 /\ span_end r < 2 ^ 64 /\ flat (span_end r) rs end.
Definition region_after (addr : Z) (rs : list span) : option span := List.find (fun r => addr <? span_end r) rs.
Class FlatWalk (K : Type) `{VmWalk K} (rs : list span) := {
  flat_layout : flat 0 rs;
  flat_recurse addr depth k :
    match region_after addr rs with
    | None => vm_region_recurse addr depth k = None
    | Some r => exists dep info, vm_region_recurse addr depth k = Some (r.1.1, r.1.2, dep, info) /\
        is_submap info = false /\ user_tag info = r.2
    end
}.

Lemma flat_after lo rs r : flat lo rs -> r ∈ rs -> lo < span_end r.
Proof.
  revert lo. induction rs as [|x rs IH]; intros lo; [by intros _ ?%elem_of_nil|]. cbn. unfold span_end in *.
  intros (H1 & H2 & H3 & H4) [->|Hr]%elem_of_cons; [lia|]. specialize (IH _ H4 Hr). lia.
Qed.
(** The position of a walk that has seen [pre]. *)
Definition seen (pre : list span) (addr : Z) : Prop := Forall (fun r => span_end r <= addr) pre.
Lemma region_after_seen pre rs addr : seen pre addr -> flat addr rs -> region_after addr (pre ++ rs) = head rs.
Proof.
  intros Hp Hf. induction Hp as [|r pre Hr _ IH]; cbn [app].
  - destruct rs as [|r rs]; [done|]. cbn. by rewrite (proj2 (Z.ltb_lt _ _)) by (eapply flat_after; [exact Hf|apply list_elem_of_here]).
  - unfold region_after in *. cbn. by rewrite (proj2 (Z.ltb_ge _ _)).
Qed.
Lemma seen_next pre r addr : seen pre addr -> addr <= r.1.1 -> 0 < r.1.2 -> seen (pre ++ [r]) (span_end r).
Proof.
  intros Hp H1 H2. unfold seen, span_end in *. apply Forall_app. split; [|by constructor].
  eapply Forall_impl; [exact Hp|]. cbn. lia.
Qed.
Lemma span_end_u64 r lo : 0 <= lo <= r.1.1 -> 0 < r.1.2 -> span_end r < 2 ^ 64 -> u64 (r.1.1 + r.1.2) = span_end r.
Proof. intros H1 H2 H3. unfold span_end in *. apply wrapu_small. unfold in_u. lia. Qed.

(** The first region of the file cache. *)
Definition first_ubc (rs : list span) : Z * Z :=
  match List.find (fun r => r.2 =? VM_KERN_MEMORY_UBC) rs with Some r => r.1 | None => (0, 0) end.

(** What marking a region may change. *)
Definition unmarked (v v' : view) : Prop :=
  v_file v' = v_file v /\ v_off v' = v_off v /\ v_port v' = v_port v /\
  forall a, set_inherit 0 <$> v_vm v' a = set_inherit 0 <$> v_vm v a.
#[global] Instance unmarked_refl : Reflexive unmarked.
Proof. intros v. by split_and!. Qed.
#[global] Instance unmarked_trans : Transitive unmarked.
Proof. intros u v w (A1 & A2 & A3 & A4) (B1 & B2 & B3 & B4). split_and!; [congruence..|]. intros a. by rewrite B4. Qed.
Lemma equiv_unmarked v v' : v' ≡ v -> unmarked v v'.
Proof. intros (H1 & H2 & H3 & H4 & H5). split_and!; [done..|]. intros a. by rewrite H1. Qed.
Lemma unmarked_mapped v v' a : unmarked v v' -> v_vm v a <> None -> v_vm v' a <> None.
Proof. intros (_ & _ & _ & H) Hn Hn'. specialize (H a). rewrite Hn' in H. by destruct (v_vm v a). Qed.

Section walks.
Context `{!VmParams} {K : Type} `{!IoSys K, !VmWalk K, !VmMem K} (fd : Z) `{!VmSpec K fd} (rs : list span) `{!FlatWalk K rs}.
Implicit Types k : K.

Lemma find_ubc_loop_eq fuel pre post addr depth k : rs = pre ++ post -> seen pre addr -> 0 <= addr -> flat addr post ->
  (length post < fuel)%nat -> find_ubc_loop fuel addr depth k = Ret (first_ubc post) k.
Proof.
  revert pre post addr depth. induction fuel as [|fuel IH]; intros pre post addr depth Hrs Hs H0 Hf Hl; [lia|]. cbn [find_ubc_loop].
  rewrite (bind_ret get _ k k k) by done. pose proof (flat_recurse addr depth k) as Hw. rewrite Hrs, region_after_seen in Hw by done.
  destruct post as [|r post]; cbn [head] in Hw; [by rewrite Hw|]. destruct Hw as (dep & info & -> & Hi & Ht). rewrite Hi, Ht. cbn in Hf.
  unfold first_ubc. cbn [List.find]. destruct (r.2 =? VM_KERN_MEMORY_UBC) eqn:E; [by destruct r as [[]]|].
  destruct Hf as (F1 & F2 & F3 & F4). rewrite (span_end_u64 _ addr) by (done || lia).
  apply (IH (pre ++ [r])); [by rewrite <- app_assoc|by eapply seen_next|unfold span_end; lia|done|cbn in Hl; lia].
Qed.

(** Setting the behaviour of memory does not change it. *)
Class BehaviorSpec := {
  spec_behavior addr n b k ok k' : vm_set_behavior addr n b k = (ok, k') -> view_of k' ≡ view_of k
}.
Context {Hbs : BehaviorSpec}.

Lemma ckpt_vm_mark_ok addr n k : (forall a, addr <= a < addr + n -> v_vm (view_of k) a <> None) ->
  returns (ckpt_vm_mark addr n) k (fun _ k' => unmarked (view_of k) (view_of k')).
Proof.
  intros Hm. unfold ckpt_vm_mark, returns. destruct (vm_set_inherit addr n _ k) as [ok k1] eqn:E1.
  destruct (spec_inherit _ _ _ _ _ _ E1 Hm) as [-> H1]. cbn [negb].
  assert (unmarked (view_of k) (view_of k1)) as Hu1.
  { destruct H1 as (A & B & C & _ & D). split_and!; [done..|]. intros a. rewrite A. unfold v_mem, vm_inherited, on_range. cbn.
    destruct (in_range addr n a); [|done]. by destruct (v_vm (view_of k) a). }
  destruct (vm_set_behavior addr n _ k1) as [ok k2] eqn:E2. pose proof (spec_behavior _ _ _ _ _ _ E2) as H2.
  destruct ok; cbn; (etrans; [exact Hu1|by apply equiv_unmarked]).
Qed.
Lemma mark_regions_loop_ok fuel pre post addr depth k : rs = pre ++ post -> seen pre addr -> 0 <= addr -> flat addr post ->
  (length post < fuel)%nat -> (forall r a, r ∈ post -> r.1.1 <= a < span_end r -> v_vm (view_of k) a <> None) ->
  returns (mark_regions_loop fuel addr depth) k (fun _ k' => unmarked (view_of k) (view_of k')).
Proof.
  revert pre post addr depth k. induction fuel as [|fuel IH]; intros pre post addr depth k Hrs Hs H0 Hf Hl Hm; [lia|]. cbn [mark_regions_loop].
  eapply returns_step; [reflexivity|]. pose proof (flat_recurse addr depth k) as Hw. rewrite Hrs, region_after_seen in Hw by done.
  destruct post as [|r post]; cbn [head] in Hw; [by rewrite Hw|]. destruct Hw as (dep & info & -> & -> & _). cbn in Hf.
  destruct Hf as (F1 & F2 & F3 & F4). rewrite (span_end_u64 _ addr) by (done || lia).
  assert (forall k', unmarked (view_of k) (view_of k') ->
    returns (mark_regions_loop fuel (span_end r) dep) k' (fun _ k' => unmarked (view_of k) (view_of k'))) as Hgo.
  { intros k' Hu. eapply returns_weaken; [apply (IH (pre ++ [r]) post); [by rewrite <- app_assoc|by eapply seen_next|unfold span_end; lia|done|cbn in Hl; lia|]|].
    - intros x a Hx Ha. apply (unmarked_mapped _ _ _ Hu). apply (Hm x); [by apply list_elem_of_further|done].
    - intros e k'' Hu'. by etrans. }
  destruct (_ || _); [by apply Hgo|]. apply returns_bind.
  eapply returns_weaken; [apply ckpt_vm_mark_ok; intros a Ha; apply (Hm r); [apply list_elem_of_here|exact Ha]|].
  intros e k' Hu. destruct (e <? 0); [by apply returns_ret|by apply Hgo].
Qed.
End walks.

(** ** The process's memory as words *)

Definition word_at (m : vmap) (a : Z) : option Z :=
  if (a mod 8 =? 0) && forallb (fun x => readable (m x) && writable (m x)) (seqZ a 8) then Some (le_val (range m a 8)) else None.
Lemma word_at_ext m m' a : (forall x, a <= x < a + 8 -> m' x = m x) -> word_at m' a = word_at m a.
Proof.
  intros H. unfold word_at. rewrite (range_ext m' m) by done.
  assert (forallb (fun x => readable (m' x) && writable (m' x)) (seqZ a 8) = forallb (fun x => readable (m x) && writable (m x)) (seqZ a 8)) as ->; [|done].
  apply eq_true_iff_eq. rewrite !forallb_forall. split; intros Hf y Hy; specialize (Hf y Hy);
    apply list_elem_of_In, elem_of_seqZ in Hy; [by rewrite <- H|by rewrite H].
Qed.

(** A word of a region that was saved, of memory the process could write. *)
Record saved_word `{!VmParams} {K} `{!VmMem K} (w : view) (regions : list xnd_vm_region) (a x : Z) : Prop := {
  sw_aligned : a mod 8 = 0;
  sw_region : exists r, r ∈ regions /\ start r <= a /\ a + 8 <= start r + size r /\
    Z.land (prot r) VM_PROT_READ <> 0 /\ Z.land (prot r) VM_PROT_WRITE <> 0 /\
    forall y, a <= y < a + 8 -> saved_addr w r y = true /\ port_addr y = false;
  sw_value : x = le_val (range (v_vm w) a 8);
  sw_range : in_u 64 x
}.

Lemma same_process_word `{!VmParams} {K} `{!VmMem K} w p regions m' a x : saved_word w regions a x -> same_process w p regions m' ->
  word_at m' a = Some x.
Proof.
  intros [Ha (r & Hr & H1 & H2 & Hrd & Hwr & Hs) -> _] Hm. unfold word_at. rewrite Ha. cbn [Z.eqb andb].
  assert (forall y, a <= y < a + 8 -> exists c, m' y = Some c /\ c_prot c = prot r /\ c_byte c = byte_at (v_vm w) y) as Hc.
  { intros y Hy. destruct (Hm r y Hr ltac:(lia)) as (c & C1 & C2 & _ & C4 & _). destruct (Hs y Hy) as [S1 S2]. exists c.
    split; [done|]. split; [done|]. by apply C4. }
  assert (forallb (fun y => readable (m' y) && writable (m' y)) (seqZ a 8) = true) as ->.
  { apply forallb_forall. intros y Hy%list_elem_of_In%elem_of_seqZ. destruct (Hc y Hy) as (c & -> & Cp & _). cbn. rewrite Cp.
    by rewrite !(proj2 (Z.eqb_neq _ _)). }
  do 2 f_equal. unfold range. apply list_fmap_ext. intros i y Hy. apply lookup_seqZ in Hy as [-> Hy].
  destruct (Hc (a + Z.of_nat i) ltac:(lia)) as (c & Hcy & _ & Hb). unfold byte_at at 1. by rewrite Hcy.
Qed.

(** What the theorems assume of closing the image and of writing words. *)
Class WordsSpec (K : Type) (fd : Z) `{VmSpec K fd, !FdSys K, !Words K} := {
  word_lo : Z;
  word_hi : Z;
  words_at k a : k_words k !! a = if (word_lo <=? a) && (a <? word_hi) then word_at (v_vm (view_of k)) a else None;
  words_put k w : dom w = dom (k_words k) -> (forall a x, w !! a = Some x -> k_words k !! a = Some x \/ in_u 64 x) ->
    k_words (put_words w k) = w;
  put_other k w a : w !! (a - a mod 8) = k_words k !! (a - a mod 8) -> v_vm (view_of (put_words w k)) a = v_vm (view_of k) a;
  close_vm k a : v_vm (view_of (fd_close fd k)) a = v_vm (view_of k) a
}.
(** Signing keeps within 64 bits. *)
Class PacRange `{Pac} := { pac_range p md : in_u 64 p -> in_u 64 (pacib (xpaci p) md) }.

Lemma stack_words `{Pac} m m' fp fs : m ⊆ m' -> stack m fp fs -> stack m' fp fs.
Proof. intros Hm. induction 1; [constructor|]. econstructor; try done; by eapply lookup_weaken. Qed.
Lemma resign_all_dom `{Pac} fs m : dom (resign_all fs m) = dom m.
Proof. revert m. induction fs as [|f fs IH]; intros m; [done|]. unfold resign_all in *. cbn [foldl]. rewrite IH. apply dom_alter_L. Qed.

(** ** [restart] *)
Section restarted.
Context `{!VmParams} {K : Type} `{!IoSys K, !VmWalk K, !VmMem K, !FdSys K, !FsSys K, !RestartSys K, !Words K, !Pac, !PacRange} (fd : Z)
  `{!VmSpec K fd} (rs : list span) `{!FlatWalk K rs, !BehaviorSpec fd, !WordsSpec K fd}.
Implicit Types k : K.

(** The memory of [k'] is the checkpointed process's [w], each return address
    of the frames [fs], which were [m]'s, signed again. *)
Definition continued (w : view) (regions : list xnd_vm_region) (p : Z) (m : mem) (fs : list Z) (k' : K) : Prop :=
  exists m', same_process w p regions m' /\
    (forall a, (forall f, f ∈ fs -> a < f + 8 \/ f + 16 <= a) -> v_vm (view_of k') a = m' a) /\
    (forall f, f ∈ fs -> exists lr, m !! (f + 8) = Some lr /\ k_words k' !! (f + 8) = Some (resigned f lr)).

(** The words [m] of the process were all saved, within the user's addresses. *)
Definition saved_words (w : view) (regions : list xnd_vm_region) (m : mem) : Prop :=
  forall a x, m !! a = Some x -> saved_word w regions a x /\ word_lo <= a < word_hi.

Lemma resign_ok fuel w regions p m fp fs k : stack m fp fs -> (length fs < fuel)%nat -> saved_words w regions m ->
  same_process w p regions (v_vm (view_of k)) ->
  returns (on_words (ptrauth_resign_frames fuel fp)) k (fun _ k' => continued w regions p m fs k').
Proof.
  intros Hst Hf Hm Hs. assert (m ⊆ k_words k) as Hsub.
  { apply map_subseteq_spec. intros a x Hx. destruct (Hm a x Hx) as [Hsw Ha]. rewrite words_at.
    rewrite (proj2 (Z.leb_le _ _)), (proj2 (Z.ltb_lt _ _)) by lia. by eapply same_process_word. }
  pose proof (stack_words m (k_words k) fp fs Hsub Hst) as Hst'.
  assert (forall f, f ∈ fs -> exists lr, m !! (f + 8) = Some lr /\ resign_all fs (k_words k) !! (f + 8) = Some (resigned f lr) /\
    in_u 64 (resigned f lr) /\ (f + 8) mod 8 = 0) as Hfr.
  { intros f Hin. destruct (stack_frame_lookup m fp fs f Hst Hin) as [lr Hlr]. exists lr. split; [done|].
    destruct (Hm _ _ Hlr) as [[Hal _ _ Hr] _].
    split; [by apply (resign_all_frame _ fp); [done|done|eapply lookup_weaken]|]. split; [|done].
    unfold resigned. destruct (PTRAUTH_SIGNED lr); [by apply pac_range|done]. }
  unfold returns, on_words. rewrite (ptrauth_resign_frames_eq _ fp fs) by done.
  exists (v_vm (view_of k)). split; [done|]. split.
  - intros a Ha. apply put_other. apply resign_all_other. intros f Hin Heq. destruct (Hfr f Hin) as (_ & _ & _ & _ & Hal).
    specialize (Ha f Hin). pose proof (Z.mod_pos_bound a 8 ltac:(lia)). lia.
  - intros f Hin. destruct (Hfr f Hin) as (lr & L1 & L2 & _ & _). exists lr. split; [done|]. rewrite words_put; [done|apply resign_all_dom|].
    intros a x Hx. destruct (decide (Exists (fun f => a = f + 8) fs)) as [(f' & Hin' & ->)%Exists_exists|Hn].
    + destruct (Hfr f' Hin') as (lr' & _ & L2' & Hr & _). right. congruence.
    + left. rewrite resign_all_other in Hx; [done|]. intros f' Hin' ->. apply Hn, Exists_exists. by exists f'.
Qed.

Lemma cache_mapped_unmarked r v v' : unmarked v v' -> cache_mapped r (v_vm v) -> cache_mapped r (v_vm v').
Proof.
  intros (_ & _ & _ & Hu) Hc Hs a Ha. destruct (Hc Hs a Ha) as (c & Hca & Hp). specialize (Hu a). rewrite Hca in Hu.
  destruct (v_vm v' a) as [c'|]; [|done]. exists c'. split; [done|]. injection Hu as _ _ Hm _. by rewrite Hm.
Qed.

(** Where [restart] starts: the image open at its beginning. *)
Record restarting (w : view) (h : xnd_ckpt_header) (entries : list xnd_ckpt_entry) (regions : list xnd_vm_region) (uctx : list Z) k : Prop := {
  rt_file : v_file (view_of k) = header_bytes h ++ entries_image w entries regions uctx;
  rt_off : v_off (view_of k) = 0;
  rt_mapped : forall r a, r ∈ rs -> r.1.1 <= a < span_end r -> v_vm (view_of k) a <> None;
  rt_cache : Forall (fun r => cache_mapped r (v_vm (view_of k))) regions
}.

Lemma restart_ok fuel w h entries regions uctx m fs k :
  header_fields h -> magic_ok (h_magic h) = true ->
  h_entry_count h = Z.of_nat (length entries) -> h_region_count h = Z.of_nat (length regions) ->
  entries_ok entries regions -> XND_UCONTEXT_ENTRY ∈ entries -> Z.of_nat (length uctx) = sizeof_ucontext -> uctx <> [] ->
  regions_ok w regions -> stack m (get_ucontext_fp (fix_mcontext uctx)) fs -> saved_words w regions m ->
  (length rs < fuel)%nat -> (length fs < fuel)%nat -> restarting w h entries regions uctx k ->
  returns (restart fuel false fd) k (fun ctx k' => ctx = fix_mcontext uctx /\
    continued w regions (v_port (view_of k)) m fs k').
Proof.
  intros Hh Hmg Hec Hrc Hok Hin Hul Hun Hrs Hst Hm Hf1 Hf2 [Hfile Hoff Hmap Hcm]. unfold restart. apply returns_bind.
  pose proof (flat_layout (K := K)) as Hfl.
  eapply returns_weaken; [apply (mark_regions_loop_ok fd rs fuel [] rs 0 0 k); try done; constructor|].
  intros e k1 Hu1. assert (header_ok h) as Hho by by destruct Hh.
  assert (next fd k1 (header_bytes h) (entries_image w entries regions uctx)) as Hn1.
  { destruct Hu1 as (A & B & _ & _). split; [rewrite B, Hoff; done|]. unfold v_rest. by rewrite A, B, Hfile, Hoff. }
  apply returns_bind. eapply returns_weaken; [apply (sys_readall_ok fd _ _ _ _ Hn1); [by apply header_bytes_length|done]|].
  intros d k2 (-> & Ha2 & Hn2). rewrite header_bytes_length by done. rewrite Z.eqb_refl. cbn [negb].
  rewrite header_roundtrip by done. rewrite Hmg. cbn [negb]. eapply returns_step; [reflexivity|].
  assert (forall a, v_vm (view_of k2) a = v_vm (view_of k1) a) as Hvm2 by (intros a; apply (advanced_vm fd _ _ _ _ _ Ha2)).
  destruct (advanced_frame fd _ _ _ _ Ha2) as (_ & _ & Hp2).
  unfold read_ckpt. rewrite Hec, Hrc, Nat2Z.id, <- Hul. apply returns_bind. apply returns_bind.
  assert (next fd k2 (entries_image w entries regions uctx) []) as Hn2' by (destruct Hn2 as [? Hr]; split; [done|]; by rewrite app_nil_r).
  eapply returns_weaken; [apply (read_entries_ok fd fix_mcontext w entries regions uctx (Z.of_nat (length regions)) (CkptIn [] [] None) [] k2 Hok Hrs)|].
  { eapply Forall_impl; [exact Hcm|]. intros r Hr. pose proof (cache_mapped_unmarked _ _ _ Hu1 Hr) as Hc. intros Hs a Ha. rewrite Hvm2. by apply Hc. }
  { done. } { cbn; lia. } { exact Hn2'. }
  intros o k3 (-> & _ & Hall). rewrite (bool_decide_eq_true_2 _ Hin). eapply returns_step; [reflexivity|]. apply returns_ret.
  eapply returns_step; [reflexivity|]. apply returns_bind. assert (v_port (view_of k2) = v_port (view_of k)) as Hp by (rewrite Hp2; apply Hu1).
  eapply returns_weaken; [apply (resign_ok fuel w regions (v_port (view_of k)) m _ fs (fd_close fd k3) Hst Hf2 Hm)|].
  - intros r a Hr Ha. rewrite close_vm. rewrite <- Hp. by apply (all_restored_same _ _ _ _ _ Hall).
  - intros [] k' Hk'. by apply returns_ret.
Qed.
End restarted.

(** ** From [xnd_checkpoint] to [xnd_setcontext] *)

Lemma entries_of_ok (regions : list xnd_vm_region) : entries_ok (entries_of (length regions)) regions.
Proof. induction regions as [|r regions IH]; [done|exact IH]. Qed.
Lemma entries_of_uctx n : XND_UCONTEXT_ENTRY ∈ entries_of n.
Proof. unfold entries_of. apply elem_of_app. right. apply list_elem_of_here. Qed.
Lemma entries_of_length n : Z.of_nat (length (entries_of n)) = Z.of_nat n + 1.
Proof. unfold entries_of. rewrite length_app, length_replicate. cbn. lia. Qed.

Section cycle.
Context `{!VmParams} {K1 K2 : Type}.
Context `{!IoSys K1, !VmWalk K1, !VmMem K1, !FdSys K1, !FsSys K1, !UuidLib, !CkptZlib K1, !PidOS K1, !DyldSys K1} (fd1 : Z) `{!VmSpec K1 fd1}
  (layout : list vm_node) `{!LayoutSpec K1 layout}.
Context `{!IoSys K2, !VmWalk K2, !VmMem K2, !FdSys K2, !FsSys K2, !RestartSys K2, !Words K2, !Pac, !PacRange} (fd2 : Z)
  `{!VmSpec K2 fd2} (rs : list span) `{!FlatWalk K2 rs, !BehaviorSpec fd2, !WordsSpec K2 fd2}.
Implicit Types s : pstate K1.

(** The header [xnd_checkpoint] writes for [n] regions. *)
Definition header_for s (info : shared_cache_info) (n : nat) : xnd_ckpt_header :=
  let i := g_ids s in let k := g_k s in
  CkptHeader (magic_bytes ++ [0]) (xnd_uuid i) (xnd_pid i) (xnd_ppid i) (xnd_pgid i)
    (_real_getpid k) (_real_getppid k) (_real_getpgid 0 k) (_real_getsid 0 k) (k_task_self k) (k_host_self k)
    (num_peers i) (if is_root_of_tree i then 1 else 0) (Z.of_nat n + 1) (Z.of_nat n) info.

(** The process [s] can be saved: its address space and the regions of it the
    array [buf] gets, the shared cache, and the image file. *)
Record can_checkpoint (buf : list bool) (regions : list xnd_vm_region) (info : shared_cache_info) (uctx : list Z) s (dirfd : Z) (k2 : K1) : Prop := {
  cc_layout : exists hi, wf_layout 0 hi layout /\ hi < 2 ^ 64;
  cc_dyld : Forall dyld_writable (leaves layout);
  cc_room : (length (List.filter region_valid (leaves layout)) <= length buf)%nat;
  cc_buf : Z.of_nat (length buf) = XND_CKPT_VM_REGION_MAX;
  cc_regions : regions = zip_with region_at (List.filter region_valid (leaves layout)) buf;
  cc_cache : shared_cache_get_info (g_k s) = Ret (Some info) (g_k s);
  cc_header : header_fields (header_for s info (length regions));
  cc_file : ckptfile_opens fd1 (header_for s info (length regions)) s dirfd k2;
  cc_zlib : env_use_zlib_compression (g_env s) = Ret false (g_env s);
  cc_ok : regions_ok (view_of k2) regions;
  cc_uctx : uctx <> []
}.

Definition walk_fuel : nat := (S (length (leaves layout)) * S (height layout))%nat.
Lemma xnd_checkpoint_ok buf regions info uctx s dirfd k2 : can_checkpoint buf regions info uctx s dirfd k2 ->
  returns (xnd_checkpoint walk_fuel buf uctx) s (fun _ s' => exists k3,
    s' = put_k (fd_close fd1 (fd_close dirfd k3)) s /\
    v_file (view_of k3) = header_bytes (header_for s info (length regions)) ++ entries_image (view_of k2) (entries_of (length regions)) regions uctx).
Proof.
  intros [(hi & Hwf & Hhi) Hd Hroom Hbuf Hregs Hc Hh Hf Hz Hok Hu]. unfold xnd_checkpoint.
  pose proof (ckpt_vm_save_regions_eq layout hi buf (g_k s) Hwf Hhi Hd) as Hsave. cbv zeta in Hsave. fold walk_fuel in Hsave.
  rewrite (proj2 (Nat.leb_le _ _) Hroom), <- Hregs in Hsave.
  eapply returns_step; [by apply on_k_ret|]. replace (put_k (g_k s) s) with s by by destruct s.
  assert (length regions <= length buf)%nat as Hlen by (rewrite Hregs, length_zip_with; lia).
  rewrite (proj2 (Z.ltb_ge _ _)) by lia. eapply returns_step; [reflexivity|].
  eapply (returns_step _ _ _ (header_for s info (length regions)) s).
  { rewrite (on_k_ret _ s (header_for s info (length regions)) (g_k s)); [by destruct s|].
    unfold xnd_ckptfile_write_header. by rewrite (bind_ret _ _ _ _ _ Hc). }
  apply returns_bind. eapply returns_weaken.
  { apply (write_ckpt_ok fd1 (header_for s info (length regions)) (entries_of (length regions)) regions uctx s dirfd k2); [done|done|by destruct Hh| | |apply Hok|done].
    - by rewrite entries_of_length.
    - apply entries_of_ok. }
  intros ret s' [-> H3]. by apply returns_ret.
Qed.

(** C1. A checkpointed process goes on in another: [xnd_checkpoint] returns with
    an image from which [restart], in a process of its own, ends in
    [xnd_setcontext] on the checkpointed context, with every saved byte,
    protection, inheritance and tag of every region back in place, the new
    process's task port, and every signed return address of the stack signed
    for the new process. *)
Theorem checkpoint_restarts buf regions info uctx s dirfd k2 :
  can_checkpoint buf regions info uctx s dirfd k2 -> Z.of_nat (length uctx) = sizeof_ucontext ->
  returns (xnd_checkpoint walk_fuel buf uctx) s (fun _ s' => exists k3 : K1,
    s' = put_k (fd_close fd1 (fd_close dirfd k3)) s /\
    forall fuel m fs (kr : K2), stack m (get_ucontext_fp (fix_mcontext uctx)) fs -> saved_words fd2 (view_of k2) regions m ->
      (length rs < fuel)%nat -> (length fs < fuel)%nat ->
      v_file (view_of kr) = v_file (view_of k3) -> v_off (view_of kr) = 0 ->
      (forall r a, r ∈ rs -> r.1.1 <= a < span_end r -> v_vm (view_of kr) a <> None) ->
      Forall (fun r => cache_mapped r (v_vm (view_of kr))) regions ->
      returns (restart fuel false fd2) kr (fun ctx k' => ctx = fix_mcontext uctx /\
        continued fd2 (view_of k2) regions (v_port (view_of kr)) m fs k')).
Proof.
  intros Hcc Hul. eapply returns_weaken; [by apply xnd_checkpoint_ok|]. intros [] s' (k3 & -> & Hfile). exists k3. split; [done|].
  intros fuel m fs kr Hst Hm Hf1 Hf2 Hkf Hko Hmap Hcm. destruct Hcc as [_ _ Hroom Hbuf Hregs Hc Hh Hf Hz Hok Hu].
  apply (restart_ok fd2 rs fuel (view_of k2) (header_for s info (length regions)) (entries_of (length regions)) regions uctx m fs kr); try done.
  - by rewrite entries_of_length.
  - apply entries_of_ok.
  - apply entries_of_uctx.
  - split; [by rewrite Hkf|done..].
Qed.
End cycle.

(** ** A process and its restart *)

(** A process with a stack of two frames and an allocator region, and the
    process it is restarted in, for the witness of [Cycle]. *)
From S2P Require Import CkptWorld.

#[local] Instance page16 : VmParams := {
  VM_PAGE_SIZE := 16; SHARED_REGION_BASE_ARM64 := 0x180000000; SHARED_REGION_SIZE_ARM64 := 0x100000000;
  XND_RESTART_BASE := 5000; XND_RESTART_END := 6000;
}.
#[local] Instance page16_spec : VmSpec box 6 := box_vm_spec eq_refl.

(** The kernel of the restarting process. *)
Definition box2 : Type := box.
#[local] Typeclasses Opaque box2.
#[local] Instance box2_io : IoSys box2 := box_io.
#[local] Instance box2_mem : VmMem box2 := box_mem.
#[local] Instance box2_fd : FdSys box2 := box_fd.
#[local] Instance box2_fs : FsSys box2 := box_fs.
#[local] Instance box2_spec : VmSpec box2 6 := page16_spec.

(** ** Words *)
Definition base : Z := 0x100000000.
Definition words_in (v : vmap) : mem := list_to_map (omap (fun a => pair a <$> word_at v a) (seqZ base 128)).
Definition rewords (old w : mem) (v : vmap) : vmap := fun a =>
  match v a with
  | None => None
  | Some c =>
    let i := a - a mod 8 in
    if decide (w !! i = old !! i) then Some c
    else match w !! i with Some x => Some (set_byte (nth (Z.to_nat (a mod 8)) (le_bytes 8 x) 0) c) | None => Some c end
  end.
#[local] Instance box2_words : Words box2 := {
  k_words b := words_in (v_vm (b_view b));
  put_words w b := on_view (v_mem (rewords (words_in (v_vm (b_view b))) w)) b
}.

Lemma words_in_at v a : words_in v !! a = if (base <=? a) && (a <? base + 128) then word_at v a else None.
Proof.
  unfold words_in. assert (NoDup (omap (fun a => pair a <$> word_at v a) (seqZ base 128)).*1) as Hnd.
  { assert ((omap (fun a => pair a <$> word_at v a) (seqZ base 128)).*1 = filter (fun a => is_Some (word_at v a)) (seqZ base 128)) as ->.
    { induction (seqZ base 128) as [|x l IH]; [done|]. cbn [omap list_omap]. rewrite filter_cons. destruct (word_at v x) eqn:E; cbn.
      - rewrite decide_True by by eexists. by f_equal.
      - rewrite decide_False by by intros [? ?]. done. }
    apply NoDup_filter, NoDup_seqZ. }
  destruct ((base <=? a) && (a <? base + 128)) eqn:Er.
  - apply andb_prop in Er as [H1%Z.leb_le H2%Z.ltb_lt]. destruct (word_at v a) as [x|] eqn:E.
    + apply elem_of_list_to_map; [done|]. apply list_elem_of_omap. exists a. split; [apply elem_of_seqZ; lia|]. by rewrite E.
    + apply not_elem_of_list_to_map. intros Hin. apply list_elem_of_fmap in Hin as ([y x] & -> & Hin).
      apply list_elem_of_omap in Hin as (z & _ & Hz). destruct (word_at v z) eqn:Ez; [|done]. cbn in Hz. injection Hz as <- <-. cbn in *. congruence.
  - apply not_elem_of_list_to_map. intros Hin. apply list_elem_of_fmap in Hin as ([y x] & -> & Hin).
    apply list_elem_of_omap in Hin as (z & Hz & Hw). apply elem_of_seqZ in Hz. destruct (word_at v z) eqn:Ez; [|done]. cbn in Hw. injection Hw as <- <-.
    cbn in Er. apply andb_false_iff in Er as [Er%Z.leb_gt|Er%Z.ltb_ge]; lia.
Qed.

#[local] Opaque words_in.

Lemma le_val_set x a : a mod 8 = 0 -> in_u 64 x ->
  le_val (map (fun y => nth (Z.to_nat (y mod 8)) (le_bytes 8 x) 0) (seqZ a 8)) = x.
Proof.
  intros Ha Hx. assert (map (fun y => nth (Z.to_nat (y mod 8)) (le_bytes 8 x) 0) (seqZ a 8) = le_bytes 8 x) as ->.
  { apply list_eq. intros i. rewrite list_lookup_fmap. destruct (decide (i < 8)%nat) as [Hi|Hi].
    - rewrite lookup_seqZ_lt by lia. cbn [fmap option_fmap option_map].
      assert (exists y, le_bytes 8 x !! i = Some y) as [y Hy] by (apply lookup_lt_is_Some; by rewrite le_bytes_length).
      rewrite Hy. f_equal. apply nth_lookup_Some. rewrite <- Hy. f_equal.
      rewrite <- Zplus_mod_idemp_l, Ha, Z.add_0_l, Z.mod_small by lia. lia.
    - rewrite lookup_seqZ_ge by lia. symmetry. apply lookup_ge_None. rewrite le_bytes_length. lia. }
  rewrite le_val_bytes. by apply Z.mod_small.
Qed.
Lemma rewords_flags old w v a c : v a = Some c -> exists c', rewords old w v a = Some c' /\ c_prot c' = c_prot c.
Proof. intros Hc. unfold rewords. rewrite Hc. destruct (decide _); [by eexists|]. destruct (w !! _); by eexists. Qed.
Lemma word_start a y : a mod 8 = 0 -> a <= y < a + 8 -> y - y mod 8 = a.
Proof.
  intros Ha Hy. assert (y mod 8 = y - a); [|lia]. replace y with (y - a + a) at 1 by lia.
  rewrite <- Zplus_mod_idemp_r, Ha, Z.add_0_r. apply Z.mod_small. lia.
Qed.
Lemma words_in_rewords v w : dom w = dom (words_in v) -> (forall a x, w !! a = Some x -> words_in v !! a = Some x \/ in_u 64 x) ->
  words_in (rewords (words_in v) w v) = w.
Proof.
  intros Hd Hw. apply map_eq. intros a. rewrite words_in_at. destruct ((base <=? a) && (a <? base + 128)) eqn:Er.
  2:{ symmetry. apply not_elem_of_dom. rewrite Hd. apply not_elem_of_dom. rewrite words_in_at. by rewrite Er. }
  assert (word_at v a = words_in v !! a) as Hv by (rewrite words_in_at; by rewrite Er).
  destruct (decide (w !! a = words_in v !! a)) as [Hs|Hs].
  - rewrite Hs, <- Hv. destruct (decide (a mod 8 = 0)) as [Ha|Ha].
    + apply word_at_ext. intros y Hy. unfold rewords. destruct (v y); [|done]. cbv zeta. rewrite (word_start a y) by done. by rewrite decide_True.
    + unfold word_at. by rewrite (proj2 (Z.eqb_neq _ _)).
  - destruct (w !! a) as [x|] eqn:Hx.
    2:{ exfalso. apply Hs. symmetry. apply not_elem_of_dom. rewrite <- Hd. by apply not_elem_of_dom. }
    destruct (Hw a x Hx) as [|Hr]; [by destruct Hs|].
    assert (is_Some (words_in v !! a)) as [x0 Hx0] by (apply elem_of_dom; rewrite <- Hd; apply elem_of_dom; by eexists).
    rewrite Hx0 in Hv. unfold word_at in Hv |- *. destruct (Z.eqb_spec (a mod 8) 0) as [Ha|]; [|done]. cbn [andb] in *.
    destruct (forallb _ (seqZ a 8)) eqn:Hf in Hv; [|done]. rewrite forallb_forall in Hf.
    assert (forall y, y ∈ seqZ a 8 -> exists c, v y = Some c /\ readable (v y) && writable (v y) = true) as Hc.
    { intros y Hy. pose proof (Hf y ltac:(by apply list_elem_of_In)) as Hrw. destruct (v y) as [c|]; [by exists c|done]. }
    assert (forallb (fun y => readable (rewords (words_in v) w v y) && writable (rewords (words_in v) w v y)) (seqZ a 8) = true) as ->.
    { apply forallb_forall. intros y Hy%list_elem_of_In. destruct (Hc y Hy) as (c & Hy' & Hrw). rewrite Hy' in Hrw.
      destruct (rewords_flags (words_in v) w v y c Hy') as (c' & -> & Hp). cbn in *. by rewrite Hp. }
    f_equal. etrans; [|apply (le_val_set x a Ha Hr)]. f_equal. unfold range. apply list_fmap_ext. intros i y Hy.
    assert (y ∈ seqZ a 8) as Hyin by (apply list_elem_of_lookup; by exists i). destruct (Hc y Hyin) as (c & Hy' & _).
    apply elem_of_seqZ in Hyin. unfold byte_at, rewords. rewrite Hy', (word_start a y) by (done || lia).
    rewrite decide_False by (rewrite Hx; congruence). by rewrite Hx.
Qed.

#[local] Instance box2_words_spec : WordsSpec box2 6.
Proof.
  refine {| word_lo := base; word_hi := base + 128 |}.
  - intros k a. apply words_in_at.
  - intros k w Hd Hw. exact (words_in_rewords (v_vm (b_view k)) w Hd Hw).
  - intros k w a Ha. cbn in *. unfold rewords. destruct (v_vm (b_view k) a); [|done]. by rewrite decide_True.
  - done.
Defined.

(** ** The checkpointed process *)
Definition layout : list vm_node := [
  Leaf base 64 (VmInfo false 1 3 7 0 0 VM_MEMORY_STACK 4 1);
  Submap (base + 64) 64 (VmInfo true 1 3 7 0 0 0 0 0) [Leaf (base + 64) 32 (VmInfo false 1 3 7 0 0 VM_MEMORY_MALLOC_TINY 2 1)]].
#[local] Instance box_walk : VmWalk box := {
  vm_region_recurse addr depth _ := find_region (Z.to_nat depth) layout addr; vm_set_behavior _ _ _ b := (true, b)
}.
#[local] Instance box_layout : LayoutSpec box layout.
Proof. by split. Defined.
#[local] Instance box_pids : PidOS box := { _real_getpid _ := 50; _real_getppid _ := 1; _real_getpgrp _ := 50; _real_getpgid _ _ := 50 }.
#[local] Instance box_dyld : DyldSys box := {
  dyld_shared_cache_range _ := Some (0x180000000, 0x80000000); dyld_shared_cache_uuid _ := Some (replicate 16 7);
  k_task_self _ := 259; k_host_self _ := 515; _real_getsid _ _ := 50
}.

(** Two frames at [base + 16] and [base + 32], the first's return address signed. *)
Definition two_frame_words : list Z := [7; 7; base + 32; 0x8012000100003f00; 0; 0x100004000; 9; 9].
Definition stack_bytes : list Z := List.flat_map (le_bytes 8) two_frame_words.
Definition tiny_bytes : list Z := replicate 16 77 ++ replicate 16 0.
Definition memory : vmap := fun a =>
  if in_range base 64 a then Some (Cell (nth (Z.to_nat (a - base)) stack_bytes 0) 3 7 1 30)
  else if in_range (base + 64) 32 a then Some (Cell (nth (Z.to_nat (a - base - 64)) tiny_bytes 0) 3 7 1 7)
  else None.
Definition view_with (file : list Z) : view := View memory file 0 (fun a => if a =? base + 64 then 8 else 1) 259.
Definition saved : box := Box (view_with []) 0.
Definition running : pstate box := process (Box (view_with [1; 2]) 0).
Definition buf : list bool := replicate (Z.to_nat XND_CKPT_VM_REGION_MAX) false.
Definition regions : list xnd_vm_region := [
  VmRegion base 64 1 3 7 0 VM_MEMORY_STACK 1 false; VmRegion (base + 64) 32 1 3 7 0 VM_MEMORY_MALLOC_TINY 1 false].
Definition cache : shared_cache_info := SharedCacheInfo 0x180000000 0x80000000 (replicate 16 7).

(** A context is a pointer to the machine's context and its frame pointer. *)
Definition context : list Z := le_bytes 8 0x5000 ++ le_bytes 8 (base + 16).
#[local] Instance box2_restart : RestartSys box2 := {
  vm_deallocate _ _ b := (true, b); vm_map_stack _ _ _ b := (true, b);
  XND_GUARD_ADDR := base; XND_GUARD_SIZE := 64; XND_RESTART_STACK := 0x170000000;
  sizeof_ucontext := 16;
  fix_mcontext u := le_bytes 8 0x6000 ++ drop 8 u;
  get_ucontext_fp u := le_val (drop 8 u)
}.
(** Codes in the upper 17 bits. *)
#[local] Instance upper_pac : Pac := {
  xpaci p := p mod 2 ^ 47;
  pacib p md := p mod 2 ^ 47 + 2 ^ 47 * ((md + 1) mod 2 ^ 17);
  autib p md := Some (p mod 2 ^ 47)
}.
#[local] Instance upper_range : PacRange.
Proof.
  split. intros p md _. cbn [pacib xpaci upper_pac]. unfold in_u.
  pose proof (Z.mod_pos_bound (p mod 2 ^ 47) (2 ^ 47) ltac:(lia)). pose proof (Z.mod_pos_bound (md + 1) (2 ^ 17) ltac:(lia)). lia.
Defined.

(** ** The restarting process

    It has its program and its stack. *)
Definition own : list span := [(5000, 100, 0); (0x170000000, 64, VM_MEMORY_RESTART_STACK)].
#[local] Instance box2_walk : VmWalk box2 := {
  vm_region_recurse addr depth _ :=
    (fun r : span => (r.1.1, r.1.2, 0, VmInfo false 1 3 7 0 0 r.2 1 1)) <$> region_after addr own;
  vm_set_behavior _ _ _ b := (true, b)
}.
#[local] Instance box2_flat : FlatWalk box2 own.
Proof.
  split.
  - vm_compute. repeat split; (discriminate || reflexivity).
  - intros addr depth k. cbn [vm_region_recurse box2_walk]. destruct (region_after addr own) as [r|]; [|done].
    by exists 0, (VmInfo false 1 3 7 0 0 r.2 1 1).
Defined.
#[local] Instance box2_behavior : BehaviorSpec (K := box2) 6.
Proof. split. by intros addr n b k ok k' [= <- <-]. Defined.
Definition own_memory : vmap := fun a =>
  if in_range 5000 100 a || in_range 0x170000000 64 a then Some (Cell 1 3 7 1 0) else None.
Definition starting (file : list Z) : box2 := Box (View own_memory file 0 (fun _ => 1) 515) 0.

Lemma directory_opens (b : box) : xnd_ckptdir_open (replicate 16 0) 1 b = Ret 5 b.
Proof. vm_compute. reflexivity. Qed.
Lemma memory_stack a : base <= a < base + 64 -> memory a = Some (Cell (nth (Z.to_nat (a - base)) stack_bytes 0) 3 7 1 30).
Proof. intros Ha. unfold memory. by rewrite in_range_true. Qed.
Lemma memory_tiny a : base + 64 <= a < base + 96 -> memory a = Some (Cell (nth (Z.to_nat (a - base - 64)) tiny_bytes 0) 3 7 1 7).
Proof. intros Ha. unfold memory. rewrite (in_range_false base 64 a) by lia. by rewrite in_range_true by lia. Qed.
Ltac small := vm_compute; (discriminate || reflexivity || (split; (discriminate || reflexivity))).
Lemma saved_regions_ok : regions_ok (view_of saved) regions.
Proof.
  split.
  - repeat (apply List.Forall_cons || apply List.Forall_nil); (split; [small|small|small|small|small|small|small|intros a Ha|small]);
      cbn [start size] in Ha; eexists.
    + split; [exact (memory_stack a Ha)|split; reflexivity].
    + split; [apply memory_tiny; lia|split; reflexivity].
  - repeat (apply List.Forall_cons || apply List.Forall_nil); split; small.
  - repeat (apply List.Forall_cons || apply List.Forall_nil); vm_compute; done.
  - cbn. repeat (split || apply List.Forall_cons || apply List.Forall_nil); left; vm_compute; done.
Qed.
Lemma running_ok : can_checkpoint 6 layout buf regions cache context running 5 saved.
Proof.
  split.
  - exists (base + 128). split; [|done]. unfold layout, base.
    repeat (constructor; try done).
  - vm_compute. repeat constructor; intros [?|?]; discriminate.
  - vm_compute. lia.
  - vm_compute. reflexivity.
  - vm_compute. reflexivity.
  - reflexivity.
  - split; try reflexivity; repeat (apply List.Forall_cons || apply List.Forall_nil); vm_compute; split; (discriminate || reflexivity).
  - split; [|done..]. exists (g_k running). split; [exact (directory_opens (g_k running))|]. by intros name _.
  - reflexivity.
  - exact saved_regions_ok.
  - done.
Qed.

(** The words of the two frames. *)
Definition frame_words : mem := list_to_map [(base + 16, base + 32); (base + 24, 0x8012000100003f00); (base + 32, 0); (base + 40, 0x100004000)].
Definition frames : list Z := [base + 16; base + 32].
Lemma frame_words_stack : stack frame_words (get_ucontext_fp (fix_mcontext context)) frames.
Proof. repeat (eapply stack_frame; [done|vm_compute; reflexivity|vm_compute; reflexivity|repeat constructor; vm_compute; discriminate|]). constructor. Qed.
Lemma frame_words_saved : saved_words 6 (view_of saved) regions frame_words.
Proof.
  intros a x Hx. assert (a ∈ [base + 16; base + 24; base + 32; base + 40]) as Ha.
  { apply elem_of_dom_2 in Hx. unfold frame_words in Hx. rewrite dom_list_to_map_L in Hx. cbn in Hx. set_solver. }
  assert (exists r, r ∈ regions /\ start r <= a /\ a + 8 <= start r + size r /\
    Z.land (prot r) VM_PROT_READ <> 0 /\ Z.land (prot r) VM_PROT_WRITE <> 0 /\
    forall y, a <= y < a + 8 -> saved_addr (view_of saved) r y = true /\ port_addr y = false) as Hr.
  { eexists. split; [apply list_elem_of_here|]. cbn [start size prot].
    repeat (apply elem_of_cons in Ha as [->|Ha]; [|try by apply elem_of_nil in Ha]);
      (split; [vm_compute; discriminate|]; split; [vm_compute; discriminate|]; split; [done|]; split; [done|]; intros y Hy;
       split; [done|]; unfold port_addr; apply in_range_false; cbn; unfold base in Hy; lia). }
  repeat (apply elem_of_cons in Ha as [->|Ha]; [|try by apply elem_of_nil in Ha]);
    (vm_compute in Hx; injection Hx as <-; split; [split; [done|exact Hr|by vm_compute|vm_compute; split; [discriminate|done]]|cbn; unfold base; lia]).
Qed.

Lemma checkpoint_restarts_witness :
  returns (xnd_checkpoint (walk_fuel layout) buf context) running (fun _ s' => exists k3 : box,
    s' = put_k (fd_close 6 (fd_close 5 k3)) running /\
    forall fuel m fs (kr : box2), stack m (get_ucontext_fp (fix_mcontext context)) fs -> saved_words 6 (view_of saved) regions m ->
      (length own < fuel)%nat -> (length fs < fuel)%nat ->
      v_file (view_of kr) = v_file (view_of k3) -> v_off (view_of kr) = 0 ->
      (forall r a, r ∈ own -> r.1.1 <= a < span_end r -> v_vm (view_of kr) a <> None) ->
      Forall (fun r => cache_mapped r (v_vm (view_of kr))) regions ->
      returns (restart fuel false 6) kr (fun ctx k' => ctx = fix_mcontext context /\
        continued 6 (view_of saved) regions (v_port (view_of kr)) m fs k')).
Proof.
  apply (checkpoint_restarts 6 layout 6 own buf regions cache context running 5 saved running_ok). vm_compute. reflexivity.
Defined.
(** Its inner hypotheses hold of the process with the two frames. *)
Lemma own_mapped file r a : r ∈ own -> r.1.1 <= a < span_end r -> v_vm (view_of (starting file)) a <> None.
Proof.
  intros Hr Ha. cbn [view_of box2_spec page16_spec box_vm_spec b_view starting v_vm]. unfold own_memory.
  repeat (apply elem_of_cons in Hr as [->|Hr]; [|try by apply elem_of_nil in Hr]); cbn in Ha; unfold span_end in Ha; cbn in Ha.
  - by rewrite in_range_true by lia.
  - rewrite (in_range_true 0x170000000 64) by lia. by rewrite orb_true_r.
Qed.
Example two_frames_restart (k3 : box) : 
  v_file (view_of k3) = header_bytes (header_for running cache 2) ++ entries_image (view_of saved) (entries_of 2) regions context ->
  returns (restart 3 false 6) (starting (v_file (view_of k3))) (fun ctx k' => ctx = fix_mcontext context /\
    continued 6 (view_of saved) regions 515 frame_words frames k').
Proof.
  intros Hf. assert (v_port (view_of (starting (v_file (view_of k3)))) = 515) as Hp by reflexivity. rewrite <- Hp. clear Hp.
  apply (restart_ok (K := box2) 6 own 3 (view_of saved) (header_for running cache 2) (entries_of 2) regions context frame_words frames (starting (v_file (view_of k3)))).
  - exact (cc_header _ _ _ _ _ _ _ _ _ running_ok).
  - reflexivity.
  - reflexivity.
  - reflexivity.
  - exact (entries_of_ok regions).
  - exact (entries_of_uctx 2).
  - reflexivity.
  - done.
  - exact saved_regions_ok.
  - exact frame_words_stack.
  - exact frame_words_saved.
  - cbn. lia.
  - cbn. lia.
  - split; [exact Hf|reflexivity|apply own_mapped|].
    repeat (apply List.Forall_cons || apply List.Forall_nil); intros Hs; vm_compute in Hs; discriminate.
Qed.
