(* ===== verification/Launch.v ===== *)
(** Starting a computation and commanding it: [xnd/xnd_launch.c],
    [xnd/xnd_command.c], [xnd/platform/exe.c], and the rest of
    [xnd/coordinator/xnd_coord_api.c].

    The state is the process's: its environment and the kernel.  A program
    that has been replaced by another is the value [Became]. *)

From S2P Require Import Prelude Cstr Path Env Bytes Io CoordMsg Process PidTable CoordProps CoordClient Mapping Macho.
From Stdlib Require Import Ascii.
Open Scope Z_scope.

Definition XND_EXIT_SUCCESS : Z := 0.
Definition XND_EXIT_FAILURE : Z := 222.
Definition XND_COORD_RESTART_FLAG : string := "xnd_coord_restart".
Definition ESRCH : Z := 3.
Definition O_NONBLOCK : Z := 4.

Class LaunchSys (K : Type) := {
  (** [_NSGetExecutablePath]: the path if it fits *)
  lk_exe_path : Z -> K -> option cstr;
  (** [access(path, X_OK) == 0], [access(path, F_OK) == 0] *)
  lk_executable : cstr -> K -> bool;
  lk_exists : cstr -> K -> bool;
  (** [access] and [unlink] of the coordinator's socket *)
  lk_coord_there : K -> bool * K;
  lk_coord_unlink : K -> bool * K;
  lk_fork : K -> Z * K;
  (** [execvp]: 0 stands for the process having become the program *)
  lk_execvp : cstr -> list cstr -> K -> Z * K;
  (** [kill(pid, 0)]: 0 or an errno; [fcntl(F_GETFL)] and [F_SETFL]: -1 on
      error; [recv] of at most 32 bytes with [MSG_PEEK]; [getsockopt] of
      [SO_ERROR]: its status and the option *)
  lk_kill0 : Z -> K -> Z * K;
  lk_getfl : Z -> K -> Z * K;
  lk_setfl : Z -> Z -> K -> Z * K;
  lk_peek : Z -> K -> Z * K;
  lk_so_error : Z -> K -> (Z * Z) * K;
}.

(** The program a process has become. *)
Inductive launched : Type := Became (file : cstr) (argv : list cstr).

Section launch.
Context {K : Type} `{IoSys K, FdSys K, ClientOS K, PidOS K, MachoSys K, LaunchSys K}.
(** What an uninitialised character array holds *)
Context (junk : cstr) (stack_msg : xnd_msg).

Definition ask {A} (f : K -> A) : M (pstate K) A := gets (fun s => f (g_k s)).
(** A function of [Path] on the buffer [out]. *)
Definition on_path {A} (f : M cstr A) (out : cstr) : M (pstate K) (A * cstr) := fun s =>
  match f out with
  | Ret a out => Ret (a, out) s
  | Exit c _ => Exit c s
  | Abort _ => Abort s
  | Ub => Ub
  | NoFuel => NoFuel
  end.

(** ** [exe.c] *)

Definition xnd_exe_path (outlen : Z) : M (pstate K) (option cstr) := ask (lk_exe_path (u32 outlen)).

Definition xnd_exe_dir (dst : cstr) (dstlen : Z) : M (pstate K) (Z * cstr) :=
  path ← xnd_exe_path PATH_MAX;
  match path with
  | None => mret (-1, dst)
  | Some path =>
    '(ret, dst) ← on_path (xnd_path_dirname false dstlen path) dst;
    mret (if ret <? 0 then -1 else 0, dst)
  end.

Definition xnd_exe_path_of (dst : cstr) (dstlen : Z) (exe : cstr) : M (pstate K) (Z * cstr) :=
  '(ret, dir) ← xnd_exe_dir junk PATH_MAX;
  if ret <? 0 then mret (-1, dst) else
  '(ret, dst) ← on_path (xnd_path_join dstlen (Some dir) (Some exe)) dst;
  mret (if ret <? 0 then -1 else 0, dst).

(** ** [xnd_coord_api.c] *)

(** [fork]'s child runs the second half of the switch, and becomes the
    coordinator or exits; the parent gets its pid. *)
Definition launch_coordinator (restarting : bool) : M (pstate K) (launched + Z) :=
  there ← k_op lk_coord_there;
  (if (there : bool) then gone ← k_op lk_coord_unlink; xnd_assert gone else mret tt);;
  coord_pid ← k_op lk_fork;
  if coord_pid =? -1 then mret (inr (-1))
  else if coord_pid =? 0 then
    '(_, buf) ← xnd_exe_dir junk PATH_MAX;
    '(_, exe) ← on_path (xnd_path_join PATH_MAX (Some buf) (Some (cs "xnd_coordinator"))) junk;
    let argv := if restarting then [exe; cs XND_COORD_RESTART_FLAG] else [exe] in
    err ← k_op (lk_execvp exe argv);
    if negb (err =? 0) then exit_with XND_EXIT_FAILURE else mret (inl (Became exe argv))
  else
    on_env (setenv "XND_COORD_PID" (snprintf PATH_MAX (show_d coord_pid)));;
    mret (inr coord_pid).

(** [coord_pid] is the function's static. *)
Definition get_coord_pid (coord_pid : Z) : M (pstate K) Z :=
  if coord_pid =? -1 then
    pid_str ← on_env (getenv "XND_COORD_PID");
    mret (match pid_str with Some s => atoi s | None => coord_pid end)
  else mret coord_pid.

Definition set_nonblock (fd : Z) (on : bool) : M (pstate K) bool :=
  flags ← k_op (lk_getfl fd);
  if flags =? -1 then mret false else
  r ← k_op (lk_setfl fd (if on then Z.lor flags O_NONBLOCK else Z.land flags (Z.lnot O_NONBLOCK)));
  mret (negb (r =? -1)).

Definition coord_exited (fd : Z) : M (pstate K) bool :=
  coord_pid_str ← on_env (getenv "XND_COORD_PID");
  dead ← (match coord_pid_str with
          | Some s => err ← k_op (lk_kill0 (atoi s)); mret (negb (err =? 0) && (err =? ESRCH))
          | None => mret false
          end);
  if (dead : bool) then mret true else
  ok ← set_nonblock fd true;
  if negb ok then mret true else
  n ← k_op (lk_peek fd);
  let exited := n =? 0 in
  ok ← set_nonblock fd false;
  if negb ok then mret true else mret exited.

Definition coord_socket_status (fd : Z) : M (pstate K) Z :=
  xnd_assert (negb (fd =? -1));;
  '(err, stat) ← k_op (lk_so_error fd);
  mret (if negb (err =? 0) then -1 else stat).

(** ** [xnd_launch.c] *)

(** [strncmp(arg, s, n) == 0] for [n] at most the length of [s] *)
Definition prefix_eq (n : nat) (arg s : cstr) : bool := bool_decide (take n arg = take n s).
Definition ARG_IS_HELP (arg : cstr) : bool := bool_decide (arg = cs "--help").
Definition ARG_IS_CKPT_INTERVAL (arg : cstr) : bool :=
  bool_decide (arg = cs "-i") || bool_decide (arg = cs "--interval").
Definition ARG_IS_USE_ZLIB (arg : cstr) : bool := bool_decide (arg = cs "--use-zlib").
(** compares [sizeof("no-zlib")] characters, of [--no-zlib] *)
Definition ARG_IS_NO_ZLIB (arg : cstr) : bool := prefix_eq 8 arg (cs "--no-zlib").
Definition ARG_IS_CKPT_SIGNAL (arg : cstr) : bool := bool_decide (arg = cs "--ckpt-signal").
Definition ARG_IS_UNLINK_TMP (arg : cstr) : bool := bool_decide (arg = cs "--unlink-tmp").
Definition ARG_IS_INVALID (arg : cstr) : bool :=
  prefix_eq 2 arg (cs "--") ||
  ((strlen arg =? 2) && match head arg with Some a => Ascii.eqb a "-" | None => false end).

(** The loop of [main]: it ends at the program's name.  Where the arguments
    end, or an operand is missing, [argv[0]] or [argv[1]] is NULL and is
    read. *)
Fixpoint launch_options (args : list cstr) : M (pstate K) (list cstr) :=
  match args with
  | [] => ub
  | arg :: rest =>
    if ARG_IS_HELP arg then exit_with XND_EXIT_SUCCESS
    else if ARG_IS_CKPT_INTERVAL arg then
      match rest with [] => ub | v :: rest => on_env (env_set_ckpt_interval v);; launch_options rest end
    else if ARG_IS_USE_ZLIB arg then on_env (env_set_zlib_compression (cs "1"));; launch_options rest
    else if ARG_IS_NO_ZLIB arg then on_env (env_set_zlib_compression (cs "0"));; launch_options rest
    else if ARG_IS_CKPT_SIGNAL arg then
      match rest with [] => ub | v :: rest => on_env (env_set_ckpt_signal v);; launch_options rest end
    else if ARG_IS_UNLINK_TMP arg then
      match rest with [] => ub | v :: rest => on_env (env_set_unlink_tmp v);; launch_options rest end
    else if ARG_IS_INVALID arg then exit_with XND_EXIT_FAILURE
    else mret args
  end.

(** [prepare_args]: the arguments of the program to be executed.  [strcat] and
    [strncpy] do not know the size of their arrays. *)
Definition prepare_args (prog : cstr) (rest : list cstr) : M (pstate K) (list cstr) :=
  '(ret, base) ← on_path (xnd_path_basename (PATH_MAX - 2) prog) [];
  if negb (ret =? 0) then exit_with XND_EXIT_FAILURE else
  let tmp := cs "./" ++ base ++ cs "-tmp" in
  if PATH_MAX <=? strlen tmp then ub else
  runs ← ask (lk_executable prog);
  exec_path ← (if (runs : bool) then
                 if PATH_MAX <=? strlen prog then ub else mret prog
               else
                 path ← on_env (getenv "PATH");
                 k ← gets g_k;
                 '(ret, out) ← on_path (xnd_path_find (fun p => lk_exists p k) path prog PATH_MAX) junk;
                 if negb (ret =? 0) then exit_with XND_EXIT_FAILURE else mret out);
  ret ← on_k (binary_arm64e_to_arm64 exec_path tmp);
  if ret =? ARM64E_TO_ARM64_SUCCESS then on_env (env_set_tmp_binary tmp);; mret (tmp :: rest)
  else if ret =? ARM64E_TO_ARM64_NOT_ARM64E then mret (exec_path :: rest)
  else exit_with XND_EXIT_FAILURE.

Definition launch (prog : cstr) (rest : list cstr) : M (pstate K) launched :=
  new_argv ← prepare_args prog rest;
  coord ← launch_coordinator false;
  match coord with
  | inl coordinator => mret coordinator
  | inr coord_pid =>
    if coord_pid =? -1 then exit_with XND_EXIT_FAILURE else
    '(err, libxnd_path) ← xnd_exe_path_of junk PATH_MAX (cs "libxnd.dylib");
    if err <? 0 then exit_with XND_EXIT_FAILURE else
    match new_argv with
    | [] => ub
    | file :: _ =>
      on_env (env_set_program_name file);;
      on_env (setenv "DYLD_INSERT_LIBRARIES" libxnd_path);;
      on_env env_set_dyld_shared_region_private;;
      err ← k_op (lk_execvp file new_argv);
      if negb (err =? 0) then exit_with XND_EXIT_FAILURE else mret (Became file new_argv)
    end
  end.

Definition launch_main (args : list cstr) : M (pstate K) launched :=
  if bool_decide (args = []) then exit_with XND_EXIT_FAILURE else
  args ← launch_options args;
  match args with
  | [] => ub
  | prog :: rest => launch prog rest
  end.

(** ** [xnd_command.c] *)

Definition command_main (args : list cstr) : M (pstate K) unit :=
  match args with
  | [] => exit_with XND_EXIT_SUCCESS
  | arg :: _ =>
    if bool_decide (arg = cs "--checkpoint") then
      send_command_to_coord stack_msg XND_CKPT_CMD;; exit_with XND_EXIT_SUCCESS
    else if bool_decide (arg = cs "--kill") then
      send_command_to_coord stack_msg XND_KILL_CMD;; exit_with XND_EXIT_SUCCESS
    else exit_with XND_EXIT_SUCCESS
  end.
End launch.
