(* ===== verification/LaunchProps.v ===== *)
(** Launching a computation: theorems of [Launch], and the composition with
    [MachoProps]. *)

From S2P Require Import Prelude Cstr Path Env Bytes Io CoordMsg Process PidTable CoordProps CoordClient Mapping Macho.
From S2P Require Import MachoProps Launch.
From Stdlib Require Import Ascii.
Open Scope Z_scope.

(** ** The options *)

Inductive opt : Type :=
  | OInterval (short : bool) (v : cstr)
  | OUseZlib
  | ONoZlib
  | OSignal (v : cstr)
  | OUnlink (v : cstr).
Definition render (o : opt) : list cstr :=
  match o with
  | OInterval short v => [if short then cs "-i" else cs "--interval"; v]
  | OUseZlib => [cs "--use-zlib"]
  | ONoZlib => [cs "--no-zlib"]
  | OSignal v => [cs "--ckpt-signal"; v]
  | OUnlink v => [cs "--unlink-tmp"; v]
  end.
(** The signal used when [v] is asked for. *)
Definition usable_signal (v : cstr) : Z :=
  let sig := atoi v in
  if (sig <=? 0) || (NSIG <=? sig) || (sig =? SIGKILL) || (sig =? SIGSTOP) then XND_DEFAULT_CKPT_SIGNAL else sig.
(** The variable an option sets, and to what. *)
Definition sets (o : opt) : string * cstr :=
  match o with
  | OInterval _ v => (XND_CKPT_INTERVAL_ENV, v)
  | OUseZlib => (XND_USE_ZLIB_ENV, cs "1")
  | ONoZlib => (XND_USE_ZLIB_ENV, cs "0")
  | OSignal v => (XND_CKPT_SIGNAL_ENV, snprintf 11 (show_d (usable_signal v)))
  | OUnlink v => (XND_UNLINK_TMP_ENV, v)
  end.
Definition with_options (opts : list opt) (m : gmap string cstr) : gmap string cstr :=
  foldl (fun m o => <[(sets o).1 := (sets o).2]> m) m opts.
(** What the loop takes for the name of the program. *)
Definition is_program (arg : cstr) : bool :=
  negb (ARG_IS_HELP arg || ARG_IS_CKPT_INTERVAL arg || ARG_IS_USE_ZLIB arg || ARG_IS_NO_ZLIB arg ||
        ARG_IS_CKPT_SIGNAL arg || ARG_IS_UNLINK_TMP arg || ARG_IS_INVALID arg).

Definition with_environ (m : gmap string cstr) {K} (s : pstate K) : pstate K :=
  put_env (EnvState m (ckpt_sig_cache (g_env s))) s.

Lemma options_eq {K} opts prog rest (s : pstate K) : is_program prog = true ->
  launch_options (concat (render <$> opts) ++ prog :: rest) s
    = Ret (prog :: rest) (with_environ (with_options opts (environ (g_env s))) s).
Proof.
  intros Hp. revert s. induction opts as [|o opts IH]; intros s.
  - unfold is_program in Hp. rewrite negb_true_iff, !orb_false_iff in Hp.
    destruct Hp as ((((((E1 & E2) & E3) & E4) & E5) & E6) & E7). cbn [fmap list_fmap concat app launch_options].
    rewrite E1, E2, E3, E4, E5, E6, E7. by destruct s as [? ? ? ? ? ? ? [? ?] ?].
  - cbn [fmap list_fmap concat]. rewrite <- app_assoc.
    assert (forall s0 : pstate K, with_environ (with_options opts (environ (g_env (with_environ (<[(sets o).1 := (sets o).2]> (environ (g_env s0))) s0))))
      (with_environ (<[(sets o).1 := (sets o).2]> (environ (g_env s0))) s0) =
      with_environ (with_options (o :: opts) (environ (g_env s0))) s0) as Hfold by done.
    rewrite <- Hfold, <- IH. by destruct o as [[|] v| | |v|v].
Qed.

(** ** Programs that may fail *)

(** [m] ends with a result that satisfies [Q], by exiting with
    XND_EXIT_FAILURE, or in a failed assertion, which [B] allows. *)
Definition ends {S A} (B : Prop) (m : M S A) (s : S) (Q : A -> S -> Prop) : Prop :=
  match m s with
  | Ret a s' => Q a s'
  | Exit c _ => c = XND_EXIT_FAILURE
  | Abort _ => B
  | Ub | NoFuel => False
  end.

Lemma ends_step {S A B} P (m : M S A) (k : A -> M S B) s a s' Q : m s = Ret a s' -> ends P (k a) s' Q -> ends P (m ≫= k) s Q.
Proof. intros H1 H2. unfold ends. by rewrite (bind_ret _ _ _ _ _ H1). Qed.
Lemma ends_bind {S A B} P (m : M S A) (k : A -> M S B) s Q :
  ends P m s (fun a s' => ends P (k a) s' Q) -> ends P (m ≫= k) s Q.
Proof. unfold ends, mbind, M_bind. destruct (m s); naive_solver. Qed.
Lemma ends_exit {S A} P s (Q : A -> S -> Prop) : ends P (exit_with XND_EXIT_FAILURE) s Q.
Proof. done. Qed.
Lemma ends_returns {S A} P (m : M S A) s Q : returns m s Q -> ends P m s Q.
Proof. unfold ends, returns. by destruct (m s). Qed.

Lemma k_op_eq {K A} (f : K -> A * K) (s : pstate K) a k : f (g_k s) = (a, k) -> k_op f s = Ret a (put_k k s).
Proof. intros E. unfold k_op. apply on_k_ret. by rewrite E. Qed.

(** ** Launching *)

(** The calls that start programs change no file. *)
Class LaunchFs (K : Type) `{LaunchSys K} (files : K -> gmap cstr (list Z)) := {
  there_law k r k' : lk_coord_there k = (r, k') -> files k' = files k;
  gone_law k r k' : lk_coord_unlink k = (r, k') -> files k' = files k;
  fork_law k r k' : lk_fork k = (r, k') -> files k' = files k;
  exec_law p a k r k' : lk_execvp p a k = (r, k') -> files k' = files k;
}.

Section launch.
Context {K : Type} `{IoSys K, FdSys K, ClientOS K, PidOS K, MachoSys K, LaunchSys K}.
Context (files : K -> gmap cstr (list Z)) (fds : K -> gmap Z (cstr * bool)) `{!MachoFs K files fds} `{LF : !LaunchFs K files}.
Context (junk : cstr) (dir exe : cstr).
(** The launching program is [dir/exe]. *)
Context (Hself : forall k, lk_exe_path PATH_MAX k = Some (dir ++ slash :: exe)).
Context (Hdir : dir <> [] /\ strip_last dir = dir /\ strlen dir < 900) (Hexe : slash ∉ exe).

Lemma strrchr_dir : strrchr (dir ++ slash :: exe) slash = Some (length dir).
Proof using Hexe. by apply strrchr_app. Qed.

Lemma exe_dir_eq out (s : pstate K) : xnd_exe_dir out PATH_MAX s = Ret (0, dir) s.
Proof using Hself Hdir Hexe.
  destruct Hdir as (_ & _ & Hl). unfold xnd_exe_dir, xnd_exe_path, ask, gets.
  change (u32 PATH_MAX) with PATH_MAX. erewrite bind_ret by reflexivity. rewrite Hself.
  rewrite (bind_ret _ _ s (0, dir) s); [done|]. unfold on_path, xnd_path_dirname. rewrite strrchr_dir.
  cbn [orb]. change (PATH_MAX =? 0) with false. cbv iota. fold (strlen dir).
  rewrite (proj2 (Z.leb_gt _ _)) by (unfold PATH_MAX; lia). unfold strlcpy. rewrite Z.add_simpl_r.
  unfold strlen. by rewrite Nat2Z.id, take_app_length.
Qed.

Definition beside (name : cstr) : cstr := dir ++ slash :: strip_first name.

Lemma join_eq name out (s : pstate K) : strlen name < 100 ->
  on_path (xnd_path_join PATH_MAX (Some dir) (Some name)) out s = Ret (0, beside name) s.
Proof using Hdir.
  intros Hn. destruct Hdir as (Hne & Hst & Hl). unfold on_path.
  pose proof (path_join_correct PATH_MAX dir name out Hne) as Hj. unfold path_size in Hj.
  specialize (Hj ltac:(lia) ltac:(lia)). destruct (xnd_path_join _ _ _ _) as [c o| | | |]; try done.
  destruct Hj as [(-> & -> & _)|(_ & _ & Hbad)]; [|unfold PATH_MAX in Hbad; lia]. by rewrite Hst.
Qed.

Lemma exe_path_of_eq name out (s : pstate K) : strlen name < 100 ->
  xnd_exe_path_of junk out PATH_MAX name s = Ret (0, beside name) s.
Proof using Hself Hdir Hexe.
  intros Hn. unfold xnd_exe_path_of. rewrite (bind_ret _ _ _ _ _ (exe_dir_eq junk s)). cbn [Z.ltb Z.compare].
  by rewrite (bind_ret _ _ _ _ _ (join_eq name out s Hn)).
Qed.

(** The state in which [launch_coordinator] forks, the socket of an earlier
    coordinator having been removed, and what [fork] returns there: 0 to the
    child, the child's pid to the parent, -1 when there is no child. *)
Definition before_fork (k : K) : K :=
  let '(there, k) := lk_coord_there k in if there then (lk_coord_unlink k).2 else k.
Definition fork_result (k : K) : Z := (lk_fork (before_fork k)).1.
(** The only assertion that can fail: that the old socket was removed. *)
Definition socket_stays : Prop := exists k, (lk_coord_unlink k).1 = false.

(** The coordinator's program, in the child; in the parent, [XND_COORD_PID]. *)
Definition coordinator_with (restarting : bool) : launched :=
  let exe := beside (cs "xnd_coordinator") in Became exe (exe :: if restarting then [cs XND_COORD_RESTART_FLAG] else []).
Lemma launch_coordinator_ends restarting (s : pstate K) :
  ends socket_stays (launch_coordinator junk restarting) s (fun r s' => files (g_k s') = files (g_k s) /\
    match r with
    | inl coordinator => fork_result (g_k s) = 0 /\ coordinator = coordinator_with restarting /\ g_env s' = g_env s
    | inr pid => fork_result (g_k s) = pid /\ pid <> 0 /\ (pid <> -1 ->
        environ (g_env s') = <["XND_COORD_PID"%string := snprintf PATH_MAX (show_d pid)]> (environ (g_env s)))
    end).
Proof using Hself Hdir Hexe LF.
  unfold launch_coordinator.
  destruct (lk_coord_there (g_k s)) as [there k1] eqn:E1. eapply ends_step; [by apply k_op_eq|].
  assert (files k1 = files (g_k s)) as Hf1 by (by eapply there_law).
  apply ends_bind. set (s1 := put_k k1 s).
  assert (ends socket_stays (if there then gone ← k_op lk_coord_unlink; xnd_assert gone else mret tt) s1
    (fun _ s' => files (g_k s') = files (g_k s) /\ g_env s' = g_env s /\ g_k s' = before_fork (g_k s))) as Hgone.
  { unfold before_fork. rewrite E1. destruct there; [|done]. destruct (lk_coord_unlink (g_k s1)) as [gone k2] eqn:E2.
    eapply ends_step; [by apply k_op_eq|]. change (g_k s1) with k1 in E2. rewrite E2.
    destruct gone; [|exists k1; by rewrite E2]. unfold ends. cbn.
    split; [|done]. rewrite <- Hf1. by eapply gone_law. }
  unfold ends in Hgone |- *. destruct (_ s1) as [u s2|c s2|s2| |]; try done. destruct Hgone as (Hf2 & He2 & Hk2).
  unfold fork_result. rewrite <- Hk2. cbn [fst].
  destruct (lk_fork (g_k s2)) as [pid k3] eqn:E3. assert (files k3 = files (g_k s)) as Hf3 by (rewrite <- Hf2; by eapply fork_law).
  apply (ends_step _ _ _ _ pid (put_k k3 s2)); [by apply k_op_eq|].
  destruct (Z.eqb_spec pid (-1)) as [->|Hm]; [done|]. destruct (Z.eqb_spec pid 0) as [->|Hz].
  - eapply ends_step; [apply exe_dir_eq|]. cbv beta iota. eapply ends_step; [by apply join_eq|]. cbv beta iota zeta.
    match goal with |- context [lk_execvp ?f ?a] => destruct (lk_execvp f a k3) as [err k4] eqn:E4 end.
    eapply ends_step; [by apply k_op_eq|]. destruct (err =? 0); [|done]. split; [|split_and!; [done|by destruct restarting|done]].
    cbn. rewrite <- Hf3. by eapply exec_law.
  - unfold ends. cbn. split_and!; [done..|]. intros _. by rewrite <- He2.
Qed.

(** *** The program *)

Context (prog : cstr) (rest : list cstr) (src pre : list Z) (e : Macho.exe).
Definition base : cstr := xnd_path_basename_inplace prog.
Definition tmp : cstr := cs "./" ++ base ++ cs "-tmp".
Context (Hprog : is_program prog = true) (Hrun : forall k, lk_executable prog k = true)
  (Hbase : strlen base < 1000) (Hlen : strlen prog < PATH_MAX) (Htmp : prog <> tmp).
Context (Hsrc : arm64e_file src pre e) (Hcpu : e_cputype e = CPU_TYPE_ARM64) (Hcmds : lcs_ok (e_cmds e))
  (Hsize : Z.of_nat (length src) < 2 ^ 63).

Lemma prepare_args_ends (s : pstate K) : files (g_k s) !! prog = Some src ->
  ends socket_stays (prepare_args junk prog rest) s (fun argv s' => argv = tmp :: rest /\
    files (g_k s') !! tmp = Some (exe_bytes (as_arm64 e)) /\
    environ (g_env s') = <[XND_TMP_BINARY_ENV := tmp]> (environ (g_env s))).
Proof using All.
  intros Hf. unfold prepare_args.
  apply (ends_step _ _ _ _ (0, base) s).
  { unfold on_path, xnd_path_basename. fold base. rewrite (proj2 (Z.leb_gt _ _)) by (unfold PATH_MAX; lia).
    by rewrite strlcpy_fit by lia. }
  cbn [negb Z.eqb]. fold tmp.
  assert (strlen tmp < PATH_MAX) as Hlt.
  { unfold tmp. rewrite !strlen_app. change (strlen (cs "./")) with 2. change (strlen (cs "-tmp")) with 4. unfold PATH_MAX. lia. }
  cbv zeta. rewrite (proj2 (Z.leb_gt _ _)) by done.
  apply (ends_step _ _ _ _ true s); [unfold ask, gets; by rewrite Hrun|].
  rewrite (proj2 (Z.leb_gt _ (strlen prog))) by done. eapply ends_step; [done|].
  pose proof (copy_written (files := files) (fds := fds) prog tmp src pre e (g_k s) Hsrc Hcpu Hcmds Hsize Hf Htmp) as Hc.
  apply returns_inv in Hc as (r & k' & E & _ & _ & Hr & Hz & _).
  eapply ends_step; [by apply on_k_ret|].
  destruct Hr as [-> | ->]; [|apply ends_exit]. destruct (Hz eq_refl) as [Hout _].
  eapply ends_step; [done|]. unfold ends. cbn. split; [done|]. by split.
Qed.

(** What the parent finds, that has become the program: [pid] is the
    coordinator's. *)
Definition computation_started (opts : list opt) (pid : Z) (s s' : pstate K) (file : cstr) (argv : list cstr) : Prop :=
  pid <> -1 /\ file = tmp /\ argv = tmp :: rest /\
  environ (g_env s') =
    <[DYLD_SHARED_REGION := cs "private"]> (<["DYLD_INSERT_LIBRARIES"%string := beside (cs "libxnd.dylib")]>
    (<[XND_PROGRAM_ENV := tmp]> (<["XND_COORD_PID"%string := snprintf PATH_MAX (show_d pid)]>
    (<[XND_TMP_BINARY_ENV := tmp]> (with_options opts (environ (g_env s))))))).
(** What the child finds, that has become the coordinator. *)
Definition coordinator_started (opts : list opt) (s s' : pstate K) (file : cstr) (argv : list cstr) : Prop :=
  Became file argv = coordinator_with false /\
  environ (g_env s') = <[XND_TMP_BINARY_ENV := tmp]> (with_options opts (environ (g_env s))).
(** Both, by what [fork] returned in [k], where the copy has been made. *)
Definition started_by (opts : list opt) (s s' : pstate K) (file : cstr) (argv : list cstr) : Prop :=
  exists k, files k !! tmp = Some (exe_bytes (as_arm64 e)) /\ files (g_k s') = files k /\
    if fork_result k =? 0 then coordinator_started opts s s' file argv
    else computation_started opts (fork_result k) s s' file argv.

Lemma launch_ends (s : pstate K) : files (g_k s) !! prog = Some src ->
  ends socket_stays (launch junk prog rest) s (fun '(Became file argv) s' => started_by [] s s' file argv).
Proof using All.
  intros Hf. unfold launch. apply ends_bind.
  pose proof (prepare_args_ends s Hf) as Hp. unfold ends in Hp |- * at 1.
  destruct (prepare_args junk prog rest s) as [argv s1|c s1|s1| |]; try done. destruct Hp as (-> & Hf1 & He1).
  apply ends_bind. pose proof (launch_coordinator_ends false s1) as Hc. unfold ends in Hc |- * at 1.
  destruct (launch_coordinator junk false s1) as [[[file argv]|pid] s2|c s2|s2| |]; try done.
  { destruct Hc as (Hf2 & Hr0 & Hb & He2). exists (g_k s1). rewrite Hr0. cbn [Z.eqb].
    split_and!; [done..|]. split; [done|]. by rewrite He2, He1. }
  destruct Hc as (Hf2 & Hpid & Hz & He2).
  destruct (Z.eqb_spec pid (-1)) as [->|Hm]; [apply ends_exit|]. specialize (He2 Hm).
  eapply ends_step; [by apply exe_path_of_eq|]. cbn [Z.ltb Z.compare].
  eapply ends_step; [done|]. eapply ends_step; [done|]. eapply ends_step; [done|].
  match goal with |- ends _ _ ?st _ => set (s3 := st) end.
  assert (g_k s3 = g_k s2) as Hk3 by done.
  assert (environ (g_env s3) = <[DYLD_SHARED_REGION := cs "private"]> (<["DYLD_INSERT_LIBRARIES"%string := beside (cs "libxnd.dylib")]>
    (<[XND_PROGRAM_ENV := tmp]> (environ (g_env s2))))) as He3 by done. clearbody s3.
  destruct (lk_execvp tmp (tmp :: rest) (g_k s3)) as [err k4] eqn:Ex.
  eapply ends_step; [by apply k_op_eq|]. destruct (err =? 0); [|apply ends_exit]. cbn [negb].
  exists (g_k s1). rewrite Hpid, (proj2 (Z.eqb_neq _ _) Hz). split; [done|]. split.
  - change (files k4 = files (g_k s1)). by rewrite (exec_law _ _ _ _ _ Ex), Hk3, Hf2.
  - split_and!; [done..|]. change (environ (g_env (put_k k4 s3))) with (environ (g_env s3)). by rewrite He3, He2, He1.
Qed.

(** C21. [xnd_launch opts... prog args...] of an arm64e executable that can be
    executed: it exits with XND_EXIT_FAILURE, aborts because the socket of an
    earlier coordinator cannot be removed, or writes the arm64 copy [./base-tmp]
    and forks.  Where [fork] returned 0 the process becomes the coordinator,
    without arguments; where it returned a pid, the copy, with the
    same arguments and exactly these variables set for the injected library: one per
    option given (the last of a kind winning, the checkpoint signal a usable one),
    the copy's name, twice, that pid in decimal as XND_COORD_PID, the library
    beside the launcher, and a private shared region. *)
Theorem launch_starts_copy opts (s : pstate K) : files (g_k s) !! prog = Some src ->
  ends socket_stays (launch_main junk (concat (render <$> opts) ++ prog :: rest)) s (fun '(Became file argv) s' =>
    started_by opts s s' file argv).
Proof.
  intros Hf. unfold launch_main. rewrite bool_decide_eq_false_2 by (intros E; by apply app_eq_nil in E as [_ ?]).
  eapply ends_step; [by apply options_eq|]. by apply (launch_ends (with_environ (with_options opts (environ (g_env s))) s)).
Qed.
End launch.

(** An argument that only starts like [--no-zlib] is taken for it; a command
    line of options alone, or one that ends before an operand, reads the NULL
    that ends the arguments. *)
Lemma zlib_prefix_accepted {K : Type} (s : pstate K) prog rest : is_program prog = true ->
  launch_options (cs "--no-zlimit" :: prog :: rest) s
    = Ret (prog :: rest) (with_environ (<[XND_USE_ZLIB_ENV := cs "0"]> (environ (g_env s))) s).
Proof. intros Hp. by apply (options_eq [ONoZlib]). Qed.
Lemma options_alone {K : Type} (s : pstate K) : launch_options [cs "--use-zlib"] s = Ub /\ launch_options [cs "-i"] s = Ub.
Proof. done. Qed.

(** ** A kernel *)

#[global] Instance disk_fd : FdSys disk := {
  fd_getfl _ d := (0, d);
  fd_dup2 _ new d := (new, d);
  fd_close fd d := Disk (d_files d) (delete fd (d_fds d));
}.
#[global] Instance disk_client : ClientOS disk := {
  k_socket d := (-1, d);
  k_connect _ d := (2, d);
  k_cloexec _ d := (0, d);
  k_shutdown _ d := (0, d);
  k_sleep _ d := d;
}.
#[global] Instance disk_pid : PidOS disk := {
  _real_getpid _ := 100;
  _real_getppid _ := 1;
  _real_getpgrp _ := 100;
  _real_getpgid _ _ := 100;
}.
#[global] Instance disk_launch : LaunchSys disk := {
  lk_exe_path _ _ := Some (cs "/opt/xnd/xnd_launch");
  lk_executable _ _ := true;
  lk_exists _ _ := true;
  lk_coord_there d := (true, d);
  lk_coord_unlink d := (true, d);
  lk_fork d := (4711, d);
  lk_execvp _ _ d := (0, d);
  lk_kill0 _ d := (0, d);
  lk_getfl _ d := (0, d);
  lk_setfl _ _ d := (0, d);
  lk_peek _ d := (1, d);
  lk_so_error _ d := ((0, 0), d);
}.
#[global] Instance disk_launch_fs : LaunchFs disk d_files.
Proof. constructor; by intros; simplify_eq/=. Qed.

Definition disk_process : pstate disk :=
  PState (Pids 0 0 0 0) (Ids 0 0 0 [] 0 0 false) (Client (-1) (-1) (-1) false) (VTable ∅ false) None
    (Lib XND_UNINITIALIZED false) 0 (EnvState ∅ (-1)) small_disk.

Lemma launch_starts_copy_witness :
  ends socket_stays (launch_main [] (concat (render <$> [OInterval true (cs "60"); OSignal (cs "9")]) ++ cs "/bin/a" :: [cs "-x"]))
    disk_process (fun '(Became file argv) s' =>
    started_by d_files (cs "/opt/xnd") (cs "/bin/a") [cs "-x"] small_exe
      [OInterval true (cs "60"); OSignal (cs "9")] disk_process s' file argv).
Proof.
  apply (launch_starts_copy d_files d_fds [] (cs "/opt/xnd") (cs "xnd_launch"))
    with (src := small_fat) (pre := fat_bytes small_archs ++ replicate 4 0); try reflexivity.
  - split; [discriminate|]. split; reflexivity.
  - intros Hin. apply list_elem_of_In in Hin. vm_compute in Hin. intuition discriminate.
  - discriminate.
  - apply (fat_file small_archs (replicate 4 0) 1 (Arch CPU_TYPE_ARM64 2 52 67 14) small_exe); try reflexivity.
    repeat (constructor; [split_and!; (split; [by vm_compute|reflexivity])|]). constructor.
  - split; [repeat (constructor; [split; vm_compute; congruence|]); constructor|reflexivity].
Defined.

(** It runs. *)
Example launched_copy : exists s', launch_main [] (render (OSignal (cs "9")) ++ [cs "/bin/a"; cs "-x"]) disk_process
    = Ret (Became (cs "./a-tmp") [cs "./a-tmp"; cs "-x"]) s' /\
  environ (g_env s') !! XND_CKPT_SIGNAL_ENV = Some (cs "31") /\ environ (g_env s') !! "XND_COORD_PID"%string = Some (cs "4711").
Proof. eexists. split_and!; vm_compute; reflexivity. Qed.
