(* ===== verification/RestartMain.v ===== *)
(** The restart program from its arguments to its exit: the constructors of
    [xnd/xnd_restart.h] and [main] of [xnd/xnd_restart.cpp], around the
    processes of [Restart].

    The state is the process's, as in [Launch]; the table of processes that
    [Restart] works on is a part of the kernel.  [fork]'s child is the branch
    of the result 0. *)

From S2P Require Import Prelude Cstr Path Env Bytes Io CoordMsg Process PidTable CoordProps CoordClient CkptFile Compress.
From S2P Require Import Restart Mapping Macho Launch.
Open Scope Z_scope.

Definition XND_EXIT_FAILURE : Z := 222.
Definition XND_RESTART_BINARY : string := "xnd_restart_internal".
Definition XND_MANIFEST_MAXLEN : Z := 96.
Definition EINTR : Z := 4.
Definition SIGINT : Z := 2.
Definition SIGQUIT : Z := 3.
Definition SIGTERM : Z := 15.
Definition POSIX_SPAWN_SETEXEC : Z := 64.
Definition POSIX_SPAWN_DISABLE_ASLR : Z := 256.

(** What [waitpid] does: fail with an errno, or give a status. *)
Inductive wait_result := WFailed (errno : Z) | WStatus (stat : Z).

Class RestartSys (K : Type) := {
  (** [sigaction] of the handler below for a signal: success *)
  rs_sigaction : Z -> K -> bool * K;
  (** [killpg(getpgrp(), sig)]: 0 or an errno; [kill(getpid(), sig)] *)
  rs_killpg : Z -> K -> Z * K;
  rs_kill_self : Z -> K -> K;
  rs_waitpid : Z -> K -> wait_result * K;
  (** The processes, and the id of a new one *)
  rs_procs : K -> kern;
  rs_set_procs : kern -> K -> K;
  rs_new_pid : gmap Z kproc -> option Z;
  (** [posix_spawnattr_setflags], and [posix_spawn] of arguments with an
      environment: success *)
  rs_setflags : Z -> bool;
  rs_spawns : list cstr -> gmap string cstr -> bool;
}.

Section restart.
Context {K : Type} `{IoSys K, FdSys K, ClientOS K, PidOS K, MachoSys K, LaunchSys K, FsSys K, CreatSys K, Zlib, RestartSys K}.
(** What an uninitialised character array holds *)
Context (junk : cstr).

(** A computation of processes. *)
Definition on_procs {A} (m : M kern A) : M K A := fun k =>
  match m (rs_procs k) with
  | Ret a p => Ret a (rs_set_procs p k)
  | Exit c p => Exit c (rs_set_procs p k)
  | Abort p => Abort (rs_set_procs p k)
  | Ub => Ub
  | NoFuel => NoFuel
  end.

(** ** [xnd_restart_info] *)

Record xnd_restart_info := Info { manifest : Z * list Z; ckptdir : cstr; restart : cstr }.

(** [strncpy] leaves a longer name without a NUL in [ckptdir], which
    [xnd_path_join] then reads past. *)
Definition new_info (dir : option cstr) : M (pstate K) xnd_restart_info :=
  match dir with
  | None => ub
  | Some dir =>
    '(err, restart) ← xnd_exe_path_of junk junk PATH_MAX (cs XND_RESTART_BINARY);
    if negb (err =? 0) then exit_with XND_EXIT_FAILURE else
    if XND_CKPTDIR_MAXLEN <=? strlen dir then ub else
    '(err, path) ← on_path (xnd_path_join XND_MANIFEST_MAXLEN (Some dir) (Some XND_MANIFEST_NAME)) junk;
    if negb (err =? 0) then exit_with XND_EXIT_FAILURE else
    m ← on_k (xnd_ckptfile_extract_manifest path);
    match m with
    | None => exit_with XND_EXIT_FAILURE
    | Some m => mret (Info m dir restart)
    end
  end.

(** ** [xnd_restart_target] *)

Record loaded := Loaded { l_target : xnd_restart_target; ckptpath : cstr }.
Definition ckptpath_of (dir : cstr) (id : Z) : cstr := dir ++ cs "/ckpt-" ++ show_u id ++ cs ".xnd".

(** The image, decompressed if it is not there. *)
Definition image_there (fuel ifuel : nat) (dirfd : Z) (ckptfile : cstr) : M K unit :=
  there ← fcall (fs_faccessat dirfd ckptfile);
  if (there : bool) then mret tt else
  err ← xnd_decompress_ckpt fuel ifuel dirfd ckptfile;
  if negb (err =? 0) then exit_with XND_EXIT_FAILURE else
  there ← fcall (fs_faccessat dirfd ckptfile);
  xnd_assert there.
(** [sprintf] does not know the size of [ckptpath], and [open]'s result is not
    looked at. *)
Definition new_target (fuel ifuel : nat) (dir : cstr) (id : Z) : M K loaded :=
  let ckptpath := ckptpath_of dir id in
  if XND_CKPTPATH_MAXLEN <=? strlen ckptpath then ub else
  let ckptfile := ckptfile_buf id in
  dirfd ← fcall (fs_open_dir dir);
  image_there fuel ifuel dirfd ckptfile;;
  fd ← fcall (fs_openat_rd dirfd ckptfile);
  if fd <? 0 then exit_with XND_EXIT_FAILURE else
  data ← readall fd sizeof_header;
  if negb (Z.of_nat (length data) =? sizeof_header) then exit_with XND_EXIT_FAILURE else
  let header := header_of_bytes data in
  xnd_assert (id =? h_xnd_pid header);;
  fclose fd;;
  fclose dirfd;;
  mret (Loaded (Target header) ckptpath).

(** ** [process_targets] *)

(** The first loop, [n] entries from [idx]. *)
Fixpoint load_targets (fuel ifuel n : nat) (info : xnd_restart_info) (idx : nat) : M K (list loaded) :=
  match n with
  | O => mret []
  | S n =>
    xnd_pid ← deref (snd (manifest info) !! idx);
    t ← new_target fuel ifuel (ckptdir info) xnd_pid;
    ts ← load_targets fuel ifuel n info (S idx);
    mret (t :: ts)
  end.

(** [exec_restart]: its arguments, and whether the process becomes the program;
    no index is asked for that is not one of a target. *)
Definition exec_argv (info : xnd_restart_info) (restart_pause : bool) (t : loaded) : list cstr :=
  [restart info; ckptpath t] ++ (if restart_pause then [cs "--pause"] else []).
Definition exec_succeeds (info : xnd_restart_info) (restart_pause : bool) (environ : gmap string cstr) (ts : list loaded) (i : nat) : bool :=
  rs_setflags (Z.lor POSIX_SPAWN_SETEXEC POSIX_SPAWN_DISABLE_ASLR) &&
  match ts !! i with Some t => rs_spawns (exec_argv info restart_pause t) environ | None => true end.

(** It does not return in the process it is called in, whose end [Ret] is: it
    has become the image of a target.  [depth] is the fuel of [create_process]. *)
Definition process_targets (fuel ifuel depth : nat) (info : xnd_restart_info) (restart_pause : bool) : M (pstate K) unit :=
  ts ← on_k (load_targets fuel ifuel (Z.to_nat (fst (manifest info))) info 0);
  e ← gets (fun s => environ (g_env s));
  on_k (on_procs (Restart.process_targets (l_target <$> ts) rs_new_pid (exec_succeeds info restart_pause e ts) depth)).

(** ** [main] *)

Definition restore_parent_handler (sig : Z) : M (pstate K) unit :=
  k_op (rs_killpg sig);;
  on_k (fun k => Ret tt (rs_kill_self sig k)).

(** The child of [launch_coordinator] becomes the coordinator; otherwise 0 or
    -1. *)
Definition restore_parent_setup : M (pstate K) (launched + Z) :=
  ok ← k_op (rs_sigaction SIGINT);
  if negb ok then mret (inr (-1)) else
  ok ← k_op (rs_sigaction SIGTERM);
  if negb ok then mret (inr (-1)) else
  ok ← k_op (rs_sigaction SIGQUIT);
  if negb ok then mret (inr (-1)) else
  coord ← launch_coordinator junk true;
  match coord with
  | inl coordinator => mret (inl coordinator)
  | inr pid =>
    if pid =? -1 then mret (inr (-1)) else
    on_env env_set_dyld_shared_region_private;;
    mret (inr 0)
  end.

(** The loop over the arguments: [restart_pause] and [ckptdir]. *)
Fixpoint restart_options (args : list cstr) (opts : bool * option cstr) : M (pstate K) (bool * option cstr) :=
  match args with
  | [] => mret opts
  | p :: args =>
    if bool_decide (p = cs "--pause") then restart_options args (true, snd opts) else
    there ← k_op (fs_access p);
    if (there : bool) then restart_options args (fst opts, Some p) else exit_with XND_EXIT_FAILURE
  end.

Definition WSTATUS (stat : Z) : Z := Z.land stat 127.
Definition WIFEXITED (stat : Z) : bool := WSTATUS stat =? 0.
Definition WEXITSTATUS (stat : Z) : Z := Z.land (Z.shiftr stat 8) 255.
Definition WIFSIGNALED (stat : Z) : bool := negb (WSTATUS stat =? 127) && negb (WSTATUS stat =? 0).
(** The do-while: no iteration goes on to another.  After EINTR the
    uninitialised [stat] is looked at. *)
Definition wait_child (child : Z) : M (pstate K) Z :=
  r ← k_op (rs_waitpid child);
  match r with
  | WFailed e => if negb (e =? EINTR) then exit_with XND_EXIT_FAILURE else ub
  | WStatus stat =>
    if WIFEXITED stat then mret (WEXITSTATUS stat)
    else xnd_assert (WIFSIGNALED stat);; mret (128 + WSTATUS stat)
  end.

(** What [restore_parent_setup] returns is not looked at. *)
Definition restart_main (fuel ifuel depth : nat) (args : list cstr) : M (pstate K) (launched + unit) :=
  '(restart_pause, ckptdir) ← restart_options args (false, None);
  setup ← restore_parent_setup;
  match setup with
  | inl coordinator => mret (inl coordinator)
  | inr _ =>
    info ← new_info ckptdir;
    child ← k_op lk_fork;
    if child =? -1 then exit_with XND_EXIT_FAILURE
    else if child =? 0 then process_targets fuel ifuel depth info restart_pause;; mret (inr tt)
    else code ← wait_child child; exit_with code
  end.
End restart.
