(* ===== verification/RestartMainProps.v ===== *)
(** Restarting from a directory: theorems of [RestartMain], and their
    composition with those of [CkptStore], [CompressProps] and [Rebuild].

    A directory of two images is the witness. *)

From S2P Require Import Prelude Cstr Path Env Bytes Io CoordMsg Process PidTable CoordProps CoordClient CkptFile CkptStore CkptProps Compress CompressProps.
From S2P Require Import Restart RestartTree RestartRun Rebuild Mapping Macho Launch LaunchProps RestartMain.
From Stdlib Require Import Ascii.
Open Scope Z_scope.

(** ** Programs that may exit *)

(** [m] returns with [Q], exits with a code in [E] or fails an assertion, which
    happens only if [F]. *)
Definition outcomes {S A} (E : Z -> Prop) (F : Prop) (m : M S A) (s : S) (Q : A -> S -> Prop) : Prop :=
  match m s with
  | Ret a s' => Q a s'
  | Exit c _ => E c
  | Abort _ => F
  | Ub | NoFuel => False
  end.
Section outcomes.
Context {S : Type} (E : Z -> Prop) (F : Prop).
Implicit Types s : S.

Lemma outcomes_step {A B} (m : M S A) (k : A -> M S B) s a s' Q : m s = Ret a s' -> outcomes E F (k a) s' Q -> outcomes E F (m ≫= k) s Q.
Proof. intros H1 H2. unfold outcomes. by rewrite (bind_ret _ _ _ _ _ H1). Qed.
Lemma outcomes_bind {A B} (m : M S A) (k : A -> M S B) s Q :
  outcomes E F m s (fun a s' => outcomes E F (k a) s' Q) -> outcomes E F (m ≫= k) s Q.
Proof. unfold outcomes, mbind, M_bind. destruct (m s); naive_solver. Qed.
Lemma outcomes_ret {A} (a : A) s (Q : A -> S -> Prop) : Q a s -> outcomes E F (mret a) s Q.
Proof. done. Qed.
Lemma outcomes_exit {A} c s (Q : A -> S -> Prop) : E c -> outcomes E F (exit_with c) s Q.
Proof. done. Qed.
Lemma outcomes_returns {A} (m : M S A) s Q : returns m s Q -> outcomes E F m s Q.
Proof. unfold outcomes, returns. by destruct (m s). Qed.
Lemma outcomes_weaken {A} (E' : Z -> Prop) (F' : Prop) (m : M S A) s Q Q' : outcomes E' F' m s Q' ->
  (forall c, E' c -> E c) -> (F' -> F) -> (forall a s', Q' a s' -> Q a s') -> outcomes E F m s Q.
Proof. unfold outcomes. destruct (m s); naive_solver. Qed.
End outcomes.
Definition fails (c : Z) : Prop := c = XND_EXIT_FAILURE.

Lemma outcomes_on_k {K A} E F (m : M K A) (s : pstate K) Q :
  outcomes E F m (g_k s) (fun a k => Q a (put_k k s)) -> outcomes E F (on_k m) s Q.
Proof. unfold outcomes, on_k. by destruct (m (g_k s)). Qed.

(** ** What file operations leave alone *)

Class FilesOnly {K P : Type} `{IoSys K, FdSys K, FsSys K, CreatSys K} (f : K -> P) := {
  fo_read fd n k r k' : sys_read fd n k = (r, k') -> f k' = f k;
  fo_write fd b k r k' : sys_write fd b k = (r, k') -> f k' = f k;
  fo_close fd k : f (fd_close fd k) = f k;
  fo_open_dir p k r k' : fs_open_dir p k = (r, k') -> f k' = f k;
  fo_openat_rd d p k r k' : fs_openat_rd d p k = (r, k') -> f k' = f k;
  fo_openat_creat d p k r k' : fs_openat_creat d p k = (r, k') -> f k' = f k;
  fo_faccessat d p k r k' : fs_faccessat d p k = (r, k') -> f k' = f k;
}.

Section untouched.
Context {K P : Type} `{FilesOnly K P f, Zlib}.

Definition untouched {A} (m : M K A) : Prop := forall k, sat true m k (fun _ k' => f k' = f k).
Lemma untouched_bind {A B} (m : M K A) (g : A -> M K B) : untouched m -> (forall a, untouched (g a)) -> untouched (m ≫= g).
Proof using. intros Hm Hg k. apply sat_bind. eapply sat_weaken; [apply Hm|]. intros a k1 <-. apply Hg. Qed.
Lemma untouched_ret {A} (a : A) : untouched (mret a).
Proof using. done. Qed.
Lemma untouched_call {A} (g : K -> A * K) : (forall k r k', g k = (r, k') -> f k' = f k) -> untouched (fcall g).
Proof using. intros Hg k. unfold sat, fcall. destruct (g k) as [r k'] eqn:E. by eapply Hg. Qed.
Lemma untouched_close fd : untouched (fclose fd).
Proof using Type*. intros k. apply fo_close. Qed.
Lemma untouched_assert b : untouched (xnd_assert b).
Proof using. by destruct b. Qed.
Lemma untouched_exit {A} c : untouched (A := A) (exit_with c).
Proof using. done. Qed.
Lemma untouched_deref {A} (o : option A) : untouched (deref o).
Proof using. by destruct o. Qed.

Lemma untouched_readall fd n : untouched (readall fd n).
Proof using Type*.
  unfold readall. generalize (S (Z.to_nat n)) (@nil Z). intros fuel. induction fuel as [|fuel IH]; intros buf k; [done|].
  unfold sat. cbn [readall_loop]. unfold read_call. destruct (read_waits _ _ k); [done|].
  destruct (sys_read _ _ k) as [[[|d l]|] k1] eqn:E; pose proof (fo_read _ _ _ _ _ E) as E1; [done| |done].
  destruct (_ <? n); [|done]. pose proof (IH (buf ++ d :: l) k1) as Hi. unfold sat in Hi. rewrite E1 in Hi. exact Hi.
Qed.
Lemma untouched_writeall fd buf : untouched (writeall fd buf).
Proof using Type*.
  unfold writeall. generalize (S (length buf)) 0. intros fuel. induction fuel as [|fuel IH]; intros bytes k; [done|].
  unfold sat. cbn [writeall_loop]. destruct (sys_write _ _ k) as [r k1] eqn:E. pose proof (fo_write _ _ _ _ _ E) as E1.
  destruct (r =? -1); [done|]. destruct (_ <? _); [|done].
  pose proof (IH (bytes + r) k1) as Hi. unfold sat in Hi. rewrite E1 in Hi. exact Hi.
Qed.
End untouched.

Ltac untouched_tac known :=
  repeat first
    [ known | apply untouched_ret | apply untouched_close | apply untouched_assert | apply untouched_exit | apply untouched_deref
    | apply untouched_readall | apply untouched_writeall
    | (apply untouched_call; intros; first
        [by eapply fo_read | by eapply fo_open_dir | by eapply fo_openat_rd | by eapply fo_openat_creat | by eapply fo_faccessat])
    | (apply untouched_bind; [|intros ?]) | case_match | done ].

Section untouched_files.
Context {K P : Type} `{FilesOnly K P f, Zlib}.

Lemma untouched_inflate fuel dst : forall z avail, untouched (f := f) (inflate_all fuel dst z avail).
Proof using Type*. induction fuel as [|fuel IH]; intros z avail; [done|]. cbn [inflate_all]. untouched_tac ltac:(apply IH). Qed.
Lemma untouched_decompress fuel ifuel dirfd name : untouched (f := f) (xnd_decompress_ckpt fuel ifuel dirfd name).
Proof using Type*.
  assert (forall dst src z, untouched (f := f) (decompress_loop fuel ifuel dst src z)) as Hl.
  { induction fuel as [|fu IH]; intros dst src z; [done|]. cbn [decompress_loop]. untouched_tac ltac:(first [apply untouched_inflate|apply IH]). }
  unfold xnd_decompress_ckpt, do_decompress, compress_bad, close_unless. untouched_tac ltac:(apply Hl).
Qed.
Lemma untouched_load fuel ifuel n info : forall idx, untouched (f := f) (load_targets fuel ifuel n info idx).
Proof using Type*.
  induction n as [|n IH]; intros idx; [done|]. cbn [load_targets]. unfold new_target, image_there.
  untouched_tac ltac:(first [apply untouched_decompress|apply IH]).
Qed.
End untouched_files.

(** ** Names *)

Lemma last_snoc_eq {A} (l1 l2 : list A) x y : l1 ++ [x] = l2 ++ [y] -> x = y.
Proof. intros E. by apply app_inj_tail in E as [_ ?]. Qed.
Lemma ckptfile_buf_eq id : in_u 32 id -> ckptfile_buf id = ckptfile_fmt id /\ strlen (ckptfile_fmt id) <= 19.
Proof.
  intros Hid. assert (strlen (show_u id) <= 10) as Hl by (apply (show_u_length_le id 10); unfold in_u in Hid; lia).
  assert (strlen (ckptfile_fmt id) <= 19) as Hf.
  { unfold ckptfile_fmt. rewrite !strlen_app. change (strlen (cs "ckpt-")) with 5. change (strlen (cs ".xnd")) with 4. lia. }
  split; [|done]. unfold ckptfile_buf, snprintf. apply take_ge. unfold strlen in Hf. unfold XND_CKPTFILE_MAXLEN. lia.
Qed.
Lemma gz_name_eq id : in_u 32 id -> gz_name (ckptfile_buf id) = ckptfile_fmt id ++ cs ".gz".
Proof.
  intros Hid. destruct (ckptfile_buf_eq id Hid) as [-> Hl]. unfold gz_name, snprintf, XND_COMPRESSED_SUFFIX. apply take_ge.
  rewrite length_app. unfold strlen in Hl. unfold XND_CKPTFILE_MAXLEN. change (length (cs ".gz")) with 3%nat. lia.
Qed.
Lemma ckptfile_fmt_inj i j : in_u 32 i -> in_u 32 j -> ckptfile_fmt i = ckptfile_fmt j -> i = j.
Proof.
  unfold in_u, ckptfile_fmt. intros Hi Hj E. apply app_inv_head, app_inv_tail in E. by apply show_u_inj in E; [|lia..].
Qed.
(** A file and a compressed one never have one name. *)
Lemma gz_not_plain i j : in_u 32 i -> in_u 32 j -> gz_name (ckptfile_buf i) <> ckptfile_buf j.
Proof.
  intros Hi Hj. rewrite gz_name_eq by done. destruct (ckptfile_buf_eq j Hj) as [-> _]. unfold ckptfile_fmt.
  change (cs ".gz") with (cs ".g" ++ ["z"%char]). change (cs ".xnd") with (cs ".xn" ++ ["d"%char]).
  rewrite !app_assoc. intros E%last_snoc_eq. done.
Qed.
Lemma names_differ i j : in_u 32 i -> in_u 32 j -> i <> j ->
  ckptfile_buf i <> ckptfile_buf j /\ gz_name (ckptfile_buf i) <> gz_name (ckptfile_buf j).
Proof.
  intros Hi Hj Hn. rewrite !gz_name_eq by done. destruct (ckptfile_buf_eq i Hi) as [-> _], (ckptfile_buf_eq j Hj) as [-> _].
  split; intros E; apply Hn; apply ckptfile_fmt_inj; try done. by apply app_inv_tail in E.
Qed.

(** ** Images *)

(** The directory [dir], which is [dirfd] when it is opened; [faccessat] finds
    the files that are there, and nothing is found through the descriptor -1. *)
Class CkptFs (K : Type) `{IoSys K, FdSys K, FsSys K, CreatSys K} (dir : cstr) (dirfd : Z) (files : K -> gmap cstr (list Z)) := {
  cf_open_dir k r k' : fs_open_dir dir k = (r, k') -> files k' = files k /\ (r = dirfd \/ r = -1);
  cf_faccessat name k r k' : fs_faccessat dirfd name k = (r, k') -> files k' = files k /\ r = bool_decide (is_Some (files k !! name));
  cf_bad_access name k r k' : fs_faccessat (-1) name k = (r, k') -> files k' = files k /\ r = false;
  cf_bad_open name k r k' : fs_openat_rd (-1) name k = (r, k') -> r = -1;
}.

Section images.
Context {K : Type} `{DirFs K dirfd files fds} `{ZlibSpec} (dir : cstr) `{!CkptFs K dir dirfd files}.
Context (fuel ifuel : nat).

Lemma readall_file_loop fd name l k0 : forall fl n buf k off, fds k !! fd = Some (name, off) -> files k = files k0 -> files k0 !! name = Some l ->
  Z.of_nat (length buf) < n -> (Z.to_nat n < fl + length buf)%nat ->
  returns (readall_loop fl fd n buf) k (fun d k' => files k' = files k0 /\ Z.of_nat (length d) <= n /\ exists m, d = buf ++ m /\ m `prefix_of` drop off l).
Proof using All.
  induction fl as [|fl IH]; intros n buf k off Hfd Hf Hl Hb Hfu; [lia|].
  unfold returns. cbn [readall_loop]. rewrite read_call_eq by (by eapply dir_answers).
  destruct (sys_read fd (n - Z.of_nat (length buf)) k) as [r k1] eqn:E.
  destruct (dir_read fd _ k r k1 name off l E ltac:(lia) Hfd ltac:(by rewrite Hf)) as [Hf1 Hr].
  rewrite Hf in Hf1. assert (exists m : list Z, buf = buf ++ m /\ m `prefix_of` drop off l) as Hnone by (exists []; rewrite app_nil_r; split; [done|apply prefix_nil]).
  destruct r as [[|x d]|]; [split; [done|split; [lia|exact Hnone] ]| |split; [done|split; [lia|exact Hnone] ] ].
  destruct Hr as (Hd & Hdn & _ & Hfd1). set (dd := x :: d) in *.
  assert (dd `prefix_of` drop off l) as Hpre by (rewrite Hd; apply prefix_take).
  destruct (Z.ltb_spec (Z.of_nat (length (buf ++ dd))) n) as [Hlt|Hge].
  - assert (fds k1 !! fd = Some (name, (off + length dd)%nat)) as Hfd2 by (by rewrite Hfd1, lookup_insert_eq).
    assert (Z.to_nat n < fl + length (buf ++ dd))%nat as Hfu2 by (rewrite length_app; cbn [length dd]; unfold dd; cbn [length]; lia).
    pose proof (IH n (buf ++ dd) k1 _ Hfd2 Hf1 Hl Hlt Hfu2) as Hi. apply returns_inv in Hi as (out & k' & -> & Hf' & Hle & m & -> & Hm).
    split; [done|]. split; [done|]. exists (dd ++ m). split; [by rewrite app_assoc|].
    destruct Hpre as [t Ht]. rewrite <- drop_drop, Ht, drop_app_length in Hm. rewrite Ht. by apply prefix_app.
  - split; [done|]. split; [rewrite length_app in Hge |- *; lia|]. by exists dd.
Qed.
(** Reading a file from its beginning. *)
Lemma readall_file fd name l n k : fds k !! fd = Some (name, 0%nat) -> files k !! name = Some l -> 0 < n ->
  returns (readall fd n) k (fun d k' => files k' = files k /\ (Z.of_nat (length d) = n -> d = take (Z.to_nat n) l)).
Proof using All.
  intros Hfd Hl Hn. eapply returns_weaken.
  - apply (readall_file_loop fd name l k (S (Z.to_nat n)) n [] k 0%nat Hfd eq_refl Hl); cbn [length]; lia.
  - intros d k' (Hf & _ & m & -> & Hm). split; [done|]. rewrite drop_0 in Hm. destruct Hm as [t ->]. cbn [app]. intros <-.
    by rewrite Nat2Z.id, take_app_length.
Qed.

(** The image of a process with header [h] is there, as it is or compressed. *)
Definition stored (k : K) (h : xnd_ckpt_header) : Prop :=
  let name := ckptfile_buf (h_xnd_pid h) in
  header_fields h /\ exists rest,
    files k !! name = Some (header_bytes h ++ rest) \/
    (files k !! name = None /\ exists code tl, codes (header_bytes h ++ rest) code /\ files k !! gz_name name = Some (code ++ tl) /\
      (length (code ++ tl) < fuel)%nat /\ (length (header_bytes h ++ rest) < ifuel)%nat).
Lemma stored_pid k h : stored k h -> in_u 32 (h_xnd_pid h).
Proof using. intros [Hh _]. pose proof (hf_u32 _ Hh) as Hu. by apply Forall_cons in Hu as [? _]. Qed.
Definition others_kept (id : Z) (k k' : K) : Prop :=
  forall n, n <> ckptfile_buf id -> n <> gz_name (ckptfile_buf id) -> files k' !! n = files k !! n.
Lemma stored_kept id h k k' : others_kept id k k' -> in_u 32 id -> id <> h_xnd_pid h -> stored k h -> stored k' h.
Proof using.
  intros Ho Hid Hn Hs. pose proof (stored_pid k h Hs) as Hh. destruct Hs as [Hf (rest & Hr)].
  destruct (names_differ (h_xnd_pid h) id Hh Hid (not_eq_sym Hn)) as [N1 N2].
  pose proof (gz_not_plain (h_xnd_pid h) id Hh Hid) as N3. pose proof (gz_not_plain id (h_xnd_pid h) Hid Hh) as N4.
  split; [done|]. exists rest. rewrite !Ho by congruence. exact Hr.
Qed.

Lemma image_there_ok fd h k : stored k h -> fd = dirfd \/ fd = -1 ->
  let name := ckptfile_buf (h_xnd_pid h) in
  outcomes fails False (image_there fuel ifuel fd name) k (fun _ k' => others_kept (h_xnd_pid h) k k' /\ fd = dirfd /\
    exists rest, files k' !! name = Some (header_bytes h ++ rest)).
Proof using All.
  intros Hs Hfd name. unfold image_there. destruct (fs_faccessat fd name k) as [there k1] eqn:Ea.
  eapply (outcomes_step _ _ _ _ _ there k1); [unfold fcall; by rewrite Ea|]. destruct Hfd as [-> | ->].
  2:{ destruct (cf_bad_access _ _ _ _ Ea) as [_ ->]. unfold xnd_decompress_ckpt. apply outcomes_bind.
      destruct (fs_openat_rd (-1) (snprintf XND_CKPTFILE_MAXLEN (name ++ cs XND_COMPRESSED_SUFFIX)) k1) as [r k2] eqn:E.
      eapply (outcomes_step _ _ _ _ _ r k2); [unfold fcall; by rewrite E|]. by rewrite (cf_bad_open _ _ _ _ E). }
  destruct (cf_faccessat _ _ _ _ Ea) as [Hf1 ->]. destruct Hs as [Hh (rest & [Hr|(Hnone & code & tl & Hcode & Hgz & Hl1 & Hl2)])]; fold name in Hr || fold name in Hnone, Hgz.
  { rewrite Hr, bool_decide_true by eauto. apply outcomes_ret. rewrite Hf1. split; [by intros n _ _; rewrite Hf1|]. split; [done|]. by exists rest. }
  rewrite Hnone, bool_decide_false by (by intros [? ?]).
  assert (in_u 32 (h_xnd_pid h)) as Hid by (pose proof (hf_u32 _ Hh) as Hu; by apply Forall_cons in Hu as [? _]).
  pose proof (gz_not_plain (h_xnd_pid h) (h_xnd_pid h) Hid Hid) as Hne.
  pose proof (decompress_file_frame fuel ifuel name (header_bytes h ++ rest) code tl (code ++ tl) k1 (not_eq_sym Hne) Hcode
    ltac:(by rewrite Hf1) ltac:(done) Hl1 Hl2) as Hd.
  apply outcomes_bind, outcomes_returns. eapply returns_weaken; [exact Hd|]. clear Hd.
  intros r k2 [[[-> _]|(-> & m & [_ Hm] & Hf2)] Ho]; [by apply outcomes_exit|]. cbn [negb Z.eqb].
  rewrite Hm in Hf2 by (by apply prefix_app_r). rewrite Hf1, Hnone in Hf2. cbn [default from_option] in Hf2. rewrite drop_nil, app_nil_r in Hf2.
  destruct (fs_faccessat dirfd name k2) as [there k3] eqn:Eb.
  eapply (outcomes_step _ _ _ _ _ there k3); [unfold fcall; by rewrite Eb|].
  destruct (cf_faccessat _ _ _ _ Eb) as [Hf3 ->]. rewrite Hf2, bool_decide_true by eauto.
  apply outcomes_ret. rewrite Hf3. split; [intros n N1 N2; rewrite Hf3, Ho, Hf1 by done; done|]. split; [done|]. by exists rest.
Qed.

Lemma new_target_ok h k : strlen dir <= 71 -> stored k h ->
  outcomes fails False (new_target fuel ifuel dir (h_xnd_pid h)) k (fun t k' =>
    t = Loaded (Target h) (ckptpath_of dir (h_xnd_pid h)) /\ others_kept (h_xnd_pid h) k k').
Proof using All.
  intros Hl Hs. pose proof (stored_pid k h Hs) as Hid. pose proof (proj1 Hs) as Hh. unfold new_target.
  destruct (ckptfile_buf_eq _ Hid) as [Eb Hb]. rewrite (proj2 (Z.leb_gt _ _)).
  2:{ unfold ckptpath_of. rewrite strlen_app. change (cs "/ckpt-") with (slash :: cs "ckpt-"). cbn [app]. fold (ckptfile_fmt (h_xnd_pid h)).
      unfold strlen in *. cbn [length]. unfold XND_CKPTPATH_MAXLEN. lia. }
  destruct (fs_open_dir dir k) as [fd k1] eqn:E1. eapply (outcomes_step _ _ _ _ _ fd k1); [unfold fcall; by rewrite E1|].
  destruct (cf_open_dir _ _ _ E1) as [Hf1 Hfd]. assert (stored k1 h) as Hs1 by (unfold stored in *; by rewrite Hf1).
  apply outcomes_bind. eapply outcomes_weaken; [by apply (image_there_ok fd h k1)|done..|].
  cbv beta zeta. intros _ k2 (Ho & -> & rest & Hr).
  destruct (fs_openat_rd dirfd (ckptfile_buf (h_xnd_pid h)) k2) as [ifd k3] eqn:E3.
  eapply (outcomes_step _ _ _ _ _ ifd k3); [unfold fcall; by rewrite E3|].
  destruct (dir_open_rd _ _ _ _ E3) as [Hf3 [[-> _]|(Hpos & _ & Hfd3 & _)]]; [by apply outcomes_exit|].
  rewrite (proj2 (Z.ltb_ge _ _) Hpos). apply outcomes_bind, outcomes_returns.
  eapply returns_weaken; [apply (readall_file ifd (ckptfile_buf (h_xnd_pid h)) (header_bytes h ++ rest) sizeof_header k3);
    [by rewrite Hfd3, lookup_insert_eq|by rewrite Hf3|done]|].
  intros d k4 [Hf4 Hd]. destruct (Z.eqb_spec (Z.of_nat (length d)) sizeof_header) as [Hlen|]; [|by apply outcomes_exit].
  cbn [negb]. rewrite (Hd Hlen), take_app_length' by (apply Nat2Z.inj; by rewrite header_bytes_length by (by destruct Hh)).
  rewrite header_roundtrip by done. cbv zeta. rewrite Z.eqb_refl.
  eapply (outcomes_step _ _ _ _ _ tt k4); [done|]. eapply outcomes_step; [done|]. eapply outcomes_step; [done|]. apply outcomes_ret.
  split; [done|]. intros n N1 N2. rewrite (proj1 (dir_close _ _)), (proj1 (dir_close _ _)), Hf4, Hf3, Ho, Hf1 by done. done.
Qed.

(** The targets a directory with the images of [hs] gives. *)
Definition targets_of (hs : list xnd_ckpt_header) : list loaded :=
  (fun h => Loaded (Target h) (ckptpath_of dir (h_xnd_pid h))) <$> hs.
Lemma load_targets_ok info n : strlen dir <= 71 -> ckptdir info = dir -> forall hs pre tl k,
  manifest info = (n, pre ++ (h_xnd_pid <$> hs) ++ tl) -> NoDup (h_xnd_pid <$> hs) -> Forall (stored k) hs ->
  outcomes fails False (load_targets fuel ifuel (length hs) info (length pre)) k (fun ts _ => ts = targets_of hs).
Proof using All.
  intros Hl Hdir hs. induction hs as [|h hs IH]; intros pre tl k Hm Hnd Hs; [done|]. cbn [length load_targets fmap list_fmap].
  apply Forall_cons in Hs as [Hh Hs]. cbn [fmap list_fmap app] in Hm, Hnd. apply NoDup_cons in Hnd as [Hnin Hnd]. rewrite Hm. cbn [snd].
  rewrite list_lookup_middle by done. eapply outcomes_step; [done|]. rewrite Hdir.
  apply outcomes_bind. eapply outcomes_weaken; [by apply (new_target_ok h k)|done..|]. intros t k1 [-> Ho].
  apply outcomes_bind, (outcomes_weaken fails False fails False _ _ _ (fun ts _ => ts = targets_of hs)); [|done|done|].
  - replace (S (length pre)) with (length (pre ++ [h_xnd_pid h])) by (rewrite length_app; cbn; lia). apply (IH _ tl).
    + rewrite Hm. by rewrite <- app_assoc.
    + done.
    + apply Forall_forall. intros h' Hin. rewrite Forall_forall in Hs. apply (stored_kept (h_xnd_pid h) h' k); [done|by apply (stored_pid k)| |by apply Hs].
      intros E. apply Hnin. rewrite E. by apply list_elem_of_fmap_2.
  - intros ts k2 ->. by apply outcomes_ret.
Qed.
End images.

(** ** The program *)

Class RestartLaws (K : Type) `{FsSys K, LaunchSys K, RestartSys K} (dir : cstr) (files : K -> gmap cstr (list Z))
    (fds : K -> gmap Z (cstr * nat)) (started : kern) := {
  rl_access p k r k' : fs_access p k = (r, k') -> files k' = files k;
  rl_sigaction sig k r k' : rs_sigaction sig k = (r, k') -> files k' = files k;
  (** [started] is what the child of [fork] finds of the processes. *)
  rl_fork k k' : lk_fork k = (0, k') -> rs_procs k' = started;
  (** The manifest's path leads to the file of that name in the directory. *)
  rl_manifest k r k' : fs_open_rd (strip_last dir ++ slash :: XND_MANIFEST_NAME) k = (r, k') ->
    files k' = files k /\ (r = -1 \/ 0 <= r /\ fds k' !! r = Some (XND_MANIFEST_NAME, 0%nat));
  rl_set p k : rs_procs (rs_set_procs p k) = p;
  (** Nothing interrupts the wait for the child. *)
  rl_wait child k e k' : rs_waitpid child k = (WFailed e, k') -> e <> EINTR;
}.

(** The code the program exits with for the status of its child. *)
Definition forwarded (stat : Z) : Z := if WIFEXITED stat then WEXITSTATUS stat else 128 + WSTATUS stat.

Section main.
Context {K : Type} `{DirFs K dirfd files fds} `{ZlibSpec} `{LaunchSys K, RestartSys K}.
Context (dir : cstr) `{!CkptFs K dir dirfd files} (started : kern) `{!RestartLaws K dir files fds started} `{LF : !LaunchFs K files} `{!FilesOnly (K := K) rs_procs}.
Context (fuel ifuel : nat) (junk bin exe : cstr).
(** The restart program is [bin/exe]. *)
Context (Hself : forall k, lk_exe_path PATH_MAX k = Some (bin ++ slash :: exe)).
Context (Hbin : bin <> [] /\ strip_last bin = bin /\ strlen bin < 900) (Hexe : slash ∉ exe).
(** The directory holds a manifest of the images of [hs]; [tl] is the rest of
    the array of ids. *)
Context (hs : list xnd_ckpt_header) (tl extra : list Z) (pause : bool).
Context (Hdir : dir <> [] /\ strlen dir <= 71) (Hnd : NoDup (h_xnd_pid <$> hs)).
Context (Hlen : length ((h_xnd_pid <$> hs) ++ tl) = 256%nat) (Htl : Forall (in_u 32) tl).
Abbreviation ids := ((h_xnd_pid <$> hs) ++ tl).
Abbreviation files_of := (fun k => files k !! XND_MANIFEST_NAME = Some (manifest_bytes (Z.of_nat (length hs)) ids ++ extra) /\ Forall (stored (files := files) fuel ifuel k) hs).
Definition the_info : xnd_restart_info := Info (Z.of_nat (length hs), ids) dir (beside bin (cs XND_RESTART_BINARY)).

Lemma new_info_ok (s : pstate K) : files_of (g_k s) ->
  outcomes fails False (new_info junk (Some dir)) s (fun i s' => i = the_info /\ files (g_k s') = files (g_k s)).
Proof using All.
  intros [Hm Hs]. destruct Hdir as [Hne Hl]. unfold new_info.
  eapply outcomes_step; [by apply (exe_path_of_eq junk bin exe Hself Hbin Hexe)|]. cbn [negb Z.eqb].
  rewrite (proj2 (Z.leb_gt _ _)) by (unfold XND_CKPTDIR_MAXLEN; lia).
  pose proof (path_join_correct XND_MANIFEST_MAXLEN dir XND_MANIFEST_NAME junk Hne) as Hj. unfold path_size in Hj.
  specialize (Hj ltac:(lia) ltac:(by vm_compute)).
  destruct (xnd_path_join _ _ _ _) as [c path| | | |] eqn:Ej; try done.
  destruct Hj as [(-> & -> & _)|(_ & _ & Hbad)]; [|change (strlen XND_MANIFEST_NAME) with 17 in Hbad; unfold XND_MANIFEST_MAXLEN in Hbad; lia].
  eapply (outcomes_step _ _ _ _ _ (0, _) s); [unfold on_path; by rewrite Ej|]. cbn [negb Z.eqb strip_first].
  apply outcomes_bind, outcomes_on_k. unfold xnd_ckptfile_extract_manifest. change (strip_first XND_MANIFEST_NAME) with XND_MANIFEST_NAME.
  destruct (fs_open_rd (strip_last dir ++ slash :: XND_MANIFEST_NAME) (g_k s)) as [fd k1] eqn:Eo.
  eapply (outcomes_step _ _ _ _ _ fd k1); [unfold fcall; by rewrite Eo|].
  destruct (rl_manifest _ _ _ Eo) as [Hf1 [-> |[Hpos Hfd] ] ]; [done|]. rewrite (proj2 (Z.ltb_ge _ _) Hpos).
  apply outcomes_bind, outcomes_returns. eapply returns_weaken; [apply (readall_file dir fuel ifuel fd XND_MANIFEST_NAME (manifest_bytes (Z.of_nat (length hs)) ids ++ extra) sizeof_manifest k1 Hfd);
    [by rewrite Hf1, Hm|done]|].
  intros d k2 [Hf2 Hd]. assert (close_unless fd k2 = Ret tt (fd_close fd k2)) as Hcl by (unfold close_unless; by rewrite (proj2 (Z.eqb_neq _ _)) by lia).
  destruct (Z.eqb_spec (Z.of_nat (length d)) sizeof_manifest) as [Hlen2|]; cbn [negb].
  2:{ eapply outcomes_step; [exact Hcl|]. done. }
  rewrite (Hd Hlen2), take_app_length' by (apply Nat2Z.inj; by rewrite (manifest_bytes_length ids)).
  assert (Forall (in_u 32) ids) as Hu.
  { apply Forall_app. split; [|done]. apply Forall_fmap. eapply Forall_impl; [exact Hs|]. intros h. apply stored_pid. }
  pose proof Hlen as Hlen'. rewrite length_app, length_fmap in Hlen'. rewrite manifest_roundtrip by (try done; unfold in_u; lia).
  eapply outcomes_step; [done|]. apply outcomes_ret, outcomes_ret. split; [done|]. cbn [g_k put_k].
  by rewrite (proj1 (dir_close _ _)), Hf2, Hf1.
Qed.

(** The processes of the computation. *)
Context (first : nat) (q0 : kproc) (Hcomp : computation (Target <$> hs)) (Hforks : forks rs_new_pid).
Context (Hfirst : List.find (at1 (Target <$> hs) was_not_orphan) (roots (Target <$> hs)) = Some first).
Context (Hq0 : procs started !! me started = Some q0) (Hlife : p_life q0 = Restarting) (Hlone : lone (me started) (procs started)).
Context (Hflags : rs_setflags (Z.lor POSIX_SPAWN_SETEXEC POSIX_SPAWN_DISABLE_ASLR) = true)
  (Hspawn : forall h e, h ∈ hs -> rs_spawns (exec_argv the_info pause (Loaded (Target h) (ckptpath_of dir (h_xnd_pid h)))) e = true).

Lemma process_targets_ok (s : pstate K) : files_of (g_k s) -> rs_procs (g_k s) = started ->
  outcomes fails False (process_targets fuel ifuel (S (length hs)) the_info pause) s (fun _ s' =>
    rebuilt_from (Target <$> hs) first started q0 (rs_procs (g_k s'))).
Proof using All.
  intros [_ Hs] Hp. unfold process_targets. cbn [manifest the_info fst]. rewrite Nat2Z.id. apply outcomes_bind, outcomes_on_k.
  pose proof (load_targets_ok dir fuel ifuel the_info _ (proj2 Hdir) eq_refl hs [] tl (g_k s) eq_refl Hnd Hs) as Hload. cbn [length] in Hload.
  pose proof (untouched_load (f := rs_procs) fuel ifuel (length hs) the_info 0 (g_k s)) as Hun. unfold sat in Hun. unfold outcomes in Hload |- *.
  destruct (load_targets fuel ifuel (length hs) the_info 0 (g_k s)) as [ts k1| | | |]; try done. subst ts. rewrite Hp in Hun.
  apply outcomes_step with (a := environ (g_env s)) (s' := put_k k1 s); [done|]. apply outcomes_on_k.
  assert (l_target <$> targets_of dir hs = Target <$> hs) as -> by (unfold targets_of; by rewrite <- list_fmap_compose).
  pose proof (targets_rebuilt (Target <$> hs) rs_new_pid (exec_succeeds the_info pause (environ (g_env s)) (targets_of dir hs)) first started q0 Hcomp Hforks) as Hr.
  rewrite length_fmap in Hr. specialize (fun Hx => Hr Hx Hfirst Hq0 Hlife Hlone).
  apply returns_inv in Hr as (u & p & E & HQ).
  - unfold outcomes, on_procs. cbn [g_k put_k]. rewrite Hun, E. cbn. by rewrite rl_set.
  - intros i. unfold exec_succeeds. rewrite Hflags. cbn [andb]. destruct (targets_of dir hs !! i) as [t|] eqn:Et; [|done].
    unfold targets_of in Et. apply list_lookup_fmap_Some in Et as (h & -> & Hh). apply Hspawn. by eapply list_elem_of_lookup_2.
Qed.

(** How the program ends: with its child's code, or failing. *)
Definition main_exits (c : Z) : Prop :=
  fails c \/ exists child k stat k', rs_waitpid child k = (WStatus stat, k') /\ c = forwarded stat.
(** The assertions that may fail: that the old socket was removed, and that a
    child which is reported has exited or was killed. *)
Definition main_aborts : Prop :=
  socket_stays \/ exists child k stat k', rs_waitpid child k = (WStatus stat, k') /\ WIFEXITED stat = false /\ WIFSIGNALED stat = false.
(** A process that [fork] told it is the child. *)
Definition coordinator_child (coordinator : launched) : Prop :=
  coordinator = coordinator_with bin true /\ exists k, fork_result k = 0.
Definition restart_args : list cstr := (if pause then [cs "--pause"] else []) ++ [dir].

Lemma options_ok (s : pstate K) : dir <> cs "--pause" ->
  outcomes fails False (restart_options restart_args (false, None)) s (fun r s' => r = (pause, Some dir) /\ files (g_k s') = files (g_k s)).
Proof using RestartLaws0.
  intros Hn. assert (forall b (s0 : pstate K), outcomes fails False (restart_options [dir] (b, None)) s0
    (fun r s' => r = (b, Some dir) /\ files (g_k s') = files (g_k s0))) as Hd.
  { intros b s0. cbn [restart_options]. rewrite bool_decide_false by done. destruct (fs_access dir (g_k s0)) as [there k1] eqn:E.
    eapply outcomes_step; [by apply k_op_eq|]. destruct there; [|done]. split; [done|]. exact (rl_access _ _ _ _ E). }
  unfold restart_args. case pause; apply Hd.
Qed.
Lemma setup_ok (s : pstate K) : outcomes fails socket_stays (restore_parent_setup junk) s (fun r s' =>
  files (g_k s') = files (g_k s) /\ match r with inl c => coordinator_child c | inr _ => True end).
Proof using RestartLaws0 LF Hself Hbin Hexe.
  assert (forall sig (m : M (pstate K) (launched + Z)) s1 Q, (forall s2, files (g_k s2) = files (g_k s1) -> Q (inr (-1)) s2) ->
    (forall s2, files (g_k s2) = files (g_k s1) -> outcomes fails socket_stays m s2 Q) ->
    outcomes fails socket_stays (ok ← k_op (rs_sigaction sig); if negb ok then mret (inr (-1)) else m) s1 Q) as Hsig.
  { intros sig m s1 Q Hbad Hok. destruct (rs_sigaction sig (g_k s1)) as [ok k] eqn:E. eapply outcomes_step; [by apply k_op_eq|].
    apply rl_sigaction in E. destruct ok; [by apply Hok|by apply Hbad]. }
  unfold restore_parent_setup. apply Hsig; [done|]. intros s1 E1. apply Hsig; [intros s2 E2; split; [congruence|done]|]. intros s2 E2.
  apply Hsig; [intros s3 E3; split; [congruence|done]|]. intros s3 E3.
  pose proof (launch_coordinator_ends files junk bin exe Hself Hbin Hexe true s3) as Hc.
  apply outcomes_bind. unfold ends in Hc. unfold outcomes at 1. destruct (launch_coordinator junk true s3) as [[c|pid] s4|c s4|s4| |]; try done.
  - destruct Hc as (Hf & Hr & -> & _). split; [congruence|]. split; [done|]. by exists (g_k s3).
  - destruct Hc as [Hf _]. destruct (pid =? -1); [apply outcomes_ret|eapply outcomes_step; [done|]; apply outcomes_ret]; (split; [|done]); cbn [g_k put_env]; congruence.
Qed.
Lemma wait_ok child (s : pstate K) : outcomes main_exits main_aborts (wait_child child) s (fun c _ => main_exits c).
Proof using RestartLaws0.
  unfold wait_child. destruct (rs_waitpid child (g_k s)) as [r k1] eqn:E. eapply outcomes_step; [by apply k_op_eq|]. destruct r as [e|stat].
  - rewrite (proj2 (Z.eqb_neq _ _)) by (by eapply rl_wait). by left.
  - assert (main_exits (forwarded stat)) as Hm by (right; by exists child, (g_k s), stat, k1). unfold forwarded in Hm.
    destruct (WIFEXITED stat) eqn:Ex; [by apply outcomes_ret|]. destruct (WIFSIGNALED stat) eqn:Es; [|right; by exists child, (g_k s), stat, k1]. eapply outcomes_step; [done|]. by apply outcomes_ret.
Qed.

End main.

(** ** The child's end, and its limits *)

Section ends.
Context {K : Type} `{IoSys K, FdSys K, LaunchSys K, FsSys K, CreatSys K, Zlib, RestartSys K}.

(** The status of a child that exited with [c], or was killed by [sig], with a
    core file or not. *)
Theorem exit_code_forwarded child (s : pstate K) k stat : rs_waitpid child (g_k s) = (WStatus stat, k) ->
  (forall c, 0 <= c < 256 -> stat = Z.shiftl c 8 -> wait_child child s = Ret c (put_k k s)) /\
  (forall sig core, 0 < sig < 127 -> core = 0 \/ core = 128 -> stat = sig + core -> wait_child child s = Ret (128 + sig) (put_k k s)).
Proof.
  intros E. unfold wait_child. rewrite (bind_ret _ _ _ _ _ (k_op_eq _ _ _ _ E)). unfold WIFEXITED, WIFSIGNALED, WEXITSTATUS, WSTATUS. split.
  - intros c Hc ->. assert (Z.land (Z.shiftl c 8) 127 = 0) as ->.
    { change 127 with (Z.ones 7). rewrite Z.land_ones, Z.shiftl_mul_pow2 by lia. change (c * 2 ^ 8) with (c * (2 * 2 ^ 7)). rewrite Z.mul_assoc. by apply Z.mod_mul. }
    rewrite Z.shiftr_shiftl_l by lia. change (8 - 8) with 0. rewrite Z.shiftl_0_r. change 255 with (Z.ones 8).
    by rewrite Z.land_ones, Z.mod_small by lia.
  - intros sig core Hs Hcore ->. assert (Z.land (sig + core) 127 = sig) as ->.
    { change 127 with (Z.ones 7). rewrite Z.land_ones by lia. destruct Hcore as [-> | ->]; change (2 ^ 7) with 128.
      - rewrite Z.add_0_r. apply Z.mod_small. lia.
      - change 128 with (1 * 128) at 1. rewrite Z.mod_add by lia. apply Z.mod_small. lia. }
    rewrite (proj2 (Z.eqb_neq sig 0)), (proj2 (Z.eqb_neq sig 127)) by lia. done.
Qed.

(** A wait that a signal interrupts is not taken up again: the status that was
    not given is looked at. *)
Lemma interrupted_wait_ub child (s : pstate K) k : rs_waitpid child (g_k s) = (WFailed EINTR, k) -> wait_child child s = Ub.
Proof. intros E. unfold wait_child. by rewrite (bind_ret _ _ _ _ _ (k_op_eq _ _ _ _ E)). Qed.

(** A directory's name of 78 characters or more is read past its array; one
    from 72 that does not end in a slash is refused. *)
Lemma directory_length_limit junk (bin exe dir : cstr) (s : pstate K) : (forall k, lk_exe_path PATH_MAX k = Some (bin ++ slash :: exe)) ->
  bin <> [] /\ strip_last bin = bin /\ strlen bin < 900 -> slash ∉ exe ->
  (78 <= strlen dir -> new_info junk (Some dir) s = Ub) /\
  (72 <= strlen dir < 78 -> strip_last dir = dir -> new_info junk (Some dir) s = Exit XND_EXIT_FAILURE s).
Proof.
  intros Hself Hbin Hexe. unfold new_info. rewrite (bind_ret _ _ _ _ _ (exe_path_of_eq junk bin exe Hself Hbin Hexe (cs XND_RESTART_BINARY) junk s eq_refl)).
  cbn [negb Z.eqb]. unfold XND_CKPTDIR_MAXLEN. split; [intros Hl; by rewrite (proj2 (Z.leb_le _ _) Hl)|].
  intros Hl Hst. rewrite (proj2 (Z.leb_gt _ _)) by lia.
  rewrite (bind_ret _ _ s (-1, junk) s); [done|]. unfold on_path, xnd_path_join, strip_last in *.
  destruct (last dir) as [c|] eqn:El; [|apply last_None in El as ->; by destruct Hl]. destruct (Ascii.eqb c slash) eqn:Ec.
  { apply (f_equal length) in Hst. rewrite length_take in Hst. unfold strlen in Hl. lia. }
  change (strlen XND_MANIFEST_NAME) with 17.
  change (match head XND_MANIFEST_NAME with Some a => Ascii.eqb a slash | None => false end) with false. cbn [andb orb]. rewrite wrapu_small by (unfold in_u, sizeof_int; lia).
  by rewrite (proj2 (Z.ltb_lt _ _)) by (unfold XND_MANIFEST_MAXLEN, sizeof_int; lia).
Qed.
End ends.

(** ** A directory *)

(** A directory with the manifest, an image as it is and a compressed one, and
    a kernel whose first [fork] returns in the parent and whose second in the
    child: the witnesses of [RestartMainProps]. *)
From S2P Require Import CompressWorld.

Record machine := Machine { m_dir : zdir; m_forks : nat; m_procs : kern }.
Definition on_dir {A} (f : zdir -> A * zdir) (k : machine) : A * machine :=
  let '(a, d) := f (m_dir k) in (a, Machine d (m_forks k) (m_procs k)).
Definition m_files (k : machine) : gmap cstr (list Z) := z_files (m_dir k).
Definition m_fds (k : machine) : gmap Z (cstr * nat) := z_fds (m_dir k).

#[local] Instance machine_io : IoSys machine := { sys_read fd n := on_dir (sys_read fd n); sys_write fd b := on_dir (sys_write fd b); read_waits _ _ _ := false }.
#[local] Instance machine_fd : FdSys machine := {
  fd_getfl _ k := (0, k); fd_dup2 _ new k := (new, k);
  fd_close fd k := Machine (fd_close fd (m_dir k)) (m_forks k) (m_procs k);
}.
(** Every path to be read is that of the manifest. *)
#[local] Instance machine_fs : FsSys machine := {
  fs_access _ k := (true, k); fs_mkdir _ k := (true, k); fs_open_dir _ k := (5, k);
  fs_open_rd _ := on_dir (fs_openat_rd 5 XND_MANIFEST_NAME);
  fs_mkdirat _ _ k := (true, k); fs_openat_excl _ _ k := (-1, k);
  fs_openat_rd dir name k := if dir =? 5 then on_dir (fs_openat_rd 5 name) k else (-1, k);
  fs_faccessat dir name k := if dir =? 5 then on_dir (fs_faccessat 5 name) k else (false, k);
  fs_unlinkat dir name := on_dir (fs_unlinkat dir name);
  fs_unlinkat_dir _ _ k := (true, k); fs_opendir _ k := (Some [], k); fs_closedir k := k; fs_unlink _ k := (true, k);
}.
#[local] Instance machine_creat : CreatSys machine := { fs_openat_creat dir name := on_dir (fs_openat_creat dir name) }.
#[local] Instance machine_launch : LaunchSys machine := {
  lk_exe_path _ _ := Some (cs "/opt/xnd/xnd_restart"); lk_executable _ _ := true; lk_exists _ _ := true;
  lk_coord_there k := (false, k); lk_coord_unlink k := (true, k);
  lk_fork k := (match m_forks k with O => 4711 | _ => 0 end, Machine (m_dir k) (S (m_forks k)) restarting);
  lk_execvp _ _ k := (0, k); lk_kill0 _ k := (0, k); lk_getfl _ k := (0, k); lk_setfl _ _ k := (0, k);
  lk_peek _ k := (1, k); lk_so_error _ k := ((0, 0), k);
}.
#[local] Instance machine_restart : RestartSys machine := {
  rs_sigaction _ k := (true, k); rs_killpg _ k := (0, k); rs_kill_self _ k := k; rs_waitpid _ k := (WStatus (Z.shiftl 3 8), k);
  rs_procs := m_procs; rs_set_procs p k := Machine (m_dir k) (m_forks k) p; rs_new_pid := next_pid;
  rs_setflags _ := true; rs_spawns _ _ := true;
}.

Lemma on_dir_inv {A} (f : zdir -> A * zdir) k r k' : on_dir f k = (r, k') ->
  exists d, f (m_dir k) = (r, d) /\ k' = Machine d (m_forks k) (m_procs k).
Proof. unfold on_dir. destruct (f (m_dir k)) as [a d]. intros [= <- <-]. by exists d. Qed.
#[local] Instance machine_dir : DirFs machine 5 m_files m_fds.
Proof.
  constructor; unfold m_files, m_fds.
  - intros name k r k' (d & E & ->)%(on_dir_inv (fs_openat_rd 5 name)). by eapply (dir_open_rd (DirFs := zdir_laws)).
  - intros name k r k' (d & E & ->)%(on_dir_inv (fs_openat_creat 5 name)). by eapply (dir_open_creat (DirFs := zdir_laws)).
  - intros fd n k r k' name off l (d & E & ->)%(on_dir_inv (sys_read fd n)). by eapply (dir_read (DirFs := zdir_laws)).
  - done.
  - intros fd b k r k' name off l (d & E & ->)%(on_dir_inv (sys_write fd b)). by eapply (dir_write (DirFs := zdir_laws)).
  - intros name k r k' (d & E & ->)%(on_dir_inv (fs_unlinkat 5 name)). by eapply (dir_unlink (DirFs := zdir_laws)).
  - intros fd k. apply (dir_close (DirFs := zdir_laws)).
Qed.
#[local] Instance machine_ckpt dir : CkptFs machine dir 5 m_files.
Proof.
  constructor.
  - intros k r k' [= <- <-]. split; [done|by left].
  - by intros name k r k' [= <- <-].
  - by intros name k r k' [= <- <-].
  - by intros name k r k' [= <- <-].
Qed.
#[local] Instance machine_launch_fs : LaunchFs machine m_files.
Proof. constructor; by intros; simplify_eq/=. Qed.
#[local] Instance machine_procs : FilesOnly (K := machine) m_procs.
Proof.
  constructor.
  - by intros fd n k r k' (d & _ & ->)%(on_dir_inv (sys_read fd n)).
  - by intros fd b k r k' (d & _ & ->)%(on_dir_inv (sys_write fd b)).
  - done.
  - by intros p k r k' [= _ <-].
  - intros dir p k r k' E. change ((if dir =? 5 then on_dir (fs_openat_rd 5 p) k else (-1, k)) = (r, k')) in E.
    destruct (dir =? 5); [by apply (on_dir_inv (fs_openat_rd 5 p)) in E as (d & _ & ->)|by injection E as _ <-].
  - by intros dir p k r k' (d & _ & ->)%(on_dir_inv (fs_openat_creat dir p)).
  - intros dir p k r k' E. change ((if dir =? 5 then on_dir (fs_faccessat 5 p) k else (false, k)) = (r, k')) in E.
    destruct (dir =? 5); [by apply (on_dir_inv (fs_faccessat 5 p)) in E as (d & _ & ->)|by injection E as _ <-].
Qed.
#[local] Instance machine_laws dir : RestartLaws machine dir m_files m_fds restarting.
Proof.
  constructor.
  - by intros p k r k' [= _ <-].
  - by intros sig k r k' [= _ <-].
  - by intros k k' [= _ <-].
  - intros k r k' (d & E & ->)%(on_dir_inv (fs_openat_rd 5 XND_MANIFEST_NAME)).
    destruct (dir_open_rd (DirFs := zdir_laws) _ _ _ _ E) as [Hf [[-> _]|(Hpos & _ & Hfd & _)]]; (split; [done|]); [by left|right].
    split; [done|]. unfold m_fds. cbn [m_dir]. by rewrite Hfd, lookup_insert_eq.
  - done.
  - by intros child k e k' [= ].
Qed.

(** ** A computation *)

(** A session leader and its child in a group of its own. *)
Definition header_of (xp xpp p pp pg si root : Z) : xnd_ckpt_header :=
  CkptHeader (magic_bytes ++ [0]) (replicate 16 0) xp xpp 0 p pp pg si 259 515 2 root 4 3 (SharedCacheInfo 4096 4096 (replicate 16 7)).
Definition hs : list xnd_ckpt_header := [header_of 1 0 500 400 500 500 1; header_of 2 1 501 500 501 500 0].
Definition unused_ids : list Z := replicate 254 0.
Definition the_files : gmap cstr (list Z) :=
  <[XND_MANIFEST_NAME := manifest_bytes 2 ((h_xnd_pid <$> hs) ++ unused_ids) ++ []]>
  (<[ckptfile_buf 1 := header_bytes (header_of 1 0 500 400 500 500 1) ++ [9; 9]]>
  {[gz_name (ckptfile_buf 2) := (header_bytes (header_of 2 1 501 500 501 500 0) ++ [8; 8]) ++ [mark]]}).
Definition machine0 : machine := Machine (ZDir the_files ∅) 0 restarting.
Definition restarter : pstate machine :=
  PState (Pids 0 0 0 0) (Ids 0 0 0 [] 0 0 false) (Client (-1) (-1) (-1) false) (VTable ∅ false) None
    (Lib XND_UNINITIALIZED false) 0 (EnvState ∅ (-1)) machine0.

Lemma hs_computation : computation (Target <$> hs).
Proof.
  split.
  1-4: intros i j ti tj Hi Hj; destruct i as [|[|i]], j as [|[|j]]; cbn in Hi, Hj; simplify_eq; vm_compute; congruence.
  - intros j Hj%elem_of_all. change (length (Target <$> hs)) with 2%nat in Hj. unfold root, parent. destruct j as [|[|j]]; [| |exfalso; lia].
    + split; [|done]. intros _ i. destruct i as [|[|i]]; by vm_compute.
    + split; [done|]. intros Hp. by destruct (Hp 0%nat).
  - intros i j Hr Hl. unfold root, leads_group, leads_session in *. pose proof (at2_in _ _ _ _ Hl) as [Hi%elem_of_all Hj%elem_of_all].
    change (length (Target <$> hs)) with 2%nat in *. destruct i as [|[|i]]; [| |exfalso; lia]; (destruct j as [|[|j]]; [| |exfalso; lia]);
      vm_compute in Hr, Hl |- *; auto; done.
Qed.
Lemma hs_fields h : h ∈ hs -> header_fields h.
Proof.
  unfold hs. rewrite !elem_of_cons, elem_of_nil. intros [-> |[-> |[] ] ];
    (split; [done..| | |]; repeat constructor; unfold in_u, in_s; cbn; lia).
Qed.
Lemma bytes_checked l : forallb (fun x => (0 <=? x) && (x <? 256)) l = true -> Forall is_byte l.
Proof. intros Hb. apply Forall_forall. intros x Hx. apply (forallb_forall _ _) with (x := x) in Hb; [|by apply list_elem_of_In]. unfold is_byte. lia. Qed.
Lemma hs_stored : Forall (stored (files := m_files) 200 200 machine0) hs.
Proof.
  constructor; [|constructor; [|constructor] ]; (split; [apply hs_fields; unfold hs; set_solver|]).
  - exists [9; 9]. left. vm_compute. reflexivity.
  - exists [8; 8]. right. split; [vm_compute; reflexivity|]. exists ((header_bytes (header_of 2 1 501 500 501 500 0) ++ [8; 8]) ++ [mark]), [].
    split; [split; [done|by apply bytes_checked; vm_compute]|]. split; [vm_compute; reflexivity|]. split; vm_compute; lia.
Qed.

Lemma exe_no_slash : slash ∉ cs "xnd_restart".
Proof. intros Hin. apply list_elem_of_In in Hin. vm_compute in Hin. intuition discriminate. Qed.
Lemma restarting_lone : lone (me restarting) (procs restarting).
Proof.
  intros x q Hx. cbn in Hx. apply lookup_insert_Some in Hx as [[<- <-]|[_ Hx]]; [cbn; lia|].
  apply lookup_singleton_Some in Hx as [<- <-]. cbn. lia.
Qed.
Lemma manifest_there : m_files (g_k restarter) !! XND_MANIFEST_NAME = Some (manifest_bytes 2 ((h_xnd_pid <$> hs) ++ unused_ids) ++ []).
Proof. unfold m_files. cbn [g_k restarter m_dir machine0 z_files the_files]. apply lookup_insert_eq. Qed.


(** Computed: the processes but 599, and the decompressed image. *)
Definition run : option (list (Z * kproc) * bool) :=
  match restart_main [] 200 200 (S (length hs)) (restart_args (cs "/ckpts") true) restarter with
  | Ret (inr _) s => Some (map_to_list (delete 599 (procs (m_procs (g_k s)))),
      bool_decide (m_files (g_k s) !! ckptfile_buf 2 = Some (header_bytes (header_of 2 1 501 500 501 500 0) ++ [8; 8])))
  | _ => None
  end.
Example machine_restarted : run = Some ([(601, Kproc 600 601 600 (Restart.Became 1)); (600, Kproc 599 600 600 (Restart.Became 0))], true).
Proof. vm_compute. reflexivity. Qed.

Lemma exit_code_forwarded_witness :
  (forall c, 0 <= c < 256 -> Z.shiftl 3 8 = Z.shiftl c 8 -> wait_child 601 restarter = Ret c (put_k machine0 restarter)) /\
  (forall sig core, 0 < sig < 127 -> core = 0 \/ core = 128 -> Z.shiftl 3 8 = sig + core ->
    wait_child 601 restarter = Ret (128 + sig) (put_k machine0 restarter)).
Proof. apply (exit_code_forwarded 601 restarter machine0 (Z.shiftl 3 8)). reflexivity. Defined.
