(* ===== verification/ThreadList.v ===== *)
(** The lists of thread descriptors of [xnd/thread_info.c]: the thread list,
    the zombie list, their locks, and what frees descriptors.

    The first half is the code: doubly linked lists of nodes in a heap, where
    following a null pointer or one to freed memory is undefined.  The second
    half shows that each operation implements the operation on plain lists that
    [Threads] interleaves.  [Lib] uses the operations for starting a process,
    [fork] and exit. *)

From S2P Require Import Prelude Process.
Open Scope Z_scope.

Abbreviation loc := positive.

(** A mutex: [Dead] before it is initialised and after it is destroyed. *)
Inductive mutex : Type := Free | Held | Dead.
#[global] Instance mutex_eq_dec : EqDecision mutex.
Proof. solve_decision. Defined.

(** The fields of [struct thread_info] this file reads or writes, and the ones
    [thread_init] sets.  Contexts, signal state and TLS are in [Cycle],
    [SigHooks] and [Tls]. *)
Record tnode := TNode {
  n_next : option loc; n_prev : option loc;
  n_state : thread_state; n_depth : Z; n_exiting : bool; n_joined : bool;
  n_routine : Z; n_arg : Z; n_self : Z;
  n_lock : mutex
}.
Definition set_next (p : option loc) n := TNode p (n_prev n) (n_state n) (n_depth n) (n_exiting n) (n_joined n) (n_routine n) (n_arg n) (n_self n) (n_lock n).
Definition set_prev (p : option loc) n := TNode (n_next n) p (n_state n) (n_depth n) (n_exiting n) (n_joined n) (n_routine n) (n_arg n) (n_self n) (n_lock n).
Definition set_state (s : thread_state) n := TNode (n_next n) (n_prev n) s (n_depth n) (n_exiting n) (n_joined n) (n_routine n) (n_arg n) (n_self n) (n_lock n).
Definition set_depth (d : Z) n := TNode (n_next n) (n_prev n) (n_state n) d (n_exiting n) (n_joined n) (n_routine n) (n_arg n) (n_self n) (n_lock n).
Definition set_routine (f a : Z) n := TNode (n_next n) (n_prev n) (n_state n) (n_depth n) (n_exiting n) (n_joined n) f a (n_self n) (n_lock n).
Definition set_self (v : Z) n := TNode (n_next n) (n_prev n) (n_state n) (n_depth n) (n_exiting n) (n_joined n) (n_routine n) (n_arg n) v (n_lock n).
Definition set_nlock (m : mutex) n := TNode (n_next n) (n_prev n) (n_state n) (n_depth n) (n_exiting n) (n_joined n) (n_routine n) (n_arg n) (n_self n) m.
(** What [calloc] gives; [ST_EMBRYO] is 0. *)
Definition zero_node : tnode := TNode None None ST_EMBRYO 0 false false 0 0 0 Dead.

(** [struct thread_list] *)
Record tlist := TList { head : option loc; lock : mutex }.

(** The statics of [thread_info.c]; [ckpt_thread] is the node at
    [ckpt_thread]. *)
Record threads := Threads {
  heap : gmap loc tnode; next_loc : loc;
  thread_list : tlist; zombie_list : tlist; ckpt_mtx : mutex;
  myself : option loc; _main_thread : option loc
}.
Definition ckpt_thread : loc := 1%positive.
Arguments ckpt_thread : simpl never.

Definition put_heap (h : gmap loc tnode) t := Threads h (next_loc t) (thread_list t) (zombie_list t) (ckpt_mtx t) (myself t) (_main_thread t).
Definition put_tl (l : tlist) t := Threads (heap t) (next_loc t) l (zombie_list t) (ckpt_mtx t) (myself t) (_main_thread t).
Definition put_zl (l : tlist) t := Threads (heap t) (next_loc t) (thread_list t) l (ckpt_mtx t) (myself t) (_main_thread t).
Definition put_mtx (m : mutex) t := Threads (heap t) (next_loc t) (thread_list t) (zombie_list t) m (myself t) (_main_thread t).
Definition put_myself (p m : option loc) t := Threads (heap t) (next_loc t) (thread_list t) (zombie_list t) (ckpt_mtx t) p m.

(** [p->...] and the assignment to fields of [*p]. *)
Definition load (p : loc) : M threads tnode := t ← get; deref (heap t !! p).
Definition store (p : loc) (f : tnode -> tnode) : M threads unit :=
  x ← load p; modify (fun t => put_heap (<[p := f x]> (heap t)) t).
(** [calloc(1, sizeof(struct thread_info))] when it succeeds, and [free]. *)
Definition calloc_node : M threads loc := fun t =>
  Ret (next_loc t) (Threads (<[next_loc t := zero_node]> (heap t)) (Pos.succ (next_loc t))
    (thread_list t) (zombie_list t) (ckpt_mtx t) (myself t) (_main_thread t)).
Definition free_node (p : loc) : M threads unit :=
  load p;; modify (fun t => put_heap (delete p (heap t)) t).

(** ** Mutexes

    Locking a mutex that is held waits for another thread, which is outside
    this sequential view; a mutex that is not one is an error ([EINVAL]);
    unlocking one that is free is undefined. *)
Definition mutex_lock (get : threads -> mutex) (set : mutex -> threads -> threads) : M threads Z :=
  m ← gets get;
  match m with Free => modify (set Held);; mret 0 | Held => nofuel | Dead => mret 22 end.
Definition mutex_unlock (get : threads -> mutex) (set : mutex -> threads -> threads) : M threads Z :=
  m ← gets get;
  match m with Held => modify (set Free);; mret 0 | Free => ub | Dead => mret 22 end.
(** [if ((err = ...) != 0) xnd_abort()] *)
Definition or_abort (m : M threads Z) : M threads unit := err ← m; if err =? 0 then mret tt else abort.

Definition tl_lock (m : mutex) (t : threads) := put_tl (TList (head (thread_list t)) m) t.
Definition zl_lock (m : mutex) (t : threads) := put_zl (TList (head (zombie_list t)) m) t.
Definition tl_head (p : option loc) (t : threads) := put_tl (TList p (lock (thread_list t))) t.
Definition zl_head (p : option loc) (t : threads) := put_zl (TList p (lock (zombie_list t))) t.

Definition thread_list_acquire : M threads unit := or_abort (mutex_lock (fun t => lock (thread_list t)) tl_lock).
Definition thread_list_release : M threads unit := or_abort (mutex_unlock (fun t => lock (thread_list t)) tl_lock).
Definition zombie_list_acquire : M threads unit := or_abort (mutex_lock (fun t => lock (zombie_list t)) zl_lock).
Definition zombie_list_release : M threads unit := or_abort (mutex_unlock (fun t => lock (zombie_list t)) zl_lock).
Definition ckpt_mtx_lock : M threads Z := mutex_lock ckpt_mtx put_mtx.
Definition ckpt_mtx_unlock : M threads Z := mutex_unlock ckpt_mtx put_mtx.

(** [pthread_mutex_lock(&th->lock)] and the unlock. *)
Definition node_lock (p : loc) : M threads Z :=
  n ← load p;
  match n_lock n with Free => store p (set_nlock Held);; mret 0 | Held => nofuel | Dead => mret 22 end.
Definition node_unlock (p : loc) : M threads Z :=
  n ← load p;
  match n_lock n with Held => store p (set_nlock Free);; mret 0 | Free => ub | Dead => mret 22 end.

(** ** The lists

    [push] and [unlink] are the assignments [thread_list_add] and
    [zombie_list_add], and [thread_list_remove] and [zombie_list_remove], have
    in common. *)
Definition push (get : threads -> option loc) (set : option loc -> threads -> threads) (th : loc) : M threads unit :=
  h ← gets get;
  store th (set_next h);;
  store th (set_prev None);;
  x ← load th;
  (match n_next x with Some q => store q (set_prev (Some th)) | None => mret tt end);;
  modify (set (Some th)).
Definition unlink (get : threads -> option loc) (set : option loc -> threads -> threads) (th : loc) : M threads unit :=
  x ← load th;
  (match n_prev x with
   | Some q => store q (set_next (n_next x))
   | None =>
     h ← gets get;
     xnd_assert (bool_decide (h = Some th));;
     modify (set (n_next x))
   end);;
  x ← load th;
  match n_next x with Some q => store q (set_prev (n_prev x)) | None => mret tt end.

(** [pthread_mutex_destroy] and [pthread_cond_destroy] of a descriptor that is
    freed at once leave nothing behind. *)
Definition thread_reap (th : loc) : M threads unit := free_node th.

Definition thread_list_add : M threads unit :=
  thread_list_acquire;;
  me ← gets myself;
  match me with
  | None => abort
  | Some me => push (fun t => head (thread_list t)) tl_head me;; thread_list_release
  end.

Definition zombie_list_add (th : loc) : M threads unit :=
  x ← load th;
  if n_joined x then thread_reap th else
  zombie_list_acquire;;
  push (fun t => head (zombie_list t)) zl_head th;;
  zombie_list_release.

Definition thread_list_remove (th : loc) : M threads unit :=
  unlink (fun t => head (thread_list t)) tl_head th;;
  x ← load th;
  if n_joined x then thread_reap th else zombie_list_add th.

Definition zombie_list_remove (zombie : loc) : M threads unit :=
  x ← load zombie;
  xnd_assert (n_joined x);;
  unlink (fun t => head (zombie_list t)) zl_head zombie;;
  thread_reap zombie.

(** [THREAD_FOREACH_SAFE(th, next, list) body]: the successor is read before
    the body runs.  [fuel] bounds the number of descriptors. *)
Fixpoint foreach_safe (fuel : nat) (th next : option loc) (body : loc -> M threads unit) : M threads unit :=
  match th with
  | None => mret tt
  | Some p =>
    match fuel with
    | O => nofuel
    | S fuel =>
      body p;;
      next' ← match next with Some q => n ← load q; mret (n_next n) | None => mret None end;
      foreach_safe fuel next next' body
    end
  end.
Definition thread_foreach_safe (get : threads -> option loc) (body : loc -> M threads unit) : M threads unit :=
  t ← Prelude.get;
  let h := get t in
  next ← match h with Some p => n ← load p; mret (n_next n) | None => mret None end;
  foreach_safe (S (size (heap t))) h next body.

Definition zombie_list_filter : M threads unit :=
  zombie_list_acquire;;
  thread_foreach_safe (fun t => head (zombie_list t)) (fun th =>
    x ← load th; if n_joined x then zombie_list_remove th else mret tt);;
  zombie_list_release.

(** [zombie_list_destroy] up to [pthread_mutex_destroy]. *)
Definition zombie_list_destroy : M threads unit :=
  zombie_list_acquire;;
  thread_foreach_safe (fun t => head (zombie_list t)) thread_reap;;
  zombie_list_release;;
  modify (zl_lock Dead).

(** The middle of [thread_list_destroy]. *)
Definition thread_list_free : M threads unit :=
  thread_list_acquire;;
  thread_foreach_safe (fun t => head (thread_list t)) thread_reap;;
  thread_list_release;;
  modify (tl_lock Dead).

(** ** The lists they represent *)

(** A segment of a list: its descriptors, the one before and the one after. *)
Fixpoint seg (h : gmap loc tnode) (before : option loc) (l : list loc) (after : option loc) : Prop :=
  match l with
  | [] => True
  | p :: l' =>
    (exists n, h !! p = Some n /\ n_next n = match l' with [] => after | q :: _ => Some q end /\ n_prev n = before) /\
    seg h (Some p) l' after
  end.
Definition first (l : list loc) (after : option loc) : option loc := match l with [] => after | q :: _ => Some q end.
Definition final (b : option loc) (l : list loc) : option loc := match last l with Some x => Some x | None => b end.

Lemma links_app h b l1 l2 a : seg h b (l1 ++ l2) a <-> seg h b l1 (first l2 a) /\ seg h (final b l1) l2 a.
Proof.
  revert b. induction l1 as [|p l1 IH]; intros b; cbn [seg app]; [cbn; tauto|]. rewrite IH.
  assert (final b (p :: l1) = final (Some p) l1) as ->.
  { unfold final. destruct l1 as [|q l1]; [done|]. rewrite last_cons_cons. by destruct (last (q :: l1)) eqn:E; [|apply last_None in E]. }
  destruct l1 as [|q l1]; cbn [app first]; [|tauto]. destruct l2; cbn; tauto.
Qed.
Lemma seg_ext h h' b l a : (forall q, q ∈ l -> h' !! q = h !! q) -> seg h b l a -> seg h' b l a.
Proof.
  revert b. induction l as [|p l IH]; intros b He Hs; [done|]. destruct Hs as [(n & Hn & Hnp) Hs]. split.
  - exists n. rewrite He by left. done.
  - apply IH; [|done]. intros q Hq. apply He. by right.
Qed.
Lemma links_lookup h b l a p : seg h b l a -> p ∈ l -> is_Some (h !! p).
Proof.
  revert b. induction l as [|q l IH]; intros b Hs Hp; [by apply elem_of_nil in Hp|].
  destruct Hs as [(n & Hn & _) Hs]. apply elem_of_cons in Hp as [-> |Hp]; [by eexists|by eapply IH].
Qed.
(** The head's predecessor, and the last one's successor, changed. *)
Lemma seg_before h b b' p l a n : p ∉ l -> h !! p = Some n -> seg h b (p :: l) a ->
  seg (<[p := set_prev b' n]> h) b' (p :: l) a.
Proof.
  intros Hp Hn [(n' & Hn' & Hnx & _) Hs]. assert (n' = n) as -> by congruence. split.
  - exists (set_prev b' n). rewrite lookup_insert_eq. done.
  - eapply seg_ext; [|exact Hs]. intros q Hq. rewrite lookup_insert_ne; [done|]. by intros ->.
Qed.
Lemma seg_after h b l p a a' n : p ∉ l -> h !! p = Some n -> seg h b (l ++ [p]) a ->
  seg (<[p := set_next a' n]> h) b (l ++ [p]) a'.
Proof.
  intros Hp Hn [Hl [(n' & Hn' & _ & Hpr) _]]%links_app. assert (n' = n) as -> by congruence. apply links_app. split.
  - eapply seg_ext; [|exact Hl]. intros q Hq. rewrite lookup_insert_ne; [done|]. by intros ->.
  - split; [|done]. exists (set_next a' n). rewrite lookup_insert_eq. done.
Qed.

(** A descriptor without its links: what the list operations keep. *)
Definition body (n : tnode) : tnode := set_next None (set_prev None n).
Definition bodies (h : gmap loc tnode) : gmap loc tnode := body <$> h.
Lemma bodies_same h p n n' : h !! p = Some n -> body n' = body n -> bodies (<[p := n']> h) = bodies h.
Proof.
  intros Hn Hb. unfold bodies. rewrite fmap_insert. rewrite insert_id; [done|]. by rewrite lookup_fmap, Hn, Hb.
Qed.

Lemma node_load_ret t p x : heap t !! p = Some x -> load p t = Ret x t.
Proof. intros E. unfold load. mrun. by rewrite E. Qed.
Lemma node_store_ret t p f x : heap t !! p = Some x -> store p f t = Ret tt (put_heap (<[p := f x]> (heap t)) t).
Proof. intros E. unfold store. by rewrite (bind_ret _ _ _ _ _ (node_load_ret _ _ _ E)). Qed.
Lemma node_free_ret t p x : heap t !! p = Some x -> free_node p t = Ret tt (put_heap (delete p (heap t)) t).
Proof. intros E. unfold free_node. by rewrite (bind_ret _ _ _ _ _ (node_load_ret _ _ _ E)). Qed.

(** Where a descriptor of a list is. *)
Lemma split_list l1 th (l2 : list loc) : NoDup (l1 ++ th :: l2) ->
  NoDup (l1 ++ l2) /\ th ∉ l1 ++ l2.
Proof.
  intros Hnd. assert (l1 ++ th :: l2 ≡ₚ th :: (l1 ++ l2)) as Hp by (symmetry; apply Permutation_middle).
  rewrite Hp in Hnd. apply NoDup_cons in Hnd. tauto.
Qed.

(** The second half of [unlink]: the successor gets the new predecessor. *)
Lemma unlink_next t l1 th l2 x : heap t !! th = Some x -> n_next x = first l2 None -> n_prev x = final None l1 ->
  th ∉ l1 ++ l2 -> NoDup (l1 ++ l2) -> seg (heap t) None l1 (first l2 None) -> seg (heap t) (Some th) l2 None ->
  exists h', (x ← load th; match n_next x with Some q => store q (set_prev (n_prev x)) | None => mret tt end) t =
      Ret tt (put_heap h' t) /\
    seg h' None (l1 ++ l2) None /\ bodies h' = bodies (heap t) /\
    (forall q, q ∉ l2 -> h' !! q = heap t !! q).
Proof.
  intros Hx Hnx Hpx Hth Hnd Hs1 Hs2. erewrite bind_ret by (by apply node_load_ret). rewrite Hnx, Hpx.
  destruct l2 as [|r l2]; cbn [first] in *.
  - exists (heap t). split; [by destruct t|]. split; [by rewrite app_nil_r|]. done.
  - pose proof Hs2 as [(n & Hn & _) _]. exists (<[r := set_prev (final None l1) n]> (heap t)).
    split; [by apply node_store_ret|]. apply NoDup_app in Hnd as (Hnd1 & Hdis & Hnd2). apply NoDup_cons in Hnd2 as [Hr Hnd2].
    split; [|split].
    + apply links_app. split.
      * eapply seg_ext; [|exact Hs1]. intros q Hq. apply lookup_insert_ne. intros <-. by apply (Hdis r Hq); left.
      * by apply (seg_before _ (Some th)).
    + by eapply bodies_same.
    + intros q Hq%not_elem_of_cons. destruct Hq. by apply lookup_insert_ne.
Qed.

Section one_list.
(** One of the two list heads. *)
Variable get : threads -> option loc.
Variable set : option loc -> threads -> threads.
Hypothesis get_set : forall p t, get (set p t) = p.
Hypothesis set_get : forall t, set (get t) t = t.
Hypothesis get_heap : forall h t, get (put_heap h t) = get t.
Hypothesis heap_set : forall p t, heap (set p t) = heap t.
Hypothesis set_heap : forall p h t, put_heap h (set p t) = set p (put_heap h t).
Hypothesis set_set : forall p q t, set p (set q t) = set p t.

(** The head points to the list, and the nodes are linked. *)
Definition is_list (t : threads) (l : list loc) : Prop := get t = first l None /\ seg (heap t) None l None /\ NoDup l.

Lemma put_heap_twice h h' t : put_heap h' (put_heap h t) = put_heap h' t.
Proof. done. Qed.

Lemma push_ok t l th x : is_list t l -> th ∉ l -> heap t !! th = Some x ->
  exists h', push get set th t = Ret tt (set (Some th) (put_heap h' t)) /\
    is_list (set (Some th) (put_heap h' t)) (th :: l) /\ bodies h' = bodies (heap t) /\
    (forall q, q ∉ th :: l -> h' !! q = heap t !! q).
Proof.
  intros (Hg & Hs & Hnd) Hth Hx. unfold push. erewrite bind_ret by done. rewrite Hg.
  erewrite bind_ret by (by apply node_store_ret). cbn [heap put_heap].
  erewrite bind_ret by (apply node_store_ret; apply lookup_insert_eq). cbn [heap put_heap]. rewrite insert_insert_eq.
  set (y := set_prev None (set_next (first l None) x)).
  erewrite bind_ret by (apply node_load_ret; apply lookup_insert_eq).
  change (n_next y) with (first l None). set (h1 := <[th := y]> (heap t)).
  assert (bodies h1 = bodies (heap t)) as Hb1 by (by eapply bodies_same).
  destruct l as [|q l]; cbn [first].
  - rewrite (bind_ret (mret tt) _ _ tt _ eq_refl). exists h1. split; [done|]. split; [|split; [done|]].
    + split; [apply get_set|]. rewrite heap_set. split; [|apply NoDup_singleton]. split; [|done].
      exists y. split; [apply lookup_insert_eq|done].
    + intros q Hq%not_elem_of_cons. destruct Hq. by apply lookup_insert_ne.
  - apply not_elem_of_cons in Hth as [Hne Hth]. pose proof Hs as [(n & Hn & Hnp) _].
    assert (h1 !! q = Some n) as Hq1 by (unfold h1; by rewrite lookup_insert_ne).
    erewrite bind_ret by (apply node_store_ret; exact Hq1). cbn [heap put_heap].
    set (h2 := <[q := set_prev (Some th) n]> h1). exists h2. split; [done|]. split; [|split].
    + split; [apply get_set|]. rewrite heap_set. cbn [heap put_heap]. split.
      2:{ constructor; [|done]. by apply not_elem_of_cons. }
      split. { exists y. split; [|done]. unfold h2. rewrite lookup_insert_ne by done. apply lookup_insert_eq. }
      apply NoDup_cons in Hnd as [Hql _]. apply (seg_before _ None); [done|exact Hq1|].
      eapply seg_ext; [|exact Hs]. intros r Hr. unfold h1. rewrite lookup_insert_ne; [done|].
      intros ->. apply elem_of_cons in Hr as [-> |Hr]; done.
    + unfold h2. rewrite (bodies_same h1 q n) by done. done.
    + intros r Hr%not_elem_of_cons. destruct Hr as [Hr1 Hr2]. apply not_elem_of_cons in Hr2 as [Hr2 _].
      unfold h2, h1. by rewrite !lookup_insert_ne by done.
Qed.

Lemma unlink_ok t l1 th l2 : is_list t (l1 ++ th :: l2) ->
  exists h', unlink get set th t = Ret tt (set (first (l1 ++ l2) None) (put_heap h' t)) /\
    is_list (set (first (l1 ++ l2) None) (put_heap h' t)) (l1 ++ l2) /\ bodies h' = bodies (heap t) /\
    (forall q, q ∉ l1 ++ l2 -> h' !! q = heap t !! q).
Proof.
  intros (Hg & Hs & Hnd). destruct (split_list l1 th l2 Hnd) as [Hnd' Hth].
  pose proof Hs as [Hs1 [(x & Hx & Hnx & Hpx) Hs2]]%links_app. fold (first l2 None) in Hnx.
  unfold unlink. erewrite bind_ret by (by apply node_load_ret). rewrite Hpx, Hnx. cbn [first] in Hs1.
  destruct (decide (l1 = [])) as [-> |Hl1].
  - cbn [final last app] in *. erewrite bind_ret.
    2:{ erewrite bind_ret by done. rewrite Hg. cbn [first]. rewrite bool_decide_eq_true_2 by done. reflexivity. }
    destruct (unlink_next (set (first l2 None) t) [] th l2 x) as (h' & E & Hs' & Hb & Ho); rewrite ?heap_set; try done.
    exists h'. rewrite E, set_heap. split; [done|]. rewrite heap_set in Hb, Ho. split; [|split; [done|done]].
    split; [apply get_set|]. rewrite heap_set. done.
  - destruct l1 as [|q l1 _] using rev_ind; [done|]. clear Hl1.
    assert (final None (l1 ++ [q]) = Some q) as Hf by (unfold final; by rewrite last_snoc).
    rewrite Hf in *. destruct (links_lookup _ _ _ _ q Hs1) as [n Hn]; [apply elem_of_app; right; left|].
    assert (th <> q) as Hne by (intros ->; apply Hth; rewrite !elem_of_app; left; right; left).
    erewrite bind_ret by (by apply node_store_ret). set (h1 := <[q := set_next (first l2 None) n]> (heap t)).
    pose proof Hnd' as (Hn1 & Hdis & Hn2)%NoDup_app. apply NoDup_app in Hn1 as (_ & Hq & _).
    assert (q ∉ l1) as Hql1 by (intros Hi; apply (Hq _ Hi); left).
    assert (q ∉ l2) as Hql2 by (apply Hdis, elem_of_app; right; left).
    destruct (unlink_next (put_heap h1 t) (l1 ++ [q]) th l2 x) as (h' & E & Hs' & Hb & Ho); try done.
    + cbn. unfold h1. by rewrite lookup_insert_ne.
    + by rewrite Hf.
    + by apply (seg_after _ _ _ _ (Some th)).
    + cbn. eapply seg_ext; [|exact Hs2]. intros r Hr. apply lookup_insert_ne. by intros <-.
    + cbn [heap put_heap] in Hb, Ho.
      exists h'. assert (first ((l1 ++ [q]) ++ l2) None = get (put_heap h' t)) as ->.
      { rewrite get_heap, Hg. by destruct l1. }
      rewrite set_get, E. split; [done|].
      split; [split; [rewrite get_heap, Hg; by destruct l1|done]|]. split; [rewrite Hb; by eapply bodies_same|].
      intros r Hr. rewrite elem_of_app in Hr. rewrite Ho by tauto. apply lookup_insert_ne. intros <-.
      apply Hr. left. apply elem_of_app. right. left.
Qed.
End one_list.

Abbreviation running := (is_list (fun t => head (thread_list t))).
Abbreviation zombies := (is_list (fun t => head (zombie_list t))).

(** Both lists, apart from each other, of allocated descriptors. *)
Record rep (t : threads) (L Z : list loc) : Prop := {
  rep_l : running t L;
  rep_z : zombies t Z;
  rep_apart : forall p, p ∈ L -> p ∉ Z;
  rep_static : ckpt_thread ∉ L ++ Z;
  rep_fresh : forall p, is_Some (heap t !! p) -> (p < next_loc t)%positive
}.

(** What list operations leave alone. *)
Record list_frame (t t' : threads) : Prop := {
  lf_next : next_loc t' = next_loc t;
  lf_mtx : ckpt_mtx t' = ckpt_mtx t;
  lf_self : myself t' = myself t /\ _main_thread t' = _main_thread t;
  lf_tl : lock (thread_list t') = lock (thread_list t);
  lf_zl : lock (zombie_list t') = lock (zombie_list t)
}.
Lemma list_frame_refl t : list_frame t t.
Proof. by split. Qed.
Lemma list_frame_trans t1 t2 t3 : list_frame t1 t2 -> list_frame t2 t3 -> list_frame t1 t3.
Proof. intros [] []. split; try congruence. destruct lf_self0, lf_self1. split; congruence. Qed.

Lemma bodies_some h h' p : bodies h' = bodies h -> is_Some (h' !! p) -> is_Some (h !! p).
Proof.
  intros Hb [n Hn]. assert (bodies h' !! p = Some (body n)) as H by (unfold bodies; by rewrite lookup_fmap, Hn).
  rewrite Hb in H. unfold bodies in H. rewrite lookup_fmap in H. destruct (h !! p) as [x|]; [by exists x|done].
Qed.
Lemma bodies_body h h' p n : bodies h' = bodies h -> h !! p = Some n -> exists n', h' !! p = Some n' /\ body n' = body n.
Proof.
  intros Hb Hn. assert (bodies h' !! p = Some (body n)) as H by (rewrite Hb; unfold bodies; by rewrite lookup_fmap, Hn).
  unfold bodies in H. rewrite lookup_fmap in H. destruct (h' !! p) as [n'|]; [|done]. exists n'. split; [done|]. cbn in H. congruence.
Qed.
Lemma body_joined n n' : body n' = body n -> n_joined n' = n_joined n.
Proof. intros E. exact (f_equal n_joined E). Qed.
Lemma bodies_delete h p : bodies (delete p h) = delete p (bodies h).
Proof. apply fmap_delete. Qed.

Lemma list_other get t t' l : is_list get t l -> get t' = get t -> (forall q, q ∈ l -> heap t' !! q = heap t !! q) ->
  is_list get t' l.
Proof. intros (Hg & Hs & Hn) He Hh. split; [by rewrite He|]. split; [by eapply seg_ext|done]. Qed.
Lemma list_lookup get t l p : is_list get t l -> p ∈ l -> exists n, heap t !! p = Some n.
Proof. intros (_ & Hs & _) Hp. destruct (links_lookup _ _ _ _ _ Hs Hp) as [n Hn]. by exists n. Qed.

(** [thread_list_add] by a new thread. *)
Lemma thread_list_add_ok t L Z me x : rep t L Z -> lock (thread_list t) = Free -> myself t = Some me ->
  me ∉ L ++ Z -> me <> ckpt_thread -> heap t !! me = Some x ->
  returns thread_list_add t (fun _ t' => rep t' (me :: L) Z /\ bodies (heap t') = bodies (heap t) /\ list_frame t t').
Proof.
  intros [Hl Hz Ha Hst Hf] Hlk Hme Hin Hne Hx. unfold thread_list_add, thread_list_acquire, or_abort, mutex_lock.
  unfold returns. erewrite bind_ret; [|erewrite bind_ret; [|erewrite bind_ret by done; rewrite Hlk; reflexivity]; reflexivity].
  erewrite bind_ret by done. change (myself (tl_lock Held t)) with (myself t). rewrite Hme. rewrite elem_of_app in Hin.
  destruct (push_ok (fun t => head (thread_list t)) tl_head ltac:(done) ltac:(done) (tl_lock Held t) L me x)
    as (h' & E & Hl' & Hb & Ho); [done|tauto|done|]. erewrite bind_ret by exact E.
  cbn. split; [|split; [exact Hb|split; cbn; auto]]. split; cbn.
  - exact Hl'.
  - eapply list_other; [exact Hz|done|]. intros q Hq. apply Ho. rewrite not_elem_of_cons. split; [by intros ->; apply Hin; right|].
    intros Hql. by apply (Ha q).
  - intros p [-> |Hp]%elem_of_cons; [tauto|by apply Ha].
  - rewrite elem_of_cons. intros [E'|E']; [by apply Hne|by apply Hst].
  - intros p Hp. apply Hf. by eapply bodies_some.
Qed.

(** An exited thread goes to the zombie list. *)
Lemma zombie_list_add_ok t L Z th x : rep t L Z -> lock (zombie_list t) = Free ->
  th ∉ L ++ Z -> th <> ckpt_thread -> heap t !! th = Some x -> n_joined x = false ->
  returns (zombie_list_add th) t (fun _ t' => rep t' L (th :: Z) /\ bodies (heap t') = bodies (heap t) /\ list_frame t t').
Proof.
  intros [Hl Hz Ha Hst Hf] Hlk Hin Hne Hx Hj. unfold zombie_list_add, zombie_list_acquire, or_abort, mutex_lock.
  unfold returns. erewrite bind_ret by (by apply node_load_ret). rewrite Hj.
  erewrite bind_ret; [|erewrite bind_ret; [|erewrite bind_ret by done; rewrite Hlk; reflexivity]; reflexivity].
  rewrite elem_of_app in Hin.
  destruct (push_ok (fun t => head (zombie_list t)) zl_head ltac:(done) ltac:(done) (zl_lock Held t) Z th x)
    as (h' & E & Hz' & Hb & Ho); [done|tauto|done|]. erewrite bind_ret by exact E.
  cbn. split; [|split; [exact Hb|split; cbn; auto]]. split; cbn.
  - eapply list_other; [exact Hl|done|]. intros q Hq. apply Ho. rewrite not_elem_of_cons. split; [by intros ->; apply Hin; left|].
    by apply Ha.
  - exact Hz'.
  - intros p Hp [-> |Hp']%elem_of_cons; [tauto|by apply (Ha p)].
  - rewrite elem_of_app, elem_of_cons. rewrite elem_of_app in Hst. intros [E'|[E'|E']]; [tauto|by apply Hne|tauto].
  - intros p Hp. apply Hf. by eapply bodies_some.
Qed.

Lemma apart_app (L1 L2 : list loc) th (Z : list loc) : NoDup (L1 ++ th :: L2) -> (forall p, p ∈ L1 ++ th :: L2 -> p ∉ Z) ->
  ckpt_thread ∉ (L1 ++ th :: L2) ++ Z ->
  th ∉ (L1 ++ L2) ++ Z /\ (forall p, p ∈ L1 ++ L2 -> p ∉ Z) /\ ckpt_thread ∉ (L1 ++ L2) ++ Z /\ th <> ckpt_thread.
Proof.
  intros Hnd Ha Hst. destruct (split_list _ _ _ Hnd) as [_ Hth].
  assert (th ∈ L1 ++ th :: L2) as Hin by (apply elem_of_app; right; left).
  assert (forall p, p ∈ L1 ++ L2 -> p ∈ L1 ++ th :: L2) as Hsub.
  { intros p. rewrite !elem_of_app, elem_of_cons. tauto. }
  split; [|split; [|split]].
  - rewrite elem_of_app. intros [?|?]; [done|]. by apply (Ha th).
  - intros p Hp. apply Ha, Hsub, Hp.
  - rewrite elem_of_app. intros [?|?]; apply Hst, elem_of_app; [left; by apply Hsub|by right].
  - intros ->. apply Hst, elem_of_app. by left.
Qed.

(** Unlinking from either list. *)
Lemma unlink_running t L1 th L2 Z : rep t (L1 ++ th :: L2) Z ->
  exists t', unlink (fun t => head (thread_list t)) tl_head th t = Ret tt t' /\
    rep t' (L1 ++ L2) Z /\ bodies (heap t') = bodies (heap t) /\ list_frame t t'.
Proof.
  intros [Hl Hz Ha Hst Hf]. pose proof Hl as (_ & _ & Hnd). destruct (apart_app _ _ _ _ Hnd Ha Hst) as (Hth & Ha' & Hst' & Hne).
  destruct (unlink_ok (fun t => head (thread_list t)) tl_head ltac:(done) ltac:(by intros [? ? [] ? ? ? ?])
    ltac:(done) ltac:(done) ltac:(done) t L1 th L2 Hl) as (h' & E & Hl' & Hb & Ho).
  eexists. split; [exact E|]. split; [|split; [exact Hb|by split]]. split.
  - exact Hl'.
  - eapply list_other; [exact Hz|done|]. intros q Hq. apply Ho. intros Hi. by apply (Ha' q).
  - exact Ha'. - exact Hst'.
  - intros p Hp. apply Hf. by eapply bodies_some.
Qed.
Lemma unlink_zombie t L Z1 th Z2 : rep t L (Z1 ++ th :: Z2) ->
  exists t', unlink (fun t => head (zombie_list t)) zl_head th t = Ret tt t' /\
    rep t' L (Z1 ++ Z2) /\ bodies (heap t') = bodies (heap t) /\ list_frame t t' /\ th ∉ L ++ Z1 ++ Z2.
Proof.
  intros [Hl Hz Ha Hst Hf]. pose proof Hz as (_ & _ & Hnd).
  destruct (apart_app Z1 Z2 th L Hnd) as (Hth & Ha' & Hst' & Hne).
  { intros p Hp Hp'. by apply (Ha p). } { rewrite !elem_of_app in *. tauto. }
  destruct (unlink_ok (fun t => head (zombie_list t)) zl_head ltac:(done) ltac:(by intros [? ? ? [] ? ? ?])
    ltac:(done) ltac:(done) ltac:(done) t Z1 th Z2 Hz) as (h' & E & Hz' & Hb & Ho).
  eexists. split; [exact E|]. split; [|split; [exact Hb|split; [by split|rewrite !elem_of_app in *; tauto]]]. split.
  - eapply list_other; [exact Hl|done|]. intros q Hq. apply Ho. intros Hi. by apply (Ha' q).
  - exact Hz'. - intros p Hp Hp'. by apply (Ha' p).
  - rewrite !elem_of_app in *. tauto.
  - intros p Hp. apply Hf. by eapply bodies_some.
Qed.

(** Freeing a descriptor that is on neither list. *)
Lemma reap_ok t L Z th : rep t L Z -> th ∉ L ++ Z -> is_Some (heap t !! th) ->
  exists t', thread_reap th t = Ret tt t' /\ rep t' L Z /\ bodies (heap t') = delete th (bodies (heap t)) /\ list_frame t t'.
Proof.
  intros [Hl Hz Ha Hst Hf] Hth [x Hx]. unfold thread_reap. rewrite (node_free_ret _ _ _ Hx). eexists. split; [done|].
  rewrite elem_of_app in Hth. split; [|split; [apply bodies_delete|by split]]. split; [| |done|done|].
  - eapply list_other; [exact Hl|done|]. intros q Hq. apply lookup_delete_ne. intros <-. tauto.
  - eapply list_other; [exact Hz|done|]. intros q Hq. apply lookup_delete_ne. intros <-. tauto.
  - intros p [n Hp]. cbn in Hp. apply lookup_delete_Some in Hp as [_ Hp]. apply Hf. by exists n.
Qed.

(** [thread_list_remove]: a joined thread's descriptor is freed, another's is
    moved to the zombie list. *)
Lemma thread_list_remove_ok t L1 th L2 Z x : rep t (L1 ++ th :: L2) Z -> lock (zombie_list t) = Free ->
  heap t !! th = Some x ->
  returns (thread_list_remove th) t (fun _ t' => list_frame t t' /\
    if n_joined x then rep t' (L1 ++ L2) Z /\ bodies (heap t') = delete th (bodies (heap t))
    else rep t' (L1 ++ L2) (th :: Z) /\ bodies (heap t') = bodies (heap t)).
Proof.
  intros Hr Hlk Hx. destruct (unlink_running t L1 th L2 Z Hr) as (t1 & E & Hr1 & Hb1 & Hf1).
  pose proof Hr as [(_ & _ & Hnd) _ Ha Hst _]. destruct (apart_app _ _ _ _ Hnd Ha Hst) as (Hth & _ & _ & Hne).
  destruct (bodies_body _ _ _ _ Hb1 Hx) as (x1 & Hx1 & Hbx). pose proof (body_joined _ _ Hbx) as Hj.
  unfold thread_list_remove. eapply returns_step; [exact E|]. eapply returns_step; [by apply node_load_ret|]. rewrite Hj.
  destruct (n_joined x) eqn:Ej.
  - destruct (reap_ok t1 _ _ th Hr1 Hth) as (t2 & E2 & Hr2 & Hb2 & Hf2); [by eexists|].
    eapply returns_intro; [exact E2|]. split; [by eapply list_frame_trans|]. split; [done|]. by rewrite Hb2, Hb1.
  - eapply returns_weaken; [apply (zombie_list_add_ok t1 (L1 ++ L2) Z th x1); [done| |done|done|done|by rewrite Hj]|].
    { by rewrite (lf_zl _ _ Hf1). }
    intros [] t2 (Hr2 & Hb2 & Hf2). split; [by eapply list_frame_trans|]. split; [done|]. by rewrite Hb2.
Qed.

(** ** Traversals *)

Lemma links_size h b l a : NoDup l -> seg h b l a -> (length l <= size h)%nat.
Proof.
  revert h b. induction l as [|p l IH]; intros h b Hn Hs; cbn [length]; [lia|].
  destruct Hs as [(n & Hp & _) Hs]. apply NoDup_cons in Hn as [Hpn Hn].
  assert (seg (delete p h) (Some p) l a) as Hs'.
  { eapply seg_ext; [|exact Hs]. intros q Hq. apply lookup_delete_ne. by intros ->. }
  specialize (IH (delete p h) (Some p) Hn Hs').
  rewrite <- (insert_delete_id h p _ Hp), map_size_insert_None by apply lookup_delete_eq. lia.
Qed.

(** A traversal whose body keeps the links of what follows visits each
    descriptor once. *)
Lemma foreach_safe_links (I : list loc -> threads -> Prop) bdy fuel l t :
  (length l < fuel)%nat -> I l t ->
  (forall p l t, I (p :: l) t -> returns (bdy p) t (fun _ => I l)) ->
  (forall p l t, I (p :: l) t -> exists n, heap t !! p = Some n /\ n_next n = first l None) ->
  returns (foreach_safe fuel (first l None) (first (tail l) None) bdy) t (fun _ => I []).
Proof.
  intros Hf Hi Hb Hn. revert fuel t Hf Hi. induction l as [|p l IH]; intros fuel t Hf Hi.
  - destruct fuel; by apply returns_ret.
  - destruct fuel as [|fuel]; [cbn in Hf; lia|]. cbn [first tail foreach_safe]. apply returns_bind.
    eapply returns_weaken; [by apply Hb|]. intros [] t1 Hi1. cbn in Hf. destruct l as [|q l]; cbn [first].
    + eapply returns_step; [reflexivity|]. apply (IH fuel t1); [cbn; lia|done].
    + destruct (Hn _ _ _ Hi1) as (n & Hq & Hnx). eapply returns_step.
      { erewrite bind_ret by (by apply node_load_ret). reflexivity. }
      rewrite Hnx. apply (IH fuel t1); [cbn in *; lia|done].
Qed.
Lemma thread_foreach_rule get (I : list loc -> threads -> Prop) bdy l t : is_list get t l -> I l t ->
  (forall p l t, I (p :: l) t -> returns (bdy p) t (fun _ => I l)) ->
  (forall p l t, I (p :: l) t -> exists n, heap t !! p = Some n /\ n_next n = first l None) ->
  returns (thread_foreach_safe get bdy) t (fun _ => I []).
Proof.
  intros (Hg & Hs & Hnd) Hi Hb Hn. unfold thread_foreach_safe. eapply returns_step; [reflexivity|]. rewrite Hg.
  assert ((match first l None with Some p => n ← load p; mret (n_next n) | None => mret None end) t =
    Ret (first (tail l) None) t) as E.
  { destruct l as [|p l]; [done|]. destruct (Hn _ _ _ Hi) as (n & Hp & Hnx). cbn [first tail].
    erewrite bind_ret by (by apply node_load_ret). by rewrite Hnx. }
  eapply returns_step; [exact E|]. pose proof (links_size _ _ _ _ Hnd Hs). apply foreach_safe_links; [lia|done|done|done].
Qed.

(** Every descriptor of a list freed; the head still points to the first. *)
Definition without (l : list loc) (h : gmap loc tnode) : gmap loc tnode := filter (fun it => it.1 ∉ l) h.
Lemma lookup_without l h p : without l h !! p = if decide (p ∈ l) then None else h !! p.
Proof.
  unfold without. rewrite map_lookup_filter. destruct (h !! p) as [n|] eqn:E; cbn; [|by destruct (decide _)].
  destruct (decide (p ∈ l)).
  - rewrite option_guard_False; [done|]. cbn. tauto.
  - by rewrite option_guard_True.
Qed.
Lemma free_list_ok get l t : is_list get t l ->
  returns (thread_foreach_safe get thread_reap) t (fun _ t' => t' = put_heap (without l (heap t)) t).
Proof.
  intros Hl. pose proof Hl as (Hg & Hs & Hnd).
  eapply returns_weaken; [apply (thread_foreach_rule get (fun rest t' => exists fin b, l = fin ++ rest /\
    t' = put_heap (without fin (heap t)) t /\ seg (heap t') b rest None) _ l t Hl)|].
  - exists [], None. split; [done|]. split; [|done]. destruct t. unfold put_heap. cbn. f_equal. symmetry.
    apply map_filter_id. cbn. intros. apply not_elem_of_nil.
  - intros p rest t' (fin & b & -> & -> & (n & Hp & _ & _) & Hs'). unfold thread_reap. unfold returns.
    rewrite (node_free_ret _ _ _ Hp). exists (fin ++ [p]), (Some p). split; [by rewrite <- app_assoc|]. cbn in *.
    assert (delete p (without fin (heap t)) = without (fin ++ [p]) (heap t)) as ->.
    { apply map_eq. intros q. rewrite lookup_without. destruct (decide (q = p)) as [-> |Hne].
      - rewrite lookup_delete_eq, decide_True; [done|]. apply elem_of_app. right. left.
      - rewrite lookup_delete_ne, lookup_without by done. apply decide_ext. rewrite elem_of_app, list_elem_of_singleton. tauto. }
    split; [done|]. eapply seg_ext; [|exact Hs']. intros q Hq. rewrite !lookup_without. apply decide_ext.
    rewrite elem_of_app, list_elem_of_singleton. split; [|tauto]. intros [?|[= ->]]; [done|].
    apply NoDup_app in Hnd as (_ & _ & Hnd). by apply NoDup_cons in Hnd as [? _].
  - intros p rest t' (fin & b & _ & _ & (n & Hp & Hnx & _) & _). exists n. split; [done|]. by rewrite Hnx; destruct rest.
  - cbn beta. intros _ t' (fin & b & -> & -> & _). by rewrite app_nil_r.
Qed.

(** [zombie_list_filter]: the joined zombies are freed, the others stay in
    order. *)
Definition joined_in (h : gmap loc tnode) (p : loc) : bool := from_option n_joined false (h !! p).
Definition reaped (l : list loc) (h : gmap loc tnode) : gmap loc tnode := filter (fun it => ~ (it.1 ∈ l /\ n_joined it.2 = true)) h.
Lemma reaped_nil h : reaped [] h = h.
Proof. apply map_filter_id. cbn. intros p n _ [Hp _]. by apply elem_of_nil in Hp. Qed.
Lemma lookup_reaped l h p n : reaped l h !! p = Some n <-> h !! p = Some n /\ ~ (p ∈ l /\ n_joined n = true).
Proof. unfold reaped. apply map_lookup_filter_Some. Qed.
Lemma reaped_snoc l p h n : h !! p = Some n -> p ∉ l ->
  reaped (l ++ [p]) h = if n_joined n then delete p (reaped l h) else reaped l h.
Proof.
  intros Hn Hp. apply map_eq. intros q. apply option_eq. intros x. rewrite lookup_reaped, elem_of_app, list_elem_of_singleton.
  destruct (n_joined n) eqn:Ej.
  - rewrite lookup_delete_Some, lookup_reaped. destruct (decide (q = p)) as [-> |].
    + split; [|naive_solver]. intros [Hx Hnot]. assert (x = n) as -> by congruence. destruct Hnot. split; [by right|done].
    + naive_solver.
  - rewrite lookup_reaped. split; intros [Hx Hnot]; (split; [done|]); intros [Hq Hj]; apply Hnot; split; try done.
    + by left.
    + destruct Hq as [|[= ->]]; [done|]. congruence.
Qed.
Lemma joined_bodies h p : joined_in (bodies h) p = joined_in h p.
Proof. unfold joined_in, bodies. rewrite lookup_fmap. by destruct (h !! p). Qed.

Lemma filter_list_ok t L Z : rep t L Z ->
  returns (thread_foreach_safe (fun t => head (zombie_list t)) (fun th =>
    x ← load th; if n_joined x then zombie_list_remove th else mret tt)) t (fun _ t' =>
    rep t' L (filter (fun p => joined_in (heap t) p = false) Z) /\ bodies (heap t') = reaped Z (bodies (heap t)) /\ list_frame t t').
Proof.
  intros Hr. set (h0 := bodies (heap t)).
  set (I := fun rest t' => exists fin, Z = fin ++ rest /\
    rep t' L (filter (fun p => joined_in h0 p = false) fin ++ rest) /\ bodies (heap t') = reaped fin h0 /\ list_frame t t').
  assert (forall p rest t', I (p :: rest) t' -> exists n, heap t' !! p = Some n /\ n_next n = first rest None) as Hnext.
  { intros p rest t' (fin & _ & Hr' & _ & _). destruct (rep_z _ _ _ Hr') as (_ & [_ Hs]%links_app & _).
    destruct Hs as [(n & Hn & Hnx & _) _]. exists n. split; [done|]. rewrite Hnx. by destruct rest. }
  eapply returns_weaken; [apply (thread_foreach_rule _ I _ Z t)|].
  - apply Hr.
  - exists []. split; [done|]. split; [done|]. by rewrite reaped_nil.
  - intros p rest t' Hi. destruct (Hnext _ _ _ Hi) as (n & Hn & _). destruct Hi as (fin & -> & Hr' & Hb & Hf).
    pose proof (rep_z _ _ _ Hr) as (_ & _ & Hnd).
    assert (p ∉ fin) as Hpf. { apply NoDup_app in Hnd as (_ & Hd & _). intros Hi. apply (Hd _ Hi). left. }
    assert (exists n0, h0 !! p = Some n0 /\ n_joined n0 = n_joined n) as (n0 & Hn0 & Hj0).
    { assert (bodies (heap t') !! p = Some (body n)) as Hx by (unfold bodies; by rewrite lookup_fmap, Hn).
      rewrite Hb in Hx. apply lookup_reaped in Hx as [Hx _]. by exists (body n). }
    assert (filter (fun q => joined_in h0 q = false) (fin ++ [p]) =
      filter (fun q => joined_in h0 q = false) fin ++ if n_joined n then [] else [p]) as Hfl.
    { rewrite filter_app. f_equal. unfold joined_in. rewrite filter_cons, Hn0. cbn. rewrite Hj0. by destruct (n_joined n). }
    eapply returns_step; [by apply node_load_ret|]. destruct (n_joined n) eqn:Ej.
    + destruct (unlink_zombie t' L _ p rest Hr') as (t1 & E1 & Hr1 & Hb1 & Hf1 & Hout).
      destruct (bodies_body _ _ _ _ Hb1 Hn) as (n1 & Hn1 & _).
      destruct (reap_ok t1 L _ p Hr1 Hout) as (t2 & E2 & Hr2 & Hb2 & Hf2); [by eexists|].
      unfold zombie_list_remove. eapply returns_step; [by apply node_load_ret|]. rewrite Ej.
      eapply returns_step; [reflexivity|]. eapply returns_step; [exact E1|]. eapply returns_intro; [exact E2|].
      exists (fin ++ [p]). split; [by rewrite <- app_assoc|]. rewrite Hfl, app_nil_r. split; [done|].
      split; [|by eapply list_frame_trans, list_frame_trans]. rewrite (reaped_snoc _ _ _ _ Hn0 Hpf), Hj0, Hb2, Hb1. by rewrite Hb.
    + apply returns_ret. exists (fin ++ [p]). split; [by rewrite <- app_assoc|]. rewrite Hfl, <- app_assoc. split; [done|].
      split; [|done]. by rewrite (reaped_snoc _ _ _ _ Hn0 Hpf), Hj0.
  - exact Hnext.
  - cbn beta. intros _ t' (fin & -> & Hr' & Hb & Hf). rewrite !app_nil_r in *. split; [|done].
    erewrite list_filter_iff; [exact Hr'|]. intros p. unfold h0. cbn. by rewrite joined_bodies.
Qed.

Lemma zombie_list_filter_ok t L Z : rep t L Z -> lock (zombie_list t) = Free ->
  returns zombie_list_filter t (fun _ t' =>
    rep t' L (filter (fun p => joined_in (heap t) p = false) Z) /\ bodies (heap t') = reaped Z (bodies (heap t)) /\ list_frame t t').
Proof.
  intros Hr Hlk. unfold zombie_list_filter, zombie_list_acquire, or_abort, mutex_lock.
  eapply returns_step; [erewrite bind_ret; [|erewrite bind_ret by done; rewrite Hlk; reflexivity]; reflexivity|].
  apply returns_bind. eapply returns_weaken; [apply (filter_list_ok _ L Z)|].
  { destruct Hr as [Hl Hz Ha Hst Hf]. by split. }
  intros [] t' (Hr' & Hb & Hf). unfold zombie_list_release, or_abort, mutex_unlock, returns.
  pose proof (lf_zl _ _ Hf) as Hz'. cbn in Hz'. erewrite bind_ret by (erewrite bind_ret by done; rewrite Hz'; reflexivity).
  cbn. split; [|split; [exact Hb|]].
  - destruct Hr' as [Hl Hz Ha Hst Hfr]. by split.
  - destruct Hf as [? ? ? ? ?]. split; cbn in *; auto.
Qed.

(** ** Locks *)

Lemma lock_free get set (t : threads) : get t = Free -> mutex_lock get set t = Ret 0 (set Held t).
Proof. intros E. unfold mutex_lock. erewrite bind_ret by done. by rewrite E. Qed.
Lemma unlock_held get set (t : threads) : get t = Held -> mutex_unlock get set t = Ret 0 (set Free t).
Proof. intros E. unfold mutex_unlock. erewrite bind_ret by done. by rewrite E. Qed.
Lemma or_abort_ok (m : M threads Z) t t' : m t = Ret 0 t' -> or_abort m t = Ret tt t'.
Proof. intros E. unfold or_abort. by erewrite bind_ret by exact E. Qed.

(** Every lock of the thread lists in one state: [Free] while the program
    runs, [Held] by the thread that forks. *)
Record locks_are (m : mutex) (t : threads) (L Z : list loc) : Prop := {
  la_rep : rep t L Z;
  la_tl : lock (thread_list t) = m;
  la_zl : lock (zombie_list t) = m;
  la_mtx : ckpt_mtx t = m;
  la_ckpt : exists c, heap t !! ckpt_thread = Some c /\ n_lock c = m
}.
Abbreviation settled := (locks_are Free).
Abbreviation forking := (locks_are Held).

Lemma next_loc_fresh t L Z c : rep t L Z -> heap t !! ckpt_thread = Some c ->
  next_loc t <> ckpt_thread /\ next_loc t ∉ L ++ Z /\ heap t !! next_loc t = None.
Proof.
  intros Hr Hc. assert (heap t !! next_loc t = None) as Hn.
  { destruct (heap t !! next_loc t) eqn:E; [|done]. pose proof (rep_fresh _ _ _ Hr _ (ex_intro _ _ E)). lia. }
  split; [congruence|]. split; [|done]. rewrite elem_of_app. intros [Hi|Hi].
  - destruct (list_lookup _ _ _ _ (rep_l _ _ _ Hr) Hi). congruence.
  - destruct (list_lookup _ _ _ _ (rep_z _ _ _ Hr) Hi). congruence.
Qed.

Lemma without_app (L Z : list loc) h : without Z (without L h) = without (L ++ Z) h.
Proof.
  apply map_eq. intros p. rewrite !lookup_without. destruct (decide (p ∈ Z)), (decide (p ∈ L)).
  all: try (rewrite decide_True by (apply elem_of_app; tauto); done).
  rewrite decide_False; [done|]. rewrite elem_of_app. tauto.
Qed.

(** The statics with every lock of the thread lists held. *)
Definition held (t : threads) : threads :=
  put_heap (alter (set_nlock Held) ckpt_thread (heap t)) (zl_lock Held (tl_lock Held (put_mtx Held t))).

Lemma alter_ckpt (f : tnode -> tnode) c (h : gmap loc tnode) : h !! ckpt_thread = Some c -> alter f ckpt_thread h = <[ckpt_thread := f c]> h.
Proof.
  intros Hc. apply map_eq. intros q. destruct (decide (q = ckpt_thread)) as [-> |].
  - by rewrite lookup_alter_eq, lookup_insert_eq, Hc.
  - by rewrite lookup_alter_ne, lookup_insert_ne.
Qed.
Lemma rep_ext t t' L Z : rep t L Z -> (forall q, q ∈ L ++ Z -> heap t' !! q = heap t !! q) ->
  head (thread_list t') = head (thread_list t) -> head (zombie_list t') = head (zombie_list t) ->
  (forall q, is_Some (heap t' !! q) -> is_Some (heap t !! q)) -> next_loc t' = next_loc t -> rep t' L Z.
Proof.
  intros [Hl Hz Ha Hs Hf] Hh Htl Hzl Hd Hn. split; [| |done|done|].
  - eapply list_other; [exact Hl|exact Htl|]. intros q Hq. apply Hh, elem_of_app. by left.
  - eapply list_other; [exact Hz|exact Hzl|]. intros q Hq. apply Hh, elem_of_app. by right.
  - intros q Hq. rewrite Hn. by apply Hf, Hd.
Qed.
Lemma held_forking t L Z : settled t L Z -> forking (held t) L Z.
Proof.
  intros [Hr Htl Hzl Hm (c & Hc & Hcl)]. split; try done.
  - eapply rep_ext; [exact Hr| |done|done| |done].
    + intros q Hq. cbn. apply lookup_alter_ne. intros <-. by apply (rep_static _ _ _ Hr).
    + intros q Hq. cbn in Hq. apply lookup_alter_is_Some in Hq. exact Hq.
  - exists (set_nlock Held c). cbn. by rewrite lookup_alter_eq, Hc.
Qed.
