(* ===== verification/ThreadListProps.v ===== *)
(** The linked lists of [ThreadList] implement the lists of [Threads]: what is
    proved of every interleaving there holds of the pointers here. *)

From S2P Require Import Prelude Process Threads ThreadList.
Open Scope Z_scope.

(** The descriptor at [p] is thread [key p]. *)
Definition key (p : loc) : tid := Pos.to_nat p.
#[global] Instance key_inj : Inj eq eq key.
Proof. intros p q. apply Pos2Nat.inj. Qed.

Definition agree (n : option tnode) (i : option thread_info) : Prop :=
  match n, i with
  | Some n, Some i => n_joined n = t_joined i /\ n_exiting n = t_exiting i
  | None, None => True
  | _, _ => False
  end.

(** The descriptors and lists of [t] are those of [w]. *)
Record implements (t : threads) (w : process) : Prop := {
  im_lists : exists L Z, rep t L Z /\ w_list w = key <$> L /\ w_zombies w = key <$> Z;
  im_nodes : forall p, p <> ckpt_thread -> agree (heap t !! p) (w_threads w !! key p);
  im_keys : forall i, is_Some (w_threads w !! i) -> exists p, i = key p
}.

Lemma agree_bodies h p i : agree (bodies h !! p) i <-> agree (h !! p) i.
Proof. unfold bodies. rewrite lookup_fmap. by destruct (h !! p), i. Qed.
Lemma agree_joined t w p : implements t w -> p <> ckpt_thread -> is_joined w (key p) = joined_in (heap t) p.
Proof.
  intros Him Hp. pose proof (im_nodes _ _ Him p Hp) as Ha. unfold is_joined, joined_in.
  destruct (heap t !! p), (w_threads w !! key p); cbn in *; naive_solver.
Qed.
Lemma in_keys (p : loc) (l : list loc) : key p ∈ key <$> l <-> p ∈ l.
Proof. rewrite list_elem_of_fmap. split; [intros (q & E%key_inj & Hq); by subst|intros Hp; by exists p]. Qed.
Lemma filter_key (p : loc) (l : list loc) :
  filter (fun j => j <> key p) (key <$> l) = key <$> filter (fun q => q <> p) l.
Proof.
  induction l as [|q l IH]; [done|]. rewrite fmap_cons, !filter_cons, IH.
  destruct (decide (q = p)) as [-> |Hne].
  - rewrite !decide_False; tauto.
  - rewrite !decide_True; [done|done|]. intros E. by apply Hne, key_inj.
Qed.
Lemma filter_out (l1 : list loc) p l2 : NoDup (l1 ++ p :: l2) -> filter (fun q => q <> p) (l1 ++ p :: l2) = l1 ++ l2.
Proof.
  intros Hnd. destruct (split_list _ _ _ Hnd) as [_ Hp]. rewrite elem_of_app in Hp.
  assert (forall l : list loc, p ∉ l -> filter (fun q => q <> p) l = l) as Hid.
  { induction l as [|q l IH]; intros Hl; [done|]. apply not_elem_of_cons in Hl as [? ?].
    rewrite filter_cons, decide_True, IH by done. done. }
  rewrite filter_app, filter_cons, decide_False by tauto. rewrite !Hid; tauto.
Qed.

Lemma add_implements t w p x : implements t w -> lock (thread_list t) = Free -> p <> ckpt_thread ->
  heap t !! p = Some x -> myself t = Some p -> key p ∉ w_list w ++ w_zombies w ->
  returns thread_list_add t (fun _ t' => list_frame t t' /\ implements t' (set_list (key p :: w_list w) w)).
Proof.
  intros [(L & Z & Hr & HL & HZ) Hn Hk] Hlk Hp Hx Hme Hin. rewrite HL, HZ, <- fmap_app, in_keys in Hin.
  eapply returns_weaken; [by apply (thread_list_add_ok t L Z p x)|]. intros [] t' (Hr' & Hb & Hf). split; [done|].
  split; [exists (p :: L), Z; rewrite HL; done| |exact Hk].
  intros q Hq. rewrite <- agree_bodies, Hb, agree_bodies. by apply Hn.
Qed.

Lemma remove_implements t w p x : implements t w -> lock (zombie_list t) = Free -> p <> ckpt_thread ->
  heap t !! p = Some x -> key p ∈ w_list w ->
  returns (ThreadList.thread_list_remove p) t (fun _ t' => list_frame t t' /\
    implements t' (Threads.thread_list_remove (key p) w)).
Proof.
  intros Him Hlk Hp Hx Hin. pose proof Him as [(L & Z & Hr & HL & HZ) Hn Hk].
  rewrite HL, in_keys in Hin. apply list_elem_of_split in Hin as (L1 & L2 & ->).
  pose proof (Hn p Hp) as Hpn. rewrite Hx in Hpn. destruct (w_threads w !! key p) as [i|] eqn:Ei; [|done].
  destruct Hpn as [Hj _]. pose proof (rep_l _ _ _ Hr) as (_ & _ & Hnd).
  eapply returns_weaken; [by apply (thread_list_remove_ok t L1 p L2 Z x)|]. intros [] t' [Hf Hc]. split; [done|].
  unfold Threads.thread_list_remove. rewrite Ei, <- Hj.
  assert (filter (fun j => j <> key p) (w_list w) = key <$> (L1 ++ L2)) as HL' by by rewrite HL, filter_key, filter_out.
  destruct (n_joined x); destruct Hc as [Hr' Hb].
  - split; [exists (L1 ++ L2), Z; done| |].
    + intros q Hq. rewrite <- agree_bodies, Hb. cbn. destruct (decide (q = p)) as [-> |Hne].
      * by rewrite !lookup_delete_eq.
      * rewrite !lookup_delete_ne, agree_bodies; [by apply Hn|by intros E%key_inj|done].
    + cbn. intros k [t0 Ht]. apply lookup_delete_Some in Ht as [_ Ht]. apply Hk. by exists t0.
  - split; [|intros q Hq; rewrite <- agree_bodies, Hb, agree_bodies; by apply Hn|exact Hk].
    exists (L1 ++ L2), (p :: Z). split; [done|]. split; [exact HL'|]. cbn. by rewrite HZ.
Qed.

Lemma filter_implements t w : implements t w -> lock (zombie_list t) = Free ->
  returns ThreadList.zombie_list_filter t (fun _ t' => list_frame t t' /\ implements t' (Threads.zombie_list_filter w)).
Proof.
  intros Him Hlk. pose proof Him as [(L & Z & Hr & HL & HZ) Hn Hk].
  assert (forall q, q ∈ Z -> q <> ckpt_thread) as Hst.
  { intros q Hq ->. apply (rep_static _ _ _ Hr), elem_of_app. by right. }
  eapply returns_weaken; [by apply (zombie_list_filter_ok t L Z)|]. intros [] t' (Hr' & Hb & Hf). split; [done|].
  unfold Threads.zombie_list_filter. split.
  - eexists L, _. split; [exact Hr'|]. split; [exact HL|]. cbn. rewrite HZ. clear -Hst Him.
    induction Z as [|q Z IH]; [done|]. rewrite fmap_cons, !filter_cons.
    rewrite (agree_joined t w q Him) by (apply Hst; left). rewrite IH by (intros r Hr; apply Hst; by right).
    by destruct (joined_in (heap t) q).
  - intros q Hq. rewrite <- agree_bodies, Hb. cbn. pose proof (Hn q Hq) as Ha. rewrite <- agree_bodies in Ha.
    rewrite HZ. assert (forall n i, agree (Some n) (Some i) ->
      (q ∈ Z /\ n_joined n = true) <-> (key q ∈ key <$> Z /\ t_joined i = true)) as Hiff.
    { intros n i [-> _]. by rewrite in_keys. }
    unfold reaped. rewrite !map_lookup_filter. cbn.
    destruct (bodies (heap t) !! q) as [n|], (w_threads w !! key q) as [i|]; try done. specialize (Hiff n i Ha). cbn.
    destruct (decide (q ∈ Z /\ n_joined n = true)).
    + rewrite !option_guard_False by tauto. done.
    + rewrite !option_guard_True by tauto. done.
  - cbn. intros k [t0 Ht]. apply map_lookup_filter_Some in Ht as [Ht _]. apply Hk. by exists t0.
Qed.

(** C7. Every operation on the thread and zombie lists does with pointers what
    [Threads] does with lists: inserting the calling thread, removing a thread
    (freed when joined, a zombie when not), and filtering the zombies.  None
    follows a null or freed pointer, frees a descriptor twice, or fails an
    assertion, and each leaves every lock as it found it.  The insertion takes
    the thread list's lock, which is free; the removal does not touch it,
    whoever holds it (its callers hold it themselves). *)
Theorem thread_lists_refine t w p x : implements t w ->
  lock (zombie_list t) = Free -> p <> ckpt_thread -> heap t !! p = Some x ->
  (lock (thread_list t) = Free -> myself t = Some p -> key p ∉ w_list w ++ w_zombies w ->
     returns thread_list_add t (fun _ t' => list_frame t t' /\ implements t' (set_list (key p :: w_list w) w))) /\
  (key p ∈ w_list w ->
     returns (ThreadList.thread_list_remove p) t (fun _ t' => list_frame t t' /\
       implements t' (Threads.thread_list_remove (key p) w))) /\
  returns ThreadList.zombie_list_filter t (fun _ t' => list_frame t t' /\ implements t' (Threads.zombie_list_filter w)).
Proof.
  intros Him Hzl Hp Hx. split; [|split]; intros.
  - by eapply add_implements.
  - by eapply remove_implements.
  - by apply filter_implements.
Qed.

(** Two threads, the second joined, a zombie, and a new thread. *)
Definition node (next prev : option loc) (joined : bool) : tnode :=
  TNode next prev ST_RUNNING 0 false joined 0 0 0 Free.
Definition info (joined : bool) : thread_info :=
  ThreadInfo ST_RUNNING 0 false joined None None false (At Running).
Definition four_nodes : gmap loc tnode :=
  <[3%positive := node (Some 2%positive) None true]> (<[2%positive := node None (Some 3%positive) false]>
  (<[4%positive := node None None true]> {[5%positive := node None None false]})).
Definition four_infos : gmap tid thread_info :=
  <[3%nat := info true]> (<[2%nat := info false]> (<[4%nat := info true]> {[5%nat := info false]})).
Definition four (l : mutex) : threads :=
  Threads four_nodes 6 (TList (Some 3%positive) l) (TList (Some 4%positive) Free) Free (Some 5%positive) (Some 2%positive).
Definition four_threads : process := Proc XND_RUNNING [3; 2]%nat [4]%nat four_infos None None 0 0 CWaiting.

Lemma four_lookup p n : four_nodes !! p = Some n -> p = 2%positive \/ p = 3%positive \/ p = 4%positive \/ p = 5%positive.
Proof. unfold four_nodes. rewrite !lookup_insert_Some, lookup_singleton_Some. naive_solver. Qed.
Lemma four_implements l : implements (four l) four_threads.
Proof.
  split.
  - exists [3; 2]%positive, [4]%positive. split; [|done]. split.
    + split; [done|]. split; [|by apply NoDup_cons; split; [rewrite list_elem_of_singleton|apply NoDup_singleton]].
      split; [by eexists|]. split; [by eexists|done].
    + split; [done|]. split; [|apply NoDup_singleton]. split; [by eexists|done].
    + intros p. rewrite !elem_of_cons, elem_of_nil. naive_solver.
    + cbn. rewrite !elem_of_cons, elem_of_nil. naive_solver.
    + cbn. intros p [n Hn]. destruct (four_lookup p n Hn) as [-> |[-> |[-> | ->] ] ]; lia.
  - intros p Hp. cbn. unfold four_nodes, four_infos.
    destruct (decide (p = 3%positive)) as [-> |H3]; [done|]. destruct (decide (p = 2%positive)) as [-> |H2]; [done|].
    destruct (decide (p = 4%positive)) as [-> |H4]; [done|]. destruct (decide (p = 5%positive)) as [-> |H5]; [done|].
    rewrite !lookup_insert_ne, lookup_singleton_ne by done.
    rewrite !lookup_insert_ne, lookup_singleton_ne by (unfold key; lia). done.
  - cbn. intros i [x Hx]. exists (Pos.of_nat i). unfold key. rewrite Nat2Pos.id; [done|]. intros ->.
    unfold four_infos in Hx. rewrite !lookup_insert_ne, lookup_singleton_ne in Hx by done. done.
Qed.

Lemma thread_lists_refine_witness :
  returns thread_list_add (four Free) (fun _ t' => list_frame (four Free) t' /\ implements t' (set_list [5; 3; 2]%nat four_threads)) /\
  returns (ThreadList.thread_list_remove 3) (four Held) (fun _ t' => list_frame (four Held) t' /\
    implements t' (set_threads (delete 3%nat four_infos) (set_list [2]%nat four_threads))) /\
  returns ThreadList.zombie_list_filter (four Free) (fun _ t' => list_frame (four Free) t' /\
    implements t' (Threads.zombie_list_filter four_threads)).
Proof.
  pose proof (thread_lists_refine (four Free) four_threads 5 (node None None false) (four_implements Free) eq_refl
    ltac:(discriminate) eq_refl) as (Ha & _ & Hf).
  pose proof (thread_lists_refine (four Held) four_threads 3 (node (Some 2%positive) None true) (four_implements Held) eq_refl
    ltac:(discriminate) eq_refl) as (_ & Hr & _).
  split; [apply Ha; [reflexivity|reflexivity|by apply (bool_decide_unpack _); vm_compute]|].
  split; [|exact Hf]. apply Hr. by apply (bool_decide_unpack _); vm_compute.
Defined.
