(* ===== verification/Lib.v ===== *)
(** The injected library as a whole: [xnd/xnd_lib.c], and from
    [xnd/thread_info.c] what starts and ends a process's threads and takes them
    through [fork].

    The statics of the components are put together in [sys]; each component's
    operation is lifted to it unchanged.  The system is a parameter [O].  The
    checkpoint thread is seen here only as far as other threads wait for it:
    not created, waiting for the end of [fork], or serving the coordinator. *)

From S2P Require Import Prelude Cstr Env Bytes Io CoordMsg Process PidTable Time PidHooks CoordProps CoordClient.
From S2P Require Import CkptFile FdTable SigHooks Tls ThreadList.
Open Scope Z_scope.

Definition SA_SIGINFO : Z := 64.

Inductive ckpt_phase : Type := CkptNone | CkptParked | CkptServing.

Record sys (O : Type) := Sys {
  s_fds : fdt O; s_sigs : sigs (K := O); s_tls : tls_state; s_threads : threads;
  s_ckpt : ckpt_phase; xnd_atfork_registered : bool; s_os : O
}.
Arguments Sys {O}.
Arguments s_fds {O}.
Arguments s_sigs {O}.
Arguments s_tls {O}.
Arguments s_threads {O}.
Arguments s_ckpt {O}.
Arguments xnd_atfork_registered {O}.
Arguments s_os {O}.

(** What the library's start and its fork handlers ask of libc and
    libpthread. *)
Class LibOS (O : Type) := {
  (** [calloc] succeeds *)
  k_calloc : O -> bool * O;
  (** [pthread_mutex_init], [pthread_cond_init], [pthread_create],
      [pthread_atfork]: 0 or an errno *)
  k_mutex_init : O -> Z * O;
  k_cond_init : O -> Z * O;
  k_pthread_create : O -> Z * O;
  k_pthread_atfork : O -> Z * O;
  k_pthread_self : O -> Z;
  (** [fork] itself: -1, 0 in the child, the child's pid in the parent *)
  k_fork : O -> Z * O;
  k_unlink : cstr -> O -> O
}.

Section lifts.
Context {O : Type}.
Implicit Types w : sys O.

Definition put_fds (f : fdt O) w : sys O := Sys f (s_sigs w) (s_tls w) (s_threads w) (s_ckpt w) (xnd_atfork_registered w) (s_os w).
Definition put_sigs (g : sigs) w : sys O := Sys (s_fds w) g (s_tls w) (s_threads w) (s_ckpt w) (xnd_atfork_registered w) (s_os w).
Definition put_tls (l : tls_state) w : sys O := Sys (s_fds w) (s_sigs w) l (s_threads w) (s_ckpt w) (xnd_atfork_registered w) (s_os w).
Definition put_threads (t : threads) w : sys O := Sys (s_fds w) (s_sigs w) (s_tls w) t (s_ckpt w) (xnd_atfork_registered w) (s_os w).
Definition put_phase (p : ckpt_phase) w : sys O := Sys (s_fds w) (s_sigs w) (s_tls w) (s_threads w) p (xnd_atfork_registered w) (s_os w).
Definition put_registered (b : bool) w : sys O := Sys (s_fds w) (s_sigs w) (s_tls w) (s_threads w) (s_ckpt w) b (s_os w).
Definition put_os (o : O) w : sys O := Sys (s_fds w) (s_sigs w) (s_tls w) (s_threads w) (s_ckpt w) (xnd_atfork_registered w) o.

(** A call of the system. *)
Definition lift {A} (f : O -> A * O) w : A * sys O := let '(a, o) := f (s_os w) in (a, put_os o w).
#[export] Instance sys_io `{!IoSys O} : IoSys (sys O) := {
  sys_write fd buf := lift (sys_write fd buf);
  sys_read fd n := lift (sys_read fd n);
  read_waits fd n w := read_waits fd n (s_os w)
}.
#[export] Instance sys_fd `{!FdSys O} : FdSys (sys O) := {
  fd_getfl fd := lift (fd_getfl fd);
  fd_dup2 a b := lift (fd_dup2 a b);
  fd_close fd w := put_os (fd_close fd (s_os w)) w
}.
#[export] Instance sys_client `{!ClientOS O} : ClientOS (sys O) := {
  k_socket := lift k_socket;
  k_connect fd := lift (k_connect fd);
  k_cloexec fd := lift (k_cloexec fd);
  k_shutdown fd := lift (k_shutdown fd);
  k_sleep t w := put_os (k_sleep t (s_os w)) w
}.
#[export] Instance sys_pids `{!PidOS O} : PidOS (sys O) := {
  _real_getpid w := _real_getpid (s_os w);
  _real_getppid w := _real_getppid (s_os w);
  _real_getpgrp w := _real_getpgrp (s_os w);
  _real_getpgid p w := _real_getpgid p (s_os w)
}.

(** A computation on another state [T], of which the process has one. *)
Definition zoom {T A} (get : pstate (sys O) -> T) (set : T -> pstate (sys O) -> pstate (sys O)) (m : M T A)
    : M (pstate (sys O)) A := fun s =>
  match m (get s) with
  | Ret a t => Ret a (set t s)
  | Exit c t => Exit c (set t s)
  | Abort t => Abort (set t s)
  | Ub => Ub
  | NoFuel => NoFuel
  end.
Definition put_sys (f : sys O -> sys O) (s : pstate (sys O)) : pstate (sys O) := put_k (f (g_k s)) s.

Definition on_os {A} : M O A -> M (pstate (sys O)) A := zoom (fun s => s_os (g_k s)) (fun o => put_sys (put_os o)).
Definition os_call {A} (f : O -> A * O) : M (pstate (sys O)) A := on_os (fun o => let '(a, o) := f o in Ret a o).

(** The descriptor table, with the system it calls. *)
Definition fds_of (s : pstate (sys O)) : fdt O := put_tk (s_os (g_k s)) (s_fds (g_k s)).
Definition set_fds (f : fdt O) : pstate (sys O) -> pstate (sys O) := put_sys (fun w => put_os (t_k f) (put_fds f w)).
Definition on_fds {A} : M (fdt O) A -> M (pstate (sys O)) A := zoom fds_of set_fds.

(** The signal state, with the process's environment, errno and system. *)
Definition sigs_of (s : pstate (sys O)) : sigs :=
  put_serrno (g_errno s) (put_senv (g_env s) (put_sk (s_os (g_k s)) (s_sigs (g_k s)))).
Definition set_sigs (g : sigs) (s : pstate (sys O)) : pstate (sys O) :=
  put_errno (s_errno g) (put_env (s_env g) (put_sys (fun w => put_os (s_k g) (put_sigs g w)) s)).
Definition on_sigs {A} : M (sigs (K := O)) A -> M (pstate (sys O)) A := zoom sigs_of set_sigs.

(** The calling thread's thread-local storage; [tlv_ok] is its flag. *)
Definition flag_ok (l : tls_state) : bool := bool_decide (words l !! slot_at (tpidrro l) TSD_XND_FLAG = Some TSD_XND_INIT).
Definition set_tls (l : tls_state) (s : pstate (sys O)) : pstate (sys O) :=
  put_lib (Lib (libxnd_state (g_lib s)) (flag_ok l)) (put_sys (put_tls l) s).
Definition on_tls {A} : M tls_state A -> M (pstate (sys O)) A := zoom (fun s => s_tls (g_k s)) set_tls.

(** The thread descriptors; [g_self] holds the state and depth of the calling
    thread's. *)
Definition view (t : threads) : option thr :=
  p ← myself t; n ← heap t !! p; Some (Thr (n_state n) (n_depth n)).
Definition flush (self : option thr) (t : threads) : threads :=
  match self, myself t with
  | Some x, Some p => put_heap (alter (fun n => set_state (th_state x) (set_depth (wrapper_depth x) n)) p (heap t)) t
  | _, _ => t
  end.
Definition threads_of (s : pstate (sys O)) : threads := flush (g_self s) (s_threads (g_k s)).
Definition set_threads (t : threads) (s : pstate (sys O)) : pstate (sys O) :=
  put_self (view t) (put_sys (put_threads t) s).
Definition on_threads {A} : M threads A -> M (pstate (sys O)) A := zoom threads_of set_threads.

Definition get_xnd_state : M (pstate (sys O)) xnd_state := gets (fun s => libxnd_state (g_lib s)).
Definition set_xnd_state (new_state : xnd_state) : M (pstate (sys O)) unit :=
  modify (fun s => put_lib (Lib new_state (tlv_ok (g_lib s))) s).
End lifts.

Section lib.
Context {O : Type} `{!IoSys O, !FdSys O, !ClientOS O, !PidOS O, !FsSys O, !UuidLib, !FileOS O, !SigCalls O, !LibOS O, !IterOrder}.
(** What [malloc] gives for a [struct fd_source], what an uninitialised message
    holds, the addresses of [thread_sighandler] and [__xnd_sigtramp]. *)
Context (heap_src : fd_source) (stack_msg : xnd_msg) (thread_sighandler xnd_sigtramp : Z).
Abbreviation P := (M (pstate (sys O))).
#[local] Instance sys_translate : CoordTranslate (sys O) := client_translate stack_msg.

Definition xnd_tlv_init : P unit := on_tls Tls.xnd_tlv_init.
Definition xnd_tlv_fini : P unit := on_tls Tls.xnd_tlv_fini.

(** A call that returns an error number, which aborts. *)
Definition checked (f : O -> Z * O) : P unit := err ← os_call f; if err =? 0 then mret tt else abort.

(** ** Threads: starting and ending *)

Definition zombie_list_init : P unit :=
  on_threads (modify (zl_head None));;
  checked k_mutex_init;;
  on_threads (modify (zl_lock Free)).

(** The new checkpoint thread up to its wait for [XND_RUNNING]: it takes
    [ct->lock], which the creating thread's [pthread_cond_wait] releases. *)
Definition ckpt_thread_starts : P unit :=
  on_threads (node_lock ckpt_thread);;
  st ← get_xnd_state;
  modify (put_sys (put_phase (if bool_decide (st = XND_ATFORK) then CkptParked else CkptServing)));;
  on_threads (node_unlock ckpt_thread);;
  mret tt.

(** When [pthread_create] fails, nobody ever clears [wait]. *)
Definition ckpt_thread_init : P unit :=
  on_threads (store ckpt_thread (set_state ST_CKPT_THREAD));;
  checked k_mutex_init;;
  on_threads (store ckpt_thread (set_nlock Free));;
  checked k_cond_init;;
  on_threads (node_lock ckpt_thread);;
  err ← os_call k_pthread_create;
  if negb (err =? 0) then nofuel else
  on_threads (node_unlock ckpt_thread);;
  ckpt_thread_starts;;
  on_threads (node_lock ckpt_thread);;
  on_threads (node_unlock ckpt_thread);;
  mret tt.

Definition thread_list_init : P unit :=
  checked k_mutex_init;;
  on_threads (modify (tl_lock Free));;
  xnd_tlv_init;;
  ok ← os_call k_calloc;
  xnd_assert ok;;
  p ← on_threads calloc_node;
  on_threads (modify (fun t => put_myself (Some p) (Some p) (tl_head (Some p) t)));;
  s ← get;
  on_threads (store p (set_self (k_pthread_self (s_os (g_k s)))));;
  st ← get_xnd_state;
  on_threads (if bool_decide (st = XND_ATFORK)
              then store p (set_state ST_UNSAFE);; store p (set_depth 1)
              else store p (set_state ST_RUNNING));;
  checked k_mutex_init;;
  on_threads (store p (set_nlock Free));;
  checked k_cond_init;;
  zombie_list_init;;
  ckpt_thread_init.

(** [pthread_mutex_destroy], whose result is ignored. *)
Definition destroyed (m : mutex) : mutex := match m with Held => Held | _ => Dead end.
Definition is_ckpt_thread (s : pstate (sys O)) : bool := bool_decide (myself (s_threads (g_k s)) = Some ckpt_thread).
Definition ckpt_thread_reap : P unit :=
  me ← gets is_ckpt_thread;
  xnd_assert (negb me);;
  on_threads (store ckpt_thread (fun n => set_nlock (destroyed (n_lock n)) n)).

Definition thread_list_destroy : P unit :=
  st ← get_xnd_state;
  xnd_assert (bool_decide (st = XND_EXITING));;
  me ← gets is_ckpt_thread;
  (if negb me then ckpt_thread_reap else mret tt);;
  on_threads thread_list_free;;
  on_threads zombie_list_destroy;;
  xnd_tlv_fini.

(** [None] is the null pointer. *)
Definition thread_init (start_routine arg : Z) : P (option loc) :=
  ok ← os_call k_calloc;
  if negb ok then mret None else
  t ← on_threads calloc_node;
  on_threads (store t (set_routine start_routine arg));;
  on_threads (store t (set_state ST_EMBRYO));;
  err ← os_call k_mutex_init;
  if negb (err =? 0) then on_threads (free_node t);; mret None else
  on_threads (store t (set_nlock Free));;
  err ← os_call k_cond_init;
  if negb (err =? 0) then on_threads (free_node t);; mret None else
  mret (Some t).

(** ** Threads: fork *)

Definition thread_list_atfork_prepare : P unit :=
  on_threads ckpt_mtx_lock;;
  on_threads thread_list_acquire;;
  on_threads zombie_list_acquire;;
  on_threads (node_lock ckpt_thread);;
  mret tt.

Definition thread_list_atfork_parent : P unit :=
  on_threads (node_unlock ckpt_thread);;
  on_threads zombie_list_release;;
  on_threads thread_list_release;;
  on_threads ckpt_mtx_unlock;;
  mret tt.
Definition thread_list_atfork_failed : P unit := thread_list_atfork_parent.

Definition thread_list_atfork_child : P unit :=
  set_xnd_state XND_ATFORK;;
  on_threads (thread_foreach_safe (fun t => head (thread_list t)) free_node);;
  on_threads (thread_foreach_safe (fun t => head (zombie_list t)) free_node);;
  on_threads (or_abort ckpt_mtx_unlock);;
  on_threads thread_list_release;;
  on_threads zombie_list_release;;
  on_threads (or_abort (node_unlock ckpt_thread));;
  thread_list_init;;
  checked k_mutex_init;;
  on_threads (modify (put_mtx Free));;
  checked k_cond_init;;
  checked k_cond_init;;
  on_threads (node_lock ckpt_thread);;
  set_xnd_state XND_RUNNING;;
  modify (put_sys (fun w => match s_ckpt w with CkptParked => put_phase CkptServing w | _ => w end));;
  on_threads (node_unlock ckpt_thread);;
  mret tt.

(** ** The library: fork *)

Definition xnd_atfork_prepare : P unit :=
  coord_client_atfork_prepare stack_msg;;
  pid_table_atfork_prepare;;
  thread_list_atfork_prepare;;
  r ← on_env env_get_dyld_shared_region;
  match r with Some _ => on_env env_unset_dyld_shared_region | None => mret tt end.
Definition xnd_atfork_child : P unit :=
  coord_client_atfork_child;;
  pid_table_atfork_child;;
  thread_list_atfork_child.
Definition xnd_atfork_parent : P unit :=
  coord_client_atfork_parent;;
  pid_table_atfork_parent;;
  thread_list_atfork_parent.
Definition xnd_atfork_failed : P unit :=
  coord_client_atfork_failed;;
  pid_table_atfork_failed;;
  thread_list_atfork_failed.

Definition xnd_register_fork_handlers : P unit :=
  s ← get;
  if xnd_atfork_registered (g_k s) then mret tt else
  checked k_pthread_atfork;;
  modify (put_sys (put_registered true)).

(** libc's [fork]: the handlers around the system call.  When it fails libc
    runs the parent's handlers, as Apple's does.  A child has no checkpoint
    thread yet. *)
Definition fork : P Z :=
  s ← get;
  if negb (xnd_atfork_registered (g_k s)) then os_call k_fork else
  xnd_atfork_prepare;;
  r ← os_call k_fork;
  (if r =? 0 then modify (put_sys (put_phase CkptNone));; xnd_atfork_child else xnd_atfork_parent);;
  mret r.
#[export] Instance lib_fork : ForkOS (sys O) := {
  PidHooks.xnd_register_fork_handlers := xnd_register_fork_handlers;
  PidHooks.fork := fork;
  PidHooks.xnd_atfork_failed := xnd_atfork_failed
}.

(** ** The library: checkpoints *)

Definition xnd_precheckpoint : P unit :=
  on_sigs (sig_state_save thread_sighandler xnd_sigtramp);;
  on_fds fd_table_save;;
  s ← get;
  on_tls (thread_ptr_munge_save (k_pthread_self (s_os (g_k s))));;
  mret tt.

(** [epoch++], an unsigned 64-bit integer *)
Definition next_epoch : P unit :=
  modify (fun s => let i := g_ids s in
    put_ids (Ids (xnd_pid i) (xnd_ppid i) (xnd_pgid i) (xnd_uuid i) (u64 (epoch i + 1)) (num_peers i) (is_root_of_tree i)) s).
Definition xnd_postcheckpoint : P unit := next_epoch.

Definition xnd_postrestart_early : P unit :=
  on_tls thread_ptr_munge_fixup;;
  next_epoch;;
  connect_to_coord_on_restart;;
  enter_coord_barrier stack_msg COORD_BARRIER_POSTRESTART;;
  on_fds fd_table_restore;;
  on_sigs (sig_state_restore thread_sighandler xnd_sigtramp);;
  zlib ← on_env env_use_zlib_compression;
  if (zlib : bool) then
    i ← gets g_ids;
    dirfd ← on_os (CkptFile.xnd_ckptdir_open (xnd_uuid i) (u64 (epoch i - 1)));
    if negb (dirfd =? -1) then on_os (CkptFile.xnd_ckptfile_unlinkat dirfd (xnd_pid i));; mret tt else mret tt
  else mret tt.
Definition xnd_postrestart_late : P unit := pid_table_postrestart.

(** ** The checkpoint thread

    [ckpt_thread_work] without what it does to the other threads, which is
    [Threads.ckpt_step], and without the image ([Cycle]).  False: the thread
    has ended. *)
Definition ckpt_thread_exit : P unit := xnd_tlv_fini.
Definition ckpt_thread_wait : P bool :=
  r ← wait_for_ckpt_request_from_coord;
  if negb (r =? 0) then ckpt_thread_exit;; mret false
  else set_xnd_state XND_CKPT_PENDING;; mret true.

(** From the request to [suspend_threads]. *)
Definition ckpt_requested : P bool :=
  go ← ckpt_thread_wait;
  if negb (go : bool) then mret false else
  enter_coord_barrier stack_msg COORD_BARRIER_PRECKPT;;
  on_tls (thread_save_tls true);;
  on_sigs (thread_save_sig_state true);;
  mret true.
(** From [barrier_arrival_wait] to [xnd_checkpoint], and from there to
    [barrier_release]. *)
Definition ckpt_suspended : P unit := xnd_precheckpoint;; xnd_tlv_fini.
Definition ckpt_written : P unit :=
  enter_coord_barrier stack_msg COORD_BARRIER_POSTCKPT;;
  xnd_tlv_init;;
  xnd_postcheckpoint.
(** After a restart, up to [restore_threads], and after the barrier. *)
Definition ckpt_restarted : P unit :=
  xnd_postrestart_early;;
  on_tls thread_restore_tls;;
  xnd_tlv_init;;
  s ← get;
  on_threads (modify (fun t => put_myself (Some ckpt_thread) (_main_thread t) t);;
              store ckpt_thread (set_self (k_pthread_self (s_os (g_k s)))));;
  xnd_postrestart_late.
Definition ckpt_gathered : P unit :=
  on_sigs (thread_restore_sig_state true);;
  on_threads zombie_list_filter.

(** ** Loading and unloading the library *)

(** The pointer [pid_table] is set; the table is a static. *)
Definition pid_table_init : P unit := mret tt.

(** [if (tmp != NULL && env_unlink_tmp_at_...()) unlink(tmp);] *)
Definition unlink_tmp (tmp : option cstr) (now : M env_state bool) : P unit :=
  match tmp with
  | Some tmp => yes ← on_env now; if (yes : bool) then os_call (fun o => (tt, k_unlink tmp o)) else mret tt
  | None => mret tt
  end.

(** [stack_mask]: [sa.sa_mask] is never assigned. *)
Definition xnd_setup (stack_mask : Z) : P unit :=
  connect_to_coord_on_launch;;
  sig ← on_env env_get_ckpt_signal;
  r ← on_sigs (__xnd_sigaction xnd_sigtramp sig (Some (Sigaction thread_sighandler stack_mask SA_SIGINFO)));
  if negb (r.1 =? 0) then abort else
  on_fds (fd_table_init heap_src);;
  thread_list_init;;
  pid_table_init;;
  pid_table_init_pid_info;;
  tmp ← on_env env_get_tmp_binary;
  unlink_tmp tmp env_unlink_tmp_at_init;;
  set_xnd_state XND_RUNNING.

Definition xnd_cleanup : P unit :=
  set_xnd_state XND_EXITING;;
  on_fds fd_table_destroy;;
  thread_list_destroy;;
  tmp ← on_env env_get_tmp_binary;
  unlink_tmp tmp env_unlink_tmp_at_exit;;
  disconnect_from_coord.
End lib.
