(* ===== verification/LibProps.v ===== *)
(** The library's start, fork and exit, and a restart, as wholes: [Lib].

    What the coordinator does is a hypothesis: that a call of the client
    returned.  [LibOk] is that libpthread's calls succeed. *)

From S2P Require Import Prelude Cstr Env Bytes Io CoordMsg Process PidTable Time PidHooks CoordProps CoordClient.
From S2P Require Import CkptFile FdTable SigHooks Tls ThreadList Lib.
Open Scope Z_scope.

(** ** The frame *)

(** What the coordinator's client leaves alone in the process of [Lib]: all the
    library's statics but its own descriptors, the pids and the ids.  A
    computation [keeps] the rest when it does so whenever it returns. *)

Create HintDb keeps.

Section frame.
Context {O : Type} `{!IoSys O, !FdSys O, !ClientOS O, !PidOS O} (stack_msg : xnd_msg).
Implicit Types s : pstate (sys O).

(** [b]: the client's mutex and the environment are left alone too. *)
Record kept (b : bool) s s' : Prop := {
  kp_lock : b = true -> oob_locked (g_client s') = oob_locked (g_client s);
  kp_env : b = true -> g_env s' = g_env s;
  kp_table : g_table s' = g_table s;
  kp_self : g_self s' = g_self s;
  kp_lib : g_lib s' = g_lib s;
  kp_sys : exists o, g_k s' = put_os o (g_k s)
}.
Lemma kept_refl b s : kept b s s.
Proof. split; try done. exists (s_os (g_k s)). cbn. by destruct (g_k s). Qed.
Lemma kept_trans b s1 s2 s3 : kept b s1 s2 -> kept b s2 s3 -> kept b s1 s3.
Proof.
  intros [L1 V1 ? ? ? [o1 E1]] [L2 V2 ? ? ? [o2 E2]].
  split; try congruence; [intros Hb; by rewrite (L2 Hb), (L1 Hb)|intros Hb; by rewrite (V2 Hb), (V1 Hb)|]. exists o2. by rewrite E2, E1.
Qed.

Definition keeps (b : bool) {A} (m : M (pstate (sys O)) A) : Prop := forall s, sat true m s (fun _ s' => kept b s s').
Lemma keeps_ret b {A} (m : M (pstate (sys O)) A) s a s' : keeps b m -> m s = Ret a s' -> kept b s s'.
Proof. intros Hk E. specialize (Hk s). unfold sat in Hk. by rewrite E in Hk. Qed.

Lemma keeps_mret b {A} (a : A) : keeps b (mret a).
Proof. intros s. apply kept_refl. Qed.
Lemma keeps_gets b {A} (f : pstate (sys O) -> A) : keeps b (gets f).
Proof. intros s. apply kept_refl. Qed.
Lemma keeps_get b : keeps b get.
Proof. intros s. apply kept_refl. Qed.
Lemma keeps_abort b {A} : keeps b (A := A) abort.
Proof. done. Qed.
Lemma keeps_nofuel b {A} : keeps b (A := A) nofuel.
Proof. done. Qed.
Lemma keeps_assert b c : keeps b (xnd_assert c).
Proof. destruct c; [exact (keeps_mret b tt)|exact (keeps_abort b)]. Qed.
Lemma keeps_bind b {A B} (m : M (pstate (sys O)) A) (k : A -> M (pstate (sys O)) B) :
  keeps b m -> (forall a, keeps b (k a)) -> keeps b (m ≫= k).
Proof.
  intros Hm Hk s. apply sat_bind. eapply sat_weaken; [apply Hm|]. intros a s1 H1.
  eapply sat_weaken; [apply Hk|]. intros y s2 H2. exact (kept_trans b _ _ _ H1 H2).
Qed.
Lemma keeps_modify b f : (forall s, kept b s (f s)) -> keeps b (modify f).
Proof. intros Hf s. apply Hf. Qed.
Lemma keeps_set_client b f : (b = true -> forall c, oob_locked (f c) = oob_locked c) -> keeps b (set_client f).
Proof.
  intros Hf. apply keeps_modify. intros s. split; try done; [intros Hb; by apply Hf|].
  exists (s_os (g_k s)). cbn. by destruct (g_k s).
Qed.
Lemma keeps_coord_fd b fd : keeps b (set_client (set_coord_fd fd)).
Proof. by apply keeps_set_client. Qed.
Lemma keeps_child_fd b fd : keeps b (set_client (set_child_fd fd)).
Proof. by apply keeps_set_client. Qed.
Lemma keeps_oob_fd b fd : keeps b (set_client (set_oob_fd fd)).
Proof. by apply keeps_set_client. Qed.
Lemma keeps_oob_lock x : keeps false (set_client (set_oob_lock x)).
Proof. by apply keeps_set_client. Qed.
Lemma keeps_pids b f : keeps b (modify (fun s => put_pids (f s) s)).
Proof. apply keeps_modify. intros s. split; try done. exists (s_os (g_k s)). cbn. by destruct (g_k s). Qed.
Lemma keeps_ids b f : keeps b (modify (fun s => put_ids (f s) s)).
Proof. apply keeps_modify. intros s. split; try done. exists (s_os (g_k s)). cbn. by destruct (g_k s). Qed.
Lemma keeps_env {A} (m : M env_state A) : keeps false (on_env m).
Proof.
  intros s. unfold sat, on_env. destruct (m (g_env s)); try done.
  split; try done. exists (s_os (g_k s)). cbn. by destruct (g_k s).
Qed.
Lemma keeps_interval b : keeps b (on_env env_get_ckpt_interval).
Proof. intros s. unfold sat, on_env. cbn. split; try done. exists (s_os (g_k s)). cbn. by destruct (g_k s). Qed.

(** Computations of the system. *)
Definition keeps_os {A} (m : M (sys O) A) : Prop := forall w, sat true m w (fun _ w' => exists o, w' = put_os o w).
Lemma put_os_id (w : sys O) : exists o, w = put_os o w.
Proof. exists (s_os w). by destruct w. Qed.
Lemma keeps_on_k b {A} (m : M (sys O) A) : keeps_os m -> keeps b (on_k m).
Proof. intros Hm s. specialize (Hm (g_k s)). unfold sat, on_k in *. destruct (m (g_k s)); try done. Qed.
Lemma keeps_os_bind {A B} (m : M (sys O) A) (k : A -> M (sys O) B) :
  keeps_os m -> (forall a, keeps_os (k a)) -> keeps_os (m ≫= k).
Proof.
  intros Hm Hk w. apply sat_bind. eapply sat_weaken; [apply Hm|]. intros a w1 [o1 ->].
  eapply sat_weaken; [apply Hk|]. intros b w2 [o2 ->]. by exists o2.
Qed.
Lemma keeps_op b {A} (f : O -> A * O) : keeps b (k_op (lift f)).
Proof.
  apply keeps_on_k. intros w. unfold sat, lift. destruct (f (s_os w)) as [a o]. by exists o.
Qed.
Lemma keeps_close b fd : keeps b (CoordClient.k_close fd).
Proof. apply keeps_on_k. intros w. unfold sat. by eexists. Qed.
Lemma keeps_pause b t : keeps b (k_pause t).
Proof. apply keeps_on_k. intros w. unfold sat. by eexists. Qed.

Lemma writeall_loop_keeps fuel fd buf n : keeps_os (writeall_loop fuel fd buf n).
Proof.
  revert n. induction fuel as [|fuel IH]; intros n w; [done|]. unfold sat. cbn [writeall_loop sys_write sys_io].
  unfold lift. destruct (sys_write fd _ (s_os w)) as [r o]. destruct (r =? -1); [by exists o|].
  destruct (_ <? _); [|by exists o]. specialize (IH (n + r) (put_os o w)). unfold sat in IH.
  destruct (writeall_loop fuel fd buf (n + r) (put_os o w)); try done. all: by destruct IH as [o' ->]; exists o'.
Qed.
Lemma readall_loop_keeps fuel fd nbyte buf : keeps_os (readall_loop fuel fd nbyte buf).
Proof.
  revert buf. induction fuel as [|fuel IH]; intros buf w; [done|]. unfold sat. cbn [readall_loop]. unfold read_call.
  destruct (read_waits fd _ w); [done|]. cbn [sys_read sys_io].
  unfold lift. destruct (sys_read fd _ (s_os w)) as [r o]. destruct r as [[|x data]|]; [by exists o| |by exists o].
  destruct (_ <? _); [|by exists o]. specialize (IH (buf ++ x :: data) (put_os o w)). unfold sat in IH.
  destruct (readall_loop fuel fd nbyte (buf ++ x :: data) (put_os o w)); try done. all: by destruct IH as [o' ->]; exists o'.
Qed.
Lemma keeps_send b fd msg : keeps b (send_msg fd msg).
Proof.
  apply keeps_on_k. unfold send_msg_to_coord. destruct (fd =? -1); [intros w; apply put_os_id|].
  unfold coord_send_msg. apply keeps_os_bind; [apply writeall_loop_keeps|]. intros n w. apply put_os_id.
Qed.
Lemma keeps_recv b fd : keeps b (recv_msg fd).
Proof.
  apply keeps_on_k. unfold recv_msg_from_coord. destruct (fd =? -1); [intros w; apply put_os_id|].
  unfold coord_recv_msg. apply keeps_os_bind; [apply readall_loop_keeps|]. intros n w.
  destruct (_ =? _); apply put_os_id.
Qed.

Lemma keeps_fd_change b old new : keeps b (on_k (xnd_fd_change old new)).
Proof.
  apply keeps_on_k. unfold xnd_fd_change. intros w. unfold sat. destruct (negb _); [|apply put_os_id].
  cbn [fd_dup2 sys_fd]. unfold lift. destruct (fd_dup2 old new (s_os w)) as [r o]. destruct (r =? new); [|done]. by eexists.
Qed.
Lemma keeps_socket b : keeps b (k_op (K := sys O) k_socket).
Proof. apply (keeps_op b k_socket). Qed.
Lemma keeps_k_connect b fd : keeps b (k_op (K := sys O) (k_connect fd)).
Proof. apply (keeps_op b (k_connect fd)). Qed.
Lemma keeps_cloexec b fd : keeps b (k_op (K := sys O) (k_cloexec fd)).
Proof. apply (keeps_op b (k_cloexec fd)). Qed.
Lemma keeps_shutdown b fd : keeps b (k_op (K := sys O) (k_shutdown fd)).
Proof. apply (keeps_op b (k_shutdown fd)). Qed.
Lemma keeps_connect_loop b fuel fd tries : keeps b (connect_loop fuel fd tries).
Proof.
  revert tries. induction fuel as [|fuel IH]; intros tries; cbn [connect_loop]; [apply keeps_nofuel|].
  apply keeps_bind; [apply keeps_k_connect|]. intros err. destruct (err =? 0); [apply keeps_mret|].
  destruct (_ && _); [|apply keeps_mret]. apply keeps_bind; [apply keeps_pause|]. intros _. apply IH.
Qed.
End frame.
#[export] Hint Resolve keeps_mret keeps_gets keeps_get keeps_abort keeps_nofuel keeps_assert keeps_coord_fd keeps_child_fd keeps_oob_fd keeps_oob_lock keeps_pids keeps_ids
  keeps_env keeps_interval keeps_socket keeps_k_connect keeps_cloexec keeps_shutdown keeps_close keeps_pause keeps_send keeps_recv keeps_fd_change keeps_connect_loop : keeps.

(** Sequences, tests and cases of computations that keep it. *)
Ltac keeps := repeat first
  [ solve [auto with keeps] | apply keeps_bind; [|intros ?] | case_match ].

Section client.
Context {O : Type} `{!IoSys O, !FdSys O, !ClientOS O, !PidOS O} (stack_msg : xnd_msg).

Lemma keeps_connect b : keeps b (O := O) connect_to_coord.
Proof. unfold connect_to_coord. keeps. Qed.
#[local] Hint Resolve keeps_connect : keeps.
Lemma keeps_handshake b hdr : keeps b (O := O) (send_recv_coord_handshake hdr).
Proof. unfold send_recv_coord_handshake, handshake_msg. keeps. Qed.
#[local] Hint Resolve keeps_handshake : keeps.
Lemma keeps_move b fd : keeps b (O := O) (move_to_coord_fd fd).
Proof. unfold move_to_coord_fd. keeps. Qed.
#[local] Hint Resolve keeps_move : keeps.

Lemma keeps_launch b : keeps b (O := O) connect_to_coord_on_launch.
Proof. unfold connect_to_coord_on_launch. keeps. Qed.
Lemma keeps_restart b : keeps b (O := O) connect_to_coord_on_restart.
Proof. unfold connect_to_coord_on_restart. keeps. Qed.
Lemma keeps_prepare : keeps false (O := O) (coord_client_atfork_prepare stack_msg).
Proof. unfold coord_client_atfork_prepare, oob_lock. keeps. Qed.
Lemma keeps_child_rest b : keeps b (O := O) (c ← gets g_client;
  move_to_coord_fd (child_coord_fd c);;
  send_recv_coord_handshake XND_ATFORK_CHILD;;
  c ← gets g_client;
  if negb (oob_fd c =? -1) then CoordClient.k_close (oob_fd c);; set_client (set_oob_fd (-1)) else mret tt).
Proof. keeps. Qed.
Lemma child_kept s s' : coord_client_atfork_child s = Ret tt s' ->
  kept (O := O) false s s' /\ oob_locked (g_client s') = false.
Proof.
  intros E. unfold coord_client_atfork_child in E. rewrite (bind_ret oob_unlock _ _ tt _ eq_refl) in E.
  pose proof (keeps_ret _ _ _ _ _ (keeps_child_rest true) E) as Hk. split; [|exact (kp_lock _ _ _ Hk eq_refl)].
  destruct Hk as [_ _ H1 H2 H3 [o H4]]. split; try done. by exists o.
Qed.
Lemma keeps_barrier b type : keeps b (O := O) (enter_coord_barrier stack_msg type).
Proof. unfold enter_coord_barrier. keeps. Qed.
Lemma keeps_disconnect b : keeps b (O := O) disconnect_from_coord.
Proof. unfold disconnect_from_coord. keeps. Qed.
End client.

(** ** Start, fork and exit *)

(** [lib_same]: what they leave alone of the system. *)
Class LibOk (O : Type) `{!LibOS O} := {
  lib_same : O -> O -> Prop;
  lib_same_pre :: PreOrder lib_same;
  calloc_ok : forall o, (k_calloc o).1 = true /\ lib_same o (k_calloc o).2;
  mutex_init_ok : forall o, (k_mutex_init o).1 = 0 /\ lib_same o (k_mutex_init o).2;
  cond_init_ok : forall o, (k_cond_init o).1 = 0 /\ lib_same o (k_cond_init o).2;
  create_ok : forall o, (k_pthread_create o).1 = 0 /\ lib_same o (k_pthread_create o).2;
  unlink_ok : forall path o, lib_same o (k_unlink path o)
}.

Section lifting.
Context {O : Type}.
Implicit Types s : pstate (sys O).

Lemma zoom_ret {T A} get set (m : M T A) s a t : m (get s) = Ret a t -> zoom get set m s = Ret a (set t s).
Proof. intros E. unfold zoom. by rewrite E. Qed.
Lemma zoom_returns {T A} get set (m : M T A) s Q :
  returns m (get s) (fun a t => Q a (set t s)) -> returns (zoom get set m) s Q.
Proof. unfold returns, zoom. by destruct (m (get s)). Qed.

Lemma bind_ub {S A B} (m : M S A) (k : A -> M S B) x : m x = Ub -> (m ≫= k) x = Ub.
Proof. intros E. unfold mbind, M_bind. by rewrite E. Qed.
Lemma flush_view t : flush (view t) t = t.
Proof.
  unfold flush, view. destruct (myself t) as [p|] eqn:Em; [|done]. cbn.
  destruct (heap t !! p) as [n|] eqn:E; [|done]. cbn. destruct t as [h ? ? ? ? ? ?]. unfold put_heap. cbn in *. f_equal.
  apply map_eq. intros q. destruct (decide (q = p)) as [-> |].
  - rewrite lookup_alter_eq, E. by destruct n.
  - by rewrite lookup_alter_ne.
Qed.

(** [g_self] is up to date. *)
Definition coherent s : Prop := g_self s = view (s_threads (g_k s)).
Lemma coherent_threads s : coherent s -> threads_of s = s_threads (g_k s).
Proof. intros E. unfold threads_of. rewrite E. apply flush_view. Qed.
Lemma on_threads_ret {A} (m : M threads A) s a t : coherent s -> m (s_threads (g_k s)) = Ret a t ->
  on_threads m s = Ret a (set_threads t s).
Proof. intros Hc E. unfold on_threads. apply zoom_ret. by rewrite coherent_threads. Qed.
Lemma on_threads_returns {A} (m : M threads A) s Q : coherent s ->
  returns m (s_threads (g_k s)) (fun a t => Q a (set_threads t s)) -> returns (on_threads m) s Q.
Proof. intros Hc E. unfold on_threads. apply zoom_returns. by rewrite coherent_threads. Qed.
Lemma coherent_set t s : coherent (set_threads t s).
Proof. done. Qed.

(** The state with [g_self] written back to the descriptor. *)
Definition cohere s : pstate (sys O) := set_threads (threads_of s) s.
Lemma on_threads_cohere {A} (m : M threads A) s : on_threads m s = on_threads m (cohere s).
Proof.
  unfold on_threads, zoom. rewrite (coherent_threads (cohere s)) by done.
  change (s_threads (g_k (cohere s))) with (threads_of s). by destruct (m (threads_of s)).
Qed.
End lifting.

Section init.
Context {O : Type} `{!LibOS O, !LibOk O}.
Implicit Types (s : pstate (sys O)) (t : threads) (l : tls_state) (o : O).

(** [s] with what starting threads changes. *)
Definition mid s (st : xnd_state) (tlv : bool) t l (ph : ckpt_phase) o : pstate (sys O) :=
  PState (g_pids s) (g_ids s) (g_client s) (g_table s) (view t) (Lib st tlv) (g_errno s) (g_env s)
    (Sys (s_fds (g_k s)) (s_sigs (g_k s)) l t ph (xnd_atfork_registered (g_k s)) o).

Section mid.
Variables (s : pstate (sys O)) (st : xnd_state) (tlv : bool) (t : threads) (l : tls_state) (ph : ckpt_phase) (o : O).
Context {B : Type}.
Variable Q : B -> pstate (sys O) -> Prop.
Notation now := (mid s st tlv t l ph o).

Lemma mid_threads {A} (m : M threads A) (k : A -> M (pstate (sys O)) B) a t' :
  m t = Ret a t' -> returns (k a) (mid s st tlv t' l ph o) Q -> returns (on_threads m ≫= k) now Q.
Proof. intros E Hk. eapply returns_step; [by apply on_threads_ret|]. exact Hk. Qed.
Lemma mid_threads_end (m : M threads B) b t' : m t = Ret b t' -> Q b (mid s st tlv t' l ph o) -> returns (on_threads m) now Q.
Proof. intros E Hq. eapply returns_intro; [by apply on_threads_ret|]. exact Hq. Qed.
Lemma mid_threads' {A} (m : M threads A) (k : A -> M (pstate (sys O)) B) R :
  returns m t R -> (forall a t', R a t' -> returns (k a) (mid s st tlv t' l ph o) Q) -> returns (on_threads m ≫= k) now Q.
Proof. intros E Hk. apply returns_inv in E as (a & t' & E & HR). eapply mid_threads; [exact E|]. by apply Hk. Qed.
Lemma mid_call {A} f (k : A -> M (pstate (sys O)) B) a : (forall o, (f o).1 = a /\ lib_same o (f o).2) ->
  (forall o', lib_same o o' -> returns (k a) (mid s st tlv t l ph o') Q) -> returns (os_call f ≫= k) now Q.
Proof.
  intros Hf Hk. destruct (Hf o) as [Ha Ho]. specialize (Hk _ Ho). eapply returns_step; [|exact Hk].
  unfold os_call, on_os, zoom. cbn. destruct (f o) as [a' o']. cbn in *. by subst.
Qed.
Lemma mid_checked f (k : unit -> M (pstate (sys O)) B) : (forall o, (f o).1 = 0 /\ lib_same o (f o).2) ->
  (forall o', lib_same o o' -> returns (k tt) (mid s st tlv t l ph o') Q) -> returns (checked f ≫= k) now Q.
Proof.
  intros Hf Hk. destruct (Hf o) as [Ha Ho]. specialize (Hk _ Ho). eapply returns_step; [|exact Hk].
  unfold checked, mbind, M_bind, os_call, on_os, zoom. cbn. destruct (f o) as [a' o']. cbn in *. by subst.
Qed.
Lemma mid_state (k : xnd_state -> M (pstate (sys O)) B) : returns (k st) now Q -> returns (get_xnd_state ≫= k) now Q.
Proof. done. Qed.
Lemma mid_set_state st' (k : unit -> M (pstate (sys O)) B) :
  returns (k tt) (mid s st' tlv t l ph o) Q -> returns (set_xnd_state st' ≫= k) now Q.
Proof. done. Qed.
Lemma mid_phase f (k : unit -> M (pstate (sys O)) B) ph' :
  f (g_k now) = put_phase ph' (g_k now) ->
  returns (k tt) (mid s st tlv t l ph' o) Q -> returns (modify (put_sys f) ≫= k) now Q.
Proof. intros E Hk. eapply returns_step; [reflexivity|]. unfold put_sys. by rewrite E. Qed.
End mid.

(** The flag slot of the calling thread. *)
Definition has_flag l : Prop := is_Some (words l !! slot_at (tpidrro l) TSD_XND_FLAG).
Lemma mid_tlv_init {B} s st tlv t l ph o (k : unit -> M (pstate (sys O)) B) Q : has_flag l ->
  (forall l', has_flag l' -> tpidrro l' = tpidrro l -> returns (k tt) (mid s st true t l' ph o) Q) ->
  returns (xnd_tlv_init ≫= k) (mid s st tlv t l ph o) Q.
Proof.
  intros [v Hv] Hk. set (l' := put_words (<[slot_at (tpidrro l) TSD_XND_FLAG := TSD_XND_INIT]> (words l)) l).
  assert (flag_ok l' = true) as Hf.
  { unfold flag_ok. apply bool_decide_eq_true_2. cbn. apply lookup_insert_eq. }
  unfold xnd_tlv_init, Tls.xnd_tlv_init, on_tls. eapply returns_step; [apply zoom_ret; by apply (set_tls_slot_eq _ _ v)|].
  assert (returns (k tt) (mid s st true t l' ph o) Q) as Hq.
  { apply Hk; [|done]. eexists. apply lookup_insert_eq. }
  rewrite <- Hf in Hq. exact Hq.
Qed.

Definition phase_of (st : xnd_state) : ckpt_phase := if bool_decide (st = XND_ATFORK) then CkptParked else CkptServing.

(** Updates of the checkpoint thread's descriptor. *)
Lemma store_in h c f t : heap t = <[ckpt_thread := c]> h ->
  store ckpt_thread f t = Ret tt (put_heap (<[ckpt_thread := f c]> h) t).
Proof. intros E. rewrite (node_store_ret _ _ _ c); [|by rewrite E, lookup_insert_eq]. by rewrite E, insert_insert_eq. Qed.
Lemma node_lock_in h c t : heap t = <[ckpt_thread := c]> h -> n_lock c = Free ->
  node_lock ckpt_thread t = Ret 0 (put_heap (<[ckpt_thread := set_nlock Held c]> h) t).
Proof.
  intros E Hc. unfold node_lock. erewrite bind_ret by (apply node_load_ret; by rewrite E, lookup_insert_eq).
  rewrite Hc. erewrite bind_ret by (by apply store_in). done.
Qed.
Lemma node_unlock_in h c t : heap t = <[ckpt_thread := c]> h -> n_lock c = Held ->
  node_unlock ckpt_thread t = Ret 0 (put_heap (<[ckpt_thread := set_nlock Free c]> h) t).
Proof.
  intros E Hc. unfold node_unlock. erewrite bind_ret by (apply node_load_ret; by rewrite E, lookup_insert_eq).
  rewrite Hc. erewrite bind_ret by (by apply store_in). done.
Qed.

Lemma ckpt_thread_init_ok s st tlv t l ph o h c : heap t = <[ckpt_thread := c]> h ->
  returns ckpt_thread_init (mid s st tlv t l ph o) (fun _ s' => exists o', lib_same o o' /\
    s' = mid s st tlv (put_heap (<[ckpt_thread := set_nlock Free (set_state ST_CKPT_THREAD c)]> h) t) l (phase_of st) o').
Proof.
  intros Hh. unfold ckpt_thread_init.
  eapply mid_threads; [by apply (store_in h c)|]. apply mid_checked; [apply mutex_init_ok|]. intros o1 Ho1.
  eapply mid_threads; [by apply (store_in h)|]. apply mid_checked; [apply cond_init_ok|]. intros o2 Ho2.
  eapply mid_threads; [by apply (node_lock_in h)|]. apply mid_call with (a := 0); [apply create_ok|]. intros o3 Ho3. cbn [negb Z.eqb].
  eapply mid_threads; [by apply (node_unlock_in h)|]. apply returns_bind. unfold ckpt_thread_starts.
  eapply mid_threads; [by apply (node_lock_in h)|]. apply mid_state. eapply mid_phase; [reflexivity|]. fold (phase_of st).
  eapply mid_threads; [by apply (node_unlock_in h)|]. apply returns_ret.
  eapply mid_threads; [by apply (node_lock_in h)|]. eapply mid_threads; [by apply (node_unlock_in h)|].
  apply returns_ret. exists o3. split; [|done]. by do 3 (etrans; [eassumption|]).
Qed.

(** What [thread_list_init] makes of the statics: one thread, the caller. *)
Record started t (st : xnd_state) t' : Prop := {
  sd_heap : exists n c' c, heap t !! ckpt_thread = Some c /\
    heap t' = <[ckpt_thread := c']> (<[next_loc t := n]> (heap t)) /\
    n_next n = None /\ n_prev n = None /\ n_lock n = Free /\ n_exiting n = false /\ n_joined n = false /\
    Thr (n_state n) (n_depth n) = (if bool_decide (st = XND_ATFORK) then Thr ST_UNSAFE 1 else Thr ST_RUNNING 0) /\
    c' = set_nlock Free (set_state ST_CKPT_THREAD c);
  sd_next : next_loc t' = Pos.succ (next_loc t);
  sd_tl : thread_list t' = TList (Some (next_loc t)) Free;
  sd_zl : zombie_list t' = TList None Free;
  sd_mtx : ckpt_mtx t' = ckpt_mtx t;
  sd_self : myself t' = Some (next_loc t) /\ _main_thread t' = Some (next_loc t)
}.

Lemma thread_list_init_ok s st tlv t l ph o c : has_flag l -> heap t !! ckpt_thread = Some c -> next_loc t <> ckpt_thread ->
  returns thread_list_init (mid s st tlv t l ph o) (fun _ s' => exists t' l' o', started t st t' /\ has_flag l' /\
    tpidrro l' = tpidrro l /\ lib_same o o' /\ s' = mid s st true t' l' (phase_of st) o').
Proof.
  intros Hl Hc Hne. unfold thread_list_init. apply mid_checked; [apply mutex_init_ok|]. intros o1 Ho1.
  eapply mid_threads; [reflexivity|]. apply mid_tlv_init; [done|]. intros l' Hl' Htp.
  apply mid_call with (a := true); [apply calloc_ok|]. intros o2 Ho2. eapply returns_step; [reflexivity|].
  set (p := next_loc t). eapply mid_threads; [reflexivity|]. cbn [next_loc tl_lock put_tl]. fold p.
  eapply mid_threads; [reflexivity|]. eapply returns_step; [reflexivity|]. cbn.
  set (h := <[p := zero_node]> (heap t)).
  assert (forall f n t', heap t' = <[p := n]> (heap t) -> store p f t' = Ret tt (put_heap (<[p := f n]> (heap t)) t')) as Hst.
  { intros f n t' E. rewrite (node_store_ret _ _ _ n); [|by rewrite E, lookup_insert_eq]. by rewrite E, insert_insert_eq. }
  eapply mid_threads; [by apply (Hst _ zero_node)|]. apply mid_state.
  set (n1 := set_self _ zero_node). set (n2 := if bool_decide (st = XND_ATFORK) then set_depth 1 (set_state ST_UNSAFE n1) else set_state ST_RUNNING n1).
  eapply mid_threads with (a := tt) (t' := put_heap (<[p := n2]> (heap t)) _).
  { unfold n2. destruct (bool_decide _).
    - erewrite bind_ret by (by apply (Hst _ n1)). by rewrite (Hst _ (set_state ST_UNSAFE n1)).
    - by rewrite (Hst _ n1). }
  apply mid_checked; [apply mutex_init_ok|]. intros o3 Ho3. eapply mid_threads; [by apply (Hst _ n2)|].
  apply mid_checked; [apply cond_init_ok|]. intros o4 Ho4. apply returns_bind. unfold zombie_list_init.
  eapply mid_threads; [reflexivity|]. apply mid_checked; [apply mutex_init_ok|]. intros o5 Ho5.
  eapply mid_threads_end; [reflexivity|].
  eapply returns_weaken; [apply (ckpt_thread_init_ok _ _ _ _ _ _ _ (<[p := set_nlock Free n2]> (heap t)) c)|].
  { cbn. symmetry. apply insert_id. by rewrite lookup_insert_ne. }
  intros _ s' (o' & Ho' & ->). eexists _, l', o'. split; [|split; [done|split; [done|split; [|done] ] ] ].
  2:{ by do 6 (etrans; [eassumption|]). }
  split; cbn; try done.
  exists (set_nlock Free n2), (set_nlock Free (set_state ST_CKPT_THREAD c)), c. split; [done|]. split; [done|].
  unfold n2. by destruct (bool_decide _).
Qed.

(** ** Fork *)

(** The statics in the child. *)
Record child_of t (L Z : list loc) t' : Prop := {
  co_settled : settled t' [next_loc t] [];
  co_view : view t' = Some (Thr ST_UNSAFE 1);
  co_self : myself t' = Some (next_loc t) /\ _main_thread t' = Some (next_loc t);
  co_heap : forall p, p <> next_loc t -> p <> ckpt_thread -> heap t' !! p = without (L ++ Z) (heap t) !! p
}.

Lemma started_child t L Z t2 t3 : forking t L Z ->
  (forall p, p <> ckpt_thread -> heap t2 !! p = without (L ++ Z) (heap t) !! p) ->
  next_loc t2 = next_loc t -> started t2 XND_ATFORK t3 -> child_of t L Z (put_mtx Free t3).
Proof.
  intros [Hr _ _ _ (c0 & Hc0 & _)] Hh Hn [Hheap Hnx Htl Hzl Hm [Hme Hmain]].
  destruct Hheap as (n & c' & c & Hc & Hh3 & H1 & H2 & H3 & H4 & H5 & H6 & ->). rewrite Hn in *.
  destruct (next_loc_fresh t L Z c0 Hr Hc0) as (Hne & Hnin & Hnone). set (p := next_loc t) in *.
  assert (heap t3 !! p = Some n) as Hp by (rewrite Hh3, lookup_insert_ne, lookup_insert_eq; done).
  split; cbn.
  - split; cbn; try done; [|by rewrite Htl|by rewrite Hzl|].
    + split; cbn.
      * split; [cbn; by rewrite Htl|]. split; [|apply NoDup_singleton]. split; [|done]. by exists n.
      * split; [cbn; by rewrite Hzl|]. split; [done|]. apply NoDup_nil_2.
      * intros q _. apply not_elem_of_nil.
      * cbn. rewrite list_elem_of_singleton. intros E. by apply Hne.
      * intros q [x Hx]. rewrite Hnx. destruct (decide (q = p)) as [-> |Hqp]; [lia|].
        assert (is_Some (heap t !! q)) as Hq.
        { rewrite Hh3 in Hx. destruct (decide (q = ckpt_thread)) as [-> |Hqc]; [by exists c0|].
          rewrite !lookup_insert_ne, Hh, lookup_without in Hx by done. destruct (decide _); [done|by exists x]. }
        pose proof (rep_fresh _ _ _ Hr q Hq). lia.
    + rewrite Hh3. eexists. split; [apply lookup_insert_eq|done].
  - unfold view. cbn. rewrite Hme. cbn. rewrite Hp. cbn. by rewrite H6.
  - done.
  - intros q Hq Hqc. rewrite Hh3, !lookup_insert_ne, Hh by done. done.
Qed.

Lemma atfork_child_ok s st tlv t l o L Z : forking t L Z -> has_flag l ->
  returns thread_list_atfork_child (mid s st tlv t l CkptNone o) (fun _ s' => exists t' l' o',
    s' = mid s XND_RUNNING true t' l' CkptServing o' /\ child_of t L Z t').
Proof.
  intros Hf Hl. pose proof Hf as [Hr Htl Hzl Hm (c & Hc & Hcl)]. unfold thread_list_atfork_child.
  apply mid_set_state. eapply mid_threads'; [exact (free_list_ok _ L t (rep_l _ _ _ Hr))|]. intros _ t1 ->.
  eapply mid_threads'; [apply (free_list_ok (fun t => head (zombie_list t)) Z)|].
  { eapply list_other; [exact (rep_z _ _ _ Hr)|done|]. intros q Hq. cbn. rewrite lookup_without, decide_False; [done|].
    intros Hq'. by apply (rep_apart _ _ _ Hr q). }
  intros _ t2 ->. cbn [heap put_heap]. rewrite without_app. set (h := without (L ++ Z) (heap t)).
  change (put_heap h (put_heap _ t)) with (put_heap h t).
  eapply mid_threads; [apply or_abort_ok, unlock_held; exact Hm|].
  eapply mid_threads; [apply or_abort_ok, unlock_held; exact Htl|].
  eapply mid_threads; [apply or_abort_ok, unlock_held; exact Hzl|].
  assert (h !! ckpt_thread = Some c) as Hc'.
  { unfold h. rewrite lookup_without, decide_False; [done|]. exact (rep_static _ _ _ Hr). }
  eapply mid_threads; [apply or_abort_ok, (node_unlock_in h c); [cbn; by rewrite insert_id|done]|].
  set (h1 := <[ckpt_thread := set_nlock Free c]> h).
  apply returns_bind. eapply returns_weaken; [apply (thread_list_init_ok _ _ _ _ _ _ _ (set_nlock Free c)); [done| |]|].
  { cbn. apply lookup_insert_eq. }
  { cbn. by destruct (next_loc_fresh t L Z c Hr Hc). }
  intros _ s' (t3 & l3 & o3 & Hst & Hl3 & _ & Ho3 & ->).
  apply mid_checked; [apply mutex_init_ok|]. intros o4 Ho4. eapply mid_threads; [reflexivity|].
  apply mid_checked; [apply cond_init_ok|]. intros o5 Ho5. apply mid_checked; [apply cond_init_ok|]. intros o6 Ho6.
  pose proof (sd_heap _ _ _ Hst) as (n & c' & c1 & Hc1 & Hh3 & H1 & H2 & H3 & H4 & H5 & H6 & ->).
  cbn in Hc1, Hh3. unfold h1 in Hc1. rewrite lookup_insert_eq in Hc1. injection Hc1 as <-.
  eapply mid_threads; [eapply (node_lock_in _ _ (put_mtx Free t3)); [exact Hh3|done]|]. apply mid_set_state.
  eapply mid_phase; [reflexivity|].
  eapply mid_threads; [by eapply node_unlock_in|]. apply returns_ret.
  exists (put_mtx Free t3), l3, o6. split; [|eapply started_child; [exact Hf| | |exact Hst]; [|done]].
  - f_equal. destruct t3. unfold put_heap, put_mtx. cbn in *. by rewrite Hh3.
  - intros q Hq. cbn. unfold h1. by rewrite lookup_insert_ne.
Qed.
End init.

Section fork.
Context {O : Type} `{!IoSys O, !FdSys O, !ClientOS O, !PidOS O, !LibOS O, !LibOk O, !IterOrder} (stack_msg : xnd_msg).
Implicit Types (s : pstate (sys O)) (t : threads).

Lemma cohere_mid s : cohere s = mid s (libxnd_state (g_lib s)) (tlv_ok (g_lib s)) (threads_of s) (s_tls (g_k s)) (s_ckpt (g_k s)) (s_os (g_k s)).
Proof. by destruct s as [? ? ? ? ? [] ? ? []]. Qed.
Lemma threads_first {A B} (m : M threads A) (k : A -> M (pstate (sys O)) B) s :
  (on_threads m ≫= k) s = (on_threads m ≫= k) (cohere s).
Proof. unfold mbind, M_bind. by rewrite on_threads_cohere. Qed.

Lemma prepare_cohere s : thread_list_atfork_prepare s = thread_list_atfork_prepare (cohere s).
Proof. apply threads_first. Qed.
Lemma parent_cohere s : thread_list_atfork_parent s = thread_list_atfork_parent (cohere s).
Proof. apply threads_first. Qed.
Lemma child_cohere s : thread_list_atfork_child s = thread_list_atfork_child (cohere s).
Proof.
  unfold thread_list_atfork_child. rewrite !(bind_ret (set_xnd_state XND_ATFORK) _ _ tt _ eq_refl), threads_first. done.
Qed.

Lemma prepare_threads s st tlv t l ph o L Z : settled t L Z ->
  thread_list_atfork_prepare (mid s st tlv t l ph o) = Ret tt (mid s st tlv (held t) l ph o).
Proof.
  intros [Hr Htl Hzl Hm (c & Hc & Hcl)].
  assert (returns thread_list_atfork_prepare (mid s st tlv t l ph o) (fun _ s' => s' = mid s st tlv (held t) l ph o)) as Hx.
  2:{ apply returns_inv in Hx as ([] & s' & E & ->). exact E. }
  unfold thread_list_atfork_prepare. eapply mid_threads; [apply lock_free; exact Hm|].
  eapply mid_threads; [apply or_abort_ok, lock_free; exact Htl|].
  eapply mid_threads; [apply or_abort_ok, lock_free; exact Hzl|].
  eapply mid_threads; [eapply (node_lock_in (heap t) c); [cbn; by rewrite insert_id|done]|].
  apply returns_ret. unfold held. by rewrite (alter_ckpt _ c).
Qed.
Lemma parent_threads s st tlv t l ph o L Z : settled t L Z ->
  thread_list_atfork_parent (mid s st tlv (held t) l ph o) = Ret tt (mid s st tlv t l ph o).
Proof.
  intros [Hr Htl Hzl Hm (c & Hc & Hcl)].
  assert (returns thread_list_atfork_parent (mid s st tlv (held t) l ph o) (fun _ s' => s' = mid s st tlv t l ph o)) as Hx.
  2:{ apply returns_inv in Hx as ([] & s' & E & ->). exact E. }
  unfold thread_list_atfork_parent.
  eapply mid_threads; [eapply (node_unlock_in (heap t) (set_nlock Held c)); [cbn; by apply alter_ckpt|done]|].
  eapply mid_threads; [apply or_abort_ok, unlock_held; done|].
  eapply mid_threads; [apply or_abort_ok, unlock_held; done|].
  eapply mid_threads; [apply unlock_held; done|]. apply returns_ret. f_equal.
  assert (set_nlock Free (set_nlock Held c) = c) as -> by (destruct c; cbn in *; by subst).
  rewrite insert_id by done. destruct t as [h nl [hd lk] [zh zk] mt me mn]. cbn in *. by subst.
Qed.

(** The state [xnd_atfork_prepare] leaves, from the one the coordinator's client
    leaves. *)
Definition no_shared_region (e : env_state) : env_state := EnvState (delete DYLD_SHARED_REGION (environ e)) (ckpt_sig_cache e).
Definition prepared s : pstate (sys O) :=
  let s := put_table (VTable (table (g_table s)) true) s in
  put_env (no_shared_region (g_env s)) (set_threads (held (threads_of s)) s).

Lemma prepare_eq s s1 L Z : coord_client_atfork_prepare stack_msg s = Ret tt s1 ->
  vlocked (g_table s) = false -> settled (threads_of s) L Z ->
  xnd_atfork_prepare stack_msg s = Ret tt (prepared s1).
Proof.
  intros E Hv Hs. destruct (keeps_ret _ _ _ _ _ (keeps_prepare stack_msg) E) as [_ _ Ht Hself Hlib [o Hk]].
  unfold xnd_atfork_prepare. rewrite (bind_ret _ _ _ _ _ E).
  set (s2 := put_table (VTable (table (g_table s1)) true) s1).
  assert (pid_table_atfork_prepare s1 = Ret tt s2) as E2.
  { unfold pid_table_atfork_prepare, pid_table_acquire. erewrite bind_ret by done. unfold s2. by rewrite Ht, Hv. }
  rewrite (bind_ret _ _ _ _ _ E2).
  assert (threads_of s2 = threads_of s) as HT by (unfold threads_of; cbn; by rewrite Hself, Hk).
  assert (thread_list_atfork_prepare s2 = Ret tt (set_threads (held (threads_of s2)) s2)) as E3.
  { rewrite prepare_cohere, cohere_mid.
    rewrite HT in *. rewrite (prepare_threads _ _ _ _ _ _ _ L Z Hs). by destruct s1 as [? ? ? ? ? [] ? ? []]. }
  rewrite (bind_ret _ _ _ _ _ E3). unfold prepared. fold s2.
  set (s3 := set_threads _ _). change (g_env s2) with (g_env s3).
  assert (on_env env_get_dyld_shared_region s3 = Ret (environ (g_env s3) !! DYLD_SHARED_REGION) s3) as E4.
  { clearbody s3. by destruct s3. }
  rewrite (bind_ret _ _ _ _ _ E4). destruct (environ (g_env s3) !! DYLD_SHARED_REGION) eqn:Er; [done|].
  clearbody s3. unfold no_shared_region. rewrite delete_id by done. by destruct s3 as [? ? ? ? ? ? ? [] ?].
Qed.

(** The threads' statics come back as they were. *)
Lemma parent_eq s1 o L Z : settled (threads_of s1) L Z ->
  returns xnd_atfork_parent (put_sys (put_os o) (prepared s1)) (fun _ s' =>
    s_threads (g_k s') = threads_of s1 /\ g_self s' = view (threads_of s1) /\ g_lib s' = g_lib s1 /\
    g_table s' = VTable (table (g_table s1)) false /\ oob_locked (g_client s') = false /\ s_ckpt (g_k s') = s_ckpt (g_k s1) /\ g_env s' = no_shared_region (g_env s1)).
Proof.
  intros Hs. set (T := threads_of s1) in *. unfold xnd_atfork_parent.
  destruct s1 as [ps i [c1 c2 c3 c4] [tb vl] self [st tlv] er ev [fds sg tls t ph rg os]].
  eapply returns_step; [reflexivity|]. eapply returns_step; [reflexivity|].
  match goal with |- returns _ ?x _ => set (s4 := x) end.
  assert (threads_of s4 = held T) as E by (apply coherent_threads; reflexivity).
  unfold returns. rewrite parent_cohere, cohere_mid, E.
  rewrite (parent_threads _ _ _ _ _ _ _ L Z Hs). done.
Qed.

(** The child after the system call: a copy of the prepared state without a
    checkpoint thread. *)
Definition child_state o s1 : pstate (sys O) := put_sys (fun w => put_os o (put_phase CkptNone w)) (prepared s1).

(** The child's pids, when the coordinator has registered it. *)
Record registered s : Prop := {
  rg_parent : table (g_table s) !! virt_ppid (g_pids s) = Some (_real_getppid (g_k s));
  rg_distinct : virt_pid (g_pids s) <> virt_ppid (g_pids s)
}.

(** A process of one thread that is in [__fork_hook], with its checkpoint
    thread serving and no lock held. *)
Record fresh_child t (L Z : list loc) s' : Prop := {
  fc_threads : child_of (held t) L Z (s_threads (g_k s'));
  fc_self : g_self s' = entered (Some (Thr ST_RUNNING 0));
  fc_state : libxnd_state (g_lib s') = XND_RUNNING /\ tlv_ok (g_lib s') = true;
  fc_ckpt : s_ckpt (g_k s') = CkptServing;
  fc_oob : oob_locked (g_client s') = false;
  fc_table : vlocked (g_table s') = false /\
    table (g_table s') !! virt_pid (g_pids s') = Some (real_pid (g_pids s'))
}.

Lemma pid_child_ok s : registered s ->
  exists s', pid_table_atfork_child s = Ret tt s' /\ g_client s' = g_client s /\ g_self s' = g_self s /\ g_lib s' = g_lib s /\ g_k s' = g_k s /\
    vlocked (g_table s') = false /\ table (g_table s') !! virt_pid (g_pids s') = Some (real_pid (g_pids s')).
Proof.
  intros [Hp Hd]. destruct s as [[vp rp vpp rpp] i c [tb vl] self lb er ev k]. cbn in Hp, Hd.
  set (m := update vp (_real_getpid (s_os k)) tb).
  exists (PState (Pids vp (_real_getpid (s_os k)) vpp (_real_getppid (s_os k))) i c (VTable m false) self lb er ev k).
  split; [|cbn; unfold m, update; by rewrite lookup_insert_eq].
  assert (virtual_to_real vpp m =? _real_getppid (s_os k) = true) as E.
  { unfold virtual_to_real, m, update. rewrite lookup_insert_ne by done. rewrite Hp. apply Z.eqb_refl. }
  unfold pid_table_atfork_child. do 6 (erewrite bind_ret by reflexivity).
  cbn -[virtual_to_real update]. fold m. rewrite E. done.
Qed.

Lemma child_eq s1 o s3 L Z : settled (threads_of s1) L Z -> has_flag (s_tls (g_k s1)) ->
  coord_client_atfork_child (child_state o s1) = Ret tt s3 -> registered s3 ->
  returns xnd_atfork_child (child_state o s1) (fun _ s' => fresh_child (threads_of s1) L Z s').
Proof.
  intros Hs Hl E Hr. destruct (child_kept _ _ E) as [[_ _ Ht Hself Hlib [o3 Hk]] Hoob].
  unfold xnd_atfork_child. eapply returns_step; [exact E|].
  destruct (pid_child_ok s3 Hr) as (s4 & E4 & Hcl4 & Hself4 & Hlib4 & Hk4 & Hv4 & Hpid4).
  eapply returns_step; [exact E4|].
  assert (threads_of s4 = held (threads_of s1)) as HT.
  { unfold threads_of. rewrite Hself4, Hself, Hk4, Hk. apply flush_view. }
  unfold returns. rewrite child_cohere, cohere_mid, HT.
  assert (s_ckpt (g_k s4) = CkptNone) as -> by by rewrite Hk4, Hk.
  assert (has_flag (s_tls (g_k s4))) as Hl4 by by rewrite Hk4, Hk.
  eapply returns_weaken; [by apply (atfork_child_ok _ _ _ _ _ _ L Z (held_forking _ _ _ Hs))|].
  intros _ s' (t' & l' & o' & -> & Hc). split; try done; [exact (co_view _ _ _ _ Hc)|by rewrite <- Hoob, <- Hcl4].
Qed.

#[local] Instance hook_fork : ForkOS (sys O) := lib_fork stack_msg.

(** The state in which [__fork_hook] calls [fork]. *)
Definition in_hook s : pstate (sys O) := put_self (entered (g_self s)) s.

(** A thread about to call [fork]: outside a checkpoint or running, with no
    lock held, its handlers registered and its thread flagged; the coordinator
    has registered a child, which gives [s1]. *)
Record can_fork s s1 (L Z : list loc) : Prop := {
  cf_self : self_ok (g_self s);
  cf_handlers : xnd_atfork_registered (g_k s) = true;
  cf_coord : coord_client_atfork_prepare stack_msg (in_hook s) = Ret tt s1;
  cf_vlock : vlocked (g_table s) = false;
  cf_threads : settled (threads_of (in_hook s)) L Z;
  cf_flag : has_flag (s_tls (g_k s))
}.

Lemma can_fork_prepare s s1 L Z : can_fork s s1 L Z ->
  xnd_atfork_prepare stack_msg (in_hook s) = Ret tt (prepared s1) /\
  threads_of s1 = threads_of (in_hook s) /\ kept false (in_hook s) s1.
Proof.
  intros [Hself Hreg Hc Hv Hs Hl]. pose proof (keeps_ret _ _ _ _ _ (keeps_prepare stack_msg) Hc) as Hk.
  split; [by apply (prepare_eq _ _ L Z)|]. split; [|done]. destruct Hk as [_ _ _ Hse _ [o Ho]].
  unfold threads_of. by rewrite Hse, Ho.
Qed.

(** What [__fork_hook] does after [fork] returned [r]. *)
Definition after_fork (r : Z) : M (pstate (sys O)) Z :=
  virt_ret ← (if r =? -1 then PidHooks.xnd_atfork_failed;; mret (-1)
              else if r =? 0 then mret 0
              else
                info ← on_env (env_get_pid_info true false false false);
                let virt := default (-1) info.1.1.1 in
                pid_table_acquire;;
                pid_table_update virt r;;
                pid_table_release;;
                mret virt);
  unsafe_exit;;
  mret virt_ret.
Lemma after_fork_parent s r v (t : option thr) : 0 < r -> environ (g_env s) !! XND_VIRTUAL_PID_ENV = Some v ->
  vlocked (g_table s) = false -> self_ok t -> g_self s = entered t ->
  after_fork r s = Ret (atoi v) (put_self t (put_table (VTable (<[atoi v := r]> (table (g_table s))) false) s)).
Proof.
  intros Hr Hv Hl Hok Hs. unfold after_fork. rewrite !(proj2 (Z.eqb_neq r _)) by lia.
  set (virt := atoi v). set (s1 := put_table (VTable (<[virt := r]> (table (g_table s))) false) s).
  assert (forall k : Z -> M (pstate (sys O)) Z, ((info ← on_env (env_get_pid_info true false false false);
    let virt := default (-1) info.1.1.1 in
    pid_table_acquire;; pid_table_update virt r;; pid_table_release;; mret virt) ≫= k) s = k virt s1) as Hupd.
  { intros k. assert (on_env (env_get_pid_info true false false false) s = Ret (Some virt, None, None, None) s) as Ev.
    { unfold on_env, env_get_pid_info, env_get_pid, getenv. mrun. rewrite Hv. by destruct s. }
    rewrite bind_assoc, (bind_ret _ _ _ _ _ Ev). cbn [default fst].
    destruct s as [ps i cl [tb vl] self lb er ev kk]. cbn in Hl. subst vl. reflexivity. }
  rewrite Hupd. by rewrite (bind_ret _ _ _ _ _ (unsafe_exit_spec s1 t Hok Hs)).
Qed.

(** The system call, and the handlers of the process it returns in. *)
Lemma hook_forks s s1 L Z r o : can_fork s s1 L Z -> k_fork (s_os (g_k s1)) = (r, o) ->
  __fork_hook (K := sys O) s =
    if r =? 0 then (xnd_atfork_child;; after_fork r) (child_state o s1)
    else (xnd_atfork_parent;; after_fork r) (put_sys (put_os o) (prepared s1)).
Proof.
  intros Hc Hf. destruct (can_fork_prepare _ _ _ _ Hc) as (Hp & _ & Hk).
  unfold __fork_hook. rewrite (bind_ret _ _ _ _ _ (unsafe_enter_spec s (cf_self _ _ _ _ Hc))). fold (in_hook s).
  assert (PidHooks.xnd_register_fork_handlers (in_hook s) = Ret tt (in_hook s)) as Er.
  { cbn. unfold xnd_register_fork_handlers. erewrite bind_ret by reflexivity. cbn. by rewrite (cf_handlers _ _ _ _ Hc). }
  rewrite (bind_ret _ _ _ _ _ Er).
  change PidHooks.fork with (fork (O := O) stack_msg). unfold fork. rewrite bind_assoc.
  rewrite (bind_ret get _ _ (in_hook s) (in_hook s)) by reflexivity.
  change (xnd_atfork_registered (g_k (in_hook s))) with (xnd_atfork_registered (g_k s)).
  rewrite (cf_handlers _ _ _ _ Hc). cbn [negb]. rewrite bind_assoc, (bind_ret _ _ _ _ _ Hp).
  assert (os_call k_fork (prepared s1) = Ret r (put_sys (put_os o) (prepared s1))) as E.
  { unfold os_call, on_os, zoom. change (s_os (g_k (prepared s1))) with (s_os (g_k s1)). by rewrite Hf. }
  rewrite bind_assoc, (bind_ret _ _ _ _ _ E), bind_assoc. fold (after_fork r). destruct (r =? 0); [|done].
  rewrite bind_assoc. done.
Qed.

Lemma hook_child s s1 L Z o Q : can_fork s s1 L Z -> k_fork (s_os (g_k s1)) = (0, o) ->
  returns (xnd_atfork_child;; after_fork 0) (child_state o s1) Q -> returns (__fork_hook (K := sys O)) s Q.
Proof. intros Hc Hf HQ. unfold returns. by rewrite (hook_forks _ _ _ _ _ _ Hc Hf). Qed.
Lemma hook_parent s s1 L Z r o : can_fork s s1 L Z -> k_fork (s_os (g_k s1)) = (r, o) -> r <> 0 ->
  __fork_hook (K := sys O) s = (xnd_atfork_parent;; after_fork r) (put_sys (put_os o) (prepared s1)).
Proof. intros Hc Hf Hr. rewrite (hook_forks _ _ _ _ _ _ Hc Hf). by rewrite (proj2 (Z.eqb_neq r 0) Hr). Qed.

(** C16. A child that returns from the hooked [fork] is a fresh process of the
    library: it runs outside any unsafe section, the only thread of its list
    with every other thread's and zombie's descriptor freed, its own checkpoint
    thread serves the coordinator, its pids are in the table, and every lock
    the parent's thread took over the call is free again. *)
Theorem forked_child_fresh s s1 L Z o s3 : can_fork s s1 L Z -> k_fork (s_os (g_k s1)) = (0, o) ->
  coord_client_atfork_child (child_state o s1) = Ret tt s3 -> registered s3 ->
  returns (__fork_hook (K := sys O)) s (fun r s' => r = 0 /\ g_self s' = Some (Thr ST_RUNNING 0) /\
    libxnd_state (g_lib s') = XND_RUNNING /\ s_ckpt (g_k s') = CkptServing /\
    (exists me, myself (s_threads (g_k s')) = Some me /\ settled (s_threads (g_k s')) [me] [] /\
      forall p, p ∈ L ++ Z -> p <> me -> heap (s_threads (g_k s')) !! p = None) /\
    oob_locked (g_client s') = false /\ vlocked (g_table s') = false /\
    table (g_table s') !! virt_pid (g_pids s') = Some (real_pid (g_pids s'))).
Proof.
  intros Hc Hf E Hr. destruct (can_fork_prepare _ _ _ _ Hc) as (_ & Ht & Hk). eapply hook_child; [done|done|].
  assert (settled (threads_of s1) L Z) as Hs by (rewrite Ht; apply Hc).
  assert (has_flag (s_tls (g_k s1))) as Hl.
  { destruct Hk as [_ _ _ _ _ [o' ->]]. apply Hc. }
  enough (returns (xnd_atfork_child;; after_fork 0) (child_state o s1) (fun r s' => r = 0 /\ exists s4,
    fresh_child (threads_of s1) L Z s4 /\ s' = put_self (Some (Thr ST_RUNNING 0)) s4)) as Hx.
  { eapply returns_weaken; [exact Hx|]. intros r s' (-> & s4 & [Hth Hself [Hst _] Hck Hoob [Hv Htb]] & ->).
    destruct Hth as [Hset _ [Hme _] Hheap]. repeat (split; [done|]). split; [|done]. eexists. split; [exact Hme|].
    split; [exact Hset|]. intros p Hp Hne. cbn. rewrite Hheap; [|exact Hne|].
    - rewrite lookup_without, decide_True; done.
    - intros ->. by apply (rep_static _ _ _ (la_rep _ _ _ _ Hs)). }
  apply returns_bind. eapply returns_weaken; [by apply (child_eq s1 o s3 L Z)|]. intros [] s4 Hfc.
  unfold after_fork. cbn [Z.eqb]. eapply returns_step; [reflexivity|].
  eapply returns_step; [apply (unsafe_exit_spec _ (Some (Thr ST_RUNNING 0))); [|exact (fc_self _ _ _ _ Hfc)]|].
  - right. exists ST_RUNNING, 0. split; [done|]. split; [lia|]. by left.
  - apply returns_ret. split; [done|]. by exists s4.
Qed.

(** C23. The parent goes on as it was: the hooked [fork] returns the child's
    virtual pid, which the table maps to its real one, the calling thread is in
    the state it was in, the thread and zombie lists are untouched and every
    lock is free again. *)
Theorem forked_parent_resumes s s1 L Z r o v : can_fork s s1 L Z -> k_fork (s_os (g_k s1)) = (r, o) -> 0 < r ->
  view (threads_of (in_hook s)) = entered (g_self s) -> environ (g_env s1) !! XND_VIRTUAL_PID_ENV = Some v ->
  returns (__fork_hook (K := sys O)) s (fun ret s' => ret = atoi v /\ g_self s' = g_self s /\ g_lib s' = g_lib s /\
    settled (s_threads (g_k s')) L Z /\ s_threads (g_k s') = threads_of (in_hook s) /\ s_ckpt (g_k s') = s_ckpt (g_k s) /\
    oob_locked (g_client s') = false /\ g_table s' = VTable (<[ret := r]> (table (g_table s))) false).
Proof.
  intros Hc Hf Hr Hview Hv. destruct (can_fork_prepare _ _ _ _ Hc) as (_ & Ht & Hk).
  assert (settled (threads_of s1) L Z) as Hs by (rewrite Ht; apply Hc).
  destruct Hk as [_ _ Htb Hse Hlb [o' Hk]].
  enough (returns (xnd_atfork_parent;; after_fork r) (put_sys (put_os o) (prepared s1)) (fun ret s' => ret = atoi v /\
    exists s4, s_threads (g_k s4) = threads_of s1 /\ g_lib s4 = g_lib s1 /\ oob_locked (g_client s4) = false /\
      s_ckpt (g_k s4) = s_ckpt (g_k s1) /\ g_table s4 = VTable (<[ret := r]> (table (g_table s1))) false /\
      s' = put_self (g_self s) s4)) as Hx.
  { apply returns_inv in Hx as (ret & s' & E & -> & s4 & H1 & H2 & H3 & H4 & H5 & ->).
    eapply returns_intro; [rewrite (hook_parent _ _ _ _ _ _ Hc Hf); [exact E|lia]|]. cbn.
    rewrite H1, H2, H4, H5, Ht, Hlb, Htb, Hk. repeat (split; [done|]). split; [by rewrite <- Ht|]. done. }
  apply returns_bind. eapply returns_weaken; [by apply (parent_eq s1 o L Z)|].
  intros [] s4 (H1 & H2 & H3 & H4 & H5 & H6 & H7).
  assert (environ (g_env s4) !! XND_VIRTUAL_PID_ENV = Some v) as Hv4.
  { rewrite H7. unfold no_shared_region. cbn. by rewrite lookup_delete_ne. }
  eapply returns_intro; [apply (after_fork_parent s4 r v (g_self s)); [lia|done|by rewrite H4|apply Hc|]|].
  { by rewrite H2, Ht. }
  split; [done|]. eexists. split; [|split; [|split; [|split; [|split; [|reflexivity] ] ] ] ]; cbn; try done. by rewrite H4.
Qed.

(** C32. When the system call fails and libc runs the parent's handlers, the
    hook's own [xnd_atfork_failed] releases locks that are free already, which
    is undefined. *)
Theorem failed_fork_undefined s s1 L Z o : can_fork s s1 L Z -> k_fork (s_os (g_k s1)) = (-1, o) ->
  __fork_hook (K := sys O) s = Ub.
Proof.
  intros Hc Hf. destruct (can_fork_prepare _ _ _ _ Hc) as (_ & Ht & Hk).
  rewrite (hook_parent _ _ _ _ _ _ Hc Hf) by done.
  assert (settled (threads_of s1) L Z) as Hs by (rewrite Ht; apply Hc).
  destruct (returns_inv _ _ _ (parent_eq s1 o L Z Hs)) as ([] & s4 & E & (_ & _ & _ & H4 & _)).
  rewrite (bind_ret _ _ _ _ _ E).
  assert (PidHooks.xnd_atfork_failed s4 = Ub) as Hub.
  { destruct s4 as [ps i cl [tb vl] self lb er ev k]. cbn in H4. injection H4 as -> ->. reflexivity. }
  unfold after_fork. apply bind_ub, bind_ub. exact Hub.
Qed.
End fork.
