(* ===== verification/LibLife.v ===== *)
(** Loading and unloading the library: [xnd_setup] and the end of the threads'
    lists in [xnd_cleanup], of [Lib]. *)

From S2P Require Import Prelude Cstr Env Bytes Io CoordMsg Process PidTable Time PidHooks CoordProps CoordClient.
From S2P Require Import CkptFile FdTable FdProps SigHooks SigProps Tls ThreadList Lib LibProps.
Open Scope Z_scope.

Section life.
Context {O : Type} `{!IoSys O, !FdSys O, !ClientOS O, !PidOS O, !FileOS O, !SigCalls O, !SigSpec O, !LibOS O, !LibOk O, !IterOrder}.
Context (heap_src : fd_source) (thread_sighandler xnd_sigtramp : Z).
Implicit Types (s : pstate (sys O)) (t : threads).

(** The statics of [thread_info.c] in a process that has just been loaded. *)
Definition loaded_threads : threads :=
  Threads {[ckpt_thread := zero_node]} 2 (TList None Dead) (TList None Dead) Free None None.
Record loaded s : Prop := {
  ld_threads : s_threads (g_k s) = loaded_threads;
  ld_self : g_self s = None;
  ld_fds : exists k, s_fds (g_k s) = put_init false (blank_table k);
  ld_table : vlocked (g_table s) = false;
  ld_flag : has_flag (s_tls (g_k s));
  ld_state : libxnd_state (g_lib s) = XND_UNINITIALIZED
}.

Lemma coherent_mid s : coherent s ->
  s = mid s (libxnd_state (g_lib s)) (tlv_ok (g_lib s)) (s_threads (g_k s)) (s_tls (g_k s)) (s_ckpt (g_k s)) (s_os (g_k s)).
Proof. intros Hc. destruct s as [? ? ? ? ? [] ? ? []]. unfold coherent in Hc. cbn in Hc. by rewrite Hc. Qed.

(** A process of one thread, just started. *)
Lemma started_settled t : started loaded_threads XND_UNINITIALIZED t ->
  settled t [2%positive] [] /\ view t = Some (Thr ST_RUNNING 0) /\ myself t = Some 2%positive.
Proof.
  intros [(n & c' & c & Hc & Hh & H1 & H2 & H3 & _ & _ & H4 & ->) Hn Htl Hzl Hm [Hme _]]. cbn in *.
  assert (heap t !! 2%positive = Some n) as Hp by (by rewrite Hh).
  split; [|split; [|done] ].
  - split; [|by rewrite Htl|by rewrite Hzl|done|].
    + split.
      * split; [cbn; by rewrite Htl|]. split; [|apply NoDup_singleton]. split; [|done]. by exists n.
      * split; [cbn; by rewrite Hzl|]. split; [done|apply NoDup_nil_2].
      * intros q _. apply not_elem_of_nil.
      * cbn. rewrite list_elem_of_singleton. done.
      * intros q [x Hx]. rewrite Hn. rewrite Hh in Hx. unfold ckpt_thread in Hx.
        rewrite !lookup_insert_Some, lookup_singleton_Some in Hx. naive_solver lia.
    + rewrite Hh. eexists. split; [apply lookup_insert_eq|done].
  - unfold view. rewrite Hme. cbn. rewrite Hp. cbn. by rewrite H4.
Qed.

(** The pids of a process that the coordinator knows. *)
Definition known s : Prop := virt_pid (g_pids s) <> -1 /\ virt_ppid (g_pids s) <> -1 /\ virt_pid (g_pids s) <> virt_ppid (g_pids s).
Lemma pid_info_ok s : known s -> vlocked (g_table s) = false ->
  exists p m, pid_table_init_pid_info s = Ret tt (put_table (VTable m false) (put_pids p s)) /\
    p = Pids (virt_pid (g_pids s)) (_real_getpid (s_os (g_k s))) (virt_ppid (g_pids s)) (_real_getppid (s_os (g_k s))) /\
    m !! virt_pid p = Some (real_pid p) /\ m !! virt_ppid p = Some (real_ppid p).
Proof.
  intros (H1 & H2 & H3) Hl. destruct s as [[vp rp vpp rpp] i c [tb vl] self lb er ev k]. cbn in *. subst vl.
  eexists _, _. split; [|split; [reflexivity|] ].
  - unfold pid_table_init_pid_info. erewrite bind_ret by reflexivity. cbn [g_pids virt_pid virt_ppid].
    rewrite (proj2 (Z.eqb_neq vp (-1))), (proj2 (Z.eqb_neq vpp (-1))) by done. reflexivity.
  - cbn. unfold update. rewrite lookup_insert_ne, !lookup_insert_eq by done. done.
Qed.

(** [xnd_setup] up to [thread_list_init]: the checkpoint signal's handler and
    the descriptor table. *)
Definition setup_first (mask : Z) : M (pstate (sys O)) unit :=
  connect_to_coord_on_launch;;
  sig ← on_env env_get_ckpt_signal;
  r ← on_sigs (__xnd_sigaction xnd_sigtramp sig (Some (Sigaction thread_sighandler mask SA_SIGINFO)));
  if negb (r.1 =? 0) then abort else on_fds (fd_table_init heap_src).

Record prepared_first s1 (c mask : Z) s' : Prop := {
  pf_fds : wf 1 (fds_of s') /\ exact (fds_of s');
  pf_disp : forall j, disp (s_os (g_k s')) j =
    if j =? c then installed xnd_sigtramp (Sigaction thread_sighandler mask SA_SIGINFO) else disp (s_os (g_k s1)) j;
  pf_rest : s_threads (g_k s') = s_threads (g_k s1) /\ g_self s' = g_self s1 /\ g_lib s' = g_lib s1 /\
    g_table s' = g_table s1 /\ g_pids s' = g_pids s1 /\ s_tls (g_k s') = s_tls (g_k s1)
}.

Lemma setup_first_ok s s1 c e mask : loaded s -> connect_to_coord_on_launch s = Ret tt s1 ->
  env_get_ckpt_signal (g_env s1) = Ret c e -> valid_sig c ->
  returns (setup_first mask) s (fun _ s' => prepared_first s1 c mask s').
Proof.
  intros [_ _ [k Hf] _ _ _] E He Hc. destruct (keeps_ret _ _ _ _ _ (keeps_launch true) E) as [_ _ _ _ _ [o Hk]].
  unfold setup_first. eapply returns_step; [exact E|].
  eapply returns_step; [unfold on_env; rewrite He; reflexivity|]. apply returns_bind, zoom_returns.
  eapply returns_weaken; [apply xnd_sigaction_ok; [apply Hc|intros _; split; apply Hc]|].
  intros [r old] g ([= -> _] & k' & -> & _ & Hd). cbn [fst Z.eqb negb].
  set (s2 := set_sigs _ _). apply zoom_returns.
  assert (fds_of s2 = put_init false (blank_table k')) as Hf2.
  { unfold fds_of, s2, set_sigs. cbn. rewrite Hk. cbn. by rewrite Hf. }
  pose proof (fd_table_init_wf heap_src k') as Hw. unfold returns in *. rewrite Hf2. rewrite fd_table_init_eq in *.
  split; [exact Hw|exact Hd|done].
Qed.

(** The rest of [xnd_setup]. *)
Definition setup_rest : M (pstate (sys O)) unit :=
  thread_list_init;;
  pid_table_init;;
  pid_table_init_pid_info;;
  tmp ← on_env env_get_tmp_binary;
  unlink_tmp tmp env_unlink_tmp_at_init;;
  set_xnd_state XND_RUNNING.
Lemma xnd_setup_eq mask s :
  xnd_setup heap_src thread_sighandler xnd_sigtramp mask s = (setup_first mask;; setup_rest) s.
Proof.
  unfold xnd_setup, setup_first, mbind, M_bind. destruct (connect_to_coord_on_launch s) as [[] s1| | | |]; try done.
  destruct (on_env env_get_ckpt_signal s1) as [c s2| | | |]; try done.
  destruct (on_sigs _ s2) as [r s3| | | |]; try done. by destruct (negb _).
Qed.

(** The temporary copy of the program is removed, or not. *)
Lemma unlink_tmp_ok s now : (forall e, exists b, now e = Ret b e) ->
  returns (tmp ← on_env env_get_tmp_binary; unlink_tmp tmp now) s (fun _ s' => exists o,
    lib_same (s_os (g_k s)) o /\ s' = put_sys (put_os o) s).
Proof.
  intros Hn. assert (forall s, exists o, lib_same (s_os (g_k s)) o /\ s = put_sys (put_os o) s) as Hid.
  { intros s0. exists (s_os (g_k s0)). split; [reflexivity|]. by destruct s0 as [? ? ? ? ? ? ? ? []]. }
  assert (on_env env_get_tmp_binary s = Ret (environ (g_env s) !! XND_TMP_BINARY_ENV) s) as E by by destruct s.
  eapply returns_step; [exact E|]. destruct (_ !! _) as [tmp|]; [|by apply returns_ret].
  destruct (Hn (g_env s)) as [b Hb]. cbn [unlink_tmp].
  assert (on_env now s = Ret b s) as E' by (unfold on_env; rewrite Hb; by destruct s).
  eapply returns_step; [exact E'|]. destruct b; [|by apply returns_ret].
  unfold returns. cbn. eexists. split; [apply (unlink_ok tmp)|done].
Qed.

(** C18. The library starts: when the coordinator has registered the process,
    [xnd_setup] returns in a running process whose checkpoint signal, and no
    other, has [thread_sighandler]; whose descriptor table is sound; whose
    thread list is the calling thread, outside any unsafe section; whose
    checkpoint thread serves the coordinator; and whose virtual pids are in the
    table with the pids the kernel gave. *)
Theorem library_starts s s1 c e mask : loaded s -> connect_to_coord_on_launch s = Ret tt s1 -> known s1 ->
  env_get_ckpt_signal (g_env s1) = Ret c e -> valid_sig c ->
  (forall o o' j, lib_same o o' -> disp o' j = disp o j) ->
  returns (xnd_setup heap_src thread_sighandler xnd_sigtramp mask) s (fun _ s' =>
    libxnd_state (g_lib s') = XND_RUNNING /\ tlv_ok (g_lib s') = true /\ g_self s' = Some (Thr ST_RUNNING 0) /\
    settled (s_threads (g_k s')) [2%positive] [] /\ s_ckpt (g_k s') = CkptServing /\
    wf 1 (fds_of s') /\ exact (fds_of s') /\
    vlocked (g_table s') = false /\ table (g_table s') !! virt_pid (g_pids s') = Some (real_pid (g_pids s')) /\
    table (g_table s') !! virt_ppid (g_pids s') = Some (real_ppid (g_pids s')) /\
    forall j, disp (s_os (g_k s')) j =
      if j =? c then installed xnd_sigtramp (Sigaction thread_sighandler mask SA_SIGINFO) else disp (s_os (g_k s1)) j).
Proof.
  intros Hld E Hkn He Hc Hsame. destruct (keeps_ret _ _ _ _ _ (keeps_launch true) E) as [_ _ Htb Hse Hlb [o Hk]].
  destruct (returns_inv _ _ _ (setup_first_ok s s1 c e mask Hld E He Hc)) as ([] & s4 & E4 & [[Hw Hex] Hd (R1 & R2 & R3 & R4 & R5 & R6)]).
  assert (s_threads (g_k s4) = loaded_threads) as HT by (rewrite R1, Hk; apply Hld).
  assert (coherent s4) as Hco by (unfold coherent; rewrite R2, Hse, HT; apply Hld).
  unfold returns. rewrite xnd_setup_eq, (bind_ret _ _ _ _ _ E4). unfold setup_rest.
  assert (libxnd_state (g_lib s4) = XND_UNINITIALIZED) as Hst by (rewrite R3, Hlb; apply Hld).
  rewrite (coherent_mid s4 Hco), HT, Hst.
  apply returns_bind. eapply returns_weaken; [apply (thread_list_init_ok _ _ _ _ _ _ _ zero_node); [|done|done]|].
  { rewrite R6, Hk. apply Hld. }
  intros _ s5 (t & l & o5 & Hstart & _ & _ & Ho5 & ->). destruct (started_settled t Hstart) as (Hset & Hview & _).
  eapply returns_step; [reflexivity|]. set (s5 := mid _ _ _ _ _ _ _).
  destruct (pid_info_ok s5) as (p & m & Ep & Hp & Hm1 & Hm2).
  { unfold known in *. cbn. by rewrite R5. } { cbn. rewrite R4, Htb. apply Hld. }
  eapply returns_step; [exact Ep|]. set (s6 := put_table _ _).
  destruct (returns_inv _ _ _ (unlink_tmp_ok s6 env_unlink_tmp_at_init ltac:(by eexists))) as ([] & s7 & E7 & o7 & Ho7 & ->).
  unfold returns. rewrite <- bind_assoc, (bind_ret _ _ _ _ _ E7). cbn in Ho7.
  split; [done|]. split; [done|]. split; [exact Hview|]. split; [exact Hset|]. split; [done|].
  split; [exact (wf_put_tk _ o7 _ Hw)|]. split; [exact Hex|]. split; [done|]. split; [exact Hm1|]. split; [exact Hm2|].
  intros j. cbn. rewrite (Hsame _ _ _ Ho7), (Hsame _ _ _ Ho5). apply Hd.
Qed.

Lemma thread_list_free_ok t L : running t L -> lock (thread_list t) = Free ->
  thread_list_free t = Ret tt (tl_lock Dead (put_heap (without L (heap t)) t)).
Proof.
  intros Hl Hlk. unfold thread_list_free.
  erewrite bind_ret by (apply or_abort_ok, lock_free; exact Hlk).
  destruct (returns_inv _ _ _ (free_list_ok (fun t => head (thread_list t)) L (tl_lock Held t) Hl)) as ([] & t1 & E & ->).
  erewrite bind_ret by exact E. erewrite bind_ret by (apply or_abort_ok, unlock_held; done).
  destruct t as [h n [hd lk] [zh zk] mt me mn]. done.
Qed.
Lemma zombie_list_destroy_ok t Z : zombies t Z -> lock (zombie_list t) = Free ->
  zombie_list_destroy t = Ret tt (zl_lock Dead (put_heap (without Z (heap t)) t)).
Proof.
  intros Hz Hlk. unfold zombie_list_destroy.
  erewrite bind_ret by (apply or_abort_ok, lock_free; exact Hlk).
  destruct (returns_inv _ _ _ (free_list_ok (fun t => head (zombie_list t)) Z (zl_lock Held t) Hz)) as ([] & t1 & E & ->).
  erewrite bind_ret by exact E. erewrite bind_ret by (apply or_abort_ok, unlock_held; done).
  destruct t as [h n [hd lk] [zh zk] mt me mn]. done.
Qed.

(** Leaving: the flag of the calling thread is taken away. *)
Lemma mid_tlv_fini s st tlv t l ph o : has_flag l ->
  returns xnd_tlv_fini (mid s st tlv t l ph o) (fun _ s' => exists l', s' = mid s st false t l' ph o).
Proof.
  intros [v Hv]. unfold xnd_tlv_fini, on_tls. eapply returns_intro; [apply zoom_ret; by apply (set_tls_slot_eq _ _ v)|].
  set (l' := put_words (<[slot_at (tpidrro l) TSD_XND_FLAG := TSD_XND_FINI]> (words l)) l). exists l'. assert (flag_ok l' = false) as Hf.
  { unfold flag_ok. apply bool_decide_eq_false_2. cbn. rewrite lookup_insert_eq. done. }
  change (set_tls l' (mid s st tlv t l ph o) = mid s st false t l' ph o). unfold set_tls. by rewrite Hf.
Qed.

(** C33. At exit [thread_list_destroy] frees every descriptor of the two lists,
    those of threads that still run too, and destroys the lock of a checkpoint
    thread that is still serving the coordinator: it is not stopped first.  The
    list heads go on pointing at freed memory. *)
Theorem exit_frees_running s t l ph o L Z : settled t L Z -> has_flag l -> myself t <> Some ckpt_thread ->
  returns thread_list_destroy (mid s XND_EXITING true t l ph o) (fun _ s' =>
    s_ckpt (g_k s') = ph /\ tlv_ok (g_lib s') = false /\
    (forall p, p ∈ L ++ Z -> heap (s_threads (g_k s')) !! p = None) /\
    (exists c, heap (s_threads (g_k s')) !! ckpt_thread = Some c /\ n_lock c = Dead) /\
    thread_list (s_threads (g_k s')) = TList (first L None) Dead /\ zombie_list (s_threads (g_k s')) = TList (first Z None) Dead).
Proof.
  intros [Hr Htl Hzl Hm (c & Hc & Hcl)] Hl Hme. unfold thread_list_destroy.
  eapply returns_step; [reflexivity|]. eapply returns_step; [reflexivity|]. eapply returns_step; [reflexivity|].
  assert (is_ckpt_thread (mid s XND_EXITING true t l ph o) = false) as Hck by by apply bool_decide_eq_false_2.
  rewrite Hck. cbn [negb]. apply returns_bind. unfold ckpt_thread_reap.
  eapply returns_step; [reflexivity|]. rewrite Hck. eapply returns_step; [reflexivity|].
  eapply mid_threads_end; [by apply (node_store_ret _ _ _ c)|]. cbn beta. rewrite Hcl. cbn [destroyed].
  set (h := <[ckpt_thread := set_nlock Dead c]> (heap t)).
  assert (forall p, p ∈ L ++ Z -> h !! p = heap t !! p) as Hh.
  { intros p Hp. apply lookup_insert_ne. intros <-. by apply (rep_static _ _ _ Hr). }
  pose proof (rep_l _ _ _ Hr) as HL. pose proof (rep_z _ _ _ Hr) as HZ.
  eapply mid_threads; [apply (thread_list_free_ok _ L); [|exact Htl]|].
  { eapply list_other; [exact HL|done|]. intros q Hq. apply Hh, elem_of_app. by left. }
  eapply mid_threads; [apply (zombie_list_destroy_ok _ Z); [|exact Hzl]|].
  { eapply list_other; [exact HZ|done|]. intros q Hq. cbn. rewrite lookup_without, decide_False.
    - apply Hh, elem_of_app. by right.
    - intros Hq'. by apply (rep_apart _ _ _ Hr q). }
  cbn [heap put_heap tl_lock put_tl]. rewrite without_app.
  eapply returns_weaken; [by apply mid_tlv_fini|]. intros _ s' (l' & ->). cbn. split; [done|]. split; [done|]. split; [|split; [|split] ].
  - intros p Hp. by rewrite lookup_without, decide_True.
  - eexists. rewrite lookup_without, decide_False by apply Hr. split; [apply lookup_insert_eq|done].
  - destruct HL as [HL _]. cbn in HL. by rewrite HL.
  - destruct HZ as [HZ _]. cbn in HZ. by rewrite HZ.
Qed.
End life.
