(* ===== verification/LibRestart.v ===== *)
(** A checkpoint and a restart of the state the kernel forgets, as [Lib] runs
    them: [xnd_precheckpoint] in the process, [xnd_postrestart_early] in the
    restarted one.  The parts are [FdRestore] and [SigProps]; here they run one
    after the other on one system, with the coordinator between them. *)

From S2P Require Import Prelude Cstr Env Bytes Io CoordMsg Process PidTable Time PidHooks CoordProps CoordClient.
From S2P Require Import CkptFile FdTable FdProps FdRestore SigHooks SigProps Tls ThreadList Lib LibProps.
Open Scope Z_scope.

(** [sigaction] does not touch descriptors. *)
Class SigFd (O : Type) `{!FileOS O, !FileSpec O, !SigCalls O} := {
  sigaction_fds : forall sig act k, let k' := (sys_sigaction sig act k).2 in
    (forall i, v_fd k' i = v_fd k i) /\ (forall e, v_desc k' e = v_desc k e) /\ (forall i, v_cloexec k' i = v_cloexec k i)
}.

Section signals.
Context {O : Type} `{!FileOS O, !FileSpec O, !SigCalls O, !SigSpec O, !SigFd O} (thread_sighandler xnd_sigtramp : Z).
Implicit Types g : sigs (K := O).

(** Saving and restoring dispositions leaves the descriptors alone, and the
    environment when it names the checkpoint signal. *)
Record sig_kept c g g' : Prop := {
  sk_fd : forall i, v_fd (s_k g') i = v_fd (s_k g) i;
  sk_desc : forall e, v_desc (s_k g') e = v_desc (s_k g) e;
  sk_cloexec : forall i, v_cloexec (s_k g') i = v_cloexec (s_k g) i;
  sk_env : reserved c g -> s_env g' = s_env g
}.
Lemma sig_kept_refl c g : sig_kept c g g.
Proof. by split. Qed.
Lemma sig_kept_trans c g1 g2 g3 : sig_kept c g1 g2 -> sig_kept c g2 g3 -> sig_kept c g1 g3.
Proof.
  intros [F1 D1 C1 E1] [F2 D2 C2 E2]. split; [intros; by rewrite F2|intros; by rewrite D2|intros; by rewrite C2|].
  intros Hr. rewrite E2; [by apply E1|]. unfold reserved in *. by rewrite E1.
Qed.
Definition sig_keeps (c : Z) {A} (m : M (sigs (K := O)) A) : Prop := forall g, sat true m g (fun _ g' => sig_kept c g g').
Lemma sig_keeps_bind c {A B} (m : M sigs A) (k : A -> M sigs B) :
  sig_keeps c m -> (forall a, sig_keeps c (k a)) -> sig_keeps c (m ≫= k).
Proof.
  intros Hm Hk g. apply sat_bind. eapply sat_weaken; [apply Hm|]. intros a g1 H1.
  eapply sat_weaken; [apply Hk|]. intros b g2 H2. exact (sig_kept_trans c _ _ _ H1 H2).
Qed.
Lemma sig_keeps_ret c {A} (a : A) : sig_keeps c (mret a).
Proof. intros g. apply sig_kept_refl. Qed.
Lemma sig_keeps_ckpt_signal c : sig_keeps c ckpt_signal.
Proof.
  intros g. unfold sat, ckpt_signal. destruct (env_get_ckpt_signal (s_env g)) as [v e| | | |] eqn:E; try done.
  split; try done. intros [Hr _]. cbn. congruence.
Qed.
Lemma sig_keeps_sigaction c sig act : sig_keeps c (__xnd_sigaction xnd_sigtramp sig act).
Proof.
  unfold __xnd_sigaction. destruct (_ || _); [intros g; by split|]. destruct (_ && _); [intros g; by split|].
  apply sig_keeps_bind; [|intros [r old]; apply sig_keeps_ret]. intros g. unfold sat, kcall.
  match goal with |- context [sys_sigaction sig ?a (s_k g)] => pose proof (sigaction_fds sig a (s_k g)) as (Hf & Hd & Hc);
    destruct (sys_sigaction sig a (s_k g)) as [r k'] end. by split.
Qed.
Lemma sig_keeps_entry c sig : sig_keeps c (entry sig).
Proof.
  intros g. unfold entry. apply (sat_step _ _ _ _ (sa_table g) g); [done|]. destruct (sig <? 0); [done|]. unfold deref.
  destruct (sa_table g !! Z.to_nat sig); [apply sig_kept_refl|done].
Qed.
Lemma sig_keeps_set_entry c sig a : sig_keeps c (set_entry sig a).
Proof. unfold set_entry. apply sig_keeps_bind; [apply sig_keeps_entry|]. intros _ g. by split. Qed.
Lemma sig_keeps_fix c sig : sig_keeps c (fix_ckpt_entry thread_sighandler sig).
Proof.
  unfold fix_ckpt_entry. apply sig_keeps_bind; [apply sig_keeps_entry|]. intros a.
  destruct (negb _); [apply sig_keeps_set_entry|apply sig_keeps_ret].
Qed.
Lemma sig_keeps_for c n from body : (forall sig, sig_keeps c (body sig)) -> sig_keeps c (for_sigs n from body).
Proof.
  intros Hb. revert from. induction n as [|n IH]; intros from; cbn [for_sigs]; [apply sig_keeps_ret|].
  apply sig_keeps_bind; [apply Hb|]. intros _. apply IH.
Qed.
Lemma sig_keeps_save c : sig_keeps c (sig_state_save thread_sighandler xnd_sigtramp).
Proof.
  unfold sig_state_save, all_sigs. apply sig_keeps_bind; [apply sig_keeps_ckpt_signal|]. intros sig.
  destruct (illegal sig); [done|]. apply sig_keeps_bind.
  - apply sig_keeps_for. intros j. unfold save_one. destruct (_ || _); [apply sig_keeps_ret|].
    apply sig_keeps_bind; [apply sig_keeps_sigaction|]. intros [r old]. apply sig_keeps_set_entry.
  - intros _. apply sig_keeps_bind; [apply sig_keeps_fix|]. intros _ g. by split.
Qed.
Lemma sig_keeps_restore c : sig_keeps c (sig_state_restore thread_sighandler xnd_sigtramp).
Proof.
  unfold sig_state_restore, all_sigs. apply sig_keeps_bind; [apply sig_keeps_ckpt_signal|]. intros sig.
  apply sig_keeps_bind; [intros g; apply sig_kept_refl|]. intros last. destruct (negb _); [done|].
  destruct (illegal sig); [done|]. apply sig_keeps_bind; [apply sig_keeps_fix|]. intros _.
  apply sig_keeps_for. intros j. unfold restore_one. destruct (_ || _); [apply sig_keeps_ret|].
  apply sig_keeps_bind; [apply sig_keeps_entry|]. intros a. apply sig_keeps_bind; [apply sig_keeps_sigaction|].
  intros _. apply sig_keeps_ret.
Qed.
Lemma sig_keeps_inv c {A} (m : M sigs A) g a g' : sig_keeps c m -> m g = Ret a g' -> sig_kept c g g'.
Proof. intros Hm E. specialize (Hm g). unfold sat in Hm. by rewrite E in Hm. Qed.
End signals.

(** ** Another kernel with the same descriptors *)

Section views.
Context {K : Type} `{FileSpec K}.
Implicit Types (t : fdt K) (k : K).
Definition same_fds (k k' : K) : Prop :=
  (forall i, v_fd k' i = v_fd k i) /\ (forall e, v_desc k' e = v_desc k e) /\ (forall i, v_cloexec k' i = v_cloexec k i).
Lemma tracks_ext t k : same_fds (t_k t) k -> tracks t -> tracks (put_tk k t).
Proof.
  intros (Hf & _) [H1 H2 H3 H4 H5 H6]. split; try done. intros i p x Hi. destruct (H3 i p x Hi) as (d & Hd & Hall).
  exists d. cbn. split; [by rewrite Hf|]. intros j y Hj. rewrite Hf. by eapply Hall.
Qed.
Lemma same_descriptors_ext t k k0 k' k'' : same_fds (t_k t) k -> same_fds k' k'' ->
  same_descriptors (put_tk k t) k0 k' -> same_descriptors t k0 k''.
Proof.
  intros (Hf & Hd & Hc) (Hf' & Hd' & _) [H1 H2 H3 H6 H4 H5]. split.
  - intros i x Hi. rewrite Hf'. by apply H1.
  - intros i p x Hi. destruct (H2 i p x Hi) as (d & E & Hp). exists d. by rewrite Hf', Hd'.
  - intros i p x Hi Ht. destruct (H3 i p x Hi Ht) as (d & d0 & E & E0 & Ho). cbn in E0. exists d, d0.
    rewrite Hf', Hd'. rewrite Hf in E0. by rewrite Hd in Ho.
  - intros i p x Hi. destruct (H6 i p x Hi) as (d & r & E & Hl & Hfl). exists d, r. rewrite Hf', Hd'. split; [done|].
    split; [done|]. unfold flags_at in *. cbn [t_k put_tk] in Hfl. rewrite Hc in Hfl. case_bool_decide; [|done].
    destruct Hfl as (d0 & E0 & Hfl). exists d0. rewrite Hf in E0. by rewrite Hd in Hfl.
  - intros i p x j q y Hi Hj. rewrite !Hf'. by eapply H4.
  - intros i Hi Hn. rewrite Hf'. by apply H5.
Qed.
Lemma sig_kept_fds `{!SigCalls K} c (g g' : sigs (K := K)) : sig_kept c g g' -> same_fds (s_k g) (s_k g').
Proof. intros [H1 H2 H3 _]. by split. Qed.
End views.

Section restart.
Context {O : Type} `{!IoSys O, !FdSys O, !ClientOS O, !PidOS O, !FsSys O, !UuidLib, !FileOS O, !FileSpec O, !SigCalls O, !SigSpec O, !SigFd O,
  !LibOS O, !IterOrder}.
Context (stack_msg : xnd_msg) (thread_sighandler xnd_sigtramp : Z).
Implicit Types s : pstate (sys O).

(** A process that can be saved: [c] is the checkpoint signal, and the
    descriptor table tells the truth about the descriptors. *)
Record saveable (c : Z) s : Prop := {
  sv_sig : reserved c (sigs_of s);
  sv_table : length (sa_table (s_sigs (g_k s))) = Z.to_nat NSIG;
  sv_sized : sized (fds_of s);
  sv_tracks : tracks (fds_of s);
  sv_unsaved : forall i p x, opened_at (fds_of s) i p x -> f_state x <> FD_STATE_SAVED;
  sv_zlib : env_use_zlib_compression (g_env s) = Ret false (g_env s)
}.
(** What [xnd_precheckpoint] leaves of it. *)
Record saved_state (c : Z) s s' : Prop := {
  ss_env : g_env s' = g_env s;
  ss_last : last_ckpt_sig (s_sigs (g_k s')) = c;
  ss_length : length (sa_table (s_sigs (g_k s'))) = Z.to_nat NSIG;
  ss_actions : forall j, valid_sig j ->
    sa_table (s_sigs (g_k s')) !! Z.to_nat j = Some (the_action thread_sighandler c (s_os (g_k s)) j);
  ss_fds : exists k, same_fds (s_os (g_k s)) k /\ saved_table (put_tk k (fds_of s)) (put_tk (s_os (g_k s')) (s_fds (g_k s')))
}.
Lemma precheckpoint_ok c s self token : saveable c s -> munged (s_tls (g_k s)) self token -> (forall o, k_pthread_self o = self) ->
  returns (xnd_precheckpoint thread_sighandler xnd_sigtramp) s (fun _ s' => saved_state c s s' /\ munge_token (s_tls (g_k s')) = token).
Proof.
  intros [Hr Hl Hsz Ht Hun _] Hm Hself. unfold xnd_precheckpoint.
  destruct (returns_inv _ _ _ (sig_state_save_ok thread_sighandler xnd_sigtramp c (sigs_of s) Hr Hl))
    as ([] & g & Eg & _ & Hlast & Hlen & Hact).
  pose proof (sig_keeps_inv c _ _ _ _ (sig_keeps_save _ _ c) Eg) as Hkeep.
  eapply returns_step; [unfold on_sigs; by apply zoom_ret|]. apply returns_bind. unfold on_fds. apply zoom_returns.
  change (fds_of (set_sigs g s)) with (put_tk (s_k g) (fds_of s)).
  pose proof (sig_kept_fds c _ _ Hkeep) as Hsame.
  eapply returns_weaken; [apply (fd_table_save_ok (put_tk (s_k g) (fds_of s)) Hsz (tracks_ext (fds_of s) _ Hsame Ht) Hun)|]. cbn beta.
  intros _ f Hf. eapply returns_step; [reflexivity|]. rewrite Hself.
  eapply returns_step; [unfold on_tls; apply zoom_ret; by apply munge_save_ok|]. apply returns_ret.
  split; [|done]. split; try done. { exact (sk_env _ _ _ Hkeep Hr). }
  exists (s_k g). split; [exact Hsame|]. by destruct f.
Qed.

(** [xnd_postrestart_early] up to the barrier. *)
Definition reconnect : M (pstate (sys O)) unit :=
  on_tls thread_ptr_munge_fixup;;
  next_epoch;;
  connect_to_coord_on_restart;;
  enter_coord_barrier stack_msg COORD_BARRIER_POSTRESTART.
Lemma postrestart_split s s4 : reconnect s = Ret tt s4 ->
  xnd_postrestart_early stack_msg thread_sighandler xnd_sigtramp s =
  (on_fds fd_table_restore;;
   on_sigs (sig_state_restore thread_sighandler xnd_sigtramp);;
   zlib ← on_env env_use_zlib_compression;
   if (zlib : bool) then
     i ← gets g_ids;
     dirfd ← on_os (CkptFile.xnd_ckptdir_open (xnd_uuid i) (u64 (epoch i - 1)));
     if negb (dirfd =? -1) then on_os (CkptFile.xnd_ckptfile_unlinkat dirfd (xnd_pid i));; mret tt else mret tt
   else mret tt) s4.
Proof.
  intros E. unfold xnd_postrestart_early, reconnect in *.
  apply bind_inv in E as ([] & s1 & E1 & E). rewrite (bind_ret _ _ _ _ _ E1).
  apply bind_inv in E as ([] & s2 & E2 & E). rewrite (bind_ret _ _ _ _ _ E2).
  apply bind_inv in E as ([] & s3 & E3 & E). rewrite (bind_ret _ _ _ _ _ E3).
  by rewrite (bind_ret _ _ _ _ _ E).
Qed.
Lemma keeps_epoch b : keeps (O := O) b next_epoch.
Proof. apply (keeps_ids b (fun s => Ids _ _ _ _ (u64 (epoch (g_ids s) + 1)) _ _)). Qed.

(** The thread-local storage of the restarted program's thread, before the
    fix-up. *)
Record fresh_tls (l : tls_state) (self : Z) : Prop := {
  ft_self : words l !! slot_at (tpidrro l) TSD_THREAD_SELF = Some self;
  ft_tls : self = tpidrro l - PTHREAD_TLS_OFFSET;
  ft_sig : is_Some (words l !! self);
  ft_slot : is_Some (words l !! slot_at (tpidrro l) TSD_PTR_MUNGE)
}.
Lemma reconnect_keeps l self s s4 : fresh_tls l self -> s_tls (g_k s) = l -> reconnect s = Ret tt s4 ->
  g_env s4 = g_env s /\ munged (s_tls (g_k s4)) self (munge_token l) /\
  s_fds (g_k s4) = s_fds (g_k s) /\ s_sigs (g_k s4) = s_sigs (g_k s).
Proof.
  intros [F1 F2 [sig F3] [m F4] ] Hl E. unfold reconnect in E. apply bind_inv in E as ([] & s1 & E1 & E).
  destruct (returns_inv _ _ _ (munge_fixup_ok l self sig m F1 F2 F3 F4)) as ([] & l' & El & Hm & _).
  unfold on_tls, zoom in E1. rewrite Hl, El in E1. injection E1 as <-.
  assert (keeps true (next_epoch;; connect_to_coord_on_restart;; enter_coord_barrier stack_msg COORD_BARRIER_POSTRESTART)) as Hk.
  { apply keeps_bind; [apply keeps_epoch|]. intros _. apply keeps_bind; [apply keeps_restart|]. intros _. apply keeps_barrier. }
  destruct (keeps_ret _ _ _ _ _ Hk E) as [_ He _ _ _ [o Ho]]. rewrite Ho. split; [by apply He|]. done.
Qed.

(** C10. What the kernel forgets survives the first checkpoint of a process, not
    compressed, and a restart, as far as the library keeps it ([saveable]: its
    open descriptors are those the table tracks): when [xnd_precheckpoint] has
    run in the process and the image has been loaded
    into a new one, with the kernel [o] and thread-local storage [l] of its
    own, and the coordinator has let it through the post-restart barrier, then
    [xnd_postrestart_early] returns with the files, directories and standard
    descriptors of the checkpointed process, with its signal dispositions, the checkpoint signal's being the
    library's handler, and with a thread that libpthread accepts. *)
Theorem state_restored c s self token : saveable c s -> munged (s_tls (g_k s)) self token ->
  (forall o, k_pthread_self o = self) ->
  returns (xnd_precheckpoint thread_sighandler xnd_sigtramp) s (fun _ s1 => forall o l self' s4,
    fresh_tls l self' -> munge_token l = munge_token (s_tls (g_k s1)) ->
    reconnect (put_sys (fun w => put_os o (put_tls l w)) s1) = Ret tt s4 ->
    (forall i, 0 <= i < 3 -> is_Some (v_fd (s_os (g_k s4)) i)) ->
    returns (xnd_postrestart_early stack_msg thread_sighandler xnd_sigtramp) (put_sys (fun w => put_os o (put_tls l w)) s1)
      (fun _ s' => same_descriptors (fds_of s) (s_os (g_k s4)) (s_os (g_k s')) /\
        (forall j, valid_sig j -> disp (s_os (g_k s')) j =
           installed xnd_sigtramp (the_action thread_sighandler c (s_os (g_k s)) j)) /\
        munged (s_tls (g_k s')) self' token)).
Proof.
  intros Hs Hm Hself. eapply returns_weaken; [by eapply precheckpoint_ok|].
  intros _ s1 [ [He Hlast Hlen Hact (k & Hsame & Hsaved)] Htok] o l self' s4 Hl Hl2 E Hstd. cbn beta.
  destruct (reconnect_keeps l self' (put_sys (fun w => put_os o (put_tls l w)) s1) s4 Hl eq_refl E) as (He4 & Hm4 & Hf4 & Hs4).
  unfold returns. rewrite (postrestart_split _ _ E). cbn in He4, Hf4, Hs4. rewrite He in He4.
  apply returns_bind. unfold on_fds. apply zoom_returns.
  assert (fds_of s4 = put_tk (s_os (g_k s4)) (put_tk (s_os (g_k s1)) (s_fds (g_k s1)))) as -> by (unfold fds_of; by rewrite Hf4).
  eapply returns_weaken; [eapply (saved_table_restores (put_tk k (fds_of s))); [apply (sv_sized _ _ Hs)|exact (tracks_ext (fds_of s) _ Hsame (sv_tracks _ _ Hs))|exact Hsaved|exact Hstd]|].
  intros [] f Hf. set (s5 := set_fds f s4). apply returns_bind. unfold on_sigs. apply zoom_returns.
  assert (reserved c (sigs_of s5)) as Hr.
  { destruct (sv_sig _ _ Hs) as [Hr Hv]. split; [|done]. cbn. by rewrite He4. }
  assert (s_sigs (g_k s5) = s_sigs (g_k s1)) as Hs5 by (by rewrite <- Hs4).
  destruct (returns_inv _ _ _ (sig_state_restore_ok thread_sighandler xnd_sigtramp c (s_os (g_k s)) (sigs_of s5) Hr
    ltac:(unfold sigs_of; rewrite Hs5; exact Hlast) ltac:(unfold sigs_of; rewrite Hs5; exact Hlen)
    ltac:(unfold sigs_of; rewrite Hs5; exact Hact))) as ([] & g & Eg & Hd).
  pose proof (sig_keeps_inv c _ _ _ _ (sig_keeps_restore _ _ c) Eg) as Hkeep.
  eapply returns_intro; [exact Eg|]. set (s6 := set_sigs g s5).
  assert (on_env env_use_zlib_compression s6 = Ret false s6) as Ez.
  { unfold on_env. assert (g_env s6 = g_env s) as -> by (transitivity (g_env s5); [exact (sk_env _ _ _ Hkeep Hr)|exact He4]).
    rewrite (sv_zlib _ _ Hs). assert (g_env s = g_env s6) as -> by (symmetry; transitivity (g_env s5); [exact (sk_env _ _ _ Hkeep Hr)|exact He4]). by destruct s6. }
  eapply returns_step; [exact Ez|]. apply returns_ret. split; [|split; [exact Hd|] ].
  - eapply same_descriptors_ext; [exact Hsame| |exact Hf]. exact (sig_kept_fds c _ _ Hkeep).
  - cbn. rewrite Hl2, Htok in Hm4. exact Hm4.
Qed.
End restart.
