(* ===== verification/LibWorld.v ===== *)
(** A small process in which [Lib] runs: the witnesses of its theorems.

    Every descriptor has the bytes still to be read from it; a connection to
    the coordinator is descriptor 7.  libpthread's calls succeed. *)

From S2P Require Import Prelude Cstr Env Bytes Io CoordMsg Process PidTable Time PidHooks CoordProps CoordClient FdWorld SigWorld CkptFile.
From S2P Require Import FdTable FdProps FdRestore SigHooks SigProps Tls ThreadList Lib LibProps LibLife LibRestart.
Open Scope Z_scope.

Record machine := Machine {
  m_in : gmap Z (list Z); m_pid : Z; m_parent : Z; m_fork : Z; m_files : files; m_kernel : kernel
}.
Definition put_in i m := Machine i (m_pid m) (m_parent m) (m_fork m) (m_files m) (m_kernel m).
Definition put_files f m := Machine (m_in m) (m_pid m) (m_parent m) (m_fork m) f (m_kernel m).
Definition put_kernel k m := Machine (m_in m) (m_pid m) (m_parent m) (m_fork m) (m_files m) k.
(** Calls of the file system and of the signal machinery. *)
Definition with_files {A} (f : files -> A * files) m : A * machine := let '(a, k) := f (m_files m) in (a, put_files k m).
Definition with_kernel {A} (f : kernel -> A * kernel) m : A * machine := let '(a, k) := f (m_kernel m) in (a, put_kernel k m).

#[local] Instance machine_io : IoSys machine := {
  sys_write fd buf m := (Z.of_nat (length buf), m);
  sys_read fd n m :=
    let input := default [] (m_in m !! fd) in
    (Some (take (Z.to_nat n) input), put_in (<[fd := drop (Z.to_nat n) input]> (m_in m)) m);
  read_waits _ _ _ := false
}.
#[local] Instance machine_fd : FdSys machine := {
  fd_getfl fd m := (EBADF, m);
  fd_dup2 old new m := (new, put_in (<[new := default [] (m_in m !! old)]> (m_in m)) m);
  fd_close fd m := m
}.
#[local] Instance machine_client : ClientOS machine := {
  k_socket m := (7, m);
  k_connect fd m := (0, m);
  k_cloexec fd m := (0, m);
  k_shutdown fd m := (0, m);
  k_sleep t m := m
}.
#[local] Instance machine_pids : PidOS machine := {
  _real_getpid := m_pid; _real_getppid := m_parent; _real_getpgrp := m_pid; _real_getpgid _ := m_pid
}.
#[local] Instance machine_files : FileOS machine := {
  k_open path flags mode := with_files (k_open path flags mode);
  k_dup2 old new := with_files (k_dup2 old new);
  FdTable.k_close fd := with_files (FdTable.k_close fd);
  k_tell fd := with_files (k_tell fd);
  k_seek fd off := with_files (k_seek fd off);
  k_getfl fd := with_files (k_getfl fd);
  k_getfd fd := with_files (k_getfd fd);
  telldir d := with_files (telldir d);
  seekdir d off m := put_files (seekdir d off (m_files m)) m;
  dirfd d := d
}.
Lemma with_files_eq {A} (f : files -> A * files) m a m' : with_files f m = (a, m') ->
  f (m_files m) = (a, m_files m').
Proof. unfold with_files. destruct (f (m_files m)) as [b k]. by intros [= <- <-]. Qed.
#[local, refine] Instance machine_files_spec : FileSpec machine := {|
  v_fd m := v_fd (m_files m); v_desc m := v_desc (m_files m); v_cloexec m := v_cloexec (m_files m); openable := fun _ _ => True
|}.
Proof.
  - intros path flags mode k fd k' Ho E. exact (spec_open _ _ _ _ _ _ Ho (with_files_eq _ _ _ _ E)).
  - intros old new k d r k' Hd E. exact (spec_dup2 _ _ _ _ _ _ Hd (with_files_eq _ _ _ _ E)).
  - intros fd k r k' E. exact (spec_close _ _ _ _ (with_files_eq _ _ _ _ E)).
  - intros fd off k d r k' Hd Ho E. exact (spec_seek _ _ _ _ _ _ Hd Ho (with_files_eq _ _ _ _ E)).
  - done.
  - intros fd k d r k' Hd E. exact (spec_tell _ _ _ _ _ Hd (with_files_eq _ _ _ _ E)).
  - intros fd k d r k' Hd E. exact (spec_getfl _ _ _ _ _ Hd (with_files_eq _ _ _ _ E)).
  - intros fd k d r k' Hd E. exact (spec_getfd _ _ _ _ _ Hd (with_files_eq _ _ _ _ E)).
  - intros d k r k' E. exact (spec_telldir _ _ _ _ (with_files_eq _ _ _ _ E)).
Defined.
#[local] Instance machine_calls : SigCalls machine := {
  sys_sigaction sig act := with_kernel (k_sigaction sig act);
  libc_sigaction sig act := with_kernel (k_libc_sigaction sig act);
  libc_signal sig h := with_kernel (k_libc_signal sig h);
  pthread_sigmask how set := with_kernel (k_sigmask how set);
  sigaltstack x := with_kernel (k_altstack x)
}.
#[local, refine] Instance machine_sig_spec : SigSpec machine := {|
  disp m := disp (m_kernel m); kmask m := kmask (m_kernel m); kstack m := kstack (m_kernel m)
|}.
Proof.
  - intros sig act m Hs Hn. pose proof (spec_sigaction sig act (m_kernel m) Hs Hn) as Hk. cbn in *. unfold with_kernel.
    by destruct (k_sigaction sig act (m_kernel m)).
  - intros sig act m. pose proof (spec_libc_sigaction sig act (m_kernel m)) as Hk. cbn in *. unfold with_kernel.
    by destruct (k_libc_sigaction sig act (m_kernel m)).
  - intros sig h m. pose proof (spec_libc_signal sig h (m_kernel m)) as Hk. cbn in *. unfold with_kernel.
    by destruct (k_libc_signal sig h (m_kernel m)).
  - intros how set m. pose proof (spec_sigmask how set (m_kernel m)) as Hk. cbn in *. unfold with_kernel.
    by destruct (k_sigmask how set (m_kernel m)).
  - intros x m. pose proof (spec_altstack x (m_kernel m)) as Hk. cbn in *. unfold with_kernel.
    by destruct (k_altstack x (m_kernel m)).
Defined.
#[local, refine] Instance machine_sig_fd : SigFd machine := {| sigaction_fds sig act m := _ |}.
Proof. cbn. unfold with_kernel. by destruct (k_sigaction sig act (m_kernel m)). Defined.
(** [fork] returns what the machine says; the child is process 4800. *)
#[local] Instance machine_lib : LibOS machine := {
  k_calloc m := (true, m);
  k_mutex_init m := (0, m);
  k_cond_init m := (0, m);
  k_pthread_create m := (0, m);
  k_pthread_atfork m := (0, m);
  k_pthread_self m := 0x100000;
  k_fork m := (m_fork m, if m_fork m =? 0 then Machine (m_in m) 4800 (m_pid m) 0 (m_files m) (m_kernel m) else m);
  k_unlink path m := m
}.
#[local, refine] Instance machine_ok : LibOk machine := {| lib_same := eq |}.
Proof. all: done. Defined.
(** No images are written. *)
#[local] Instance machine_fs : FsSys machine := {
  fs_access _ m := (true, m); fs_mkdir _ m := (true, m); fs_open_dir _ m := (-1, m); fs_open_rd _ m := (-1, m);
  fs_mkdirat _ _ m := (true, m); fs_openat_excl _ _ m := (-1, m); fs_openat_rd _ _ m := (-1, m);
  fs_faccessat _ _ m := (false, m); fs_unlinkat _ _ m := (true, m);
  fs_unlinkat_dir _ _ m := (true, m); fs_opendir _ m := (Some [], m); fs_closedir m := m; fs_unlink _ m := (true, m)
}.
#[local] Instance machine_uuid : UuidLib := {
  uuid_unparse _ := cs "00000000-0000-0000-0000-000000000000"; uuid_parse _ := Some (replicate 16 0)
}.

#[local] Instance machine_hook : ForkOS (sys machine) := hook_fork msg_zero.

(** Process 2 of the computation, whose parent is process 1, with two threads
    and a zombie. *)
Definition a_node (next prev : option loc) (st : thread_state) : tnode := TNode next prev st 0 false false 0 0 0 Free.
Definition proc_heap : gmap loc tnode :=
  <[1%positive := a_node None None ST_CKPT_THREAD]> (<[2%positive := a_node None (Some 3%positive) ST_RUNNING]>
  (<[3%positive := a_node (Some 2%positive) None ST_RUNNING]> {[4%positive := a_node None None ST_RUNNING]})).
Definition proc_threads : threads :=
  Threads proc_heap 5 (TList (Some 3%positive) Free) (TList (Some 4%positive) Free) Free (Some 2%positive) (Some 2%positive).
Definition proc_tls : tls_state := TlsState 0x1000E0 {[slot_at 0x1000E0 TSD_XND_FLAG := TSD_XND_INIT]} 0 0.
Definition no_fds : fdt machine := FdT [] false false ∅ 1%positive (Machine ∅ 0 0 0 std start).
Definition no_sigs : sigs (K := machine) := Sigs 31 [] (EnvState ∅ 31) 0 (Stack 0 0 0) 0 (Machine ∅ 0 0 0 std start).
Definition the_process (m : machine) : pstate (sys machine) :=
  PState (Pids 2 4711 1 4242) (Ids 1001 1000 1001 (replicate 16 7) 0 1 true) (Client 210 (-1) (-1) false)
    (VTable {[1 := 4242; 2 := 4711]} false) (Some (Thr ST_RUNNING 0)) (Process.Lib XND_RUNNING true) 0 (EnvState ∅ 31)
    (Sys no_fds no_sigs proc_tls proc_threads CkptServing true m).

(** What the coordinator sends the two ends of a fork: process 5, whose parent
    is process 2. *)
Definition ack (msg : xnd_msg) : list Z := msg_bytes (with_hdr (hdr_code XND_COORD_ACK) msg).
Definition child_ids : xnd_msg :=
  with_ids (replicate 16 7) 1003 1001 1001 (with_pids 4800 4711 5 2 msg_zero).
Definition answers : gmap Z (list Z) := {[7 := ack child_ids ++ ack child_ids]}.

Definition end_of {A} (m : M (pstate (sys machine)) A) (s : pstate (sys machine)) : pstate (sys machine) :=
  match m s with Ret _ s' => s' | _ => s end.
Definition forking_process (r : Z) : pstate (sys machine) := the_process (Machine answers 4711 4242 r std start).
Definition registered_child (r : Z) : pstate (sys machine) :=
  end_of (coord_client_atfork_prepare msg_zero) (in_hook (forking_process r)).

Lemma process_rep m : settled (threads_of (in_hook (the_process m))) [3; 2]%positive [4]%positive.
Proof.
  assert (heap (threads_of (in_hook (the_process m))) =
    <[2%positive := set_state ST_UNSAFE (set_depth 1 (a_node None (Some 3%positive) ST_RUNNING))]> proc_heap) as Hh by reflexivity.
  split; [|done|done|done|].
  - split.
    + split; [done|]. split; [|apply NoDup_cons; split; [rewrite list_elem_of_singleton; done|apply NoDup_singleton] ].
      rewrite Hh. split; [by eexists|]. split; [by eexists|done].
    + split; [done|]. rewrite Hh. split; [|apply NoDup_singleton]. split; [by eexists|done].
    + intros p. rewrite !elem_of_cons, elem_of_nil. naive_solver.
    + intros Hin. apply elem_of_app in Hin. rewrite !elem_of_cons, elem_of_nil in Hin. naive_solver.
    + rewrite Hh. unfold proc_heap. intros p [n Hn]. rewrite !lookup_insert_Some, lookup_singleton_Some in Hn. cbn. unfold ckpt_thread in *. naive_solver lia.
  - rewrite Hh. by eexists.
Defined.

Lemma process_forks r : can_fork msg_zero (forking_process r) (registered_child r) [3; 2]%positive [4]%positive.
Proof.
  split.
  - right. exists ST_RUNNING, 0. split; [done|]. split; [lia|]. by left.
  - reflexivity.
  - vm_compute. reflexivity.
  - reflexivity.
  - apply process_rep.
  - by eexists.
Defined.

Definition child_os : machine := Machine (m_in (s_os (g_k (registered_child 0)))) 4800 4711 0 std start.
Lemma forked_child_fresh_witness :
  returns (__fork_hook (K := sys machine)) (forking_process 0) (fun r s' => r = 0 /\ g_self s' = Some (Thr ST_RUNNING 0) /\
    libxnd_state (g_lib s') = XND_RUNNING /\ s_ckpt (g_k s') = CkptServing /\
    (exists me, myself (s_threads (g_k s')) = Some me /\ settled (s_threads (g_k s')) [me] [] /\
      forall p, p ∈ [3; 2; 4]%positive -> p <> me -> heap (s_threads (g_k s')) !! p = None) /\
    oob_locked (g_client s') = false /\ vlocked (g_table s') = false /\
    table (g_table s') !! virt_pid (g_pids s') = Some (real_pid (g_pids s'))).
Proof.
  apply (forked_child_fresh msg_zero (forking_process 0) (registered_child 0) [3; 2]%positive [4]%positive child_os
    (end_of coord_client_atfork_child (child_state child_os (registered_child 0)))).
  - apply process_forks.
  - reflexivity.
  - vm_compute. reflexivity.
  - split; [vm_compute; reflexivity|]. vm_compute. congruence.
Defined.

Lemma forked_parent_resumes_witness :
  returns (__fork_hook (K := sys machine)) (forking_process 4800) (fun ret s' => ret = 5 /\
    g_self s' = Some (Thr ST_RUNNING 0) /\ g_lib s' = Process.Lib XND_RUNNING true /\
    settled (s_threads (g_k s')) [3; 2]%positive [4]%positive /\
    s_threads (g_k s') = threads_of (in_hook (forking_process 4800)) /\ s_ckpt (g_k s') = CkptServing /\
    oob_locked (g_client s') = false /\ g_table s' = VTable (<[ret := 4800]> {[1 := 4242; 2 := 4711]}) false).
Proof.
  apply (forked_parent_resumes msg_zero (forking_process 4800) (registered_child 4800) [3; 2]%positive [4]%positive 4800
    (s_os (g_k (registered_child 4800))) (cs "5")).
  - apply process_forks.
  - reflexivity.
  - reflexivity.
  - reflexivity.
  - vm_compute. reflexivity.
Defined.

Lemma failed_fork_undefined_witness : __fork_hook (K := sys machine) (forking_process (-1)) = Ub.
Proof.
  apply (failed_fork_undefined msg_zero (forking_process (-1)) (registered_child (-1)) [3; 2]%positive [4]%positive
    (s_os (g_k (registered_child (-1))))).
  - apply process_forks.
  - reflexivity.
Defined.

(** ** Starting *)

(** What the coordinator answers a launched program: process 2, child of 1. *)
Definition launch_ids : xnd_msg := with_ids (replicate 16 7) 1001 1000 1001 (with_pids 4711 4242 2 1 msg_zero).
Definition new_machine : machine := Machine {[7 := ack launch_ids]} 4711 4242 0 std SigWorld.fresh.
Definition loaded_process : pstate (sys machine) :=
  PState (Pids (-1) (-1) (-1) (-1)) (Ids 0 0 0 (replicate 16 0) 0 0 false) (Client (-1) (-1) (-1) false)
    (VTable ∅ false) None (Process.Lib XND_UNINITIALIZED false) 0 (EnvState {[XND_TMP_BINARY_ENV := cs "/tmp/a.out-tmp"; XND_UNLINK_TMP_ENV := cs "1"]} (-1))
    (Sys (put_init false (blank_table new_machine)) no_sigs
       (TlsState 0x1000E0 {[slot_at 0x1000E0 TSD_XND_FLAG := 0]} 0 0) loaded_threads CkptNone false new_machine).
Definition registered : pstate (sys machine) := end_of connect_to_coord_on_launch loaded_process.
Lemma loaded_ok : loaded loaded_process.
Proof. split; try done; by eexists. Defined.

Lemma library_starts_witness :
  returns (xnd_setup (O := machine) garbage handler_at tramp_at 0) loaded_process (fun _ s' =>
    libxnd_state (g_lib s') = XND_RUNNING /\ tlv_ok (g_lib s') = true /\ g_self s' = Some (Thr ST_RUNNING 0) /\
    settled (s_threads (g_k s')) [2%positive] [] /\ s_ckpt (g_k s') = CkptServing /\
    wf 1 (fds_of s') /\ exact (fds_of s') /\
    vlocked (g_table s') = false /\ table (g_table s') !! virt_pid (g_pids s') = Some (real_pid (g_pids s')) /\
    table (g_table s') !! virt_ppid (g_pids s') = Some (real_ppid (g_pids s')) /\
    forall j, disp (s_os (g_k s')) j =
      if j =? XND_DEFAULT_CKPT_SIGNAL then installed tramp_at (Sigaction handler_at 0 SA_SIGINFO)
      else disp (s_os (g_k registered)) j).
Proof.
  eapply (library_starts garbage handler_at tramp_at loaded_process registered XND_DEFAULT_CKPT_SIGNAL).
  - exact loaded_ok.
  - vm_compute. reflexivity.
  - vm_compute. repeat split; discriminate.
  - vm_compute. reflexivity.
  - vm_compute. repeat split; discriminate.
  - by intros o o' j ->.
Defined.

(** ** Leaving, with a thread still running and the checkpoint thread serving *)

Lemma exit_frees_running_witness :
  let s := mid (forking_process 0) XND_EXITING true (threads_of (in_hook (the_process new_machine))) proc_tls CkptServing new_machine in
  returns thread_list_destroy s (fun _ s' =>
    s_ckpt (g_k s') = CkptServing /\ tlv_ok (g_lib s') = false /\
    (forall p, p ∈ [3; 2]%positive ++ [4]%positive -> heap (s_threads (g_k s')) !! p = None) /\
    (exists c, heap (s_threads (g_k s')) !! ckpt_thread = Some c /\ n_lock c = Dead) /\
    thread_list (s_threads (g_k s')) = TList (first [3; 2]%positive None) Dead /\
    zombie_list (s_threads (g_k s')) = TList (first [4]%positive None) Dead).
Proof.
  apply exit_frees_running.
  - exact (process_rep new_machine).
  - by eexists.
  - done.
Defined.

(** ** A checkpoint and a restart *)

(** The process with the descriptors of [FdWorld.at_work] and the dispositions
    of [SigWorld.program]. *)
Definition carry (t : fdt files) (m : machine) : fdt machine := FdT (t_table t) (t_lock t) (t_init t) (t_heap t) (t_alloc t) m.
Definition the_token : Z := 0xABCD.
Definition working_tls : tls_state := TlsState 0x1000E0
  (list_to_map [(slot_at 0x1000E0 TSD_THREAD_SELF, 0x100000); (0x100000, Z.lxor 0x100000 the_token);
                (slot_at 0x1000E0 TSD_PTR_MUNGE, the_token); (slot_at 0x1000E0 TSD_XND_FLAG, TSD_XND_INIT)]) 0 0.
Definition working_machine : machine := Machine ∅ 4711 4242 0 (t_k at_work) start.
Definition working : pstate (sys machine) :=
  PState (Pids 2 4711 1 4242) (Ids 1001 1000 1001 (replicate 16 7) 3 1 true) (Client 210 (-1) (-1) false)
    (VTable {[1 := 4242; 2 := 4711]} false) (Some (Thr ST_CKPT_THREAD 0)) (Process.Lib XND_CKPT_PENDING true) 0 (EnvState ∅ 31)
    (Sys (carry at_work working_machine)
       (Sigs (-1) (repeat no_action 32) (EnvState ∅ 31) 0 (Stack 0 0 0) 0 working_machine)
       working_tls proc_threads CkptServing true working_machine).

Lemma working_saveable : saveable 31 working.
Proof.
  split; try done.
  - destruct at_work_tracks as [H1 H2 H3 H4 H5 H6]. split; assumption.
  - intros i p x Ho. change (opened_at at_work i p x) in Ho.
    destruct (at_work_opened i p x Ho) as [(_ & _ & ->)|(_ & _ & ->)]; discriminate.
Defined.

(** The restarted program: the coordinator answers and releases it. *)
Definition released : list Z := msg_bytes (with_hdr (hdr_code XND_RESUME_AFTER_RESTART) msg_zero).
Definition restarted_machine : machine := Machine {[7 := ack launch_ids ++ released]} 5000 1 0 std SigWorld.fresh.
Definition restarted_tls (token : Z) : tls_state := TlsState 0x2000E0
  (list_to_map [(slot_at 0x2000E0 TSD_THREAD_SELF, 0x200000); (0x200000, 0x1234); (slot_at 0x2000E0 TSD_PTR_MUNGE, 0x77);
                (slot_at 0x2000E0 TSD_XND_FLAG, 0)]) token 0.
Definition checkpointed : pstate (sys machine) := end_of (xnd_precheckpoint handler_at tramp_at) working.
Definition reloaded : pstate (sys machine) :=
  put_sys (fun w => put_os restarted_machine (put_tls (restarted_tls the_token) w)) checkpointed.
Definition reconnected : pstate (sys machine) := end_of (reconnect msg_zero) reloaded.

Lemma state_restored_witness :
  returns (xnd_postrestart_early msg_zero handler_at tramp_at) reloaded (fun _ s' =>
    same_descriptors (fds_of working) (s_os (g_k reconnected)) (s_os (g_k s')) /\
    (forall j, valid_sig j -> disp (s_os (g_k s')) j = installed tramp_at (the_action handler_at 31 working_machine j)) /\
    munged (s_tls (g_k s')) 0x200000 the_token).
Proof.
  destruct (returns_inv _ _ _ (state_restored msg_zero handler_at tramp_at 31 working 0x100000 the_token
    working_saveable ltac:(by split) ltac:(done))) as ([] & s1 & E & H).
  assert (s1 = checkpointed) as -> by (unfold checkpointed, end_of; by rewrite E).
  apply H.
  - split; [reflexivity|reflexivity|by eexists|by eexists].
  - vm_compute. reflexivity.
  - vm_compute. reflexivity.
  - intros i Hi. assert (i = 0 \/ i = 1 \/ i = 2) as [-> |[-> | ->] ] by lia; vm_compute; by eexists.
Defined.
